(* ===== verification/_CoqProject ===== *)
-Q . S2P
Prelude.v
User.v
Grep.v
Wakeup.v
Umalloc.v
UmallocSpec.v
UmallocOps.v
UmallocTheorems.v
Sh.v
ShSpec.v
ShParse.v
ShRun.v
ShTheorems.v
CString.v
Ulib.v
Uprintf.v
Uprogs.v
UserTheorems.v
Layout.v
Spinlock.v
Kalloc.v
State.v
Output.v
Vm.v
Proc.v
SleepLock.v
Bio.v
Log.v
Fs.v
Pipe.v
Console.v
File.v
ProcFs.v
Exec.v
Syscall.v
Sysfile.v
Virtio.v
Trap.v
Boot.v
ProcSpec.v
SleepSpec.v
ConsoleSpec.v
Ring.v
CacheSpec.v
DiskSystem.v
CacheInit.v
LogSpec.v
LogOps.v
FsTx.v
FsMap.v
FsFile.v
FsInode.v
FsRead.v
FsCommit.v
Mkfs.v
MkfsSpec.v
MkfsTheorems.v
MkfsTypes.v
VmSpec.v
AddrSpace.v
UserMem.v
UserFree.v
UserCopy.v
ObjCopy.v
UserFork.v
PipeSpec.v
ProcMem.v
Fork.v
SmallMachine.v
MemTheorems.v
ProcTheorems.v
ForkTheorems.v
PipeTheorems.v
LogTheorems.v
FsWrite.v
FsUser.v
FsDir.v
FsTheorems.v
MkfsKernel.v
ConsoleTheorems.v
