(* ===== verification/Prelude.v ===== *)
(** * A verification of the xv6 kernel for RISC-V

    The program is a small Unix: a kernel (kernel/), the shell, tools and
    library of its user programs (user/), and the builder of its disk image
    (mkfs/).  This development translates the C code into functional
    definitions and proves what makes its parts correct.

    ** The parts of the program and how they interact

    The page allocator (kalloc.c) hands out physical pages.  Virtual memory
    (vm.c) builds Sv39 page tables in such pages, and moves bytes between the
    kernel and user memory.  The process table (proc.c) gives each process a
    page table, a trapframe and a kernel stack, and multiplexes the harts;
    sleep and wakeup block a process until something happens.  Spin locks
    (spinlock.c) protect all of these, sleep locks (sleeplock.c) what is held
    across a disk operation.  The disk driver (virtio_disk.c) moves blocks,
    the buffer cache (bio.c) keeps copies of them, the log (log.c) makes
    groups of block writes atomic, and the file system (fs.c) builds inodes,
    directories and paths on top.  Open files (file.c) are inodes, pipes
    (pipe.c) or devices such as the console (console.c, uart.c).  System calls
    (syscall.c, sysproc.c, sysfile.c, exec.c) are entered through traps
    (trap.c, plic.c); start.c and main.c boot the machine.  User programs reach
    the kernel only through system calls.

    ** How the code is modelled

    C integers are [Z] values with the wrap of their type written out, but for
    the int counters noff, ref of an inode and ref of a file: their overflow is
    undefined in C, and no run comes near it.
    Physical memory is a map of bytes ([Prelude.v]); page tables, the free
    list, trapframes and user pages live in it.  Kernel objects that C keeps
    in static arrays are records in one state [kst] ([State.v]); a pointer to
    an element is its index.  Kernel code is written in a state monad whose
    outcomes are a value, a panic, or divergence ([M] in [Prelude.v]); a read
    outside of an object is [ub], a panic of its own.  A loop that is not
    structural carries a bound on its iterations; running out of it is
    [Diverge], never a value, and the theorems show that it is not reached:
    the bounds are the length of the list, the number of pages, or the number
    of bytes that the loop walks over.

    One kernel thread runs at a time.  Where the code gives up the hart (the
    swtch of sched), what the rest of the system does is the function
    [others] of the class [Others] ([Proc.v]), about which nothing is assumed;
    theorems about code that sleeps state what they need of it.  For a process
    that waits for the disk the rest of the system is modelled, not assumed:
    [system] of [DiskSystem.v] runs the scheduler, which finds no other process
    to run, the disk, and the interrupt through kerneltrap, devintr and
    virtio_disk_intr, until the process is picked again.  True
    interleaving is modelled where it is the point: the race of harts for one
    lock (Module [Race] of [Spinlock.v]) and the race between sleep and wakeup
    ([Wakeup.v]) are step relations at the grain of memory accesses and lock
    operations, over any number of processes.

    The cache is proved over any driver that satisfies the class [DiskLaws]
    ([CacheSpec.v]), and [DiskSystem.v] proves that the driver of the kernel
    does: virtio_disk_rw over [system] completes each request of a process
    that is the only one to run and holds no spin lock, for blocks below 2^31.
    What is left as a hypothesis is the device: the class [HardwareLaws] says
    that it serves a well-formed chain of three descriptors as the virtio
    standard has it.  The theorems on cache, log and files are stated over this
    driver.  Addresses fixed by the linker script are the class
    [KernelImage].  These classes are instantiated in the witnesses.

    User programs are written in a monad of their own ([U] in [User.v]): a run
    is a list of answers of the kernel, about which nothing is assumed, and the
    system calls made so far; it ends in a value, an exit, another program, or
    a call that has no answer yet.  A loop of such a program makes a call in
    every turn, so the number of answers bounds its turns, and the theorems
    show that the bound is not reached.

    ** Files

    - [Prelude.v]: integers, bytes, the monad, tactics, and fields
      laid over byte arrays.  [CString.v]: kernel/string.c.  [Layout.v]:
      param.h, memlayout.h, riscv.h, proc.h.
    - [Spinlock.v], [SleepLock.v], [Kalloc.v], [Vm.v], [Proc.v], [ProcFs.v],
      [Bio.v], [Log.v], [Fs.v], [Pipe.v], [File.v], [Console.v], [Output.v],
      [Exec.v], [Syscall.v], [Sysfile.v], [Virtio.v], [Trap.v], [Boot.v]: the
      kernel files of the same names, one definition per C function and one
      per loop ([Output.v] is printf.c, [Trap.v] includes plic.c and the
      dispatch of syscall.c, [ProcFs.v] is the part of proc.c that uses the
      file system).
    - [VmSpec.v], [AddrSpace.v], [UserMem.v], [UserFree.v], [UserCopy.v],
      [ObjCopy.v], [UserFork.v], with [MemTheorems.v]: page tables refine
      finite maps from virtual pages to entries; uvmalloc, uvmdealloc, uvmcopy,
      uvmfree, mappages, copyin, copyout and copyinstr are proved against
      them, on every branch, with every page accounted for when memory runs
      out.
    - [ProcMem.v], [Fork.v] with [ForkTheorems.v]: fork gives the
      child a copy of the parent, or returns every page; it fails only for want
      of a slot or of pages, with a bound on the pages it takes.  [ProcSpec.v],
      [SleepSpec.v] with [ProcTheorems.v]: wakeup, kill and wait.
      [Wakeup.v]: no wakeup is lost, and every waiter gets through.
    - [Ring.v], [CacheSpec.v], [CacheInit.v]: the buffer cache, with its
      circular list in the buffers' own fields, refines a view of the disk.
      [DiskSystem.v]: the driver, the scheduler and the disk interrupt.
      [LogSpec.v], [LogOps.v] with [LogTheorems.v]: a transaction is all or
      nothing across any sequence of power cuts, during commit and during
      recovery.
    - [FsTx.v]: blocks and the free map inside a transaction.  [FsMap.v]: the
      block map of a file, direct and indirect.  [FsFile.v], [FsInode.v]:
      writei and iupdate.  [FsRead.v]: readi, against the classes
      [BlockReader] and [Receiver].  [FsCommit.v], [FsWrite.v]: filewrite as a
      sequence of transactions.  [FsUser.v]: files and user memory.
      [FsDir.v]: directories, the inode cache and path names.
      [FsTheorems.v]: from the user's buffer to the disk and back, across
      power cuts.
    - [PipeSpec.v] with [PipeTheorems.v]: a pipe is a bounded queue.
      [ConsoleSpec.v] with [ConsoleTheorems.v]: the console's line discipline.
    - [Grep.v]: user/grep.c, its matcher against the languages of patterns and
      its buffering loop.
    - [Sh.v]: user/sh.c.  [ShSpec.v] and [ShParse.v]: the parser is sound and
      complete for a grammar, and terminates.  [ShRun.v]: the descriptors of
      the programs that runcmd starts.  [ShTheorems.v]: the theorems.
    - [Umalloc.v]: user/umalloc.c.  [UmallocSpec.v], [UmallocOps.v] with
      [UmallocTheorems.v]: the free list in order, no overlap, nothing lost.
    - [User.v]: system calls as user programs see them, and rules for what holds
      whatever the answers.  [Ulib.v]: user/ulib.c.
      [Uprintf.v]: user/printf.c, against the text a format denotes.
      [Uprogs.v]: cat, wc, echo, grep, kill, ln, ls, mkdir, rm, sleep, trace,
      init and zombie.  [UserTheorems.v]: cat, wc, grep and init.
    - [Mkfs.v]: mkfs/mkfs.c on a map of sectors.  [MkfsSpec.v] with
      [MkfsTheorems.v]: the image holds the files it was given.
      [MkfsTypes.v]: it is made of blocks of bytes.  [MkfsKernel.v]: the kernel
      finds its files by name and reads them back.
    - [SmallMachine.v]: twenty pages of RAM on which the theorems of the memory
      subsystem are instantiated.

    ** What the groups of theorems show

    A theorem is stated for every state that satisfies an invariant, and is
    followed by a witness that applies it to a concrete state.  The memory
    theorems show functional correctness and that no page leaks; the cache
    and log theorems refinement and crash safety; the file theorems that
    write() and read() move bytes between user memory and files through every
    layer down to the disk, crash-safely, and that a path leads where the
    directories on the disk say; the theorems on pipes, console,
    shell and allocator refinement of a queue, a line editor, a grammar and a
    set of disjoint blocks; the two step relations safety and liveness under
    every interleaving.  The theorems on mkfs show that the image it builds is
    the file system that the kernel's theorems assume, so that namei finds
    the files mkfs was given and read() returns their bytes.  The theorems on user
    programs hold for whatever the kernel answers: that a program exits or is in
    a call, and, if the answers are those of a kernel that serves files, what it
    has printed or copied of them.  Some theorems
    state what the code does where that is not what it should do: wait never
    reaps its children, recovery corrupts reference counts, a write to a busy
    console panics, a root directory with no room to spare makes the kernel
    panic, malloc of nearly 2^32 bytes returns memory that does not exist.

    ** Not modelled

    - The assembly files (entry.S, swtch.S, trampoline.S, kernelvec.S,
      initcode.S) and the registers they save: swtch is the point where
      [others] acts, and a trap is a call of usertrap or kerneltrap.
    - The TLB, caches and memory ordering of the machine, and the devices
      themselves: the disk appears through [HardwareLaws], the UART as the bytes
      that enter and leave it.
    - Files, inodes and buffers used by several processes at once: the theorems
      on cache, log and files are about a process that finds the locks free
      while no other process runs.
    - A failing malloc in the constructors of commands in sh.c, which do not
      check for it.
    - kernel/ramdisk.c, which is not built and does not compile; headers that
      hold only declarations; usys.pl, which generates the system call stubs.
    - The test programs (usertests.c, grind.c and others), which promise
      nothing to other code.
    - The messages and failing image reads and writes of mkfs, and the memory
      in which user programs keep their arguments and buffers: these are lists
      of bytes, and only user/ulib.c and user/umalloc.c work on memory.
*)

From Stdlib Require Export ZArith Lia String.
From stdpp Require Export base tactics numbers list list_numbers gmap fin_maps strings.

#[global] Open Scope Z_scope.

(** ** Machine integers *)

(** C integers are [Z] values; every operation that can wrap is followed by
    the wrap of its type. *)
Definition u8 (x : Z) : Z := x mod 256.
Definition u16 (x : Z) : Z := x mod 65536.
Definition u32 (x : Z) : Z := x mod 4294967296.
Definition u64 (x : Z) : Z := x mod 18446744073709551616.

(** Conversion to a signed 32-bit [int]: two's complement. *)
Definition s32 (x : Z) : Z :=
  let y := x mod 4294967296 in if y <? 2147483648 then y else y - 4294967296.

(** Conversion to a signed 16-bit [short]. *)
Definition s16 (x : Z) : Z :=
  let y := x mod 65536 in if y <? 32768 then y else y - 65536.

(** C truth value of an integer. *)
Definition truthy (x : Z) : bool := negb (x =? 0).

(** [zlia]: linear arithmetic with division and remainder by constants. *)
Ltac zlia := Z.div_mod_to_equations; lia.

(** [in_list]: membership in explicit lists. *)
Ltac in_list := rewrite ?elem_of_app, ?elem_of_cons, ?elem_of_nil in *; tauto.

(** [bool_hyps]: turn boolean comparison hypotheses into propositions. *)
Ltac bool_hyps :=
  repeat match goal with
  | H : (_ =? _) = true |- _ => apply Z.eqb_eq in H
  | H : (_ =? _) = false |- _ => apply Z.eqb_neq in H
  | H : (_ <? _) = true |- _ => apply Z.ltb_lt in H
  | H : (_ <? _) = false |- _ => apply Z.ltb_ge in H
  | H : (_ <=? _) = true |- _ => apply Z.leb_le in H
  | H : (_ <=? _) = false |- _ => apply Z.leb_gt in H
  | H : negb _ = true |- _ => apply negb_true_iff in H
  | H : negb _ = false |- _ => apply negb_false_iff in H
  | H : (_ && _)%bool = true |- _ => apply andb_true_iff in H as [? ?]
  | H : (_ || _)%bool = false |- _ => apply orb_false_iff in H as [? ?]
  end.

(** [cases_if]: split on the boolean comparison of the first [if] of the goal. *)
Ltac cases_if :=
  match goal with
  | |- context [if ?b then _ else _] =>
      let E := fresh "E" in destruct b eqn:E; bool_hyps
  end.

Lemma u64_small x : 0 <= x < 18446744073709551616 -> u64 x = x.
Proof. intros H. by apply Z.mod_small. Qed.

Lemma u64_range x : 0 <= u64 x < 18446744073709551616.
Proof. by apply Z.mod_pos_bound. Qed.

Lemma s32_small x : -2147483648 <= x < 2147483648 -> s32 x = x.
Proof. intros H. unfold s32. destruct (Z.ltb_spec (x mod 4294967296) 2147483648); zlia. Qed.

Lemma u32_small x : 0 <= x < 4294967296 -> u32 x = x.
Proof. intros H. by apply Z.mod_small. Qed.

Lemma u32_range x : 0 <= u32 x < 4294967296.
Proof. by apply Z.mod_pos_bound. Qed.

Lemma u8_range x : 0 <= u8 x < 256.
Proof. by apply Z.mod_pos_bound. Qed.

Lemma u8_small x : 0 <= x < 256 -> u8 x = x.
Proof. intros H. by apply Z.mod_small. Qed.

(** ** Bit operations as arithmetic *)

Lemma lor_disjoint k f n : 0 <= n -> 0 <= f < 2 ^ n -> Z.lor (k * 2 ^ n) f = k * 2 ^ n + f.
Proof.
  intros Hn Hf. symmetry. rewrite <- Z.lxor_lor, <- Z.add_nocarry_lxor; try done.
  all: apply Z.bits_inj'; intros i Hi; rewrite Z.land_spec, Z.bits_0.
  all: destruct (Z.lt_ge_cases i n);
    [ rewrite Z.mul_pow2_bits_low by done; done
    | rewrite andb_comm, <- (Z.mod_small f (2 ^ n)), Z.mod_pow2_bits_high by lia; done ].
Qed.

Lemma lor_range a b n : 0 <= n -> 0 <= a < 2 ^ n -> 0 <= b < 2 ^ n -> 0 <= Z.lor a b < 2 ^ n.
Proof.
  intros Hn Ha Hb. rewrite <- (Z.mod_small a (2 ^ n)), <- (Z.mod_small b (2 ^ n)) by lia.
  rewrite <- !Z.land_ones, <- Z.land_lor_distr_l, Z.land_ones by lia.
  apply Z.mod_pos_bound. lia.
Qed.

Lemma land_range a b n : 0 <= n -> 0 <= a < 2 ^ n -> 0 <= Z.land a b < 2 ^ n.
Proof.
  intros Hn Ha. rewrite <- (Z.mod_small a (2 ^ n)), <- Z.land_ones by lia.
  rewrite <- Z.land_assoc, (Z.land_comm (Z.ones n)), Z.land_assoc, Z.land_ones by lia.
  apply Z.mod_pos_bound. lia.
Qed.

Lemma land_ones_mod a n : 0 <= n -> Z.land a (Z.ones n) = a mod 2 ^ n.
Proof. apply Z.land_ones. Qed.

Lemma land_neg_pow2 a n : 0 <= n -> Z.land a (- 2 ^ n) = a - a mod 2 ^ n.
Proof.
  intros Hn. assert (- 2 ^ n = Z.lnot (Z.ones n)) as ->.
  { pose proof (Z.add_lnot_diag (Z.ones n)). rewrite Z.ones_equiv in *. lia. }
  rewrite <- Z.ldiff_land, Z.ldiff_ones_r by done.
  rewrite Z.shiftr_div_pow2, Z.shiftl_mul_pow2 by done.
  pose proof (Z.div_mod a (2 ^ n) ltac:(lia)). lia.
Qed.

(** ** Lists *)

Lemma elem_of_rev {A} (x : A) l : x ∈ rev l <-> x ∈ l.
Proof. by rewrite <- (Permutation_rev l). Qed.

Lemma elem_of_take_drop {A} (x : A) n l : x ∈ l <-> x ∈ take n l \/ x ∈ drop n l.
Proof. by rewrite <- elem_of_app, take_drop. Qed.

(** The bytes of a string literal. *)
Definition str (s : string) : list Z := (fun c => Z.of_N (Ascii.N_of_ascii c)) <$> list_ascii_of_string s.

(** ** Physical memory: bytes addressed by [Z] *)

(** A byte that was never written reads as 0; every read is reduced to a byte. *)
Abbreviation mem := (gmap Z Z).

Definition rd (m : mem) (a : Z) : Z := u8 (default 0 (m !! a)).
Definition wr (m : mem) (a v : Z) : mem := <[a := u8 v]> m.

Lemma rd_range m a : 0 <= rd m a < 256.
Proof. apply u8_range. Qed.

Lemma rd_wr m a v b : rd (wr m a v) b = if a =? b then u8 v else rd m b.
Proof.
  unfold rd, wr. destruct (Z.eqb_spec a b) as [->|Hne].
  - rewrite lookup_insert_eq. simpl. unfold u8. by rewrite Z.mod_mod.
  - by rewrite lookup_insert_ne.
Qed.

(** Equality of memories, kept out of reach of the tactics that compute the
    sides of an equation. *)
Definition mem_is (m m' : mem) : Prop := m = m'.

(** Little-endian words of [n] bytes. *)
Fixpoint rdn (n : nat) (m : mem) (a : Z) : Z :=
  match n with
  | O => 0
  | S n' => rd m a + 256 * rdn n' m (a + 1)
  end.

Fixpoint wrn (n : nat) (m : mem) (a v : Z) : mem :=
  match n with
  | O => m
  | S n' => wrn n' (wr m a v) (a + 1) (v / 256)
  end.

Definition rd64 (m : mem) (a : Z) : Z := rdn 8 m a.
Definition wr64 (m : mem) (a v : Z) : mem := wrn 8 m a v.
Definition rd32 (m : mem) (a : Z) : Z := rdn 4 m a.
Definition wr32 (m : mem) (a v : Z) : mem := wrn 4 m a v.

(** A run of bytes. *)
Fixpoint wrs (m : mem) (a : Z) (bs : list Z) : mem :=
  match bs with
  | [] => m
  | b :: bs' => wrs (wr m a b) (a + 1) bs'
  end.

Definition rds (m : mem) (a n : Z) : list Z := (fun i => rd m (a + i)) <$> seqZ 0 n.

(** The bytes of a little-endian word. *)
Fixpoint le_bytes (n : nat) (v : Z) : list Z :=
  match n with
  | O => []
  | S n' => u8 v :: le_bytes n' (v / 256)
  end.

Fixpoint le_val (bs : list Z) : Z :=
  match bs with
  | [] => 0
  | b :: bs' => b + 256 * le_val bs'
  end.

(** Fields of a structure laid over an array of bytes. *)
Definition peek (n : nat) (bs : list Z) (off : Z) : Z := le_val (take n (drop (Z.to_nat off) bs)).
Definition poke (n : nat) (bs : list Z) (off v : Z) : list Z :=
  take (Z.to_nat off) bs ++ le_bytes n v ++ drop (Z.to_nat off + n) bs.

(** Overwrite a run of bytes. *)
Definition splice (bs : list Z) (off : Z) (new : list Z) : list Z :=
  take (Z.to_nat off) bs ++ new ++ drop (Z.to_nat off + length new) bs.

Lemma rd_wrn n m a v b :
  rd (wrn n m a v) b =
  if (a <=? b) && (b <? a + Z.of_nat n) then u8 (v / 256 ^ (b - a)) else rd m b.
Proof.
  revert m a v. induction n as [|n IH]; intros m a v; cbn [wrn].
  { destruct (Z.leb_spec a b), (Z.ltb_spec b (a + Z.of_nat 0)); simpl; done || lia. }
  rewrite IH, rd_wr.
  destruct (Z.eqb_spec a b) as [->|Hne].
  - destruct (Z.leb_spec (b + 1) b); [lia|]. simpl.
    rewrite Z.sub_diag, Z.pow_0_r, Z.div_1_r, Z.leb_refl.
    destruct (Z.ltb_spec b (b + Z.of_nat (S n))); [done|lia].
  - destruct (Z.leb_spec (a + 1) b), (Z.leb_spec a b); simpl; try lia; try done.
    destruct (Z.ltb_spec b (a + 1 + Z.of_nat n)), (Z.ltb_spec b (a + Z.of_nat (S n)));
      simpl; try lia; try done.
    f_equal. rewrite Z.div_div by lia. f_equal.
    rewrite <- (Z.pow_succ_r 256) by lia. f_equal. lia.
Qed.

Lemma rd_wrs bs m a b :
  rd (wrs m a bs) b = if (a <=? b) && (b <? a + Z.of_nat (length bs)) then u8 (bs !!! Z.to_nat (b - a)) else rd m b.
Proof.
  revert m a. induction bs as [|x bs IH]; intros m a; cbn [wrs length].
  { destruct (Z.leb_spec a b), (Z.ltb_spec b (a + Z.of_nat 0)); simpl; done || lia. }
  rewrite IH, rd_wr. destruct (Z.eqb_spec a b) as [->|Hne].
  - destruct (Z.leb_spec (b + 1) b); [lia|]. simpl. rewrite Z.sub_diag, Z.leb_refl.
    destruct (Z.ltb_spec b (b + Z.of_nat (S (length bs)))); [done|lia].
  - destruct (Z.leb_spec (a + 1) b), (Z.leb_spec a b); simpl; try lia; try done.
    replace (a + 1 + Z.of_nat (length bs)) with (a + Z.of_nat (S (length bs))) by lia.
    destruct (b <? _); [|done]. replace (Z.to_nat (b - a)) with (S (Z.to_nat (b - (a + 1)))) by lia. done.
Qed.

Lemma rds_lookup m a n k : 0 <= k < n -> rds m a n !!! Z.to_nat k = rd m (a + k).
Proof.
  intros Hk. unfold rds. apply list_lookup_total_correct. rewrite list_lookup_fmap, lookup_seqZ_lt by lia.
  cbn. do 2 f_equal. lia.
Qed.

Lemma length_rds m a n : length (rds m a n) = Z.to_nat n.
Proof. unfold rds. by rewrite length_fmap, length_seqZ. Qed.

Lemma rdn_range n m a : 0 <= rdn n m a < 256 ^ Z.of_nat n.
Proof.
  revert a. induction n as [|n IH]; intros a; cbn [rdn]; [lia|].
  specialize (IH (a + 1)). pose proof (rd_range m a).
  rewrite Nat2Z.inj_succ, Z.pow_succ_r by lia. lia.
Qed.

Lemma rdn_ext n m m' a a' :
  (forall i, 0 <= i < Z.of_nat n -> rd m (a + i) = rd m' (a' + i)) -> rdn n m a = rdn n m' a'.
Proof.
  revert a a'. induction n as [|n IH]; intros a a' H; cbn [rdn]; [done|].
  pose proof (H 0 ltac:(lia)) as H0. rewrite !Z.add_0_r in H0. rewrite H0.
  rewrite (IH (a + 1) (a' + 1)); [done|].
  intros i Hi. rewrite <- !Z.add_assoc, (Z.add_comm 1). apply H. lia.
Qed.

Lemma rdn_wrn_same n m a v : rdn n (wrn n m a v) a = v mod 256 ^ Z.of_nat n.
Proof.
  revert m a v. induction n as [|n IH]; intros m a v; cbn [rdn wrn].
  { by rewrite Z.mod_1_r. }
  rewrite IH, rd_wrn, rd_wr. destruct (Z.leb_spec (a + 1) a); [lia|]. simpl.
  rewrite Z.eqb_refl, Nat2Z.inj_succ, Z.pow_succ_r by lia.
  by rewrite Z.rem_mul_r by lia.
Qed.

Lemma rd64_wr64_same m a v : rd64 (wr64 m a v) a = u64 v.
Proof. apply (rdn_wrn_same 8). Qed.

Lemma rd64_range m a : 0 <= rd64 m a < 18446744073709551616.
Proof. apply (rdn_range 8). Qed.

Lemma rd_wr64 m a v b :
  rd (wr64 m a v) b = if (a <=? b) && (b <? a + 8) then u8 (v / 256 ^ (b - a)) else rd m b.
Proof. apply (rd_wrn 8). Qed.

Lemma rd_wr64_ne m a v b : b < a \/ a + 8 <= b -> rd (wr64 m a v) b = rd m b.
Proof.
  intros H. unfold wr64. rewrite rd_wrn.
  destruct (Z.leb_spec a b), (Z.ltb_spec b (a + Z.of_nat 8)); simpl; done || lia.
Qed.

Lemma rd64_ext m m' a :
  (forall b, a <= b < a + 8 -> rd m b = rd m' b) -> rd64 m a = rd64 m' a.
Proof. intros H. apply rdn_ext. intros i Hi. apply H. lia. Qed.

Lemma rd64_wr64_ne m a v b : b + 8 <= a \/ a + 8 <= b -> rd64 (wr64 m a v) b = rd64 m b.
Proof. intros H. apply rd64_ext. intros c Hc. apply rd_wr64_ne. lia. Qed.

Lemma rd64_zero m a : (forall i, 0 <= i < 8 -> rd m (a + i) = 0) -> rd64 m a = 0.
Proof. intros H. transitivity (rdn 8 ∅ 0); [|done]. apply rdn_ext. intros i Hi. by rewrite H. Qed.

Lemma rd_nonzero_lookup m a : rd m a <> 0 -> is_Some (m !! a).
Proof. unfold rd. destruct (m !! a) eqn:E; [by eexists|done]. Qed.

#[global] Opaque rd wr rd64 wr64 rd32 wr32.

(** ** The kernel monad: state, panic, and code that does not return *)

(** [Ok a s]: the code returned [a] in state [s]; [Panic msg]: it called
    [panic(msg)], which never returns; [Diverge]: it spins for ever (a spin lock
    nobody releases) or the loop bound of the model is too small. *)
Inductive outcome (S A : Type) : Type :=
  | Ok (a : A) (s : S)
  | Panic (msg : string)
  | Diverge.
Arguments Ok {S A}.
Arguments Panic {S A}.
Arguments Diverge {S A}.

Definition M (S A : Type) : Type := S -> outcome S A.

Definition ret {S A} (a : A) : M S A := fun s => Ok a s.
Definition bind {S A B} (x : M S A) (f : A -> M S B) : M S B := fun s =>
  match x s with
  | Ok a s' => f a s'
  | Panic msg => Panic msg
  | Diverge => Diverge
  end.
Definition panic {S A} (msg : string) : M S A := fun _ => Panic msg.
Definition diverge {S A} : M S A := fun _ => Diverge.
Definition gets {S A} (f : S -> A) : M S A := fun s => Ok (f s) s.
(** An access outside an object, which C leaves undefined. *)
Definition ub {S A} : M S A := panic "undefined behaviour".
Definition modify {S} (f : S -> S) : M S unit := fun s => Ok tt (f s).
Definition skip {S} : M S unit := ret tt.

Declare Scope kernel_scope.
Delimit Scope kernel_scope with K.
Notation "'let!' x := e 'in' k" := (bind e (fun x => k))
  (at level 10, x name, e at level 200, k at level 200) : kernel_scope.
Notation "e ;; k" := (bind e (fun _ => k))
  (at level 100, right associativity) : kernel_scope.
#[global] Open Scope kernel_scope.

Lemma bind_Ok {S A B} (x : M S A) (f : A -> M S B) s a s' :
  x s = Ok a s' -> bind x f s = f a s'.
Proof. intros H. unfold bind. by rewrite H. Qed.

Lemma bind_Panic {S A B} (x : M S A) (f : A -> M S B) s msg :
  x s = Panic msg -> bind x f s = Panic msg.
Proof. intros H. unfold bind. by rewrite H. Qed.

Lemma bind_gets {S A B} (f : S -> A) (k : A -> M S B) s : bind (gets f) k s = k (f s) s.
Proof. done. Qed.

Lemma bind_modify {S B} (f : S -> S) (k : unit -> M S B) s : bind (modify f) k s = k tt (f s).
Proof. done. Qed.

Lemma bind_ret {S A B} (a : A) (k : A -> M S B) s : bind (ret a) k s = k a s.
Proof. done. Qed.

Lemma bind_skip {S B} (k : unit -> M S B) s : bind skip k s = k tt s.
Proof. done. Qed.

Lemma bind_panic {S A B} msg (k : A -> M S B) s : bind (panic msg) k s = Panic msg.
Proof. done. Qed.

Lemma bind_assoc {S A B C} (x : M S A) (f : A -> M S B) (g : B -> M S C) s :
  bind (bind x f) g s = bind x (fun a => bind (f a) g) s.
Proof. unfold bind. by destruct (x s). Qed.

Create Rewrite HintDb monad.
#[export] Hint Rewrite @bind_gets @bind_modify @bind_ret @bind_skip @bind_panic @bind_assoc : monad.

(** [mstep]: run the deterministic steps at the head of a computation. *)
Ltac mstep := repeat (progress (autorewrite with monad; cbv beta)).

#[global] Arguments bind : simpl never.

(** [for x in l do body x] *)
Fixpoint mfor {S A} (l : list A) (body : A -> M S unit) : M S unit :=
  match l with
  | [] => skip
  | x :: l' => body x;; mfor l' body
  end.

(** Run a computation on a component of a larger state. *)
Definition lift {S T A} (get : S -> T) (put : T -> S -> S) (x : M T A) : M S A := fun s =>
  match x (get s) with
  | Ok a t => Ok a (put t s)
  | Panic msg => Panic msg
  | Diverge => Diverge
  end.

(** ** Structures laid over byte arrays

    [peek] and [poke] read and write a little-endian field; a field read after
    it is written, or after another one is written, is what it should be. *)

Lemma length_le_bytes n v : length (le_bytes n v) = n.
Proof. revert v. induction n; intros; cbn; auto. Qed.

Lemma le_val_bytes n v : le_val (le_bytes n v) = v mod 256 ^ Z.of_nat n.
Proof.
  revert v. induction n as [|n IH]; intros v; cbn [le_bytes le_val]; [by rewrite Z.mod_1_r|].
  rewrite IH, Nat2Z.inj_succ, Z.pow_succ_r by lia. unfold u8. rewrite Z.rem_mul_r by lia. lia.
Qed.

Lemma le_val_range bs : Forall (fun b => 0 <= b < 256) bs -> 0 <= le_val bs < 256 ^ Z.of_nat (length bs).
Proof.
  induction 1 as [|b bs Hb _ IH]; cbn [le_val length]; [lia|]. rewrite Nat2Z.inj_succ, Z.pow_succ_r by lia. lia.
Qed.

Lemma le_bytes_range n v : Forall (fun b => 0 <= b < 256) (le_bytes n v).
Proof. revert v. induction n; intros; cbn; constructor; auto. apply u8_range. Qed.

Lemma length_poke n bs off v : 0 <= off -> off + Z.of_nat n <= Z.of_nat (length bs) -> length (poke n bs off v) = length bs.
Proof. intros H0 H1. unfold poke. rewrite !length_app, length_le_bytes, length_take, length_drop. lia. Qed.

Lemma peek_poke n bs off v : 0 <= off -> off + Z.of_nat n <= Z.of_nat (length bs) ->
  peek n (poke n bs off v) off = v mod 256 ^ Z.of_nat n.
Proof.
  intros H0 H1. unfold peek, poke. rewrite drop_app_length' by (rewrite length_take; lia).
  rewrite take_app_length' by (symmetry; apply length_le_bytes). apply le_val_bytes.
Qed.

Lemma peek_poke_ne n k bs off off' v : 0 <= off -> off + Z.of_nat n <= Z.of_nat (length bs) -> 0 <= off' ->
  off' + Z.of_nat k <= off \/ off + Z.of_nat n <= off' -> peek k (poke n bs off v) off' = peek k bs off'.
Proof.
  intros H0 H1 H2 H3. unfold peek. f_equal. apply list_eq. intros j. rewrite !lookup_take. case_decide as Hj; [|done].
  rewrite !lookup_drop. unfold poke. destruct H3 as [H3|H3].
  - rewrite lookup_app_l by (rewrite length_take; lia). rewrite lookup_take, decide_True by lia. done.
  - rewrite lookup_app_r by (rewrite length_take; lia). rewrite length_take, Nat.min_l by lia.
    rewrite lookup_app_r by (rewrite length_le_bytes; lia). rewrite length_le_bytes, lookup_drop. f_equal. lia.
Qed.
