(* ===== verification/User.v ===== *)
(** * User programs: system calls and what they print

    A user program is seen by the system calls it makes, in order, and by the
    answers it gets.  The answers are arbitrary: a theorem about a program holds
    for whatever the kernel does, or says what it assumes of the answers. *)

From S2P Require Import Prelude.

(** ** System calls *)

Inductive sys :=
  | Sread (fd n : Z)
  | Swrite (fd : Z) (bs : list Z)
  | Sopen (path : list Z) (mode : Z)
  | Sclose (fd : Z)
  | Sfstat (fd : Z)
  | Sdup (fd : Z)
  | Skill (pid : Z)
  | Slink (old new : list Z)
  | Sunlink (path : list Z)
  | Smkdir (path : list Z)
  | Smknod (path : list Z) (major minor : Z)
  | Ssleep (ticks : Z)
  | Strace (mask : Z)
  | Sfork
  | Swait
  | Sexec (path : list Z) (argv : list (list Z)).

(** What a call returns, and the bytes it stores where the program asked. *)
Record answer := Answer { a_ret : Z; a_data : list Z }.

(** The answers to come, and the calls made. *)
Record world := World { w_in : list answer; w_log : list sys }.

(** The program goes on, has exited with a status, has become another program,
    or is in a call that has not returned. *)
Inductive result (A : Type) :=
  | Done (a : A) (w : world)
  | Exit (status : Z) (w : world)
  | Became (path : list Z) (argv : list (list Z)) (w : world)
  | Waits (w : world).
Arguments Done {A}.
Arguments Exit {A}.
Arguments Became {A}.
Arguments Waits {A}.

Definition U (A : Type) : Type := world -> result A.

Definition uret {A} (a : A) : U A := fun w => Done a w.
Definition ubind {A B} (m : U A) (k : A -> U B) : U B := fun w =>
  match m w with
  | Done a w => k a w
  | Exit st w => Exit st w
  | Became p v w => Became p v w
  | Waits w => Waits w
  end.

Declare Scope user_scope.
Delimit Scope user_scope with user.
Notation "'let?' x := m 'in' k" := (ubind m (fun x => k)) (at level 10, x name, m at level 100, k at level 200) : user_scope.
Notation "m ;? k" := (ubind m (fun _ => k)) (at level 100, k at level 200, right associativity) : user_scope.

Definition exit {A} (status : Z) : U A := fun w => Exit status w.

Definition call (c : sys) : U answer := fun w =>
  match w_in w with
  | [] => Waits (World [] (w_log w ++ [c]))
  | a :: ans => Done a (World ans (w_log w ++ [c]))
  end.

Local Open Scope user_scope.

Definition scall (c : sys) : U Z := let? a := call c in uret (a_ret a).

(** read(fd, buf, n): the result and the bytes in buf. *)
Definition uread (fd n : Z) : U (Z * list Z) := let? a := call (Sread fd n) in uret (a_ret a, a_data a).
Definition uwrite (fd : Z) (bs : list Z) : U Z := scall (Swrite fd bs).
Definition open (path : list Z) (mode : Z) : U Z := scall (Sopen path mode).
Definition close (fd : Z) : U Z := scall (Sclose fd).

(** exec only returns when it fails. *)
Definition exec (path : list Z) (argv : list (list Z)) : U Z :=
  let? r := scall (Sexec path argv) in
  if r <? 0 then uret r else fun w => Became path argv w.

(** A loop whose every turn makes a call ends within as many turns as there are
    answers. *)
Definition looping {A} (body : nat -> U A) : U A := fun w => body (S (length (w_in w))) w.

(** ** What was written to a descriptor *)

Definition written_by (fd : Z) (c : sys) : list Z := match c with Swrite fd' bs => if fd' =? fd then bs else [] | _ => [] end.
Definition output (fd : Z) (log : list sys) : list Z := concat (written_by fd <$> log).

Lemma output_app fd l k : output fd (l ++ k) = output fd l ++ output fd k.
Proof. unfold output. by rewrite fmap_app, concat_app. Qed.

Lemma ubind_Done {A B} (m : U A) (k : A -> U B) w a w' : m w = Done a w' -> ubind m k w = k a w'.
Proof. intros H. unfold ubind. by rewrite H. Qed.

Lemma ubind_assoc {A B C} (m : U A) (f : A -> U B) (g : B -> U C) w : ubind (ubind m f) g w = ubind m (fun a => ubind (f a) g) w.
Proof. unfold ubind. by destruct (m w). Qed.

Lemma call_Done c a ans log : call c (World (a :: ans) log) = Done a (World ans (log ++ [c])).
Proof. done. Qed.

Lemma scall_Done c a ans log : scall c (World (a :: ans) log) = Done (a_ret a) (World ans (log ++ [c])).
Proof. done. Qed.

(** ** Reasoning about user programs for any answers

    [meets m Q]: whatever the kernel answers, [m] makes calls with a history [h]
    (each call with its answer) and an outcome such that [Q h] holds of it. *)

Definition history : Type := list (sys * answer).

(** How a program is left; a program that waits has made a call, or is at the
    bound of a loop. *)
Inductive outcome (A : Type) := Odone (a : A) | Oexit (status : Z) | Obecame (path : list Z) (argv : list (list Z)) | Owaits (c : option sys).
Arguments Odone {A}.
Arguments Oexit {A}.
Arguments Obecame {A}.
Arguments Owaits {A}.

(** The result [r] of a run from [ans] and [log] has the history [h]. *)
Definition runs {A} (ans : list answer) (log : list sys) (r : result A) (h : history) (o : outcome A) : Prop :=
  h.*2 `prefix_of` ans /\
  let w c := World (drop (length h) ans) (log ++ h.*1 ++ c) in
  match o with
  | Odone a => r = Done a (w [])
  | Oexit st => r = Exit st (w [])
  | Obecame p v => r = Became p v (w [])
  | Owaits (Some c) => r = Waits (w [c]) /\ length h = length ans
  | Owaits None => r = Waits (w [])
  end.

Definition meets {A} (m : U A) (Q : history -> outcome A -> Prop) : Prop :=
  forall ans log, exists h o, runs ans log (m (World ans log)) h o /\ Q h o.

(** *** Rules *)

Lemma meets_weaken {A} (m : U A) (Q Q' : history -> outcome A -> Prop) : meets m Q -> (forall h o, Q h o -> Q' h o) -> meets m Q'.
Proof. intros H HQ ans log. destruct (H ans log) as (h & o & Hr & Hq). exists h, o. split; [done|]. by apply HQ. Qed.

Lemma meets_ret {A} (a : A) (Q : history -> outcome A -> Prop) : Q [] (Odone a) -> meets (uret a) Q.
Proof. intros H ans log. exists [], (Odone a). split; [|done]. split; [apply prefix_nil|]. cbn. by rewrite drop_0, app_nil_r. Qed.

Lemma meets_exit {A} st (Q : history -> outcome A -> Prop) : Q [] (Oexit st) -> meets (exit st) Q.
Proof. intros H ans log. exists [], (Oexit st). split; [|done]. split; [apply prefix_nil|]. cbn. by rewrite drop_0, app_nil_r. Qed.

Lemma meets_became {A} p v (Q : history -> outcome A -> Prop) : Q [] (Obecame p v) -> meets (fun w => Became p v w) Q.
Proof. intros H ans log. exists [], (Obecame p v). split; [|done]. split; [apply prefix_nil|]. cbn. by rewrite drop_0, app_nil_r. Qed.

Lemma meets_stuck {A} (Q : history -> outcome A -> Prop) : Q [] (Owaits None) -> meets (fun w => Waits w) Q.
Proof. intros H ans log. exists [], (Owaits None). split; [|done]. split; [apply prefix_nil|]. cbn. by rewrite drop_0, app_nil_r. Qed.

Lemma meets_call c (Q : history -> outcome answer -> Prop) : (forall a, Q [(c, a)] (Odone a)) -> Q [] (Owaits (Some c)) -> meets (call c) Q.
Proof.
  intros H1 H2 [|a ans] log.
  - exists [], (Owaits (Some c)). split; [|done]. split; [apply prefix_nil|done].
  - exists [(c, a)], (Odone a). split; [|done]. split; [cbn; apply prefix_cons, prefix_nil|]. cbn. by rewrite drop_0, ?app_nil_r.
Qed.

(** The outcome of a sequence that is not left to its continuation. *)
Definition leaves {A B} (o : outcome A) : option (outcome B) :=
  match o with Odone _ => None | Oexit st => Some (Oexit st) | Obecame p v => Some (Obecame p v) | Owaits c => Some (Owaits c) end.

Lemma runs_bind {A B} (k : A -> U B) ans log (m : U A) h1 a h2 o : runs ans log (m (World ans log)) h1 (Odone a) ->
  runs (drop (length h1) ans) (log ++ h1.*1) (k a (World (drop (length h1) ans) (log ++ h1.*1))) h2 o -> runs ans log (ubind m k (World ans log)) (h1 ++ h2) o.
Proof.
  intros [P1 E1] [P2 E2]. cbn beta iota zeta in E1, E2. rewrite app_nil_r in E1. split.
  - rewrite fmap_app. destruct P1 as [r1 ->]. rewrite drop_app_length' in P2 by (by rewrite length_fmap). by apply prefix_app.
  - unfold ubind. rewrite E1. rewrite length_app, fmap_app, <- drop_drop. rewrite drop_drop in E2 |- *. rewrite (Nat.add_comm (length h1)) in *.
    destruct o as [b|st|p v|[c|]]; rewrite <- ?app_assoc in *; try done. destruct E2 as [-> E2]. split; [done|]. rewrite length_drop in E2. destruct P1 as [r1 ->]. rewrite length_app, length_fmap in *. lia.
Qed.

Lemma meets_bind {A B} (m : U A) (k : A -> U B) Q1 (Q : history -> outcome B -> Prop) : meets m Q1 ->
  (forall h1 o o', Q1 h1 o -> leaves o = Some o' -> Q h1 o') -> (forall h1 a, Q1 h1 (Odone a) -> meets (k a) (fun h2 o => Q (h1 ++ h2) o)) -> meets (ubind m k) Q.
Proof.
  intros Hm Hl Hk ans log. destruct (Hm ans log) as (h1 & o1 & R1 & HQ1). destruct o1 as [a|st|p v|c].
  - destruct (Hk h1 a HQ1 (drop (length h1) ans) (log ++ h1.*1)) as (h2 & o & R2 & HQ). exists (h1 ++ h2), o. split; [|done]. eapply runs_bind; [done|]. exact R2.
  - exists h1, (Oexit st). split; [|by eapply Hl]. destruct R1 as [P E]. split; [done|]. unfold ubind. by rewrite E.
  - exists h1, (Obecame p v). split; [|by eapply Hl]. destruct R1 as [P E]. split; [done|]. unfold ubind. by rewrite E.
  - exists h1, (Owaits c). split; [|by eapply Hl]. destruct R1 as [P E]. split; [done|]. unfold ubind. destruct c as [c|]; [destruct E as [-> E]; done|by rewrite E].
Qed.

(** A loop that makes a call in every turn is never at its bound. *)
Lemma meets_looping {A} (body : nat -> U A) Q : (forall fuel, meets (body fuel) (fun h o => (o = Owaits None -> (fuel <= length h)%nat) /\ Q h o)) ->
  meets (looping body) (fun h o => o <> Owaits None /\ Q h o).
Proof.
  intros H ans log. destruct (H (S (length ans)) ans log) as (h & o & R & Hb & HQ). exists h, o. split; [exact R|]. split; [|done].
  intros ->. specialize (Hb eq_refl). destruct R as [[r Hr] _]. apply (f_equal length) in Hr. rewrite length_app, length_fmap in Hr. lia.
Qed.

(** A call, and what follows. *)
Lemma meets_call_bind {B} c (k : answer -> U B) Q : (forall a, meets (k a) (fun h o => Q ((c, a) :: h) o)) -> Q [] (Owaits (Some c)) -> meets (ubind (call c) k) Q.
Proof.
  intros Hk Hw. apply (meets_bind _ _ (fun h o => match o with Odone a => h = [(c, a)] | Owaits (Some c') => h = [] /\ c' = c | _ => False end)).
  - by apply meets_call.
  - intros h [a|st|p v|[c'|]] o' Hq [= <-]; try done. by destruct Hq as [-> ->].
  - intros h a ->. apply Hk.
Qed.

Lemma meets_eta {A} (m m' : U A) Q : (forall w, m w = m' w) -> meets m' Q -> meets m Q.
Proof. intros E H ans log. rewrite E. apply H. Qed.

Lemma meets_scall_bind {B} c (k : Z -> U B) Q : (forall a, meets (k (a_ret a)) (fun h o => Q ((c, a) :: h) o)) -> Q [] (Owaits (Some c)) -> meets (ubind (scall c) k) Q.
Proof.
  intros Hk Hw. apply (meets_eta _ (ubind (call c) (fun a => k (a_ret a)))); [|by apply meets_call_bind]. intros [[|a ans] log]; done.
Qed.

Lemma meets_uread_bind {B} fd n (k : Z * list Z -> U B) Q : (forall a, meets (k (a_ret a, a_data a)) (fun h o => Q ((Sread fd n, a) :: h) o)) -> Q [] (Owaits (Some (Sread fd n))) ->
  meets (ubind (uread fd n) k) Q.
Proof.
  intros Hk Hw. apply (meets_eta _ (ubind (call (Sread fd n)) (fun a => k (a_ret a, a_data a)))); [|by apply meets_call_bind]. intros [[|a ans] log]; done.
Qed.
