(* ===== verification/Grep.v ===== *)
(** * user/grep.c: regular expressions

    A C string is the list of its bytes before the nul; [*text] is 0 at the
    end.  The matcher is proved against the languages that patterns denote. *)

From S2P Require Import Prelude.

Definition CARET : Z := 94.
Definition DOT : Z := 46.
Definition STAR : Z := 42.
Definition DOLLAR : Z := 36.
Definition NEWLINE : Z := 10.

(** ** The matcher *)

(** matchstar, given matchhere of the rest of the pattern. *)
Fixpoint matchstar (here : list Z -> bool) (c : Z) (text : list Z) : bool :=
  if here text then true else
  match text with
  | [] => false
  | t :: text' => if (t =? c) || (c =? DOT) then matchstar here c text' else false
  end.

Fixpoint matchhere (re text : list Z) : bool :=
  match re with
  | [] => true
  | r0 :: re1 =>
      match re1 with
      | r1 :: re2 =>
          if r1 =? STAR then matchstar (matchhere re2) r0 text else
          match text with
          | t :: text' => if (r0 =? DOT) || (r0 =? t) then matchhere re1 text' else false
          | [] => false
          end
      | [] =>
          if r0 =? DOLLAR then match text with [] => true | _ => false end else
          match text with
          | t :: text' => if (r0 =? DOT) || (r0 =? t) then matchhere re1 text' else false
          | [] => false
          end
      end
  end.

(** The loop of match over the suffixes of the text. *)
Fixpoint match_from (re text : list Z) : bool :=
  if matchhere re text then true else
  match text with
  | [] => false
  | _ :: text' => match_from re text'
  end.

Definition match_ (re text : list Z) : bool :=
  match re with
  | c :: re' => if c =? CARET then matchhere re' text else match_from re text
  | [] => match_from re text
  end.

(** ** What patterns mean *)

Inductive piece :=
| One (c : Z)
| Many (c : Z).

(** [c], a character of the pattern, stands for the character [t]. *)
Definition stands (c t : Z) : Prop := c = DOT \/ c = t.

Inductive language : list piece -> list Z -> Prop :=
| lang_nil : language [] []
| lang_one c t ps w : stands c t -> language ps w -> language (One c :: ps) (t :: w)
| lang_none c ps w : language ps w -> language (Many c :: ps) w
| lang_more c t ps w : stands c t -> language (Many c :: ps) w -> language (Many c :: ps) (t :: w).

(** The pieces of a pattern without its ^, and whether it ends in $. *)
Fixpoint parse (re : list Z) : list piece * bool :=
  match re with
  | [] => ([], false)
  | r0 :: re1 =>
      match re1 with
      | r1 :: re2 =>
          if r1 =? STAR then let p := parse re2 in (Many r0 :: fst p, snd p)
          else let p := parse re1 in (One r0 :: fst p, snd p)
      | [] => if r0 =? DOLLAR then ([], true) else ([One r0], false)
      end
  end.

(** The pattern matches at the start of the text. *)
Definition begins (re text : list Z) : Prop :=
  exists w rest, text = w ++ rest /\ language (fst (parse re)) w /\ (snd (parse re) = true -> rest = []).

(** ** The matcher decides it *)

Lemma stands_test c t : (c =? DOT) || (c =? t) = true <-> stands c t.
Proof. unfold stands. rewrite orb_true_iff, !Z.eqb_eq. done. Qed.

Lemma matchstar_spec here (P : list Z -> Prop) c text :
  (forall t, here t = true <-> P t) ->
  matchstar here c text = true <-> exists w rest, text = w ++ rest /\ Forall (stands c) w /\ P rest.
Proof.
  intros Hh. induction text as [|t text IH]; cbn [matchstar].
  - destruct (here []) eqn:E.
    + split; [|done]. intros _. exists [], []. split_and!; [done|constructor|by apply Hh].
    + split; [done|]. intros (w & rest & He & _ & HP). symmetry in He. apply app_eq_nil in He as [-> ->]. apply Hh in HP. congruence.
  - destruct (here (t :: text)) eqn:E.
    + split; [|done]. intros _. exists [], (t :: text). split_and!; [done|constructor|by apply Hh].
    + assert ((t =? c) || (c =? DOT) = true <-> stands c t) as Ht.
      { rewrite orb_comm, (Z.eqb_sym t c). apply stands_test. }
      split.
      * destruct ((t =? c) || (c =? DOT)); [|done]. intros (w & rest & -> & Hw & HP)%IH. exists (t :: w), rest.
        split_and!; [done|constructor; [by apply Ht|done]|done].
      * intros ([|x w] & rest & He & Hw & HP); cbn in He; [subst; apply Hh in HP; congruence|].
        injection He as <- ->. apply Forall_cons in Hw as [Hx Hw]. apply Ht in Hx as ->. apply IH. by exists w, rest.
Qed.

Lemma language_many c ps w : language (Many c :: ps) w <-> exists u v, w = u ++ v /\ Forall (stands c) u /\ language ps v.
Proof.
  split.
  - intros H. remember (Many c :: ps) as qs. induction H as [| |c' ps' w H _|c' t ps' w Ht H IH]; simplify_eq.
    + exists [], w. split_and!; [done|constructor|done].
    + destruct IH as (u & v & -> & Hu & Hv); [done|]. exists (t :: u), v. split_and!; [done|by constructor|done].
  - intros (u & v & -> & Hu & Hv). induction Hu as [|t u Ht Hu IH]; cbn; [by apply lang_none|by apply lang_more].
Qed.

Lemma begins_star r0 re2 text :
  begins (r0 :: STAR :: re2) text <-> exists w rest, text = w ++ rest /\ Forall (stands r0) w /\ begins re2 rest.
Proof.
  unfold begins. cbn [parse]. rewrite Z.eqb_refl. cbn [fst snd]. split.
  - intros (w & rest & -> & (u & v & -> & Hu & Hv)%language_many & Ha). exists u, (v ++ rest). split_and!; [by rewrite app_assoc|done|].
    by exists v, rest.
  - intros (u & rest & -> & Hu & v & rest' & -> & Hv & Ha). exists (u ++ v), rest'. split_and!; [by rewrite app_assoc| |done].
    apply language_many. by exists u, v.
Qed.

Lemma begins_one r0 re1 text : parse (r0 :: re1) = (One r0 :: fst (parse re1), snd (parse re1)) ->
  begins (r0 :: re1) text <-> exists t text', text = t :: text' /\ stands r0 t /\ begins re1 text'.
Proof.
  intros Hp. unfold begins at 1. rewrite Hp. cbn [fst snd]. split.
  - intros (w & rest & -> & Hl & Ha). inversion Hl; simplify_eq. eexists _, _. split_and!; [reflexivity|done|]. by exists w0, rest.
  - intros (t & text' & -> & Ht & w & rest & -> & Hl & Ha). exists (t :: w), rest. split_and!; [done|by constructor|done].
Qed.

Lemma matchhere_one r0 re1 text (IH : forall text, matchhere re1 text = true <-> begins re1 text) :
  parse (r0 :: re1) = (One r0 :: fst (parse re1), snd (parse re1)) ->
  match text with t :: text' => if (r0 =? DOT) || (r0 =? t) then matchhere re1 text' else false | [] => false end = true <->
  begins (r0 :: re1) text.
Proof.
  intros Hp. rewrite (begins_one _ _ _ Hp). destruct text as [|t text]; [split; [done|by intros (? & ? & ? & _)]|]. split.
  - destruct ((r0 =? DOT) || (r0 =? t)) eqn:E; [|done]. intros H%IH. exists t, text. split_and!; [done|by apply stands_test|done].
  - intros (t' & text' & [= <- <-] & ->%stands_test & Hb). by apply IH.
Qed.

Lemma matchhere_begins re text : matchhere re text = true <-> begins re text.
Proof.
  revert text. induction re as [re IH] using (induction_ltof1 _ length). unfold ltof in IH. intros text. destruct re as [|r0 re1].
  { split; [|done]. intros _. exists [], text. split_and!; [done|constructor|done]. }
  destruct re1 as [|r1 re2].
  - cbn [matchhere]. destruct (Z.eqb_spec r0 DOLLAR) as [->|Hd].
    + unfold begins. cbn. split; [destruct text; [|done]|].
      * intros _. exists [], []. split_and!; [done|constructor|done].
      * intros (w & rest & -> & Hl & Ha). inversion Hl. by rewrite Ha.
    + apply (matchhere_one r0 [] text); [apply IH; cbn; lia|]. cbn. by destruct (Z.eqb_spec r0 DOLLAR).
  - cbn [matchhere]. destruct (Z.eqb_spec r1 STAR) as [->|Hs].
    + rewrite begins_star. apply matchstar_spec. apply IH. cbn. lia.
    + apply (matchhere_one r0 (r1 :: re2) text); [apply (IH (r1 :: re2)); cbn; lia|]. cbn [parse]. by destruct (Z.eqb_spec r1 STAR).
Qed.

Lemma match_from_spec re text : match_from re text = true <-> exists skipped rest, text = skipped ++ rest /\ begins re rest.
Proof.
  induction text as [|t text IH]; cbn [match_from].
  - destruct (matchhere re []) eqn:E.
    + split; [|done]. intros _. exists [], []. split; [done|by apply matchhere_begins].
    + split; [done|]. intros (a & rest & He & Hb). symmetry in He. apply app_eq_nil in He as [-> ->].
      apply matchhere_begins in Hb. congruence.
  - destruct (matchhere re (t :: text)) eqn:E.
    + split; [|done]. intros _. exists [], (t :: text). split; [done|by apply matchhere_begins].
    + rewrite IH. split.
      * intros (a & rest & -> & Hb). by exists (t :: a), rest.
      * intros ([|x a] & rest & He & Hb); cbn in He; [subst; apply matchhere_begins in Hb; congruence|]. simplify_eq. by exists a, rest.
Qed.

(** C33: grep's match decides the language of the pattern: it accepts a line
    exactly when some part of the line, at its start if the pattern begins with
    ^ and at its end if the pattern ends in $, is a sequence of the characters,
    dots and starred characters of the pattern. *)
Theorem match_correct re text :
  match_ re text = true <->
  if decide (head re = Some CARET) then begins (tail re) text
  else exists skipped rest, text = skipped ++ rest /\ begins re rest.
Proof.
  destruct re as [|c re']; [apply match_from_spec|]. unfold match_. destruct (Z.eqb_spec c CARET) as [->|Hc].
  - rewrite decide_True by done. apply matchhere_begins.
  - rewrite decide_False by (cbn; congruence). apply match_from_spec.
Qed.

(** ** The loop over the lines of a file *)

(** strchr of user/ulib.c for a character other than nul: the index of [c]. *)
Fixpoint strchr (s : list Z) (c : Z) : option nat :=
  match s with
  | [] => None
  | x :: s' => if x =? 0 then None else if x =? c then Some 0%nat else S <$> strchr s' c
  end.

(** The loop over the complete lines in the buffer, whose bytes before the nul
    are [p]; what is left of it, and what is written. *)
Fixpoint grep_lines (fuel : nat) (pattern p : list Z) : list Z * list Z :=
  match fuel with
  | O => (p, [])
  | S fuel' =>
      match strchr p NEWLINE with
      | None => (p, [])
      | Some q =>
          let r := grep_lines fuel' pattern (drop (q + 1) p) in
          (fst r, (if match_ pattern (take q p) then take (q + 1) p else []) ++ snd r)
      end
  end.

(** sizeof(buf) *)
Definition sizeof_buf : nat := Z.to_nat 1024.

Section GrepFile.
(** What read(fd, _, n) returns when the bytes [input] are still to come. *)
Context (read : list Z -> nat -> Z).

(** [buf] are the first [m] bytes of the buffer; None when the loop bound of
    the model is too small. *)
Fixpoint grep_loop (fuel : nat) (pattern buf input : list Z) : option (list Z) :=
  match fuel with
  | O => None
  | S fuel' =>
      let n := read input (sizeof_buf - length buf - 1) in
      if n <=? 0 then Some [] else
      let n := Z.to_nat n in
      let buf := buf ++ take n input in
      let r := grep_lines (S (length buf)) pattern buf in
      app (snd r) <$> grep_loop fuel' pattern (fst r) (drop n input)
  end.

Definition grep (pattern input : list Z) : option (list Z) :=
  grep_loop (S (length input)) pattern [] input.

(** ** The lines of a text: the complete ones, and what follows them *)

Fixpoint lines (s : list Z) : list (list Z) * list Z :=
  match s with
  | [] => ([], [])
  | x :: s' =>
      let r := lines s' in
      if x =? NEWLINE then ([] :: fst r, snd r) else
      match fst r with
      | [] => ([], x :: snd r)
      | l :: ls => ((x :: l) :: ls, snd r)
      end
  end.

(** The matching lines, in order. *)
Definition selected (pattern : list Z) (ls : list (list Z)) : list Z :=
  concat ((fun l => if match_ pattern l then l ++ [NEWLINE] else []) <$> ls).

Lemma selected_app pattern l1 l2 : selected pattern (l1 ++ l2) = selected pattern l1 ++ selected pattern l2.
Proof. unfold selected. by rewrite fmap_app, concat_app. Qed.

Lemma lines_app s t : lines (s ++ t) = (fst (lines s) ++ fst (lines (snd (lines s) ++ t)), snd (lines (snd (lines s) ++ t))).
Proof.
  induction s as [|x s IH]; [cbn; by destruct (lines t)|]. cbn [app lines]. rewrite IH. cbn [fst snd].
  destruct (Z.eqb_spec x NEWLINE) as [->|Hx]; [done|]. destruct (lines s) as [[|l ls] r]; cbn [fst snd app]; [|done].
  cbn [lines]. destruct (Z.eqb_spec x NEWLINE); [done|]. by destruct (lines (r ++ t)) as [[|] ?].
Qed.

Lemma strchr_line s : 0 ∉ s ->
  match strchr s NEWLINE with
  | None => lines s = ([], s)
  | Some q => (q < length s)%nat /\ take (q + 1) s = take q s ++ [NEWLINE] /\
      lines s = (take q s :: fst (lines (drop (q + 1) s)), snd (lines (drop (q + 1) s)))
  end.
Proof.
  induction s as [|x s IH]; intros H0; cbn [strchr]; [done|]. apply not_elem_of_cons in H0 as [Hx H0].
  destruct (Z.eqb_spec x 0); [lia|]. cbn [lines]. destruct (Z.eqb_spec x NEWLINE) as [->|Hn].
  - split_and!; [cbn; lia|done|done].
  - specialize (IH H0). destruct (strchr s NEWLINE) as [q|]; cbn.
    + destruct IH as (H1 & H2 & ->). split_and!; [lia|by rewrite H2|done].
    + by rewrite IH.
Qed.

Lemma grep_lines_spec fuel pattern p : 0 ∉ p -> (length p < fuel)%nat ->
  grep_lines fuel pattern p = (snd (lines p), selected pattern (fst (lines p))).
Proof.
  revert p. induction fuel as [|fuel IH]; intros p H0 Hf; [lia|]. cbn [grep_lines].
  pose proof (strchr_line p H0) as Hq. destruct (strchr p NEWLINE) as [q|]; [|by rewrite Hq].
  destruct Hq as (H1 & H2 & H3). rewrite IH.
  - rewrite H3. unfold selected. cbn [fst snd fmap list_fmap concat]. rewrite H2. by destruct (match_ pattern (take q p)).
  - intros Hin. apply H0. by eapply subseteq_drop.
  - rewrite length_drop. lia.
Qed.

Lemma lines_rest s : lines (snd (lines s)) = ([], snd (lines s)).
Proof.
  induction s as [|x s IH]; cbn [lines]; [done|]. destruct (Z.eqb_spec x NEWLINE); [done|].
  destruct (lines s) as [[|l ls] r]; cbn [fst snd] in *; [|done]. cbn [lines]. rewrite IH. cbn. by destruct (Z.eqb_spec x NEWLINE).
Qed.

Lemma lines_rest_sub s x : x ∈ snd (lines s) -> x ∈ s.
Proof.
  induction s as [|y s IH]; cbn [lines]; [done|]. destruct (Z.eqb_spec y NEWLINE); cbn [snd]; [intros H; right; auto|].
  destruct (lines s) as [[|l ls] r]; cbn [fst snd] in *; [|intros H; right; auto]. intros [->|H]%elem_of_cons; [left|right; auto].
Qed.

(** A line that begins with a text without newlines is at least as long. *)
Lemma lines_long s t l ls : lines s = ([], s) -> fst (lines (s ++ t)) = l :: ls -> (length s <= length l)%nat.
Proof.
  revert l ls. induction s as [|x s IH]; intros l ls; cbn [app lines length]; [lia|].
  destruct (Z.eqb_spec x NEWLINE); [done|]. destruct (lines s) as [[|] r] eqn:E; [|done]. cbn [fst snd]. intros [= ->] H.
  destruct (lines (s ++ t)) as [[|l' ls'] r'] eqn:E'; cbn [fst] in *; [done|]. injection H as <- <-.
  specialize (IH l' ls' eq_refl eq_refl). cbn. lia.
Qed.

(** read returns some of the bytes asked for, and 0 only at the end of the
    file or when asked for none. *)
Hypothesis read_some : forall input n, input <> [] -> (0 < n)%nat -> 0 < read input n <= Z.of_nat (n `min` length input).
Hypothesis read_none : forall input n, input = [] \/ n = 0%nat -> read input n <= 0.

Lemma grep_loop_spec fuel pattern buf input :
  lines buf = ([], buf) -> 0 ∉ buf ++ input -> (length input < fuel)%nat ->
  Forall (fun l => (length l < sizeof_buf - 1)%nat) (fst (lines (buf ++ input))) ->
  grep_loop fuel pattern buf input = Some (selected pattern (fst (lines (buf ++ input)))).
Proof.
  revert buf input. induction fuel as [|fuel IH]; intros buf input Hb H0 Hf Hl; [lia|]. cbn [grep_loop].
  destruct (decide (input = [])) as [->|Hi].
  { pose proof (read_none [] (sizeof_buf - length buf - 1) (or_introl eq_refl)).
    destruct (Z.leb_spec (read [] (sizeof_buf - length buf - 1)) 0); [|lia]. by rewrite app_nil_r, Hb. }
  destruct (decide (sizeof_buf - length buf - 1 = 0)%nat) as [Hz|Hz].
  { pose proof (read_none input _ (or_intror Hz)). destruct (Z.leb_spec (read input (sizeof_buf - length buf - 1)) 0); [|lia].
    destruct (fst (lines (buf ++ input))) as [|l ls] eqn:E; [done|]. pose proof (lines_long buf input l ls Hb E).
    apply Forall_cons in Hl as [Hl _]. lia. }
  pose proof (read_some input (sizeof_buf - length buf - 1) Hi ltac:(lia)) as Hr. set (n := read input _) in *.
  destruct (Z.leb_spec n 0); [lia|]. set (k := Z.to_nat n) in *.
  assert (0 < k <= length input)%nat as Hk by (unfold k; lia).
  assert (buf ++ input = (buf ++ take k input) ++ drop k input) as Hsplit by (by rewrite <- app_assoc, take_drop).
  rewrite Hsplit in H0, Hl |- *. rewrite lines_app in Hl |- *. cbn [fst] in *. apply Forall_app in Hl as [Hl1 Hl2].
  rewrite grep_lines_spec by (try lia; intros Hin; apply H0; apply elem_of_app; by left). cbn [fst snd].
  rewrite IH; [cbn; by rewrite selected_app|apply lines_rest| |rewrite length_drop; lia|done].
  intros [Hin|Hin]%elem_of_app; apply H0; apply elem_of_app; [left|by right].
  by apply lines_rest_sub.
Qed.

(** Grep writes exactly the lines of the file that match, in order and
    with their newlines, however read cuts the file into pieces, and then
    returns; a last line without a newline is not looked at.  It asks of the
    file that it has no nul bytes and that its lines fit in the buffer with
    their newline and a nul. *)
Theorem grep_correct pattern input :
  0 ∉ input -> Forall (fun l => (length l < sizeof_buf - 1)%nat) (fst (lines input)) ->
  grep pattern input = Some (selected pattern (fst (lines input))).
Proof. intros H0 Hl. unfold grep. by rewrite grep_loop_spec by (done || lia). Qed.
End GrepFile.

(** A read that returns one byte at a time, and a file of three lines. *)
Definition read_byte (input : list Z) (n : nat) : Z :=
  match input, n with _ :: _, S _ => 1 | _, _ => 0 end.

Lemma grep_correct_witness :
  grep read_byte [97; STAR; 98; DOLLAR] [97; 98; NEWLINE; 98; 97; NEWLINE; 99; 98; NEWLINE; 98] =
  Some [97; 98; NEWLINE; 99; 98; NEWLINE].
Proof.
  rewrite (grep_correct read_byte); [reflexivity|..].
  - intros [|x input] [|n] H1 H2; cbn; (done || lia).
  - intros [|x input] [|n] [H|H]; cbn; (done || lia).
  - apply (bool_decide_unpack _). vm_compute. exact I.
  - apply (bool_decide_unpack _). vm_compute. exact I.
Defined.
