(* ===== verification/Wakeup.v ===== *)
(** * sleep and wakeup never lose a wakeup

    Any number of processes wait for a condition under a lock, as pipes, the
    log and the disk driver do, and one other process makes it true and calls
    wakeup.  Each constructor of a program counter is a point between two
    steps of the code of kernel/proc.c; the steps of all processes interleave
    in every order, and an acquire can only happen while the lock is free. *)

From S2P Require Import Prelude.

(** acquire(lk); while(!cond) sleep(chan, lk); release(lk) *)
Inductive spc :=
  | SAcq      (* about to acquire lk *)
  | STest     (* holds lk, about to look at the condition *)
  | SAcqP     (* sleep: about to acquire p->lock *)
  | SRelLk    (* sleep: about to release lk *)
  | SChan     (* sleep: about to set p->chan *)
  | SState    (* sleep: about to set p->state *)
  | SSched    (* sleep: about to give up the CPU, whose scheduler releases p->lock *)
  | SAway     (* switched out; a scheduler acquires p->lock and runs it once it is RUNNABLE *)
  | STidy     (* sleep: about to clear p->chan *)
  | SRelP     (* sleep: about to release p->lock *)
  | SReAcq    (* sleep: about to acquire lk again *)
  | SRel      (* saw the condition true, about to release lk *)
  | SDone.

(** acquire(lk); cond = 1; wakeup(chan); release(lk) *)
Inductive wpc :=
  | WAcq
  | WSet           (* holds lk, about to set the condition *)
  | WScan (k : nat)  (* wakeup: about to acquire proc[k].lock, or done with all *)
  | WLook (k : nat)  (* wakeup: holds it, about to look at the state and the channel *)
  | WRelP (k : nat)  (* wakeup: about to release it *)
  | WRel           (* about to release lk *)
  | WDone.

#[export] Instance spc_eq_dec : EqDecision spc.
Proof. solve_decision. Defined.
#[export] Instance wpc_eq_dec : EqDecision wpc.
Proof. solve_decision. Defined.

(** Who holds a lock. *)
Inductive who := Waiter (i : nat) | Waker.
#[export] Instance who_eq_dec : EqDecision who.
Proof. solve_decision. Defined.

Record slot := Slot { at_ : spc; plock_ : option who; asleep : bool; chan_ : bool }.

Record sys := Sys { lk : option who; cond : bool; waker : wpc; slots : nat -> slot }.

Definition fset {A} (f : nat -> A) (i : nat) (a : A) : nat -> A := fun j => if decide (i = j) then a else f j.

Definition set_slot (i : nat) (x : slot) (s : sys) : sys := Sys (lk s) (cond s) (waker s) (fset (slots s) i x).
Definition set_lk (o : option who) (s : sys) : sys := Sys o (cond s) (waker s) (slots s).
Definition set_waker (w : wpc) (s : sys) : sys := Sys (lk s) (cond s) w (slots s).
Definition move (i : nat) (p : spc) (s : sys) : sys :=
  let x := slots s i in set_slot i (Slot p (plock_ x) (asleep x) (chan_ x)) s.

Section Machine.
(** The number of waiting processes. *)
Context (n : nat).

Inductive sleep_step (s : sys) : sys -> Prop :=
  | step_acq i : (i < n)%nat -> at_ (slots s i) = SAcq -> lk s = None -> sleep_step s (move i STest (set_lk (Some (Waiter i)) s))
  | step_true i : (i < n)%nat -> at_ (slots s i) = STest -> cond s = true -> sleep_step s (move i SRel s)
  | step_false i : (i < n)%nat -> at_ (slots s i) = STest -> cond s = false -> sleep_step s (move i SAcqP s)
  | step_acqp i x : (i < n)%nat -> slots s i = x -> at_ x = SAcqP -> plock_ x = None ->
      sleep_step s (set_slot i (Slot SRelLk (Some (Waiter i)) (asleep x) (chan_ x)) s)
  | step_rellk i : (i < n)%nat -> at_ (slots s i) = SRelLk -> sleep_step s (move i SChan (set_lk None s))
  | step_chan i x : (i < n)%nat -> slots s i = x -> at_ x = SChan -> sleep_step s (set_slot i (Slot SState (plock_ x) (asleep x) true) s)
  | step_state i x : (i < n)%nat -> slots s i = x -> at_ x = SState -> sleep_step s (set_slot i (Slot SSched (plock_ x) true (chan_ x)) s)
  | step_sched i x : (i < n)%nat -> slots s i = x -> at_ x = SSched -> sleep_step s (set_slot i (Slot SAway None (asleep x) (chan_ x)) s)
  | step_run i x : (i < n)%nat -> slots s i = x -> at_ x = SAway -> asleep x = false -> plock_ x = None ->
      sleep_step s (set_slot i (Slot STidy (Some (Waiter i)) false (chan_ x)) s)
  | step_tidy i x : (i < n)%nat -> slots s i = x -> at_ x = STidy -> sleep_step s (set_slot i (Slot SRelP (plock_ x) (asleep x) false) s)
  | step_relp i x : (i < n)%nat -> slots s i = x -> at_ x = SRelP -> sleep_step s (set_slot i (Slot SReAcq None (asleep x) (chan_ x)) s)
  | step_reacq i : (i < n)%nat -> at_ (slots s i) = SReAcq -> lk s = None -> sleep_step s (move i STest (set_lk (Some (Waiter i)) s))
  | step_rel i : (i < n)%nat -> at_ (slots s i) = SRel -> sleep_step s (move i SDone (set_lk None s))
  | step_wacq : waker s = WAcq -> lk s = None -> sleep_step s (set_waker WSet (set_lk (Some Waker) s))
  | step_wset : waker s = WSet -> sleep_step s (Sys (lk s) true (WScan 0) (slots s))
  | step_wscan k x : waker s = WScan k -> (k < n)%nat -> slots s k = x -> plock_ x = None ->
      sleep_step s (set_waker (WLook k) (set_slot k (Slot (at_ x) (Some Waker) (asleep x) (chan_ x)) s))
  | step_wlook k x : waker s = WLook k -> slots s k = x ->
      sleep_step s (set_waker (WRelP k) (set_slot k (Slot (at_ x) (plock_ x) (if asleep x && chan_ x then false else asleep x) (chan_ x)) s))
  | step_wrelp k x : waker s = WRelP k -> slots s k = x ->
      sleep_step s (set_waker (WScan (S k)) (set_slot k (Slot (at_ x) None (asleep x) (chan_ x)) s))
  | step_wend : waker s = WScan n -> sleep_step s (set_waker WRel s)
  | step_wrel : waker s = WRel -> sleep_step s (set_waker WDone (set_lk None s)).

Definition sleep_init : sys := Sys None false WAcq (fun _ => Slot SAcq None false false).

(** ** The invariant *)

Definition has_lk (p : spc) : bool := match p with STest | SAcqP | SRelLk | SRel => true | _ => false end.
Definition has_plock (p : spc) : bool := match p with SRelLk | SChan | SState | SSched | STidy | SRelP => true | _ => false end.
Definition w_has_lk (w : wpc) : bool := match w with WAcq | WDone => false | _ => true end.
Definition w_has_plock (w : wpc) (i : nat) : bool := match w with WLook k | WRelP k => bool_decide (k = i) | _ => false end.

(** The waker has still to look at process [i]. *)
Definition to_look (w : wpc) (i : nat) : bool :=
  match w with WScan k | WLook k => bool_decide (k <= i)%nat | WRelP k => bool_decide (k < i)%nat | _ => false end.

(** Process [i] is on its way to sleep, or sleeps. *)
Definition going (x : slot) : bool :=
  match at_ x with SChan | SState | SSched => true | SAway => asleep x | _ => false end.

(** It has been woken. *)
Definition roused (x : slot) : bool :=
  match at_ x with SAway => negb (asleep x) | STidy | SRelP | SReAcq => true | _ => false end.

Record slot_ok (s : sys) (i : nat) : Prop := {
  so_lk : has_lk (at_ (slots s i)) = true <-> lk s = Some (Waiter i);
  so_plock : plock_ (slots s i) = if has_plock (at_ (slots s i)) then Some (Waiter i)
                                  else if w_has_plock (waker s) i then Some Waker else None;
  so_excl : has_plock (at_ (slots s i)) = true -> w_has_plock (waker s) i = false;
  so_asleep : asleep (slots s i) = true -> at_ (slots s i) = SSched \/ at_ (slots s i) = SAway;
  so_sched : at_ (slots s i) = SSched -> asleep (slots s i) = true;
  so_chan : match at_ (slots s i) with SState | SSched | SAway => chan_ (slots s i) = true | _ => True end;
  so_saw : match at_ (slots s i) with SAcqP | SRelLk => cond s = false | SRel => cond s = true | _ => True end;
  so_going : cond s = true -> going (slots s i) = true -> to_look (waker s) i = true;
  so_roused : roused (slots s i) = true -> cond s = true }.

Record sleep_inv (s : sys) : Prop := {
  iv_lk : w_has_lk (waker s) = true <-> lk s = Some Waker;
  iv_holder : forall i, lk s = Some (Waiter i) -> (i < n)%nat;
  iv_cond : cond s = match waker s with WAcq | WSet => false | _ => true end;
  iv_scan : match waker s with WScan k => (k <= n)%nat | WLook k | WRelP k => (k < n)%nat | _ => True end;
  iv_slot : forall i, (i < n)%nat -> slot_ok s i }.

Lemma sleep_inv_init : sleep_inv sleep_init.
Proof. by split. Qed.

Lemma fset_same {A} (f : nat -> A) i a : fset f i a i = a.
Proof. unfold fset. by rewrite decide_True. Qed.
Lemma fset_other {A} (f : nat -> A) i a j : i <> j -> fset f i a j = f j.
Proof. intros. unfold fset. by rewrite decide_False. Qed.

(** A sleep_step of process [i] that leaves the waker alone. *)
Lemma sleep_inv_slot s i x o :
  sleep_inv s -> (i < n)%nat ->
  (o = lk s \/ lk s = None /\ o = Some (Waiter i) \/ lk s = Some (Waiter i) /\ o = None) ->
  slot_ok (set_slot i x (set_lk o s)) i -> sleep_inv (set_slot i x (set_lk o s)).
Proof.
  intros [H1 H2 H3 H4 H5] Hi Ho Hx. split; try done; cbn.
  - rewrite H1. destruct Ho as [->|[[-> ->]|[-> ->]]]; split; intros; congruence.
  - intros j. destruct Ho as [->|[[_ ->]|[_ ->]]]; [auto|intros [= <-]; done|done].
  - intros j Hj. destruct (decide (i = j)) as [->|Hne]; [done|].
    destruct (H5 j Hj) as [G1 G2 G3 G4 G5 G6 G7 G8 G9]. split; cbn; rewrite ?fset_other by done; try done.
    rewrite G1. destruct Ho as [->|[[-> ->]|[-> ->]]]; split; intros; congruence.
Qed.

Ltac slot_case G E :=
  destruct G as [G1 G2 G3 G4 G5 G6 G7 G8 G9]; unfold going, roused in *;
  split; cbn; rewrite ?fset_same; cbn; unfold going, roused; cbn; rewrite ?E in *; cbn in *; try done; try tauto; try congruence;
  try (intros Ha; destruct (G4 Ha); congruence); try (intros; apply G8; congruence);
  try (by rewrite G3); try (by rewrite G5);
  try (intros; apply G9; match goal with H : asleep _ = false |- _ => by rewrite H end); try (destruct (w_has_plock _ _); congruence).

Ltac waiter_step i :=
  match goal with
  | |- sleep_inv (move i ?p (set_lk ?o ?s)) => apply (sleep_inv_slot s i (Slot p (plock_ (slots s i)) (asleep (slots s i)) (chan_ (slots s i))) o)
  | |- sleep_inv (move i ?p ?s) => apply (sleep_inv_slot s i (Slot p (plock_ (slots s i)) (asleep (slots s i)) (chan_ (slots s i))) (lk s))
  | |- sleep_inv (set_slot i ?x ?s) => apply (sleep_inv_slot s i x (lk s))
  end; [done|done|try (by left)|].

Lemma sleep_inv_waiter s s' : sleep_inv s -> sleep_step s s' -> waker s' = waker s -> cond s' = cond s -> sleep_inv s'.
Proof.
  intros Hi Hs Hw Hc. destruct Hs; cbn in Hw, Hc; try (exfalso; congruence); subst.
  all: match goal with H : (?j < n)%nat |- _ => pose proof (iv_slot _ Hi j H) as G end.
  all: match goal with H : at_ (slots _ _) = _ |- _ => rename H into E end.
  - waiter_step i; [right; left; done|]. slot_case G E.
  - waiter_step i. slot_case G E.
  - waiter_step i. slot_case G E.
  - waiter_step i. slot_case G E.
  - waiter_step i; [|slot_case G E]. right; right. split; [|done]. apply G. by rewrite E.
  - waiter_step i. slot_case G E.
  - waiter_step i. slot_case G E.
  - waiter_step i. slot_case G E.
  - waiter_step i. slot_case G E.
  - waiter_step i. slot_case G E.
  - waiter_step i. slot_case G E.
  - waiter_step i; [right; left; done|]. slot_case G E.
  - waiter_step i; [|slot_case G E]. right; right. split; [|done]. apply G. by rewrite E.
Qed.

(** A sleep_step of the waker that changes slot [k], or none. *)
Lemma sleep_inv_waker s w c o f :
  sleep_inv s -> (w_has_lk w = true <-> o = Some Waker) -> (forall i, o = Some (Waiter i) <-> lk s = Some (Waiter i)) ->
  c = match w with WAcq | WSet => false | _ => true end ->
  match w with WScan k => (k <= n)%nat | WLook k | WRelP k => (k < n)%nat | _ => True end ->
  (forall i, (i < n)%nat -> slot_ok s i -> slot_ok (Sys o c w f) i) -> sleep_inv (Sys o c w f).
Proof.
  intros [H1 H2 H3 H4 H5] Hw Ho Hc Hs Hsl. split; cbn; try done; [|auto]. intros i Hi. apply H2, Ho, Hi.
Qed.

(** The other slots do not see the waker move from one to the next. *)
Lemma slot_other s w k x j :
  slot_ok s j -> k <> j -> cond s = true ->
  w_has_plock (waker s) j = w_has_plock w j -> to_look (waker s) j = to_look w j ->
  slot_ok (set_waker w (set_slot k x s)) j.
Proof.
  intros [G1 G2 G3 G4 G5 G6 G7 G8 G9] Hne Hc Hp Ht. split; cbn; rewrite ?fset_other, <- ?Hp, <- ?Ht by done; done.
Qed.

Lemma sleep_inv_scan s w k x :
  sleep_inv s -> w_has_lk (waker s) = true -> w_has_lk w = true -> (k < n)%nat -> cond s = true -> w <> WSet ->
  match w with WScan k => (k <= n)%nat | WLook k | WRelP k => (k < n)%nat | _ => True end ->
  (forall j, k <> j -> (j < n)%nat -> w_has_plock (waker s) j = w_has_plock w j /\ to_look (waker s) j = to_look w j) ->
  slot_ok (set_waker w (set_slot k x s)) k -> sleep_inv (set_waker w (set_slot k x s)).
Proof.
  intros Hi Hl Hw Hk Hc Hns Hb Hoth Hx. pose proof Hi as [K1 K2 K3 K4 K5]. apply K1 in Hl as Hlk. apply (sleep_inv_waker s); try done.
  - change (cond (set_slot k x s)) with (cond s). rewrite Hc. by destruct w.
  - intros j Hj G. destruct (decide (k = j)) as [->|Hne]; [done|]. destruct (Hoth j Hne Hj). by apply slot_other.
Qed.

Lemma sleep_inv_step s s' : sleep_inv s -> sleep_step s s' -> sleep_inv s'.
Proof.
  intros Hi Hs. destruct (decide (waker s' = waker s /\ cond s' = cond s)) as [[Hw Hc]|Hne]; [by apply (sleep_inv_waiter s)|].
  pose proof Hi as [K1 K2 K3 K4 K5]. destruct Hs; cbn in Hne; try (exfalso; by apply Hne); clear Hne; subst;
    match goal with H : waker s = _ |- _ => rename H into E end; rewrite E in K1, K3, K4; cbn in K1, K4.
  - apply (sleep_inv_waker s); cbn; try done; [by rewrite H0|]. intros j Hj [G1 G2 G3 G4 G5 G6 G7 G8 G9]. rewrite E in *.
    split; cbn; try done; try (rewrite G1, H0; split; congruence); intros; congruence.
  - assert (lk s = Some Waker) as Hlk by (by apply K1). apply (sleep_inv_waker s); cbn; try done; try (by rewrite Hlk); try lia.
    intros j Hj [G1 G2 G3 G4 G5 G6 G7 G8 G9]. rewrite E in *.
    assert (has_lk (at_ (slots s j)) = false) as Hn by (destruct (has_lk _); [|done]; rewrite (proj1 G1 eq_refl) in Hlk; congruence).
    split; cbn; try done; try (by destruct (at_ (slots s j))).
  - apply sleep_inv_scan; rewrite ?E; try done.
    + intros j Hne Hj. cbn. by rewrite bool_decide_eq_false_2.
    + destruct (K5 k ltac:(assumption)) as [G1 G2 G3 G4 G5 G6 G7 G8 G9]. rewrite E in *. cbn in *.
      assert (has_plock (at_ (slots s k)) = false) as Hn by (destruct (has_plock _); congruence).
      split; cbn; rewrite ?fset_same; cbn; try done; [by rewrite Hn, bool_decide_eq_true_2|by rewrite Hn].
  - apply sleep_inv_scan; rewrite ?E; try done.
    + intros j Hne Hj. cbn. split; [done|]. apply bool_decide_ext. lia.
    + destruct (K5 k ltac:(assumption)) as [G1 G2 G3 G4 G5 G6 G7 G8 G9]. rewrite E in *. cbn in *. rewrite bool_decide_eq_true_2 in G2, G3 by done.
      assert (has_plock (at_ (slots s k)) = false) as Hn by (destruct (has_plock _); [by specialize (G3 eq_refl)|done]).
      split; cbn; rewrite ?fset_same; cbn; try done; rewrite ?Hn, ?bool_decide_eq_true_2 by done; try done.
      * by rewrite G2, Hn.
      * intros Ha. apply G4. destruct (asleep (slots s k)); [done|]. by rewrite andb_false_l in Ha.
      * intros Ha. rewrite Ha in Hn. done.
      * unfold going. cbn. intros _. destruct (at_ (slots s k)); try done. rewrite G6, andb_true_r. by destruct (asleep (slots s k)).
  - apply sleep_inv_scan; rewrite ?E; try done.
    + intros j Hne Hj. cbn. split; [by apply bool_decide_eq_false_2|]. apply bool_decide_ext. lia.
    + destruct (K5 k ltac:(assumption)) as [G1 G2 G3 G4 G5 G6 G7 G8 G9]. rewrite E in *. cbn in *. rewrite bool_decide_eq_true_2 in G2, G3 by done.
      assert (has_plock (at_ (slots s k)) = false) as Hn by (destruct (has_plock _); [by specialize (G3 eq_refl)|done]).
      rewrite bool_decide_eq_false_2 in G8 by lia.
      split; cbn; rewrite ?fset_same; cbn; try done; rewrite ?Hn; try done. intros Hc Hg. by specialize (G8 Hc Hg).
  - apply (sleep_inv_waker s); cbn; try done; intros j Hj [G1 G2 G3 G4 G5 G6 G7 G8 G9]. rewrite E in *. cbn in *.
    rewrite bool_decide_eq_false_2 in G8 by lia. by split.
  - assert (lk s = Some Waker) as Hlk by (by apply K1). apply (sleep_inv_waker s); cbn; try done; try (by rewrite Hlk).
    intros j Hj [G1 G2 G3 G4 G5 G6 G7 G8 G9]. rewrite E in *. split; cbn; try done. rewrite G1, Hlk. split; congruence.
Qed.

(** ** No deadlock *)

(** Points at which a process waits for nothing. *)
Definition free_pc (p : spc) : bool :=
  match p with STest | SRelLk | SChan | SState | SSched | STidy | SRelP | SRel => true | _ => false end.

Lemma free_runs s i : (i < n)%nat -> free_pc (at_ (slots s i)) = true -> exists s', sleep_step s s'.
Proof.
  intros Hi Hf. destruct (at_ (slots s i)) eqn:E; try done; [destruct (cond s) eqn:Ec|..];
    eexists; first [by apply (step_true s i) | by apply (step_false s i) | by apply (step_rellk s i) | by eapply (step_chan s i)
      | by eapply (step_state s i) | by eapply (step_sched s i) | by eapply (step_tidy s i) | by eapply (step_relp s i) | by apply (step_rel s i)].
Qed.

Lemma plock_runs s i : sleep_inv s -> (i < n)%nat -> has_plock (at_ (slots s i)) = true -> exists s', sleep_step s s'.
Proof. intros Hi Hn Hp. apply (free_runs s i Hn). by destruct (at_ (slots s i)). Qed.

Lemma lk_runs s i : sleep_inv s -> lk s = Some (Waiter i) -> exists s', sleep_step s s'.
Proof.
  intros Hi Hl. pose proof (iv_holder _ Hi i Hl) as Hn. destruct (iv_slot _ Hi i Hn) as [G1 G2 _ _ _ _ _ _ _].
  apply G1 in Hl as Hh. destruct (at_ (slots s i)) eqn:E; try done; try (apply (free_runs s i Hn); by rewrite E).
  eexists. eapply step_acqp; [done|done|done|]. rewrite G2. cbn.
  destruct (waker s) eqn:Ew; try done; exfalso; pose proof (proj1 (iv_lk _ Hi)) as Hw; rewrite Ew in Hw; specialize (Hw eq_refl); congruence.
Qed.

Definition finished (s : sys) : Prop := waker s = WDone /\ forall i, (i < n)%nat -> at_ (slots s i) = SDone.

Lemma waker_progress s : sleep_inv s -> waker s <> WDone -> exists s', sleep_step s s'.
Proof.
  intros Hi Hw. destruct (waker s) eqn:E; try done.
  - destruct (lk s) as [[i|]|] eqn:El; [by apply (lk_runs s i)| |eexists; by apply step_wacq].
    apply (iv_lk _ Hi) in El. by rewrite E in El.
  - eexists. by apply step_wset.
  - pose proof (iv_scan _ Hi) as Hk. rewrite E in Hk. destruct (decide (k = n)) as [->|Hne]; [eexists; by apply step_wend|].
    assert (k < n)%nat as Hlt by lia. destruct (plock_ (slots s k)) as [o|] eqn:Ep; [|eexists; by eapply step_wscan].
    apply (plock_runs s k Hi Hlt). destruct (iv_slot _ Hi k Hlt) as [_ G2 _ _ _ _ _ _ _]. rewrite Ep, E in G2. by destruct (has_plock _).
  - eexists. by eapply step_wlook.
  - eexists. by eapply step_wrelp.
  - eexists. by apply step_wrel.
Qed.

Lemma sleep_progress s : sleep_inv s -> finished s \/ exists s', sleep_step s s'.
Proof.
  intros Hi. destruct (decide (waker s = WDone)) as [Hw|Hw]; [|right; by apply waker_progress].
  destruct (decide (Forall (fun i => at_ (slots s i) = SDone) (seq 0 n))) as [Hf|Hf].
  { left. split; [done|]. intros i Hn. rewrite Forall_forall in Hf. apply Hf. apply elem_of_seq. lia. }
  right. apply not_Forall_Exists, Exists_exists in Hf as (i & Hin%elem_of_seq & Hne); [|apply _]. assert (i < n)%nat as Hn by lia.
  destruct (lk s) as [[j|]|] eqn:El; [by apply (lk_runs s j)|apply (iv_lk _ Hi) in El; by rewrite Hw in El|].
  destruct (iv_slot _ Hi i Hn) as [G1 G2 _ _ _ _ _ G8 _]. pose proof (iv_cond _ Hi) as Hc. rewrite Hw in *. cbn in *.
  destruct (at_ (slots s i)) eqn:E; try done; try (apply (free_runs s i Hn); by rewrite E).
  - eexists. by eapply step_acq.
  - rewrite El in G1. by specialize (proj1 G1 eq_refl).
  - eexists. eapply step_run; [done|done|done| |done]. unfold going in G8. rewrite E in G8. destruct (asleep (slots s i)); [|done].
    by specialize (G8 Hc eq_refl).
  - eexists. by eapply step_reacq.
Qed.

(** ** Every run ends *)

Definition rank (c : bool) (p : spc) : nat :=
  match p with
  | SAcq => 14 | STest => if c then 3 else 13 | SAcqP => 12 | SRelLk => 11 | SChan => 10 | SState => 9 | SSched => 8
  | SAway => 7 | STidy => 6 | SRelP => 5 | SReAcq => 4 | SRel => 2 | SDone => 0
  end.

Definition wrank (w : wpc) : nat :=
  match w with
  | WAcq => 3 * n + 4 | WSet => 3 * n + 3 | WScan k => 3 * (n - k) + 2 | WLook k => 3 * (n - k) + 1
  | WRelP k => 3 * (n - k) | WRel => 1 | WDone => 0
  end.

Definition sum_slots (f : nat -> nat) : nat := sum_list_with f (seq 0 n).
Definition work_left (s : sys) : nat := wrank (waker s) + sum_slots (fun i => rank (cond s) (at_ (slots s i))).

Lemma sum_le f g (l : list nat) : (forall i, f i <= g i)%nat -> (sum_list_with f l <= sum_list_with g l)%nat.
Proof. intros H. induction l as [|i l IH]; cbn; [lia|]. specialize (H i). lia. Qed.

Lemma sum_lt f g (l : list nat) i : (forall i, f i <= g i)%nat -> i ∈ l -> (f i < g i)%nat -> (sum_list_with f l < sum_list_with g l)%nat.
Proof.
  intros H Hi Hlt. induction l as [|j l IH]; [by apply elem_of_nil in Hi|]. cbn. apply elem_of_cons in Hi as [<-|Hi].
  - pose proof (sum_le f g l H). lia.
  - specialize (IH Hi). specialize (H j). lia.
Qed.

Lemma rank_mono p : (rank true p <= rank false p)%nat.
Proof. destruct p; cbn; lia. Qed.

Lemma slot_decreases s s' i :
  (i < n)%nat -> waker s' = waker s -> cond s' = cond s -> (forall j, i <> j -> at_ (slots s' j) = at_ (slots s j)) ->
  (rank (cond s) (at_ (slots s' i)) < rank (cond s) (at_ (slots s i)))%nat -> (work_left s' < work_left s)%nat.
Proof.
  intros Hi Hw Hc Ho Hlt. unfold work_left. rewrite Hw, Hc. apply Nat.add_lt_mono_l, sum_lt with i; [|apply elem_of_seq; lia|done].
  intros j. destruct (decide (i = j)) as [->|Hne]; [lia|]. by rewrite Ho.
Qed.

Lemma waker_decreases s s' :
  (wrank (waker s') < wrank (waker s))%nat -> (cond s = true -> cond s' = true) -> (forall j, at_ (slots s' j) = at_ (slots s j)) ->
  (work_left s' < work_left s)%nat.
Proof.
  intros Hw Hc Ho. unfold work_left. assert (forall a b c d, a < c -> b <= d -> a + b < c + d)%nat as Hadd by lia. apply Hadd; [done|].
  apply sum_le. intros j. rewrite Ho. destruct (cond s), (cond s'); try lia; (apply rank_mono || by specialize (Hc eq_refl)).
Qed.

Lemma step_decreases s s' : sleep_inv s -> sleep_step s s' -> (work_left s' < work_left s)%nat.
Proof.
  intros Hi Hs. pose proof (iv_scan _ Hi) as Hk. destruct Hs; subst;
    try match goal with Hn : (?i < n)%nat, E : at_ (slots s ?i) = _ |- _ =>
      apply (slot_decreases s _ i); [done|done|done|intros j Hj; cbn; by rewrite fset_other|cbn; rewrite fset_same; cbn; rewrite E] end;
    try match goal with E : waker s = _ |- _ =>
      rewrite E in Hk; apply waker_decreases;
        [cbn; rewrite E; cbn; lia|done|intros j; cbn; try done; unfold fset; case_decide; by subst] end;
    try (cbn; destruct (cond s); lia).
  pose proof (iv_slot _ Hi i ltac:(assumption)) as [_ _ _ _ _ _ _ _ G9]. rewrite G9; [cbn; lia|]. unfold roused.
  match goal with E : at_ (slots s i) = _ |- _ => by rewrite E end.
Qed.

Lemma sleep_inv_run k s : nsteps sleep_step k sleep_init s -> sleep_inv s /\ (k + work_left s <= work_left sleep_init)%nat.
Proof.
  revert s. induction k as [|k IH]; intros s Hs.
  { inversion Hs; subst. split; [apply sleep_inv_init|lia]. }
  apply nsteps_inv_r in Hs as (t & Hr & Hs). destruct (IH t Hr) as [Hi Hk]. split; [by eapply sleep_inv_step|].
  pose proof (step_decreases t s Hi Hs). lia.
Qed.

Lemma work_sleep_init : work_left sleep_init = (17 * n + 4)%nat.
Proof.
  unfold work_left, sum_slots. cbn [waker sleep_init wrank cond slots at_ rank].
  enough (sum_list_with (fun _ => 14) (seq 0 n) = 14 * n)%nat by lia.
  rewrite <- (length_seq n 0) at 2. induction (seq 0 n) as [|x l IH]; cbn in *; lia.
Qed.
End Machine.

(** C25: no wakeup is lost.  However the steps of [n] waiting processes and of
    the one that wakes them interleave, a run has at most 17 n + 4 steps, and
    it cannot stop before every process has seen the condition true and left
    its loop: a process that found the condition false either is seen asleep
    by wakeup or has not yet let go of the lock that wakeup needs. *)
Theorem no_lost_wakeup n k s :
  nsteps (sleep_step n) k sleep_init s ->
  (k <= 17 * n + 4)%nat /\ (finished n s \/ exists s', sleep_step n s s').
Proof.
  intros Hr. destruct (sleep_inv_run n k s Hr) as [Hi Hk]. rewrite work_sleep_init in Hk. split; [lia|]. by apply sleep_progress.
Qed.

(** One process has gone to sleep before the other takes the lock. *)
Lemma no_lost_wakeup_witness :
  exists s, nsteps (sleep_step 1) 7 sleep_init s /\ at_ (slots s 0) = SAway /\ asleep (slots s 0) = true /\
    (finished 1 s \/ exists s', sleep_step 1 s s').
Proof.
  assert (exists s, nsteps (sleep_step 1) 7 sleep_init s /\ at_ (slots s 0) = SAway /\ asleep (slots s 0) = true) as (s & Hr & H1 & H2).
  { eexists. split.
    - eapply nsteps_l; [apply (step_acq 1 _ 0); [lia|reflexivity..]|].
      eapply nsteps_l; [apply (step_false 1 _ 0); [lia|reflexivity..]|].
      eapply nsteps_l; [eapply (step_acqp 1 _ 0); [lia|reflexivity..]|].
      eapply nsteps_l; [apply (step_rellk 1 _ 0); [lia|reflexivity..]|].
      eapply nsteps_l; [eapply (step_chan 1 _ 0); [lia|reflexivity..]|].
      eapply nsteps_l; [eapply (step_state 1 _ 0); [lia|reflexivity..]|].
      eapply nsteps_l; [eapply (step_sched 1 _ 0); [lia|reflexivity..]|]. apply nsteps_O.
    - split; reflexivity. }
  exists s. split; [exact Hr|]. split; [exact H1|]. split; [exact H2|]. exact (proj2 (no_lost_wakeup 1 7 s Hr)).
Defined.
