(* ===== verification/Umalloc.v ===== *)
(** * user/umalloc.c: malloc and free

    The Kernighan and Ritchie allocator of the user programs: a circular list
    of free blocks in the order of their addresses, each with a header of
    sixteen bytes that holds the next block and the size in headers. *)

From S2P Require Import Prelude.

(** ** The state *)

(** The fields of the headers in memory, the static freep, and the size of
    the process (its break). *)
Record heap := Heap { ptr : gmap Z Z; size : gmap Z Z; freep : Z; brk : Z }.

Definition sizeof_Header : Z := 16.

Definition ptr_at (h : heap) (p : Z) : Z := default 0 (ptr h !! p).
Definition size_at (h : heap) (p : Z) : Z := default 0 (size h !! p).
Definition set_ptr (p x : Z) (h : heap) : heap := Heap (<[p := x]> (ptr h)) (size h) (freep h) (brk h).
Definition set_size (p x : Z) (h : heap) : heap := Heap (ptr h) (<[p := u32 x]> (size h)) (freep h) (brk h).
Definition set_freep (x : Z) (h : heap) : heap := Heap (ptr h) (size h) x (brk h).
Definition set_brk (x : Z) (h : heap) : heap := Heap (ptr h) (size h) (freep h) x.

(** p + n for a Header pointer. *)
Definition hplus (p n : Z) : Z := p + n * sizeof_Header.

Section Alloc.
(** The address of the static header base, and whether the kernel has memory
    to grow a process of [b] bytes by [n]. *)
Context (base : Z) (grow : Z -> Z -> bool).

(** sbrk(n): sys_sbrk and growproc; the result and the new size. *)
Definition sbrk (n b : Z) : Z * Z :=
  if 0 <? n then if grow b n then (b, b + n) else (-1, b)
  else if n <? 0 then let nb := u32 (b + n) in (b, if b <=? nb then b else nb)
  else (b, b).

(** The search of free for the place of [bp]. *)
Fixpoint free_find (fuel : nat) (h : heap) (bp p : Z) : option Z :=
  match fuel with
  | O => None
  | S fuel' =>
      let next := ptr_at h p in
      if (p <? bp) && (bp <? next) then Some p
      else if (next <=? p) && ((p <? bp) || (bp <? next)) then Some p
      else free_find fuel' h bp next
  end.

(** The steps of the search: the number of headers in memory is enough. *)
Definition list_fuel (h : heap) : nat := S (S (base.size (ptr h))).

Definition free_join_next (bp p : Z) (h : heap) : heap :=
  let next := ptr_at h p in
  if hplus bp (size_at h bp) =? next
  then set_ptr bp (ptr_at h next) (set_size bp (size_at h bp + size_at h next) h)
  else set_ptr bp next h.

Definition free_join_prev (bp p : Z) (h : heap) : heap :=
  if hplus p (size_at h p) =? bp
  then set_ptr p (ptr_at h bp) (set_size p (size_at h p + size_at h bp) h)
  else set_ptr p bp h.

Definition free (ap : Z) (h : heap) : option heap :=
  let bp := ap - sizeof_Header in
  match free_find (list_fuel h) h bp (freep h) with
  | None => None
  | Some p => Some (set_freep p (free_join_prev bp p (free_join_next bp p h)))
  end.

(** morecore: 0 when the kernel has no memory.  The argument of sbrk is an
    int. *)
Definition morecore (nu : Z) (h : heap) : option (Z * heap) :=
  let nu := if nu <? 4096 then 4096 else nu in
  let '(p, b) := sbrk (s32 (nu * sizeof_Header)) (brk h) in
  let h := set_brk b h in
  if p =? -1 then Some (0, h) else
  match free (hplus p 1) (set_size p nu h) with
  | None => None
  | Some h => Some (freep h, h)
  end.

(** The loop of malloc over the blocks. *)
Fixpoint malloc_loop (fuel : nat) (nunits prevp p : Z) (h : heap) : option (Z * heap) :=
  match fuel with
  | O => None
  | S fuel' =>
      if nunits <=? size_at h p then
        if size_at h p =? nunits
        then Some (hplus p 1, set_freep prevp (set_ptr prevp (ptr_at h p) h))
        else
          let h := set_size p (size_at h p - nunits) h in
          let q := hplus p (size_at h p) in
          Some (hplus q 1, set_freep prevp (set_size q nunits h))
      else if p =? freep h then
        match morecore nunits h with
        | None => None
        | Some (p, h) => if p =? 0 then Some (0, h) else malloc_loop fuel' nunits p (ptr_at h p) h
        end
      else malloc_loop fuel' nunits p (ptr_at h p) h
  end.

Definition units (nbytes : Z) : Z := u32 ((nbytes + sizeof_Header - 1) / sizeof_Header + 1).

(** malloc(nbytes); [None] when the bound on the steps of the model is too
    small.  Two rounds of the list are enough. *)
Definition malloc (nbytes : Z) (h : heap) : option (Z * heap) :=
  let nunits := units nbytes in
  let h := if freep h =? 0 then set_size base 0 (set_freep base (set_ptr base base h)) else h in
  let prevp := freep h in
  malloc_loop (2 * list_fuel h) nunits prevp (ptr_at h prevp) h.
End Alloc.
