(* ===== verification/UmallocSpec.v ===== *)
(** * The invariant of the user allocator

    The free list of user/umalloc.c as a sorted list of blocks, the blocks in
    use beside it, and what malloc and free do to both. *)

From S2P Require Import Prelude Umalloc.

(** ** Blocks *)

(** The address of the header, and the size in headers. *)
Abbreviation block := (Z * Z)%type.
Definition bend (b : block) : Z := fst b + snd b * 16.
Definition apart (x y : block) : Prop := bend x <= fst y \/ bend y <= fst x.

Fixpoint pairwise (l : list block) : Prop :=
  match l with [] => True | x :: l' => Forall (apart x) l' /\ pairwise l' end.

(** The free blocks are in order, with a gap between them. *)
Fixpoint ordered (l : list block) : Prop :=
  match l with
  | [] => True
  | x :: l' => Forall (fun y => bend x < fst y) l' /\ ordered l'
  end.

Fixpoint total (l : list block) : Z := match l with [] => 0 | b :: l' => snd b + total l' end.

Lemma apart_sym x y : apart x y -> apart y x.
Proof. unfold apart. lia. Qed.

Lemma pairwise_app l1 l2 : pairwise (l1 ++ l2) <-> pairwise l1 /\ pairwise l2 /\ Forall (fun x => Forall (apart x) l2) l1.
Proof.
  induction l1 as [|x l1 IH]; cbn; [rewrite Forall_nil; tauto|]. rewrite IH, Forall_app, Forall_cons. tauto.
Qed.

Lemma pairwise_perm l l' : l ≡ₚ l' -> pairwise l -> pairwise l'.
Proof.
  induction 1 as [|x l l' H IH|x y l|l1 l2 l3 _ IH1 _ IH2]; cbn; [done|..|by auto].
  - intros [H1 H2]. split; [by rewrite <- H|by apply IH].
  - rewrite !Forall_cons. intros ([H1 H2] & H3 & H4). split_and!; [by apply apart_sym|done|done|done].
Qed.

Lemma ordered_app l1 l2 : ordered (l1 ++ l2) <-> ordered l1 /\ ordered l2 /\ Forall (fun x => Forall (fun y => bend x < fst y) l2) l1.
Proof.
  induction l1 as [|x l1 IH]; cbn; [rewrite Forall_nil; tauto|]. rewrite IH, Forall_app, Forall_cons. tauto.
Qed.

Lemma total_app l1 l2 : total (l1 ++ l2) = total l1 + total l2.
Proof. induction l1 as [|x l1 IH]; cbn; [done|]. rewrite IH. lia. Qed.

#[export] Instance total_perm : Proper ((≡ₚ) ==> (=)) total.
Proof. intros l l' H. induction H; cbn in *; lia. Qed.

(** ** Linked blocks *)

(** The address of the first block, or [z]. *)
Definition first (z : Z) (l : list block) : Z := match l with [] => z | b :: _ => fst b end.

(** The blocks are linked, and the last one points to [z]. *)
Fixpoint seg (h : heap) (l : list block) (z : Z) : Prop :=
  match l with [] => True | b :: l' => ptr_at h (fst b) = first z l' /\ seg h l' z end.

Lemma first_app z l1 l2 : first z (l1 ++ l2) = first (first z l2) l1.
Proof. by destruct l1. Qed.

Lemma seg_app h l1 l2 z : seg h (l1 ++ l2) z <-> seg h l1 (first z l2) /\ seg h l2 z.
Proof. induction l1 as [|b l1 IH]; cbn; [tauto|]. rewrite IH, first_app. tauto. Qed.

Lemma seg_frame h h' l z : (forall b, b ∈ l -> ptr_at h' (fst b) = ptr_at h (fst b)) -> seg h l z -> seg h' l z.
Proof.
  induction l as [|b l IH]; cbn; [done|]. intros H [H1 H2]. split; [rewrite H; [done|set_solver]|]. apply IH; [set_solver|done].
Qed.

Lemma seg_addr h l l' z : map fst l' = map fst l -> seg h l z -> seg h l' z.
Proof.
  revert l'. induction l as [|b l IH]; intros [|b' l'] E; try done. injection E as E1 E2. cbn. rewrite E1. intros [H1 H2].
  split; [|by apply IH]. rewrite H1. destruct l, l'; try done. by injection E2.
Qed.

(** The nodes that follow [p]. *)
Fixpoint path (h : heap) (p : Z) (l : list Z) : Prop :=
  match l with [] => True | a :: l' => ptr_at h p = a /\ path h a l' end.

Lemma path_join h p l1 a l2 : path h p (l1 ++ [a]) -> path h a l2 -> path h p (l1 ++ a :: l2).
Proof. revert p. induction l1 as [|b l1 IH]; intros p; cbn; [tauto|]. intros [H1 H2] H3. split; [done|]. by apply IH. Qed.

Lemma seg_path h b l z : seg h (b :: l) z -> path h (fst b) (map fst l ++ [z]).
Proof. revert b. induction l as [|c l IH]; intros b; cbn; [tauto|]. intros (-> & H). split; [done|]. by apply IH. Qed.

(** The nodes of a ring after [x], up to [x] again. *)
Lemma ring_path h r1 x r2 z : seg h (r1 ++ x :: r2) z -> first z (r1 ++ x :: r2) = z ->
  path h (fst x) (map fst r2 ++ map fst r1 ++ [fst x]).
Proof.
  intros Hs Hz. apply seg_app in Hs as [H1 H2]. apply seg_path in H2. destruct r1 as [|b r1]; cbn in Hz; subst z; [done|].
  cbn. apply path_join; [done|]. by apply (seg_path h b r1 (fst x)).
Qed.

(** ** The search of free *)

Definition stops (h : heap) (bp q : Z) : bool :=
  (q <? bp) && (bp <? ptr_at h q) || (ptr_at h q <=? q) && ((q <? bp) || (bp <? ptr_at h q)).

Lemma free_find_path h bp fuel l p : path h p l -> Exists (fun q => stops h bp q = true) (p :: l) -> (length l < fuel)%nat ->
  exists q, free_find fuel h bp p = Some q /\ q ∈ p :: l /\ stops h bp q = true.
Proof.
  revert p fuel. induction l as [|a l IH]; intros p fuel Hp He Hf; (destruct fuel as [|fuel]; [cbn in Hf; lia|]); cbn [free_find];
    (destruct (stops h bp p) eqn:E; [exists p; split; [|split; [set_solver|done]]; unfold stops in E;
       destruct ((p <? bp) && (bp <? ptr_at h p)); [done|]; cbn in E; by rewrite E|]); unfold stops in E.
  - apply Exists_cons in He as [He|He]; [unfold stops in He; congruence|by apply Exists_nil in He].
  - apply Exists_cons in He as [He|He]; [unfold stops in He; congruence|]. apply orb_false_iff in E as [-> ->].
    destruct Hp as [-> Hp]. destruct (IH a fuel Hp He) as (q & H1 & H2 & H3); [cbn in Hf; lia|]. exists q. split_and!; [done|set_solver|done].
Qed.

(** ** Reads after writes *)

Lemma ptr_set_ptr h p x q : ptr_at (set_ptr p x h) q = if decide (p = q) then x else ptr_at h q.
Proof. unfold ptr_at, set_ptr. cbn. case_decide; [subst; by rewrite lookup_insert_eq|by rewrite lookup_insert_ne]. Qed.
Lemma size_set_size h p x q : size_at (set_size p x h) q = if decide (p = q) then u32 x else size_at h q.
Proof. unfold size_at, set_size. cbn. case_decide; [subst; by rewrite lookup_insert_eq|by rewrite lookup_insert_ne]. Qed.
Lemma ptr_set_size h p x q : ptr_at (set_size p x h) q = ptr_at h q.
Proof. done. Qed.
Lemma size_set_ptr h p x q : size_at (set_ptr p x h) q = size_at h q.
Proof. done. Qed.
Lemma ptr_set_freep h x q : ptr_at (set_freep x h) q = ptr_at h q.
Proof. done. Qed.
Lemma size_set_freep h x q : size_at (set_freep x h) q = size_at h q.
Proof. done. Qed.
Lemma ptr_set_brk h x q : ptr_at (set_brk x h) q = ptr_at h q.
Proof. done. Qed.
Lemma size_set_brk h x q : size_at (set_brk x h) q = size_at h q.
Proof. done. Qed.
Create Rewrite HintDb heap.
#[export] Hint Rewrite ptr_set_ptr size_set_size ptr_set_size size_set_ptr ptr_set_freep size_set_freep ptr_set_brk size_set_brk : heap.

(** ** The invariant *)

Section Inv.
Context (base : Z).

(** [fl] are the free blocks in the order of the list, [A] the blocks in use. *)
Record Inv (h : heap) (fl A : list block) : Prop := {
  inv_ring : seg h ((base, 0) :: fl) base;
  inv_base : size h !! base = Some 0;
  inv_blocks : Forall (fun b => size_at h (fst b) = snd b /\ 0 < snd b /\ base + 16 <= fst b /\ bend b <= brk h) (fl ++ A);
  inv_ordered : ordered fl;
  inv_apart : pairwise (fl ++ A);
  inv_range : 0 < base /\ base + 16 <= brk h <= 2147483648;
  inv_freep : freep h ∈ base :: map fst fl
}.

Lemma inv_block h fl A b : Inv h fl A -> b ∈ fl ++ A -> size_at h (fst b) = snd b /\ 0 < snd b /\ base + 16 <= fst b /\ bend b <= brk h.
Proof. intros H Hb. pose proof (inv_blocks _ _ _ H) as Hf. rewrite Forall_forall in Hf. by apply Hf. Qed.

(** The ring in order. *)
Lemma ring_ordered h fl A : Inv h fl A -> ordered ((base, 0) :: fl).
Proof.
  intros H. split; [|apply H]. apply Forall_forall. intros y Hy. unfold bend. cbn.
  destruct (inv_block h fl A y H) as (_ & _ & ? & _); [set_solver|lia].
Qed.

Lemma ring_sizes h fl A b : Inv h fl A -> b ∈ (base, 0) :: fl -> fst b <= bend b /\ base <= fst b.
Proof.
  intros H Hb. apply elem_of_cons in Hb as [->|Hb]; [unfold bend; cbn; lia|]. unfold bend.
  destruct (inv_block h fl A b H) as (_ & ? & ? & _); [set_solver|lia].
Qed.

Lemma ordered_nodup l : ordered l -> (forall b, b ∈ l -> fst b <= bend b) -> NoDup (map fst l).
Proof.
  induction l as [|x l IH]; cbn; [constructor|]. intros [H1 H2] H. constructor; [|apply IH; [done|set_solver]].
  intros Hin. apply list_elem_of_fmap in Hin as (y & Ey & Hy). rewrite Forall_forall in H1. specialize (H1 y Hy).
  specialize (H x ltac:(set_solver)). lia.
Qed.

Lemma seg_in_dom h l z b : z <> 0 -> (forall b, b ∈ l -> fst b <> 0) -> seg h l z -> b ∈ l -> fst b ∈ dom (ptr h).
Proof.
  intros Hz. induction l as [|c l IH]; cbn; [set_solver|]. intros Hn [H1 H2] Hb. apply elem_of_cons in Hb as [->|Hb]; [|apply IH; set_solver].
  apply elem_of_dom. unfold ptr_at in H1. destruct (ptr h !! fst c); [done|]. cbn in H1. exfalso. destruct l as [|d l]; cbn in H1; [done|].
  apply (Hn d); [set_solver|done].
Qed.

Lemma ring_fuel h fl A : Inv h fl A -> (length ((base, 0%Z) :: fl) <= base.size (ptr h))%nat.
Proof.
  intros H. pose proof (inv_range _ _ _ H) as Hr. rewrite <- (length_map fst), <- size_dom.
  assert (NoDup (map fst ((base, 0) :: fl))) as Hnd.
  { apply ordered_nodup; [by eapply ring_ordered|]. intros b Hb. by apply (ring_sizes _ _ _ b H). }
  rewrite <- (size_list_to_set (C := gset Z)) by done. apply subseteq_size. intros q Hq. apply elem_of_list_to_set in Hq.
  apply list_elem_of_fmap in Hq as (b & -> & Hb). eapply seg_in_dom; [|..|apply H|done]; [lia|].
  intros c Hc. apply (ring_sizes _ _ _ c H) in Hc. lia.
Qed.

(** ** Where a block goes *)

(** [b] fits between [l1] and [l2]. *)
Definition between (l1 l2 : list block) (b : block) : Prop :=
  Forall (fun x => bend x <= fst b) l1 /\ Forall (fun y => bend b <= fst y) l2.

Lemma place fl b : ordered fl -> Forall (fun x => 0 < snd x) fl -> 0 < snd b -> Forall (apart b) fl ->
  exists l1 l2, fl = l1 ++ l2 /\ between l1 l2 b.
Proof.
  intros Ho Hp Hb. induction fl as [|x fl IH]; intros Ha; [by exists [], []|].
  destruct Ho as [Ho1 Ho2]. apply Forall_cons in Hp as [Hp1 Hp2]. apply Forall_cons in Ha as [[Ha|Ha] Ha2].
  - exists [], (x :: fl). split; [done|]. split; [done|]. constructor; [done|]. eapply Forall_impl; [exact Ho1|]. cbn. unfold bend in *. lia.
  - destruct (IH Ho2 Hp2 Ha2) as (l1 & l2 & -> & H1 & H2). exists (x :: l1), l2. split; [done|]. split; [by constructor|done].
Qed.

(** The next node in the ring is higher, except after the last. *)
Lemma next_higher h fl A r1 x r2 : Inv h fl A -> (base, 0) :: fl = r1 ++ x :: r2 ->
  ptr_at h (fst x) = first base r2 /\ (r2 <> [] -> fst x < first base r2).
Proof.
  intros H E. pose proof (inv_ring _ _ _ H) as Hs. rewrite E in Hs. apply seg_app in Hs as [_ [Hs _]]. split; [done|].
  intros Hr. pose proof (ring_ordered _ _ _ H) as Ho. rewrite E in Ho. apply ordered_app in Ho as (_ & [Ho _] & _).
  destruct r2 as [|y r2]; [done|]. apply Forall_cons in Ho as [Ho _]. cbn.
  destruct (ring_sizes h fl A x H) as [? _]; [rewrite E; set_solver|lia].
Qed.

(** The search stops exactly at the last node below the block. *)
Lemma stops_at h fl A l0 p sp l2 b x : Inv h fl A -> base < fst b -> 0 < snd b ->
  (base, 0) :: fl = l0 ++ (p, sp) :: l2 -> p < fst b -> Forall (fun y => bend b <= fst y) l2 ->
  x ∈ (base, 0) :: fl -> stops h (fst b) (fst x) = true <-> fst x = p.
Proof.
  intros H Hb Hsb E Hp H2 Hx. pose proof (ring_ordered _ _ _ H) as Ho. split.
  - rewrite E in Hx. apply elem_of_app in Hx as [Hx|Hx]; [|apply elem_of_cons in Hx as [->|Hx]; [done|]]; intros Hst; exfalso; unfold stops in Hst.
    + apply list_elem_of_split in Hx as (a & c & ->). rewrite <- app_assoc in E. cbn in E.
      destruct (next_higher _ _ _ _ _ _ H E) as [Hn Hlt]. specialize (Hlt ltac:(by destruct c)). rewrite Hn in Hst.
      rewrite E in Ho. apply ordered_app in Ho as (_ & [_ Ho] & _). apply ordered_app in Ho as (_ & _ & Ho).
      assert (first base (c ++ (p, sp) :: l2) <= p); [|lia]. destruct c as [|y c]; [done|]. cbn in *.
      apply Forall_cons in Ho as [Ho _]. apply Forall_cons in Ho as [Ho _]. cbn in Ho.
      destruct (ring_sizes h fl A y H) as [? _]; [rewrite E; set_solver|]. lia.
    + pose proof Hx as Hx'. rewrite Forall_forall in H2. specialize (H2 x Hx). unfold bend in H2.
      apply list_elem_of_split in Hx' as (a & c & ->). change ((p, sp) :: a ++ x :: c) with ([(p, sp)] ++ a ++ x :: c) in E. rewrite !app_assoc in E.
      destruct (next_higher _ _ _ _ _ _ H E) as [Hn Hlt]. rewrite Hn in Hst.
      destruct c as [|y c]; [cbn in Hst; lia|]. specialize (Hlt ltac:(done)). lia.
  - intros ->. unfold stops. destruct (next_higher _ _ _ _ _ _ H E) as [Hn Hlt]. cbn [fst] in *. rewrite Hn. destruct l2 as [|y l2].
    + cbn. destruct (ring_sizes h fl A (p, sp) H) as [_ ?]; [rewrite E; set_solver|]. cbn in *. lia.
    + apply Forall_cons in H2 as [H2 _]. cbn. unfold bend in H2. lia.
Qed.

Lemma free_find_place h fl A l0 p sp l2 b : Inv h fl A -> base < fst b -> 0 < snd b ->
  (base, 0) :: fl = l0 ++ (p, sp) :: l2 -> p < fst b -> Forall (fun y => bend b <= fst y) l2 ->
  free_find (list_fuel h) h (fst b) (freep h) = Some p.
Proof.
  intros H Hb Hsb E Hp H2. pose proof (inv_freep _ _ _ H) as Hf. change (base :: map fst fl) with (map fst ((base, 0) :: fl)) in Hf.
  apply list_elem_of_fmap in Hf as (x & -> & Hx). pose proof Hx as Hx'. apply list_elem_of_split in Hx' as (r1 & r2 & Er).
  pose proof (inv_ring _ _ _ H) as Hs. rewrite Er in Hs.
  assert (first base (r1 ++ x :: r2) = base) as Hz by (by rewrite <- Er). pose proof (ring_path _ _ _ _ _ Hs Hz) as Hpath.
  assert (forall q, q ∈ fst x :: map fst r2 ++ map fst r1 ++ [fst x] <-> q ∈ map fst ((base, 0) :: fl)) as Hmem.
  { intros q. rewrite Er, fmap_app. cbn. set_solver. }
  destruct (free_find_path h (fst b) (list_fuel h) _ _ Hpath) as (q & -> & Hq & Hst).
  - apply Exists_exists. exists p. split; [apply Hmem; rewrite E, fmap_app; cbn; set_solver|].
    apply (stops_at h fl A l0 p sp l2 b (p, sp) H); try done. rewrite E. set_solver.
  - rewrite !length_app, !length_map. cbn. pose proof (ring_fuel _ _ _ H) as Hfu. rewrite Er, length_app in Hfu. cbn in Hfu. unfold list_fuel. lia.
  - f_equal. apply Hmem, list_elem_of_fmap in Hq as (y & -> & Hy). by apply (stops_at h fl A l0 p sp l2 b y H).
Qed.
End Inv.
