(* ===== verification/UmallocOps.v ===== *)
(** * What malloc and free of user/umalloc.c do

    Both keep the invariant of the allocator; free makes the block free again
    and malloc hands out a block that overlaps no other. *)

From S2P Require Import Prelude Umalloc UmallocSpec.

Section Ops.
Context (base : Z).
Local Abbreviation Inv := (Inv base).

Lemma size_same h p s : size_at h p = s -> 0 < s < 4294967296 -> set_size p s h = h.
Proof.
  intros <- Hs. unfold set_size, size_at in *. destruct (size h !! p) as [x|] eqn:E; cbn in *; [|lia].
  unfold u32. rewrite Z.mod_small by lia. rewrite insert_id by done. by destruct h.
Qed.

Lemma size_same_base h : size h !! base = Some 0 -> set_size base 0 h = h.
Proof. intros H. unfold set_size. cbn. rewrite insert_id by done. by destruct h. Qed.

Lemma u32_block h fl A b : Inv h fl A -> b ∈ fl ++ A -> 0 < snd b < 268435456.
Proof.
  intros H Hb. destruct (inv_block _ _ _ _ _ H Hb) as (_ & H1 & H2 & H3). pose proof (inv_range _ _ _ _ H). unfold bend in H3. lia.
Qed.

Lemma ring_free fl (b : block) : b ∈ (base, 0) :: fl -> base < fst b -> b ∈ fl.
Proof. rewrite elem_of_cons. intros [->|H] Hb; [cbn in Hb; lia|done]. Qed.

(** ** Joining with the next block *)

(** The block after the join: [S] headers before the free blocks [l2']. *)
Definition joined_next (bp s : Z) (l2 : list block) (S : Z) (l2' : list block) : Prop :=
  (l2 = l2' /\ S = s \/ exists t, l2 = (bp + s * 16, t) :: l2' /\ S = s + t) /\ Forall (fun y => bp + S * 16 < fst y) l2'.

Lemma join_next h fl A bp s l0 p sp l2 : Inv h fl ((bp, s) :: A) -> (base, 0) :: fl = l0 ++ (p, sp) :: l2 ->
  Forall (fun y => bp + s * 16 <= fst y) l2 ->
  exists S l2', joined_next bp s l2 S l2' /\ free_join_next bp p h = set_ptr bp (first base l2') (set_size bp S h).
Proof.
  intros H E H2. destruct (next_higher _ _ _ _ _ _ _ H E) as [Hn _]. cbn [fst] in Hn.
  destruct (inv_block _ _ _ _ (bp, s) H ltac:(set_solver)) as (Hs & Hpos & Hlow & Hend). cbn [fst snd] in *.
  pose proof (u32_block _ _ _ (bp, s) H ltac:(set_solver)) as Hsm. cbn [snd] in Hsm.
  pose proof (ring_ordered _ _ _ _ H) as Ho. rewrite E in Ho. apply ordered_app in Ho as (_ & [_ Ho] & _).
  unfold free_join_next, hplus, sizeof_Header. rewrite Hs, Hn. destruct l2 as [|[a t] l2].
  - exists s, []. split; [split; [by left|done]|]. cbn [first]. rewrite (proj2 (Z.eqb_neq _ _)) by lia. by rewrite (size_same h) by lia.
  - apply Forall_cons in H2 as [Ha H2]. cbn [first fst] in *. destruct Ho as [Ho1 Ho2].
    destruct (Z.eqb_spec (bp + s * 16) a) as [Ea|Hne].
    + exists (s + t), l2. assert ((a, t) ∈ fl) as Hin.
      { apply ring_free; [rewrite E; set_solver|cbn; lia]. }
      destruct (inv_block _ _ _ _ (a, t) H ltac:(set_solver)) as (Ht & _). cbn [fst snd] in Ht. rewrite Ht.
      split; [split; [right; exists t; by rewrite Ea|]|].
      * eapply Forall_impl; [exact Ho1|]. cbn. unfold bend. cbn. lia.
      * change (l0 ++ (p, sp) :: (a, t) :: l2) with (l0 ++ [(p, sp)] ++ (a, t) :: l2) in E. rewrite app_assoc in E.
        destruct (next_higher _ _ _ _ _ _ _ H E) as [Hn2 _]. cbn [fst] in Hn2. by rewrite Hn2.
    + exists s, ((a, t) :: l2). split; [split; [by left|]|by rewrite (size_same h) by lia].
      constructor; [cbn; lia|]. eapply Forall_impl; [exact Ho1|]. cbn. unfold bend. cbn.
      assert ((a, t) ∈ fl) as Hin.
      { apply ring_free; [rewrite E; set_solver|cbn; lia]. }
      destruct (inv_block _ _ _ _ (a, t) H ltac:(set_solver)) as (_ & Ht & _). cbn in Ht. lia.
Qed.

(** ** Blocks that grow together *)

Definition sane (e : Z) (b : block) : Prop := 0 < snd b /\ base + 16 <= fst b /\ bend b <= e.

Lemma apart_addr (x y : block) : apart x y -> 0 < snd x -> 0 < snd y -> fst x <> fst y.
Proof. unfold apart, bend. lia. Qed.

Lemma merge_blocks e x y l : bend x = fst y -> pairwise (x :: y :: l) -> Forall (sane e) (x :: y :: l) ->
  pairwise ((fst x, snd x + snd y) :: l) /\ Forall (sane e) ((fst x, snd x + snd y) :: l).
Proof.
  intros E [Hx [Hy Hl]] Hs. apply Forall_cons in Hx as [_ Hx]. apply Forall_cons in Hs as [Sx Hs]. apply Forall_cons in Hs as [Sy Sl].
  split; [split; [|done]|constructor; [unfold sane, bend in *; cbn; lia|done]].
  rewrite !Forall_forall in *. intros z Hz. specialize (Hx z Hz). specialize (Hy z Hz). specialize (Sl z Hz).
  unfold apart, sane, bend in *. cbn. lia.
Qed.

Lemma joined_blocks e bp s S l1 l2 l2' A : joined_next bp s l2 S l2' -> pairwise (l1 ++ l2 ++ (bp, s) :: A) -> Forall (sane e) (l1 ++ l2 ++ (bp, s) :: A) ->
  pairwise ((bp, S) :: l1 ++ l2' ++ A) /\ Forall (sane e) ((bp, S) :: l1 ++ l2' ++ A).
Proof.
  intros [[[<- ->]|(t & -> & ->)] _] Hp Hs.
  - assert (l1 ++ l2 ++ (bp, s) :: A ≡ₚ (bp, s) :: l1 ++ l2 ++ A) as P by solve_Permutation. split; [by apply (pairwise_perm _ _ P)|by rewrite <- P].
  - assert (l1 ++ ((bp + s * 16, t) :: l2') ++ (bp, s) :: A ≡ₚ (bp, s) :: (bp + s * 16, t) :: l1 ++ l2' ++ A) as P by solve_Permutation.
    apply (pairwise_perm _ _ P) in Hp. rewrite P in Hs. by apply (merge_blocks e (bp, s) (bp + s * 16, t)).
Qed.

Lemma inv_sane h fl A : Inv h fl A -> Forall (sane (brk h)) (fl ++ A).
Proof. intros H. eapply Forall_impl; [apply H|]. cbn. unfold sane. tauto. Qed.

Lemma joined_total bp s S l2 l2' : joined_next bp s l2 S l2' -> S + total l2' = s + total l2.
Proof. intros [[[<- ->]|(t & -> & ->)] _]; cbn; lia. Qed.

Lemma joined_seg h bp s S l2 l2' : joined_next bp s l2 S l2' -> seg h l2 base -> seg h l2' base.
Proof. intros [[[<- _]|(t & -> & _)] _]; cbn; tauto. Qed.

Lemma joined_ordered bp s S l2 l2' : joined_next bp s l2 S l2' -> ordered l2 -> ordered ((bp, S) :: l2').
Proof. intros [[[<- _]|(t & -> & _)] Hg] Ho; (split; [exact Hg|]); [done|by apply Ho]. Qed.

Lemma joined_length bp s S l2 l2' : joined_next bp s l2 S l2' -> (length l2' <= length l2)%nat.
Proof. intros [[[<- _]|(t & -> & _)] _]; cbn; lia. Qed.

(** The sizes of the blocks that do not change. *)
Lemma blocks_frame h h' e x l : Forall (fun b => size_at h (fst b) = snd b) l -> pairwise (x :: l) -> Forall (sane e) (x :: l) ->
  size_at h' (fst x) = snd x -> (forall q, q ∉ [fst x] -> (exists b, b ∈ l /\ fst b = q) -> size_at h' q = size_at h q) ->
  Forall (fun b => size_at h' (fst b) = snd b /\ 0 < snd b /\ base + 16 <= fst b /\ bend b <= e) (x :: l).
Proof.
  intros Hz [Hp _] Hs Hx Hf. apply Forall_cons in Hs as [Sx Sl]. constructor; [done|].
  rewrite !Forall_forall in *. intros b Hb. specialize (Hz b Hb). specialize (Hp b Hb). specialize (Sl b Hb). split; [|done].
  rewrite Hf; [done| |by exists b]. intros K. assert (fst b = fst x) by set_solver.
  eapply (apart_addr x b); [done|apply Sx|apply Sl|done].
Qed.

(** ** The block goes between its neighbours *)

Lemma inv_new h l1 l2 A bp s S l2' l0 p sp : Inv h (l1 ++ l2) ((bp, s) :: A) -> joined_next bp s l2 S l2' ->
  (base, 0) :: l1 = l0 ++ [(p, sp)] -> Forall (fun x => bend x < bp) l1 ->
  Inv (set_freep p (set_ptr p bp (set_ptr bp (first base l2') (set_size bp S h)))) (l1 ++ (bp, S) :: l2') A.
Proof.
  intros H Hj E H1. pose proof (inv_sane _ _ _ H) as Hsane. pose proof (inv_apart _ _ _ _ H) as Hap. rewrite <- app_assoc in Hsane, Hap.
  destruct (joined_blocks _ _ _ _ _ _ _ _ Hj Hap Hsane) as [Hp Hs].
  assert (0 < S < 268435456 /\ base + 16 <= bp) as [HS Hbp].
  { apply Forall_cons in Hs as [(? & ? & ?) _]. pose proof (inv_range _ _ _ _ H). unfold bend in *. cbn in *. lia. }
  assert (forall b, b ∈ (base, 0) :: l1 -> fst b < bp) as Hlow.
  { intros b Hb. apply elem_of_cons in Hb as [->|Hb]; [cbn; lia|]. rewrite Forall_forall in H1. specialize (H1 b Hb).
    destruct (inv_block _ _ _ _ b H) as (_ & ? & _); [set_solver|]. unfold bend in H1. lia. }
  assert (p < bp) as Hpbp by (apply (Hlow (p, sp)); rewrite E; set_solver).
  pose proof (inv_ring _ _ _ _ H) as Hr. change ((base, 0) :: l1 ++ l2) with (((base, 0) :: l1) ++ l2) in Hr.
  rewrite E, <- app_assoc in Hr. apply seg_app in Hr as [Hr0 [_ Hr2]]. cbn [app fst first] in Hr0, Hr2.
  pose proof (ring_ordered _ _ _ _ H) as Ho. change ((base, 0) :: l1 ++ l2) with (((base, 0) :: l1) ++ l2) in Ho.
  assert (Forall (fun y => bp < fst y) l2') as H2 by (eapply Forall_impl; [apply Hj|]; cbn; lia).
  split.
  - change ((base, 0) :: l1 ++ (bp, S) :: l2') with (((base, 0) :: l1) ++ (bp, S) :: l2'). rewrite E, <- app_assoc. cbn [app].
    apply seg_app. split; [|split; [|split]]; cbn [fst first].
    + eapply seg_frame; [|exact Hr0]. intros b Hb. autorewrite with heap. rewrite !decide_False; [done|..].
      * specialize (Hlow b). rewrite E in Hlow. intros ->. set_solver by lia.
      * rewrite E, <- app_assoc in Ho. apply ordered_app in Ho as (_ & _ & Ho). rewrite Forall_forall in Ho.
        specialize (Ho b Hb). apply Forall_cons in Ho as [Ho _]. cbn in Ho.
        destruct (ring_sizes _ _ _ _ b H) as [? _]; [|lia]. change ((base, 0) :: l1 ++ l2) with (((base, 0) :: l1) ++ l2). rewrite E. set_solver.
    + autorewrite with heap. by rewrite decide_True.
    + autorewrite with heap. by rewrite decide_False, decide_True by lia.
    + eapply seg_frame; [|by eapply joined_seg]. intros b Hb. rewrite Forall_forall in H2. specialize (H2 b Hb).
      autorewrite with heap. by rewrite !decide_False by lia.
  - cbn. rewrite lookup_insert_ne by lia. apply H.
  - assert ((l1 ++ (bp, S) :: l2') ++ A ≡ₚ (bp, S) :: l1 ++ l2' ++ A) as -> by solve_Permutation.
    eapply (blocks_frame h); [|done|done|..].
    + apply Forall_forall. intros b Hb. apply (inv_block _ _ _ _ b H). destruct Hj as [[[<- _]|(t & -> & _)] _]; set_solver.
    + autorewrite with heap. cbn. rewrite decide_True by done. unfold u32. apply Z.mod_small. lia.
    + intros q Hq _. autorewrite with heap. apply decide_False. set_solver.
  - apply ordered_app. pose proof (inv_ordered _ _ _ _ H) as Ho'. apply ordered_app in Ho' as (Ho1 & Ho2 & Ho3).
    split_and!; [done|by eapply joined_ordered|]. rewrite !Forall_forall in *. intros x Hx. specialize (H1 x Hx).
    constructor; [done|]. eapply Forall_impl; [exact (proj2 (Forall_forall _ _) H2)|]. cbn. lia.
  - eapply pairwise_perm; [|exact Hp]. solve_Permutation.
  - apply H.
  - cbn. rewrite fmap_app. change (base :: map fst l1) with (map fst ((base, 0) :: l1)).
    assert (p ∈ map fst ((base, 0) :: l1)); [|cbn in *; set_solver]. rewrite E, fmap_app. set_solver.
Qed.

Lemma inv_left h l1 l2 A bp s S l2' p sp : Inv h (l1 ++ (p, sp) :: l2) ((bp, s) :: A) -> joined_next bp s l2 S l2' -> p + sp * 16 = bp ->
  Inv (set_freep p (set_ptr p (first base l2') (set_size p (sp + S) (set_ptr bp (first base l2') (set_size bp S h)))))
    (l1 ++ (p, sp + S) :: l2') A.
Proof.
  intros H Hj E. pose proof (inv_sane _ _ _ H) as Hsane. pose proof (inv_apart _ _ _ _ H) as Hap.
  rewrite <- app_assoc in Hsane, Hap. cbn [app] in Hsane, Hap. rewrite cons_middle, app_assoc in Hsane, Hap.
  destruct (joined_blocks _ _ _ _ _ _ _ _ Hj Hap Hsane) as [Hp Hs].
  assert ((bp, S) :: (l1 ++ [(p, sp)]) ++ l2' ++ A ≡ₚ (p, sp) :: (bp, S) :: l1 ++ l2' ++ A) as P by solve_Permutation.
  apply (pairwise_perm _ _ P) in Hp. rewrite P in Hs. clear P.
  pose proof (merge_blocks _ (p, sp) (bp, S) _ E Hp Hs) as [Hp' Hs']. cbn [fst snd] in Hp', Hs'.
  assert (0 < S /\ 0 < sp /\ sp + S < 268435456 /\ base + 16 <= p) as (HS & Hsp & Hsum & Hbp).
  { apply Forall_cons in Hs' as [(? & ? & ?) _]. apply Forall_cons in Hs as [(? & _) Hs]. apply Forall_cons in Hs as [(? & _) _].
    pose proof (inv_range _ _ _ _ H). unfold bend in *. cbn in *. lia. }
  pose proof (inv_ring _ _ _ _ H) as Hr. change ((base, 0) :: l1 ++ (p, sp) :: l2) with (((base, 0) :: l1) ++ (p, sp) :: l2) in Hr.
  apply seg_app in Hr as [Hr0 [_ Hr2]]. cbn [app fst first] in Hr0, Hr2.
  pose proof (ring_ordered _ _ _ _ H) as Ho. change ((base, 0) :: l1 ++ (p, sp) :: l2) with (((base, 0) :: l1) ++ (p, sp) :: l2) in Ho.
  apply ordered_app in Ho as (_ & Ho2 & Ho). pose proof (inv_ordered _ _ _ _ H) as Ho'. apply ordered_app in Ho' as (Ho1 & _ & Ho3).
  assert (Forall (fun y => p + (sp + S) * 16 < fst y) l2') as H2 by (eapply Forall_impl; [apply Hj|]; cbn; lia).
  split.
  - change ((base, 0) :: l1 ++ (p, sp + S) :: l2') with (((base, 0) :: l1) ++ (p, sp + S) :: l2').
    apply seg_app. split; [|split]; cbn [fst first].
    + eapply seg_frame; [|exact Hr0]. intros b Hb. rewrite Forall_forall in Ho. specialize (Ho b Hb). apply Forall_cons in Ho as [Ho _]. cbn in Ho.
      destruct (ring_sizes _ _ _ _ b H) as [? _]; [cbn; set_solver|]. autorewrite with heap. by rewrite !decide_False by lia.
    + autorewrite with heap. by rewrite decide_True.
    + eapply seg_frame; [|by eapply joined_seg]. intros b Hb. rewrite Forall_forall in H2. specialize (H2 b Hb).
      autorewrite with heap. by rewrite !decide_False by lia.
  - cbn. rewrite !lookup_insert_ne by lia. apply H.
  - assert ((l1 ++ (p, sp + S) :: l2') ++ A ≡ₚ (p, sp + S) :: l1 ++ l2' ++ A) as -> by solve_Permutation.
    eapply (blocks_frame h); [|done|done|..].
    + apply Forall_forall. intros b Hb. apply (inv_block _ _ _ _ b H). destruct Hj as [[[<- _]|(t & -> & _)] _]; set_solver.
    + autorewrite with heap. cbn. rewrite decide_True by done. unfold u32. apply Z.mod_small. lia.
    + intros q Hq (b & Hb & <-). autorewrite with heap. rewrite !decide_False; [done|..|set_solver].
      destruct Hp as [_ [Hp _]]. rewrite Forall_forall in Hp. apply (apart_addr (bp, S) b); [by apply Hp|done|].
      apply Forall_cons in Hs' as [_ Hs']. rewrite Forall_forall in Hs'. by apply Hs'.
  - apply ordered_app. split_and!; [done| |].
    + split; [exact H2|]. by destruct (joined_ordered _ _ _ _ _ Hj (proj2 Ho2)).
    + rewrite !Forall_forall in *. intros x Hx. specialize (Ho3 x Hx). apply Forall_cons in Ho3 as [Ho3 _]. cbn in Ho3.
      constructor; [done|]. apply Forall_forall. intros y Hy. specialize (H2 y Hy). lia.
  - eapply pairwise_perm; [|exact Hp']. solve_Permutation.
  - apply H.
  - cbn. rewrite fmap_app. set_solver.
Qed.

(** ** free *)

(** The place of the block, and the node before it. *)
Lemma free_place h fl A bp s : Inv h fl ((bp, s) :: A) ->
  exists l1 l2 l0 p sp, fl = l1 ++ l2 /\ (base, 0) :: l1 = l0 ++ [(p, sp)] /\ between l1 l2 (bp, s) /\
    free_find (list_fuel h) h bp (freep h) = Some p /\ p < bp /\ size_at h p = sp /\ (l0 = [] -> sp = 0).
Proof.
  intros H. destruct (inv_block _ _ _ _ (bp, s) H ltac:(set_solver)) as (Hz & Hs & Hlow & Hend). cbn [fst snd] in *.
  pose proof (inv_apart _ _ _ _ H) as Hap. apply pairwise_app in Hap as (_ & _ & Hap).
  destruct (place fl (bp, s)) as (l1 & l2 & -> & Hb); [apply H| |done|..].
  { apply Forall_forall. intros b Hb. apply (inv_block _ _ _ _ b H). set_solver. }
  { eapply Forall_impl; [exact Hap|]. cbn. intros x Hx. apply Forall_cons in Hx as [Hx _]. by apply apart_sym. }
  destruct (exists_last (l := (base, 0) :: l1)) as (l0 & (p & sp) & E); [done|]. pose proof Hb as [H1 H2].
  assert (p < bp /\ size_at h p = sp /\ (p = base -> sp = 0)) as (Hp & Hps & Hpb).
  { assert ((p, sp) ∈ (base, 0) :: l1) as Hin by (rewrite E; set_solver). apply elem_of_cons in Hin as [[= -> ->]|Hin].
    - split_and!; [lia| |done]. unfold size_at. by rewrite (inv_base _ _ _ _ H).
    - destruct (inv_block _ _ _ _ (p, sp) H ltac:(set_solver)) as (K1 & K2 & K3 & _). rewrite Forall_forall in H1.
      specialize (H1 _ Hin). unfold bend in H1. cbn in *. split_and!; [lia|done|lia]. }
  exists l1, l2, l0, p, sp. split_and!; [done|done|done| |done|done|].
  - apply (free_find_place base h (l1 ++ l2) ((bp, s) :: A) l0 p sp l2 (bp, s)); [done|cbn; lia|done| |done|done].
    change ((base, 0) :: l1 ++ l2) with (((base, 0) :: l1) ++ l2). by rewrite E, <- app_assoc.
  - intros ->. injection E as ? ?. apply Hpb. congruence.
Qed.

(** Below the place there is a gap, unless the node before touches it. *)
Lemma gap_below h l1 l2 A l0 p sp bp : Inv h (l1 ++ l2) A -> (base, 0) :: l1 = l0 ++ [(p, sp)] -> p < bp ->
  Forall (fun x => bend x <= bp) l1 -> p + sp * 16 <> bp -> Forall (fun x => bend x < bp) l1.
Proof.
  intros H E Hp H1 Hne. rewrite Forall_forall in *. intros x Hx. specialize (H1 x Hx).
  assert (x ∈ l0 ++ [(p, sp)]) as Hin by (rewrite <- E; set_solver). apply elem_of_app in Hin as [Hin|Hin].
  - pose proof (ring_ordered _ _ _ _ H) as Ho. change ((base, 0) :: l1 ++ l2) with (((base, 0) :: l1) ++ l2) in Ho.
    rewrite E in Ho. apply ordered_app in Ho as (Ho & _). apply ordered_app in Ho as (_ & _ & Ho).
    rewrite Forall_forall in Ho. specialize (Ho x Hin). apply Forall_cons in Ho as [Ho _]. cbn in Ho. lia.
  - assert (x = (p, sp)) as -> by set_solver. unfold bend in *. cbn in *. lia.
Qed.

Lemma joined_bounds h l1 l2 A bp s S l2' : Inv h (l1 ++ l2) ((bp, s) :: A) -> joined_next bp s l2 S l2' -> s <= S < 268435456.
Proof.
  intros H Hj. pose proof (u32_block _ _ _ (bp, s) H ltac:(set_solver)) as Hs. cbn in Hs.
  destruct Hj as [[[<- ->]|(t & -> & ->)] _]; [lia|].
  destruct (inv_block _ _ _ _ (bp + s * 16, t) H ltac:(set_solver)) as (_ & K & _ & K').
  destruct (inv_block _ _ _ _ (bp, s) H ltac:(set_solver)) as (_ & _ & K'' & _). pose proof (inv_range _ _ _ _ H).
  unfold bend in *. cbn in *. lia.
Qed.

Lemma free_spec h fl A bp s : Inv h fl ((bp, s) :: A) ->
  exists h' fl', free (bp + 16) h = Some h' /\ Inv h' fl' A /\ brk h' = brk h /\ total fl' = total fl + s /\
    (length fl' <= S (length fl))%nat /\ Exists (fun b => s <= snd b) fl'.
Proof.
  intros H. destruct (free_place _ _ _ _ _ H) as (l1 & l2 & l0 & p & sp & -> & E & [H1 H2] & Ef & Hp & Hps & Hl0).
  assert ((base, 0) :: l1 ++ l2 = l0 ++ (p, sp) :: l2) as ER.
  { change ((base, 0) :: l1 ++ l2) with (((base, 0) :: l1) ++ l2). by rewrite E, <- app_assoc. }
  destruct (join_next _ _ _ _ _ _ _ _ _ H ER H2) as (T & l2' & Hj & En).
  pose proof (joined_total _ _ _ _ _ Hj) as Ht. pose proof (joined_length _ _ _ _ _ Hj) as Hlen.
  pose proof (joined_bounds _ _ _ _ _ _ _ _ H Hj) as HT. pose proof (u32_block _ _ _ (bp, s) H ltac:(set_solver)) as Hs. cbn in Hs.
  unfold free. replace (bp + 16 - sizeof_Header) with bp by (unfold sizeof_Header; lia). rewrite Ef, En.
  unfold free_join_prev, hplus, sizeof_Header. autorewrite with heap. rewrite (decide_False (P := bp = p)) by lia.
  rewrite !(decide_True (P := bp = bp)) by done. rewrite Hps. unfold u32. rewrite (Z.mod_small T) by lia.
  destruct (Z.eqb_spec (p + sp * 16) bp) as [Ea|Ea].
  - destruct l0 as [|b0 l1']; [rewrite Hl0 in Ea by done; lia|]. injection E as <- ->. rewrite <- app_assoc in H. cbn [app] in H.
    eexists _, (l1' ++ (p, sp + T) :: l2'). split_and!; [done|by eapply inv_left|done|..].
    + rewrite !total_app. cbn. lia.
    + rewrite !length_app. cbn. lia.
    + apply Exists_app. right. apply Exists_cons. left. cbn. assert (0 < sp); [|lia].
      by destruct (inv_block _ _ _ _ (p, sp) H ltac:(set_solver)) as (_ & ? & _).
  - eexists _, (l1 ++ (bp, T) :: l2'). split_and!; [done|eapply inv_new; [done|done|exact E|by eapply gap_below]|done|..].
    + rewrite !total_app. cbn. lia.
    + rewrite !length_app. cbn. lia.
    + apply Exists_app. right. apply Exists_cons. left. cbn. lia.
Qed.
End Ops.

(** ** What malloc of user/umalloc.c does *)

Section Malloc.
Context (base : Z) (grow : Z -> Z -> bool).
Local Abbreviation Inv := (Inv base).

(** *** Taking a block *)

(** The branch of malloc that found a block at [p]. *)
Definition taken (nunits prevp p : Z) (h : heap) : Z * heap :=
  if size_at h p =? nunits
  then (hplus p 1, set_freep prevp (set_ptr prevp (ptr_at h p) h))
  else
    let h := set_size p (size_at h p - nunits) h in
    let q := hplus p (size_at h p) in
    (hplus q 1, set_freep prevp (set_size q nunits h)).

(** The node before a free block. *)
Lemma node_before h fl A prevp (b : block) : Inv h fl A -> prevp ∈ map fst ((base, 0) :: fl) -> ptr_at h prevp = fst b -> b ∈ fl ->
  exists l1 l0 sp l2, fl = l1 ++ b :: l2 /\ (base, 0) :: l1 = l0 ++ [(prevp, sp)].
Proof.
  intros H Hp Hn Hb. apply list_elem_of_fmap in Hp as ([p' sp] & -> & Hp). cbn [fst] in *.
  apply list_elem_of_split in Hp as (r1 & r2 & E). destruct (next_higher _ _ _ _ _ _ _ H E) as [Hn2 _]. cbn [fst] in Hn2.
  destruct (inv_block _ _ _ _ b H ltac:(set_solver)) as (Hs & Hpos & Hlow & _).
  destruct r2 as [|c r2]; cbn in Hn2; [lia|]. assert (c = b) as ->.
  { assert (c ∈ fl) as Hc by (apply (ring_free base); [rewrite E; set_solver|lia]).
    destruct (inv_block _ _ _ _ c H ltac:(set_solver)) as (Hs' & _). destruct c, b. cbn in *. congruence. }
  destruct r1 as [|b0 r1]; injection E as E1 E2; [subst|subst b0].
  - exists [], [], 0, r2. done.
  - exists (r1 ++ [(p', sp)]), ((base, 0) :: r1), sp, r2. rewrite E2, <- app_assoc. done.
Qed.

(** The whole block leaves the free list. *)
Lemma inv_take_all h l1 q n l2 A l0 prevp sp : Inv h (l1 ++ (q, n) :: l2) A -> (base, 0) :: l1 = l0 ++ [(prevp, sp)] ->
  Inv (set_freep prevp (set_ptr prevp (ptr_at h q) h)) (l1 ++ l2) ((q, n) :: A).
Proof.
  intros H E. pose proof (ring_ordered _ _ _ _ H) as Ho. pose proof (inv_ring _ _ _ _ H) as Hr.
  assert (forall l, (base, 0) :: l1 ++ l = l0 ++ (prevp, sp) :: l) as ER.
  { intros l. change ((base, 0) :: l1 ++ l) with (((base, 0) :: l1) ++ l). by rewrite E, <- app_assoc. }
  assert (forall x : block, x ∈ l0 ++ l2 -> fst x <> prevp) as Hne.
  { pose proof (ordered_nodup _ Ho) as Hnd. rewrite ER, fmap_app in Hnd. cbn in Hnd. intros x Hx Heq.
    assert (NoDup (map fst l0 ++ prevp :: q :: map fst l2)) as K.
    { apply Hnd. intros b Hb. apply (ring_sizes _ _ _ _ b H). by rewrite ER. }
    apply NoDup_app in K as (_ & K1 & K2). apply NoDup_cons in K2 as [K2 _]. apply elem_of_app in Hx as [Hx|Hx].
    - apply (K1 prevp); [apply list_elem_of_fmap; by exists x|set_solver].
    - apply K2. right. apply list_elem_of_fmap. by exists x. }
  rewrite ER in Hr. apply seg_app in Hr as [Hr0 (_ & Hq & Hr2)]. cbn [fst first] in Hr0, Hq.
  assert ((l1 ++ (q, n) :: l2) ++ A ≡ₚ (l1 ++ l2) ++ (q, n) :: A) as P by solve_Permutation.
  pose proof (inv_ordered _ _ _ _ H) as Ho'. apply ordered_app in Ho' as (Ho1 & [_ Ho2] & Ho3). split.
  - rewrite ER. apply seg_app. split; [|split].
    + eapply seg_frame; [|exact Hr0]. intros b Hb. autorewrite with heap. rewrite decide_False; [done|]. intros K. apply (Hne b); set_solver.
    + autorewrite with heap. by rewrite decide_True.
    + eapply seg_frame; [|exact Hr2]. intros b Hb. autorewrite with heap. rewrite decide_False; [done|]. intros K. apply (Hne b); set_solver.
  - apply H.
  - rewrite <- P. apply H.
  - apply ordered_app. split_and!; [done|done|]. eapply Forall_impl; [exact Ho3|]. cbn. intros x Hx. by apply Forall_cons in Hx as [_ Hx].
  - apply (pairwise_perm _ _ P), H.
  - apply H.
  - cbn. change (base :: map fst (l1 ++ l2)) with (map fst ((base, 0) :: l1 ++ l2)). rewrite ER, fmap_app. cbn. set_solver.
Qed.

(** The end of the block is cut off. *)
Lemma inv_take_end h l1 q t n l2 A l0 prevp sp : Inv h (l1 ++ (q, t) :: l2) A -> (base, 0) :: l1 = l0 ++ [(prevp, sp)] -> 0 < n < t ->
  Inv (set_freep prevp (set_size (q + (t - n) * 16) n (set_size q (t - n) h))) (l1 ++ (q, t - n) :: l2) ((q + (t - n) * 16, n) :: A).
Proof.
  intros H E Hn. set (b := (q, t)). set (c := (q + (t - n) * 16, n)). pose proof (inv_block _ _ _ _ b H ltac:(set_solver)) as (Hs & Ht & Hlow & Hend).
  pose proof (u32_block _ _ _ _ b H ltac:(set_solver)) as Hu. cbn in Hs, Hu, Ht, Hlow.
  assert (Forall (apart b) (l1 ++ l2 ++ A) /\ pairwise (l1 ++ l2 ++ A)) as [Hap Hpw].
  { assert ((l1 ++ (q, t) :: l2) ++ A ≡ₚ b :: l1 ++ l2 ++ A) as P by solve_Permutation. apply (pairwise_perm _ _ P), H. }
  assert (Forall (fun x : block => fst x <> q /\ fst x <> q + (t - n) * 16) (l1 ++ l2 ++ A)) as Hne.
  { apply Forall_forall. intros x Hx. rewrite Forall_forall in Hap. specialize (Hap x Hx). destruct (inv_block _ _ _ _ x H) as (_ & ? & _ & _); [set_solver|].
    unfold apart, bend in Hap. cbn in Hap. lia. }
  assert ((l1 ++ (q, t - n) :: l2) ++ c :: A ≡ₚ (q, t - n) :: c :: l1 ++ l2 ++ A) as P by solve_Permutation.
  pose proof (inv_ordered _ _ _ _ H) as Ho. apply ordered_app in Ho as (Ho1 & [Ho2 Ho3] & Ho4). split.
  - apply (seg_frame h); [done|]. eapply seg_addr; [|apply (inv_ring _ _ _ _ H)]. cbn. by rewrite !fmap_app.
  - cbn. rewrite !lookup_insert_ne by lia. apply H.
  - rewrite P. repeat apply Forall_cons_2.
    + unfold bend in *. cbn in *. autorewrite with heap. rewrite decide_False, decide_True by lia. unfold u32. rewrite Z.mod_small by lia.
      split_and!; [done|lia|lia|lia].
    + unfold bend in *. cbn in *. autorewrite with heap. rewrite decide_True by done. unfold u32. rewrite Z.mod_small by lia.
      split_and!; [done|lia|lia|lia].
    + rewrite !Forall_forall in *. intros x Hx. specialize (Hne x Hx). autorewrite with heap. rewrite !decide_False by lia.
      apply (inv_block _ _ _ _ x H). set_solver.
  - apply ordered_app. split_and!; [done| |].
    + split; [|done]. eapply Forall_impl; [exact Ho2|]. unfold bend. cbn. lia.
    + eapply Forall_impl; [exact Ho4|]. cbn. intros x Hx. apply Forall_cons in Hx as [Hx1 Hx2]. by constructor.
  - apply (pairwise_perm _ _ (Permutation_sym P)). split; [|split; [|done]].
    + constructor; [unfold apart, bend; cbn; lia|]. eapply Forall_impl; [exact Hap|]. unfold apart, bend. cbn. lia.
    + eapply Forall_impl; [exact Hap|]. unfold apart, bend. cbn. lia.
  - apply H.
  - cbn. change (base :: map fst (l1 ++ (q, t - n) :: l2)) with (map fst (((base, 0) :: l1) ++ (q, t - n) :: l2)).
    rewrite E, !fmap_app. cbn. set_solver.
Qed.

Lemma taken_spec nunits prevp h fl A (b : block) : Inv h fl A -> prevp ∈ map fst ((base, 0) :: fl) -> ptr_at h prevp = fst b -> b ∈ fl ->
  0 < nunits <= snd b ->
  exists a h' fl', taken nunits prevp (fst b) h = (a + 16, h') /\ Inv h' fl' ((a, nunits) :: A) /\ brk h' = brk h /\ total fl' + nunits = total fl.
Proof.
  intros H Hp Hn Hb Hsz. destruct (node_before _ _ _ _ _ H Hp Hn Hb) as (l1 & l0 & sp & l2 & -> & E). destruct b as [q t]. cbn [fst snd] in *.
  destruct (inv_block _ _ _ _ (q, t) H ltac:(set_solver)) as (Hs & _). cbn [fst snd] in Hs.
  pose proof (u32_block _ _ _ _ (q, t) H ltac:(set_solver)) as Hu. cbn in Hu.
  unfold taken, hplus, sizeof_Header. rewrite Hs. destruct (Z.eqb_spec t nunits) as [->|Hne].
  - eexists q, _, (l1 ++ l2). split_and!; [f_equal; lia|by eapply inv_take_all|done|]. rewrite !total_app. cbn. lia.
  - autorewrite with heap. rewrite decide_True by done. unfold u32. rewrite Z.mod_small by lia.
    eexists (q + (t - nunits) * 16), _, (l1 ++ (q, t - nunits) :: l2). split_and!; [f_equal; lia|by eapply inv_take_end; [..|lia]|done|].
    rewrite !total_app. cbn. lia.
Qed.

(** *** More memory *)

(** The kernel does not grow a process beyond what an int can address. *)
Hypothesis Hgrow : forall b n, grow b n = true -> b + n <= 2147483648.

Definition more (nu : Z) : Z := if nu <? 4096 then 4096 else nu.

Lemma inv_more h fl A n : Inv h fl A -> 0 < n < 134217728 -> brk h + n * 16 <= 2147483648 ->
  Inv (set_size (brk h) n (set_brk (brk h + n * 16) h)) fl ((brk h, n) :: A).
Proof.
  intros H Hn Hb. pose proof (inv_range _ _ _ _ H) as Hr. assert (fl ++ (brk h, n) :: A ≡ₚ (brk h, n) :: fl ++ A) as P by solve_Permutation. split.
  - apply (seg_frame h); [done|]. apply H.
  - cbn. rewrite lookup_insert_ne by lia. apply H.
  - rewrite P. constructor.
    + autorewrite with heap. cbn. rewrite decide_True by done. unfold u32, bend. cbn. rewrite Z.mod_small by lia. lia.
    + apply Forall_forall. intros b Hin. destruct (inv_block _ _ _ _ b H Hin) as (K1 & K2 & K3 & K4).
      autorewrite with heap. cbn. rewrite decide_False by (unfold bend in K4; lia). split_and!; [done|done|done|lia].
  - apply H.
  - apply (pairwise_perm _ _ (Permutation_sym P)). split; [|apply H]. apply Forall_forall. intros b Hin.
    destruct (inv_block _ _ _ _ b H Hin) as (_ & _ & _ & K). right. exact K.
  - cbn. lia.
  - apply H.
Qed.

Lemma inv_freep_pos h fl A : Inv h fl A -> freep h <> 0.
Proof.
  intros H. pose proof (inv_range _ _ _ _ H). pose proof (inv_freep _ _ _ _ H) as Hf. apply elem_of_cons in Hf as [->|Hf]; [lia|].
  apply list_elem_of_fmap in Hf as (b & -> & Hb). destruct (inv_block _ _ _ _ b H) as (_ & _ & ? & _); [set_solver|lia].
Qed.

Lemma morecore_spec nu h fl A : Inv h fl A -> 0 < nu < 134217728 ->
  morecore grow nu h = Some (0, h) /\ grow (brk h) (more nu * 16) = false \/
  exists h' fl', morecore grow nu h = Some (freep h', h') /\ Inv h' fl' A /\ brk h' = brk h + more nu * 16 /\
    total fl' = total fl + more nu /\ (length fl' <= S (length fl))%nat /\ Exists (fun b => nu <= snd b) fl'.
Proof.
  intros H Hnu. pose proof (inv_range _ _ _ _ H) as Hr. assert (nu <= more nu < 134217728) as Hm by (unfold more; cases_if; lia).
  unfold morecore, sizeof_Header. fold (more nu). assert (s32 (more nu * 16) = more nu * 16) as ->.
  { unfold s32. rewrite Z.mod_small by lia. by rewrite (proj2 (Z.ltb_lt _ _)) by lia. }
  unfold sbrk. rewrite (proj2 (Z.ltb_lt _ _)) by lia. destruct (grow (brk h) (more nu * 16)) eqn:Eg.
  - right. rewrite (proj2 (Z.eqb_neq _ _)) by lia. pose proof (Hgrow _ _ Eg) as Hb.
    destruct (free_spec _ _ _ _ _ _ (inv_more h fl A (more nu) H ltac:(lia) Hb)) as (h' & fl' & Ef & HI & Hbr & Ht & Hl & He).
    unfold hplus, sizeof_Header. replace (brk h + 1 * 16) with (brk h + 16) by lia. rewrite Ef. exists h', fl'.
    split_and!; [done|done|done|done|done|]. eapply Exists_impl; [exact He|]. cbn. lia.
  - left. split; [|done]. cbn. do 2 f_equal. by destruct h.
Qed.

(** *** The loop of malloc *)

Definition found (nunits : Z) (h : heap) (fl : list block) (r : option (Z * heap)) : Prop :=
  exists prevp b, r = Some (taken nunits prevp (fst b) h) /\ prevp ∈ map fst ((base, 0) :: fl) /\ ptr_at h prevp = fst b /\ b ∈ fl /\ nunits <= snd b.

Lemma ring_big h fl A a nunits : Inv h fl A -> a ∈ map fst ((base, 0) :: fl) -> 0 < nunits <= size_at h a ->
  exists b : block, a = fst b /\ b ∈ fl /\ nunits <= snd b.
Proof.
  intros H Ha Hn. apply list_elem_of_fmap in Ha as (b & -> & Hb). apply elem_of_cons in Hb as [->|Hb].
  - cbn in Hn. unfold size_at in Hn. rewrite (inv_base _ _ _ _ H) in Hn. cbn in Hn. lia.
  - exists b. destruct (inv_block _ _ _ _ b H) as (E & _); [set_solver|]. split_and!; [done|done|lia].
Qed.

Lemma malloc_walk h fl A nunits l prevp fuel : Inv h fl A -> 0 < nunits -> path h prevp (l ++ [freep h]) -> freep h ∉ l ->
  (forall a, a ∈ prevp :: l ++ [freep h] -> a ∈ map fst ((base, 0) :: fl)) -> (length l < fuel)%nat ->
  found nunits h fl (malloc_loop grow fuel nunits prevp (ptr_at h prevp) h) \/
  Forall (fun a => size_at h a < nunits) (l ++ [freep h]) /\
  malloc_loop grow fuel nunits prevp (ptr_at h prevp) h =
    match morecore grow nunits h with
    | None => None
    | Some (p, h) => if p =? 0 then Some (0, h) else malloc_loop grow (fuel - S (length l)) nunits p (ptr_at h p) h
    end.
Proof.
  intros H Hn. revert prevp fuel. induction l as [|a l IH]; intros prevp fuel Hp Hf Hin Hl; (destruct fuel as [|fuel]; [cbn in Hl; lia|]);
    destruct Hp as [Ep Hp]; cbn [malloc_loop app length] in *; rewrite Ep;
    (destruct (nunits <=? size_at h _) eqn:Ef; bool_hyps;
     [left; match type of Ef with _ <= size_at h ?x => destruct (ring_big h fl A x nunits H) as (b & Eb & Hb & Hsz); [apply Hin; set_solver|lia|];
        exists prevp, b; split_and!; [rewrite <- Eb; unfold taken; by destruct (size_at h x =? nunits)|apply Hin; set_solver|congruence|done|done] end|]).
  - right. split; [by constructor|]. rewrite Z.eqb_refl. by replace (S fuel - 1)%nat with fuel by lia.
  - rewrite (proj2 (Z.eqb_neq a (freep h))) by set_solver. destruct (IH a fuel Hp) as [K|[K1 K2]]; [set_solver|set_solver|lia|by left|right].
    split; [by constructor|exact K2].
Qed.

(** The list of nodes after freep. *)
Lemma freep_path h fl A : Inv h fl A -> exists l, path h (freep h) (l ++ [freep h]) /\ (freep h ∉ l) /\ (length l = length fl) /\
  forall a, a ∈ freep h :: l ++ [freep h] <-> a ∈ map fst ((base, 0) :: fl).
Proof.
  intros H. pose proof (inv_freep _ _ _ _ H) as Hf. change (base :: map fst fl) with (map fst ((base, 0) :: fl)) in Hf.
  apply list_elem_of_fmap in Hf as (x & Ex & Hx). apply list_elem_of_split in Hx as (r1 & r2 & Er). rewrite Ex.
  pose proof (inv_ring _ _ _ _ H) as Hs. rewrite Er in Hs. assert (first base (r1 ++ x :: r2) = base) as Hz by (by rewrite <- Er).
  exists (map fst r2 ++ map fst r1). split_and!.
  - rewrite <- app_assoc. by eapply ring_path.
  - pose proof (ordered_nodup _ (ring_ordered _ _ _ _ H)) as Hnd. rewrite Er, fmap_app in Hnd. cbn in Hnd.
    assert (NoDup (map fst r1 ++ fst x :: map fst r2)) as K.
    { apply Hnd. intros b Hb. apply (ring_sizes _ _ _ _ b H). by rewrite Er. }
    apply NoDup_app in K as (_ & K1 & K2). apply NoDup_cons in K2 as [K2 _]. set_solver.
  - rewrite length_app, !length_map. apply (f_equal length) in Er. rewrite length_app in Er. cbn in Er. lia.
  - intros a. rewrite Er, fmap_app. cbn. set_solver.
Qed.

(** One round of the list from freep. *)
Lemma malloc_round h fl A nunits fuel : Inv h fl A -> 0 < nunits -> (length fl < fuel)%nat ->
  found nunits h fl (malloc_loop grow fuel nunits (freep h) (ptr_at h (freep h)) h) \/
  Forall (fun b => snd b < nunits) fl /\
  malloc_loop grow fuel nunits (freep h) (ptr_at h (freep h)) h =
    match morecore grow nunits h with
    | None => None
    | Some (p, h) => if p =? 0 then Some (0, h) else malloc_loop grow (fuel - S (length fl)) nunits p (ptr_at h p) h
    end.
Proof.
  intros H Hn Hl. destruct (freep_path h fl A H) as (l & Hp & Hni & Hlen & Hin).
  destruct (malloc_walk h fl A nunits l (freep h) fuel H Hn Hp Hni) as [K|[K1 K2]]; [apply Hin|lia|by left|right].
  rewrite Hlen in K2. split; [|done]. rewrite !Forall_forall in *. intros b Hb. destruct (inv_block _ _ _ _ b H) as (<- & _); [set_solver|].
  apply K1. assert (fst b ∈ freep h :: l ++ [freep h]) as K by (apply Hin, list_elem_of_fmap; exists b; set_solver). set_solver.
Qed.

(** What malloc promises for a block of [n] headers. *)
Definition malloc_post (n : Z) (h : heap) (fl A : list block) (r : option (Z * heap)) : Prop :=
  (r = Some (0, h) /\ Forall (fun b => snd b < n) fl /\ grow (brk h) (more n * 16) = false) \/
  (exists a h' fl', r = Some (a + 16, h') /\ Inv h' fl' ((a, n) :: A) /\ brk h <= brk h' /\
     (total fl' + n - total fl) * 16 = brk h' - brk h /\ (Exists (fun b => n <= snd b) fl -> brk h' = brk h)).

Lemma found_post n h fl A r h0 fl0 : Inv h fl A -> 0 < n -> found n h fl r -> brk h0 <= brk h -> (total fl - total fl0) * 16 = brk h - brk h0 ->
  (Exists (fun b => n <= snd b) fl0 -> brk h = brk h0) -> malloc_post n h0 fl0 A r.
Proof.
  intros H Hn (prevp & b & -> & Hp & Ep & Hb & Hsz) Hbr Ht He. right.
  destruct (taken_spec n prevp h fl A b H Hp Ep Hb) as (a & h' & fl' & -> & HI & Ebr & Et); [lia|].
  exists a, h', fl'. rewrite Ebr. split_and!; [done|done|lia|lia|done].
Qed.

Lemma malloc_loop_spec h fl A n : Inv h fl A -> 0 < n < 134217728 ->
  malloc_post n h fl A (malloc_loop grow (2 * list_fuel h) n (freep h) (ptr_at h (freep h)) h).
Proof.
  intros H Hn. pose proof (ring_fuel _ _ _ _ H) as Hfu. cbn [length] in Hfu. unfold list_fuel.
  assert (0 < more n) as Hm by (unfold more; cases_if; lia).
  destruct (malloc_round h fl A n (2 * S (S (base.size (ptr h)))) H ltac:(lia) ltac:(lia)) as [K|[Hsm ->]].
  { apply (found_post n h fl A _ h fl H); [lia|done|lia|lia|done]. }
  destruct (morecore_spec n h fl A H Hn) as [[-> Hg]|(h' & fl' & -> & HI & Hbr & Ht & Hlen & He)].
  { rewrite Z.eqb_refl. left. done. }
  rewrite (proj2 (Z.eqb_neq _ _)) by (by eapply inv_freep_pos).
  destruct (malloc_round h' fl' A n (2 * S (S (base.size (ptr h))) - S (length fl)) HI ltac:(lia)) as [K|[Hsm' _]]; [lia|..].
  - apply (found_post n h' fl' A _ h fl HI); [lia|done|lia|lia|].
    intros Hex. exfalso. apply Exists_exists in Hex as (b & Hb & Hb2). rewrite Forall_forall in Hsm. specialize (Hsm b Hb). lia.
  - exfalso. apply Exists_exists in He as (b & Hb & Hb2). rewrite Forall_forall in Hsm'. specialize (Hsm' b Hb). lia.
Qed.
End Malloc.
