(* ===== verification/UmallocTheorems.v ===== *)
(** * Theorems about the user allocator *)

From S2P Require Import Prelude Umalloc UmallocSpec UmallocOps.

Section Heap.
Context (base : Z) (grow : Z -> Z -> bool).

(** A heap, before the first malloc or later. *)
Definition heap_ok (h : heap) (fl A : list block) : Prop :=
  (freep h = 0 /\ fl = [] /\ A = [] /\ 0 < base /\ base + 16 <= brk h <= 2147483648) \/ Inv base h fl A.

(** The headers for [nbytes] bytes, and one for the header itself. *)
Definition headers (nbytes : Z) : Z := (nbytes + 15) / 16 + 1.

Lemma headers_units nbytes : 0 <= nbytes <= 2147483616 -> units nbytes = headers nbytes /\ 0 < headers nbytes < 134217728 /\ nbytes <= (headers nbytes - 1) * 16.
Proof.
  intros H. unfold units, headers, sizeof_Header. replace (nbytes + 16 - 1) with (nbytes + 15) by lia. unfold u32.
  rewrite Z.mod_small by zlia. zlia.
Qed.

Lemma inv_init h : 0 < base -> base + 16 <= brk h <= 2147483648 -> Inv base (set_size base 0 (set_freep base (set_ptr base base h))) [] [].
Proof.
  intros H1 H2. split; cbn; try done.
  - split; [|done]. autorewrite with heap. by rewrite decide_True.
  - by rewrite lookup_insert_eq.
  - set_solver.
Qed.


Hypothesis Hgrow : forall b n, grow b n = true -> b + n <= 2147483648.

Lemma malloc_spec h fl A nbytes : heap_ok h fl A -> 0 <= nbytes <= 2147483616 ->
  exists h0, heap_ok h0 fl A /\ brk h0 = brk h /\ malloc_post base grow (headers nbytes) h0 fl A (malloc base grow nbytes h).
Proof.
  intros Hok Hn. destruct (headers_units nbytes Hn) as (Eu & Hh & _). unfold malloc. rewrite Eu.
  destruct Hok as [(E & -> & -> & H1 & H2)|H].
  - rewrite E. cbn [Z.eqb]. pose proof (inv_init h H1 H2) as HI. eexists. split; [right; exact HI|]. split; [done|].
    by apply malloc_loop_spec.
  - rewrite (proj2 (Z.eqb_neq _ _)) by (by eapply inv_freep_pos). exists h. split; [by right|]. split; [done|]. by apply malloc_loop_spec.
Qed.

(** ** A program that uses the allocator *)





(** ** The theorems *)

(** C29: malloc of user/umalloc.c on a heap in order, for up to 2^31 - 32 bytes:
    it returns 0 only when no free block is large enough and the kernel has
    no memory, and then the heap is as before; otherwise it returns the
    payload, large enough, of a block that overlaps no block in use and no
    free block, it asks the kernel only when no free block is large enough,
    and no byte obtained from the kernel is lost. *)
Theorem malloc_correct h fl A nbytes : heap_ok h fl A -> 0 <= nbytes <= 2147483616 ->
  nbytes <= (headers nbytes - 1) * 16 /\
  ((exists h', malloc base grow nbytes h = Some (0, h') /\ heap_ok h' fl A /\ brk h' = brk h /\
      Forall (fun b => snd b < headers nbytes) fl /\ grow (brk h) (more (headers nbytes) * 16) = false) \/
   (exists a h' fl', malloc base grow nbytes h = Some (a + 16, h') /\ heap_ok h' fl' ((a, headers nbytes) :: A) /\
      pairwise (fl' ++ (a, headers nbytes) :: A) /\ brk h <= brk h' /\
      (total fl' + headers nbytes - total fl) * 16 = brk h' - brk h /\
      (Exists (fun b => headers nbytes <= snd b) fl -> brk h' = brk h))).
Proof.
  intros Hok Hn. split; [by apply headers_units|].
  destruct (malloc_spec h fl A nbytes Hok Hn) as (h0 & Hok0 & Hb0 & [(E & Hsm & Hg)|(a & h' & fl' & E & HI & Hle & Hsum & He)]); rewrite <- Hb0.
  - left. exists h0. done.
  - right. exists a, h', fl'. split_and!; [done|by right|apply HI|done|done|done].
Qed.

End Heap.

Lemma malloc_correct_witness : exists a h', malloc 4096 (fun b n => b + n <=? 1048576) 100 (Heap ∅ ∅ 0 8192) = Some (a + 16, h') /\ 8192 <= brk h'.
Proof.
  destruct (malloc_correct 4096 (fun b n => b + n <=? 1048576) ltac:(cbn; intros ? ?; lia) (Heap ∅ ∅ 0 8192) [] [] 100) as [_ [(h' & E & _)|(a & h' & fl' & E & _ & _ & H & _)]].
  - left. cbn. split_and!; done || lia.
  - lia.
  - exfalso. vm_compute in E. discriminate E.
  - exists a, h'. split; [exact E|exact H].
Defined.



(** The argument of sbrk wraps: malloc of 2^32 - 16 bytes asks the kernel for no
    memory at all, and returns a block that lies beyond the break. *)
Theorem malloc_wraps grow : exists h', malloc 4096 grow 4294967280 (Heap ∅ ∅ 0 8192) = Some (8208, h') /\ brk h' = 8192.
Proof. eexists. split; [vm_compute; reflexivity|done]. Qed.
