(* ===== verification/Sh.v ===== *)
(** * user/sh.c: the shell

    A command line is the list of its bytes before the nul; pointers into it
    are offsets, and [es] is its length.  A word of a command is the pair of
    its [q] and [eq] pointers, as in struct execcmd and struct redircmd. *)

From S2P Require Import Prelude.

(** ** Commands *)

Definition word : Type := nat * nat.

Inductive cmd :=
| EXEC (argv : list word)
| REDIR (c : cmd) (file : word) (mode fd : Z)
| PIPE (left right : cmd)
| LIST (left right : cmd)
| BACK (c : cmd).

Definition MAXARGS : nat := 10.
Definition O_RDONLY : Z := 0x000.
Definition O_WRONLY : Z := 0x001.
Definition O_CREATE : Z := 0x200.
Definition O_TRUNC : Z := 0x400.

(** The result of a parsing function and the new value of *ps, or the message
    of a panic; [PFuel] when the recursion bound of the model is too small. *)
Inductive presult (A : Type) :=
| POk (a : A) (s : nat)
| PPanic (msg : string)
| PFuel.
Arguments POk {A} _ _.
Arguments PPanic {A} _.
Arguments PFuel {A}.

Definition pbind {A B} (r : presult A) (k : A -> nat -> presult B) : presult B :=
  match r with POk a s => k a s | PPanic m => PPanic m | PFuel => PFuel end.

(** ** Tokens *)

Definition whitespace : list Z := [32; 9; 13; 10; 11].
Definition BAR : Z := 124.
Definition LPAR : Z := 40.
Definition RPAR : Z := 41.
Definition SEMI : Z := 59.
Definition AMP : Z := 38.
Definition LESS : Z := 60.
Definition MORE : Z := 62.
Definition PLUS : Z := 43.
Definition WORD : Z := 97.
Definition symbols : list Z := [LESS; BAR; MORE; AMP; SEMI; LPAR; RPAR].

(** strchr(toks, c) is not null; strchr never finds the nul. *)
Definition among (toks : list Z) (c : Z) : bool := negb (c =? 0) && existsb (Z.eqb c) toks.

Section Parser.
(** The command line. *)
Context (buf : list Z).

Definition es : nat := length buf.

(** The character at [s]: nul at the end of the line. *)
Definition chr (s : nat) : Z := default 0 (buf !! s).

(** The loops that advance [s] while it is below [es] and [p] holds of the
    character there; [n] = es - s. *)
Fixpoint advance (p : Z -> bool) (n s : nat) : nat :=
  match n with
  | O => s
  | S n' => if p (chr s) then advance p n' (S s) else s
  end.

Definition skip_white (s : nat) : nat := advance (among whitespace) (es - s) s.
Definition in_word (c : Z) : bool := negb (among whitespace c) && negb (among symbols c).

(** The token, its [q] and [eq], and the new *ps. *)
Definition gettoken (s : nat) : Z * word * nat :=
  let s := skip_white s in
  let q := s in
  let c := chr s in
  let '(ret, s) :=
    if c =? 0 then (0, s)
    else if among [BAR; LPAR; RPAR; SEMI; AMP; LESS] c then (c, S s)
    else if c =? MORE then if chr (S s) =? MORE then (PLUS, S (S s)) else (MORE, S s)
    else (WORD, advance in_word (es - s) s) in
  (ret, (q, s), skip_white s).

Definition peek (toks : list Z) (s : nat) : bool * nat :=
  let s := skip_white s in (among toks (chr s), s).

(** ** The parser *)

Definition redircmd (tok : Z) (c : cmd) (file : word) : cmd :=
  if tok =? LESS then REDIR c file O_RDONLY 0
  else if tok =? MORE then REDIR c file (Z.lor (Z.lor O_WRONLY O_CREATE) O_TRUNC) 1
  else if tok =? PLUS then REDIR c file (Z.lor O_WRONLY O_CREATE) 1
  else c.

Fixpoint parseredirs (fuel : nat) (c : cmd) (s : nat) : presult cmd :=
  match fuel with
  | O => PFuel
  | S fuel' =>
      let '(more, s) := peek [LESS; MORE] s in
      if negb more then POk c s else
      let '(tok, _, s) := gettoken s in
      let '(t, w, s) := gettoken s in
      if negb (t =? WORD) then PPanic "missing file for redirection" else
      parseredirs fuel' (redircmd tok c w) s
  end.

(** cmd->argv[argc] = q through the pointer that parseexec keeps to the
    struct execcmd inside the redirections. *)
Fixpoint add_arg (w : word) (c : cmd) : cmd :=
  match c with
  | EXEC argv => EXEC (argv ++ [w])
  | REDIR c' file mode fd => REDIR (add_arg w c') file mode fd
  | _ => c
  end.

(** The loop of parseexec over the arguments. *)
Fixpoint parseargs (fuel : nat) (argc : nat) (c : cmd) (s : nat) : presult cmd :=
  match fuel with
  | O => PFuel
  | S fuel' =>
      let '(stop, s) := peek [BAR; RPAR; AMP; SEMI] s in
      if stop then POk c s else
      let '(tok, w, s) := gettoken s in
      if tok =? 0 then POk c s else
      if negb (tok =? WORD) then PPanic "syntax" else
      let c := add_arg w c in
      let argc := S argc in
      if (MAXARGS <=? argc)%nat then PPanic "too many args" else
      pbind (parseredirs (S es) c s) (parseargs fuel' argc)
  end.

(** The loop of parseline over the ampersands. *)
Fixpoint parsebacks (fuel : nat) (c : cmd) (s : nat) : presult cmd :=
  match fuel with
  | O => PFuel
  | S fuel' =>
      let '(more, s) := peek [AMP] s in
      if negb more then POk c s else
      let '(_, _, s) := gettoken s in
      parsebacks fuel' (BACK c) s
  end.

Fixpoint parseline (fuel : nat) (s : nat) : presult cmd :=
  match fuel with
  | O => PFuel
  | S fuel' =>
      pbind (parsepipe fuel' s) (fun c s =>
      pbind (parsebacks (S es) c s) (fun c s =>
      let '(more, s) := peek [SEMI] s in
      if negb more then POk c s else
      let '(_, _, s) := gettoken s in
      pbind (parseline fuel' s) (fun r s => POk (LIST c r) s)))
  end
with parsepipe (fuel : nat) (s : nat) : presult cmd :=
  match fuel with
  | O => PFuel
  | S fuel' =>
      pbind (parseexec fuel' s) (fun c s =>
      let '(more, s) := peek [BAR] s in
      if negb more then POk c s else
      let '(_, _, s) := gettoken s in
      pbind (parsepipe fuel' s) (fun r s => POk (PIPE c r) s))
  end
with parseexec (fuel : nat) (s : nat) : presult cmd :=
  match fuel with
  | O => PFuel
  | S fuel' =>
      let '(block, s) := peek [LPAR] s in
      if block then parseblock fuel' s else
      pbind (parseredirs (S es) (EXEC []) s) (parseargs (S es) 0)
  end
with parseblock (fuel : nat) (s : nat) : presult cmd :=
  match fuel with
  | O => PFuel
  | S fuel' =>
      let '(open, s) := peek [LPAR] s in
      if negb open then PPanic "parseblock" else
      let '(_, _, s) := gettoken s in
      pbind (parseline fuel' s) (fun c s =>
      let '(close, s) := peek [RPAR] s in
      if negb close then PPanic "syntax - missing )" else
      let '(_, _, s) := gettoken s in
      parseredirs (S es) c s)
  end.

(** ** nulterminate *)

(** The stores of nulterminate, in order. *)
Fixpoint nulterminate (c : cmd) (b : list Z) : list Z :=
  match c with
  | EXEC argv => fold_left (fun b w => <[snd w := 0]> b) argv b
  | REDIR c' file _ _ => <[snd file := 0]> (nulterminate c' b)
  | PIPE l r => nulterminate r (nulterminate l b)
  | LIST l r => nulterminate r (nulterminate l b)
  | BACK c' => nulterminate c' b
  end.

(** Four nested calls for each character are enough. *)
Definition parse_fuel : nat := 4 * S es.

(** The command and the bytes of the line, its nul included, afterwards. *)
Definition parsecmd : presult (cmd * list Z) :=
  pbind (parseline parse_fuel 0) (fun c s =>
  let '(_, s) := peek [] s in
  if negb (Nat.eqb s es) then PPanic "syntax" else POk (c, nulterminate c (buf ++ [0])) s).
End Parser.

(** ** Running a command *)

(** What a descriptor refers to: a file open when the shell started, a file
    opened by a redirection, or an end of the pipe that process [p] made. *)
Inductive obj :=
| OInit (n : nat)
| OFile (file : word) (mode : Z)
| ORead (p : list nat)
| OWrite (p : list nat).

#[export] Instance obj_eq_dec : EqDecision obj.
Proof. solve_decision. Defined.

(** The ofile array of a process: NOFILE entries. *)
Definition fdtable : Type := list (option obj).
Definition NOFILE : nat := 16.

(** fdalloc: the lowest free descriptor. *)
Definition fdalloc (o : obj) (t : fdtable) : option (nat * fdtable) :=
  match list_find (fun e => e = None) t with
  | Some (fd, _) => Some (fd, <[fd := Some o]> t)
  | None => None
  end.

Definition close (fd : nat) (t : fdtable) : fdtable := <[fd := None]> t.

Definition dup (fd : nat) (t : fdtable) : option (nat * fdtable) :=
  match t !! fd with Some (Some o) => fdalloc o t | _ => None end.

(** What a process does until it stops: the pipes it makes, its children, and
    its descriptors when it calls exec or wait.  A process is named by the path of
    child numbers that leads to it from the shell's child. *)
Inductive script :=
| SExec (argv : list word) (t : fdtable)
| SExit (status : Z)
| SPanic (msg : string)
| SPipe (p : list nat) (rest : script)
| SFork (child rest : script)
| SWait (t : fdtable) (rest : script).

Section Run.
(** Which of the system calls succeed: open on a file, and pipe and fork in
    the process [p]. *)
Context (open_ok : word -> Z -> bool) (pipe_ok : list nat -> bool) (fork_ok : list nat -> bool).

Definition open (file : word) (mode : Z) (t : fdtable) : option (nat * fdtable) :=
  if open_ok file mode then fdalloc (OFile file mode) t else None.

(** pipe(p): the two descriptors. *)
Definition pipe (p : list nat) (t : fdtable) : option (nat * nat * fdtable) :=
  if pipe_ok p then
    match fdalloc (ORead p) t with
    | Some (fd0, t) => match fdalloc (OWrite p) t with Some (fd1, t) => Some (fd0, fd1, t) | None => None end
    | None => None
    end
  else None.

(** fork1 in process [p], its [n]th child: panics when fork fails. *)
Definition fork1 (p : list nat) (n : nat) (child rest : script) : script :=
  if fork_ok (p ++ [n]) then SFork child rest else SPanic "fork".

(** The child of a pipe: close(fd), dup(p[x]), close(p[0]), close(p[1]).  A
    dup that fails is ignored. *)
Definition pipe_child (fd end_ p0 p1 : nat) (t : fdtable) : fdtable :=
  let t := close fd t in
  let t := match dup end_ t with Some (_, t') => t' | None => t end in
  close p1 (close p0 t).

(** runcmd in process [p], which has forked [n] children.  exec returns only
    when it fails, and then the process exits with 0. *)
Fixpoint runcmd (p : list nat) (n : nat) (c : cmd) (t : fdtable) : script :=
  match c with
  | EXEC argv => match argv with [] => SExit 1 | _ => SExec argv t end
  | REDIR c' file mode fd =>
      match open file mode (close (Z.to_nat fd) t) with
      | None => SExit 1
      | Some (_, t) => runcmd p n c' t
      end
  | LIST l r => fork1 p n (runcmd (p ++ [n]) 0 l t) (SWait t (runcmd p (S n) r t))
  | PIPE l r =>
      match pipe p t with
      | None => SPanic "pipe"
      | Some (p0, p1, t) =>
          SPipe p
          (fork1 p n (runcmd (p ++ [n]) 0 l (pipe_child 1 p1 p0 p1 t))
          (fork1 p (S n) (runcmd (p ++ [S n]) 0 r (pipe_child 0 p0 p0 p1 t))
          (let t := close p1 (close p0 t) in SWait t (SWait t (SExit 0)))))
      end
  | BACK c' => fork1 p n (runcmd (p ++ [n]) 0 c' t) (SExit 0)
  end.
End Run.

(** ** The main loop *)

(** The string that starts a list of bytes. *)
Fixpoint c_string (b : list Z) : list Z :=
  match b with
  | [] => []
  | x :: b' => if x =? 0 then [] else x :: c_string b'
  end.

(** gets: [input] is what read(0, &c, 1) returns byte by byte until the end of
    the file; [n] = max - 1 bytes fit.  The bytes read, and the rest. *)
Fixpoint gets (n : nat) (input : list Z) : list Z * list Z :=
  match n, input with
  | S n', x :: rest =>
      if (x =? 10) || (x =? 13) then ([x], rest)
      else let '(l, rest') := gets n' rest in (x :: l, rest')
  | _, _ => ([], input)
  end.

(** The size of the static buf of main. *)
Definition CMDBUF : nat := 100.

(** getcmd: the bytes of buf before the zeros of its memset, or -1. *)
Definition getcmd (input : list Z) : option (list Z * list Z) :=
  let '(l, rest) := gets (CMDBUF - 1) input in
  if default 0 (l !! 0%nat) =? 0 then None else Some (l, rest).

(** What main does with a line: chdir in the shell itself, or a child that
    runs parsecmd on the string in buf. *)
Inductive action :=
| ACd (path : list Z)
| ARun (line : list Z).

(** buf[strlen(buf) - 1] = 0, then the string at buf + 3. *)
Definition act (l : list Z) : action :=
  if (default 0 (l !! 0%nat) =? 99) && (default 0 (l !! 1%nat) =? 100) && (default 0 (l !! 2%nat) =? 32)
  then ACd (c_string (drop 3 (<[(length (c_string l) - 1)%nat := 0]> (l ++ [0]))))
  else ARun (c_string l).

(** The while loop of main; each line has a byte at least, so that the length
    of the input bounds the number of lines. *)
Fixpoint main_loop (fuel : nat) (input : list Z) : list action :=
  match fuel with
  | O => []
  | S fuel' =>
      match getcmd input with
      | None => []
      | Some (l, rest) => act l :: main_loop fuel' rest
      end
  end.

(** The loop that opens the console until descriptor 3 is returned, and closes
    that; [ok] is whether open succeeds.  No more than NOFILE descriptors can
    be returned. *)
Fixpoint ensure_fds (ok : bool) (fuel : nat) (t : fdtable) : fdtable :=
  match fuel with
  | O => t
  | S fuel' =>
      match (if ok then fdalloc (OInit 0) t else None) with
      | None => t
      | Some (fd, t') => if (3 <=? fd)%nat then close fd t' else ensure_fds ok fuel' t'
      end
  end.

Definition main (input : list Z) : list action := main_loop (S (length input)) input.
