(* ===== verification/ShParse.v ===== *)
(** * The parser of the shell and its grammar

    The grammar of command lines over tokens, and the proof that parsecmd of
    user/sh.c accepts exactly the lines of the grammar, returns their
    command, and terminates. *)

From S2P Require Import Prelude Sh ShSpec.

(** ** The grammar *)

(** A redirection: its operator and its file. *)
Inductive redirs : list token -> list (Z * word) -> Prop :=
| redirs_nil : redirs [] []
| redirs_cons o f ts rs :
    t_kind o ∈ [LESS; MORE; PLUS] -> t_kind f = WORD -> redirs ts rs ->
    redirs (o :: f :: ts) ((t_kind o, t_word f) :: rs).

Definition redirect (c : cmd) (rs : list (Z * word)) : cmd := fold_left (fun c r => redircmd (fst r) c (snd r)) rs c.

(** [args ts c c' n]: the [n] words of [ts], with the redirections after each,
    make the command [c'] of [c]. *)
Inductive args : list token -> cmd -> cmd -> nat -> Prop :=
| args_nil c : args [] c c 0
| args_cons w rts rs ts c c' n :
    t_kind w = WORD -> redirs rts rs -> args ts (redirect (add_arg (t_word w) c) rs) c' n ->
    args (w :: rts ++ ts) c c' (S n).

Inductive level := Line | Pipeline | Exec.

Inductive derives : level -> list token -> cmd -> Prop :=
| derives_simple rts rs ts c n :
    redirs rts rs -> args ts (redirect (EXEC []) rs) c n -> (n < MAXARGS)%nat ->
    derives Exec (rts ++ ts) c
| derives_block o ts c cl rts rs :
    t_kind o = LPAR -> derives Line ts c -> t_kind cl = RPAR -> redirs rts rs ->
    derives Exec (o :: ts ++ cl :: rts) (redirect c rs)
| derives_exec ts c : derives Exec ts c -> derives Pipeline ts c
| derives_pipe ts c b ts' c' :
    derives Exec ts c -> t_kind b = BAR -> derives Pipeline ts' c' ->
    derives Pipeline (ts ++ b :: ts') (PIPE c c')
| derives_pipeline ts c amps :
    derives Pipeline ts c -> Forall (fun t => t_kind t = AMP) amps ->
    derives Line (ts ++ amps) (Nat.iter (length amps) BACK c)
| derives_list ts c amps se ts' c' :
    derives Pipeline ts c -> Forall (fun t => t_kind t = AMP) amps -> t_kind se = SEMI -> derives Line ts' c' ->
    derives Line (ts ++ amps ++ se :: ts') (LIST (Nat.iter (length amps) BACK c) c').

(** The kinds of the token that may follow a phrase of a level. *)
Definition follow (l : level) : list Z :=
  match l with
  | Line => [RPAR]
  | Pipeline => [AMP; SEMI; RPAR]
  | Exec => [BAR; AMP; SEMI; RPAR]
  end.

Definition followed (l : level) (ts : list token) : Prop :=
  match ts with [] => True | t :: _ => t_kind t ∈ follow l end.

(** ** Heads of token lists *)

Lemma starts_true toks ts : starts toks ts = true ->
  exists t ts', ts = t :: ts' /\ t_kind t <> WORD /\ sym (t_kind t) ∈ toks.
Proof.
  destruct ts as [|t ts]; [done|]. cbn [starts]. rewrite andb_true_iff, negb_true_iff, Z.eqb_neq, among_inv. naive_solver.
Qed.

Lemma starts_intro toks t ts : t_kind t <> WORD -> sym (t_kind t) <> 0 -> sym (t_kind t) ∈ toks -> starts toks (t :: ts) = true.
Proof. intros. cbn [starts]. rewrite andb_true_iff, negb_true_iff, Z.eqb_neq, among_inv. done. Qed.

Lemma sym_is x k : x <> MORE -> sym k = x -> k = x.
Proof. unfold sym. destruct (Z.eqb_spec k PLUS); naive_solver. Qed.

Lemma starts_one x ts : x <> MORE -> starts [x] ts = true -> exists t ts', ts = t :: ts' /\ t_kind t = x.
Proof.
  intros Hx H. apply starts_true in H as (t & ts' & -> & _ & H). exists t, ts'. split; [done|].
  apply (sym_is x); [done|]. set_solver.
Qed.

Lemma starts_redir ts : starts [LESS; MORE] ts = true -> exists t ts', ts = t :: ts' /\ t_kind t ∈ [LESS; MORE; PLUS].
Proof.
  intros H. apply starts_true in H as (t & ts' & -> & _ & H). exists t, ts'. split; [done|]. unfold sym in H.
  destruct (Z.eqb_spec (t_kind t) PLUS) as [->|]; set_solver.
Qed.

Lemma starts_redir_intro t ts : t_kind t ∈ [LESS; MORE; PLUS] -> starts [LESS; MORE] (t :: ts) = true.
Proof.
  intros H. assert (t_kind t = LESS \/ t_kind t = MORE \/ t_kind t = PLUS) as Hk by set_solver.
  destruct Hk as [Hk|[Hk|Hk]]; apply starts_intro; rewrite Hk; try done; unfold sym; cbn; set_solver.
Qed.

Lemma starts_other toks t ts : (t_kind t = WORD \/ ((t_kind t ∉ toks) /\ t_kind t <> PLUS)) -> starts toks (t :: ts) = false.
Proof.
  intros H. apply not_true_iff_false. intros E. apply starts_true in E as (t' & ts' & [= <- <-] & H1 & H2).
  destruct H as [?|[H ?]]; [done|]. apply H. unfold sym in H2. destruct (Z.eqb_spec (t_kind t) PLUS); done.
Qed.

(** ** Soundness *)

Section Parse.
Context (buf : list Z).
Hypothesis Hnul : 0 ∉ buf.

Local Abbreviation es := (es buf).
Local Abbreviation at_toks := (at_toks buf).
Local Abbreviation peek := (peek buf).
Local Abbreviation gettoken := (gettoken buf).
Local Abbreviation parseredirs := (parseredirs buf).
Local Abbreviation parseargs := (parseargs buf).
Local Abbreviation parsebacks := (parsebacks buf).
Local Abbreviation parseline := (parseline buf).
Local Abbreviation parsepipe := (parsepipe buf).
Local Abbreviation parseexec := (parseexec buf).
Local Abbreviation parseblock := (parseblock buf).

(** One call of peek, of gettoken at a known token, of gettoken anywhere. *)
Ltac do_peek H s' := let K := fresh in
  edestruct (peek_at buf Hnul) as (s' & -> & K); [|exact H|]; [by (unfold symbols; set_solver)|]; clear H; rename K into H.
Ltac do_token H s' := let K := fresh in edestruct (gettoken_at buf Hnul) as (s' & -> & K & _); [exact H|]; clear H; rename K into H.

Lemma parseredirs_sound fuel c s ts c' s' : at_toks s ts -> parseredirs fuel c s = POk c' s' ->
  exists rts rs ts', ts = rts ++ ts' /\ redirs rts rs /\ c' = redirect c rs /\ at_toks s' ts'.
Proof.
  revert c s ts. induction fuel as [|fuel IH]; intros c s ts Hat; cbn [Sh.parseredirs]; [done|]. do_peek Hat s1.
  destruct (starts [LESS; MORE] ts) eqn:E; cbn [negb]; [|intros [= <- <-]; exists [], [], ts; by split_and!; [|constructor| |]].
  apply starts_redir in E as (o & ts1 & -> & Ho). do_token Hat s2.
  destruct ts1 as [|f ts2]; [destruct (gettoken_end buf Hnul _ Hat) as (w & -> & _); done|]. do_token Hat s3.
  destruct (Z.eqb_spec (t_kind f) WORD) as [Ef|]; cbn [negb]; [|done]. intros H.
  apply (IH _ _ _ Hat) in H as (rts & rs & ts' & -> & H1 & -> & H3).
  exists (o :: f :: rts), ((t_kind o, t_word f) :: rs), ts'. split_and!; [done|by constructor|done|done].
Qed.

Lemma parseargs_sound fuel argc c s ts c' s' : at_toks s ts -> (argc < MAXARGS)%nat -> parseargs fuel argc c s = POk c' s' ->
  exists ts1 ts' n, ts = ts1 ++ ts' /\ args ts1 c c' n /\ (argc + n < MAXARGS)%nat /\ at_toks s' ts'.
Proof.
  revert argc c s ts. induction fuel as [|fuel IH]; intros argc c s ts Hat Hargc; cbn [Sh.parseargs]; [done|]. do_peek Hat s1.
  destruct (starts _ ts) eqn:E; [intros [= <- <-]; exists [], ts, 0%nat; by split_and!; [|constructor|lia|]|].
  destruct ts as [|w ts1].
  { destruct (gettoken_end buf Hnul _ Hat) as (w & -> & _). cbn. intros [= <- <-]. exists [], [], 0%nat.
    split_and!; [done|constructor|lia|by apply at_toks_end]. }
  edestruct (gettoken_at buf Hnul) as (s2 & -> & Hat2 & Hk); [exact Hat|]. rewrite (proj2 (Z.eqb_neq _ _) Hk).
  destruct (Z.eqb_spec (t_kind w) WORD) as [Ew|]; cbn [negb]; [|done]. destruct (Nat.leb_spec MAXARGS (S argc)) as [|Hn]; [done|].
  destruct (parseredirs (S es) (add_arg (t_word w) c) s2) as [c2 s3| |] eqn:Er; cbn [pbind]; [|done|done]. intros H.
  apply (parseredirs_sound _ _ _ _ _ _ Hat2) in Er as (rts & rs & ts2 & -> & H1 & -> & H3).
  apply (IH _ _ _ _ H3) in H as (ts3 & ts' & n & -> & H4 & H5 & H6); [|done].
  exists (w :: rts ++ ts3), ts', (S n). split_and!; [cbn; by rewrite <- app_assoc|by econstructor|lia|done].
Qed.

Lemma parsebacks_sound fuel c s ts c' s' : at_toks s ts -> parsebacks fuel c s = POk c' s' ->
  exists amps ts', ts = amps ++ ts' /\ Forall (fun t => t_kind t = AMP) amps /\ c' = Nat.iter (length amps) BACK c /\ at_toks s' ts'.
Proof.
  revert c s ts. induction fuel as [|fuel IH]; intros c s ts Hat; cbn [Sh.parsebacks]; [done|]. do_peek Hat s1.
  destruct (starts [AMP] ts) eqn:E; cbn [negb]; [|intros [= <- <-]; by exists [], ts].
  apply starts_one in E as (t & ts1 & -> & Ht); [|done]. do_token Hat s2. intros H.
  apply (IH _ _ _ Hat) in H as (amps & ts' & -> & H1 & -> & H3). exists (t :: amps), ts'. split_and!; [done|by constructor| |done].
  cbn [length]. by rewrite Nat.iter_succ_r.
Qed.

(** The parsing function of a level. *)
Definition parse (l : level) : nat -> nat -> presult cmd :=
  match l with Line => parseline | Pipeline => parsepipe | Exec => parseexec end.

Definition sound (p : nat -> presult cmd) (l : level) : Prop :=
  forall s ts c s', at_toks s ts -> p s = POk c s' -> exists ts1 ts2, ts = ts1 ++ ts2 /\ derives l ts1 c /\ at_toks s' ts2.

Lemma parseline_sound fuel : sound (parsepipe fuel) Pipeline -> sound (parseline fuel) Line -> sound (parseline (S fuel)) Line.
Proof.
  intros Hp Hl s ts c s' Hat. cbn [Sh.parseline]. destruct (parsepipe fuel s) as [c1 s1| |] eqn:E1; cbn [pbind]; [|done|done].
  apply (Hp _ _ _ _ Hat) in E1 as (ts1 & ts2 & -> & D1 & Hat1).
  destruct (parsebacks (S es) c1 s1) as [c2 s2| |] eqn:E2; cbn [pbind]; [|done|done].
  apply (parsebacks_sound _ _ _ _ _ _ Hat1) in E2 as (amps & ts3 & -> & Ha & -> & Hat2). do_peek Hat2 s3.
  destruct (starts [SEMI] ts3) eqn:E3; cbn [negb].
  - apply starts_one in E3 as (se & ts4 & -> & Hse); [|done]. do_token Hat2 s4.
    destruct (parseline fuel s4) as [c3 s5| |] eqn:E4; cbn [pbind]; [|done|done]. intros [= <- <-].
    apply (Hl _ _ _ _ Hat2) in E4 as (ts5 & ts6 & -> & D2 & Hat3).
    exists (ts1 ++ amps ++ se :: ts5), ts6. split_and!; [by rewrite <- !app_assoc|by constructor|done].
  - intros [= <- <-]. exists (ts1 ++ amps), ts3. split_and!; [by rewrite <- app_assoc|by constructor|done].
Qed.

Lemma parsepipe_sound fuel : sound (parseexec fuel) Exec -> sound (parsepipe fuel) Pipeline -> sound (parsepipe (S fuel)) Pipeline.
Proof.
  intros He Hp s ts c s' Hat. cbn [Sh.parsepipe]. destruct (parseexec fuel s) as [c1 s1| |] eqn:E1; cbn [pbind]; [|done|done].
  apply (He _ _ _ _ Hat) in E1 as (ts1 & ts2 & -> & D1 & Hat1). do_peek Hat1 s2. destruct (starts [BAR] ts2) eqn:E2; cbn [negb].
  - apply starts_one in E2 as (b & ts3 & -> & Hb); [|done]. do_token Hat1 s3.
    destruct (parsepipe fuel s3) as [c2 s4| |] eqn:E3; cbn [pbind]; [|done|done]. intros [= <- <-].
    apply (Hp _ _ _ _ Hat1) in E3 as (ts4 & ts5 & -> & D2 & Hat2).
    exists (ts1 ++ b :: ts4), ts5. split_and!; [by rewrite <- app_assoc|by constructor|done].
  - intros [= <- <-]. exists ts1, ts2. split_and!; [done|by constructor|done].
Qed.

Lemma parseblock_sound fuel : sound (parseline fuel) Line -> sound (parseblock (S fuel)) Exec.
Proof.
  intros Hl s ts c s' Hat. cbn [Sh.parseblock]. do_peek Hat s1. destruct (starts [LPAR] ts) eqn:E1; cbn [negb]; [|done].
  apply starts_one in E1 as (o & ts1 & -> & Ho); [|done]. do_token Hat s2.
  destruct (parseline fuel s2) as [c1 s3| |] eqn:E2; cbn [pbind]; [|done|done].
  apply (Hl _ _ _ _ Hat) in E2 as (ts2 & ts3 & -> & D & Hat1). do_peek Hat1 s4.
  destruct (starts [RPAR] ts3) eqn:E3; cbn [negb]; [|done]. apply starts_one in E3 as (cl & ts4 & -> & Hcl); [|done].
  do_token Hat1 s5. intros E4. apply (parseredirs_sound _ _ _ _ _ _ Hat1) in E4 as (rts & rs & ts5 & -> & Hr & -> & Hat2).
  exists (o :: ts2 ++ cl :: rts), ts5. split_and!; [cbn; by rewrite <- app_assoc|by constructor|done].
Qed.

Lemma parseexec_sound fuel : sound (parseblock fuel) Exec -> sound (parseexec (S fuel)) Exec.
Proof.
  intros Hb s ts c s' Hat. cbn [Sh.parseexec]. do_peek Hat s1. destruct (starts [LPAR] ts); [by apply Hb|].
  destruct (parseredirs (S es) (EXEC []) s1) as [c1 s2| |] eqn:E1; cbn [pbind]; [|done|done].
  apply (parseredirs_sound _ _ _ _ _ _ Hat) in E1 as (rts & rs & ts1 & -> & Hr & -> & Hat1). intros E2.
  apply (parseargs_sound _ _ _ _ _ _ _ Hat1) in E2 as (ts2 & ts3 & n & -> & Ha & Hn & Hat2); [|unfold MAXARGS; lia].
  exists (rts ++ ts2), ts3. split_and!; [by rewrite <- app_assoc|by econstructor|done].
Qed.

Lemma parse_sound fuel : sound (parseblock fuel) Exec /\ forall l, sound (parse l fuel) l.
Proof.
  induction fuel as [|fuel [IHb IH]]; [split; [done|by intros []]|]. split; [apply parseblock_sound, (IH Line)|]. intros [].
  - apply parseline_sound; [apply (IH Pipeline)|apply (IH Line)].
  - apply parsepipe_sound; [apply (IH Exec)|apply (IH Pipeline)].
  - by apply parseexec_sound.
Qed.

(** ** Completeness *)

Lemma parseredirs_complete rts rs : redirs rts rs -> forall fuel c s ts', at_toks s (rts ++ ts') -> starts [LESS; MORE] ts' = false ->
  (length rts < fuel)%nat -> exists s', parseredirs fuel c s = POk (redirect c rs) s' /\ at_toks s' ts'.
Proof.
  induction 1 as [|o f ts rs Ho Hf _ IH]; intros fuel c s ts' Hat Hs Hl; (destruct fuel as [|fuel]; [lia|]); cbn [Sh.parseredirs].
  - cbn [app] in Hat. do_peek Hat s1. rewrite Hs. cbn [negb]. by exists s1.
  - cbn [app length] in *. do_peek Hat s1. rewrite starts_redir_intro by done. cbn [negb]. do_token Hat s2. do_token Hat s3.
    rewrite Hf. cbn [negb Z.eqb]. replace (WORD =? WORD) with true by done. cbn [negb].
    apply (IH fuel); [done|done|lia].
Qed.

Lemma follow_redir l ts : followed l ts -> starts [LESS; MORE] ts = false.
Proof.
  destruct ts as [|t ts]; [done|]. cbn [followed]. intros H. apply starts_other. right.
  assert (t_kind t ∈ [BAR; AMP; SEMI; RPAR]) as K by (destruct l; cbn in H; set_solver).
  rewrite !elem_of_cons in K. destruct K as [->|[->|[->|[->|K]]]]; [..|by apply elem_of_nil in K]; split; by (vm_compute; set_solver).
Qed.

Lemma followed_up l ts : followed l ts -> followed Exec ts.
Proof. destruct ts as [|t ts]; [done|]. cbn. destruct l; cbn; set_solver. Qed.

Lemma args_redir ts c c' n ts' : args ts c c' n -> followed Exec ts' -> starts [LESS; MORE] (ts ++ ts') = false.
Proof.
  intros Ha Hf. destruct Ha as [|w rts rs ts c c' n Hw]; [by eapply follow_redir|]. cbn [app]. apply starts_other. by left.
Qed.

Lemma parseargs_complete ts c c' n : args ts c c' n -> forall fuel argc s ts', at_toks s (ts ++ ts') -> followed Exec ts' ->
  (argc + n < MAXARGS)%nat -> (length ts < fuel)%nat -> exists s', parseargs fuel argc c s = POk c' s' /\ at_toks s' ts'.
Proof.
  induction 1 as [c|w rts rs ts c c' n Hw Hr Ha IH]; intros fuel argc s ts' Hat Hf Hn Hl; (destruct fuel as [|fuel]; [lia|]);
    cbn [Sh.parseargs app] in *; do_peek Hat s1.
  - destruct ts' as [|t ts']; cbn [starts].
    + destruct (gettoken_end buf Hnul _ Hat) as (w & -> & _). cbn. exists es. split; [done|]. by apply at_toks_end.
    + cbn [followed follow] in Hf. fold (starts [BAR; RPAR; AMP; SEMI] (t :: ts')).
      rewrite starts_intro; [by exists s1|..]; rewrite !elem_of_cons in Hf;
        (destruct Hf as [->|[->|[->|[->|K]]]]; [..|by apply elem_of_nil in K]); by (vm_compute; set_solver).
  - rewrite starts_other by (by left). do_token Hat s2. rewrite Hw.
    replace (WORD =? 0) with false by done. replace (WORD =? WORD) with true by done. cbn [negb].
    rewrite (proj2 (Nat.leb_gt _ _)) by lia. rewrite <- app_assoc in Hat. cbn [length] in Hl. rewrite length_app in Hl.
    pose proof (tokens_length buf Hnul _ _ Hat) as Hlen. rewrite length_app in Hlen.
    destruct (parseredirs_complete _ _ Hr (S es) (add_arg (t_word w) c) s2 (ts ++ ts') Hat) as (s3 & -> & Hat3);
      [by eapply args_redir|lia|]. cbn [pbind]. apply (IH fuel); [done|done|lia|lia].
Qed.

Lemma parsebacks_complete amps : Forall (fun t => t_kind t = AMP) amps -> forall fuel c s ts', at_toks s (amps ++ ts') ->
  starts [AMP] ts' = false -> (length amps < fuel)%nat ->
  exists s', parsebacks fuel c s = POk (Nat.iter (length amps) BACK c) s' /\ at_toks s' ts'.
Proof.
  induction 1 as [|t amps Ht _ IH]; intros fuel c s ts' Hat Hs Hl; (destruct fuel as [|fuel]; [lia|]);
    cbn [Sh.parsebacks app length] in *; do_peek Hat s1.
  - rewrite Hs. cbn [negb]. by exists s1.
  - rewrite starts_intro by (rewrite Ht; by (vm_compute; set_solver)). cbn [negb]. do_token Hat s2.
    rewrite Nat.iter_succ_r. apply (IH fuel); [done|done|lia].
Qed.

Definition rank (l : level) : nat := match l with Line => 3 | Pipeline => 2 | Exec => 1 end.

Lemma followed_starts l x ts : followed l ts -> x ∉ follow l -> x <> MORE -> starts [x] ts = false.
Proof.
  intros Hf Hx Hm. apply not_true_iff_false. intros E. apply starts_one in E as (t & ts' & -> & <-); [|done]. done.
Qed.

Lemma parseexec_simple rts rs ts c n fuel s ts2 : redirs rts rs -> args ts (redirect (EXEC []) rs) c n -> (n < MAXARGS)%nat ->
  at_toks s ((rts ++ ts) ++ ts2) -> followed Exec ts2 -> exists s', parseexec (S fuel) s = POk c s' /\ at_toks s' ts2.
Proof.
  intros Hr Ha Hn Hat Hf. cbn [Sh.parseexec]. do_peek Hat s1.
  assert (starts [LPAR] ((rts ++ ts) ++ ts2) = false) as ->.
  { rewrite <- app_assoc. destruct Hr as [|o f ? ? Ho]; [destruct Ha; [by apply (followed_starts Exec); [|cbn; set_solver|]|by apply starts_other; left]|].
    cbn [app]. apply not_true_iff_false. intros E. apply starts_one in E as (t & ts' & [= <- <-] & E); [|done].
    rewrite E in Ho. clear -Ho. vm_compute in Ho. set_solver. }
  pose proof (tokens_length buf Hnul _ _ Hat) as Hlen. rewrite !length_app in Hlen. rewrite <- app_assoc in Hat.
  destruct (parseredirs_complete _ _ Hr (S es) (EXEC []) s1 (ts ++ ts2) Hat) as (s3 & -> & Hat3); [by eapply args_redir|lia|].
  cbn [pbind]. apply (parseargs_complete _ _ _ _ Ha (S es)); [done|done|lia|lia].
Qed.

(** What the parser of a level does on the phrases of the level. *)
Definition complete (l : level) (ts : list token) (c : cmd) : Prop :=
  forall fuel s ts2, at_toks s (ts ++ ts2) -> followed l ts2 -> (4 * length ts + rank l <= fuel)%nat ->
  exists s', parse l fuel s = POk c s' /\ at_toks s' ts2.

Lemma complete_block o ts c cl rts rs : t_kind o = LPAR -> complete Line ts c -> t_kind cl = RPAR -> redirs rts rs ->
  complete Exec (o :: ts ++ cl :: rts) (redirect c rs).
Proof.
  intros Ho IH Hcl Hr fuel s ts2 Hat Hf Hl. cbn [length rank] in Hl. rewrite length_app in Hl. cbn [length] in Hl.
  destruct fuel as [|[|fuel]]; [lia|lia|]. cbn [parse Sh.parseexec]. cbn [app] in Hat. do_peek Hat s1.
  assert (forall ts', starts [LPAR] (o :: ts') = true) as E by (intros; apply starts_intro; rewrite Ho; by (vm_compute; set_solver)).
  rewrite E. cbn [Sh.parseblock]. do_peek Hat s2. rewrite E. cbn [negb]. do_token Hat s3.
  rewrite <- app_assoc in Hat. cbn [app] in Hat.
  destruct (IH fuel s3 (cl :: rts ++ ts2) Hat) as (s4 & Ep & Hat4); [cbn; rewrite Hcl; set_solver|cbn [rank]; lia|].
  cbn [parse] in Ep. rewrite Ep. cbn [pbind]. do_peek Hat4 s5.
  rewrite starts_intro by (rewrite Hcl; by (vm_compute; set_solver)). cbn [negb]. do_token Hat4 s6.
  pose proof (tokens_length buf Hnul _ _ Hat4) as Hlen. rewrite length_app in Hlen.
  apply (parseredirs_complete _ _ Hr); [done|by eapply follow_redir|lia].
Qed.

Lemma complete_exec ts c : complete Exec ts c -> complete Pipeline ts c.
Proof.
  intros IH fuel s ts2 Hat Hf Hl. cbn [rank] in Hl. destruct fuel as [|fuel]; [lia|]. cbn [parse Sh.parsepipe].
  destruct (IH fuel s ts2 Hat) as (s1 & Ep & Hat1); [by eapply followed_up|cbn; lia|]. cbn [parse] in Ep. rewrite Ep. cbn [pbind].
  do_peek Hat1 s2. rewrite (followed_starts Pipeline) by (done || cbn; set_solver). cbn [negb]. by exists s2.
Qed.

Lemma complete_pipe ts c b ts' c' : complete Exec ts c -> t_kind b = BAR -> complete Pipeline ts' c' ->
  complete Pipeline (ts ++ b :: ts') (PIPE c c').
Proof.
  intros IH1 Hb IH2 fuel s ts2 Hat Hf Hl. cbn [rank] in Hl. rewrite length_app in Hl. cbn [length] in Hl.
  destruct fuel as [|fuel]; [lia|]. cbn [parse Sh.parsepipe]. rewrite <- app_assoc in Hat. cbn [app] in Hat.
  destruct (IH1 fuel s _ Hat) as (s1 & Ep & Hat1); [cbn; rewrite Hb; set_solver|cbn; lia|]. cbn [parse] in Ep. rewrite Ep. cbn [pbind].
  do_peek Hat1 s2. rewrite starts_intro by (rewrite Hb; by (vm_compute; set_solver)). cbn [negb]. do_token Hat1 s3.
  destruct (IH2 fuel s3 _ Hat1) as (s4 & Ep2 & Hat2); [done|cbn; lia|]. cbn [parse] in Ep2. rewrite Ep2. cbn [pbind]. by exists s4.
Qed.

(** The pipeline and the ampersands of a line. *)
Lemma complete_backs ts c amps fuel s ts2 : complete Pipeline ts c -> Forall (fun t => t_kind t = AMP) amps ->
  at_toks s ((ts ++ amps) ++ ts2) -> followed Pipeline ts2 -> starts [AMP] ts2 = false -> (4 * length ts + 2 <= fuel)%nat ->
  exists s1 s2, parsepipe fuel s = POk c s1 /\ parsebacks (S es) c s1 = POk (Nat.iter (length amps) BACK c) s2 /\ at_toks s2 ts2.
Proof.
  intros IH Ha Hat Hf Hs Hl. rewrite <- app_assoc in Hat. destruct (IH fuel s _ Hat) as (s1 & Ep & Hat1).
  - destruct Ha as [|a amps Ha _]; [done|]. cbn. rewrite Ha. set_solver.
  - done.
  - exists s1. pose proof (tokens_length buf Hnul _ _ Hat1) as Hlen. rewrite length_app in Hlen.
    destruct (parsebacks_complete _ Ha (S es) c s1 ts2 Hat1 Hs) as (s2 & E & Hat2); [lia|]. by exists s2.
Qed.

Lemma complete_pipeline ts c amps : complete Pipeline ts c -> Forall (fun t => t_kind t = AMP) amps ->
  complete Line (ts ++ amps) (Nat.iter (length amps) BACK c).
Proof.
  intros IH Ha fuel s ts2 Hat Hf Hl. cbn [rank] in Hl. rewrite length_app in Hl. destruct fuel as [|fuel]; [lia|].
  destruct (complete_backs ts c amps fuel s ts2 IH Ha Hat) as (s1 & s2 & Ep & Eb & Hat2).
  - destruct ts2; [done|]. cbn in *. set_solver.
  - apply (followed_starts Line); [done|cbn; set_solver|done].
  - lia.
  - cbn [parse Sh.parseline]. rewrite Ep. cbn [pbind]. rewrite Eb. cbn [pbind]. do_peek Hat2 s3.
    rewrite (followed_starts Line) by (done || cbn; set_solver). cbn [negb]. by exists s3.
Qed.

Lemma complete_list ts c amps se ts' c' : complete Pipeline ts c -> Forall (fun t => t_kind t = AMP) amps -> t_kind se = SEMI ->
  complete Line ts' c' -> complete Line (ts ++ amps ++ se :: ts') (LIST (Nat.iter (length amps) BACK c) c').
Proof.
  intros IH Ha Hse IH2 fuel s ts2 Hat Hf Hl. cbn [rank] in Hl. rewrite !length_app in Hl. cbn [length] in Hl.
  destruct fuel as [|fuel]; [lia|]. rewrite (app_assoc ts amps), <- app_assoc in Hat.
  destruct (complete_backs ts c amps fuel s _ IH Ha Hat) as (s1 & s2 & Ep & Eb & Hat2).
  - cbn. rewrite Hse. set_solver.
  - cbn [app]. apply starts_other. rewrite Hse. right. split; [set_solver|done].
  - lia.
  - cbn [parse Sh.parseline]. rewrite Ep. cbn [pbind]. rewrite Eb. cbn [pbind app] in *. do_peek Hat2 s3.
    rewrite starts_intro by (rewrite Hse; by (vm_compute; set_solver)). cbn [negb]. do_token Hat2 s4.
    destruct (IH2 fuel s4 _ Hat2) as (s5 & E5 & Hat5); [done|cbn; lia|]. cbn [parse] in E5. rewrite E5. cbn [pbind]. by exists s5.
Qed.

Lemma parse_complete l ts c : derives l ts c -> complete l ts c.
Proof.
  induction 1.
  - intros fuel s ts2 Hat Hf Hl. destruct fuel as [|fuel]; [cbn in Hl; lia|]. by eapply parseexec_simple.
  - by apply complete_block.
  - by apply complete_exec.
  - by apply complete_pipe.
  - by apply complete_pipeline.
  - by apply complete_list.
Qed.

(** ** Termination *)

Lemma pbind_total {A B} (r : presult A) (k : A -> nat -> presult B) :
  r <> PFuel -> (forall a s, r = POk a s -> k a s <> PFuel) -> pbind r k <> PFuel.
Proof. destruct r; cbn; intros H1 H2; [by apply H2|done|done]. Qed.

Lemma parseredirs_total fuel c s ts : at_toks s ts -> (length ts < fuel)%nat -> parseredirs fuel c s <> PFuel.
Proof.
  revert c s ts. induction fuel as [|fuel IH]; intros c s ts Hat Hl; [lia|]. cbn [Sh.parseredirs]. do_peek Hat s1.
  destruct (starts [LESS; MORE] ts) eqn:E; cbn [negb]; [|done]. apply starts_redir in E as (o & ts1 & -> & _). do_token Hat s2.
  destruct ts1 as [|f ts2]; [destruct (gettoken_end buf Hnul _ Hat) as (w & -> & _); done|]. do_token Hat s3.
  destruct (t_kind f =? WORD); cbn [negb]; [|done]. apply (IH _ _ ts2); [done|cbn in Hl; lia].
Qed.

Lemma redirs_fuel s ts : at_toks s ts -> (length ts < S es)%nat.
Proof. intros H. apply (tokens_length buf Hnul) in H. lia. Qed.

Lemma parseargs_total fuel argc c s ts : at_toks s ts -> (length ts < fuel)%nat -> parseargs fuel argc c s <> PFuel.
Proof.
  revert argc c s ts. induction fuel as [|fuel IH]; intros argc c s ts Hat Hl; [lia|]. cbn [Sh.parseargs]. do_peek Hat s1.
  destruct (starts _ ts); [done|].
  destruct ts as [|w ts1]; [destruct (gettoken_end buf Hnul _ Hat) as (w & -> & _); done|]. do_token Hat s2.
  destruct (t_kind w =? 0); [done|]. destruct (t_kind w =? WORD); cbn [negb]; [|done]. destruct (MAXARGS <=? S argc)%nat; [done|].
  apply pbind_total; [eapply parseredirs_total; [done|by eapply redirs_fuel]|]. intros c2 s3 E.
  apply (parseredirs_sound _ _ _ _ _ _ Hat) in E as (rts & rs & ts2 & -> & _ & _ & Hat3).
  apply (IH _ _ _ ts2 Hat3). cbn [length] in Hl. rewrite length_app in Hl. lia.
Qed.

Lemma parsebacks_total fuel c s ts : at_toks s ts -> (length ts < fuel)%nat -> parsebacks fuel c s <> PFuel.
Proof.
  revert c s ts. induction fuel as [|fuel IH]; intros c s ts Hat Hl; [lia|]. cbn [Sh.parsebacks]. do_peek Hat s1.
  destruct (starts [AMP] ts) eqn:E; cbn [negb]; [|done]. apply starts_one in E as (t & ts1 & -> & _); [|done]. do_token Hat s2.
  apply (IH _ _ ts1); [done|cbn in Hl; lia].
Qed.

(** The parser of a level with [fuel] for [k] nested calls and four for each
    token of the input. *)
Definition total (p : nat -> presult cmd) (k fuel : nat) : Prop :=
  forall s ts, at_toks s ts -> (4 * length ts + k <= fuel)%nat -> p s <> PFuel.

Lemma parseline_total fuel : total (parsepipe fuel) 2 fuel -> total (parseline fuel) 3 fuel -> total (parseline (S fuel)) 3 (S fuel).
Proof.
  intros Hp Hl s ts Hat Hf. cbn [Sh.parseline]. apply pbind_total; [apply (Hp _ _ Hat); lia|]. intros c1 s1 E1.
  apply (proj2 (parse_sound fuel) Pipeline _ _ _ _ Hat) in E1 as (ts1 & ts2 & -> & _ & Hat1). rewrite length_app in Hf.
  apply pbind_total; [eapply parsebacks_total; [done|by eapply redirs_fuel]|]. intros c2 s2 E2.
  apply (parsebacks_sound _ _ _ _ _ _ Hat1) in E2 as (amps & ts3 & -> & _ & _ & Hat2). rewrite length_app in Hf. do_peek Hat2 s3.
  destruct (starts [SEMI] ts3) eqn:E3; cbn [negb]; [|done]. apply starts_one in E3 as (se & ts4 & -> & _); [|done]. do_token Hat2 s4.
  cbn [length] in Hf. apply pbind_total; [apply (Hl _ _ Hat2); lia|done].
Qed.

Lemma parsepipe_total fuel : total (parseexec fuel) 1 fuel -> total (parsepipe fuel) 2 fuel -> total (parsepipe (S fuel)) 2 (S fuel).
Proof.
  intros He Hp s ts Hat Hf. cbn [Sh.parsepipe]. apply pbind_total; [apply (He _ _ Hat); lia|]. intros c1 s1 E1.
  apply (proj2 (parse_sound fuel) Exec _ _ _ _ Hat) in E1 as (ts1 & ts2 & -> & _ & Hat1). rewrite length_app in Hf. do_peek Hat1 s2.
  destruct (starts [BAR] ts2) eqn:E2; cbn [negb]; [|done]. apply starts_one in E2 as (b & ts3 & -> & _); [|done]. do_token Hat1 s3.
  cbn [length] in Hf. apply pbind_total; [apply (Hp _ _ Hat1); lia|done].
Qed.

Lemma parseexec_total fuel : total (parseline (pred fuel)) 3 (pred fuel) -> total (parseexec (S fuel)) 1 (S fuel).
Proof.
  intros Hl s ts Hat Hf. cbn [Sh.parseexec]. do_peek Hat s1. destruct (starts [LPAR] ts) eqn:E1.
  - apply starts_one in E1 as (o & ts1 & -> & Ho); [|done]. cbn [length] in Hf. destruct fuel as [|fuel]; [lia|]. cbn [Sh.parseblock pred] in *.
    do_peek Hat s2. rewrite starts_intro by (rewrite Ho; by (vm_compute; set_solver)). cbn [negb]. do_token Hat s3.
    apply pbind_total; [apply (Hl _ _ Hat); lia|]. intros c1 s4 E2.
    apply (proj2 (parse_sound fuel) Line _ _ _ _ Hat) in E2 as (ts2 & ts3 & -> & _ & Hat1). do_peek Hat1 s5.
    destruct (starts [RPAR] ts3) eqn:E3; cbn [negb]; [|done]. apply starts_one in E3 as (cl & ts4 & -> & _); [|done].
    do_token Hat1 s6. eapply parseredirs_total; [done|by eapply redirs_fuel].
  - apply pbind_total; [eapply parseredirs_total; [done|by eapply redirs_fuel]|]. intros c1 s2 E2.
    apply (parseredirs_sound _ _ _ _ _ _ Hat) in E2 as (rts & rs & ts1 & -> & _ & _ & Hat1).
    eapply parseargs_total; [done|by eapply redirs_fuel].
Qed.

Lemma parse_total fuel l : total (parse l fuel) (rank l) fuel.
Proof.
  revert l. induction fuel as [fuel IH] using lt_wf_ind. intros l.
  destruct fuel as [|fuel]; [intros s ts _ Hf; destruct l; cbn in Hf; lia|]. destruct l.
  - apply parseline_total; [apply (IH fuel ltac:(lia) Pipeline)|apply (IH fuel ltac:(lia) Line)].
  - apply parsepipe_total; [apply (IH fuel ltac:(lia) Exec)|apply (IH fuel ltac:(lia) Pipeline)].
  - apply parseexec_total. apply (IH (pred fuel) ltac:(lia) Line).
Qed.
End Parse.
