(* ===== verification/ShRun.v ===== *)
(** * Running the commands of the shell

    Every program that runcmd of user/sh.c starts has exactly the descriptors
    0, 1 and 2, connected the way the command says, and no process keeps an
    end of a pipe that it does not use. *)

From S2P Require Import Prelude Sh.

(** ** What a command means *)

(** The connection of one program: its arguments, input and output. *)
Definition conn : Type := list word * obj * obj.

(** The programs of the command that process [p], after [n] children, runs
    with input [i] and output [o]. *)
Fixpoint programs (p : list nat) (n : nat) (c : cmd) (i o : obj) : list conn :=
  match c with
  | EXEC argv => match argv with [] => [] | _ => [(argv, i, o)] end
  | REDIR c' file mode fd =>
      if fd =? 0 then programs p n c' (OFile file mode) o else programs p n c' i (OFile file mode)
  | PIPE l r => programs (p ++ [n]) 0 l i (OWrite p) ++ programs (p ++ [S n]) 0 r (ORead p) o
  | LIST l r => programs (p ++ [n]) 0 l i o ++ programs p (S n) r i o
  | BACK c' => programs (p ++ [n]) 0 c' i o
  end.

(** The processes that may make a pipe. *)
Fixpoint pipes (p : list nat) (n : nat) (c : cmd) : list (list nat) :=
  match c with
  | EXEC _ => []
  | REDIR c' _ _ _ => pipes p n c'
  | PIPE l r => p :: pipes (p ++ [n]) 0 l ++ pipes (p ++ [S n]) 0 r
  | LIST l r => pipes (p ++ [n]) 0 l ++ pipes p (S n) r
  | BACK c' => pipes (p ++ [n]) 0 c'
  end.

(** Redirections are of descriptors 0 and 1, as redircmd makes them. *)
Fixpoint redir_ok (c : cmd) : bool :=
  match c with
  | EXEC _ => true
  | REDIR c' _ _ fd => ((fd =? 0) || (fd =? 1)) && redir_ok c'
  | PIPE l r => redir_ok l && redir_ok r
  | LIST l r => redir_ok l && redir_ok r
  | BACK c' => redir_ok c'
  end.

(** The table with exactly the three standard descriptors. *)
Definition std (i o e : obj) : fdtable := [Some i; Some o; Some e] ++ replicate (NOFILE - 3) None.

(** The exec calls of a script, in the order of the forks. *)
Fixpoint execs (s : script) : list (list word * fdtable) :=
  match s with
  | SExec argv t => [(argv, t)]
  | SExit _ => []
  | SPanic _ => []
  | SPipe _ r => execs r
  | SFork c r => execs c ++ execs r
  | SWait _ r => execs r
  end.

(** The tables of the processes that wait. *)
Fixpoint waits (s : script) : list fdtable :=
  match s with
  | SPipe _ r => waits r
  | SFork c r => waits c ++ waits r
  | SWait t r => t :: waits r
  | _ => []
  end.

(** The pipe calls of the script that succeed, each by the process that makes
    it, which is the name of the pipe in the descriptors. *)
Fixpoint made (s : script) : list (list nat) :=
  match s with
  | SPipe p r => p :: made r
  | SFork c r => made c ++ made r
  | SWait _ r => made r
  | _ => []
  end.

(** Each process of the script calls wait as often as it forked, and never with
    more calls than forks so far, unless it panics: [n] is the number of
    forks less that of the calls of wait. *)
Fixpoint wait_per_fork (n : nat) (s : script) : Prop :=
  match s with
  | SExec _ _ => n = 0%nat
  | SExit _ => n = 0%nat
  | SPanic _ => True
  | SPipe _ r => wait_per_fork n r
  | SFork c r => wait_per_fork 0 c /\ wait_per_fork (S n) r
  | SWait _ r => (0 < n)%nat /\ wait_per_fork (pred n) r
  end.

(** No part of the command runs in the background. *)
Fixpoint foreground (c : cmd) : bool :=
  match c with
  | EXEC _ => true
  | REDIR c' _ _ _ => foreground c'
  | PIPE l r => foreground l && foreground r
  | LIST l r => foreground l && foreground r
  | BACK _ => false
  end.

(** ** Distinct pipes *)

Definition below (p : list nat) (n : nat) (q : list nat) : Prop := exists k l, q = p ++ k :: l /\ (n <= k)%nat.

Lemma pipes_below p n c q : q ∈ pipes p n c -> q = p \/ below p n q.
Proof.
  revert p n. induction c as [| |l IHl r IHr|l IHl r IHr|c IH]; intros p n; cbn [pipes]; [set_solver|by auto|..].
  - rewrite elem_of_cons, elem_of_app. intros [->|[H|H]]; [by left|right|right].
    + apply IHl in H as [->|(k & m & -> & _)]; [by exists n, []|]. exists n, (k :: m). by rewrite <- app_assoc.
    + apply IHr in H as [->|(k & m & -> & _)]; [exists (S n), []; split; [done|lia]|]. exists (S n), (k :: m). rewrite <- app_assoc. split; [done|lia].
  - rewrite elem_of_app. intros [H|H].
    + right. apply IHl in H as [->|(k & m & -> & _)]; [by exists n, []|]. exists n, (k :: m). by rewrite <- app_assoc.
    + apply IHr in H as [->|(k & m & -> & ?)]; [by left|right]. exists k, m. split; [done|lia].
  - intros H. right. apply IH in H as [->|(k & m & -> & _)]; [by exists n, []|]. exists n, (k :: m). by rewrite <- app_assoc.
Qed.

(** The pipes of the [n]th child. *)
Lemma pipes_child p n c q : q ∈ pipes (p ++ [n]) 0 c -> exists l, q = p ++ n :: l.
Proof. intros H. apply pipes_below in H as [->|(k & l & -> & _)]; [by exists []|]. exists (k :: l). by rewrite <- app_assoc. Qed.

Lemma path_self p n (l : list nat) : p <> p ++ n :: l.
Proof. intros H. apply (f_equal length) in H. rewrite length_app in H. cbn in H. lia. Qed.

Lemma pipes_nodup p n c : NoDup (pipes p n c).
Proof.
  revert p n. induction c as [| |l IHl r IHr|l IHl r IHr|c IH]; intros p n; cbn [pipes]; [constructor|auto|..|auto].
  - apply NoDup_cons. split.
    + intros H. apply elem_of_app in H as [H|H]; apply pipes_child in H as [m H]; by eapply path_self.
    + apply NoDup_app. split_and!; [auto| |auto]. intros q Hl Hr. apply pipes_child in Hl as [a ->]. apply pipes_child in Hr as [b Hr].
      simplify_list_eq. lia.
  - apply NoDup_app. split_and!; [auto| |auto]. intros q Hl Hr. apply pipes_child in Hl as [a ->].
    apply pipes_below in Hr as [Hr|(k & b & Hr & Hk)]; [by eapply path_self|]. simplify_list_eq. lia.
Qed.

(** ** The descriptors of the programs *)

Section Run.
Context (open_ok : word -> Z -> bool) (pipe_ok fork_ok : list nat -> bool).
Local Abbreviation runcmd := (runcmd open_ok pipe_ok fork_ok).

Lemma close_open_std i o e fd file mode : fd = 0 \/ fd = 1 ->
  open open_ok file mode (close (Z.to_nat fd) (std i o e)) =
  if open_ok file mode
  then Some (Z.to_nat fd, if fd =? 0 then std (OFile file mode) o e else std i (OFile file mode) e) else None.
Proof. intros [->| ->]; unfold open; by destruct (open_ok file mode). Qed.

(** The table of the parent after pipe, and those of the two children. *)
Lemma pipe_std p i o e : pipe pipe_ok p (std i o e) =
  if pipe_ok p then Some (3, 4, <[4 := Some (OWrite p)]> (<[3 := Some (ORead p)]> (std i o e)))%nat else None.
Proof. unfold pipe. by destruct (pipe_ok p). Qed.

Lemma pipe_left p i o e : pipe_child 1 4 3 4 (<[4%nat := Some (OWrite p)]> (<[3%nat := Some (ORead p)]> (std i o e))) = std i (OWrite p) e.
Proof. done. Qed.

Lemma pipe_right p i o e : pipe_child 0 3 3 4 (<[4%nat := Some (OWrite p)]> (<[3%nat := Some (ORead p)]> (std i o e))) = std (ORead p) o e.
Proof. done. Qed.

Definition with_err (e : obj) (x : conn) : list word * fdtable := let '(argv, i, o) := x in (argv, std i o e).

Lemma execs_fork1 p n c r xs ys : execs c `sublist_of` xs -> execs r `sublist_of` ys -> execs (fork1 fork_ok p n c r) `sublist_of` xs ++ ys.
Proof. intros H1 H2. unfold fork1. destruct (fork_ok (p ++ [n])); [by apply sublist_app|apply sublist_nil_l]. Qed.

Lemma runcmd_sublist c : redir_ok c = true -> forall p n i o e,
  execs (runcmd p n c (std i o e)) `sublist_of` with_err e <$> programs p n c i o.
Proof.
  induction c as [argv|c IH f m d|l IHl r IHr|l IHl r IHr|c IH]; cbn [redir_ok Sh.runcmd programs]; intros H p n i o e.
  - by destruct argv.
  - apply andb_true_iff in H as [Hd H]. apply orb_true_iff in Hd. rewrite !Z.eqb_eq in Hd. rewrite close_open_std by done.
    destruct (open_ok f m); [|apply sublist_nil_l]. destruct Hd as [->| ->]; cbn [Z.eqb]; by apply IH.
  - apply andb_true_iff in H as [H1 H2]. rewrite pipe_std. destruct (pipe_ok p); [|apply sublist_nil_l]. rewrite fmap_app.
    apply execs_fork1; [rewrite pipe_left; by apply IHl|]. rewrite pipe_right, <- (app_nil_r (with_err e <$> _)).
    apply execs_fork1; [by apply IHr|done].
  - apply andb_true_iff in H as [H1 H2]. rewrite fmap_app. apply execs_fork1; [by apply IHl|by apply IHr].
  - rewrite <- (app_nil_r (with_err e <$> _)). apply execs_fork1; [by apply IH|done].
Qed.

Lemma pipe_parent p i o e : close 4 (close 3 (<[4%nat := Some (OWrite p)]> (<[3%nat := Some (ORead p)]> (std i o e)))) = std i o e.
Proof. done. Qed.

(** A table with the three standard descriptors and standard error [e]. *)
Definition only_std (e : obj) (t : fdtable) : Prop := exists i o, t = std i o e.

Lemma waits_fork1 P p n c r : Forall P (waits c) -> Forall P (waits r) -> Forall P (waits (fork1 fork_ok p n c r)).
Proof. intros H1 H2. unfold fork1. destruct (fork_ok (p ++ [n])); cbn; [by apply Forall_app|done]. Qed.

Lemma runcmd_waits c : redir_ok c = true -> forall p n i o e, Forall (only_std e) (waits (runcmd p n c (std i o e))).
Proof.
  induction c as [argv|c IH f m d|l IHl r IHr|l IHl r IHr|c IH]; cbn [redir_ok Sh.runcmd]; intros H p n i o e.
  - by destruct argv.
  - apply andb_true_iff in H as [Hd H]. apply orb_true_iff in Hd. rewrite !Z.eqb_eq in Hd. rewrite close_open_std by done.
    destruct (open_ok f m); [|done]. destruct Hd as [->| ->]; cbn [Z.eqb]; by apply IH.
  - apply andb_true_iff in H as [H1 H2]. rewrite pipe_std. destruct (pipe_ok p); [|done]. rewrite pipe_left, pipe_right, pipe_parent.
    apply waits_fork1; [by apply IHl|]. apply waits_fork1; [by apply IHr|]. repeat constructor; by eexists _, _.
  - apply andb_true_iff in H as [H1 H2]. apply waits_fork1; [by apply IHl|]. constructor; [by eexists _, _|by apply IHr].
  - apply waits_fork1; [by apply IH|constructor].
Qed.

(** Every pipe of the run is one of [pipes]. *)
Lemma made_fork1 p n c r xs ys : made c `sublist_of` xs -> made r `sublist_of` ys -> made (fork1 fork_ok p n c r) `sublist_of` xs ++ ys.
Proof. intros H1 H2. unfold fork1. destruct (fork_ok (p ++ [n])); [by apply sublist_app|apply sublist_nil_l]. Qed.

Lemma runcmd_made c : forall p n t, made (runcmd p n c t) `sublist_of` pipes p n c.
Proof.
  induction c as [argv|c IH f m d|l IHl r IHr|l IHl r IHr|c IH]; cbn [Sh.runcmd pipes]; intros p n t.
  - by destruct argv.
  - destruct (open open_ok f m _) as [[]|]; [by apply IH|apply sublist_nil_l].
  - destruct (pipe pipe_ok p t) as [[[] ?]|]; [|apply sublist_nil_l]. cbn [made]. apply sublist_skip, made_fork1; [by apply IHl|].
    rewrite <- (app_nil_r (pipes _ _ r)). by apply made_fork1; [apply IHr|].
  - apply made_fork1; [by apply IHl|by apply IHr].
  - rewrite <- (app_nil_r (pipes _ _ c)). apply made_fork1; [by apply IH|done].
Qed.

Lemma runcmd_made_nodup c p n t : NoDup (made (runcmd p n c t)).
Proof. eapply sublist_NoDup; [apply pipes_nodup|apply runcmd_made]. Qed.

Lemma wait_fork1 p n c r m : wait_per_fork 0 c -> wait_per_fork (S m) r -> wait_per_fork m (fork1 fork_ok p n c r).
Proof. intros H1 H2. unfold fork1. by destruct (fork_ok (p ++ [n])). Qed.

Lemma runcmd_wait c : foreground c = true -> forall p n t, wait_per_fork 0 (runcmd p n c t).
Proof.
  induction c as [argv|c IH f m d|l IHl r IHr|l IHl r IHr|c IH]; cbn [foreground Sh.runcmd]; intros H p n t; [by destruct argv|..|done].
  - destruct (open open_ok f m _) as [[]|]; [by apply IH|done].
  - apply andb_true_iff in H as [H1 H2]. destruct (pipe pipe_ok p t) as [[[] ?]|]; [|done].
    apply wait_fork1; [by apply IHl|]. apply wait_fork1; [by apply IHr|]. cbn. lia.
  - apply andb_true_iff in H as [H1 H2]. apply wait_fork1; [by apply IHl|]. cbn. split; [lia|by apply IHr].
Qed.
End Run.

(** When every call succeeds every program runs. *)
Lemma runcmd_execs c : redir_ok c = true -> forall p n i o e,
  execs (runcmd (fun _ _ => true) (fun _ => true) (fun _ => true) p n c (std i o e)) = with_err e <$> programs p n c i o.
Proof.
  induction c as [argv|c IH f m d|l IHl r IHr|l IHl r IHr|c IH]; cbn [redir_ok runcmd programs]; intros H p n i o e.
  - by destruct argv.
  - apply andb_true_iff in H as [Hd H]. apply orb_true_iff in Hd. rewrite !Z.eqb_eq in Hd. rewrite close_open_std by done.
    destruct Hd as [->| ->]; cbn [Z.eqb]; by apply IH.
  - apply andb_true_iff in H as [H1 H2]. rewrite pipe_std, pipe_left, pipe_right, fmap_app. unfold fork1. cbn [execs].
    rewrite IHl, IHr by done. by rewrite app_nil_r.
  - apply andb_true_iff in H as [H1 H2]. rewrite fmap_app. unfold fork1. cbn [execs]. by rewrite IHl, IHr.
  - unfold fork1. cbn [execs]. by rewrite IH, app_nil_r.
Qed.
