(* ===== verification/ShTheorems.v ===== *)
(** * Theorems about the shell: parsing, running and reading commands *)

From S2P Require Import Prelude Sh ShSpec ShParse ShRun.

(** ** The words of a command *)

Fixpoint words (c : cmd) : list word :=
  match c with
  | EXEC argv => argv
  | REDIR c' file _ _ => words c' ++ [file]
  | PIPE l r => words l ++ words r
  | LIST l r => words l ++ words r
  | BACK c' => words c'
  end.

(** The words among the tokens. *)
Definition token_words (ts : list token) : list word :=
  omap (fun t => if t_kind t =? WORD then Some (t_word t) else None) ts.

Lemma token_words_app ts ts' : token_words (ts ++ ts') = token_words ts ++ token_words ts'.
Proof. apply omap_app. Qed.

Lemma token_words_other t ts : t_kind t <> WORD -> token_words (t :: ts) = token_words ts.
Proof. intros H. unfold token_words. cbn. by rewrite (proj2 (Z.eqb_neq _ _) H). Qed.

Lemma token_words_word t ts : t_kind t = WORD -> token_words (t :: ts) = t_word t :: token_words ts.
Proof. intros H. unfold token_words. cbn. by rewrite (proj2 (Z.eqb_eq _ _) H). Qed.

Lemma token_words_amps amps : Forall (fun t => t_kind t = AMP) amps -> token_words amps = [].
Proof. induction 1 as [|t amps Ht _ IH]; [done|]. by rewrite token_words_other by by rewrite Ht. Qed.

Lemma words_redircmd k c w : k ∈ [LESS; MORE; PLUS] -> words (redircmd k c w) = words c ++ [w].
Proof.
  intros H. assert (k = LESS \/ k = MORE \/ k = PLUS) as Hk by set_solver. by destruct Hk as [->|[->| ->]].
Qed.

Lemma words_redirect ts rs c : redirs ts rs -> words (redirect c rs) = words c ++ token_words ts.
Proof.
  intros H. revert c. induction H as [|o f ts rs Ho Hf _ IH]; intros c; [by rewrite app_nil_r|].
  unfold redirect. cbn [fold_left fst snd]. fold (redirect (redircmd (t_kind o) c (t_word f)) rs).
  rewrite IH, words_redircmd, token_words_other, token_words_word, <- app_assoc by (done || (intros E; rewrite E in Ho; vm_compute in Ho; set_solver)).
  done.
Qed.

(** A struct execcmd, perhaps inside redirections. *)
Fixpoint simple (c : cmd) : Prop :=
  match c with EXEC _ => True | REDIR c' _ _ _ => simple c' | _ => False end.

Lemma simple_redirect rs c : simple c -> simple (redirect c rs).
Proof.
  revert c. induction rs as [|[k w] rs IH]; intros c Hc; [done|]. apply IH. unfold redircmd. cbn [fst snd].
  repeat case_match; done.
Qed.

Lemma simple_add_arg w c : simple c -> simple (add_arg w c) /\ words (add_arg w c) ≡ₚ w :: words c.
Proof.
  induction c as [argv|c IH f m d| | |]; cbn; [|by intros H; destruct (IH H) as [? ->]; split|done..].
  intros _. split; [done|]. by rewrite Permutation_app_comm.
Qed.

Lemma words_args ts c c' n : args ts c c' n -> simple c -> words c' ≡ₚ words c ++ token_words ts.
Proof.
  induction 1 as [c|w rts rs ts c c' n Hw Hr _ IH]; intros Hc; [by rewrite app_nil_r|].
  destruct (simple_add_arg (t_word w) c Hc) as [Hs Hp]. rewrite IH by by apply simple_redirect.
  rewrite (words_redirect rts) by done. rewrite Hp, token_words_word, token_words_app by done. rewrite <- app_assoc. cbn.
  by rewrite Permutation_middle.
Qed.

Lemma words_iter n c : words (Nat.iter n BACK c) = words c.
Proof. by induction n. Qed.

(** The command has the words of the line. *)
Lemma derives_words l ts c : derives l ts c -> words c ≡ₚ token_words ts.
Proof.
  induction 1 as [rts rs ts c n Hr Ha _|o ts c cl rts rs Ho _ IH Hcl Hr| |ts c b ts' c' _ IH1 Hb _ IH2|ts c amps _ IH Ha
    |ts c amps se ts' c' _ IH1 Ha Hse _ IH2]; rewrite ?words_iter; cbn [words].
  - rewrite (words_args _ _ _ _ Ha) by by apply simple_redirect. by rewrite (words_redirect rts), token_words_app.
  - rewrite (words_redirect rts) by done.
    rewrite token_words_other, token_words_app, token_words_other by (rewrite ?Ho, ?Hcl; done). by rewrite IH.
  - done.
  - rewrite IH1, IH2, token_words_app, token_words_other by by rewrite Hb. done.
  - by rewrite IH, token_words_app, (token_words_amps amps), app_nil_r.
  - rewrite words_iter, IH1, IH2, !token_words_app, (token_words_amps amps), token_words_other by (done || by rewrite Hse). done.
Qed.

(** ** The stores of nulterminate *)

Definition nul_ends (ws : list word) (b : list Z) : list Z := fold_left (fun b w => <[snd w := 0]> b) ws b.

Lemma nulterminate_ends c b : nulterminate c b = nul_ends (words c) b.
Proof.
  revert b. induction c as [argv|c IH f m d|l IHl r IHr|l IHl r IHr|c IH]; intros b; cbn; [done|..].
  - unfold nul_ends. rewrite fold_left_app. cbn. by rewrite IH.
  - unfold nul_ends. rewrite fold_left_app. by rewrite IHl, IHr.
  - unfold nul_ends. rewrite fold_left_app. by rewrite IHl, IHr.
  - apply IH.
Qed.

Lemma nul_ends_length ws b : length (nul_ends ws b) = length b.
Proof. revert b. induction ws as [|w ws IH]; intros b; [done|]. cbn. unfold nul_ends in IH. by rewrite IH, length_insert. Qed.

Lemma nul_ends_other ws b k : (forall w, w ∈ ws -> snd w <> k) -> nul_ends ws b !! k = b !! k.
Proof.
  revert b. induction ws as [|w ws IH]; intros b H; [done|]. cbn. fold (nul_ends ws (<[snd w := 0]> b)).
  rewrite IH by set_solver. apply list_lookup_insert_ne, H. set_solver.
Qed.

Lemma nul_ends_zero ws b k : b !! k = Some 0 -> nul_ends ws b !! k = Some 0.
Proof.
  revert b. induction ws as [|w ws IH]; intros b H; [done|]. cbn. apply IH.
  destruct (decide (snd w = k)) as [->|]; [apply list_lookup_insert_eq; by eapply lookup_lt_Some|by rewrite list_lookup_insert_ne].
Qed.

Lemma nul_ends_in ws b w : w ∈ ws -> (snd w < length b)%nat -> nul_ends ws b !! snd w = Some 0.
Proof.
  intros Hw. revert b. induction Hw as [w ws|w v ws _ IH]; intros b Hl; cbn; [|apply IH; by rewrite length_insert].
  apply nul_ends_zero. by apply list_lookup_insert_eq.
Qed.

(** ** C strings *)

Lemma c_string_app u r : 0 ∉ u -> c_string (u ++ 0 :: r) = u.
Proof.
  induction u as [|x u IH]; intros H; [done|]. cbn. rewrite (proj2 (Z.eqb_neq x 0)) by set_solver. f_equal. apply IH. set_solver.
Qed.

(** The bytes of a word. *)
Definition text (buf : list Z) (w : word) : list Z := take (snd w - fst w) (drop (fst w) buf).

Lemma c_string_word buf b w : 0 ∉ buf -> (fst w <= snd w <= length buf)%nat ->
  (forall k, (fst w <= k < snd w)%nat -> b !! k = buf !! k) -> b !! snd w = Some 0 ->
  c_string (drop (fst w) b) = text buf w.
Proof.
  intros Hnul Hw Hin Hend. assert (take (snd w - fst w) (drop (fst w) b) = text buf w) as Ht.
  { apply list_eq. intros i. unfold text. destruct (decide (i < snd w - fst w)%nat) as [Hi|Hi].
    - rewrite !lookup_take_lt, !lookup_drop by done. apply Hin. lia.
    - by rewrite !lookup_take_ge by lia. }
  rewrite <- (take_drop (snd w - fst w) (drop (fst w) b)), Ht, drop_drop.
  replace (fst w + (snd w - fst w))%nat with (snd w) by lia. rewrite (drop_S _ 0) by done. apply c_string_app.
  unfold text. intros H. apply Hnul. apply elem_of_take in H as (i & H & _). rewrite lookup_drop in H. by eapply list_elem_of_lookup_2.
Qed.

(** The end of a word is not inside another one. *)
Lemma run_word_ends buf v w k : run_word buf v -> run_word buf w -> (fst v <= k < snd v)%nat -> snd w <> k.
Proof.
  intros (V1 & V2 & _) (_ & _ & W3) Hk <-. rewrite V2 in W3 by done. cbn in W3. apply Nat.ltb_ge in W3. lia.
Qed.

Lemma nulterminate_text buf c : 0 ∉ buf -> (forall w, w ∈ words c -> run_word buf w) ->
  forall w, w ∈ words c -> c_string (drop (fst w) (nulterminate c (buf ++ [0]))) = text buf w.
Proof.
  intros Hnul Hall w Hw. rewrite nulterminate_ends. pose proof (Hall w Hw) as (W1 & _). unfold es in W1. apply c_string_word; [done|lia|..].
  - intros k Hk. rewrite nul_ends_other; [apply lookup_app_l; lia|]. intros v Hv. by eapply (run_word_ends buf w v); [apply Hall..|].
  - apply nul_ends_in; [done|]. rewrite length_app. cbn. lia.
Qed.

(** ** parsecmd *)

Lemma parsecmd_sound buf c b s : 0 ∉ buf -> parsecmd buf = POk (c, b) s ->
  derives Line (tokens buf 0) c /\ b = nulterminate c (buf ++ [0]) /\ s = es buf.
Proof.
  intros Hnul. assert (at_toks buf 0 (tokens buf 0)) as Hat by (split; [lia|done]). unfold parsecmd.
  destruct (parseline buf (parse_fuel buf) 0) as [c1 s1| |] eqn:E; cbn [pbind]; [|done|done].
  apply (proj2 (parse_sound buf Hnul _) Line _ _ _ _ Hat) in E as (ts1 & ts2 & Ets & D & Hat1).
  edestruct (peek_at buf Hnul []) as (s2 & -> & Hat2); [set_solver|exact Hat1|].
  destruct (Nat.eqb_spec s2 (es buf)) as [Es|]; cbn [negb]; [|done]. intros [= <- <- <-].
  pose proof (tokens_length buf Hnul _ _ Hat2) as Hl2. destruct ts2; [|cbn in Hl2; lia].
  rewrite Ets, app_nil_r. done.
Qed.

(** C26: on every line without nul bytes parsecmd of user/sh.c returns, and it
    returns a command, with its words cut out of the line, exactly when the
    tokens of the line, as [lexes] defines them, derive that command in the
    grammar; on other lines it panics. *)
Theorem parsecmd_correct buf : 0 ∉ buf ->
  exists ts, lexes 0 buf ts /\ (forall ts', lexes 0 buf ts' -> ts' = ts) /\
  (forall c b s, parsecmd buf = POk (c, b) s <-> derives Line ts c /\ b = nulterminate c (buf ++ [0]) /\ s = es buf) /\
  parsecmd buf <> PFuel.
Proof.
  intros Hnul. assert (at_toks buf 0 (tokens buf 0)) as Hat by (split; [lia|done]).
  pose proof (tokens_length buf Hnul _ _ Hat) as Hlen. pose proof (tokens_lexes buf Hnul _ _ Hat) as Hlex. rewrite drop_0 in Hlex.
  exists (tokens buf 0). split; [done|]. split; [intros ts' H; by eapply lexes_fun|]. unfold parsecmd. split; [intros c b s; split|].
  - by apply parsecmd_sound.
  - intros (D & -> & ->). destruct (parse_complete buf Hnul Line _ _ D (parse_fuel buf) 0%nat []) as (s1 & E & Hat1).
    + by rewrite app_nil_r.
    + done.
    + cbn [rank]. unfold parse_fuel. lia.
    + cbn [parse] in E. rewrite E. cbn [pbind]. unfold peek.
      destruct (gettoken_end buf Hnul s1 Hat1) as (_ & _ & ->). by rewrite Nat.eqb_refl.
  - apply pbind_total; [|intros; unfold peek; by case_match].
    apply (parse_total buf Hnul _ Line 0%nat (tokens buf 0)); [done|]. cbn [rank]. unfold parse_fuel. lia.
Qed.

(** The line a <b|c;(d&)>>e. *)
Definition sample_line : list Z := [97; 32; 60; 98; 124; 99; 59; 40; 100; 38; 41; 62; 62; 101].

Lemma parsecmd_correct_witness : exists c b ts, parsecmd sample_line = POk (c, b) 14 /\ lexes 0 sample_line ts /\ derives Line ts c.
Proof.
  destruct (parsecmd_correct sample_line ltac:(unfold sample_line; set_solver)) as (ts & H1 & _ & H2 & _).
  eexists _, _, ts. split; [vm_compute; reflexivity|]. split; [exact H1|]. eapply H2. vm_compute. reflexivity.
Defined.

(** C28: the strings of the command that parsecmd returns are the words of the
    line: each of them once, in the buffer with its nuls, with the text it
    had. *)
Theorem parsecmd_words buf c b s : 0 ∉ buf -> parsecmd buf = POk (c, b) s ->
  (exists ts, lexes 0 buf ts /\ words c ≡ₚ token_words ts) /\ (forall w, w ∈ words c -> c_string (drop (fst w) b) = text buf w /\ text buf w <> []).
Proof.
  intros Hnul E. destruct (parsecmd_sound _ _ _ _ Hnul E) as (D & -> & _). pose proof (derives_words _ _ _ D) as Hp.
  assert (at_toks buf 0 (tokens buf 0)) as Hat by (split; [lia|done]).
  split; [exists (tokens buf 0); split; [by apply (tokens_lexes buf Hnul 0)|done]|]. assert (forall w, w ∈ words c -> run_word buf w) as Hrun.
  { intros w Hw. rewrite Hp in Hw. apply list_elem_of_omap in Hw as (t & Ht & Et).
    destruct (Z.eqb_spec (t_kind t) WORD) as [Ek|]; [|done]. injection Et as <-.
    pose proof (tokens_words buf Hnul 0 _ Hat) as Hall. rewrite Forall_forall in Hall. by apply Hall. }
  intros w Hw. split; [by apply nulterminate_text|]. destruct (Hrun w Hw) as (W1 & _). unfold es in W1. intros Hnil.
  apply (f_equal length) in Hnil. unfold text in Hnil. rewrite length_take, length_drop in Hnil. cbn in Hnil. lia.
Qed.

Lemma parsecmd_words_witness : c_string (drop 3 [97; 98; 0; 99; 0]) = text [97; 98; 60; 99] (3, 4)%nat /\ text [97; 98; 60; 99] (3, 4)%nat <> [].
Proof.
  destruct (parsecmd_words [97; 98; 60; 99] (REDIR (EXEC [(0, 2)%nat]) (3, 4)%nat 0 0) [97; 98; 0; 99; 0] 4) as [_ H];
    [set_solver|vm_compute; reflexivity|]. apply (H (3, 4)%nat). cbn. set_solver.
Defined.

(** ** Running the command of a line *)









(** ** Reading the lines *)

(** A line that fits the buffer of the shell. *)
Definition good_line (l : list Z) : Prop :=
  exists body, l = body ++ [10] /\ (10 ∉ body) /\ (13 ∉ body) /\ (0 ∉ body) /\ (length l < CMDBUF)%nat.

Lemma gets_line n body rest : 10 ∉ body -> 13 ∉ body -> (length body < n)%nat -> gets n (body ++ 10 :: rest) = (body ++ [10], rest).
Proof.
  revert n. induction body as [|x body IH]; intros n H1 H2 Hn; (destruct n as [|n]; [lia|]); [done|]. cbn.
  rewrite (proj2 (Z.eqb_neq x 10)), (proj2 (Z.eqb_neq x 13)) by set_solver. cbn.
  rewrite IH; [done|set_solver|set_solver|cbn in Hn; lia].
Qed.

Lemma getcmd_line l rest : good_line l -> getcmd (l ++ rest) = Some (l, rest).
Proof.
  intros (body & -> & H1 & H2 & H3 & Hl). unfold getcmd. rewrite length_app in Hl. cbn in Hl. rewrite <- app_assoc. cbn [app].
  rewrite gets_line by (done || lia). destruct body as [|x body]; [done|]. cbn.
  by rewrite (proj2 (Z.eqb_neq x 0)) by set_solver.
Qed.

Lemma c_string_whole l : 0 ∉ l -> c_string l = l.
Proof.
  induction l as [|x l IH]; intros H; [done|]. cbn. rewrite (proj2 (Z.eqb_neq x 0)) by set_solver. f_equal. apply IH. set_solver.
Qed.

Lemma act_cd path : 0 ∉ path -> act ([99; 100; 32] ++ path ++ [10]) = ACd path.
Proof.
  intros H. set (l := [99; 100; 32] ++ path ++ [10]).
  assert (0 ∉ l) as Hl by (unfold l; set_solver). 
  assert (act l = ACd (c_string (drop 3 (<[(length l - 1)%nat := 0]> (l ++ [0]))))) as -> by (unfold act; by rewrite (c_string_whole l)). f_equal.
  unfold l. rewrite !length_app. cbn [length]. replace (3 + (length path + 1) - 1)%nat with (3 + length path)%nat by lia.
  rewrite <- !app_assoc, (insert_app_r [99; 100; 32] _ (length path) 0). cbn [app drop].
  rewrite <- (Nat.add_0_r (length path)), insert_app_r. by apply c_string_app.
Qed.

Lemma act_run l : 0 ∉ l -> (forall path, l <> [99; 100; 32] ++ path) -> act l = ARun l.
Proof.
  intros H Hcd. unfold act. rewrite (c_string_whole l) by done. case_match eqn:E; [|done]. exfalso.
  rewrite !andb_true_iff, !Z.eqb_eq in E. destruct l as [|x [|y [|z l]]]; cbn in E; try lia. destruct E as [[-> ->] ->]. by eapply Hcd.
Qed.

Lemma main_loop_lines ls fuel : Forall good_line ls -> (length ls < fuel)%nat -> main_loop fuel (concat ls) = map act ls.
Proof.
  intros H. revert fuel. induction H as [|l ls Hl _ IH]; intros fuel Hf; (destruct fuel as [|fuel]; [lia|]); [done|].
  cbn [main_loop concat map]. rewrite getcmd_line by done. f_equal. apply IH. cbn in Hf. lia.
Qed.

Lemma lines_length ls : Forall good_line ls -> (length ls <= length (concat ls))%nat.
Proof.
  induction 1 as [|l ls (body & -> & _) _ IH]; [done|]. cbn [concat length]. rewrite !length_app. cbn. lia.
Qed.

(** The main loop of user/sh.c reads its input line by line: on lines of
    at most 99 bytes without nuls it changes directory to exactly the path
    after cd and a space, runs every other line whole, and stops at the end of
    the input. *)
Theorem main_reads_lines ls : Forall good_line ls ->
  main (concat ls) = map act ls /\
  (forall path, 0 ∉ path -> act ([99; 100; 32] ++ path ++ [10]) = ACd path) /\
  (forall l, l ∈ ls -> (forall path, l <> [99; 100; 32] ++ path) -> act l = ARun l).
Proof.
  intros H. split_and!; [|by apply act_cd|].
  - apply main_loop_lines; [done|]. pose proof (lines_length ls H). lia.
  - intros l Hl Hcd. apply act_run; [|done]. rewrite Forall_forall in H. destruct (H l Hl) as (body & -> & _ & _ & H3 & _). set_solver.
Qed.

Lemma main_reads_lines_witness : main [99; 100; 32; 47; 10; 108; 115; 10] = [ACd [47]; ARun [108; 115; 10]].
Proof.
  pose proof (main_reads_lines [[99; 100; 32; 47; 10]; [108; 115; 10]]) as H. destruct H as [H _]; [|exact H].
  constructor; [|constructor; [|constructor]].
  - exists [99; 100; 32; 47]. split_and!; try set_solver. cbn. unfold CMDBUF. lia.
  - exists [108; 115]. split_and!; try set_solver. cbn. unfold CMDBUF. lia.
Defined.
