(* ===== verification/CString.v ===== *)
(** * kernel/string.c: memory and string routines over byte memory

    The routines take the memory they read and return the memory they leave;
    pointers are addresses.  Each loop of the source is a fixpoint on the
    number of iterations left. *)

From S2P Require Import Prelude.

(** ** memset *)

Fixpoint memset_loop (k : nat) (m : mem) (cdst i c : Z) : mem :=
  match k with
  | O => m
  | S k' => memset_loop k' (wr m (cdst + i) c) cdst (i + 1) c
  end.

Definition memset (m : mem) (dst c n : Z) : mem := memset_loop (Z.to_nat (u32 n)) m dst 0 c.

(** ** memcmp *)

Fixpoint memcmp_loop (k : nat) (m : mem) (s1 s2 : Z) : Z :=
  match k with
  | O => 0
  | S k' =>
      if negb (rd m s1 =? rd m s2) then rd m s1 - rd m s2
      else memcmp_loop k' m (s1 + 1) (s2 + 1)
  end.

Definition memcmp (m : mem) (v1 v2 n : Z) : Z := memcmp_loop (Z.to_nat (u32 n)) m v1 v2.

(** ** memmove: copies backwards when the destination overlaps the end of the source *)

Fixpoint move_down (k : nat) (m : mem) (d s : Z) : mem :=
  match k with
  | O => m
  | S k' => move_down k' (wr m (d - 1) (rd m (s - 1))) (d - 1) (s - 1)
  end.

Fixpoint move_up (k : nat) (m : mem) (d s : Z) : mem :=
  match k with
  | O => m
  | S k' => move_up k' (wr m d (rd m s)) (d + 1) (s + 1)
  end.

Definition memmove (m : mem) (dst src n : Z) : mem :=
  let n := u32 n in
  if (src <? dst) && (dst <? src + n)
  then move_down (Z.to_nat n) m (dst + n) (src + n)
  else move_up (Z.to_nat n) m dst src.

Definition memcpy (m : mem) (dst src n : Z) : mem := memmove m dst src n.

(** ** strncmp, strncpy, safestrcpy, strlen *)

Fixpoint strncmp_loop (n : nat) (m : mem) (p q : Z) : Z :=
  match n with
  | O => 0
  | S n' =>
      if truthy (rd m p) && (rd m p =? rd m q) then strncmp_loop n' m (p + 1) (q + 1)
      else rd m p - rd m q
  end.

Definition strncmp (m : mem) (p q n : Z) : Z := strncmp_loop (Z.to_nat (u32 n)) m p q.

(** the second loop of strncpy: pad with NUL *)
Fixpoint strncpy_pad (n : nat) (m : mem) (s : Z) : mem :=
  match n with
  | O => m
  | S n' => strncpy_pad n' (wr m s 0) (s + 1)
  end.

Fixpoint strncpy_loop (n : nat) (m : mem) (s t : Z) : mem :=
  match n with
  | O => m
  | S n' =>
      let c := rd m t in
      let m := wr m s c in
      if c =? 0 then strncpy_pad n' m (s + 1) else strncpy_loop n' m (s + 1) (t + 1)
  end.

Definition strncpy (m : mem) (s t n : Z) : mem := strncpy_loop (Z.to_nat n) m s t.

(** the loop of safestrcpy runs while [--n > 0]: [k] is the decremented [n] *)
Fixpoint safestrcpy_loop (k : nat) (m : mem) (s t : Z) : mem :=
  match k with
  | O => wr m s 0
  | S k' =>
      let c := rd m t in
      let m := wr m s c in
      if c =? 0 then wr m (s + 1) 0 else safestrcpy_loop k' m (s + 1) (t + 1)
  end.

Definition safestrcpy (m : mem) (s t n : Z) : mem :=
  if n <=? 0 then m else safestrcpy_loop (Z.to_nat (n - 1)) m s t.

(** strlen: memory is finite, so a NUL is found within [size m] bytes. *)
Fixpoint strlen_loop (k : nat) (m : mem) (s n : Z) : Z :=
  match k with
  | O => n
  | S k' => if truthy (rd m (s + n)) then strlen_loop k' m s (n + 1) else n
  end.

Definition strlen (m : mem) (s : Z) : Z := strlen_loop (S (size m)) m s 0.

#[global] Arguments memset : simpl never.
#[global] Arguments memcmp : simpl never.
#[global] Arguments memmove : simpl never.
#[global] Arguments memcpy : simpl never.
#[global] Arguments strncmp : simpl never.
#[global] Arguments strncpy : simpl never.
#[global] Arguments safestrcpy : simpl never.
#[global] Arguments strlen : simpl never.

(** ** Specifications *)

(** The C string at [a], cut at [k] bytes. *)
Fixpoint str_upto (k : nat) (m : mem) (a : Z) : list Z :=
  match k with
  | O => []
  | S k' => if rd m a =? 0 then [] else rd m a :: str_upto k' m (a + 1)
  end.

(** [m'] differs from [m] only in [n] bytes from [a]. *)
Definition only_range (m : mem) (a n : Z) (m' : mem) : Prop :=
  forall b, b < a \/ a + n <= b -> rd m' b = rd m b.

Lemma rd_memset_loop k m d i c b :
  rd (memset_loop k m d i c) b =
  if (d + i <=? b) && (b <? d + i + Z.of_nat k) then u8 c else rd m b.
Proof.
  revert m i. induction k as [|k IH]; intros m i; cbn [memset_loop].
  { destruct (Z.leb_spec (d + i) b), (Z.ltb_spec b (d + i + Z.of_nat 0)); simpl; done || lia. }
  rewrite IH, rd_wr.
  destruct (Z.eqb_spec (d + i) b), (Z.leb_spec (d + (i + 1)) b), (Z.leb_spec (d + i) b),
    (Z.ltb_spec b (d + (i + 1) + Z.of_nat k)), (Z.ltb_spec b (d + i + Z.of_nat (S k)));
    simpl; done || lia.
Qed.

Lemma rd_memset m d c n b :
  0 <= n < 4294967296 ->
  rd (memset m d c n) b = if (d <=? b) && (b <? d + n) then u8 c else rd m b.
Proof.
  intros Hn. unfold memset. rewrite rd_memset_loop, u32_small by done.
  by rewrite Z.add_0_r, Z2Nat.id by lia.
Qed.

Lemma rd_move_up k m d s b :
  (d <= s \/ s + Z.of_nat k <= d) ->
  rd (move_up k m d s) b =
  if (d <=? b) && (b <? d + Z.of_nat k) then rd m (s + (b - d)) else rd m b.
Proof.
  revert m d s. induction k as [|k IH]; intros m d s Hov; cbn [move_up].
  { destruct (Z.leb_spec d b), (Z.ltb_spec b (d + Z.of_nat 0)); simpl; done || lia. }
  rewrite IH by lia. rewrite !rd_wr, (u8_small (rd m s)) by apply rd_range.
  destruct (Z.leb_spec (d + 1) b), (Z.leb_spec d b), (Z.ltb_spec b (d + 1 + Z.of_nat k)),
    (Z.ltb_spec b (d + Z.of_nat (S k))); simpl; try lia;
  repeat match goal with |- context [?x =? ?y] => destruct (Z.eqb_spec x y); try lia end;
  done || (f_equal; lia).
Qed.

Lemma rd_move_down k m d s b :
  s <= d ->
  rd (move_down k m d s) b =
  if (d - Z.of_nat k <=? b) && (b <? d) then rd m (s + (b - d)) else rd m b.
Proof.
  revert m d s. induction k as [|k IH]; intros m d s Hov; cbn [move_down].
  { destruct (Z.leb_spec (d - Z.of_nat 0) b), (Z.ltb_spec b d); simpl; done || lia. }
  rewrite IH by lia. rewrite !rd_wr, (u8_small (rd m (s - 1))) by apply rd_range.
  destruct (Z.leb_spec (d - 1 - Z.of_nat k) b), (Z.ltb_spec b (d - 1)),
    (Z.leb_spec (d - Z.of_nat (S k)) b), (Z.ltb_spec b d); simpl; try lia;
  repeat match goal with |- context [?x =? ?y] => destruct (Z.eqb_spec x y); try lia end;
  done || (f_equal; lia).
Qed.

(** memmove copies the bytes the source had before the call, whatever the
    overlap of the two areas, and leaves the rest of memory alone. *)
Lemma rd_memmove m dst src n b :
  0 <= n < 4294967296 ->
  rd (memmove m dst src n) b =
  if (dst <=? b) && (b <? dst + n) then rd m (src + (b - dst)) else rd m b.
Proof.
  intros Hn. unfold memmove. rewrite u32_small by done.
  destruct (Z.ltb_spec src dst), (Z.ltb_spec dst (src + n)); simpl.
  1: { rewrite rd_move_down by lia. rewrite Z2Nat.id by lia.
       replace (dst + n - n) with dst by lia.
       replace (src + n + (b - (dst + n))) with (src + (b - dst)) by lia. done. }
  all: rewrite rd_move_up by (rewrite Z2Nat.id; lia); by rewrite Z2Nat.id by lia.
Qed.

Lemma memset_only_range m d c n : 0 <= n < 4294967296 -> only_range m d n (memset m d c n).
Proof.
  intros Hn b Hb. rewrite rd_memset by done.
  destruct (Z.leb_spec d b), (Z.ltb_spec b (d + n)); simpl; done || lia.
Qed.

Lemma memmove_only_range m d s n : 0 <= n < 4294967296 -> only_range m d n (memmove m d s n).
Proof.
  intros Hn b Hb. rewrite rd_memmove by done.
  destruct (Z.leb_spec d b), (Z.ltb_spec b (d + n)); simpl; done || lia.
Qed.

Lemma wr_only_range m a v : only_range m a 1 (wr m a v).
Proof. intros b Hb. rewrite rd_wr. destruct (Z.eqb_spec a b); done || lia. Qed.

Lemma only_range_trans m a n m' b k m'' a0 n0 :
  only_range m a n m' -> only_range m' b k m'' ->
  a0 <= a -> a + n <= a0 + n0 -> a0 <= b -> b + k <= a0 + n0 ->
  only_range m a0 n0 m''.
Proof. intros H1 H2 ???? c Hc. rewrite H2, H1; lia || done. Qed.

Lemma str_upto_ext k m m' a a' :
  (forall i, 0 <= i < Z.of_nat k -> rd m (a + i) = rd m' (a' + i)) ->
  str_upto k m a = str_upto k m' a'.
Proof.
  revert a a'. induction k as [|k IH]; intros a a' H; cbn [str_upto]; [done|].
  pose proof (H 0 ltac:(lia)) as H0. rewrite !Z.add_0_r in H0. rewrite H0.
  case_match; [done|]. f_equal. apply IH. intros i Hi.
  replace (a + 1 + i) with (a + (i + 1)) by lia.
  replace (a' + 1 + i) with (a' + (i + 1)) by lia. apply H. lia.
Qed.

Lemma str_upto_length k m a : (length (str_upto k m a) <= k)%nat.
Proof.
  revert a. induction k as [|k IH]; intros a; cbn [str_upto]; [done|].
  case_match; simpl; [lia|]. specialize (IH (a + 1)). lia.
Qed.

Lemma strncmp_loop_zero n m p q :
  strncmp_loop n m p q = 0 <-> str_upto n m p = str_upto n m q.
Proof.
  revert p q. induction n as [|n IH]; intros p q; cbn [strncmp_loop str_upto]; [done|].
  unfold truthy.
  destruct (Z.eqb_spec (rd m p) 0) as [Hp|Hp], (Z.eqb_spec (rd m q) 0) as [Hq|Hq]; simpl.
  - split; [done|lia].
  - split; [lia|done].
  - destruct (Z.eqb_spec (rd m p) (rd m q)); split; done || lia.
  - destruct (Z.eqb_spec (rd m p) (rd m q)) as [He|He].
    + rewrite IH, He. split; [by intros ->|by intros [=]].
    + split; [lia|by intros [=]].
Qed.

Lemma strncmp_loop_sym n m p q : strncmp_loop n m q p = - strncmp_loop n m p q.
Proof.
  revert p q. induction n as [|n IH]; intros p q; cbn [strncmp_loop]; [done|].
  unfold truthy. rewrite IH.
  destruct (Z.eqb_spec (rd m p) 0), (Z.eqb_spec (rd m q) 0),
    (Z.eqb_spec (rd m p) (rd m q)), (Z.eqb_spec (rd m q) (rd m p)); simpl; lia.
Qed.

Lemma rd_strncpy_pad n m s b :
  rd (strncpy_pad n m s) b = if (s <=? b) && (b <? s + Z.of_nat n) then 0 else rd m b.
Proof.
  revert m s. induction n as [|n IH]; intros m s; cbn [strncpy_pad].
  { destruct (Z.leb_spec s b), (Z.ltb_spec b (s + Z.of_nat 0)); simpl; done || lia. }
  rewrite IH, rd_wr.
  destruct (Z.eqb_spec s b), (Z.leb_spec (s + 1) b), (Z.leb_spec s b),
    (Z.ltb_spec b (s + 1 + Z.of_nat n)), (Z.ltb_spec b (s + Z.of_nat (S n)));
    simpl; done || lia.
Qed.

(** strncpy into an area that does not overlap the [n] bytes it reads: the
    destination holds the string padded with NULs to exactly [n] bytes. *)
Lemma rd_strncpy_loop n m s t b :
  (s + Z.of_nat n <= t \/ t + Z.of_nat n <= s) ->
  rd (strncpy_loop n m s t) b =
  if (s <=? b) && (b <? s + Z.of_nat n)
  then default 0 (str_upto n m t !! Z.to_nat (b - s)) else rd m b.
Proof.
  revert m s t. induction n as [|n IH]; intros m s t Hov; cbn [strncpy_loop str_upto].
  { destruct (Z.leb_spec s b), (Z.ltb_spec b (s + Z.of_nat 0)); simpl; done || lia. }
  pose proof (rd_range m t).
  destruct (Z.eqb_spec (rd m t) 0) as [Hz|Hz].
  - rewrite rd_strncpy_pad, rd_wr, Hz, lookup_nil. simpl.
    destruct (Z.eqb_spec s b), (Z.leb_spec (s + 1) b), (Z.leb_spec s b),
      (Z.ltb_spec b (s + 1 + Z.of_nat n)), (Z.ltb_spec b (s + Z.of_nat (S n)));
      simpl; done || lia.
  - rewrite IH by lia. rewrite rd_wr, (u8_small (rd m t)) by done.
    rewrite (str_upto_ext n (wr m s (rd m t)) m (t + 1) (t + 1)).
    2: { intros i Hi. rewrite rd_wr. destruct (Z.eqb_spec s (t + 1 + i)); done || lia. }
    destruct (Z.eqb_spec s b) as [<-|Hne].
    + destruct (Z.leb_spec (s + 1) s), (Z.leb_spec s s), (Z.ltb_spec s (s + Z.of_nat (S n)));
        try lia; simpl. by rewrite Z.sub_diag.
    + destruct (Z.leb_spec (s + 1) b), (Z.leb_spec s b), (Z.ltb_spec b (s + 1 + Z.of_nat n)),
        (Z.ltb_spec b (s + Z.of_nat (S n))); simpl; try lia; try done.
      replace (Z.to_nat (b - s)) with (S (Z.to_nat (b - (s + 1)))) by lia. done.
Qed.

Lemma safestrcpy_loop_only k m s t :
  only_range m s (Z.of_nat k + 1) (safestrcpy_loop k m s t).
Proof.
  revert m s t. induction k as [|k IH]; intros m s t; cbn [safestrcpy_loop].
  { apply (wr_only_range m s 0). }
  case_match.
  - eapply only_range_trans; [apply wr_only_range|apply wr_only_range|lia..].
  - eapply only_range_trans; [apply wr_only_range|apply IH|lia..].
Qed.

Lemma str_upto_safestrcpy k m s t :
  (s + Z.of_nat k < t \/ t + Z.of_nat k <= s) ->
  str_upto (S k) (safestrcpy_loop k m s t) s = str_upto k m t.
Proof.
  revert m s t. induction k as [|k IH]; intros m s t Hov; cbn [safestrcpy_loop].
  { cbn [str_upto]. by rewrite rd_wr, Z.eqb_refl. }
  cbn [str_upto]. pose proof (rd_range m t).
  destruct (Z.eqb_spec (rd m t) 0) as [Hz|Hz].
  - rewrite rd_wr, rd_wr, Z.eqb_refl, Hz. destruct (Z.eqb_spec (s + 1) s); [lia|done].
  - rewrite (safestrcpy_loop_only k _ (s + 1) (t + 1) s) by lia.
    rewrite rd_wr, Z.eqb_refl, u8_small by done.
    destruct (Z.eqb_spec (rd m t) 0); [done|]. f_equal.
    change (str_upto (S k) (safestrcpy_loop k (wr m s (rd m t)) (s + 1) (t + 1)) (s + 1) =
            str_upto k m (t + 1)).
    rewrite IH by lia. apply str_upto_ext. intros i Hi. rewrite rd_wr.
    destruct (Z.eqb_spec s (t + 1 + i)); done || lia.
Qed.

(** A run of [k] non-zero bytes needs [k] entries of the memory map. *)
Lemma nonzero_run_size k m s :
  (forall i, 0 <= i < Z.of_nat k -> rd m (s + i) <> 0) -> (k <= size m)%nat.
Proof.
  intros H. set (l := (fun i => s + Z.of_nat i) <$> seq 0 k).
  assert (NoDup l) as Hnd.
  { apply NoDup_fmap_2; [intros x y Hxy; lia|apply NoDup_seq]. }
  assert (list_to_set l ⊆@{gset Z} dom m) as Hsub.
  { intros x Hx. rewrite elem_of_list_to_set in Hx. unfold l in Hx.
    apply list_elem_of_fmap in Hx as (i & -> & Hi%elem_of_seq).
    apply elem_of_dom, rd_nonzero_lookup, H. lia. }
  apply subseteq_size in Hsub. rewrite size_list_to_set, size_dom in Hsub by done.
  unfold l in Hsub. rewrite length_fmap, length_seq in Hsub. done.
Qed.

Lemma strlen_loop_spec k m s n :
  0 <= n -> (forall i, 0 <= i < n -> rd m (s + i) <> 0) ->
  let r := strlen_loop k m s n in
  n <= r <= n + Z.of_nat k /\ (forall i, 0 <= i < r -> rd m (s + i) <> 0) /\
  (rd m (s + r) = 0 \/ r = n + Z.of_nat k).
Proof.
  revert n. induction k as [|k IH]; intros n Hn Hpre; cbn [strlen_loop].
  { split_and!; [lia..|done|right; lia]. }
  unfold truthy. destruct (Z.eqb_spec (rd m (s + n)) 0) as [Hz|Hz]; simpl.
  { split_and!; [lia..|done|by left]. }
  destruct (IH (n + 1)) as (Hr & Hall & Hend); [lia| |].
  { intros i Hi. destruct (decide (i = n)) as [->|]; [done|]. apply Hpre. lia. }
  split_and!; [lia..|done|]. destruct Hend; [by left|right; lia].
Qed.

Lemma strlen_spec m s :
  0 <= strlen m s /\ rd m (s + strlen m s) = 0 /\
  forall i, 0 <= i < strlen m s -> rd m (s + i) <> 0.
Proof.
  destruct (strlen_loop_spec (S (size m)) m s 0) as (Hr & Hall & Hend); [lia|lia|].
  fold (strlen m s) in *. split_and!; [lia| |done].
  destruct Hend as [|He]; [done|]. exfalso.
  enough (S (size m) <= size m)%nat by lia.
  apply (nonzero_run_size _ m s). intros i Hi. apply Hall. lia.
Qed.

(** Memmove copies correctly whatever the overlap: the destination holds the
    bytes the source held, and no other byte changes. *)
Theorem memmove_copies m dst src n :
  0 <= n < 4294967296 ->
  (forall i, 0 <= i < n -> rd (memmove m dst src n) (dst + i) = rd m (src + i)) /\
  only_range m dst n (memmove m dst src n).
Proof.
  intros Hn. split; [|by apply memmove_only_range]. intros i Hi. rewrite rd_memmove by done.
  destruct (Z.leb_spec dst (dst + i)), (Z.ltb_spec (dst + i) (dst + n)); try lia.
  cbn [andb]. f_equal. lia.
Qed.

(** Moving two bytes up by one. *)
Lemma memmove_copies_witness :
  rd (memmove (wr (wr ∅ 100 7) 101 8) 101 100 2) (101 + 1) = rd (wr (wr ∅ 100 7) 101 8) (100 + 1).
Proof. apply (memmove_copies (wr (wr ∅ 100 7) 101 8) 101 100 2); lia. Defined.

(** Safestrcpy leaves a nul-terminated string in the [n] bytes it may write: the
    source string cut to [n - 1] bytes. *)
Theorem safestrcpy_terminated m s t n :
  0 < n -> (s + n <= t \/ t + n <= s) ->
  str_upto (Z.to_nat n) (safestrcpy m s t n) s = str_upto (Z.to_nat (n - 1)) m t /\
  Z.of_nat (length (str_upto (Z.to_nat n) (safestrcpy m s t n) s)) < n /\
  only_range m s n (safestrcpy m s t n).
Proof.
  intros Hn Hov. unfold safestrcpy. destruct (Z.leb_spec n 0); [lia|].
  replace (Z.to_nat n) with (S (Z.to_nat (n - 1))) by lia.
  rewrite str_upto_safestrcpy by lia. split_and!; [done| |].
  - pose proof (str_upto_length (Z.to_nat (n - 1)) m t). lia.
  - intros b Hb. apply (safestrcpy_loop_only (Z.to_nat (n - 1)) m s t). lia.
Qed.

(** A source of three bytes into a buffer of two. *)
Lemma safestrcpy_terminated_witness :
  let m := wr (wr (wr ∅ 100 65) 101 66) 102 67 in
  str_upto (Z.to_nat 2) (safestrcpy m 200 100 2) 200 = str_upto (Z.to_nat (2 - 1)) m 100.
Proof.
  intros m. apply (safestrcpy_terminated m 200 100 2); lia.
Defined.

(** strlen returns the index of the first nul, on every memory. *)
Theorem strlen_correct m s :
  0 <= strlen m s /\ rd m (s + strlen m s) = 0 /\
  forall i, 0 <= i < strlen m s -> rd m (s + i) <> 0.
Proof. apply strlen_spec. Qed.

Lemma strlen_correct_witness : rd (wr ∅ 100 65) (100 + strlen (wr ∅ 100 65) 100) = 0.
Proof. apply (strlen_correct (wr ∅ 100 65) 100). Defined.

#[global] Opaque memset memcmp memmove strncmp strncpy safestrcpy strlen.
