(* ===== verification/Ulib.v ===== *)
(** * user/ulib.c: strings and memory of user programs

    As for kernel/string.c, the routines take the memory they read and return
    the memory they leave.  A loop that runs to the end of a string is a
    fixpoint on a number of turns that memory, being finite, bounds; a string
    whose end the loop itself overwrites has none.  [atoi] takes the bytes of
    its string.  strchr is in Grep.v and gets in Sh.v, as these use them. *)

From S2P Require Import Prelude CString User.

Local Open Scope user_scope.

(** ** Strings *)

Fixpoint strcpy_loop (k : nat) (m : mem) (s t : Z) : option mem :=
  match k with
  | O => None
  | S k' =>
      let c := rd m t in
      let m := wr m s c in
      if c =? 0 then Some m else strcpy_loop k' m (s + 1) (t + 1)
  end.

Definition strcpy (m : mem) (s t : Z) : option mem := strcpy_loop (S (size m)) m s t.

Fixpoint strcmp_loop (k : nat) (m : mem) (p q : Z) : Z :=
  match k with
  | O => 0
  | S k' =>
      if truthy (rd m p) && (rd m p =? rd m q) then strcmp_loop k' m (p + 1) (q + 1)
      else rd m p - rd m q
  end.

Definition strcmp (m : mem) (p q : Z) : Z := strcmp_loop (S (size m)) m p q.

Fixpoint ustrlen_loop (k : nat) (m : mem) (s n : Z) : Z :=
  match k with
  | O => n
  | S k' => if truthy (rd m (s + n)) then ustrlen_loop k' m s (n + 1) else n
  end.

Definition ustrlen (m : mem) (s : Z) : Z := ustrlen_loop (S (size m)) m s 0.

(** ** Memory *)

Fixpoint umemset_loop (k : nat) (m : mem) (cdst i c : Z) : mem :=
  match k with
  | O => m
  | S k' => umemset_loop k' (wr m (cdst + i) c) cdst (i + 1) c
  end.

Definition umemset (m : mem) (dst c n : Z) : mem := umemset_loop (Z.to_nat (u32 n)) m dst 0 c.

(** Forwards when the source is above the destination, else backwards. *)
Definition umemmove (m : mem) (vdst vsrc n : Z) : mem :=
  if vdst <? vsrc then move_up (Z.to_nat n) m vdst vsrc
  else move_down (Z.to_nat n) m (vdst + n) (vsrc + n).

Fixpoint umemcmp_loop (n : nat) (m : mem) (p1 p2 : Z) : Z :=
  match n with
  | O => 0
  | S n' => if negb (rd m p1 =? rd m p2) then rd m p1 - rd m p2 else umemcmp_loop n' m (p1 + 1) (p2 + 1)
  end.

Definition umemcmp (m : mem) (s1 s2 n : Z) : Z := umemcmp_loop (Z.to_nat (u32 n)) m s1 s2.

Definition umemcpy (m : mem) (dst src n : Z) : mem := umemmove m dst src (s32 n).

(** ** Numbers, and stat *)

Fixpoint atoi_loop (s : list Z) (n : Z) : Z :=
  match s with
  | c :: s' => if (48 <=? c) && (c <=? 57) then atoi_loop s' (s32 (n * 10 + c - 48)) else n
  | [] => n
  end.

Definition atoi (s : list Z) : Z := atoi_loop s 0.

Definition O_RDONLY : Z := 0.

(** The result and the struct stat. *)
Definition ustat (n : list Z) : U (Z * list Z) :=
  let? fd := open n O_RDONLY in
  if fd <? 0 then uret (-1, []) else
  let? r := call (Sfstat fd) in
  close fd ;?
  uret (a_ret r, a_data r).

(** ** What they do *)

(** Exactly the [n] bytes at [vdst] change, to what the [n] bytes at [vsrc] were,
    however the two overlap. *)
Lemma umemmove_spec m vdst vsrc n b : 0 <= n ->
  rd (umemmove m vdst vsrc n) b = if (vdst <=? b) && (b <? vdst + n) then rd m (vsrc + (b - vdst)) else rd m b.
Proof.
  intros Hn. unfold umemmove. destruct (Z.ltb_spec vdst vsrc).
  - rewrite rd_move_up, Z2Nat.id by lia. done.
  - rewrite rd_move_down, Z2Nat.id by lia. replace (vdst + n - n) with vdst by lia. by replace (vsrc + n + (b - (vdst + n))) with (vsrc + (b - vdst)) by lia.
Qed.

(** strcmp compares the strings, byte by byte: 0 when they are the same, else
    the difference at the first place where they differ. *)
Lemma strcmp_loop_spec k : forall m p q, exists j, (j <= k)%nat /\
  (forall i, 0 <= i < Z.of_nat j -> rd m (p + i) = rd m (q + i) /\ rd m (p + i) <> 0) /\
  ((j < k)%nat -> strcmp_loop k m p q = rd m (p + Z.of_nat j) - rd m (q + Z.of_nat j) /\ (rd m (p + Z.of_nat j) = rd m (q + Z.of_nat j) -> rd m (p + Z.of_nat j) = 0)).
Proof.
  induction k as [|k IH]; intros m p q; [exists 0%nat; split_and!; [lia|lia|lia]|]. cbn [strcmp_loop]. unfold truthy.
  destruct (Z.eqb_spec (rd m p) 0) as [E0|E0]; [|destruct (Z.eqb_spec (rd m p) (rd m q)) as [E|E]]; cbn [negb andb].
  - exists 0%nat. rewrite !Z.add_0_r. split_and!; [lia|lia|done].
  - destruct (IH m (p + 1) (q + 1)) as (j & Hj & Hb & Hr). exists (S j). split_and!; [lia| |].
    + intros i Hi. destruct (decide (i = 0)) as [->|Hi0]; [by rewrite !Z.add_0_r|]. specialize (Hb (i - 1) ltac:(lia)). by replace (p + 1 + (i - 1)) with (p + i) in Hb by lia; replace (q + 1 + (i - 1)) with (q + i) in Hb by lia.
    + intros Hlt. specialize (Hr ltac:(lia)). replace (p + 1 + Z.of_nat j) with (p + Z.of_nat (S j)) in Hr by lia. by replace (q + 1 + Z.of_nat j) with (q + Z.of_nat (S j)) in Hr by lia.
  - exists 0%nat. rewrite !Z.add_0_r. split_and!; [lia|lia|]. intros _. split; [done|congruence].
Qed.

(** The C string at [a] has [n] bytes. *)
Definition string_at (m : mem) (a n : Z) : Prop := 0 <= n /\ rd m (a + n) = 0 /\ forall i, 0 <= i < n -> rd m (a + i) <> 0.

Lemma string_at_size m a n : string_at m a n -> (Z.to_nat n <= size m)%nat.
Proof. intros (Hn & _ & H). apply (nonzero_run_size _ m a). intros i Hi. apply H. lia. Qed.

Lemma strcmp_spec m p q : exists j, 0 <= j /\ (forall i, 0 <= i < j -> rd m (p + i) = rd m (q + i) /\ rd m (p + i) <> 0) /\
  strcmp m p q = rd m (p + j) - rd m (q + j) /\ (rd m (p + j) = rd m (q + j) -> rd m (p + j) = 0).
Proof.
  destruct (strcmp_loop_spec (S (size m)) m p q) as (j & Hj & Hb & Hr). assert (j <= size m)%nat as Hs by (apply (nonzero_run_size _ m p); intros i Hi; apply Hb; lia).
  exists (Z.of_nat j). destruct (Hr ltac:(lia)). split_and!; [lia|done|done|done].
Qed.

Lemma rd_u8 m a : u8 (rd m a) = rd m a.
Proof. unfold u8. apply Z.mod_small, rd_range. Qed.

(** strcpy copies the string and its nul, when the copy does not run into it. *)
Lemma strcpy_loop_spec k : forall m s t n, string_at m t n -> (s + n < t \/ t + n < s) -> n < Z.of_nat k ->
  exists m', strcpy_loop k m s t = Some m' /\ (forall i, 0 <= i <= n -> rd m' (s + i) = rd m (t + i)) /\ only_range m s (n + 1) m'.
Proof.
  induction k as [|k IH]; intros m s t n (Hn & Hz & Hnz) Hov Hk; [lia|]. cbn [strcpy_loop]. destruct (Z.eqb_spec (rd m t) 0) as [E|E].
  - assert (n = 0) as -> by (destruct (decide (n = 0)); [done|]; exfalso; apply (Hnz 0); [lia|by rewrite Z.add_0_r]).
    eexists. split; [done|]. split; [intros i Hi; replace i with 0 by lia; by rewrite !Z.add_0_r, rd_wr, Z.eqb_refl, rd_u8|apply wr_only_range].
  - assert (0 < n) as Hpos by (destruct (decide (n = 0)) as [->|]; [by rewrite Z.add_0_r in Hz|lia]).
    assert (forall a, t <= a <= t + n -> rd (wr m s (rd m t)) a = rd m a) as Hsame by (intros a Ha; rewrite rd_wr, (proj2 (Z.eqb_neq s a)) by lia; done).
    destruct (IH (wr m s (rd m t)) (s + 1) (t + 1) (n - 1)) as (m' & E' & Hc & Ho); [split_and!; [lia| |]|lia|lia|].
    + replace (t + 1 + (n - 1)) with (t + n) by lia. by rewrite Hsame by lia.
    + intros i Hi. rewrite Hsame by lia. replace (t + 1 + i) with (t + (i + 1)) by lia. apply Hnz. lia.
    + exists m'. split; [done|]. split.
      * intros i Hi. destruct (decide (i = 0)) as [->|Hi0].
        -- rewrite !Z.add_0_r, (Ho s) by lia. by rewrite rd_wr, Z.eqb_refl, rd_u8.
        -- specialize (Hc (i - 1) ltac:(lia)). replace (s + 1 + (i - 1)) with (s + i) in Hc by lia. replace (t + 1 + (i - 1)) with (t + i) in Hc by lia. by rewrite Hc, Hsame by lia.
      * intros b Hb. rewrite (Ho b) by lia. rewrite rd_wr, (proj2 (Z.eqb_neq s b)) by lia. done.
Qed.
