(* ===== verification/Uprintf.v ===== *)
(** * user/printf.c: formatted output of user programs

    Every character is one write of one byte.  The variadic arguments are 64-bit
    words or string pointers; one that is missing, or of the other kind, is read
    as 0. *)

From S2P Require Import Prelude User Ulib.

Local Open Scope user_scope.

(** ** printint and printptr *)

(** [digits[i]]: upper case. *)
Definition udigit (i : Z) : Z := if i <? 10 then 48 + i else 55 + i.

Definition putc (fd c : Z) : U unit := uwrite fd [u8 c] ;? uret tt.

Fixpoint puts (fd : Z) (text : list Z) : U unit :=
  match text with
  | [] => uret tt
  | c :: text' => putc fd c ;? puts fd text'
  end.

(** The do-while loop of printint; least significant digit first. *)
Fixpoint uprintint_loop (fuel : nat) (x base : Z) : list Z :=
  match fuel with
  | O => []
  | S fuel' => udigit (x mod base) :: (if x / base =? 0 then [] else uprintint_loop fuel' (x / base) base)
  end.

Definition uprintint_buf (xx base : Z) (sgn : bool) : list Z :=
  let neg := sgn && (xx <? 0) in
  let x := u32 (if neg then - xx else xx) in
  uprintint_loop 32 x base ++ (if neg then [45] else []).

Definition uprintint (fd xx base : Z) (sgn : bool) : U unit := puts fd (rev (uprintint_buf xx base sgn)).

Fixpoint uprintptr_loop (n : nat) (fd x : Z) : U unit :=
  match n with
  | O => uret tt
  | S n' => putc fd (udigit (Z.shiftr x 60)) ;? uprintptr_loop n' fd (u64 (Z.shiftl x 4))
  end.

Definition uprintptr (fd x : Z) : U unit := putc fd 48 ;? putc fd 120 ;? uprintptr_loop 16 fd x.

(** ** vprintf *)

Inductive uarg := UWord (x : Z) | UStr (s : option (list Z)).

Definition va_word (a : list uarg) : Z := match a with UWord x :: _ => u64 x | _ => 0 end.
Definition va_int (a : list uarg) : Z := s32 (va_word a).
Definition va_str (a : list uarg) : list Z := match a with UStr (Some s) :: _ => s | _ => str "(null)" end.

(** [state]: whether the last character was a percent sign. *)
Fixpoint vprintf_loop (fd : Z) (fmt : list Z) (state : bool) (a : list uarg) : U unit :=
  match fmt with
  | [] => uret tt
  | c :: fmt' =>
      let c := u8 c in
      if negb state then
        if c =? 37 then vprintf_loop fd fmt' true a
        else putc fd c ;? vprintf_loop fd fmt' false a
      else
        if c =? 100 then uprintint fd (va_int a) 10 true ;? vprintf_loop fd fmt' false (tail a)
        else if c =? 108 then uprintint fd (s32 (va_word a)) 10 false ;? vprintf_loop fd fmt' false (tail a)
        else if c =? 120 then uprintint fd (va_int a) 16 false ;? vprintf_loop fd fmt' false (tail a)
        else if c =? 112 then uprintptr fd (va_word a) ;? vprintf_loop fd fmt' false (tail a)
        else if c =? 115 then puts fd (va_str a) ;? vprintf_loop fd fmt' false (tail a)
        else if c =? 99 then putc fd (u32 (va_word a)) ;? vprintf_loop fd fmt' false (tail a)
        else if c =? 37 then putc fd c ;? vprintf_loop fd fmt' false a
        else putc fd 37 ;? putc fd c ;? vprintf_loop fd fmt' false a
  end.

Definition vprintf (fd : Z) (fmt : list Z) (a : list uarg) : U unit := vprintf_loop fd fmt false a.
Definition fprintf (fd : Z) (fmt : string) (a : list uarg) : U unit := vprintf fd (str fmt) a.
Definition uprintf (fmt : string) (a : list uarg) : U unit := vprintf 1 (str fmt) a.

(** ** What they print *)

(** The character of a digit. *)
Definition digit_char (i : Z) : Z := default 0 (str "0123456789ABCDEF" !! Z.to_nat i).

(** A number has one digit, and one more for each positive power of the base
    that it reaches; 64 powers are enough for 64-bit numbers. *)
Definition ndigits (base x : Z) : nat := S (length (filter (fun k => base ^ Z.of_nat k <= x) (seq 1 64))).

(** The numeral of [x]: the digit for [base ^ k] at the [k]th place from the right. *)
Definition numeral (base x : Z) : list Z :=
  (fun k => digit_char ((x / base ^ Z.of_nat k) mod base)) <$> rev (seq 0 (ndigits base x)).

Definition usigned (x : Z) : list Z := if x <? 0 then 45 :: numeral 10 (- x) else numeral 10 x.
Definition uhex (x : Z) : list Z := 48 :: 120 :: ((fun i => digit_char ((x / 16 ^ (15 - Z.of_nat i)) mod 16)) <$> seq 0 16).

(** The text of one directive, and whether it takes an argument. *)
Definition directive (c : Z) (a : list uarg) : list Z * bool :=
  if c =? 100 then (usigned (va_int a), true)
  else if c =? 108 then (numeral 10 (va_word a), true)
  else if c =? 120 then (numeral 16 (u32 (va_word a)), true)
  else if c =? 112 then (uhex (va_word a), true)
  else if c =? 115 then (va_str a, true)
  else if c =? 99 then ([va_word a], true)
  else if c =? 37 then ([37], false)
  else ([37; c], false).

Fixpoint rendered (fmt : list Z) (a : list uarg) : list Z :=
  match fmt with
  | [] => []
  | c :: fmt' =>
      if negb (c =? 37) then c :: rendered fmt' a
      else match fmt' with
           | [] => []
           | c :: fmt' => let r := directive c a in fst r ++ rendered fmt' (if snd r then tail a else a)
           end
  end.

(** The arguments of %l are below 2^32, which is all that printint looks at. *)
Fixpoint longs_fit (fmt : list Z) (a : list uarg) : bool :=
  match fmt with
  | [] => true
  | c :: fmt' =>
      if negb (c =? 37) then longs_fit fmt' a
      else match fmt' with
           | [] => true
           | c :: fmt' => (negb (c =? 108) || (va_word a <? 2 ^ 32)) && longs_fit fmt' (if snd (directive c a) then tail a else a)
           end
  end.

(** *** Numerals *)

Lemma digit_char_udigit i : 0 <= i < 16 -> digit_char i = udigit i.
Proof.
  intros Hi. assert (i ∈ seqZ 0 16) as Hin by (apply elem_of_seqZ; lia). revert i Hin Hi. apply (Forall_forall (fun i => 0 <= i < 16 -> digit_char i = udigit i)).
  repeat (apply Forall_cons; split; [reflexivity|]). apply Forall_nil_2.
Qed.

Definition powers (base x : Z) (n : nat) : nat := length (filter (fun k => base ^ Z.of_nat k <= x) (seq 1 n)).

Lemma powers_shift base x n : 2 <= base -> 0 <= x -> length (filter (fun k => base ^ Z.of_nat k <= x) (seq 2 n)) = powers base (x / base) n.
Proof.
  intros Hb Hx. unfold powers. rewrite <- seq_shift. induction (seq 1 n) as [|k l IH]; [done|]. cbn [map]. rewrite !filter_cons.
  assert (base ^ Z.of_nat (S k) <= x <-> base ^ Z.of_nat k <= x / base) as Hiff.
  { rewrite Nat2Z.inj_succ, Z.pow_succ_r by lia. split; intros H; [apply Z.div_le_lower_bound; lia|]. pose proof (Z.mul_div_le x base ltac:(lia)). nia. }
  rewrite (decide_ext _ _ _ _ Hiff). case_decide; cbn [length]; by rewrite IH.
Qed.

Lemma ndigits_div base x : 2 <= base -> base <= x < 2 ^ 64 -> ndigits base x = S (ndigits base (x / base)).
Proof.
  intros Hb Hx. assert (base ^ 64 > x) as Hbig. { pose proof (Z.pow_le_mono_l 2 base 64 ltac:(lia)). lia. }
  unfold ndigits. f_equal. change (length (filter (fun k => base ^ Z.of_nat k <= x / base) (seq 1 64))) with (powers base (x / base) 64). rewrite <- powers_shift by lia.
  change (seq 1 64) with (1%nat :: seq 2 63). rewrite filter_cons, decide_True by (change (Z.of_nat 1) with 1; lia). cbn [length]. f_equal.
  assert (seq 2 64 = seq 2 63 ++ [65%nat]) as -> by reflexivity. rewrite filter_app, filter_cons_False; [by rewrite filter_nil, app_nil_r|].
  change (Z.of_nat 65) with (64 + 1). rewrite Z.pow_add_r by lia. nia.
Qed.

Lemma ndigits_small base x : 2 <= base -> 0 <= x < base -> ndigits base x = 1%nat.
Proof.
  intros Hb Hx. unfold ndigits. f_equal. assert (forall l : list nat, Forall (fun k => (0 < k)%nat) l -> length (filter (fun k => base ^ Z.of_nat k <= x) l) = 0%nat) as H.
  { induction 1 as [|k l Hk _ IH]; [done|]. rewrite filter_cons_False; [done|]. pose proof (Z.pow_le_mono_r base 1 (Z.of_nat k) ltac:(lia) ltac:(lia)). lia. }
  apply H, Forall_forall. intros k Hk%elem_of_seq. lia.
Qed.

Lemma numeral_step base x : 2 <= base <= 16 -> base <= x < 2 ^ 64 -> numeral base x = numeral base (x / base) ++ [udigit (x mod base)].
Proof.
  intros Hb Hx. unfold numeral. rewrite ndigits_div by lia. set (n := ndigits base (x / base)). change (seq 0 (S n)) with (0%nat :: seq 1 n). cbn [rev]. rewrite fmap_app. cbn [fmap list_fmap]. f_equal.
  - rewrite <- seq_shift, <- map_rev. change (map S (rev (seq 0 n))) with (S <$> rev (seq 0 n)). rewrite <- list_fmap_compose. apply list_fmap_ext. intros j k Hk. cbn. do 2 f_equal.
    rewrite Nat2Z.inj_succ, Z.pow_succ_r by lia. by rewrite Z.div_div by (try apply Z.pow_pos_nonneg; lia).
  - change (Z.of_nat 0) with 0. rewrite Z.pow_0_r, Z.div_1_r, digit_char_udigit; [done|]. pose proof (Z.mod_pos_bound x base ltac:(lia)). lia.
Qed.

Lemma numeral_small base x : 2 <= base <= 16 -> 0 <= x < base -> numeral base x = [udigit x].
Proof.
  intros Hb Hx. unfold numeral. rewrite ndigits_small by lia. cbn. rewrite Z.pow_0_r, Z.div_1_r, Z.mod_small, digit_char_udigit by lia. done.
Qed.

(** The digits that printint finds are those of the numeral. *)
Lemma printint_numeral base fuel : forall x, 2 <= base <= 16 -> 0 <= x < 2 ^ 64 -> x < base ^ Z.of_nat (S fuel) -> rev (uprintint_loop (S fuel) x base) = numeral base x.
Proof.
  induction fuel as [|fuel IH]; intros x Hb Hx Hf; cbn [uprintint_loop rev]; (destruct (Z.eqb_spec (x / base) 0) as [Hz|Hz]; [apply Z.div_small_iff in Hz; [|lia]; rewrite Z.mod_small, numeral_small by lia; done|]).
  - exfalso. apply Hz, Z.div_small. change (base ^ Z.of_nat 1) with (base ^ 1) in Hf. rewrite Z.pow_1_r in Hf. lia.
  - assert (base <= x) as Hge. { destruct (Z.le_gt_cases base x); [done|]. exfalso. apply Hz, Z.div_small. lia. }
    rewrite numeral_step by lia. cbn [rev]. f_equal. apply IH; [done| |].
    + split; [apply Z.div_pos; lia|]. apply Z.div_lt_upper_bound; nia.
    + apply Z.div_lt_upper_bound; [lia|]. rewrite <- Z.pow_succ_r by lia. replace (Z.succ (Z.of_nat (S fuel))) with (Z.of_nat (S (S fuel))) by lia. done.
Qed.

(** A 32-bit number has at most 32 digits in any base. *)
Lemma printint_numeral32 base x : 2 <= base <= 16 -> 0 <= x < 2 ^ 32 -> rev (uprintint_loop 32 x base) = numeral base x.
Proof.
  intros Hb Hx. apply (printint_numeral base 31); [done|lia|]. pose proof (Z.pow_le_mono_l 2 base 32 ltac:(lia)). change (Z.of_nat 32) with 32. lia.
Qed.

(** [m] writes [text] to [fd], a byte at a time, and returns once the writes are
    answered. *)
Definition put_calls (fd : Z) (text : list Z) : list sys := (fun c => Swrite fd [u8 c]) <$> text.

Definition printing (fd : Z) (text : list Z) (h : history) (o : outcome unit) : Prop :=
  h.*1 `prefix_of` put_calls fd text /\
  match o with Odone _ => h.*1 = put_calls fd text | Owaits (Some _) => (length h < length text)%nat | _ => False end.

Definition prints (fd : Z) (text : list Z) (m : U unit) : Prop := meets m (printing fd text).

Lemma prints_none fd : prints fd [] (uret tt).
Proof. by apply meets_ret. Qed.

Lemma prints_seq fd t1 t2 m1 m2 : prints fd t1 m1 -> prints fd t2 m2 -> prints fd (t1 ++ t2) (m1 ;? m2).
Proof.
  intros H1 H2. eapply meets_bind; [exact H1| |].
  - intros h o o' [P E] Hl. assert (h.*1 `prefix_of` put_calls fd (t1 ++ t2)) as P' by (unfold put_calls; rewrite fmap_app; by apply prefix_app_r).
    split; [done|]. destruct o as [u|st|p v|[c|]]; cbn in Hl; try done. injection Hl as <-. rewrite length_app. lia.
  - intros h1 u [_ E]. eapply meets_weaken; [exact H2|]. intros h o [P E']. unfold printing, put_calls in *. rewrite !fmap_app, E. split; [by apply prefix_app|].
    destruct o as [u'|st|p v|[c|]]; try done; [by rewrite E'|]. rewrite !length_app. apply (f_equal length) in E. rewrite !length_fmap in E. lia.
Qed.

Lemma prints_putc fd c : prints fd [c] (putc fd c).
Proof.
  apply meets_scall_bind; [intros a; by apply meets_ret|]. split; [apply prefix_nil|cbn; lia].
Qed.

Lemma prints_cons fd c t m : prints fd t m -> prints fd (c :: t) (putc fd c ;? m).
Proof. intros H. apply (prints_seq fd [c] t); [apply prints_putc|done]. Qed.

Lemma prints_puts fd text : prints fd text (puts fd text).
Proof. induction text as [|c text IH]; [apply prints_none|by apply prints_cons]. Qed.

Lemma prints_int fd xx : -2147483648 <= xx < 2147483648 -> prints fd (usigned xx) (uprintint fd xx 10 true).
Proof.
  intros Hx. unfold uprintint, uprintint_buf, usigned. cbn [andb]. destruct (Z.ltb_spec xx 0).
  - rewrite rev_app_distr. unfold u32. rewrite Z.mod_small, printint_numeral32 by lia. apply prints_puts.
  - rewrite app_nil_r. unfold u32. rewrite Z.mod_small, printint_numeral32 by lia. apply prints_puts.
Qed.

Lemma u32_s32 x : u32 (s32 x) = u32 x.
Proof. unfold u32, s32. destruct (Z.ltb_spec (x mod 4294967296) 2147483648); zlia. Qed.

Lemma prints_unsigned fd xx base : 2 <= base <= 16 -> prints fd (numeral base (u32 xx)) (uprintint fd (s32 xx) base false).
Proof.
  intros Hb. unfold uprintint, uprintint_buf. cbn [andb]. rewrite app_nil_r, u32_s32, printint_numeral32; [apply prints_puts|done|]. unfold u32. apply Z.mod_pos_bound. lia.
Qed.

Lemma ptr_digit x i : 0 <= x < 2 ^ 64 -> (i < 16)%nat -> Z.shiftr (u64 (Z.shiftl x (4 * Z.of_nat i))) 60 = (x / 16 ^ (15 - Z.of_nat i)) mod 16.
Proof.
  intros Hx Hi. change 16 with (2 ^ 4) at 2. rewrite <- Z.land_ones by lia. change 16 with (2 ^ 4). rewrite <- Z.pow_mul_r, <- Z.shiftr_div_pow2 by lia. replace (4 * (15 - Z.of_nat i)) with (60 - 4 * Z.of_nat i) by lia. unfold u64. change 18446744073709551616 with (2 ^ 64). apply Z.bits_inj'. intros n Hn. rewrite Z.land_spec, !Z.shiftr_spec by lia.
  destruct (decide (n < 4)) as [H4|H4].
  - rewrite Z.mod_pow2_bits_low, Z.shiftl_spec, Z.ones_spec_low by lia. rewrite andb_true_r. f_equal. lia.
  - rewrite Z.mod_pow2_bits_high, Z.ones_spec_high by lia. by rewrite andb_false_r.
Qed.

Lemma prints_ptr_loop fd x n : forall i, (i + n = 16)%nat -> 0 <= x < 2 ^ 64 ->
  prints fd ((fun i => digit_char ((x / 16 ^ (15 - Z.of_nat i)) mod 16)) <$> seq i n) (uprintptr_loop n fd (u64 (Z.shiftl x (4 * Z.of_nat i)))).
Proof.
  induction n as [|n IH]; intros i Hi Hx; [apply prints_none|]. cbn [seq fmap list_fmap uprintptr_loop]. rewrite ptr_digit by (done || lia). rewrite <- digit_char_udigit by (apply Z.mod_pos_bound; lia). apply prints_cons.
  assert (u64 (Z.shiftl (u64 (Z.shiftl x (4 * Z.of_nat i))) 4) = u64 (Z.shiftl x (4 * Z.of_nat (S i)))) as ->; [|apply IH; (lia || done)].
  unfold u64. rewrite !Z.shiftl_mul_pow2 by lia. rewrite Z.mul_mod_idemp_l by lia. f_equal. rewrite <- Z.mul_assoc, <- Z.pow_add_r by lia. do 2 f_equal. lia.
Qed.

Lemma prints_ptr fd x : 0 <= x < 2 ^ 64 -> prints fd (uhex x) (uprintptr fd x).
Proof.
  intros Hx. unfold uprintptr, uhex. do 2 apply prints_cons. pose proof (prints_ptr_loop fd x 16 0 eq_refl Hx) as H.
  rewrite Z.mul_0_r, Z.shiftl_0_r in H. unfold u64 in H. by rewrite Z.mod_small in H.
Qed.

Lemma va_word_range a : 0 <= va_word a < 2 ^ 64.
Proof. unfold va_word. destruct a as [|[x|s] a]; [lia| |lia]. unfold u64. apply Z.mod_pos_bound. lia. Qed.

Lemma s32_range x : -2147483648 <= s32 x < 2147483648.
Proof. unfold s32. destruct (Z.ltb_spec (x mod 4294967296) 2147483648); zlia. Qed.

(** The two states of the loop. *)
Lemma vprintf_loop_spec fd fmt : Forall (fun c => 0 <= c < 256) fmt -> forall a,
  (longs_fit fmt a = true -> prints fd (rendered fmt a) (vprintf_loop fd fmt false a)) /\
  (longs_fit (37 :: fmt) a = true ->
   prints fd (match fmt with [] => [] | c :: fmt' => let r := directive c a in fst r ++ rendered fmt' (if snd r then tail a else a) end) (vprintf_loop fd fmt true a)).
Proof.
  induction 1 as [|c fmt Hc Hf IH]; intros a; [split; intros _; apply prints_none|]. cbn [vprintf_loop rendered negb].
  assert (u8 c = c) as -> by (unfold u8; by apply Z.mod_small). split.
  - cbn [longs_fit]. destruct (Z.eqb_spec c 37) as [->|Hne]; cbn [negb]; intros Hl; [by apply IH|by apply prints_cons, IH].
  - change (longs_fit (37 :: c :: fmt) a) with ((negb (c =? 108) || (va_word a <? 2 ^ 32)) && longs_fit fmt (if snd (directive c a) then tail a else a)). rewrite andb_true_iff. intros [H1 H2].
    assert (prints fd (rendered fmt (if snd (directive c a) then tail a else a)) (vprintf_loop fd fmt false (if snd (directive c a) then tail a else a))) as IH' by (by apply IH). clear IH H2. unfold directive in *.
    destruct (Z.eqb_spec c 100) as [_|_]; [apply prints_seq; [apply prints_int, s32_range|apply IH']|].
    destruct (Z.eqb_spec c 108) as [_|_].
    { apply prints_seq; [|apply IH']. pose proof (prints_unsigned fd (va_word a) 10 ltac:(lia)) as H'. unfold u32 in H' at 1. apply Z.ltb_lt in H1. pose proof (va_word_range a). by rewrite Z.mod_small in H' by lia. }
    destruct (Z.eqb_spec c 120) as [_|_]; [apply prints_seq; [by apply prints_unsigned|apply IH']|].
    destruct (Z.eqb_spec c 112) as [_|_]; [apply prints_seq; [apply prints_ptr, va_word_range|apply IH']|].
    destruct (Z.eqb_spec c 115) as [_|_]; [apply prints_seq; [apply prints_puts|apply IH']|].
    destruct (Z.eqb_spec c 99) as [_|_].
    { assert (prints fd ([va_word a] ++ rendered fmt (tail a)) (putc fd (va_word a) ;? vprintf_loop fd fmt false (tail a))) as H' by (apply prints_cons, IH').
      unfold putc in *. replace (u8 (u32 (va_word a))) with (u8 (va_word a)); [done|]. unfold u8, u32. zlia. }
    destruct (Z.eqb_spec c 37) as [->|_]; [apply prints_cons, IH'|]. do 2 apply prints_cons. apply IH'.
Qed.

(** ** The value of a numeral *)

Definition uval (base : Z) (ds : list Z) : Z := fold_left (fun a d => a * base + (if d <? 58 then d - 48 else d - 55)) ds 0.

Lemma uval_snoc base ds d : uval base (ds ++ [d]) = uval base ds * base + (if d <? 58 then d - 48 else d - 55).
Proof. unfold uval. by rewrite fold_left_app. Qed.

Lemma udigit_val i : 0 <= i < 16 -> (if udigit i <? 58 then udigit i - 48 else udigit i - 55) = i.
Proof. intros Hi. unfold udigit. destruct (Z.ltb_spec i 10); [destruct (Z.ltb_spec (48 + i) 58)|destruct (Z.ltb_spec (55 + i) 58)]; lia. Qed.

(** The digits: their value, how many there are, and that the first is not 0. *)
Lemma uprintint_loop_spec k fuel : forall x base, 2 <= base <= 16 -> 0 <= x < base ^ Z.of_nat k -> (0 < k <= fuel)%nat ->
  let ds := rev (uprintint_loop fuel x base) in
  uval base ds = x /\ (length ds <= k)%nat /\ Forall (fun d => exists i, 0 <= i < base /\ d = udigit i) ds /\ (0 < x -> exists d ds', ds = d :: ds' /\ d <> 48).
Proof.
  revert fuel. induction k as [|k IH]; intros [|fuel] x base Hb Hx Hk; try lia. cbn [uprintint_loop]. assert (0 <= x mod base < base) as Hm by (apply Z.mod_pos_bound; lia).
  pose proof (Z.div_mod x base ltac:(lia)) as Hdm. destruct (Z.eqb_spec (x / base) 0) as [Hz|Hz].
  - cbn [rev app]. rewrite Hz, Z.mul_0_r, Z.add_0_l in Hdm. rewrite <- Hdm. split_and!; [|cbn; lia|apply Forall_singleton; exists x; split; [lia|done]|].
    + change (uval base ([] ++ [udigit x]) = x). rewrite uval_snoc, udigit_val by lia. done.
    + intros Hpos. exists (udigit x), []. split; [done|]. unfold udigit. destruct (Z.ltb_spec x 10); lia.
  - cbn [rev]. assert (0 <= x / base) as H0 by (apply Z.div_pos; lia). assert (x / base < base ^ Z.of_nat k) as Hlt.
    { apply Z.div_lt_upper_bound; [lia|]. rewrite <- Z.pow_succ_r by lia. replace (Z.succ (Z.of_nat k)) with (Z.of_nat (S k)) by lia. lia. }
    assert (0 < k)%nat as Hk0 by (destruct k; [cbn in Hlt; lia|lia]). destruct (IH fuel (x / base) base Hb) as (Hn & Hlen & Hd & Hpos); [lia|lia|].
    rewrite uval_snoc, Hn, udigit_val, length_app by lia. cbn [length]. split_and!; [lia|lia|apply Forall_app; split; [done|apply Forall_singleton; exists (x mod base); split; [lia|done]]|].
    intros _. destruct Hpos as (d & ds' & -> & Hd'); [lia|]. by exists d, (ds' ++ [udigit (x mod base)]).
Qed.

Lemma atoi_loop_digits ds : forall n rest, Forall (fun d => 48 <= d <= 57) ds -> 0 <= n ->
  fold_left (fun a d => a * 10 + (if d <? 58 then d - 48 else d - 55)) ds n < 2147483648 ->
  atoi_loop (ds ++ rest) n = atoi_loop rest (fold_left (fun a d => a * 10 + (if d <? 58 then d - 48 else d - 55)) ds n).
Proof.
  induction ds as [|d ds IH]; intros n rest Hd Hn Hlt; [done|]. apply Forall_cons in Hd as [Hd Hds]. cbn [app atoi_loop fold_left] in *.
  rewrite (proj2 (Z.leb_le 48 d)), (proj2 (Z.leb_le d 57)) by lia. cbn [andb]. rewrite (proj2 (Z.ltb_lt d 58)) in * by lia.
  assert (forall l a, 0 <= a -> Forall (fun d => 48 <= d <= 57) l -> a <= fold_left (fun a d => a * 10 + (if d <? 58 then d - 48 else d - 55)) l a) as Hmono.
  { induction l as [|e l IHl]; intros a Ha Hl; [cbn; lia|]. apply Forall_cons in Hl as [He Hl]. cbn [fold_left]. rewrite (proj2 (Z.ltb_lt e 58)) by lia. etransitivity; [|apply IHl; [lia|done]]. lia. }
  specialize (Hmono ds (n * 10 + (d - 48)) ltac:(lia) Hds). rewrite s32_small by lia. replace (n * 10 + d - 48) with (n * 10 + (d - 48)) by lia. apply IH; (done || lia).
Qed.

Lemma numeral_digits x : 0 <= x < 2 ^ 32 -> uval 10 (numeral 10 x) = x /\ (length (numeral 10 x) <= 10)%nat /\ Forall (fun d => 48 <= d <= 57) (numeral 10 x) /\ (0 < x -> exists d ds, numeral 10 x = d :: ds /\ d <> 48).
Proof.
  intros Hx. rewrite <- (printint_numeral32 10) by lia. destruct (uprintint_loop_spec 10 32 x 10) as (H1 & H2 & H3 & H4); [lia|cbn; lia|lia|].
  split_and!; [done|done| |done]. eapply Forall_impl; [exact H3|]. intros d (i & Hi & ->). unfold udigit. rewrite (proj2 (Z.ltb_lt i 10)) by lia. lia.
Qed.

(** ** Properties *)

(** C35: Printf of user programs prints what its format says.  For any format
    and arguments, vprintf makes exactly the one-byte writes of the rendered
    text to its descriptor and returns, once they are answered: the text of the
    format with %d, %x and %l replaced by the positional numeral of the next
    argument in base 10 or 16 without leading zeros, %p by its sixteen
    hexadecimal digits, %s and %c by the string or character, %% by a percent
    sign, an unknown directive left as it is, and a percent sign at the end
    dropped.  The arguments of %l have to be below 2^32: printint takes an int,
    and drops the rest. *)
Theorem vprintf_correct fd fmt a ans log : Forall (fun c => 0 <= c < 256) fmt -> longs_fit fmt a = true -> (length (rendered fmt a) <= length ans)%nat ->
  vprintf fd fmt a (World ans log) = Done tt (World (drop (length (rendered fmt a)) ans) (log ++ put_calls fd (rendered fmt a))).
Proof.
  intros Hf Hfit Hlen. destruct (vprintf_loop_spec fd fmt Hf a) as [H _]. destruct (H Hfit ans log) as (h & o & [Hp Hr] & _ & Ho). cbn zeta in Hr. fold (vprintf fd fmt a) in Hr.
  assert (length h.*1 = length h) as El by apply length_fmap. destruct o as [[]|st|p v|[c|]]; try done.
  - rewrite Hr, app_nil_r. cbn in Ho. rewrite Ho. unfold put_calls in Ho. apply (f_equal length) in Ho. rewrite !length_fmap in Ho. by rewrite Ho.
  - destruct Hr as [_ Hr]. cbn in Ho. lia.
Qed.

Lemma vprintf_correct_witness :
  vprintf 1 (str "%d %x%%%q%l") [UWord (-5); UWord 255; UWord 70] (World (replicate 10 (Answer 1 [])) []) = Done tt (World [] (put_calls 1 (str "-5 FF%%q70"))).
Proof.
  rewrite (vprintf_correct 1 (str "%d %x%%%q%l") [UWord (-5); UWord 255; UWord 70] (replicate 10 (Answer 1 [])) []); [reflexivity| |reflexivity|vm_compute; lia].
  repeat (apply Forall_cons; split; [cbn; lia|]). apply Forall_nil_2.
Defined.

(** What %l drops: 2^32 is printed as 0. *)
Example vprintf_truncates : vprintf 1 (str "%l") [UWord (2 ^ 32)] (World [Answer 1 []] []) = Done tt (World [] (put_calls 1 (str "0"))).
Proof. reflexivity. Qed.

(** Atoi reads what printf writes.  The numeral of any int that is not
    negative, followed by anything that is not a digit, is read back as the
    same int; the numeral has at most ten digits, and no leading zero. *)
Theorem atoi_printf x rest : 0 <= x < 2147483648 -> (forall c rest', rest = c :: rest' -> ~ 48 <= c <= 57) ->
  atoi (rendered (str "%d") [UWord x] ++ rest) = x /\ (length (rendered (str "%d") [UWord x]) <= 10)%nat /\
  (0 < x -> hd 0 (rendered (str "%d") [UWord x]) <> 48).
Proof.
  intros Hx Hrest. assert (rendered (str "%d") [UWord x] = numeral 10 x) as ->.
  { change (rendered (str "%d") [UWord x]) with (usigned (s32 (u64 x)) ++ []). rewrite app_nil_r. unfold u64. rewrite Z.mod_small, s32_small by lia. unfold usigned. by rewrite (proj2 (Z.ltb_ge x 0)) by lia. }
  destruct (numeral_digits x) as (H1 & H2 & H3 & H4); [lia|]. split_and!; [|done|intros Hp; destruct (H4 Hp) as (d & ds & -> & Hd); done].
  unfold atoi. rewrite atoi_loop_digits; [|done|lia|fold (uval 10 (numeral 10 x)); lia]. fold (uval 10 (numeral 10 x)). rewrite H1.
  destruct rest as [|c rest]; [done|]. cbn [atoi_loop]. specialize (Hrest c rest eq_refl). destruct (Z.leb_spec 48 c), (Z.leb_spec c 57); cbn; (done || lia).
Qed.

Lemma atoi_printf_witness : atoi (rendered (str "%d") [UWord 2147483647] ++ [32; 49]) = 2147483647 /\ rendered (str "%d") [UWord 2147483647] = str "2147483647".
Proof. split; [|reflexivity]. apply (atoi_printf 2147483647 [32; 49]); [lia|]. intros c rest' [= <- _]. lia. Defined.
