(* ===== verification/Uprogs.v ===== *)
(** * The user programs

    user/cat.c, wc.c, echo.c, grep.c, kill.c, ln.c, ls.c, mkdir.c, rm.c, sleep.c,
    trace.c, init.c and zombie.c, as the system calls they make.  argv is the
    list of the argument strings, the program's name first; a buffer that read
    fills holds the bytes that came with the answer. *)

From S2P Require Import Prelude User Ulib Uprintf Grep.

Local Open Scope user_scope.

(** The newline of a message. *)
Definition ENDL : string := String (Ascii.ascii_of_nat 10) EmptyString.
Definition msg (text : string) : string := text ++ ENDL.

Definition arg (argv : list (list Z)) (i : nat) : list Z := default [] (argv !! i).
Definition argc (argv : list (list Z)) : Z := Z.of_nat (length argv).

(** The arguments from the first on, one after the other. *)
Fixpoint for_args (args : list (list Z)) (body : list Z -> U unit) : U unit :=
  match args with
  | [] => uret tt
  | a :: args' => body a ;? for_args args' body
  end.

(** ** cat *)

Fixpoint cat_loop (fuel : nat) (fd : Z) : U unit :=
  match fuel with
  | O => fun w => Waits w
  | S fuel' =>
      let? r := uread fd 512 in
      let n := fst r in
      if 0 <? n then
        let? k := uwrite 1 (take (Z.to_nat n) (snd r)) in
        if negb (k =? n) then fprintf 2 (msg "cat: write error") [] ;? exit 1 else
        cat_loop fuel' fd
      else if n <? 0 then fprintf 2 (msg "cat: read error") [] ;? exit 1
      else uret tt
  end.

Definition cat (fd : Z) : U unit := looping (fun fuel => cat_loop fuel fd).

Definition cat_main (argv : list (list Z)) : U unit :=
  if argc argv <=? 1 then cat 0 ;? exit 0 else
  for_args (tail argv) (fun path =>
    let? fd := open path 0 in
    if fd <? 0 then fprintf 2 (msg "cat: cannot open %s") [UStr (Some path)] ;? exit 1 else
    cat fd ;?
    close fd ;?
    uret tt) ;?
  exit 0.

(** ** wc *)

(** strchr(" \r\t\n\v", c), which never finds the nul. *)
Definition is_space (c : Z) : bool := (c =? 32) || (c =? 13) || (c =? 9) || (c =? 10) || (c =? 11).

Record counts := Counts { wc_l : Z; wc_w : Z; wc_c : Z; wc_inword : bool }.

Fixpoint wc_scan (bs : list Z) (k : counts) : counts :=
  match bs with
  | [] => k
  | b :: bs' =>
      let c := s32 (wc_c k + 1) in
      let l := if b =? 10 then s32 (wc_l k + 1) else wc_l k in
      wc_scan bs'
        (if is_space b then Counts l (wc_w k) c false
         else if negb (wc_inword k) then Counts l (s32 (wc_w k + 1)) c true
         else Counts l (wc_w k) c true)
  end.

(** The last result of read, and the counts. *)
Fixpoint wc_loop (fuel : nat) (fd : Z) (k : counts) : U (Z * counts) :=
  match fuel with
  | O => fun w => Waits w
  | S fuel' =>
      let? r := uread fd 512 in
      if 0 <? fst r then wc_loop fuel' fd (wc_scan (take (Z.to_nat (fst r)) (snd r)) k)
      else uret (fst r, k)
  end.

Definition wc (fd : Z) (name : list Z) : U unit :=
  let? r := looping (fun fuel => wc_loop fuel fd (Counts 0 0 0 false)) in
  if fst r <? 0 then uprintf (msg "wc: read error") [] ;? exit 1 else
  uprintf (msg "%d %d %d %s") [UWord (wc_l (snd r)); UWord (wc_w (snd r)); UWord (wc_c (snd r)); UStr (Some name)].

Definition wc_main (argv : list (list Z)) : U unit :=
  if argc argv <=? 1 then wc 0 [] ;? exit 0 else
  for_args (tail argv) (fun path =>
    let? fd := open path 0 in
    if fd <? 0 then uprintf (msg "wc: cannot open %s") [UStr (Some path)] ;? exit 1 else
    wc fd path ;?
    close fd ;?
    uret tt) ;?
  exit 0.

(** ** echo *)

Fixpoint echo_loop (args : list (list Z)) : U unit :=
  match args with
  | [] => uret tt
  | a :: args' =>
      uwrite 1 a ;?
      (if 0 <? Z.of_nat (length args') then uwrite 1 (str " ") else uwrite 1 (str ENDL)) ;?
      echo_loop args'
  end.

Definition echo_main (argv : list (list Z)) : U unit := echo_loop (tail argv) ;? exit 0.

(** ** grep *)

(** The loop over the complete lines in the buffer; what is left of it. *)
Fixpoint ugrep_lines (fuel : nat) (pattern p : list Z) : U (list Z) :=
  match fuel with
  | O => uret p
  | S fuel' =>
      match strchr p NEWLINE with
      | None => uret p
      | Some q =>
          (if match_ pattern (take q p) then uwrite 1 (take (q + 1) p) ;? uret tt else uret tt) ;?
          ugrep_lines fuel' pattern (drop (q + 1) p)
      end
  end.

(** [buf]: the first m bytes of the buffer. *)
Fixpoint ugrep_loop (fuel : nat) (pattern buf : list Z) (fd : Z) : U unit :=
  match fuel with
  | O => fun w => Waits w
  | S fuel' =>
      let? r := uread fd (Z.of_nat (sizeof_buf - length buf - 1)) in
      if 0 <? fst r then
        let buf := buf ++ take (Z.to_nat (fst r)) (snd r) in
        let? rest := ugrep_lines (S (length buf)) pattern buf in
        ugrep_loop fuel' pattern rest fd
      else uret tt
  end.

Definition ugrep (pattern : list Z) (fd : Z) : U unit := looping (fun fuel => ugrep_loop fuel pattern [] fd).

Definition grep_main (argv : list (list Z)) : U unit :=
  if argc argv <=? 1 then fprintf 2 (msg "usage: grep pattern [file ...]") [] ;? exit 1 else
  let pattern := arg argv 1 in
  if argc argv <=? 2 then ugrep pattern 0 ;? exit 0 else
  for_args (drop 2 argv) (fun path =>
    let? fd := open path 0 in
    if fd <? 0 then uprintf (msg "grep: cannot open %s") [UStr (Some path)] ;? exit 1 else
    ugrep pattern fd ;?
    close fd ;?
    uret tt) ;?
  exit 0.

(** ** kill, ln, mkdir, rm, sleep *)

Definition kill_main (argv : list (list Z)) : U unit :=
  if argc argv <? 2 then fprintf 2 (msg "usage: kill pid...") [] ;? exit 1 else
  for_args (tail argv) (fun a => scall (Skill (atoi a)) ;? uret tt) ;?
  exit 0.

Definition ln_main (argv : list (list Z)) : U unit :=
  if negb (argc argv =? 3) then fprintf 2 (msg "Usage: ln old new") [] ;? exit 1 else
  let? r := scall (Slink (arg argv 1) (arg argv 2)) in
  (if r <? 0 then fprintf 2 (msg "link %s %s: failed") [UStr (Some (arg argv 1)); UStr (Some (arg argv 2))] else uret tt) ;?
  exit 0.

(** The loop over the files, left at the first failure. *)
Fixpoint each_file (op : list Z -> sys) (fmt : string) (args : list (list Z)) : U unit :=
  match args with
  | [] => uret tt
  | a :: args' =>
      let? r := scall (op a) in
      if r <? 0 then fprintf 2 fmt [UStr (Some a)] else each_file op fmt args'
  end.

Definition mkdir_main (argv : list (list Z)) : U unit :=
  if argc argv <? 2 then fprintf 2 (msg "Usage: mkdir files...") [] ;? exit 1 else
  each_file Smkdir (msg "mkdir: %s failed to create") (tail argv) ;?
  exit 0.

Definition rm_main (argv : list (list Z)) : U unit :=
  if argc argv <? 2 then fprintf 2 (msg "Usage: rm files...") [] ;? exit 1 else
  each_file Sunlink (msg "rm: %s failed to delete") (tail argv) ;?
  exit 0.

Definition sleep_main (argv : list (list Z)) : U unit :=
  if negb (argc argv =? 2) then uprintf (msg "Sleep needs one argument!") [] ;? exit (-1) else
  let ticks := atoi (arg argv 1) in
  scall (Ssleep ticks) ;?
  uprintf (msg "(nothing happens for a little while)") [] ;?
  exit 0.

(** ** trace *)

Definition MAXARG : Z := 32.

(** The entries of nargv after those that are assigned are uninitialised: [junk]
    are the strings they point to, up to the first null pointer. *)
Definition trace_main (junk argv : list (list Z)) : U unit :=
  let c := hd 0 (arg argv 1) in
  if (argc argv <? 3) || ((c <? 48) || (57 <? c)) then
    fprintf 2 (msg "Usage: %s mask command") [UStr (Some (arg argv 0))] ;? exit 1 else
  let? r := scall (Strace (atoi (arg argv 1))) in
  if r <? 0 then fprintf 2 (msg "%s: trace failed") [UStr (Some (arg argv 0))] ;? exit 1 else
  let nargv := take (Z.to_nat (MAXARG - 2)) (drop 2 argv) in
  exec (hd [] nargv) (nargv ++ junk) ;?
  exit 0.

(** ** ls *)

Definition DIRSIZ : Z := 14.
Definition T_DIR : Z := 1.
Definition T_FILE : Z := 2.

(** The character after the last slash, scanning back from the end. *)
Fixpoint after_slash (path : list Z) : list Z :=
  match path with
  | [] => []
  | c :: path' => if bool_decide (47 ∈ path') then after_slash path' else if c =? 47 then path' else path
  end.

(** The blank-padded name. *)
Definition fmtname (path : list Z) : list Z :=
  let p := after_slash path in
  if DIRSIZ <=? Z.of_nat (length p) then p
  else p ++ replicate (Z.to_nat (DIRSIZ - Z.of_nat (length p))) 32.

(** struct stat in the bytes that fstat stores. *)
Definition st_ino (st : list Z) : Z := peek 4 st 4.
Definition st_type (st : list Z) : Z := s16 (peek 2 st 8).
Definition st_size (st : list Z) : Z := peek 8 st 16.

(** The bytes of a name, up to its nul. *)
Fixpoint upto_nul (bs : list Z) : list Z :=
  match bs with
  | [] => []
  | b :: bs' => if b =? 0 then [] else b :: upto_nul bs'
  end.

Fixpoint ls_entries (fuel : nat) (fd : Z) (path : list Z) : U unit :=
  match fuel with
  | O => fun w => Waits w
  | S fuel' =>
      let? r := uread fd 16 in
      if negb (fst r =? 16) then uret tt else
      if peek 2 (snd r) 0 =? 0 then ls_entries fuel' fd path else
      let buf := path ++ [47] ++ upto_nul (take 14 (drop 2 (snd r))) in
      let? st := ustat buf in
      (if fst st <? 0 then uprintf (msg "ls: cannot stat %s") [UStr (Some buf)]
       else uprintf (msg "%s %d %d %d") [UStr (Some (fmtname buf)); UWord (st_type (snd st)); UWord (st_ino (snd st)); UWord (st_size (snd st))]) ;?
      ls_entries fuel' fd path
  end.

Definition ls (path : list Z) : U unit :=
  let? fd := open path 0 in
  if fd <? 0 then fprintf 2 (msg "ls: cannot open %s") [UStr (Some path)] else
  let? r := call (Sfstat fd) in
  if a_ret r <? 0 then fprintf 2 (msg "ls: cannot stat %s") [UStr (Some path)] ;? close fd ;? uret tt else
  let st := a_data r in
  (if st_type st =? T_FILE then
     uprintf (msg "%s %d %d %l") [UStr (Some (fmtname path)); UWord (st_type st); UWord (st_ino st); UWord (st_size st)]
   else if st_type st =? T_DIR then
     if 512 <? Z.of_nat (length path) + 1 + DIRSIZ + 1 then uprintf (msg "ls: path too long") []
     else looping (fun fuel => ls_entries fuel fd path)
   else uret tt) ;?
  close fd ;?
  uret tt.

Definition ls_main (argv : list (list Z)) : U unit :=
  if argc argv <? 2 then ls (str ".") ;? exit 0 else
  for_args (tail argv) ls ;?
  exit 0.

(** ** init and zombie *)

Definition O_RDWR : Z := 2.
Definition CONSOLE : Z := 1.

(** The inner loop of init: until the shell exits. *)
Fixpoint init_wait (fuel : nat) (pid : Z) : U unit :=
  match fuel with
  | O => fun w => Waits w
  | S fuel' =>
      let? wpid := scall Swait in
      if wpid =? pid then uret tt
      else if wpid <? 0 then uprintf (msg "init: wait returned an error") [] ;? exit 1
      else init_wait fuel' pid
  end.

Fixpoint init_loop (fuel : nat) : U unit :=
  match fuel with
  | O => fun w => Waits w
  | S fuel' =>
      uprintf (msg "init: starting sh") [] ;?
      let? pid := scall Sfork in
      if pid <? 0 then uprintf (msg "init: fork failed") [] ;? exit 1 else
      if pid =? 0 then exec (str "sh") [str "sh"] ;? uprintf (msg "init: exec sh failed") [] ;? exit 1 else
      looping (fun fuel => init_wait fuel pid) ;?
      init_loop fuel'
  end.

Definition init_main : U unit :=
  let? fd := open (str "console") O_RDWR in
  (if fd <? 0 then scall (Smknod (str "console") CONSOLE 0) ;? open (str "console") O_RDWR ;? uret tt else uret tt) ;?
  scall (Sdup 0) ;?
  scall (Sdup 0) ;?
  looping init_loop.

Definition zombie_main : U unit :=
  let? pid := scall Sfork in
  (if 0 <? pid then scall (Ssleep 5) ;? uret tt else uret tt) ;?
  exit 0.
