(* ===== verification/UserTheorems.v ===== *)
(** * What the user programs do, whatever the kernel answers

    The theorems about cat, wc and grep are about a kernel that serves files:
    the answers to open, read and close are those of a set of files, but which
    descriptors open returns, how many bytes a read delivers, and which calls
    fail is left open. *)

From S2P Require Import Prelude User Ulib Uprintf Grep Uprogs.

Local Open Scope user_scope.

(** ** What a history shows *)

(** The bytes a program asked to write, and those that the kernel took. *)
Definition houtput (fd : Z) (h : history) : list Z := output fd h.*1.
Definition accepted_by (fd : Z) (x : sys * answer) : list Z := take (Z.to_nat (a_ret x.2)) (written_by fd x.1).
Definition accepted (fd : Z) (h : history) : list Z := concat (accepted_by fd <$> h).

(** An answer by which the kernel refuses what was asked. *)
Definition refusal (x : sys * answer) : Prop :=
  match x.1 with
  | Sread _ _ => a_ret x.2 < 0 \/ Z.of_nat (length (a_data x.2)) < a_ret x.2
  | Swrite _ bs => a_ret x.2 <> Z.of_nat (length bs)
  | _ => a_ret x.2 < 0
  end.

(** One of the calls [K] was refused. *)
Definition refused (K : sys -> bool) (h : history) : Prop := Exists (fun x => K x.1 = true /\ refusal x) h.

Definition copying (c : sys) : bool := match c with Sopen _ _ | Sread _ _ => true | Swrite fd _ => fd =? 1 | _ => false end.
Definition reading (c : sys) : bool := match c with Sopen _ _ | Sread _ _ => true | _ => false end.
Definition opening (c : sys) : bool := match c with Sopen _ _ => true | _ => false end.
Definition receiving (c : sys) : bool := match c with Sread _ _ => true | _ => false end.
Definition starting (c : sys) : bool := match c with Sfork | Swait | Sexec _ _ => true | _ => false end.

Lemma refused_app_l K h k : refused K h -> refused K (h ++ k).
Proof. intros H. apply Exists_app. by left. Qed.

Lemma refused_app_r K h k : refused K k -> refused K (h ++ k).
Proof. intros H. apply Exists_app. by right. Qed.

Lemma refused_now K x h : K x.1 = true -> refusal x -> refused K (x :: h).
Proof. intros H1 H2. apply Exists_cons_hd. by split. Qed.

Lemma refused_later K x h : refused K h -> refused K (x :: h).
Proof. by apply Exists_cons_tl. Qed.

Lemma houtput_app fd h k : houtput fd (h ++ k) = houtput fd h ++ houtput fd k.
Proof. unfold houtput. by rewrite fmap_app, output_app. Qed.

Lemma accepted_app fd h k : accepted fd (h ++ k) = accepted fd h ++ accepted fd k.
Proof. unfold accepted. by rewrite fmap_app, concat_app. Qed.

Lemma accepted_none fd h : houtput fd h = [] -> accepted fd h = [].
Proof.
  induction h as [|x h IH]; [done|]. change (houtput fd (x :: h)) with (written_by fd x.1 ++ houtput fd h). intros [H1 H2]%app_nil.
  change (accepted fd (x :: h)) with (accepted_by fd x ++ accepted fd h). rewrite IH by done. unfold accepted_by. rewrite H1. by destruct (Z.to_nat _).
Qed.

Lemma accepted_quiet fd h r : houtput fd h = [] -> accepted fd h `prefix_of` r.
Proof. intros H. rewrite accepted_none by done. apply prefix_nil. Qed.

(** Text that is printed shows only in the output of its descriptor. *)
Lemma put_calls_output fd fd' text : output fd' (put_calls fd text) = if fd =? fd' then u8 <$> text else [].
Proof.
  induction text as [|c text IH]; [by destruct (fd =? fd')|]. change (output fd' (put_calls fd (c :: text))) with ((if fd =? fd' then [u8 c] else []) ++ output fd' (put_calls fd text)).
  rewrite IH. by destruct (fd =? fd').
Qed.

Lemma put_calls_quiet fd text (h : history) : h.*1 `prefix_of` put_calls fd text -> forall fd', fd' <> fd -> houtput fd' h = [].
Proof.
  revert h. induction text as [|c text IH]; intros [|[s a] h] Hp; try done.
  - by apply prefix_nil_not in Hp.
  - cbn in Hp. pose proof (prefix_cons_inv_1 _ _ _ _ Hp) as ->. apply prefix_cons_inv_2 in Hp. pose proof (IH h Hp) as H3. intros fd' Hne. change (houtput fd' ((Swrite fd [u8 c], a) :: h)) with ((if fd =? fd' then [u8 c] else []) ++ houtput fd' h). rewrite H3 by done. by destruct (Z.eqb_spec fd fd').
Qed.

Lemma str_bytes s : Forall (fun c => 0 <= c < 256) (str s).
Proof.
  unfold str. apply Forall_fmap, Forall_forall. intros c _. cbn. pose proof (Ascii.N_ascii_bounded c). lia.
Qed.

Lemma fprintf_prints fd fmt a : longs_fit (str fmt) a = true -> prints fd (rendered (str fmt) a) (fprintf fd fmt a).
Proof. apply (vprintf_loop_spec fd (str fmt) (str_bytes fmt) a). Qed.

Lemma uprintf_prints fmt a : longs_fit (str fmt) a = true -> prints 1 (rendered (str fmt) a) (uprintf fmt a).
Proof. apply (fprintf_prints 1). Qed.

(** An error: a message, and exit(1). *)
Definition failed (fd : Z) (h : history) (o : outcome unit) : Prop :=
  (forall fd', fd' <> fd -> houtput fd' h = []) /\ o <> Owaits None /\
  match o with Oexit st => st = 1 /\ houtput fd h <> [] | Owaits _ => True | _ => False end.

Lemma fails_meets fd fmt a : longs_fit (str fmt) a = true -> rendered (str fmt) a <> [] -> meets (fprintf fd fmt a ;? exit 1) (failed fd).
Proof.
  intros Hfit Hne. eapply meets_bind; [by apply fprintf_prints| |].
  - intros h o o' [Hp Ho] Hl. pose proof (put_calls_quiet _ _ _ Hp) as H3. split; [done|]. destruct o as [u|st|p v|[c|]]; cbn in Hl; try done; by injection Hl as <-.
  - intros h u [Hp Ho]. pose proof (put_calls_quiet _ _ _ Hp) as H3. apply meets_exit. rewrite app_nil_r. split_and!; [done..|].
    unfold houtput. cbv beta iota in Ho. rewrite Ho, put_calls_output, Z.eqb_refl. by destruct (rendered (str fmt) a).
Qed.

Lemma complains_meets fmt a : longs_fit (str fmt) a = true -> rendered (str fmt) a <> [] -> meets (uprintf fmt a ;? exit 1) (failed 1).
Proof. exact (fails_meets 1 fmt a). Qed.

(** ** A kernel that serves files *)

(** For each open descriptor, the bytes that are still to be read. *)
Abbreviation fdmap := (gmap Z (list Z)).

Section Served.
(** The contents of the files. *)
Context (FS : list Z -> option (list Z)).

(** What a call and its answer make of the open descriptors; None for an answer
    that such a kernel does not give.  open may fail, or return any descriptor
    that is not in use; read may fail, or deliver any number of the next bytes,
    but none only at the end of the file or when asked for none; write takes at
    most what it is given. *)
Definition serve1 (fm : fdmap) (x : sys * answer) : option fdmap :=
  let r := a_ret x.2 in
  match x.1 with
  | Sopen p _ =>
      if r <? 0 then Some fm else
      match FS p, fm !! r with Some d, None => Some (<[r := d]> fm) | _, _ => None end
  | Sread fd n =>
      if r <? 0 then Some fm else
      match fm !! fd with
      | Some d =>
          let k := Z.to_nat r in
          if bool_decide (take k (a_data x.2) = take k d) && (r <=? Z.min n (Z.of_nat (length d))) &&
             ((0 <? r) || (n <=? 0) || bool_decide (d = []))
          then Some (<[fd := drop k d]> fm) else None
      | None => None
      end
  | Swrite _ bs => if r <=? Z.of_nat (length bs) then Some fm else None
  | Sclose fd => Some (delete fd fm)
  | _ => Some fm
  end.

Fixpoint serve (fm : fdmap) (h : history) : option fdmap :=
  match h with
  | [] => Some fm
  | x :: h' => match serve1 fm x with Some fm' => serve fm' h' | None => None end
  end.

(** The program starts with standard input [stdin] and two outputs. *)
Definition standard (stdin : list Z) : fdmap := {[0 := stdin; 1 := []; 2 := []]}.

Lemma serve_app h : forall fm k fm', serve fm (h ++ k) = Some fm' -> exists fm1, serve fm h = Some fm1 /\ serve fm1 k = Some fm'.
Proof.
  induction h as [|x h IH]; intros fm k fm' H; [by exists fm|]. cbn [app serve] in *. destruct (serve1 fm x) as [fm1|]; [|done]. by apply IH.
Qed.

Lemma serve_cons fm x h fm' : serve fm (x :: h) = Some fm' -> exists fm1, serve1 fm x = Some fm1 /\ serve fm1 h = Some fm'.
Proof. cbn [serve]. destruct (serve1 fm x) as [fm1|]; [|done]. by exists fm1. Qed.

(** A read that did not fail. *)
Lemma serve_read fm fd n a fm1 d : serve1 fm (Sread fd n, a) = Some fm1 -> fm !! fd = Some d -> 0 <= a_ret a ->
  let k := Z.to_nat (a_ret a) in
  fm1 = <[fd := drop k d]> fm /\ take k (a_data a) = take k d /\ (k <= length d)%nat /\ a_ret a <= n /\ (a_ret a = 0 -> n <= 0 \/ d = []).
Proof.
  unfold serve1. cbn [fst snd]. intros H Hd Hr. rewrite Hd, (proj2 (Z.ltb_ge _ _) Hr) in H. destruct (_ && _ && _) eqn:E; [|done]. injection H as <-.
  rewrite !andb_true_iff, !orb_true_iff, !bool_decide_eq_true, Z.leb_le, Z.ltb_lt, Z.leb_le in E. destruct E as [[E1 E2] E3]. split_and!; [done|done|lia|lia|]. intros H0. destruct E3 as [[?|?]|?]; [lia|by left|by right].
Qed.

Lemma Forall_one {A} (P : A -> Prop) x : Forall P [x] -> P x.
Proof. by intros [H _]%Forall_cons. Qed.

(** Writing leaves the open descriptors as they are. *)
Definition only_writes (h : history) : Prop := Forall (fun x => exists fd bs, x.1 = Swrite fd bs) h.

Lemma serve_writes h : forall fm fm', only_writes h -> serve fm h = Some fm' -> fm' = fm.
Proof.
  induction h as [|[x a] h IH]; intros fm fm' Hw Hs; [by injection Hs as <-|]. apply Forall_cons in Hw as [(fd & bs & E) Hw]. cbn in E. subst x.
  apply serve_cons in Hs as (fm1 & E1 & E2). unfold serve1 in E1. cbn [fst snd] in E1. destruct (_ <=? _); [|done]. injection E1 as <-. by apply (IH fm).
Qed.

Lemma put_calls_writes fd text (h : history) : h.*1 `prefix_of` put_calls fd text -> only_writes h.
Proof.
  revert h. induction text as [|c text IH]; intros [|[x a] h] Hp; try (by constructor); [by apply prefix_nil_not in Hp|].
  cbn in Hp. pose proof (prefix_cons_inv_1 _ _ _ _ Hp) as ->. apply prefix_cons_inv_2 in Hp. apply Forall_cons. split; [by eexists _, _|by apply IH].
Qed.

(** *** Programs that process their files one after the other

    Each shows an effect [eff] in its history.  For a file with name [p] and
    contents [d] that satisfies [cond] it is [res p d] if the history is [fine];
    [part] is what holds of the effect and that result before.  Such a program
    exits with 1 only in a history that is [bad], and is [neat] when it does
    not. *)
Section Files.
Context (eff : history -> list Z) (res : list Z -> list Z -> list Z) (cond : list Z -> Prop) (part : list Z -> list Z -> Prop) (fine bad neat : history -> Prop).
Hypothesis eff_app : forall h k, eff (h ++ k) = eff h ++ eff k.
Hypothesis eff_open : forall p m a, eff [(Sopen p m, a)] = [].
Hypothesis eff_close : forall fd a, eff [(Sclose fd, a)] = [].
Hypothesis part_nil : forall r, part [] r.
Hypothesis part_here : forall e r r', part e r -> part e (r ++ r').
Hypothesis part_later : forall e r r', part r r' -> part (e ++ r) (e ++ r').
Hypothesis fine_app : forall h k, fine (h ++ k) -> fine h /\ fine k.
Hypothesis bad_app_l : forall h k, bad h -> bad (h ++ k).
Hypothesis bad_app_r : forall h k, bad k -> bad (h ++ k).
Hypothesis neat_app : forall h k, neat h -> neat k -> neat (h ++ k).
Hypothesis neat_nil : neat [].
Hypothesis neat_open : forall p m a, neat [(Sopen p m, a)].
Hypothesis neat_close : forall fd a, neat [(Sclose fd, a)].

Lemma eff_nil : eff [] = [].
Proof. pose proof (eff_app [] []) as E. cbn in E. apply (app_inv_head (eff [])). by rewrite app_nil_r. Qed.

Definition stops (h : history) (o : outcome unit) : Prop :=
  o <> Owaits None /\ match o with Oexit st => st = 1 /\ bad h | Obecame _ _ => False | _ => True end.

(** What holds of the work on one file, open at [fd]. *)
Definition works (name : list Z) (fd : Z) (h : history) (o : outcome unit) : Prop :=
  stops h o /\ forall fm d fm', fm !! fd = Some d -> serve fm h = Some fm' ->
    (fine h -> cond d -> part (eff h) (res name d) /\ (o = Odone tt -> eff h = res name d)) /\
    (o = Odone tt -> neat h /\ exists rest, fm' = <[fd := rest]> fm).

Definition results (paths : list (list Z)) : list Z := concat ((fun p => res p (default [] (FS p))) <$> paths).

Lemma results_cons p paths : results (p :: paths) = results [p] ++ results paths.
Proof. unfold results. cbn. by rewrite app_nil_r. Qed.

(** What holds of the work on all of them. *)
Definition walks (paths : list (list Z)) (h : history) (o : outcome unit) : Prop :=
  stops h o /\ forall fm fm', serve fm h = Some fm' ->
    (fine h -> Forall (fun p => cond (default [] (FS p))) paths -> part (eff h) (results paths) /\ (o = Odone tt -> eff h = results paths)) /\
    (o = Odone tt -> neat h /\ Forall (fun p => is_Some (FS p)) paths /\ fm' = fm).

Lemma stops_app h k o : stops k o -> stops (h ++ k) o.
Proof. intros [H1 H2]. split; [done|]. destruct o; try done. destruct H2. split; [done|by apply bad_app_r]. Qed.

Lemma stops_leaves h (o o' : outcome unit) : stops h o -> leaves o = Some o' -> stops h o' /\ o' <> Odone tt.
Proof. intros [H1 H2] Hl. destruct o as [u|st|q v|c]; cbn in Hl; try done; injection Hl as <-; split; try done; split; congruence. Qed.

(** The work on one file, with its open and close. *)
Lemma walks_one path (run : Z -> U unit) (fail : U unit) : (forall fd, meets (run fd) (works path fd)) ->
  (forall a, a_ret a < 0 -> meets fail (fun h o => stops ((Sopen path 0, a) :: h) o /\ o <> Odone tt /\ (fine h -> part (eff h) (res path (default [] (FS path)))))) ->
  meets (let? fd := open path 0 in if fd <? 0 then fail else run fd ;? close fd ;? uret tt) (walks [path]).
Proof.
  intros Hrun Hfail. assert (results [path] = res path (default [] (FS path))) as Er by (unfold results; cbn; by rewrite app_nil_r).
  apply meets_scall_bind. 2:{ split; [done|]. intros fm fm' _. split; [intros _ _; split; [|done]|done]. rewrite eff_nil. apply part_nil. }
  intros a. destruct (Z.ltb_spec (a_ret a) 0) as [Hlt|Hge].
  - eapply meets_weaken; [by apply (Hfail a)|]. intros h o (H1 & H2 & H3). split; [done|]. intros fm fm' _. split; [|done]. intros Hf _. rewrite Er. change ((Sopen path 0, a) :: h) with ([(Sopen path 0, a)] ++ h) in *.
    rewrite eff_app, eff_open. apply fine_app in Hf as [_ Hf]. split; [by apply H3|done].
  - set (x := (Sopen path 0, a)).
    assert (forall h o, stops h o -> stops (x :: h) o) as Hx by (intros h o; apply (stops_app [x])).
    assert (forall h, eff (x :: h) = eff h) as Ex by (intros h; change (x :: h) with ([x] ++ h); rewrite eff_app; unfold x; by rewrite eff_open).
    assert (forall h, fine (x :: h) -> fine h) as Fx by (intros h; change (x :: h) with ([x] ++ h); apply fine_app).
    assert (forall fm h fm', serve fm (x :: h) = Some fm' -> exists d, FS path = Some d /\ fm !! a_ret a = None /\ serve (<[a_ret a := d]> fm) h = Some fm') as Sx.
    { intros fm h fm' (fm1 & E1 & E2)%serve_cons. unfold serve1 in E1. cbn [x fst snd] in E1. rewrite (proj2 (Z.ltb_ge _ _) Hge) in E1. destruct (FS path) as [d|], (fm !! a_ret a) eqn:En; try done. injection E1 as <-. by exists d. }
    eapply meets_bind; [apply Hrun| |].
    + intros h o o' [W1 W2] Hl. destruct (stops_leaves h o o' W1 Hl) as [St Nd].
      split; [by apply Hx|]. intros fm fm' (d & Ed & Hn & Hs)%Sx. destruct (W2 _ d fm' (lookup_insert_eq _ _ _) Hs) as [W3 _]. split; [|done]. intros Hf Hc%Forall_one. cbv beta in Hc; rewrite Ed in Hc. rewrite Er, Ex, Ed. split; [by apply W3; [apply Fx|]|done].
    + intros h [] [W1 W2]. apply meets_scall_bind; [intros c; apply meets_ret|].
      * split; [split; done|]. intros fm fm' (d & Ed & Hn & Hs)%Sx. apply serve_app in Hs as (fm1 & Hs1 & Hs2). destruct (W2 _ d fm1 (lookup_insert_eq _ _ _) Hs1) as [W3 W4]. destruct (W4 eq_refl) as (Nt & rest & ->). apply serve_cons in Hs2 as (fm2 & E2 & E3). injection E2 as <-. injection E3 as <-.
        split.
        { intros Hf Hc%Forall_one. cbv beta in Hc; rewrite Ed in Hc. apply Fx, fine_app in Hf as [Hf _]. rewrite Er, Ex, eff_app, eff_close, app_nil_r, Ed. destruct (W3 Hf Hc) as [P Q]. by split; [|intros _; apply Q]. }
        intros _. split_and!; [change (x :: h ++ [(Sclose (a_ret a), c)]) with ([x] ++ h ++ [(Sclose (a_ret a), c)]); apply neat_app; [apply neat_open|apply neat_app; [done|apply neat_close]]|apply Forall_singleton; by rewrite Ed|]. rewrite insert_insert_eq. by apply delete_insert_id.
      * rewrite app_nil_r. split; [split; done|]. intros fm fm' (d & Ed & Hn & Hs)%Sx. destruct (W2 _ d fm' (lookup_insert_eq _ _ _) Hs) as [W3 _]. split; [|done]. intros Hf Hc%Forall_one. cbv beta in Hc; rewrite Ed in Hc. rewrite Er, Ex, Ed. split; [by apply W3; [apply Fx|]|done].
Qed.

Lemma walks_all body paths : (forall p, meets (body p) (walks [p])) -> meets (for_args paths body) (walks paths).
Proof.
  intros Hb. induction paths as [|p paths IH]; cbn [for_args].
  { apply meets_ret. split; [done|]. intros fm fm' [= <-]. rewrite eff_nil.
    split; [intros _ _; by split|done]. }
  eapply meets_bind; [apply Hb| |].
  - intros h o o' [W1 W2] Hl. destruct (stops_leaves h o o' W1 Hl) as [St Nd].
    split; [done|]. intros fm fm' Hs. split; [|done]. intros Hf [Hc _]%Forall_cons. rewrite results_cons. destruct (W2 fm fm' Hs) as [W3 _]. split; [|done]. apply part_here, W3; [done|by apply Forall_singleton].
  - intros h [] [W1 W2]. eapply meets_weaken; [exact IH|]. intros h' o [V1 V2]. split; [by apply stops_app|]. intros fm fm' (fm1 & Hs1 & Hs2)%serve_app. destruct (W2 fm fm1 Hs1) as [W3 W4]. destruct (W4 eq_refl) as (N1 & F1 & ->). destruct (V2 fm fm' Hs2) as [V3 V4]. split.
    + intros [Hf1 Hf2]%fine_app [Hc1 Hc2]%Forall_cons. destruct (W3 Hf1 (proj2 (Forall_singleton _ _) Hc1)) as [_ E1]. destruct (V3 Hf2 Hc2) as [P2 E2]. rewrite results_cons, eff_app, E1 by done. split; [by apply part_later|]. intros Ho. by rewrite E2.
    + intros Ho. destruct (V4 Ho) as (N2 & F2 & ->). split_and!; [by apply neat_app| |done]. apply Forall_cons. split; [by apply Forall_one in F1|done].
Qed.
(** A program that works on its standard input when it has no arguments. *)
Definition answers (solo : bool) (stdin : list Z) (paths : list (list Z)) (h : history) (o : outcome unit) : Prop :=
  match o with Oexit st => st = 0 \/ st = 1 /\ bad h | Owaits (Some _) => True | _ => False end /\
  forall fm, serve (standard stdin) h = Some fm ->
    (fine h -> (if solo then cond stdin else Forall (fun p => cond (default [] (FS p))) paths) ->
      part (eff h) (if solo then res [] stdin else results paths) /\ (o = Oexit 0 -> eff h = if solo then res [] stdin else results paths)) /\
    (o = Oexit 0 -> neat h /\ (solo = false -> Forall (fun p => is_Some (FS p)) paths)).

Lemma main_answers (solo : bool) stdin paths (run : Z -> U unit) (body : list Z -> U unit) : (solo = true -> meets (run 0) (works [] 0)) -> (forall p, meets (body p) (walks [p])) ->
  meets ((if solo then run 0 else for_args paths body) ;? exit 0) (answers solo stdin paths).
Proof.
  intros Hrun Hb. set (R := if solo then res [] stdin else results paths). set (C := if solo then cond stdin else Forall (fun p => cond (default [] (FS p))) paths).
  assert (meets (if solo then run 0 else for_args paths body) (fun h o => stops h o /\ forall fm, serve (standard stdin) h = Some fm ->
    (fine h -> C -> part (eff h) R /\ (o = Odone tt -> eff h = R)) /\ (o = Odone tt -> neat h /\ (solo = false -> Forall (fun p => is_Some (FS p)) paths)))) as H.
  { destruct solo; [eapply meets_weaken; [by apply Hrun|]|eapply meets_weaken; [by apply walks_all|]]; intros h o [S1 S2]; (split; [done|]); intros fm Hs.
    - destruct (S2 (standard stdin) stdin fm) as [S3 S4]; [done|done|]. split; [exact S3|]. intros Ho. by destruct (S4 Ho).
    - destruct (S2 (standard stdin) fm) as [S3 S4]; [done|]. split; [exact S3|]. intros Ho. destruct (S4 Ho) as (? & ? & _). by split. }
  eapply meets_bind; [exact H| |].
  - intros h o o' [S1 S2] Hl. destruct (stops_leaves h o o' S1 Hl) as [[St1 St2] Nd]. split; [destruct o' as [u|st|q v|[c|]]; try done; [by destruct u|by right]|]. intros fm Hs. destruct (S2 fm Hs) as [S3 _].
    assert (o' <> Oexit 0) as N0 by (intros ->; by destruct St2). split; [|done]. intros Hf Hc. split; [by apply S3|done].
  - intros h [] [S1 S2]. apply meets_exit. rewrite app_nil_r. split; [by left|]. intros fm Hs. destruct (S2 fm Hs) as [S3 S4]. split; [|intros _; by apply S4]. intros Hf Hc. destruct (S3 Hf Hc) as [P E]. split; [done|]. intros _. by apply E.
Qed.
End Files.

(** ** cat *)

Definition cat_bad (h : history) : Prop := houtput 2 h <> [] /\ refused copying h.

Lemma cat_bad_failed h0 h : refused copying h0 -> houtput 2 h <> [] -> cat_bad (h0 ++ h).
Proof. intros H1 H2. split; [|by apply refused_app_l]. rewrite houtput_app. by destruct (houtput 2 h0). Qed.

Local Abbreviation cat_works := (works (accepted 1) (fun _ d => d) (fun _ => True) prefix (fun _ => True) cat_bad (fun h => houtput 2 h = [])).

(** A message after [h0]. *)
Lemma cat_works_failed name fd h0 h o : refused copying h0 -> (forall fm d fm', fm !! fd = Some d -> serve fm h0 = Some fm' -> accepted 1 h0 `prefix_of` d) -> failed 2 h o ->
  cat_works name fd (h0 ++ h) o.
Proof.
  intros Hr Hp (F1 & F2 & F3). split.
  - split; [done|]. destruct o as [u|st|p v|c]; try done. destruct F3 as [-> F3]. split; [done|by apply cat_bad_failed].
  - intros fm d fm' Hd (fm1 & Hs & _)%serve_app. rewrite accepted_app, (accepted_none 1 h), app_nil_r by (by apply F1). split; [|by intros ->]. intros _ _. split; [by eapply Hp|by intros ->].
Qed.

Lemma cat_loop_meets fuel name fd : meets (cat_loop fuel fd) (fun h o => (o = Owaits None -> (fuel <= length h)%nat) /\ (o <> Owaits None -> cat_works name fd h o)).
Proof.
  assert (forall fm d fm', fm !! fd = Some d -> serve fm [] = Some fm' -> accepted 1 [] `prefix_of` d) as Hnil by (intros; by apply accepted_quiet).
  assert (forall c, cat_works name fd [] (Owaits (Some c))) as Hw by (intros c; split; [done|]; intros fm d fm' _ _; split; [intros _ _; split; [by apply accepted_quiet|done]|done]).
  induction fuel as [|fuel IH]; cbn [cat_loop]; [by apply meets_stuck|]. apply meets_uread_bind; [|by split]. intros r. cbn [fst snd].
  destruct (Z.ltb_spec 0 (a_ret r)) as [Hpos|Hneg]; [|destruct (Z.ltb_spec (a_ret r) 0) as [Hlt|Hge]].
  - set (bs := take (Z.to_nat (a_ret r)) (a_data r)). assert (forall fm d fm1 h, fm !! fd = Some d -> serve fm ((Sread fd 512, r) :: h) = Some fm1 ->
      bs = take (Z.to_nat (a_ret r)) d /\ (Z.to_nat (a_ret r) <= length d)%nat /\ serve (<[fd := drop (Z.to_nat (a_ret r)) d]> fm) h = Some fm1) as Hread.
    { intros fm d fm1 h Hd (fm2 & E1 & E2)%serve_cons. destruct (serve_read _ _ _ _ _ d E1 Hd ltac:(lia)) as (-> & E3 & E4 & _). done. }
    apply meets_scall_bind.
    2:{ split; [done|]. intros _. split; [done|]. intros fm d fm' _ _. split; [intros _ _; split; [by apply accepted_quiet|done]|done]. }
    intros k. set (h0 := [(Sread fd 512, r); (Swrite 1 bs, k)]). assert (accepted 1 h0 = take (Z.to_nat (a_ret k)) bs) as E0 by (unfold accepted, accepted_by; cbn; by rewrite take_nil, app_nil_r).
    destruct (Z.eqb_spec (a_ret k) (a_ret r)) as [E|E]; cbn [negb].
    + eapply meets_weaken; [exact IH|]. intros h o [Hb HI]. change ((o = Owaits None -> (S fuel <= length (h0 ++ h))%nat) /\ (o <> Owaits None -> cat_works name fd (h0 ++ h) o)). split.
      { intros Ho. specialize (Hb Ho). rewrite length_app. cbn [length h0]. lia. }
      intros Ho. destruct (HI Ho) as [[_ St] HI2]. split; [split; [done|]; destruct o; try done; destruct St as [? [? ?]]; split; [done|]; split; [rewrite houtput_app; by destruct (houtput 2 h0)|by apply refused_app_r]|].
      intros fm d fm' Hd Hs. destruct (Hread fm d fm' _ Hd Hs) as (Eb & El & Hs'). clear Hs. rename Hs' into Hs. apply serve_cons in Hs as (fm2 & E2 & Hs). assert (fm2 = <[fd := drop (Z.to_nat (a_ret r)) d]> fm) as -> by (unfold serve1 in E2; cbn [fst snd] in E2; destruct (_ <=? _); [by injection E2|done]).
      destruct (HI2 _ (drop (Z.to_nat (a_ret r)) d) fm' (lookup_insert_eq _ _ _) Hs) as [I1 I2]. rewrite accepted_app, E0, E, Eb, take_take, Nat.min_id. split.
      * intros _ _. destruct (I1 I I) as [I3 I4]. rewrite <- (take_drop (Z.to_nat (a_ret r)) d) at 2 4. split; [by apply prefix_app|]. intros ->. by rewrite I4.
      * intros Hdn. destruct (I2 Hdn) as (I3 & rest & ->). rewrite houtput_app, I3. split; [done|]. exists rest. by rewrite insert_insert_eq.
    + eapply meets_weaken; [by apply fails_meets|]. intros h o Hf. split; [by intros ->; destruct Hf as (_ & [] & _)|]. intros _. apply (cat_works_failed name fd h0); [| |done].
      * destruct (decide (Z.of_nat (length (a_data r)) < a_ret r)) as [Hs|Hs]; [apply refused_now; [done|by right]|]. apply refused_later, refused_now; [done|]. cbn. unfold bs. rewrite length_take. lia.
      * intros fm d fm' Hd Hs. destruct (Hread fm d fm' _ Hd Hs) as (Eb & El & _). rewrite E0, Eb, take_take. apply prefix_take.
  - eapply meets_weaken; [by apply fails_meets|]. intros h o Hf. split; [by intros ->; destruct Hf as (_ & [] & _)|]. intros _. apply (cat_works_failed name fd [(Sread fd 512, r)]); [apply refused_now; [done|by left]| |done]. intros. by apply accepted_quiet.
  - apply meets_ret. split; [done|]. intros _. split; [done|]. intros fm d fm' Hd (fm2 & E1 & E2)%serve_cons. assert (a_ret r = 0) as E0 by lia. destruct (serve_read _ _ _ _ _ d E1 Hd ltac:(lia)) as (-> & _ & _ & _ & Ed). destruct (Ed E0) as [?|Hd0]; [lia|]. subst d.
    split; [intros _ _; split; [by apply accepted_quiet|intros _; by apply accepted_none]|]. intros _. split; [done|]. injection E2 as <-. by eexists.
Qed.

Lemma cat_meets name fd : meets (cat fd) (cat_works name fd).
Proof. eapply meets_weaken; [apply meets_looping; intros fuel; apply (cat_loop_meets fuel name)|]. intros h o (H1 & H2). by apply H2. Qed.

(** The bytes that a program with the arguments [argv] works on: its files, or
    its standard input. *)
Definition text (stdin : list Z) (argv : list (list Z)) : list Z :=
  if argc argv <=? 1 then stdin else concat ((fun p => default [] (FS p)) <$> tail argv).

Lemma solo_args argv : (argc argv <=? 1) = true -> tail argv = [].
Proof. unfold argc. intros H%Z.leb_le. destruct argv as [|a [|b argv]]; [done|done|cbn in H; lia]. Qed.

(** C37: Cat copies its files to its output.  Whatever the kernel answers, cat
    exits with 0, or with 1 after the kernel refused an open, a read or a write
    and a message on descriptor 2, or is in a system call that has not returned.
    If the kernel serves files, the bytes it has taken from cat on descriptor 1
    are at any time a prefix of the contents of the files, in order, and when
    cat exits with 0 they are all of it, every file exists, and nothing was
    written to descriptor 2. *)
Theorem cat_correct stdin argv : meets (cat_main argv) (fun h o =>
  match o with Oexit st => st = 0 \/ st = 1 /\ houtput 2 h <> [] /\ refused copying h | Owaits (Some _) => True | _ => False end /\
  forall fm, serve (standard stdin) h = Some fm ->
    accepted 1 h `prefix_of` text stdin argv /\
    (o = Oexit 0 -> accepted 1 h = text stdin argv /\ houtput 2 h = [] /\ Forall (fun p => is_Some (FS p)) (tail argv))).
Proof.
  pose (body := fun path => let? fd := open path 0 in if fd <? 0 then fprintf 2 (msg "cat: cannot open %s") [UStr (Some path)] ;? exit 1 else cat fd ;? close fd ;? uret tt).
  apply (meets_eta _ ((if argc argv <=? 1 then cat 0 else for_args (tail argv) body) ;? exit 0)); [intros w; unfold cat_main; by destruct (argc argv <=? 1)|].
  eapply meets_weaken.
  - apply (main_answers (accepted 1) (fun _ d => d) (fun _ => True) prefix (fun _ => True) cat_bad (fun h => houtput 2 h = [])) with (stdin := stdin); try done.
    + apply accepted_app.
    + intros r. apply prefix_nil.
    + intros e r r'. by apply prefix_app_r.
    + intros e r r'. by apply prefix_app.
    + intros h k [H1 H2]. split; [rewrite houtput_app; by destruct (houtput 2 h)|by apply refused_app_r].
    + intros h k H1 H2. by rewrite houtput_app, H1, H2.
    + intros _. apply cat_meets.
    + intros p. apply (walks_one (accepted 1) (fun _ d => d) (fun _ => True) prefix (fun _ => True) cat_bad (fun h => houtput 2 h = [])); try done.
      * apply accepted_app.
      * intros p' m a. by apply accepted_none.
      * intros fd a. by apply accepted_none.
      * intros r. apply prefix_nil.
      * intros h k [H1 H2]. split; [rewrite houtput_app; by destruct (houtput 2 h)|by apply refused_app_r].
      * intros h k H1 H2. by rewrite houtput_app, H1, H2.
      * apply cat_meets.
      * intros a Ha. eapply meets_weaken; [by apply fails_meets|]. intros h o (F1 & F2 & F3). split_and!; [split; [done|]|by intros ->|intros _; by apply accepted_quiet, F1].
        destruct o as [u|st|q v|c]; try done. destruct F3 as [-> F3]. split; [done|]. apply (cat_bad_failed [(Sopen p 0, a)]); [by apply refused_now|done].
  - intros h o [H1 H2]. split; [done|]. intros fm Hs. destruct (H2 fm Hs) as [H3 H4]. unfold text, results in *. destruct (argc argv <=? 1) eqn:Ea.
    + destruct (H3 I I) as [P E]. split; [done|]. intros Ho. destruct (H4 Ho) as [N _]. split_and!; [by apply E|done|]. by rewrite solo_args.
    + destruct (H3 I) as [P E]; [by apply Forall_true|]. split; [done|]. intros Ho. destruct (H4 Ho) as [N F]. split_and!; [by apply E|done|by apply F].
Qed.

(** ** wc *)

(** The text between white space; the words of a text are those that are not
    empty. *)
Fixpoint segments (bs : list Z) : list (list Z) :=
  match bs with
  | [] => [[]]
  | b :: bs' => if is_space b then [] :: segments bs' else match segments bs' with s :: ss => (b :: s) :: ss | [] => [[b]] end
  end.

Definition words (bs : list Z) : list (list Z) := filter (fun w => w <> []) (segments bs).
Definition newlines (bs : list Z) : list Z := filter (fun b => b = 10) bs.

Lemma segments_cons bs : exists s ss, segments bs = s :: ss.
Proof. destruct bs as [|b bs]; cbn [segments]; [by eexists _, _|]. destruct (is_space b); [by eexists _, _|]. destruct (segments bs); by eexists _, _. Qed.

(** Whether the text begins with a word. *)
Definition starts (bs : list Z) : Z := match segments bs with [] :: _ | [] => 0 | _ => 1 end.
Definition nwords (bs : list Z) : Z := Z.of_nat (length (words bs)).

Lemma nwords_cons b bs : nwords (b :: bs) = (if is_space b then nwords bs else nwords bs + 1 - starts bs) /\ starts (b :: bs) = (if is_space b then 0 else 1).
Proof.
  unfold nwords, words, starts. destruct (segments_cons bs) as (s & ss & E). cbn [segments]. rewrite E. destruct (is_space b); [done|].
  split; [|done]. rewrite filter_cons_True by done. destruct s as [|c s]; [rewrite filter_cons_False by (intros H; by apply H)|rewrite filter_cons_True by done]; cbn [length]; lia.
Qed.

Lemma starts_range bs : 0 <= starts bs <= 1 /\ (starts bs <= nwords bs).
Proof.
  destruct bs as [|b bs]; [done|]. destruct (nwords_cons b bs) as [E1 E2]. rewrite E1, E2. destruct (is_space b); [unfold nwords; lia|].
  assert (0 <= starts bs <= 1 /\ starts bs <= nwords bs) as [H1 H2].
  { clear. unfold starts, nwords, words. destruct (segments_cons bs) as (s & ss & ->). destruct s as [|c s]; [lia|]. rewrite filter_cons_True by done. cbn [length]. lia. }
  lia.
Qed.

(** What wc_scan has counted, as long as the counts fit in an int. *)
Lemma wc_scan_spec bs : forall k, 0 <= wc_l k <= wc_c k -> 0 <= wc_w k <= wc_c k -> wc_c k + Z.of_nat (length bs) < 2147483648 ->
  let k' := wc_scan bs k in
  wc_c k' = wc_c k + Z.of_nat (length bs) /\ wc_l k' = wc_l k + Z.of_nat (length (newlines bs)) /\
  wc_w k' = wc_w k + nwords bs - (if wc_inword k then starts bs else 0) /\ wc_l k' <= wc_c k' /\ wc_w k' <= wc_c k'.
Proof.
  induction bs as [|b bs IH]; intros k Hl Hw Hc; cbn [wc_scan length] in *.
  { change (nwords []) with 0. change (starts []) with 0. change (newlines []) with (@nil Z). cbn [length]. destruct (wc_inword k); lia. }
  destruct (nwords_cons b bs) as [E1 E2]. rewrite E1, E2. pose proof (starts_range bs) as [S1 S2]. unfold newlines. rewrite filter_cons. fold (newlines bs).
  rewrite (s32_small (wc_c k + 1)) by lia. set (l := if b =? 10 then s32 (wc_l k + 1) else wc_l k).
  assert (l = wc_l k + (if decide (b = 10) then 1 else 0) /\ 0 <= l <= wc_c k + 1) as [El Hl'] by (unfold l; destruct (Z.eqb_spec b 10); [rewrite decide_True, s32_small by lia|rewrite decide_False by done]; lia).
  clearbody l. destruct (is_space b); [|destruct (wc_inword k); cbn [negb]].
  - destruct (IH (Counts l (wc_w k) (wc_c k + 1) false)) as (I1 & I2 & I3 & I4 & I5); cbn [wc_c wc_l wc_w wc_inword] in *; [lia|lia|lia|]. destruct (wc_inword k), (decide (b = 10)); cbn [length]; lia.
  - destruct (IH (Counts l (wc_w k) (wc_c k + 1) true)) as (I1 & I2 & I3 & I4 & I5); cbn [wc_c wc_l wc_w wc_inword] in *; [lia|lia|lia|]. destruct (decide (b = 10)); cbn [length]; lia.
  - rewrite (s32_small (wc_w k + 1)) by lia. destruct (IH (Counts l (wc_w k + 1) (wc_c k + 1) true)) as (I1 & I2 & I3 & I4 & I5); cbn [wc_c wc_l wc_w wc_inword] in *; [lia|lia|lia|]. destruct (decide (b = 10)); cbn [length]; lia.
Qed.

Lemma wc_scan_app a : forall b k, wc_scan (a ++ b) k = wc_scan b (wc_scan a k).
Proof. induction a as [|x a IH]; intros b k; [done|]. cbn [app wc_scan]. apply IH. Qed.

(** The line that wc prints of a file with the contents [d]. *)
Definition report (name d : list Z) : list Z :=
  u8 <$> rendered (str (msg "%d %d %d %s")) [UWord (Z.of_nat (length (newlines d))); UWord (nwords d); UWord (Z.of_nat (length d)); UStr (Some name)].

Lemma wc_print name d : Z.of_nat (length d) < 2147483648 -> let k := wc_scan d (Counts 0 0 0 false) in
  u8 <$> rendered (str (msg "%d %d %d %s")) [UWord (wc_l k); UWord (wc_w k); UWord (wc_c k); UStr (Some name)] = report name d.
Proof.
  intros Hlen k. destruct (wc_scan_spec d (Counts 0 0 0 false)) as (E1 & E2 & E3 & _); [cbn; lia|cbn; lia|cbn; lia|]. fold k in E1, E2, E3. unfold report. rewrite E1, E2, E3. cbn [wc_c wc_l wc_w wc_inword].
  by rewrite Z.sub_0_r, !Z.add_0_l.
Qed.

(** The counts are those of the bytes to come. *)
Lemma wc_loop_meets fuel fd : forall k, meets (wc_loop fuel fd k) (fun h o => (o = Owaits None -> (fuel <= length h)%nat) /\ houtput 1 h = [] /\
  match o with Odone r => r.1 < 0 -> refused reading h | Owaits _ => True | _ => False end /\
  forall fm d fm' r, o = Odone r -> 0 <= r.1 -> fm !! fd = Some d -> serve fm h = Some fm' -> r.2 = wc_scan d k /\ exists rest, fm' = <[fd := rest]> fm).
Proof.
  induction fuel as [|fuel IH]; intros k; cbn [wc_loop]; [by apply meets_stuck|]. apply meets_uread_bind; [|done]. intros r. cbn [fst snd]. destruct (Z.ltb_spec 0 (a_ret r)).
  - eapply meets_weaken; [apply IH|]. intros h o (H1 & H2 & H3 & H4). split_and!; [intros Ho; specialize (H1 Ho); cbn [length]; lia|done|destruct o; try done; intros Hx; by apply refused_later, H3|].
    intros fm d fm' x -> Hx Hd (fm1 & E1 & E2)%serve_cons. destruct (serve_read _ _ _ _ _ d E1 Hd ltac:(lia)) as (-> & E3 & _). destruct (H4 _ (drop (Z.to_nat (a_ret r)) d) fm' x eq_refl Hx (lookup_insert_eq _ _ _) E2) as (-> & rest & ->).
    split; [|exists rest; by rewrite insert_insert_eq]. rewrite E3, <- wc_scan_app, take_drop. done.
  - apply meets_ret. split_and!; try done; [intros Hx; apply refused_now; [done|by left]|]. intros fm d fm' x [= <-] Hx Hd (fm1 & E1 & E2)%serve_cons. cbn [fst snd] in *. assert (a_ret r = 0) as E0 by lia.
    destruct (serve_read _ _ _ _ _ d E1 Hd ltac:(lia)) as (-> & _ & _ & _ & Ed). destruct (Ed E0) as [?|Hd0]; [lia|]. subst d. split; [done|]. injection E2 as <-. by eexists.
Qed.

Definition wc_small (d : list Z) : Prop := Z.of_nat (length d) < 2147483648.

Local Abbreviation wc_works := (works (houtput 1) report wc_small (fun _ _ => True) (fun _ => True) (refused reading) (fun _ => True)).

Lemma wc_fits a : longs_fit (str (msg "%d %d %d %s")) a = true.
Proof. reflexivity. Qed.

Lemma wc_meets name fd : meets (wc fd name) (wc_works name fd).
Proof.
  unfold wc. eapply meets_bind; [apply meets_looping; intros fuel; apply wc_loop_meets| |].
  - intros h o o' (H0 & _ & H & _) Hl. destruct o as [x|st|p v|c]; cbn in Hl; try done. injection Hl as <-. split; [split; [congruence|done]|]. intros fm d fm' _ _. by split.
  - intros h [n k] (_ & H1 & H2 & H3). cbn [fst snd] in *. destruct (Z.ltb_spec n 0).
    + eapply meets_weaken; [by apply complains_meets|]. intros h' o (_ & F2 & F3). split; [split; [done|]|intros fm d fm' _ _; split; [intros _ _; split; [done|by intros ->]|by intros ->]].
      destruct o; try done. destruct F3. split; [done|]. by apply refused_app_l, H2.
    + eapply meets_weaken; [apply uprintf_prints, wc_fits|]. intros h' o [Hp Ho]. split; [split; [by intros ->|by destruct o]|]. intros fm d fm' Hd (fm1 & Hs1 & Hs2)%serve_app.
      destruct (H3 fm d fm1 (n, k) eq_refl ltac:(done) Hd Hs1) as (Ek & rest & ->). cbn [snd] in Ek. subst k. split.
      * intros _ Hc. split; [done|]. intros ->. rewrite houtput_app, H1. cbv beta iota in Ho. unfold houtput. rewrite Ho, put_calls_output, Z.eqb_refl. rewrite (wc_print name d Hc). reflexivity.
      * intros _. split; [done|]. exists rest. apply (serve_writes h'); [by eapply put_calls_writes|done].
Qed.

(** What wc prints: the report of each file, in order, or that of its standard
    input. *)
Definition reports (stdin : list Z) (argv : list (list Z)) : list Z :=
  if argc argv <=? 1 then report [] stdin else concat ((fun p => report p (default [] (FS p))) <$> tail argv).

(** C36: Wc counts.  Whatever the kernel answers, wc exits with 0, or with 1
    after the kernel refused an open or a read, or is in a system call that has
    not returned.  If the kernel serves files of less than 2^31 bytes and wc
    exits with 0, then all its files exist and it has written to descriptor 1
    for each, in order, a line with the number of the file's newlines, of its
    words (the maximal runs of bytes that are not white space) and of its bytes,
    and with its name, however read cut the files into pieces. *)
Theorem wc_correct stdin argv : meets (wc_main argv) (fun h o =>
  match o with Oexit st => st = 0 \/ st = 1 /\ refused reading h | Owaits (Some _) => True | _ => False end /\
  forall fm, serve (standard stdin) h = Some fm -> o = Oexit 0 ->
    Forall (fun p => is_Some (FS p)) (tail argv) /\
    (wc_small stdin -> Forall (fun p => wc_small (default [] (FS p))) (tail argv) -> houtput 1 h = reports stdin argv)).
Proof.
  pose (body := fun path => let? fd := open path 0 in if fd <? 0 then uprintf (msg "wc: cannot open %s") [UStr (Some path)] ;? exit 1 else wc fd path ;? close fd ;? uret tt).
  apply (meets_eta _ ((if argc argv <=? 1 then wc 0 [] else for_args (tail argv) body) ;? exit 0)); [intros w; unfold wc_main; by destruct (argc argv <=? 1)|].
  eapply meets_weaken.
  - apply (main_answers (houtput 1) report wc_small (fun _ _ => True) (fun _ => True) (refused reading) (fun _ => True)) with (stdin := stdin) (run := fun fd => wc fd []); try done.
    + apply houtput_app.
    + intros h k. apply refused_app_r.
    + intros _. apply wc_meets.
    + intros p. apply (walks_one (houtput 1) report wc_small (fun _ _ => True) (fun _ => True) (refused reading) (fun _ => True)) with (run := fun fd => wc fd p); try done.
      * apply houtput_app.
      * intros h k. apply refused_app_r.
      * intros fd. apply wc_meets.
      * intros a Ha. eapply meets_weaken; [by apply complains_meets|]. intros h o (_ & F2 & F3). split_and!; [split; [done|]|by intros ->|done].
        destruct o as [u|st|q v|c]; try done. destruct F3 as [-> F3]. split; [done|]. by apply refused_now.
  - intros h o [H1 H2]. split; [done|]. intros fm Hs Ho. destruct (H2 fm Hs) as [H3 H4]. destruct (H4 Ho) as [_ F]. unfold reports, results in *. destruct (argc argv <=? 1) eqn:Ea.
    + rewrite solo_args by done. split; [done|]. intros Hc _. by apply H3.
    + split; [by apply F|]. intros _ Hc. by apply H3.
Qed.

(** ** grep *)

(** The lines that match, written one at a time. *)
Lemma ugrep_lines_meets fuel pattern : forall p, meets (ugrep_lines fuel pattern p) (fun h o => only_writes h /\
  match o with Odone rest => rest = (grep_lines fuel pattern p).1 /\ houtput 1 h = (grep_lines fuel pattern p).2 | Owaits (Some _) => True | _ => False end).
Proof.
  induction fuel as [|fuel IH]; intros p; cbn [ugrep_lines grep_lines]; [by apply meets_ret; split; [constructor|]|]. destruct (strchr p NEWLINE) as [q|]; [|by apply meets_ret; split; [constructor|]]. destruct (match_ pattern (take q p)).
  - apply (meets_eta _ (ubind (scall (Swrite 1 (take (q + 1) p))) (fun _ => ugrep_lines fuel pattern (drop (q + 1) p)))); [intros [[|a ans] log]; done|].
    apply meets_scall_bind; [|by split; [constructor|]]. intros a. eapply meets_weaken; [apply IH|]. intros h o [Hw H4]. split; [apply Forall_cons; split; [by eexists _, _|done]|]. destruct o as [r|st|p' v|c]; try done. destruct H4 as [-> H4]. cbn [fst snd]. split; [done|].
    change (houtput 1 ([(Swrite 1 (take (q + 1) p), a)] ++ h) = take (q + 1) p ++ (grep_lines fuel pattern (drop (q + 1) p)).2). rewrite houtput_app, H4. unfold houtput, output. cbn. by rewrite app_nil_r.
  - eapply meets_weaken; [apply (meets_eta _ (ugrep_lines fuel pattern (drop (q + 1) p))); [done|apply IH]|]. done.
Qed.

(** A file that grep reads as it should: without nul bytes, and with lines that
    fit its buffer. *)
Definition greppable (d : list Z) : Prop := (0 ∉ d) /\ Forall (fun l => (length l < sizeof_buf - 1)%nat) (fst (lines d)).

(** [buf] is the unfinished line, [d] what is still to be read. *)
Lemma ugrep_loop_meets fuel pattern fd : forall buf, meets (ugrep_loop fuel pattern buf fd) (fun h o => (o = Owaits None -> (fuel <= length h)%nat) /\
  match o with Odone _ | Owaits _ => True | _ => False end /\
  forall fm d fm', fm !! fd = Some d -> serve fm h = Some fm' -> o = Odone tt ->
    (exists rest, fm' = <[fd := rest]> fm) /\
    (~ refused receiving h -> lines buf = ([], buf) -> greppable (buf ++ d) -> houtput 1 h = selected pattern (fst (lines (buf ++ d))))).
Proof.
  induction fuel as [|fuel IH]; intros buf; cbn [ugrep_loop]; [by apply meets_stuck|]. apply meets_uread_bind; [|done]. intros r. cbn [fst snd].
  set (n := (sizeof_buf - length buf - 1)%nat). set (c0 := (Sread fd (Z.of_nat n), r)). destruct (Z.ltb_spec 0 (a_ret r)) as [Hpos|Hneg].
  - set (k := Z.to_nat (a_ret r)). set (bs := take k (a_data r)). eapply meets_bind; [apply ugrep_lines_meets| |].
    + intros h o o' [_ H3] Hl. destruct o as [x|st|p v|[c|]]; cbn in Hl; try done. by injection Hl as <-.
    + intros h1 rest (Hw & Er & Eo). eapply meets_weaken; [apply IH|]. intros h o (B & St & H4). split_and!; [intros Ho; specialize (B Ho); cbn [length]; rewrite length_app; lia|done|].
      intros fm d fm' Hd (fm1 & E1 & E2)%serve_cons ->. destruct (serve_read _ _ _ _ _ d E1 Hd ltac:(lia)) as (-> & E3 & E4 & _). fold k in E2, E3, E4. apply serve_app in E2 as (fm2 & E5 & E6).
      apply serve_writes in E5 as ->; [|done]. destruct (H4 _ (drop k d) fm' (lookup_insert_eq _ _ _) E6 eq_refl) as [(rest' & ->) H5]. split; [exists rest'; by rewrite insert_insert_eq|].
      intros Hnr Hb [H0 Hl]. change (houtput 1 (c0 :: h1 ++ h)) with (houtput 1 (h1 ++ h)). fold bs in E3.
      assert (buf ++ d = (buf ++ bs) ++ drop k d) as Hsplit by (by rewrite E3, <- app_assoc, take_drop). rewrite Hsplit in H0, Hl |- *. assert (0 ∉ buf ++ bs) as H0' by (intros Hin; apply H0, elem_of_app; by left).
      rewrite grep_lines_spec in Er, Eo by (done || lia). cbn [fst snd] in Er, Eo. subst rest. rewrite (lines_app (buf ++ bs)) in Hl. rewrite houtput_app, Eo, (lines_app (buf ++ bs) (drop k d)). cbn [fst] in *. rewrite selected_app. f_equal. apply Forall_app in Hl as [_ Hl].
      apply H5; [intros Hx; by apply Hnr, refused_later, refused_app_r|apply lines_rest|]. split; [|done]. rewrite elem_of_app in *. intros [Hin|Hin]; [apply H0; left; by apply lines_rest_sub|tauto].
  - apply meets_ret. split_and!; [done|done|]. intros fm d fm' Hd (fm1 & E1 & E2)%serve_cons _. injection E2 as <-. destruct (Z.ltb_spec (a_ret r) 0) as [Hlt|Hge].
    + unfold serve1 in E1. cbn [c0 fst snd] in E1. rewrite (proj2 (Z.ltb_lt _ _) Hlt) in E1. injection E1 as <-. split; [exists d; by rewrite insert_id|]. intros Hnr. destruct Hnr. apply refused_now; [done|by left].
    + destruct (serve_read _ _ _ _ _ d E1 Hd Hge) as (-> & _ & _ & _ & Ed). split; [by eexists|]. intros _ Hb [_ Hl]. change (houtput 1 [c0]) with (@nil Z). destruct Ed as [Hn|Hd0]; [lia| |].
      * destruct (fst (lines (buf ++ d))) as [|l ls] eqn:E; [done|]. pose proof (lines_long buf d l ls Hb E). apply Forall_cons in Hl as [Hl _]. unfold n in Hn. lia.
      * by rewrite Hd0, app_nil_r, Hb.
Qed.

Definition grep_result (pattern : list Z) (name d : list Z) : list Z := selected pattern (fst (lines d)).

Local Abbreviation grep_works pattern := (works (houtput 1) (grep_result pattern) greppable (fun _ _ => True) (fun h => ~ refused receiving h) (refused opening) (fun _ => True)).

Lemma ugrep_meets pattern name fd : meets (ugrep pattern fd) (grep_works pattern name fd).
Proof.
  unfold ugrep. eapply meets_weaken; [apply meets_looping; intros fuel; apply (ugrep_loop_meets fuel pattern fd [])|]. intros h o (H0 & H1 & H2). split; [split; [done|by destruct o]|].
  intros fm d fm' Hd Hs. split; [|intros Ho; split; [done|by apply (H2 fm d fm')]]. intros Hf Hc. split; [done|]. intros Ho. by apply (H2 fm d fm').
Qed.

(** What grep prints of its files, or of its standard input. *)
Definition matching (pattern stdin : list Z) (paths : list (list Z)) : list Z :=
  match paths with [] => selected pattern (fst (lines stdin)) | _ => concat ((fun p => selected pattern (fst (lines (default [] (FS p))))) <$> paths) end.

Lemma not_refused_app K h k : ~ refused K (h ++ k) -> ~ refused K h /\ ~ refused K k.
Proof. intros H. split; intros H'; apply H; [by apply refused_app_l|by apply refused_app_r]. Qed.

(** C32: Grep prints the lines that match.  Whatever the kernel answers, grep with
    a pattern exits with 0, or with 1 after the kernel refused an open, or is in
    a system call that has not returned.  If the kernel serves files without nul
    bytes and with lines of less than 1023 bytes, grep exits with 0 and no read
    was refused, then all its files exist and it has written to descriptor 1
    exactly the complete lines of the files, in order, that the pattern matches.
    A read that fails it takes for the end of the file. *)
Theorem grep_main_correct stdin prog pattern paths : meets (grep_main (prog :: pattern :: paths)) (fun h o =>
  match o with Oexit st => st = 0 \/ st = 1 /\ refused opening h | Owaits (Some _) => True | _ => False end /\
  forall fm, serve (standard stdin) h = Some fm -> o = Oexit 0 ->
    Forall (fun p => is_Some (FS p)) paths /\
    (~ refused receiving h -> greppable stdin -> Forall (fun p => greppable (default [] (FS p))) paths -> houtput 1 h = matching pattern stdin paths)).
Proof.
  pose (body := fun path => let? fd := open path 0 in if fd <? 0 then uprintf (msg "grep: cannot open %s") [UStr (Some path)] ;? exit 1 else ugrep pattern fd ;? close fd ;? uret tt).
  set (solo := argc (prog :: pattern :: paths) <=? 2). assert (solo = match paths with [] => true | _ => false end) as Es by (unfold solo, argc; destruct paths as [|p ps]; [done|]; apply Z.leb_gt; cbn [length]; lia).
  apply (meets_eta _ ((if solo then ugrep pattern 0 else for_args paths body) ;? exit 0)).
  { intros w. unfold grep_main. rewrite (proj2 (Z.leb_gt _ 1)) by (unfold argc; cbn [length]; lia). cbv zeta. change (drop 2 (prog :: pattern :: paths)) with paths. change (arg (prog :: pattern :: paths) 1) with pattern. fold solo. by destruct solo. }
  eapply meets_weaken.
  - apply (main_answers (houtput 1) (grep_result pattern) greppable (fun _ _ => True) (fun h => ~ refused receiving h) (refused opening) (fun _ => True)) with (stdin := stdin) (run := ugrep pattern); try done.
    + apply houtput_app.
    + apply not_refused_app.
    + intros h k. apply refused_app_r.
    + intros _. apply ugrep_meets.
    + intros p. apply (walks_one (houtput 1) (grep_result pattern) greppable (fun _ _ => True) (fun h => ~ refused receiving h) (refused opening) (fun _ => True)) with (run := ugrep pattern); try done.
      * apply houtput_app.
      * apply not_refused_app.
      * intros h k. apply refused_app_r.
      * intros fd. apply ugrep_meets.
      * intros a Ha. eapply meets_weaken; [by apply complains_meets|]. intros h o (_ & F2 & F3). split_and!; [split; [done|]|by intros ->|done].
        destruct o as [u|st|q v|c]; try done. destruct F3 as [-> F3]. split; [done|]. by apply refused_now.
  - intros h o [H1 H2]. split; [done|]. intros fm Hs Ho. destruct (H2 fm Hs) as [H3 H4]. destruct (H4 Ho) as [_ F]. unfold matching, results, grep_result in *. rewrite Es in *. destruct paths as [|p ps].
    + split; [done|]. intros Hr Hc _. by apply H3.
    + split; [by apply F|]. intros Hr _ Hc. by apply H3.
Qed.
End Served.

(** ** Runs on a kernel with two files *)

Definition two_files (p : list Z) : option (list Z) :=
  if bool_decide (p = str "a") then Some (str (msg "one two")) else if bool_decide (p = str "b") then Some (str (msg "three")) else None.

(** The files are read in pieces of five bytes or less, and what is printed is
    taken byte by byte. *)
Definition read_of (fd n : Z) (d : string) : sys * answer := (Sread fd n, Answer (Z.of_nat (length (str d))) (str d)).
Definition write_of (d : string) : sys * answer := (Swrite 1 (str d), Answer (Z.of_nat (length (str d))) []).
Definition open_of (p : string) (fd : Z) : sys * answer := (Sopen (str p) 0, Answer fd []).
Definition close_of (fd : Z) : sys * answer := (Sclose fd, Answer 0 []).
Definition printed (d : string) : history := (fun c => (Swrite 1 [c], Answer 1 [])) <$> str d.

Definition cat_history : history :=
  [open_of "a" 3; read_of 3 512 "one t"; write_of "one t"; read_of 3 512 (msg "wo"); write_of (msg "wo"); read_of 3 512 ""; close_of 3;
   open_of "b" 3; read_of 3 512 "thr"; write_of "thr"; read_of 3 512 (msg "ee"); write_of (msg "ee"); read_of 3 512 ""; close_of 3].
Definition wc_history : history :=
  [open_of "a" 3; read_of 3 512 "one t"; read_of 3 512 (msg "wo"); read_of 3 512 ""] ++ printed (msg "1 2 8 a") ++ [close_of 3].
Definition grep_history : history :=
  [open_of "a" 3; read_of 3 1023 "one t"; read_of 3 1018 (msg "wo"); read_of 3 1023 ""; close_of 3;
   open_of "b" 3; read_of 3 1023 (msg "three"); write_of (msg "three"); read_of 3 1023 ""; close_of 3].

Example cat_runs :
  cat_main [str "cat"; str "a"; str "b"] (World cat_history.*2 []) = Exit 0 (World [] cat_history.*1) /\
  is_Some (serve two_files (standard []) cat_history) /\ accepted 1 cat_history = str (msg "one two") ++ str (msg "three").
Proof. split_and!; [vm_compute; reflexivity|vm_compute; by eexists|vm_compute; reflexivity]. Qed.

Example wc_runs :
  wc_main [str "wc"; str "a"] (World wc_history.*2 []) = Exit 0 (World [] wc_history.*1) /\
  is_Some (serve two_files (standard []) wc_history) /\ houtput 1 wc_history = str (msg "1 2 8 a").
Proof. split_and!; [vm_compute; reflexivity|vm_compute; by eexists|vm_compute; reflexivity]. Qed.

Example grep_runs :
  grep_main [str "grep"; str "h.*e"; str "a"; str "b"] (World grep_history.*2 []) = Exit 0 (World [] grep_history.*1) /\
  is_Some (serve two_files (standard []) grep_history) /\ houtput 1 grep_history = str (msg "three").
Proof. split_and!; [vm_compute; reflexivity|vm_compute; by eexists|vm_compute; reflexivity]. Qed.

(** ** init *)

(** The shell that init has started and not seen exit; None when it starts a
    second one. *)
Definition shell_step (cur : option Z) (x : sys * answer) : option (option Z) :=
  match x.1 with
  | Sfork => if 0 <? a_ret x.2 then match cur with None => Some (Some (a_ret x.2)) | Some _ => None end else Some cur
  | Swait => Some (if bool_decide (cur = Some (a_ret x.2)) then None else cur)
  | _ => Some cur
  end.

Fixpoint shell_run (cur : option Z) (h : history) : option (option Z) :=
  match h with
  | [] => Some cur
  | x :: h' => shell_step cur x ≫= fun cur => shell_run cur h'
  end.

Lemma shell_run_app h : forall cur k, shell_run cur (h ++ k) = shell_run cur h ≫= fun cur => shell_run cur k.
Proof. induction h as [|x h IH]; intros cur k; [done|]. cbn [app shell_run]. destruct (shell_step cur x) as [cur'|]; [|done]. cbn. apply IH. Qed.

Lemma put_calls_shell fd text (h : history) cur : h.*1 `prefix_of` put_calls fd text -> shell_run cur h = Some cur.
Proof.
  revert h. induction text as [|c text IH]; intros [|[s a] h] Hp; try done; [by apply prefix_nil_not in Hp|].
  cbn in Hp. pose proof (prefix_cons_inv_1 _ _ _ _ Hp) as ->. apply prefix_cons_inv_2 in Hp. cbn. by apply IH.
Qed.

(** From the shell [cur] a run keeps to one shell; if it returns it leaves [next],
    and it does not return if that is None.  If it exits, [why] holds or one of the
    calls that start or await a process was refused. *)
Definition keeps (why : Prop) (cur : option Z) (next : option (option Z)) (h : history) (o : outcome unit) : Prop :=
  is_Some (shell_run cur h) /\
  match o with
  | Odone _ => exists n, next = Some n /\ shell_run cur h = Some n
  | Oexit st => st = 1 /\ (why \/ refused starting h)
  | Obecame p v => p = str "sh" /\ v = [str "sh"]
  | Owaits _ => True
  end.

Definition sure (why : Prop) (cur : option Z) (next : option (option Z)) (h : history) (o : outcome unit) : Prop := o <> Owaits None /\ keeps why cur next h o.

Lemma keeps_app why c1 c2 c3 h h' u o : keeps why c1 (Some c2) h (Odone u) -> keeps why c2 c3 h' o -> keeps why c1 c3 (h ++ h') o.
Proof.
  intros (_ & n & [= <-] & E) [H1 H2]. unfold keeps. rewrite shell_run_app, E. split; [done|]. destruct o as [u'|st|p v|c]; try done. destruct H2 as [-> [H2|H2]]; split; [done|by left|done|]. right. by apply refused_app_r.
Qed.

(** A call that changes nothing, in front; it may be the reason for an exit. *)
Lemma keeps_call why (why' : Prop) cur cur' next x h o : shell_run cur (x :: h) = shell_run cur' h -> (why -> why' \/ refused starting [x]) -> keeps why cur' next h o -> keeps why' cur next (x :: h) o.
Proof.
  intros E Hw [H1 H2]. unfold keeps. rewrite E. split; [done|]. destruct o as [u|st|p v|c]; try done. destruct H2 as [-> [H2|H2]]; split; [done| |done|right; by apply refused_later].
  destruct (Hw H2) as [Hw'|Hw']; [by left|]. right. by apply (refused_app_l _ [x]).
Qed.

Lemma keeps_leaves why c1 c2 c3 h o o' : keeps why c1 c2 h o -> leaves o = Some o' -> keeps why c1 c3 h o'.
Proof. intros [H1 H2] Hl. split; [done|]. destruct o as [u|st|p v|c]; cbn in Hl; try done; by injection Hl as <-. Qed.

Lemma keeps_waits why cur next c : keeps why cur next [] (Owaits c).
Proof. split; [by eexists|done]. Qed.

Lemma sure_leaves why c1 c2 c3 h o o' : sure why c1 c2 h o -> leaves o = Some o' -> sure why c1 c3 h o'.
Proof. intros [H1 H2] Hl. split; [|by eapply keeps_leaves]. destruct o as [u|st|p v|c]; cbn in Hl; try done; injection Hl as <-; congruence. Qed.

Lemma sure_seq why c1 c2 c3 (m k : U unit) : meets m (sure why c1 (Some c2)) -> meets k (sure why c2 c3) -> meets (m ;? k) (sure why c1 c3).
Proof.
  intros Hm Hk. eapply meets_bind; [exact Hm|intros h o o'; apply sure_leaves|].
  intros h u [_ K]. eapply meets_weaken; [exact Hk|]. intros h' o [H1 H2]. split; [done|by eapply keeps_app].
Qed.

Lemma print_sure why fmt cur : longs_fit (str fmt) [] = true -> meets (uprintf fmt []) (sure why cur (Some cur)).
Proof.
  intros Hfit. eapply meets_weaken; [by apply uprintf_prints|]. intros h o [Hp Ho]. pose proof (put_calls_shell 1 _ h cur Hp) as E. split; [by intros ->|]. unfold keeps. rewrite E. split; [by eexists|]. destruct o as [u|st|p v|c]; try done. by exists cur.
Qed.

Lemma print_exit_sure fmt cur next : longs_fit (str fmt) [] = true -> meets (uprintf fmt [] ;? exit 1) (sure True cur next).
Proof. intros Hfit. apply (sure_seq True cur cur); [by apply print_sure|]. apply meets_exit. split; [done|]. split; [by eexists|]. split; [done|by left]. Qed.

Lemma init_wait_meets fuel pid : meets (init_wait fuel pid) (fun h o => (o = Owaits None -> (fuel <= length h)%nat) /\ keeps False (Some pid) (Some None) h o).
Proof.
  induction fuel as [|fuel IH]; cbn [init_wait]; [apply meets_stuck; split; [done|apply keeps_waits]|]. apply meets_scall_bind; [|split; [done|apply keeps_waits]]. intros a. destruct (Z.eqb_spec (a_ret a) pid) as [E|E].
  - apply meets_ret. split; [done|]. unfold keeps. cbn. rewrite bool_decide_true by congruence. split; [by eexists|by exists None].
  - assert (forall h, shell_run (Some pid) ((Swait, a) :: h) = shell_run (Some pid) h) as Er by (intros h; cbn; by rewrite bool_decide_false by congruence). destruct (Z.ltb_spec (a_ret a) 0).
    + eapply meets_weaken; [by apply (print_exit_sure _ (Some pid) (Some None))|]. intros h o [H1 H2]. split; [done|]. eapply keeps_call; [apply Er|intros _; right; by apply refused_now|exact H2].
    + eapply meets_weaken; [exact IH|]. intros h o [H1 H2]. split; [intros Ho; specialize (H1 Ho); cbn [length]; lia|]. eapply keeps_call; [apply Er|by left|exact H2].
Qed.

Lemma exec_bind p v (k : U unit) w : ubind (exec p v) (fun _ => k) w = ubind (scall (Sexec p v)) (fun r => if r <? 0 then k else fun w => Became p v w) w.
Proof. unfold exec. rewrite ubind_assoc. unfold ubind. destruct (scall _ w) as [r w'|st w'|p' v' w'|w']; [|reflexivity..]. by destruct (r <? 0). Qed.

Lemma exec_sh_sure next : meets (exec (str "sh") [str "sh"] ;? uprintf (msg "init: exec sh failed") [] ;? exit 1) (sure False None next).
Proof.
  eapply meets_eta; [intros w; apply exec_bind|].
  apply meets_scall_bind; [|split; [done|apply keeps_waits]]. intros a. destruct (Z.ltb_spec (a_ret a) 0).
  { eapply meets_weaken; [by apply (print_exit_sure _ None next)|]. intros h o [H1 H2]. split; [done|]. eapply keeps_call; [done|intros _; right; by apply refused_now|exact H2]. }
  apply meets_became. split; [done|]. split; [by eexists|done].
Qed.

(** One turn of the loop of init. *)
Lemma init_fork_meets fuel : meets (init_loop fuel) (fun h o => (o = Owaits None -> (fuel <= length h)%nat) /\ keeps False None None h o) ->
  meets (let? pid := scall Sfork in
    if pid <? 0 then uprintf (msg "init: fork failed") [] ;? exit 1 else
    if pid =? 0 then exec (str "sh") [str "sh"] ;? uprintf (msg "init: exec sh failed") [] ;? exit 1 else
    looping (fun fuel => init_wait fuel pid) ;? init_loop fuel) (fun h o => (o = Owaits None -> (S fuel <= length h)%nat) /\ keeps False None None h o).
Proof.
  intros IH. apply meets_scall_bind; [|split; [done|apply keeps_waits]]. intros a.
  assert (a_ret a <= 0 -> forall h, shell_run None ((Sfork, a) :: h) = shell_run None h) as E0 by (intros Ha h; cbn; by rewrite (proj2 (Z.ltb_ge 0 _)) by lia).
  destruct (Z.ltb_spec (a_ret a) 0); [|destruct (Z.eqb_spec (a_ret a) 0)].
  - eapply meets_weaken; [by apply (print_exit_sure _ None None)|]. intros h o [H1 H2]. split; [done|]. eapply keeps_call; [apply E0; lia|intros _; right; by apply refused_now|exact H2].
  - eapply meets_weaken; [apply (exec_sh_sure None)|]. intros h o [H1 H2]. split; [done|]. eapply keeps_call; [apply E0; lia|by left|exact H2].
  - assert (forall h, shell_run None ((Sfork, a) :: h) = shell_run (Some (a_ret a)) h) as E1 by (intros h; cbn; by rewrite (proj2 (Z.ltb_lt 0 _)) by lia).
    eapply meets_bind; [apply meets_looping; intros f; apply init_wait_meets| |].
    + intros h o o' Hs Hl. destruct (sure_leaves False (Some (a_ret a)) (Some None) None h o o' Hs Hl) as [H1 H2]. split; [done|]. eapply keeps_call; [apply E1|by left|exact H2].
    + intros h u [_ K]. eapply meets_weaken; [exact IH|]. intros h' o [H1 H2]. split; [intros Ho; specialize (H1 Ho); cbn [length]; rewrite length_app; lia|].
      eapply keeps_call; [apply E1|by left|exact (keeps_app _ _ _ None h h' u o K H2)].
Qed.

Lemma init_loop_meets fuel : meets (init_loop fuel) (fun h o => (o = Owaits None -> (fuel <= length h)%nat) /\ keeps False None None h o).
Proof.
  induction fuel as [|fuel IH]; cbn [init_loop]; [apply meets_stuck; split; [done|apply keeps_waits]|]. eapply meets_bind; [by apply (print_sure False _ None)| |].
  - intros h o o' Hs Hl. by destruct (sure_leaves _ _ _ None _ _ _ Hs Hl).
  - intros h0 u0 [_ K0]. eapply meets_weaken; [apply init_fork_meets, IH|]. intros h o [H1 H2]. split; [intros Ho; specialize (H1 Ho); rewrite length_app; lia|by eapply keeps_app].
Qed.

(** A call that starts and ends no process. *)
Lemma scall_sure why c cur next (k : Z -> U unit) : (forall a, shell_step cur (c, a) = Some cur) -> (forall r, meets (k r) (sure why cur next)) -> meets (ubind (scall c) k) (sure why cur next).
Proof.
  intros Hc Hk. apply meets_scall_bind; [|split; [done|apply keeps_waits]]. intros a. eapply meets_weaken; [apply Hk|]. intros h o [H1 H2]. split; [done|].
  eapply keeps_call; [cbn [shell_run]; by rewrite Hc|by left|exact H2].
Qed.

(** C38: Init keeps one shell running.  Whatever the kernel answers, init forks
    again only after wait has returned the pid of the shell it forked before;
    its child becomes the shell; the loop never returns, and a process exits only
    with status 1 and after the kernel refused a fork, a wait or an exec.
    Otherwise it is in a system call that has not returned. *)
Theorem init_correct : meets init_main (fun h o => is_Some (shell_run None h) /\
  match o with
  | Oexit st => st = 1 /\ refused starting h
  | Obecame p v => p = str "sh" /\ v = [str "sh"]
  | Owaits (Some _) => True
  | _ => False
  end).
Proof.
  assert (meets init_main (sure False None None)) as H.
  { assert (meets (uret tt) (sure False None (Some None))) as Hr by (apply meets_ret; split; [done|]; split; [by eexists|by exists None]).
    unfold init_main. apply scall_sure; [done|]. intros r. apply (sure_seq False None None).
    - destruct (r <? 0); [|exact Hr]. apply scall_sure; [done|]. intros _. apply scall_sure; [done|]. by intros _.
    - apply scall_sure; [done|]. intros _. apply scall_sure; [done|]. intros _. apply meets_looping. intros fuel. apply init_loop_meets. }
  eapply meets_weaken; [exact H|]. intros h o (H0 & H1 & H2). split; [done|]. destruct o as [u|st|p v|[c|]]; try done; [by destruct H2 as (n & [=] & _)|]. by destruct H2 as [-> [[]|H2]].
Qed.
