(* ===== verification/Layout.v ===== *)
(** * Constants and structures of the kernel headers

    kernel/param.h, kernel/memlayout.h, kernel/riscv.h (paging and interrupt
    bits) and the structures of kernel/proc.h that belong to a hart. *)

From S2P Require Import Prelude.

(** ** kernel/param.h *)

Definition NPROC : Z := 64.
Definition NCPU : Z := 8.
Definition NOFILE : Z := 16.
Definition NFILE : Z := 100.
Definition NINODE : Z := 50.
Definition NDEV : Z := 10.
Definition ROOTDEV : Z := 1.
Definition MAXARG : Z := 32.
Definition MAXOPBLOCKS : Z := 10.
Definition LOGSIZE : Z := MAXOPBLOCKS * 3.
Definition NBUF : Z := MAXOPBLOCKS * 3.
Definition FSSIZE : Z := 1000.
Definition MAXPATH : Z := 128.

(** ** kernel/riscv.h: paging *)

Definition PGSIZE : Z := 4096.
Definition PGSHIFT : Z := 12.

(** [~(PGSIZE-1)] is the [int] -4096, sign-extended to 64 bits. *)
Definition PGROUNDUP (sz : Z) : Z := Z.land (u64 (sz + PGSIZE - 1)) (- PGSIZE).
Definition PGROUNDDOWN (a : Z) : Z := Z.land a (- PGSIZE).

Definition PTE_V : Z := Z.shiftl 1 0.
Definition PTE_R : Z := Z.shiftl 1 1.
Definition PTE_W : Z := Z.shiftl 1 2.
Definition PTE_X : Z := Z.shiftl 1 3.
Definition PTE_U : Z := Z.shiftl 1 4.

Definition PA2PTE (pa : Z) : Z := u64 (Z.shiftl (Z.shiftr pa 12) 10).
Definition PTE2PA (pte : Z) : Z := u64 (Z.shiftl (Z.shiftr pte 10) 12).
Definition PTE_FLAGS (pte : Z) : Z := Z.land pte 1023.

Definition PXMASK : Z := 511.
Definition PXSHIFT (level : Z) : Z := PGSHIFT + 9 * level.
Definition PX (level va : Z) : Z := Z.land (Z.shiftr va (PXSHIFT level)) PXMASK.

Definition MAXVA : Z := Z.shiftl 1 (9 + 9 + 9 + 12 - 1).

(** MAKE_SATP: Sv39 mode and the physical page number of the root table. *)
Definition SATP_SV39 : Z := Z.shiftl 8 60.
Definition MAKE_SATP (pagetable : Z) : Z := Z.lor SATP_SV39 (Z.shiftr pagetable 12).

(** ** kernel/memlayout.h *)

Definition UART0 : Z := 268435456.
Definition UART0_IRQ : Z := 10.
Definition VIRTIO0 : Z := 268439552.
Definition VIRTIO0_IRQ : Z := 1.
Definition CLINT : Z := 33554432.
Definition PLIC : Z := 201326592.
Definition KERNBASE : Z := 2147483648.
Definition PHYSTOP : Z := KERNBASE + 128 * 1024 * 1024.
Definition TRAMPOLINE : Z := MAXVA - PGSIZE.
Definition KSTACK (p : Z) : Z := TRAMPOLINE - (p + 1) * 2 * PGSIZE.
Definition TRAPFRAME : Z := TRAMPOLINE - PGSIZE.

(** ** Supervisor status bits (kernel/riscv.h) *)

Definition SSTATUS_SPP : Z := Z.shiftl 1 8.
Definition SSTATUS_SPIE : Z := Z.shiftl 1 5.
Definition SSTATUS_SIE : Z := Z.shiftl 1 1.

(** ** Per-hart structures (kernel/proc.h) *)

(** Saved registers for kernel context switches. *)
Record context := Context {
  ctx_ra : Z; ctx_sp : Z;
  ctx_s0 : Z; ctx_s1 : Z; ctx_s2 : Z; ctx_s3 : Z; ctx_s4 : Z; ctx_s5 : Z;
  ctx_s6 : Z; ctx_s7 : Z; ctx_s8 : Z; ctx_s9 : Z; ctx_s10 : Z; ctx_s11 : Z }.

Definition context0 : context := Context 0 0 0 0 0 0 0 0 0 0 0 0 0 0.

(** Per-CPU state; [c_proc] is the index in proc[] of the running process. *)
Record cpu := Cpu {
  c_proc : option nat;
  c_context : context;
  c_noff : Z;
  c_intena : bool }.

Definition cpu0 : cpu := Cpu None context0 0 false.

(** The supervisor registers the kernel reads and writes. *)
Record csrs := Csrs {
  r_sstatus : Z; r_sepc : Z; r_scause : Z; r_stval : Z;
  r_stvec : Z; r_satp : Z; r_sip : Z }.

(** A hart as kernel code sees it: its thread pointer, its control registers,
    and the global array cpus[] (zero-initialised). *)
Record hart := Hart { h_tp : Z; h_csr : csrs; h_cpus : gmap Z cpu }.

(** The addresses the linker script kernel.ld provides. *)
Class KernelImage := {
  k_etext : Z;
  k_end : Z;
  k_trampoline : Z;
  (* code addresses: forkret, usertrap, kernelvec, and uservec and userret in the trampoline *)
  k_forkret : Z;
  k_usertrap : Z;
  k_kernelvec : Z;
  k_uservec : Z;
  k_userret : Z;
  (* the address of the array proc[] *)
  k_proc : Z
}.

(** What kernel.ld guarantees of them: the text starts at KERNBASE and ends on
    a page boundary with the trampoline page, and the image fits in RAM. *)
Class ImageOk `{KernelImage} : Prop := {
  img_etext : KERNBASE + PGSIZE <= k_etext /\ k_etext mod PGSIZE = 0;
  img_end : k_etext <= k_end <= PHYSTOP;
  img_trampoline : k_trampoline = k_etext - PGSIZE
}.

(** [consts]: unfold the numeric constants before arithmetic. *)
Ltac consts :=
  unfold KSTACK, TRAPFRAME, TRAMPOLINE, PHYSTOP, PXSHIFT, PXMASK, MAXVA, KERNBASE, PGSIZE,
    PGSHIFT, PTE_V, PTE_R, PTE_W, PTE_X, PTE_U, UART0, VIRTIO0, CLINT, PLIC, NPROC in *;
  rewrite ?Z.shiftl_mul_pow2 in * by lia; simpl (1 * 2 ^ _) in *.

(** [klia]: linear arithmetic modulo the constants, with div and mod. *)
Ltac klia := consts; zlia.

(** ** Page arithmetic *)

Lemma PGROUNDDOWN_eq a : PGROUNDDOWN a = a - a mod PGSIZE.
Proof. unfold PGROUNDDOWN, PGSIZE. by apply (land_neg_pow2 a 12). Qed.

Lemma PGROUNDUP_eq a :
  0 <= a < 18446744073709547521 ->
  PGROUNDUP a = (a + 4095) - (a + 4095) mod PGSIZE.
Proof.
  intros Ha. unfold PGROUNDUP, PGSIZE. rewrite u64_small by lia.
  replace (a + 4096 - 1) with (a + 4095) by lia. by apply (land_neg_pow2 _ 12).
Qed.

(** The page that starts at [p], for a page-aligned [p]. *)
Definition in_page (p a : Z) : Prop := p <= a < p + PGSIZE.

Lemma in_page_inj p q a :
  p mod PGSIZE = 0 -> q mod PGSIZE = 0 -> in_page p a -> in_page q a -> p = q.
Proof. unfold in_page. klia. Qed.

(** ** Page-table arithmetic *)

Lemma PX_eq level va : 0 <= level -> PX level va = (va / 2 ^ (12 + 9 * level)) mod 512.
Proof.
  intros Hl. unfold PX, PXMASK, PXSHIFT, PGSHIFT.
  rewrite Z.shiftr_div_pow2 by lia. by apply (land_ones_mod _ 9).
Qed.

Lemma PA2PTE_eq pa : 0 <= pa < 2 ^ 56 -> PA2PTE pa = pa / 4096 * 1024.
Proof.
  intros H. unfold PA2PTE. rewrite Z.shiftr_div_pow2, Z.shiftl_mul_pow2 by lia.
  change (2 ^ 12) with 4096. change (2 ^ 10) with 1024. rewrite u64_small; zlia.
Qed.

Lemma PTE2PA_eq pte : 0 <= pte < 2 ^ 54 -> PTE2PA pte = pte / 1024 * 4096.
Proof.
  intros H. unfold PTE2PA. rewrite Z.shiftr_div_pow2, Z.shiftl_mul_pow2 by lia.
  change (2 ^ 12) with 4096. change (2 ^ 10) with 1024. rewrite u64_small; zlia.
Qed.

(** The entry mappages writes for [pa] with the flag bits [f]. *)
Definition mkpte (pa f : Z) : Z := Z.lor (PA2PTE pa) f.

Lemma mkpte_eq pa f :
  0 <= pa < 2 ^ 56 -> 0 <= f < 1024 -> mkpte pa f = pa / 4096 * 1024 + f.
Proof.
  intros H Hf. unfold mkpte. rewrite PA2PTE_eq by done. by apply (lor_disjoint _ _ 10).
Qed.

Lemma mkpte_PTE2PA pa f :
  0 <= pa < 2 ^ 56 -> pa mod PGSIZE = 0 -> 0 <= f < 1024 -> PTE2PA (mkpte pa f) = pa.
Proof.
  intros H Ha Hf. rewrite mkpte_eq by done. rewrite PTE2PA_eq; klia.
Qed.

Lemma mkpte_flags pa f :
  0 <= pa < 2 ^ 56 -> 0 <= f < 1024 -> PTE_FLAGS (mkpte pa f) = f.
Proof.
  intros H Hf. rewrite mkpte_eq by done. unfold PTE_FLAGS.
  rewrite (land_ones_mod _ 10) by lia. zlia.
Qed.

Lemma mkpte_range pa f :
  0 <= pa < 2 ^ 56 -> 0 <= f < 1024 -> 0 <= mkpte pa f < 2 ^ 54.
Proof. intros H Hf. rewrite mkpte_eq by done. zlia. Qed.

Lemma land_pte_bit pte n :
  0 <= n -> Z.land pte (Z.shiftl 1 n) = if Z.testbit pte n then 2 ^ n else 0.
Proof.
  intros Hn. rewrite Z.shiftl_1_l. apply Z.bits_inj'. intros i Hi.
  rewrite Z.land_spec, Z.pow2_bits_eqb by done.
  destruct (Z.eqb_spec n i) as [<-|Hne].
  - rewrite andb_true_r. destruct (Z.testbit pte n).
    + by rewrite Z.pow2_bits_true.
    + by rewrite Z.bits_0.
  - rewrite andb_false_r. destruct (Z.testbit pte n).
    + by rewrite Z.pow2_bits_false.
    + by rewrite Z.bits_0.
Qed.

Lemma truthy_pte_bit pte n :
  0 <= n -> truthy (Z.land pte (Z.shiftl 1 n)) = Z.testbit pte n.
Proof.
  intros Hn. unfold truthy. rewrite land_pte_bit by done.
  destruct (Z.testbit pte n); [|done].
  destruct (Z.eqb_spec (2 ^ n) 0); [lia|done].
Qed.

Lemma testbit_mkpte pa f n :
  0 <= pa < 2 ^ 56 -> 0 <= f < 1024 -> 0 <= n < 10 ->
  Z.testbit (mkpte pa f) n = Z.testbit f n.
Proof.
  intros H Hf Hn. unfold mkpte. rewrite Z.lor_spec, PA2PTE_eq by done.
  rewrite (Z.mul_pow2_bits_low _ 10) by lia. done.
Qed.

Lemma truthy_V pte : truthy (Z.land pte PTE_V) = Z.testbit pte 0.
Proof. by apply truthy_pte_bit. Qed.

Lemma truthy_U pte : truthy (Z.land pte PTE_U) = Z.testbit pte 4.
Proof. by apply truthy_pte_bit. Qed.

#[global] Arguments PX : simpl never.
