(* ===== verification/Spinlock.v ===== *)
(** * kernel/spinlock.c: spin locks and nested interrupt disabling

    [acquire], [release], [holding], [push_off] and [pop_off] act on any state
    that has a hart (class [HasHart]) and on a lock given by a reference into
    that state ([lockref]).  The second half models the same two functions at
    the grain of single memory accesses, for any number of harts that race
    for one lock. *)

From S2P Require Import Prelude Layout.

(** ** States with a hart, and locks inside a state *)

Class HasHart (S : Type) := {
  hart_of : S -> hart;
  put_hart : hart -> S -> S;
  hart_get_put : forall h s, hart_of (put_hart h s) = h;
  hart_put_put : forall h h' s, put_hart h (put_hart h' s) = put_hart h s;
  hart_put_get : forall s, put_hart (hart_of s) s = s
}.

Create Rewrite HintDb hart.
#[export] Hint Rewrite @hart_get_put @hart_put_put @hart_put_get : hart.

(** Mutual exclusion lock; [lk_cpu] is the index in cpus[] of the holder. *)
Record spinlock := Spinlock { lk_locked : Z; lk_name : string; lk_cpu : option Z }.

Record lockref (S : Type) := LockRef {
  lk_get : S -> spinlock;
  lk_put : spinlock -> S -> S }.
Arguments LockRef {S}.
Arguments lk_get {S}.
Arguments lk_put {S}.

(** A reference to a lock behaves like a variable that is not part of the hart. *)
Class LockLaws {S} `{HasHart S} (l : lockref S) : Prop := {
  lk_get_put : forall k s, lk_get l (lk_put l k s) = k;
  lk_put_put : forall k k' s, lk_put l k (lk_put l k' s) = lk_put l k s;
  lk_get_hart : forall h s, lk_get l (put_hart h s) = lk_get l s;
  hart_of_lk : forall k s, hart_of (lk_put l k s) = hart_of s;
  put_hart_lk : forall h k s, put_hart h (lk_put l k s) = lk_put l k (put_hart h s)
}.

(** ** The hart's interrupt state *)

Definition mycpu (h : hart) : cpu := default cpu0 (h_cpus h !! h_tp h).

Definition set_mycpu (c : cpu) (h : hart) : hart :=
  Hart (h_tp h) (h_csr h) (<[h_tp h := c]> (h_cpus h)).

Definition set_sstatus (x : Z) (h : hart) : hart :=
  let r := h_csr h in
  Hart (h_tp h) (Csrs x (r_sepc r) (r_scause r) (r_stval r) (r_stvec r) (r_satp r) (r_sip r))
    (h_cpus h).

Definition intr_on (h : hart) : hart :=
  set_sstatus (Z.lor (r_sstatus (h_csr h)) SSTATUS_SIE) h.
Definition intr_off (h : hart) : hart :=
  set_sstatus (Z.land (r_sstatus (h_csr h)) (Z.lnot SSTATUS_SIE)) h.
Definition intr_get (h : hart) : bool := truthy (Z.land (r_sstatus (h_csr h)) SSTATUS_SIE).

Definition set_noff (n : Z) (c : cpu) : cpu := Cpu (c_proc c) (c_context c) n (c_intena c).
Definition set_intena (b : bool) (c : cpu) : cpu := Cpu (c_proc c) (c_context c) (c_noff c) b.

(** ** The routines of spinlock.c *)

Section Routines.
Context {S : Type} `{HasHart S}.

Definition initlock (l : lockref S) (name : string) : M S unit :=
  modify (lk_put l (Spinlock 0 name None)).

(** push_off/pop_off are matched: it takes two pop_off()s to undo two push_off()s. *)
Definition push_off : M S unit :=
  let! h := gets hart_of in
  let old := intr_get h in
  modify (fun s => put_hart (intr_off (hart_of s)) s);;
  (if c_noff (mycpu h) =? 0
   then modify (fun s =>
          put_hart (set_mycpu (set_intena old (mycpu (hart_of s))) (hart_of s)) s)
   else skip);;
  modify (fun s =>
    put_hart (set_mycpu (set_noff (c_noff (mycpu (hart_of s)) + 1) (mycpu (hart_of s)))
                (hart_of s)) s).

Definition pop_off : M S unit :=
  let! h := gets hart_of in
  if intr_get h then panic "pop_off - interruptible" else
  if c_noff (mycpu h) <? 1 then panic "pop_off" else
  let c := set_noff (c_noff (mycpu h) - 1) (mycpu h) in
  modify (put_hart (set_mycpu c h));;
  if (c_noff c =? 0) && c_intena c
  then modify (fun s => put_hart (intr_on (hart_of s)) s)
  else skip.

Definition holding (l : lockref S) : M S bool :=
  gets (fun s => truthy (lk_locked (lk_get l s)) &&
                 bool_decide (lk_cpu (lk_get l s) = Some (h_tp (hart_of s)))).

(** The test-and-set loop: a lock that is held stays held while this hart spins. *)
Definition acquire (l : lockref S) : M S unit :=
  push_off;;
  let! hold := holding l in
  if hold then panic "acquire" else
  let! k := gets (lk_get l) in
  if truthy (lk_locked k) then diverge else
  modify (lk_put l (Spinlock 1 (lk_name k) (lk_cpu k)));;
  modify (fun s => lk_put l (Spinlock 1 (lk_name k) (Some (h_tp (hart_of s)))) s).

Definition release (l : lockref S) : M S unit :=
  let! hold := holding l in
  if negb hold then panic "release" else
  modify (fun s => lk_put l (Spinlock (lk_locked (lk_get l s)) (lk_name (lk_get l s)) None) s);;
  modify (fun s => lk_put l (Spinlock 0 (lk_name (lk_get l s)) (lk_cpu (lk_get l s))) s);;
  pop_off.

End Routines.

#[global] Arguments acquire : simpl never.
#[global] Arguments release : simpl never.
#[global] Arguments push_off : simpl never.
#[global] Arguments pop_off : simpl never.

(** ** Correctness of interrupt nesting *)

(** Interrupts are off whenever some push_off is outstanding. *)
Definition hart_ok (h : hart) : Prop :=
  0 <= c_noff (mycpu h) /\ (0 < c_noff (mycpu h) -> intr_get h = false).

(** The hart after push_off. *)
Definition pushed (h : hart) : hart :=
  let c := mycpu h in
  let c := if c_noff c =? 0 then set_intena (intr_get h) c else c in
  set_mycpu (set_noff (c_noff c + 1) c) (intr_off h).

(** The hart after a push_off and its pop_off: only [intena] may change. *)
Definition touched (h : hart) : hart :=
  let c := mycpu h in
  set_mycpu (if c_noff c =? 0 then set_intena (intr_get h) c else c) h.

Lemma mycpu_set_mycpu c h : mycpu (set_mycpu c h) = c.
Proof. unfold mycpu, set_mycpu. simpl. by rewrite lookup_insert_eq. Qed.

Lemma mycpu_set_sstatus x h : mycpu (set_sstatus x h) = mycpu h.
Proof. done. Qed.

Lemma set_mycpu_twice c d h : set_mycpu c (set_mycpu d h) = set_mycpu c h.
Proof. unfold set_mycpu. simpl. by rewrite insert_insert_eq. Qed.

Lemma set_mycpu_sstatus c x h : set_mycpu c (set_sstatus x h) = set_sstatus x (set_mycpu c h).
Proof. done. Qed.

Lemma set_sstatus_twice x y h : set_sstatus x (set_sstatus y h) = set_sstatus x h.
Proof. done. Qed.

Lemma set_sstatus_same h : set_sstatus (r_sstatus (h_csr h)) h = h.
Proof. by destruct h as [? [] ?]. Qed.

Lemma intr_get_bit h : intr_get h = Z.testbit (r_sstatus (h_csr h)) 1.
Proof. apply (truthy_pte_bit _ 1). lia. Qed.

Lemma sie_off_bits x i :
  0 <= i -> Z.testbit (Z.land x (Z.lnot SSTATUS_SIE)) i = Z.testbit x i && negb (i =? 1).
Proof.
  intros Hi. rewrite Z.land_spec, Z.lnot_spec by done. unfold SSTATUS_SIE.
  rewrite Z.shiftl_1_l, Z.pow2_bits_eqb, (Z.eqb_sym 1) by lia. done.
Qed.

Lemma sie_on_bits x i :
  0 <= i -> Z.testbit (Z.lor x SSTATUS_SIE) i = Z.testbit x i || (i =? 1).
Proof.
  intros Hi. rewrite Z.lor_spec. unfold SSTATUS_SIE.
  rewrite Z.shiftl_1_l, Z.pow2_bits_eqb, (Z.eqb_sym 1) by lia. done.
Qed.

Lemma intr_get_off h : intr_get (intr_off h) = false.
Proof.
  rewrite intr_get_bit. unfold intr_off, set_sstatus. cbn [h_csr r_sstatus].
  rewrite sie_off_bits by lia. apply andb_false_r.
Qed.

Lemma intr_off_id h : intr_get h = false -> intr_off h = h.
Proof.
  intros Hoff. rewrite intr_get_bit in Hoff. unfold intr_off.
  etransitivity; [|apply set_sstatus_same]. f_equal. apply Z.bits_inj'. intros i Hi.
  rewrite sie_off_bits by done. destruct (Z.eqb_spec i 1) as [->|].
  - by rewrite Hoff.
  - apply andb_true_r.
Qed.

Lemma intr_on_off h : intr_get h = true -> intr_on (intr_off h) = h.
Proof.
  intros Hon. rewrite intr_get_bit in Hon. unfold intr_on, intr_off. rewrite set_sstatus_twice.
  etransitivity; [|apply set_sstatus_same]. f_equal. apply Z.bits_inj'. intros i Hi.
  unfold set_sstatus. cbn [h_csr r_sstatus]. rewrite sie_on_bits, sie_off_bits by done. destruct (Z.eqb_spec i 1) as [->|].
  - by rewrite Hon.
  - rewrite orb_false_r. apply andb_true_r.
Qed.

Lemma intr_get_set_mycpu c h : intr_get (set_mycpu c h) = intr_get h.
Proof. done. Qed.

Lemma intr_on_set_mycpu c h : intr_on (set_mycpu c h) = set_mycpu c (intr_on h).
Proof. done. Qed.

Lemma touched_ok h : hart_ok h -> hart_ok (touched h).
Proof.
  unfold hart_ok, touched. rewrite mycpu_set_mycpu, intr_get_set_mycpu.
  destruct (Z.eqb_spec (c_noff (mycpu h)) 0); simpl; auto.
Qed.

Lemma touched_twice h : touched (touched h) = touched h.
Proof.
  unfold touched. rewrite mycpu_set_mycpu, set_mycpu_twice, intr_get_set_mycpu.
  destruct (Z.eqb_spec (c_noff (mycpu h)) 0) as [E|E]; simpl.
  - rewrite E. done.
  - destruct (Z.eqb_spec (c_noff (mycpu h)) 0); done.
Qed.

Lemma touched_tp h : h_tp (touched h) = h_tp h.
Proof. done. Qed.

Lemma touched_csr h : h_csr (touched h) = h_csr h.
Proof. done. Qed.

Lemma touched_noff h : c_noff (mycpu (touched h)) = c_noff (mycpu h).
Proof. unfold touched. rewrite mycpu_set_mycpu. by case_match. Qed.

Lemma touched_proc h : c_proc (mycpu (touched h)) = c_proc (mycpu h).
Proof. unfold touched. rewrite mycpu_set_mycpu. by case_match. Qed.

Lemma pushed_proc h : c_proc (mycpu (pushed h)) = c_proc (mycpu h).
Proof. unfold pushed. rewrite mycpu_set_mycpu. by case_match. Qed.

Lemma pushed_tp h : h_tp (pushed h) = h_tp h.
Proof. unfold pushed. by case_match. Qed.

Section RoutineFacts.
Context {S : Type} `{HasHart S}.

Lemma push_off_eq s : push_off s = Ok tt (put_hart (pushed (hart_of s)) s).
Proof.
  unfold push_off, pushed, bind, gets, modify, skip, ret.
  destruct (c_noff (mycpu (hart_of s)) =? 0) eqn:E; autorewrite with hart.
  - rewrite !mycpu_set_mycpu, set_mycpu_twice. done.
  - done.
Qed.

Lemma pop_off_pushed s h :
  hart_ok h -> hart_of s = pushed h -> pop_off s = Ok tt (put_hart (touched h) s).
Proof.
  intros [Hn Hi] Hs. unfold pop_off, bind, gets. rewrite Hs.
  unfold pushed. rewrite !intr_get_set_mycpu, intr_get_off, !mycpu_set_mycpu.
  destruct (Z.eqb_spec (c_noff (mycpu h)) 0) as [E|E]; simpl.
  - rewrite E. simpl. unfold modify, skip, ret.
    destruct (intr_get h) eqn:Ei; autorewrite with hart; do 2 f_equal;
      unfold touched; rewrite E, Ei; simpl; rewrite set_mycpu_twice.
    + rewrite intr_on_set_mycpu, intr_on_off by done. unfold set_noff, set_intena. simpl. by rewrite E.
    + rewrite intr_off_id by done. unfold set_noff, set_intena. simpl. by rewrite E.
  - destruct (Z.ltb_spec (c_noff (mycpu h) + 1) 1); [lia|].
    destruct (Z.eqb_spec (c_noff (mycpu h) + 1 - 1) 0); [lia|]. simpl.
    unfold modify, skip, ret. do 2 f_equal. unfold touched.
    destruct (Z.eqb_spec (c_noff (mycpu h)) 0); [lia|].
    rewrite set_mycpu_twice, intr_off_id by (apply Hi; lia). f_equal.
    unfold set_noff. destruct (mycpu h); simpl. f_equal. lia.
Qed.

Definition lock_free (k : spinlock) : Prop := lk_locked k = 0 /\ lk_cpu k = None.

Definition locked_by (h : hart) (k : spinlock) : spinlock :=
  Spinlock 1 (lk_name k) (Some (h_tp h)).

Lemma acquire_eq (l : lockref S) `{!LockLaws l} s :
  lock_free (lk_get l s) ->
  acquire l s =
  Ok tt (lk_put l (locked_by (hart_of s) (lk_get l s)) (put_hart (pushed (hart_of s)) s)).
Proof.
  intros [Hl Hc]. unfold acquire. erewrite bind_Ok by apply push_off_eq.
  unfold holding, bind, gets, modify. simpl. rewrite !lk_get_hart, Hl. simpl.
  rewrite lk_get_hart, Hl. simpl. rewrite lk_put_put, hart_of_lk, hart_get_put. unfold locked_by. by rewrite pushed_tp.
Qed.

(** The release that matches an acquire restores the lock, and the hart up to
    [touched]; [s] is any state the critical section left. *)
Lemma release_eq (l : lockref S) `{!LockLaws l} s h k :
  hart_ok h -> lock_free k -> hart_of s = pushed h -> lk_get l s = locked_by h k ->
  release l s = Ok tt (lk_put l k (put_hart (touched h) s)).
Proof.
  intros Hok [Hk1 Hk2] Hh Hl. unfold release, holding, bind, gets, modify.
  rewrite Hl, Hh, pushed_tp. simpl. rewrite bool_decide_eq_true_2 by done. simpl.
  rewrite lk_get_put, lk_put_put. simpl.
  rewrite (pop_off_pushed _ h) by (done || by rewrite hart_of_lk).
  rewrite put_hart_lk, Hl. destruct k; simpl in *; subst. done.
Qed.

(** A hart that already holds a lock panics when it acquires it again. *)
Lemma acquire_twice_panics (l : lockref S) `{!LockLaws l} s :
  truthy (lk_locked (lk_get l s)) = true -> lk_cpu (lk_get l s) = Some (h_tp (hart_of s)) ->
  acquire l s = Panic "acquire".
Proof.
  intros Hl Hc. unfold acquire. erewrite bind_Ok by apply push_off_eq.
  unfold holding, bind, gets. rewrite lk_get_hart, Hl, Hc, hart_get_put, pushed_tp.
  by rewrite bool_decide_eq_true_2.
Qed.

(** Releasing a lock the hart does not hold panics. *)
Lemma release_not_held_panics (l : lockref S) `{!LockLaws l} s :
  (lk_locked (lk_get l s) = 0 \/ lk_cpu (lk_get l s) <> Some (h_tp (hart_of s))) ->
  release l s = Panic "release".
Proof.
  intros Hl. unfold release, holding, bind, gets.
  destruct Hl as [->|Hc]; [done|]. by rewrite bool_decide_eq_false_2, andb_false_r.
Qed.

End RoutineFacts.

(** ** Harts racing for one lock *)

(** Every constructor is a point of acquire() or release() between two memory
    accesses to the lock; [holding] reads [locked] and then [cpu]. *)
Module Race.

Inductive pc :=
  | Out            (* not inside acquire, release or the critical section *)
  | AHoldLocked    (* acquire: holding() is about to read lk->locked *)
  | AHoldCpu       (* acquire: holding() is about to read lk->cpu *)
  | ASwap          (* acquire: about to test-and-set lk->locked *)
  | ASetCpu        (* acquire: swapped 0 for 1, about to store lk->cpu *)
  | Crit           (* acquire returned *)
  | RHoldLocked    (* release: holding() is about to read lk->locked *)
  | RHoldCpu       (* release: holding() is about to read lk->cpu *)
  | RClearCpu      (* release: about to store 0 to lk->cpu *)
  | RUnlock        (* release: about to store 0 to lk->locked *)
  | Panicked.

#[export] Instance pc_eq_dec : EqDecision pc.
Proof. solve_decision. Defined.

Record race := RaceState { locked : Z; owner : option Z; pcs : gmap Z pc }.

Definition pc_of (s : race) (h : Z) : pc := default Out (pcs s !! h).
Definition goto (h : Z) (p : pc) (s : race) : race :=
  RaceState (locked s) (owner s) (<[h := p]> (pcs s)).

(** One memory access of hart [h]. *)
Definition step (h : Z) (s : race) : race :=
  match pc_of s h with
  | Out => goto h AHoldLocked s
  | AHoldLocked => if truthy (locked s) then goto h AHoldCpu s else goto h ASwap s
  | AHoldCpu => if bool_decide (owner s = Some h) then goto h Panicked s else goto h ASwap s
  | ASwap =>
      if truthy (locked s) then RaceState 1 (owner s) (pcs s)
      else goto h ASetCpu (RaceState 1 (owner s) (pcs s))
  | ASetCpu => goto h Crit (RaceState (locked s) (Some h) (pcs s))
  | Crit => goto h RHoldLocked s
  | RHoldLocked => if truthy (locked s) then goto h RHoldCpu s else goto h Panicked s
  | RHoldCpu => if bool_decide (owner s = Some h) then goto h RClearCpu s else goto h Panicked s
  | RClearCpu => goto h RUnlock (RaceState (locked s) None (pcs s))
  | RUnlock => goto h Out (RaceState 0 (owner s) (pcs s))
  | Panicked => s
  end.

(** A schedule names the hart that makes each access. *)
Definition run (schedule : list Z) (s : race) : race := fold_left (fun s h => step h s) schedule s.

Definition race0 : race := RaceState 0 None ∅.

(** The hart has won the test-and-set and has not yet unlocked. *)
Definition owns (p : pc) : bool :=
  match p with
  | ASetCpu | Crit | RHoldLocked | RHoldCpu | RClearCpu | RUnlock => true
  | _ => false
  end.

(** lk->cpu names the owner between its store and its clearing. *)
Definition named (p : pc) : bool :=
  match p with
  | Crit | RHoldLocked | RHoldCpu | RClearCpu => true
  | _ => false
  end.

Definition inv (s : race) : Prop :=
  (forall h, pc_of s h <> Panicked) /\
  ((locked s = 0 /\ owner s = None /\ forall h, owns (pc_of s h) = false) \/
   (exists h, locked s = 1 /\ owns (pc_of s h) = true /\
      owner s = (if named (pc_of s h) then Some h else None) /\
      forall g, g <> h -> owns (pc_of s g) = false)).

Lemma pc_of_goto h p s g : pc_of (goto h p s) g = if decide (h = g) then p else pc_of s g.
Proof. unfold pc_of, goto. simpl. rewrite lookup_insert. by case_decide. Qed.

Lemma inv_step h s : inv s -> inv (step h s).
Proof.
  intros [Hnp Hi]. unfold step.
  assert (forall g, pc_of s g = default Out (pcs s !! g)) as Hpc by done.
  destruct Hi as [(Hl & Ho & Hnone) | (w & Hl & Hw & Ho & Hoth)];
  [ pose proof (Hnone h) as Hh
  | destruct (decide (h = w)) as [->|Hne]; [|pose proof (Hoth h Hne) as Hh] ];
  destruct (pc_of s h) eqn:E || destruct (pc_of s w) eqn:E; try done;
  try (by destruct (Hnp h)); rewrite ?Hl, ?Ho; simpl;
  repeat case_bool_decide; simplify_eq;
  try match goal with H : (if ?b then _ else _) = Some _ |- _ => by destruct b; simplify_eq end.
  all: split; [ intros g; rewrite ?pc_of_goto; repeat case_decide; subst; try done; apply Hnp |].
  (* the lock is free and stays free *)
  all: try (left; split_and!; [done..|intros g; rewrite pc_of_goto; case_decide; [done|apply Hnone]]).
  (* the owner moves on and still owns the lock *)
  all: try (right; exists w; rewrite !pc_of_goto, decide_True by done; split_and!;
            [done..|intros g Hg; rewrite pc_of_goto, decide_False by done; by apply Hoth]).
  (* another hart moves on while [w] owns the lock *)
  all: try (right; exists w; rewrite !pc_of_goto, decide_False by done; split_and!;
            [done..|intros g Hg; rewrite pc_of_goto; case_decide; [done|by apply Hoth]]).
  all: try (right; exists w; split_and!; done).
  (* [h] wins the test-and-set *)
  - right. exists h. rewrite !pc_of_goto, decide_True by done. split_and!; [done..|].
    intros g Hg. rewrite pc_of_goto, decide_False by done. apply Hnone.
  (* the owner unlocks *)
  - left. split_and!; [done..|]. intros g. rewrite pc_of_goto.
    case_decide; [done|]. by apply Hoth.
Qed.

Lemma inv_run schedule s : inv s -> inv (run schedule s).
Proof.
  revert s. induction schedule as [|h sched IH]; intros s Hs; [done|].
  apply IH. by apply inv_step.
Qed.

Lemma inv_race0 : inv race0.
Proof. split; [done|]. by left. Qed.

(** C22: However the memory accesses of any number of harts interleave, at most one
    hart is between its successful test-and-set and its unlocking store, and
    neither acquire nor release panics. *)
Theorem mutual_exclusion schedule h g :
  let s := run schedule race0 in
  pc_of s h <> Panicked /\
  (owns (pc_of s h) = true -> owns (pc_of s g) = true -> h = g).
Proof.
  intros s. destruct (inv_run schedule _ inv_race0) as [Hnp Hi]. fold s in Hnp, Hi.
  split; [apply Hnp|]. intros Hh Hg.
  destruct Hi as [(_ & _ & Hnone)|(w & _ & _ & _ & Hoth)]; [by rewrite Hnone in Hh|].
  destruct (decide (h = w)) as [->|Hne]; [|by rewrite Hoth in Hh].
  destruct (decide (g = w)) as [->|Hne]; [done|by rewrite Hoth in Hg].
Qed.

(** Hart 0 takes the lock; hart 1 spins on it. *)
Lemma mutual_exclusion_witness :
  let s := run [0; 1; 0; 1; 0; 0; 1; 1] race0 in
  pc_of s 0 = Crit /\ pc_of s 1 = ASwap /\ (owns (pc_of s 1) = true -> 0 = 1).
Proof.
  intros s. split; [reflexivity|]. split; [reflexivity|]. intros H1.
  apply (mutual_exclusion [0; 1; 0; 1; 0; 0; 1; 1] 0 1); [reflexivity|exact H1].
Defined.

End Race.

(** ** Properties *)

Section Nesting.
Context {S : Type} `{HasHart S}.

Lemma pushed_noff h : hart_ok h -> c_noff (mycpu (pushed h)) = c_noff (mycpu h) + 1.
Proof. intros Hh. unfold pushed. rewrite mycpu_set_mycpu. by case_match. Qed.

Lemma pushed_intr h : intr_get (pushed h) = false.
Proof. unfold pushed. by rewrite intr_get_set_mycpu, intr_get_off. Qed.

Lemma pushed_ok h : hart_ok h -> hart_ok (pushed h).
Proof.
  intros Hh. pose proof (pushed_noff h Hh). destruct Hh. split; [lia|]. intros _. apply pushed_intr.
Qed.

Lemma touched_pushed h : hart_ok h -> touched (pushed h) = pushed h.
Proof.
  intros Hh. pose proof (pushed_noff h Hh) as Hn. destruct Hh. unfold touched.
  destruct (Z.eqb_spec (c_noff (mycpu (pushed h))) 0); [lia|].
  unfold pushed. by rewrite mycpu_set_mycpu, set_mycpu_twice.
Qed.

(** A critical section: acquire of a free lock succeeds and leaves the lock held
    by this hart with interrupts off; the matching release frees the lock and
    restores the interrupt enable bit and the nesting depth. *)
Theorem acquire_release (l : lockref S) `{!LockLaws l} s :
  hart_ok (hart_of s) -> lock_free (lk_get l s) ->
  exists s1 s2,
    acquire l s = Ok tt s1 /\ intr_get (hart_of s1) = false /\
    lk_get l s1 = Spinlock 1 (lk_name (lk_get l s)) (Some (h_tp (hart_of s))) /\
    release l s1 = Ok tt s2 /\ lk_get l s2 = lk_get l s /\
    h_csr (hart_of s2) = h_csr (hart_of s) /\
    c_noff (mycpu (hart_of s2)) = c_noff (mycpu (hart_of s)) /\ hart_ok (hart_of s2).
Proof.
  intros Hh Hl. eexists _, _. split; [by apply acquire_eq|].
  rewrite hart_of_lk, hart_get_put, pushed_intr, lk_get_put. split_and!; [done|done| |..].
  - apply (release_eq l _ (hart_of s) (lk_get l s)); [done|done| |apply lk_get_put].
    by rewrite hart_of_lk, hart_get_put.
  - by rewrite lk_get_put.
  - by rewrite hart_of_lk, hart_get_put.
  - rewrite hart_of_lk, hart_get_put. apply touched_noff.
  - rewrite hart_of_lk, hart_get_put. by apply touched_ok.
Qed.

End Nesting.
