(* ===== verification/Kalloc.v ===== *)
(** * kernel/kalloc.c: the physical page allocator

    The free list is threaded through the free pages themselves: [freelist]
    is the address of the first free page and the first eight bytes of a
    free page hold the address of the next one. *)

From S2P Require Import Prelude CString Layout Spinlock.

(** ** State *)

Record kmem := Kmem { kmem_lock : spinlock; kmem_freelist : Z }.

(** The machine state below the process table: the running hart, physical
    memory, the allocator and the kernel page table. *)
Record mst := Mst { m_hart : hart; m_mem : mem; m_kmem : kmem; m_kpgtbl : Z }.

Definition set_mem (m : mem) (s : mst) : mst := Mst (m_hart s) m (m_kmem s) (m_kpgtbl s).
Definition set_freelist (p : Z) (s : mst) : mst :=
  Mst (m_hart s) (m_mem s) (Kmem (kmem_lock (m_kmem s)) p) (m_kpgtbl s).
Definition set_kpgtbl (p : Z) (s : mst) : mst := Mst (m_hart s) (m_mem s) (m_kmem s) p.

#[export] Instance mst_hart : HasHart mst.
Proof.
  refine {| hart_of := m_hart;
            put_hart h s := Mst h (m_mem s) (m_kmem s) (m_kpgtbl s) |};
  repeat intros []; done.
Defined.

(** kmem.lock *)
Definition kmemlock : lockref mst := LockRef (fun s => kmem_lock (m_kmem s))
  (fun k s => Mst (m_hart s) (m_mem s) (Kmem k (kmem_freelist (m_kmem s))) (m_kpgtbl s)).

#[export] Instance kmemlock_laws : LockLaws kmemlock.
Proof. by split. Qed.

(** kmem.lock on a hart with interrupts enabled. *)
Lemma acquire_release_witness :
  let s := Mst (Hart 0 (Csrs 2 0 0 0 0 0 0) ∅) ∅ (Kmem (Spinlock 0 "kmem" None) 0) 0 in
  exists s1 s2, acquire kmemlock s = Ok tt s1 /\ intr_get (hart_of s1) = false /\
    release kmemlock s1 = Ok tt s2 /\ h_csr (hart_of s2) = h_csr (hart_of s).
Proof.
  intros s. destruct (acquire_release kmemlock s) as (s1 & s2 & H1 & H2 & _ & H3 & _ & H4 & _).
  - split; [done|done].
  - done.
  - exists s1, s2. split_and!; assumption.
Defined.

(** Loads and stores of kernel code. *)
Definition load64 (a : Z) : M mst Z := gets (fun s => rd64 (m_mem s) a).
Definition store64 (a v : Z) : M mst unit := modify (fun s => set_mem (wr64 (m_mem s) a v) s).
Definition kmemset (dst c n : Z) : M mst unit :=
  modify (fun s => set_mem (memset (m_mem s) dst c n) s).
Definition kmemmove (dst src n : Z) : M mst unit :=
  modify (fun s => set_mem (memmove (m_mem s) dst src n) s).

(** ** Operations *)

Section Operations.
Context `{KernelImage}.

Definition kfree (pa : Z) : M mst unit :=
  if negb (pa mod PGSIZE =? 0) || (pa <? k_end) || (PHYSTOP <=? pa) then panic "kfree" else
  kmemset pa 1 PGSIZE;;
  acquire kmemlock;;
  (let! fl := gets (fun s => kmem_freelist (m_kmem s)) in store64 pa fl);;
  modify (set_freelist pa);;
  release kmemlock.

Definition kalloc : M mst Z :=
  acquire kmemlock;;
  let! r := gets (fun s => kmem_freelist (m_kmem s)) in
  (if truthy r then let! next := load64 r in modify (set_freelist next) else skip);;
  release kmemlock;;
  (if truthy r then kmemset r 5 PGSIZE else skip);;
  ret r.

(** The loop of freerange; [fuel] bounds the number of pages. *)
Fixpoint freerange_loop (fuel : nat) (p pa_end : Z) : M mst unit :=
  match fuel with
  | O => diverge
  | S fuel' =>
      if p + PGSIZE <=? pa_end then kfree p;; freerange_loop fuel' (p + PGSIZE) pa_end
      else skip
  end.

Definition freerange (pa_start pa_end : Z) : M mst unit :=
  let p := PGROUNDUP pa_start in
  freerange_loop (S (Z.to_nat ((pa_end - p) / PGSIZE))) p pa_end.

Definition kinit : M mst unit :=
  initlock kmemlock "kmem";;
  freerange k_end PHYSTOP.

End Operations.

(** ** Invariant *)

(** A page the allocator may hand out. *)
Definition page_ok `{KernelImage} (p : Z) : Prop :=
  p mod PGSIZE = 0 /\ k_end <= p < PHYSTOP.

(** The list of free pages from [p] on is [l]. *)
Fixpoint fl_rep (m : mem) (p : Z) (l : list Z) : Prop :=
  match l with
  | [] => p = 0
  | x :: l' => p = x /\ fl_rep m (rd64 m x) l'
  end.

(** The allocator at rest, with free pages [l]. *)
Record kmem_inv `{KernelImage} (s : mst) (l : list Z) : Prop := {
  ki_hart : hart_ok (m_hart s);
  ki_lock : lock_free (kmem_lock (m_kmem s));
  ki_rep : fl_rep (m_mem s) (kmem_freelist (m_kmem s)) l;
  ki_nodup : NoDup l;
  ki_pages : Forall page_ok l
}.

(** [m'] differs from [m] only inside the pages [ps]. *)
Definition only_pages (m : mem) (ps : list Z) (m' : mem) : Prop :=
  forall a, (forall p, p ∈ ps -> ~ in_page p a) -> rd m' a = rd m a.

Section Facts.
Context `{HI : KernelImage}.
Context `{HOk : !ImageOk}.

Lemma page_ok_pos p : page_ok p -> KERNBASE < p < PHYSTOP /\ p mod PGSIZE = 0.
Proof. destruct HOk. unfold page_ok. klia. Qed.

Lemma page_ok_nz p : page_ok p -> p <> 0.
Proof. intros Hp. pose proof (page_ok_pos p Hp). klia. Qed.

Lemma page_ok_56 p : page_ok p -> 0 <= p < 2 ^ 56.
Proof. intros Hp. pose proof (page_ok_pos p Hp). klia. Qed.

Lemma only_pages_refl m ps : only_pages m ps m.
Proof. by intros a Ha. Qed.

Lemma only_pages_trans m ps m' qs m'' :
  only_pages m ps m' -> only_pages m' qs m'' -> only_pages m (ps ++ qs) m''.
Proof.
  intros H1 H2 a Ha. rewrite H2, H1; [done| |]; intros p Hp; apply Ha, elem_of_app; auto.
Qed.

Lemma only_pages_weaken m ps qs m' :
  only_pages m ps m' -> (forall p, p ∈ ps -> p ∈ qs) -> only_pages m qs m'.
Proof. intros H1 Hsub a Ha. apply H1. intros p Hp. by apply Ha, Hsub. Qed.

Lemma only_pages_rd64 m ps m' p o :
  only_pages m ps m' -> p mod PGSIZE = 0 -> Forall (fun q => q mod PGSIZE = 0) ps ->
  p ∉ ps -> 0 <= o <= PGSIZE - 8 -> rd64 m' (p + o) = rd64 m (p + o).
Proof.
  intros H1 Hp Hps Hnin Ho. apply rd64_ext. intros b Hb. apply H1. intros q Hq Hin.
  rewrite Forall_forall in Hps. specialize (Hps q Hq). apply Hnin.
  rewrite (in_page_inj p q b); [done|done|done| |done]. unfold in_page. consts. lia.
Qed.

Lemma only_pages_range m p o n m' :
  only_range m (p + o) n m' -> 0 <= o -> o + n <= PGSIZE -> only_pages m [p] m'.
Proof.
  intros H1 Ho Hn a Ha. apply H1. specialize (Ha p ltac:(by left)). unfold in_page in Ha. lia.
Qed.

Lemma memset_page_only m p c : only_pages m [p] (memset m p c PGSIZE).
Proof.
  apply (only_pages_range m p 0 PGSIZE); [|consts; lia..]. rewrite Z.add_0_r.
  apply memset_only_range. consts. lia.
Qed.

Lemma wr64_only_range m a v : only_range m a 8 (wr64 m a v).
Proof. intros b Hb. apply rd_wr64_ne. lia. Qed.

Lemma wr64_page_only m p o v :
  0 <= o <= PGSIZE - 8 -> only_pages m [p] (wr64 m (p + o) v).
Proof. intros Ho. apply (only_pages_range m p o 8); [apply wr64_only_range|lia..]. Qed.

Lemma page_ok_aligned ps : Forall page_ok ps -> Forall (fun q => q mod PGSIZE = 0) ps.
Proof. intros H. eapply Forall_impl; [exact H|]. by intros x [? ?]. Qed.

(** The free list only depends on the free pages. *)
Lemma fl_rep_frame m m' p l ps :
  fl_rep m p l -> only_pages m ps m' -> Forall page_ok l ->
  Forall (fun q => q mod PGSIZE = 0) ps -> (forall x, x ∈ l -> x ∉ ps) -> fl_rep m' p l.
Proof.
  revert p. induction l as [|x l IH]; intros p Hrep Hm Hl Hps Hd; simpl in *; [done|].
  destruct Hrep as [-> Hrep]. apply Forall_cons in Hl as [[Hx ?] Hl]. split; [done|].
  rewrite <- (Z.add_0_r x), (only_pages_rd64 m ps m' x 0), Z.add_0_r; try done.
  - apply IH; try done. intros y Hy. apply Hd. by right.
  - apply Hd. by left.
Qed.

(** ** Exact behaviour *)

Lemma acquire_kmem h m lk fl kp :
  lock_free lk ->
  acquire kmemlock (Mst h m (Kmem lk fl) kp) =
  Ok tt (Mst (pushed h) m (Kmem (locked_by h lk) fl) kp).
Proof. intros Hl. by rewrite (acquire_eq kmemlock) by exact Hl. Qed.

Lemma release_kmem h m lk fl kp :
  hart_ok h -> lock_free lk ->
  release kmemlock (Mst (pushed h) m (Kmem (locked_by h lk) fl) kp) =
  Ok tt (Mst (touched h) m (Kmem lk fl) kp).
Proof.
  intros Hh Hl. by rewrite (release_eq kmemlock _ h lk).
Qed.

Lemma kfree_eq h m lk fl kp pa :
  hart_ok h -> lock_free lk -> page_ok pa ->
  kfree pa (Mst h m (Kmem lk fl) kp) =
  Ok tt (Mst (touched h) (wr64 (memset m pa 1 PGSIZE) pa fl) (Kmem lk pa) kp).
Proof.
  intros Hh Hl [Ha Hr]. unfold kfree. rewrite Ha. simpl.
  destruct (Z.ltb_spec pa k_end); [lia|]. destruct (Z.leb_spec PHYSTOP pa); [lia|]. simpl.
  unfold kmemset, store64. mstep. unfold set_mem, set_freelist. simpl.
  erewrite bind_Ok by by apply acquire_kmem. mstep. simpl. by apply release_kmem.
Qed.

Lemma kalloc_eq h m lk fl kp :
  hart_ok h -> lock_free lk ->
  kalloc (Mst h m (Kmem lk fl) kp) =
  Ok fl (if fl =? 0 then Mst (touched h) m (Kmem lk fl) kp
         else Mst (touched h) (memset m fl 5 PGSIZE) (Kmem lk (rd64 m fl)) kp).
Proof.
  intros Hh Hl. unfold kalloc. erewrite bind_Ok by by apply acquire_kmem.
  unfold load64, truthy. mstep. simpl.
  destruct (fl =? 0) eqn:E; simpl; mstep; unfold set_freelist; simpl;
    by erewrite bind_Ok by by apply release_kmem.
Qed.

Lemma kfree_bad pa s :
  ~ page_ok pa -> kfree pa s = Panic "kfree".
Proof.
  intros Hbad. unfold kfree, page_ok in *.
  destruct (Z.eqb_spec (pa mod PGSIZE) 0), (Z.ltb_spec pa k_end), (Z.leb_spec PHYSTOP pa);
    simpl; try done. exfalso. apply Hbad. lia.
Qed.

(** ** Invariant preservation *)

Lemma kalloc_inv s l :
  kmem_inv s l ->
  match l with
  | [] => kalloc s = Ok 0 (put_hart (touched (m_hart s)) s)
  | x :: l' => exists s',
      kalloc s = Ok x s' /\ kmem_inv s' l' /\ m_hart s' = touched (m_hart s) /\
      mem_is (m_mem s') (memset (m_mem s) x 5 PGSIZE) /\ m_kpgtbl s' = m_kpgtbl s
  end.
Proof.
  intros [Hh Hl Hrep Hnd Hp]. destruct s as [h m [lk fl] kp]; simpl in *.
  destruct l as [|x l]; simpl in *.
  { subst. by rewrite kalloc_eq. }
  destruct Hrep as [-> Hrep]. apply Forall_cons in Hp as [Hx Hp].
  apply NoDup_cons in Hnd as [Hnin Hnd].
  rewrite kalloc_eq by done. pose proof (page_ok_nz x Hx).
  destruct (Z.eqb_spec x 0); [done|].
  eexists. split; [done|]. simpl. split_and!; try done.
  split; simpl; try done; [by apply touched_ok|].
  eapply fl_rep_frame; [done|apply memset_page_only|done| |].
  - apply Forall_singleton, Hx.
  - intros y Hy ->%list_elem_of_singleton. done.
Qed.

Lemma kfree_inv s l pa :
  kmem_inv s l -> page_ok pa -> pa ∉ l ->
  exists s',
    kfree pa s = Ok tt s' /\ kmem_inv s' (pa :: l) /\ m_hart s' = touched (m_hart s) /\
    only_pages (m_mem s) [pa] (m_mem s') /\ m_kpgtbl s' = m_kpgtbl s.
Proof.
  intros [Hh Hl Hrep Hnd Hp] Hpa Hnin. destruct s as [h m [lk fl] kp]; simpl in *.
  rewrite kfree_eq by done. eexists. split; [done|]. simpl.
  assert (only_pages m [pa] (wr64 (memset m pa 1 PGSIZE) pa fl)) as Honly.
  { intros a Ha. pose proof (wr64_page_only (memset m pa 1 PGSIZE) pa 0 fl) as H1.
    rewrite Z.add_0_r in H1. rewrite H1, (memset_page_only m pa 1); try done. }
  split_and!; try done. split; simpl; try done.
  - by apply touched_ok.
  - split; [done|]. rewrite rd64_wr64_same.
    assert (fl_rep m fl l -> 0 <= fl < 18446744073709551616) as Hfl.
    { destruct l as [|x l]; simpl; [lia|]. intros [-> _].
      apply Forall_cons in Hp as [Hx%page_ok_pos _]. klia. }
    rewrite u64_small by auto. eapply fl_rep_frame; [done..| |].
    + apply Forall_singleton, Hpa.
    + by intros y Hy ->%list_elem_of_singleton.
  - by apply NoDup_cons.
  - by apply Forall_cons.
Qed.

(** ** Initialisation *)

(** [n] pages from [p] up, highest first: the order freerange frees them in. *)
Fixpoint pages_down (n : nat) (p : Z) : list Z :=
  match n with
  | O => []
  | S n' => (p + PGSIZE * Z.of_nat n') :: pages_down n' p
  end.

Lemma elem_of_pages_down n p x :
  x ∈ pages_down n p <-> exists i, 0 <= i < Z.of_nat n /\ x = p + PGSIZE * i.
Proof.
  induction n as [|n IH]; cbn [pages_down].
  { rewrite elem_of_nil. split; [done|]. intros (i & Hi & _). lia. }
  rewrite elem_of_cons, IH. split.
  - intros [->|(i & Hi & ->)]; eexists; split; [|done| |done]; lia.
  - intros (i & Hi & ->). destruct (decide (i = Z.of_nat n)) as [->|]; [by left|].
    right. exists i. split; [lia|done].
Qed.

Lemma NoDup_pages_down n p : NoDup (pages_down n p).
Proof.
  induction n as [|n IH]; cbn [pages_down]; [constructor|].
  apply NoDup_cons. split; [|done]. rewrite elem_of_pages_down. intros (i & Hi & Heq).
  consts. lia.
Qed.

Lemma pages_down_S_l n p : pages_down (S n) p = pages_down n (p + PGSIZE) ++ [p].
Proof.
  revert p. induction n as [|n IH]; intros p.
  { cbn. f_equal. lia. }
  change (pages_down (S (S n)) p) with ((p + PGSIZE * Z.of_nat (S n)) :: pages_down (S n) p).
  rewrite IH. cbn [pages_down app]. f_equal. lia.
Qed.

Lemma freerange_loop_inv fuel s l p n :
  kmem_inv s l -> (n < fuel)%nat -> p mod PGSIZE = 0 -> k_end <= p ->
  p + PGSIZE * Z.of_nat n <= PHYSTOP < p + PGSIZE * Z.of_nat n + PGSIZE ->
  (forall x, x ∈ l -> x < p) ->
  exists s', freerange_loop fuel p PHYSTOP s = Ok tt s' /\ kmem_inv s' (pages_down n p ++ l) /\
    m_kpgtbl s' = m_kpgtbl s.
Proof.
  revert s l p n. induction fuel as [|fuel IH]; intros s l p n Hinv Hn Hp He Hr Hl; [lia|].
  cbn [freerange_loop]. destruct n as [|n].
  { destruct (Z.leb_spec (p + PGSIZE) PHYSTOP); [klia|]. by exists s. }
  destruct (Z.leb_spec (p + PGSIZE) PHYSTOP); [|klia].
  destruct (kfree_inv s l p) as (s1 & Hs1 & Hinv1 & _ & _ & Hk1); [done| | |].
  { split; [done|]. klia. }
  { intros Hin%Hl. lia. }
  rewrite (bind_Ok _ _ _ _ _ Hs1).
  destruct (IH s1 (p :: l) (p + PGSIZE) n) as (s2 & Hs2 & Hinv2 & Hk2); try done.
  - lia.
  - klia.
  - klia.
  - klia.
  - intros x [->|Hx%Hl]%elem_of_cons; klia.
  - exists s2. split; [done|]. rewrite pages_down_S_l, <- app_assoc. split; [done|]. by rewrite Hk2.
Qed.

(** The number of whole pages between the end of the kernel and PHYSTOP. *)
Definition total_pages : nat := Z.to_nat ((PHYSTOP - PGROUNDUP k_end) / PGSIZE).

Lemma PGROUNDUP_end :
  PGROUNDUP k_end mod PGSIZE = 0 /\ k_end <= PGROUNDUP k_end < k_end + PGSIZE /\
  PGROUNDUP k_end <= PHYSTOP.
Proof.
  destruct HOk. rewrite PGROUNDUP_eq by klia. klia.
Qed.

Lemma kinit_inv s :
  hart_ok (m_hart s) -> kmem_freelist (m_kmem s) = 0 ->
  exists s', kinit s = Ok tt s' /\ kmem_inv s' (pages_down total_pages (PGROUNDUP k_end)) /\
    m_kpgtbl s' = m_kpgtbl s.
Proof.
  intros Hh Hf. pose proof PGROUNDUP_end as (Ha & Hr & Hle).
  unfold kinit, initlock. mstep. unfold freerange.
  destruct (freerange_loop_inv (S total_pages)
    (lk_put kmemlock (Spinlock 0 "kmem" None) s) [] (PGROUNDUP k_end) total_pages)
    as (s' & Hs' & Hinv & Hk); try done.
  - split; try done; simpl; constructor.
  - lia.
  - lia.
  - unfold total_pages. klia.
  - by intros x ?%elem_of_nil.
  - exists s'. split; [done|]. rewrite app_nil_r in Hinv. split; [done|]. by rewrite Hk.
Qed.

Lemma elem_of_free_pages x :
  x ∈ pages_down total_pages (PGROUNDUP k_end) <-> page_ok x.
Proof.
  pose proof PGROUNDUP_end as (Ha & Hr & Hle). rewrite elem_of_pages_down. unfold total_pages, page_ok.
  split.
  - intros (i & Hi & ->). klia.
  - intros (Hx & Hrng). exists ((x - PGROUNDUP k_end) / PGSIZE). klia.
Qed.

End Facts.

(** ** Clients of the allocator *)

(** [reach s o]: the state [s] is reached from boot by calls of kalloc and
    kfree, where callers own the pages [o] they were given, write only to
    those, and free only those. *)
Inductive reach `{KernelImage} : mst -> gset Z -> Prop :=
  | reach_boot s0 s :
      hart_ok (m_hart s0) -> kmem_freelist (m_kmem s0) = 0 -> kinit s0 = Ok tt s -> reach s ∅
  | reach_alloc s o r s' :
      reach s o -> kalloc s = Ok r s' -> r <> 0 -> reach s' ({[r]} ∪ o)
  | reach_alloc_fail s o s' :
      reach s o -> kalloc s = Ok 0 s' -> reach s' o
  | reach_free s o p s' :
      reach s o -> p ∈ o -> kfree p s = Ok tt s' -> reach s' (o ∖ {[p]})
  | reach_write s o m' :
      reach s o -> only_pages (m_mem s) (elements o) m' -> reach (set_mem m' s) o.

Section Clients.
Context `{HI : KernelImage}.
Context `{HOk : !ImageOk}.

(** Free and owned pages partition the pages of RAM above the kernel. *)
Lemma reach_inv s o :
  reach s o ->
  exists l, kmem_inv s l /\ (forall p, p ∈ l -> p ∉ o) /\ forall p, page_ok p <-> p ∈ l \/ p ∈ o.
Proof.
  induction 1 as [s0 s Hh Hf Hk | s o r s' Hr (l & Hi & Hd & Ha) Hk Hnz
                 | s o s' Hr (l & Hi & Hd & Ha) Hk | s o p s' Hr (l & Hi & Hd & Ha) Hp Hk
                 | s o m' Hr (l & Hi & Hd & Ha) Hm].
  - destruct (kinit_inv s0 Hh Hf) as (s1 & Hs1 & Hi & _). rewrite Hs1 in Hk. simplify_eq.
    eexists. split; [done|]. split; [set_solver|]. intros p. rewrite elem_of_free_pages. set_solver.
  - apply kalloc_inv in Hi as Hka. destruct l as [|x l].
    { rewrite Hka in Hk. by simplify_eq. }
    destruct Hka as (s1 & Hs1 & Hi1 & _). rewrite Hs1 in Hk. simplify_eq.
    pose proof (ki_nodup _ _ Hi) as [Hnin _]%NoDup_cons.
    exists l. split; [done|]. split.
    + intros p Hp. rewrite elem_of_union, elem_of_singleton. intros [->|Hin]; [done|].
      apply (Hd p); [by right|done].
    + intros p. rewrite Ha. set_solver.
  - apply kalloc_inv in Hi as Hka. destruct l as [|x l].
    { rewrite Hka in Hk. simplify_eq. exists []. split; [|done].
      destruct Hi. split; try done. by apply touched_ok. }
    destruct Hka as (s1 & Hs1 & Hi1 & _). rewrite Hs1 in Hk. simplify_eq.
    pose proof (ki_pages _ _ Hi) as [Hx%page_ok_nz _]%Forall_cons. done.
  - destruct (kfree_inv s l p) as (s1 & Hs1 & Hi1 & _); [done|apply Ha; by right| |].
    { intros Hin. by apply (Hd p). }
    rewrite Hs1 in Hk. simplify_eq. exists (p :: l). split; [done|]. split.
    + intros q [->|Hq]%elem_of_cons; [set_solver|]. specialize (Hd q Hq). set_solver.
    + intros q. rewrite Ha. destruct (decide (q = p)) as [->|]; set_solver.
  - exists l. split; [|done]. destruct Hi. split; try done. simpl.
    eapply fl_rep_frame; [done..| |].
    + apply page_ok_aligned, Forall_forall. intros q Hq%elem_of_elements. apply Ha. by right.
    + intros x Hx Hin%elem_of_elements. by apply (Hd x).
Qed.

End Clients.
