(* ===== verification/State.v ===== *)
(** * The global state of the kernel

    One record per global structure of the source, and the record [kst] of all
    of them.  Arrays of structures are finite maps in which a missing entry
    stands for the zero-initialised structure of the C program; pointers to
    array elements are indices.  The updates are the only code here. *)

From S2P Require Import Prelude Layout Spinlock Kalloc.

(** ** Processes (kernel/proc.h) *)

Inductive procstate := UNUSED | SLEEPING | RUNNABLE | RUNNING | ZOMBIE.

#[export] Instance procstate_eq_dec : EqDecision procstate.
Proof. solve_decision. Defined.

(** The addresses processes sleep on. *)
Inductive chan :=
  | ChProc (i : nat)        (* a process, in wait() *)
  | ChTicks                 (* &ticks *)
  | ChBufLock (i : nat)     (* &bcache.buf[i].lock *)
  | ChInodeLock (i : nat)   (* &icache.inode[i].lock *)
  | ChLog                   (* &log *)
  | ChDiskFree              (* &disk.free[0] *)
  | ChBuf (i : nat)         (* &bcache.buf[i] *)
  | ChPipeRead (a : Z)      (* &pi->nread *)
  | ChPipeWrite (a : Z)     (* &pi->nwrite *)
  | ChCons                  (* &cons.r *)
  | ChUart.                 (* &uart_tx_r *)

#[export] Instance chan_eq_dec : EqDecision chan.
Proof. solve_decision. Defined.

(** struct proc; pages of memory are physical addresses, [p_name] its 16 bytes. *)
Record proc := Proc {
  p_lock : spinlock;
  p_state : procstate;
  p_parent : option nat;
  p_chan : option chan;
  p_killed : Z;
  p_xstate : Z;
  p_pid : Z;
  p_kstack : Z;
  p_sz : Z;
  p_pagetable : Z;
  p_trapframe : Z;
  p_context : context;
  p_ofile : gmap nat nat;
  p_cwd : option nat;
  p_name : list Z }.

Definition lock0 : spinlock := Spinlock 0 "" None.

Definition proc0 : proc :=
  Proc lock0 UNUSED None None 0 0 0 0 0 0 0 context0 ∅ None (replicate 16 0).

(** The globals of proc.c and sysproc.c: proc[], nextpid, pid_lock, initproc,
    the flag [next], and [first] of forkret. *)
Record ptable := Ptable {
  pt_proc : gmap nat proc;
  pt_nextpid : Z;
  pt_pid_lock : spinlock;
  pt_initproc : option nat;
  pt_next : Z;
  pt_first : Z }.

(** ** Sleep locks (kernel/sleeplock.h) and buffers (kernel/buf.h) *)

Record sleeplock := Sleeplock {
  sl_locked : Z;
  sl_lk : spinlock;
  sl_name : string;
  sl_pid : Z }.

Definition sleeplock0 : sleeplock := Sleeplock 0 lock0 "" 0.

Definition BSIZE : Z := 1024.

(** A buffer; [b_prev] and [b_next] are indices in bcache.buf, NBUF for the head. *)
Record buf := Buf {
  b_valid : Z;
  b_disk : Z;
  b_dev : Z;
  b_blockno : Z;
  b_lock : sleeplock;
  b_refcnt : Z;
  b_prev : nat;
  b_next : nat;
  b_data : list Z }.

Definition buf0 : buf := Buf 0 0 0 0 sleeplock0 0 0 0 (replicate (Z.to_nat BSIZE) 0).

(** bcache (kernel/bio.c); the entry NBUF of the map is bcache.head. *)
Record bcache := Bcache { bc_lock : spinlock; bc_buf : gmap nat buf }.

(** ** The log (kernel/log.c) *)

Record logheader := Logheader { lh_n : Z; lh_block : list Z }.

Record log := Log {
  lg_lock : spinlock;
  lg_start : Z;
  lg_size : Z;
  lg_outstanding : Z;
  lg_committing : Z;
  lg_dev : Z;
  lg_lh : logheader }.

(** ** The file system (kernel/fs.h, kernel/file.h) *)

Record superblock := Superblock {
  sb_magic : Z; sb_size : Z; sb_nblocks : Z; sb_ninodes : Z;
  sb_nlog : Z; sb_logstart : Z; sb_inodestart : Z; sb_bmapstart : Z }.

(** In-memory inode; [i_addrs] are its NDIRECT+1 block addresses. *)
Record inode := Inode {
  i_dev : Z;
  i_inum : Z;
  i_ref : Z;
  i_lock : sleeplock;
  i_valid : Z;
  i_type : Z;
  i_major : Z;
  i_minor : Z;
  i_nlink : Z;
  i_size : Z;
  i_addrs : list Z }.

Definition inode0 : inode := Inode 0 0 0 sleeplock0 0 0 0 0 0 0 (replicate 13 0).

Record icache := Icache { ic_lock : spinlock; ic_inode : gmap nat inode }.

Inductive filetype := FD_NONE | FD_PIPE | FD_INODE | FD_DEVICE.

#[export] Instance filetype_eq_dec : EqDecision filetype.
Proof. solve_decision. Defined.

Record file := File {
  f_type : filetype;
  f_ref : Z;
  f_readable : Z;
  f_writable : Z;
  f_pipe : Z;
  f_ip : option nat;
  f_off : Z;
  f_major : Z }.

Definition file0 : file := File FD_NONE 0 0 0 0 None 0 0.

(** The functions a device registers in devsw[]: consoleread and consolewrite. *)
Inductive devfns := ConsoleFns.

(** ftable and devsw (kernel/file.c); a missing entry of devsw is null. *)
Record ftable := Ftable { ft_lock : spinlock; ft_file : gmap nat file; ft_devsw : gmap Z devfns }.

(** ** Pipes (kernel/pipe.c), by the address of their page *)

Record pipe := Pipe {
  pi_lock : spinlock;
  pi_data : list Z;
  pi_nread : Z;
  pi_nwrite : Z;
  pi_readopen : Z;
  pi_writeopen : Z }.

Definition PIPESIZE : Z := 512.
Definition pipe0 : pipe := Pipe lock0 (replicate (Z.to_nat PIPESIZE) 0) 0 0 0 0.

(** ** Console and UART (kernel/console.c, kernel/uart.c) *)

Record console := Console {
  cn_lock : spinlock;
  cn_buf : list Z;
  cn_r : Z;
  cn_w : Z;
  cn_e : Z }.

(** [u_out] are the bytes stored to THR and [u_in] those waiting in RHR;
    [u_idle] counts the bytes THR accepts before it is busy. *)
Record uart := Uart {
  u_lock : spinlock;
  u_buf : list Z;
  u_w : Z;
  u_r : Z;
  u_out : list Z;
  u_in : list Z;
  u_idle : nat }.

(** ** The disk: the blocks of the device, and the writes it has performed *)

Record disk := Disk { d_blocks : gmap Z (list Z); d_writes : list (Z * list Z) }.

(** What the address in a descriptor points to: the request header on a kernel
    stack, the data of a buffer, the status byte of an operation. *)
Inductive daddr := ANull | AHdr (type sector : Z) | AData (b : nat) | AStatus (i : nat).

Record vdesc := Vdesc { dc_addr : daddr; dc_len : Z; dc_flags : Z; dc_next : Z }.
Definition vdesc0 : vdesc := Vdesc ANull 0 0 0.

(** disk (kernel/virtio_disk.c) with the device's registers: the rings shared
    with the device, the driver's book-keeping, and the MMIO words at VIRTIO0. *)
Record vdisk := Vdisk {
  vd_lock : spinlock;
  vd_desc : gmap nat vdesc;
  vd_avail_idx : Z;
  vd_avail : gmap nat Z;
  vd_used_id : Z;
  vd_used : gmap nat Z;
  vd_free : list Z;
  vd_used_idx : Z;
  vd_info_b : gmap nat nat;
  vd_info_status : gmap nat Z;
  vd_regs : gmap Z Z }.

(** The PLIC: the words the kernel has stored, and the interrupts to be claimed. *)
Record plic := Plic { pl_regs : gmap Z Z; pl_pending : list Z }.

(** pr and panicked (kernel/printf.c). *)
Record printer := Printer { pr_lock : spinlock; pr_locking : Z; pr_panicked : Z }.

(** Ticks (kernel/trap.c). *)
Record clock := Clock { ck_lock : spinlock; ck_ticks : Z }.

(** ** Updates of single fields *)

Definition set_p_lock (x : spinlock) (r : proc) : proc :=
  Proc x (p_state r) (p_parent r) (p_chan r) (p_killed r) (p_xstate r) (p_pid r) (p_kstack r)
    (p_sz r) (p_pagetable r) (p_trapframe r) (p_context r) (p_ofile r) (p_cwd r) (p_name r).
Definition set_p_state (x : procstate) (r : proc) : proc :=
  Proc (p_lock r) x (p_parent r) (p_chan r) (p_killed r) (p_xstate r) (p_pid r) (p_kstack r)
    (p_sz r) (p_pagetable r) (p_trapframe r) (p_context r) (p_ofile r) (p_cwd r) (p_name r).
Definition set_p_parent (x : option nat) (r : proc) : proc :=
  Proc (p_lock r) (p_state r) x (p_chan r) (p_killed r) (p_xstate r) (p_pid r) (p_kstack r)
    (p_sz r) (p_pagetable r) (p_trapframe r) (p_context r) (p_ofile r) (p_cwd r) (p_name r).
Definition set_p_chan (x : option chan) (r : proc) : proc :=
  Proc (p_lock r) (p_state r) (p_parent r) x (p_killed r) (p_xstate r) (p_pid r) (p_kstack r)
    (p_sz r) (p_pagetable r) (p_trapframe r) (p_context r) (p_ofile r) (p_cwd r) (p_name r).
Definition set_p_killed (x : Z) (r : proc) : proc :=
  Proc (p_lock r) (p_state r) (p_parent r) (p_chan r) x (p_xstate r) (p_pid r) (p_kstack r)
    (p_sz r) (p_pagetable r) (p_trapframe r) (p_context r) (p_ofile r) (p_cwd r) (p_name r).
Definition set_p_xstate (x : Z) (r : proc) : proc :=
  Proc (p_lock r) (p_state r) (p_parent r) (p_chan r) (p_killed r) x (p_pid r) (p_kstack r)
    (p_sz r) (p_pagetable r) (p_trapframe r) (p_context r) (p_ofile r) (p_cwd r) (p_name r).
Definition set_p_pid (x : Z) (r : proc) : proc :=
  Proc (p_lock r) (p_state r) (p_parent r) (p_chan r) (p_killed r) (p_xstate r) x (p_kstack r)
    (p_sz r) (p_pagetable r) (p_trapframe r) (p_context r) (p_ofile r) (p_cwd r) (p_name r).
Definition set_p_kstack (x : Z) (r : proc) : proc :=
  Proc (p_lock r) (p_state r) (p_parent r) (p_chan r) (p_killed r) (p_xstate r) (p_pid r) x
    (p_sz r) (p_pagetable r) (p_trapframe r) (p_context r) (p_ofile r) (p_cwd r) (p_name r).
Definition set_p_sz (x : Z) (r : proc) : proc :=
  Proc (p_lock r) (p_state r) (p_parent r) (p_chan r) (p_killed r) (p_xstate r) (p_pid r)
    (p_kstack r) x (p_pagetable r) (p_trapframe r) (p_context r) (p_ofile r) (p_cwd r)
    (p_name r).
Definition set_p_pagetable (x : Z) (r : proc) : proc :=
  Proc (p_lock r) (p_state r) (p_parent r) (p_chan r) (p_killed r) (p_xstate r) (p_pid r)
    (p_kstack r) (p_sz r) x (p_trapframe r) (p_context r) (p_ofile r) (p_cwd r) (p_name r).
Definition set_p_trapframe (x : Z) (r : proc) : proc :=
  Proc (p_lock r) (p_state r) (p_parent r) (p_chan r) (p_killed r) (p_xstate r) (p_pid r)
    (p_kstack r) (p_sz r) (p_pagetable r) x (p_context r) (p_ofile r) (p_cwd r) (p_name r).
Definition set_p_context (x : context) (r : proc) : proc :=
  Proc (p_lock r) (p_state r) (p_parent r) (p_chan r) (p_killed r) (p_xstate r) (p_pid r)
    (p_kstack r) (p_sz r) (p_pagetable r) (p_trapframe r) x (p_ofile r) (p_cwd r) (p_name r).
Definition set_p_ofile (x : gmap nat nat) (r : proc) : proc :=
  Proc (p_lock r) (p_state r) (p_parent r) (p_chan r) (p_killed r) (p_xstate r) (p_pid r)
    (p_kstack r) (p_sz r) (p_pagetable r) (p_trapframe r) (p_context r) x (p_cwd r) (p_name r).
Definition set_p_cwd (x : option nat) (r : proc) : proc :=
  Proc (p_lock r) (p_state r) (p_parent r) (p_chan r) (p_killed r) (p_xstate r) (p_pid r)
    (p_kstack r) (p_sz r) (p_pagetable r) (p_trapframe r) (p_context r) (p_ofile r) x (p_name r).
Definition set_p_name (x : list Z) (r : proc) : proc :=
  Proc (p_lock r) (p_state r) (p_parent r) (p_chan r) (p_killed r) (p_xstate r) (p_pid r)
    (p_kstack r) (p_sz r) (p_pagetable r) (p_trapframe r) (p_context r) (p_ofile r) (p_cwd r) x.

Definition set_pt_proc (x : gmap nat proc) (r : ptable) : ptable :=
  Ptable x (pt_nextpid r) (pt_pid_lock r) (pt_initproc r) (pt_next r) (pt_first r).
Definition set_pt_nextpid (x : Z) (r : ptable) : ptable :=
  Ptable (pt_proc r) x (pt_pid_lock r) (pt_initproc r) (pt_next r) (pt_first r).
Definition set_pt_pid_lock (x : spinlock) (r : ptable) : ptable :=
  Ptable (pt_proc r) (pt_nextpid r) x (pt_initproc r) (pt_next r) (pt_first r).
Definition set_pt_initproc (x : option nat) (r : ptable) : ptable :=
  Ptable (pt_proc r) (pt_nextpid r) (pt_pid_lock r) x (pt_next r) (pt_first r).
Definition set_pt_next (x : Z) (r : ptable) : ptable :=
  Ptable (pt_proc r) (pt_nextpid r) (pt_pid_lock r) (pt_initproc r) x (pt_first r).
Definition set_pt_first (x : Z) (r : ptable) : ptable :=
  Ptable (pt_proc r) (pt_nextpid r) (pt_pid_lock r) (pt_initproc r) (pt_next r) x.

Definition set_sl_locked (x : Z) (r : sleeplock) : sleeplock :=
  Sleeplock x (sl_lk r) (sl_name r) (sl_pid r).
Definition set_sl_lk (x : spinlock) (r : sleeplock) : sleeplock :=
  Sleeplock (sl_locked r) x (sl_name r) (sl_pid r).
Definition set_sl_pid (x : Z) (r : sleeplock) : sleeplock :=
  Sleeplock (sl_locked r) (sl_lk r) (sl_name r) x.

Definition set_b_valid (x : Z) (r : buf) : buf :=
  Buf x (b_disk r) (b_dev r) (b_blockno r) (b_lock r) (b_refcnt r) (b_prev r) (b_next r)
    (b_data r).
Definition set_b_disk (x : Z) (r : buf) : buf :=
  Buf (b_valid r) x (b_dev r) (b_blockno r) (b_lock r) (b_refcnt r) (b_prev r) (b_next r)
    (b_data r).
Definition set_b_dev (x : Z) (r : buf) : buf :=
  Buf (b_valid r) (b_disk r) x (b_blockno r) (b_lock r) (b_refcnt r) (b_prev r) (b_next r)
    (b_data r).
Definition set_b_blockno (x : Z) (r : buf) : buf :=
  Buf (b_valid r) (b_disk r) (b_dev r) x (b_lock r) (b_refcnt r) (b_prev r) (b_next r)
    (b_data r).
Definition set_b_lock (x : sleeplock) (r : buf) : buf :=
  Buf (b_valid r) (b_disk r) (b_dev r) (b_blockno r) x (b_refcnt r) (b_prev r) (b_next r)
    (b_data r).
Definition set_b_refcnt (x : Z) (r : buf) : buf :=
  Buf (b_valid r) (b_disk r) (b_dev r) (b_blockno r) (b_lock r) x (b_prev r) (b_next r)
    (b_data r).
Definition set_b_prev (x : nat) (r : buf) : buf :=
  Buf (b_valid r) (b_disk r) (b_dev r) (b_blockno r) (b_lock r) (b_refcnt r) x (b_next r)
    (b_data r).
Definition set_b_next (x : nat) (r : buf) : buf :=
  Buf (b_valid r) (b_disk r) (b_dev r) (b_blockno r) (b_lock r) (b_refcnt r) (b_prev r) x
    (b_data r).
Definition set_b_data (x : list Z) (r : buf) : buf :=
  Buf (b_valid r) (b_disk r) (b_dev r) (b_blockno r) (b_lock r) (b_refcnt r) (b_prev r)
    (b_next r) x.

Definition set_bc_lock (x : spinlock) (r : bcache) : bcache :=
  Bcache x (bc_buf r).
Definition set_bc_buf (x : gmap nat buf) (r : bcache) : bcache :=
  Bcache (bc_lock r) x.

Definition set_lh_n (x : Z) (r : logheader) : logheader :=
  Logheader x (lh_block r).
Definition set_lh_block (x : list Z) (r : logheader) : logheader :=
  Logheader (lh_n r) x.

Definition set_lg_lock (x : spinlock) (r : log) : log :=
  Log x (lg_start r) (lg_size r) (lg_outstanding r) (lg_committing r) (lg_dev r) (lg_lh r).
Definition set_lg_start (x : Z) (r : log) : log :=
  Log (lg_lock r) x (lg_size r) (lg_outstanding r) (lg_committing r) (lg_dev r) (lg_lh r).
Definition set_lg_size (x : Z) (r : log) : log :=
  Log (lg_lock r) (lg_start r) x (lg_outstanding r) (lg_committing r) (lg_dev r) (lg_lh r).
Definition set_lg_outstanding (x : Z) (r : log) : log :=
  Log (lg_lock r) (lg_start r) (lg_size r) x (lg_committing r) (lg_dev r) (lg_lh r).
Definition set_lg_committing (x : Z) (r : log) : log :=
  Log (lg_lock r) (lg_start r) (lg_size r) (lg_outstanding r) x (lg_dev r) (lg_lh r).
Definition set_lg_dev (x : Z) (r : log) : log :=
  Log (lg_lock r) (lg_start r) (lg_size r) (lg_outstanding r) (lg_committing r) x (lg_lh r).
Definition set_lg_lh (x : logheader) (r : log) : log :=
  Log (lg_lock r) (lg_start r) (lg_size r) (lg_outstanding r) (lg_committing r) (lg_dev r) x.

Definition set_i_dev (x : Z) (r : inode) : inode :=
  Inode x (i_inum r) (i_ref r) (i_lock r) (i_valid r) (i_type r) (i_major r) (i_minor r)
    (i_nlink r) (i_size r) (i_addrs r).
Definition set_i_inum (x : Z) (r : inode) : inode :=
  Inode (i_dev r) x (i_ref r) (i_lock r) (i_valid r) (i_type r) (i_major r) (i_minor r)
    (i_nlink r) (i_size r) (i_addrs r).
Definition set_i_ref (x : Z) (r : inode) : inode :=
  Inode (i_dev r) (i_inum r) x (i_lock r) (i_valid r) (i_type r) (i_major r) (i_minor r)
    (i_nlink r) (i_size r) (i_addrs r).
Definition set_i_lock (x : sleeplock) (r : inode) : inode :=
  Inode (i_dev r) (i_inum r) (i_ref r) x (i_valid r) (i_type r) (i_major r) (i_minor r)
    (i_nlink r) (i_size r) (i_addrs r).
Definition set_i_valid (x : Z) (r : inode) : inode :=
  Inode (i_dev r) (i_inum r) (i_ref r) (i_lock r) x (i_type r) (i_major r) (i_minor r)
    (i_nlink r) (i_size r) (i_addrs r).
Definition set_i_type (x : Z) (r : inode) : inode :=
  Inode (i_dev r) (i_inum r) (i_ref r) (i_lock r) (i_valid r) x (i_major r) (i_minor r)
    (i_nlink r) (i_size r) (i_addrs r).
Definition set_i_major (x : Z) (r : inode) : inode :=
  Inode (i_dev r) (i_inum r) (i_ref r) (i_lock r) (i_valid r) (i_type r) x (i_minor r)
    (i_nlink r) (i_size r) (i_addrs r).
Definition set_i_minor (x : Z) (r : inode) : inode :=
  Inode (i_dev r) (i_inum r) (i_ref r) (i_lock r) (i_valid r) (i_type r) (i_major r) x
    (i_nlink r) (i_size r) (i_addrs r).
Definition set_i_nlink (x : Z) (r : inode) : inode :=
  Inode (i_dev r) (i_inum r) (i_ref r) (i_lock r) (i_valid r) (i_type r) (i_major r) (i_minor r)
    x (i_size r) (i_addrs r).
Definition set_i_size (x : Z) (r : inode) : inode :=
  Inode (i_dev r) (i_inum r) (i_ref r) (i_lock r) (i_valid r) (i_type r) (i_major r) (i_minor r)
    (i_nlink r) x (i_addrs r).
Definition set_i_addrs (x : list Z) (r : inode) : inode :=
  Inode (i_dev r) (i_inum r) (i_ref r) (i_lock r) (i_valid r) (i_type r) (i_major r) (i_minor r)
    (i_nlink r) (i_size r) x.

Definition set_ic_lock (x : spinlock) (r : icache) : icache :=
  Icache x (ic_inode r).
Definition set_ic_inode (x : gmap nat inode) (r : icache) : icache :=
  Icache (ic_lock r) x.

Definition set_f_type (x : filetype) (r : file) : file :=
  File x (f_ref r) (f_readable r) (f_writable r) (f_pipe r) (f_ip r) (f_off r) (f_major r).
Definition set_f_ref (x : Z) (r : file) : file :=
  File (f_type r) x (f_readable r) (f_writable r) (f_pipe r) (f_ip r) (f_off r) (f_major r).
Definition set_f_readable (x : Z) (r : file) : file :=
  File (f_type r) (f_ref r) x (f_writable r) (f_pipe r) (f_ip r) (f_off r) (f_major r).
Definition set_f_writable (x : Z) (r : file) : file :=
  File (f_type r) (f_ref r) (f_readable r) x (f_pipe r) (f_ip r) (f_off r) (f_major r).
Definition set_f_pipe (x : Z) (r : file) : file :=
  File (f_type r) (f_ref r) (f_readable r) (f_writable r) x (f_ip r) (f_off r) (f_major r).
Definition set_f_ip (x : option nat) (r : file) : file :=
  File (f_type r) (f_ref r) (f_readable r) (f_writable r) (f_pipe r) x (f_off r) (f_major r).
Definition set_f_off (x : Z) (r : file) : file :=
  File (f_type r) (f_ref r) (f_readable r) (f_writable r) (f_pipe r) (f_ip r) x (f_major r).
Definition set_f_major (x : Z) (r : file) : file :=
  File (f_type r) (f_ref r) (f_readable r) (f_writable r) (f_pipe r) (f_ip r) (f_off r) x.

Definition set_ft_lock (x : spinlock) (r : ftable) : ftable :=
  Ftable x (ft_file r) (ft_devsw r).
Definition set_ft_file (x : gmap nat file) (r : ftable) : ftable :=
  Ftable (ft_lock r) x (ft_devsw r).
Definition set_ft_devsw (x : gmap Z devfns) (r : ftable) : ftable :=
  Ftable (ft_lock r) (ft_file r) x.

Definition set_pi_lock (x : spinlock) (r : pipe) : pipe :=
  Pipe x (pi_data r) (pi_nread r) (pi_nwrite r) (pi_readopen r) (pi_writeopen r).
Definition set_pi_data (x : list Z) (r : pipe) : pipe :=
  Pipe (pi_lock r) x (pi_nread r) (pi_nwrite r) (pi_readopen r) (pi_writeopen r).
Definition set_pi_nread (x : Z) (r : pipe) : pipe :=
  Pipe (pi_lock r) (pi_data r) x (pi_nwrite r) (pi_readopen r) (pi_writeopen r).
Definition set_pi_nwrite (x : Z) (r : pipe) : pipe :=
  Pipe (pi_lock r) (pi_data r) (pi_nread r) x (pi_readopen r) (pi_writeopen r).
Definition set_pi_readopen (x : Z) (r : pipe) : pipe :=
  Pipe (pi_lock r) (pi_data r) (pi_nread r) (pi_nwrite r) x (pi_writeopen r).
Definition set_pi_writeopen (x : Z) (r : pipe) : pipe :=
  Pipe (pi_lock r) (pi_data r) (pi_nread r) (pi_nwrite r) (pi_readopen r) x.

Definition set_cn_lock (x : spinlock) (r : console) : console :=
  Console x (cn_buf r) (cn_r r) (cn_w r) (cn_e r).
Definition set_cn_buf (x : list Z) (r : console) : console :=
  Console (cn_lock r) x (cn_r r) (cn_w r) (cn_e r).
Definition set_cn_r (x : Z) (r : console) : console :=
  Console (cn_lock r) (cn_buf r) x (cn_w r) (cn_e r).
Definition set_cn_w (x : Z) (r : console) : console :=
  Console (cn_lock r) (cn_buf r) (cn_r r) x (cn_e r).
Definition set_cn_e (x : Z) (r : console) : console :=
  Console (cn_lock r) (cn_buf r) (cn_r r) (cn_w r) x.

Definition set_u_lock (x : spinlock) (r : uart) : uart :=
  Uart x (u_buf r) (u_w r) (u_r r) (u_out r) (u_in r) (u_idle r).
Definition set_u_buf (x : list Z) (r : uart) : uart :=
  Uart (u_lock r) x (u_w r) (u_r r) (u_out r) (u_in r) (u_idle r).
Definition set_u_w (x : Z) (r : uart) : uart :=
  Uart (u_lock r) (u_buf r) x (u_r r) (u_out r) (u_in r) (u_idle r).
Definition set_u_r (x : Z) (r : uart) : uart :=
  Uart (u_lock r) (u_buf r) (u_w r) x (u_out r) (u_in r) (u_idle r).
Definition set_u_out (x : list Z) (r : uart) : uart :=
  Uart (u_lock r) (u_buf r) (u_w r) (u_r r) x (u_in r) (u_idle r).
Definition set_u_in (x : list Z) (r : uart) : uart :=
  Uart (u_lock r) (u_buf r) (u_w r) (u_r r) (u_out r) x (u_idle r).
Definition set_u_idle (x : nat) (r : uart) : uart :=
  Uart (u_lock r) (u_buf r) (u_w r) (u_r r) (u_out r) (u_in r) x.

Definition set_ck_lock (x : spinlock) (r : clock) : clock :=
  Clock x (ck_ticks r).
Definition set_ck_ticks (x : Z) (r : clock) : clock :=
  Clock (ck_lock r) x.

Definition set_vd_lock (x : spinlock) (r : vdisk) : vdisk :=
  Vdisk x (vd_desc r) (vd_avail_idx r) (vd_avail r) (vd_used_id r) (vd_used r) (vd_free r)
    (vd_used_idx r) (vd_info_b r) (vd_info_status r) (vd_regs r).
Definition set_vd_desc (x : gmap nat vdesc) (r : vdisk) : vdisk :=
  Vdisk (vd_lock r) x (vd_avail_idx r) (vd_avail r) (vd_used_id r) (vd_used r) (vd_free r)
    (vd_used_idx r) (vd_info_b r) (vd_info_status r) (vd_regs r).
Definition set_vd_avail_idx (x : Z) (r : vdisk) : vdisk :=
  Vdisk (vd_lock r) (vd_desc r) x (vd_avail r) (vd_used_id r) (vd_used r) (vd_free r)
    (vd_used_idx r) (vd_info_b r) (vd_info_status r) (vd_regs r).
Definition set_vd_avail (x : gmap nat Z) (r : vdisk) : vdisk :=
  Vdisk (vd_lock r) (vd_desc r) (vd_avail_idx r) x (vd_used_id r) (vd_used r) (vd_free r)
    (vd_used_idx r) (vd_info_b r) (vd_info_status r) (vd_regs r).
Definition set_vd_used_id (x : Z) (r : vdisk) : vdisk :=
  Vdisk (vd_lock r) (vd_desc r) (vd_avail_idx r) (vd_avail r) x (vd_used r) (vd_free r)
    (vd_used_idx r) (vd_info_b r) (vd_info_status r) (vd_regs r).
Definition set_vd_used (x : gmap nat Z) (r : vdisk) : vdisk :=
  Vdisk (vd_lock r) (vd_desc r) (vd_avail_idx r) (vd_avail r) (vd_used_id r) x (vd_free r)
    (vd_used_idx r) (vd_info_b r) (vd_info_status r) (vd_regs r).
Definition set_vd_free (x : list Z) (r : vdisk) : vdisk :=
  Vdisk (vd_lock r) (vd_desc r) (vd_avail_idx r) (vd_avail r) (vd_used_id r) (vd_used r) x
    (vd_used_idx r) (vd_info_b r) (vd_info_status r) (vd_regs r).
Definition set_vd_used_idx (x : Z) (r : vdisk) : vdisk :=
  Vdisk (vd_lock r) (vd_desc r) (vd_avail_idx r) (vd_avail r) (vd_used_id r) (vd_used r)
    (vd_free r) x (vd_info_b r) (vd_info_status r) (vd_regs r).
Definition set_vd_info_b (x : gmap nat nat) (r : vdisk) : vdisk :=
  Vdisk (vd_lock r) (vd_desc r) (vd_avail_idx r) (vd_avail r) (vd_used_id r) (vd_used r)
    (vd_free r) (vd_used_idx r) x (vd_info_status r) (vd_regs r).
Definition set_vd_info_status (x : gmap nat Z) (r : vdisk) : vdisk :=
  Vdisk (vd_lock r) (vd_desc r) (vd_avail_idx r) (vd_avail r) (vd_used_id r) (vd_used r)
    (vd_free r) (vd_used_idx r) (vd_info_b r) x (vd_regs r).
Definition set_vd_regs (x : gmap Z Z) (r : vdisk) : vdisk :=
  Vdisk (vd_lock r) (vd_desc r) (vd_avail_idx r) (vd_avail r) (vd_used_id r) (vd_used r)
    (vd_free r) (vd_used_idx r) (vd_info_b r) (vd_info_status r) x.

Definition set_pl_regs (x : gmap Z Z) (r : plic) : plic := Plic x (pl_pending r).
Definition set_pl_pending (x : list Z) (r : plic) : plic := Plic (pl_regs r) x.

(** ** All of it *)

Record kst := Kst {
  k_m : mst;
  k_pt : ptable;
  k_ck : clock;
  k_dk : disk;
  k_bc : bcache;
  k_lg : log;
  k_sb : superblock;
  k_ic : icache;
  k_ft : ftable;
  k_pipes : gmap Z pipe;
  k_cn : console;
  k_ua : uart;
  k_pr : printer;
  k_vd : vdisk;
  k_pl : plic }.

Definition set_m (x : mst) (s : kst) : kst :=
  Kst x (k_pt s) (k_ck s) (k_dk s) (k_bc s) (k_lg s) (k_sb s) (k_ic s) (k_ft s) (k_pipes s)
    (k_cn s) (k_ua s) (k_pr s) (k_vd s) (k_pl s).
Definition set_pt (x : ptable) (s : kst) : kst :=
  Kst (k_m s) x (k_ck s) (k_dk s) (k_bc s) (k_lg s) (k_sb s) (k_ic s) (k_ft s) (k_pipes s)
    (k_cn s) (k_ua s) (k_pr s) (k_vd s) (k_pl s).
Definition set_ck (x : clock) (s : kst) : kst :=
  Kst (k_m s) (k_pt s) x (k_dk s) (k_bc s) (k_lg s) (k_sb s) (k_ic s) (k_ft s) (k_pipes s)
    (k_cn s) (k_ua s) (k_pr s) (k_vd s) (k_pl s).
Definition set_dk (x : disk) (s : kst) : kst :=
  Kst (k_m s) (k_pt s) (k_ck s) x (k_bc s) (k_lg s) (k_sb s) (k_ic s) (k_ft s) (k_pipes s)
    (k_cn s) (k_ua s) (k_pr s) (k_vd s) (k_pl s).
Definition set_bc (x : bcache) (s : kst) : kst :=
  Kst (k_m s) (k_pt s) (k_ck s) (k_dk s) x (k_lg s) (k_sb s) (k_ic s) (k_ft s) (k_pipes s)
    (k_cn s) (k_ua s) (k_pr s) (k_vd s) (k_pl s).
Definition set_lg (x : log) (s : kst) : kst :=
  Kst (k_m s) (k_pt s) (k_ck s) (k_dk s) (k_bc s) x (k_sb s) (k_ic s) (k_ft s) (k_pipes s)
    (k_cn s) (k_ua s) (k_pr s) (k_vd s) (k_pl s).
Definition set_sb (x : superblock) (s : kst) : kst :=
  Kst (k_m s) (k_pt s) (k_ck s) (k_dk s) (k_bc s) (k_lg s) x (k_ic s) (k_ft s) (k_pipes s)
    (k_cn s) (k_ua s) (k_pr s) (k_vd s) (k_pl s).
Definition set_ic (x : icache) (s : kst) : kst :=
  Kst (k_m s) (k_pt s) (k_ck s) (k_dk s) (k_bc s) (k_lg s) (k_sb s) x (k_ft s) (k_pipes s)
    (k_cn s) (k_ua s) (k_pr s) (k_vd s) (k_pl s).
Definition set_ft (x : ftable) (s : kst) : kst :=
  Kst (k_m s) (k_pt s) (k_ck s) (k_dk s) (k_bc s) (k_lg s) (k_sb s) (k_ic s) x (k_pipes s)
    (k_cn s) (k_ua s) (k_pr s) (k_vd s) (k_pl s).
Definition set_pipes (x : gmap Z pipe) (s : kst) : kst :=
  Kst (k_m s) (k_pt s) (k_ck s) (k_dk s) (k_bc s) (k_lg s) (k_sb s) (k_ic s) (k_ft s) x (k_cn s)
    (k_ua s) (k_pr s) (k_vd s) (k_pl s).
Definition set_cn (x : console) (s : kst) : kst :=
  Kst (k_m s) (k_pt s) (k_ck s) (k_dk s) (k_bc s) (k_lg s) (k_sb s) (k_ic s) (k_ft s) (k_pipes s)
    x (k_ua s) (k_pr s) (k_vd s) (k_pl s).
Definition set_ua (x : uart) (s : kst) : kst :=
  Kst (k_m s) (k_pt s) (k_ck s) (k_dk s) (k_bc s) (k_lg s) (k_sb s) (k_ic s) (k_ft s) (k_pipes s)
    (k_cn s) x (k_pr s) (k_vd s) (k_pl s).
Definition set_pr (x : printer) (s : kst) : kst :=
  Kst (k_m s) (k_pt s) (k_ck s) (k_dk s) (k_bc s) (k_lg s) (k_sb s) (k_ic s) (k_ft s) (k_pipes s)
    (k_cn s) (k_ua s) x (k_vd s) (k_pl s).
Definition set_vd (x : vdisk) (s : kst) : kst :=
  Kst (k_m s) (k_pt s) (k_ck s) (k_dk s) (k_bc s) (k_lg s) (k_sb s) (k_ic s) (k_ft s) (k_pipes s)
    (k_cn s) (k_ua s) (k_pr s) x (k_pl s).
Definition set_pl (x : plic) (s : kst) : kst :=
  Kst (k_m s) (k_pt s) (k_ck s) (k_dk s) (k_bc s) (k_lg s) (k_sb s) (k_ic s) (k_ft s) (k_pipes s)
    (k_cn s) (k_ua s) (k_pr s) (k_vd s) x.

(** ** Array elements *)

Definition getp (s : kst) (i : nat) : proc := default proc0 (pt_proc (k_pt s) !! i).
Definition setp (i : nat) (p : proc) (s : kst) : kst :=
  set_pt (set_pt_proc (<[i := p]> (pt_proc (k_pt s))) (k_pt s)) s.

Definition getb (s : kst) (i : nat) : buf := default buf0 (bc_buf (k_bc s) !! i).
Definition setb (i : nat) (b : buf) (s : kst) : kst :=
  set_bc (set_bc_buf (<[i := b]> (bc_buf (k_bc s))) (k_bc s)) s.

Definition geti (s : kst) (i : nat) : inode := default inode0 (ic_inode (k_ic s) !! i).
Definition seti (i : nat) (ip : inode) (s : kst) : kst :=
  set_ic (set_ic_inode (<[i := ip]> (ic_inode (k_ic s))) (k_ic s)) s.

Definition getf (s : kst) (i : nat) : file := default file0 (ft_file (k_ft s) !! i).
Definition setf (i : nat) (f : file) (s : kst) : kst :=
  set_ft (set_ft_file (<[i := f]> (ft_file (k_ft s))) (k_ft s)) s.

Definition getpipe (s : kst) (a : Z) : pipe := default pipe0 (k_pipes s !! a).
Definition setpipe (a : Z) (pi : pipe) (s : kst) : kst := set_pipes (<[a := pi]> (k_pipes s)) s.

(** Updates as computations. *)
Definition updp (i : nat) (f : proc -> proc) : M kst unit := modify (fun s => setp i (f (getp s i)) s).
Definition updb (i : nat) (f : buf -> buf) : M kst unit := modify (fun s => setb i (f (getb s i)) s).
Definition updi (i : nat) (f : inode -> inode) : M kst unit := modify (fun s => seti i (f (geti s i)) s).
Definition updf (i : nat) (f : file -> file) : M kst unit := modify (fun s => setf i (f (getf s i)) s).
Definition updpipe (a : Z) (f : pipe -> pipe) : M kst unit :=
  modify (fun s => setpipe a (f (getpipe s a)) s).
Definition updlg (f : log -> log) : M kst unit := modify (fun s => set_lg (f (k_lg s)) s).

(** Code of kalloc.c and vm.c run on the whole state. *)
Definition memop {A} (c : M mst A) : M kst A := lift k_m set_m c.

(** ** The hart and the locks *)

#[export] Instance kst_hart : HasHart kst.
Proof.
  refine {| hart_of s := m_hart (k_m s);
            put_hart h s := set_m (put_hart h (k_m s)) s |};
  repeat intros [[]]; done.
Defined.

Definition plock (i : nat) : lockref kst :=
  LockRef (fun s => p_lock (getp s i)) (fun k s => setp i (set_p_lock k (getp s i)) s).
Definition pidlock : lockref kst :=
  LockRef (fun s => pt_pid_lock (k_pt s)) (fun k s => set_pt (set_pt_pid_lock k (k_pt s)) s).
Definition tickslock : lockref kst :=
  LockRef (fun s => ck_lock (k_ck s)) (fun k s => set_ck (set_ck_lock k (k_ck s)) s).
Definition bcachelock : lockref kst :=
  LockRef (fun s => bc_lock (k_bc s)) (fun k s => set_bc (set_bc_lock k (k_bc s)) s).
Definition loglock : lockref kst :=
  LockRef (fun s => lg_lock (k_lg s)) (fun k s => set_lg (set_lg_lock k (k_lg s)) s).
Definition icachelock : lockref kst :=
  LockRef (fun s => ic_lock (k_ic s)) (fun k s => set_ic (set_ic_lock k (k_ic s)) s).
Definition ftablelock : lockref kst :=
  LockRef (fun s => ft_lock (k_ft s)) (fun k s => set_ft (set_ft_lock k (k_ft s)) s).
Definition pipelock (a : Z) : lockref kst :=
  LockRef (fun s => pi_lock (getpipe s a)) (fun k s => setpipe a (set_pi_lock k (getpipe s a)) s).
Definition conslock : lockref kst :=
  LockRef (fun s => cn_lock (k_cn s)) (fun k s => set_cn (set_cn_lock k (k_cn s)) s).
Definition uartlock : lockref kst :=
  LockRef (fun s => u_lock (k_ua s)) (fun k s => set_ua (set_u_lock k (k_ua s)) s).

Definition vdisklock : lockref kst :=
  LockRef (fun s => vd_lock (k_vd s)) (fun k s => set_vd (set_vd_lock k (k_vd s)) s).

Definition prlock : lockref kst :=
  LockRef (fun s => pr_lock (k_pr s))
    (fun k s => set_pr (Printer k (pr_locking (k_pr s)) (pr_panicked (k_pr s))) s).

(** The sleep locks, and the spin locks inside them. *)
Record sleepref := SleepRef {
  sl_get : kst -> sleeplock;
  sl_put : sleeplock -> kst -> kst;
  sl_chan : chan }.

Definition buflock (i : nat) : sleepref :=
  SleepRef (fun s => b_lock (getb s i)) (fun k s => setb i (set_b_lock k (getb s i)) s) (ChBufLock i).
Definition inodelock (i : nat) : sleepref :=
  SleepRef (fun s => i_lock (geti s i)) (fun k s => seti i (set_i_lock k (geti s i)) s) (ChInodeLock i).

Definition sl_spin (l : sleepref) : lockref kst :=
  LockRef (fun s => sl_lk (sl_get l s)) (fun k s => sl_put l (set_sl_lk k (sl_get l s)) s).

(** ** Laws *)

Lemma getp_setp i j p s : getp (setp i p s) j = if decide (i = j) then p else getp s j.
Proof. unfold getp, setp. cbn. rewrite lookup_insert. by case_decide. Qed.
Lemma getb_setb i j b s : getb (setb i b s) j = if decide (i = j) then b else getb s j.
Proof. unfold getb, setb. cbn. rewrite lookup_insert. by case_decide. Qed.
Lemma geti_seti i j b s : geti (seti i b s) j = if decide (i = j) then b else geti s j.
Proof. unfold geti, seti. cbn. rewrite lookup_insert. by case_decide. Qed.
Lemma getf_setf i j b s : getf (setf i b s) j = if decide (i = j) then b else getf s j.
Proof. unfold getf, setf. cbn. rewrite lookup_insert. by case_decide. Qed.
Lemma getpipe_setpipe i j b s : getpipe (setpipe i b s) j = if decide (i = j) then b else getpipe s j.
Proof. unfold getpipe, setpipe. cbn. rewrite lookup_insert. by case_decide. Qed.

Lemma setp_setp i p q s : setp i p (setp i q s) = setp i p s.
Proof. unfold setp, set_pt, set_pt_proc. cbn. by rewrite insert_insert_eq. Qed.
Lemma setb_setb i p q s : setb i p (setb i q s) = setb i p s.
Proof. unfold setb, set_bc, set_bc_buf. cbn. by rewrite insert_insert_eq. Qed.
Lemma seti_seti i p q s : seti i p (seti i q s) = seti i p s.
Proof. unfold seti, set_ic, set_ic_inode. cbn. by rewrite insert_insert_eq. Qed.
Lemma setpipe_setpipe i p q s : setpipe i p (setpipe i q s) = setpipe i p s.
Proof. unfold setpipe, set_pipes. cbn. by rewrite insert_insert_eq. Qed.

#[export] Instance plock_laws i : LockLaws (plock i).
Proof.
  split; try done; intros; cbn; rewrite ?getp_setp, ?decide_True by done; try done.
  by rewrite setp_setp.
Qed.
#[export] Instance pidlock_laws : LockLaws pidlock.
Proof. by split. Qed.
#[export] Instance tickslock_laws : LockLaws tickslock.
Proof. by split. Qed.
#[export] Instance bcachelock_laws : LockLaws bcachelock.
Proof. by split. Qed.
#[export] Instance loglock_laws : LockLaws loglock.
Proof. by split. Qed.
#[export] Instance icachelock_laws : LockLaws icachelock.
Proof. by split. Qed.
#[export] Instance ftablelock_laws : LockLaws ftablelock.
Proof. by split. Qed.
#[export] Instance conslock_laws : LockLaws conslock.
Proof. by split. Qed.
#[export] Instance uartlock_laws : LockLaws uartlock.
Proof. by split. Qed.
#[export] Instance vdisklock_laws : LockLaws vdisklock.
Proof. by split. Qed.
#[export] Instance prlock_laws : LockLaws prlock.
Proof. by split. Qed.
#[export] Instance pipelock_laws a : LockLaws (pipelock a).
Proof.
  split; try done; intros; cbn; rewrite ?getpipe_setpipe, ?decide_True by done; try done.
  by rewrite setpipe_setpipe.
Qed.
#[export] Instance bufspin_laws i : LockLaws (sl_spin (buflock i)).
Proof.
  split; try done; intros; cbn; rewrite ?getb_setb, ?decide_True by done; try done.
  by rewrite setb_setb.
Qed.
#[export] Instance inodespin_laws i : LockLaws (sl_spin (inodelock i)).
Proof.
  split; try done; intros; cbn; rewrite ?geti_seti, ?decide_True by done; try done.
  by rewrite seti_seti.
Qed.

Lemma memop_Ok {A} (c : M mst A) s a m : c (k_m s) = Ok a m -> memop c s = Ok a (set_m m s).
Proof. intros Hc. unfold memop, lift. by rewrite Hc. Qed.

Lemma bind_memop {A B} (c : M mst A) (k : A -> M kst B) s a m :
  c (k_m s) = Ok a m -> bind (memop c) k s = k a (set_m m s).
Proof. intros Hc. unfold bind. by rewrite (memop_Ok _ _ _ _ Hc). Qed.

(** Two updates of one process are one. *)
Lemma updp_twice {B} i f g (k : unit -> M kst B) s :
  bind (updp i f) (fun _ => bind (updp i g) k) s = bind (updp i (fun p => g (f p))) k s.
Proof.
  unfold updp. rewrite !bind_modify. by rewrite getp_setp, decide_True, setp_setp.
Qed.

Lemma set_m_id s : set_m (k_m s) s = s.
Proof. by destruct s. Qed.

(** ** The kernel's globals before any code has run: zero, but for the
    initialised nextpid and first. *)
Definition zero_kst (m : mst) : kst :=
  Kst m (Ptable ∅ 1 lock0 None 0 1) (Clock lock0 0) (Disk ∅ []) (Bcache lock0 ∅)
    (Log lock0 0 0 0 0 0 (Logheader 0 (replicate 30 0)))
    (Superblock 0 0 0 0 0 0 0 0) (Icache lock0 ∅) (Ftable lock0 ∅ ∅) ∅
    (Console lock0 (replicate 128 0) 0 0 0)
    (Uart lock0 (replicate 32 0) 0 0 [] [] 0) (Printer lock0 0 0)
    (Vdisk lock0 ∅ 0 ∅ 0 ∅ (replicate 8 0) 0 ∅ ∅ ∅) (Plic ∅ []).

(** Updates of different parts commute. *)
Lemma hart_setp i p s : hart_of (setp i p s) = hart_of s.
Proof. done. Qed.
Lemma put_hart_setp h i p s : put_hart h (setp i p s) = setp i p (put_hart h s).
Proof. done. Qed.
Lemma getp_hart h s i : getp (put_hart h s) i = getp s i.
Proof. done. Qed.

Lemma setp_id i s : is_Some (pt_proc (k_pt s) !! i) -> setp i (getp s i) s = s.
Proof.
  intros [p Hp]. unfold setp, getp. rewrite Hp. cbn [default from_option id].
  rewrite insert_id by done. by destruct s as [? [] ? ? ? ? ? ? ? ? ? ? ? ? ?].
Qed.

Create Rewrite HintDb proc.
#[export] Hint Rewrite hart_setp put_hart_setp getp_hart setp_setp : proc.
