(* ===== verification/Output.v ===== *)
(** * Console output: kernel/printf.c, with uartputc_sync (kernel/uart.c) and
    consputc (kernel/console.c)

    The text a call prints is computed by a pure function; the call itself
    takes pr.lock when locking is on and sends the bytes to the UART one by one.
    panic() is the outcome [Panic] of the kernel monad. *)

From S2P Require Import Prelude Layout Spinlock Kalloc State.

(** ** The UART's synchronous path *)

(** The 16550 sends what is in THR and becomes idle again, so the wait for
    LSR_TX_IDLE ends; the store makes it busy unless its FIFO has room. *)
Definition uartputc_sync (c : Z) : M kst unit :=
  push_off;;
  let! p := gets (fun s => pr_panicked (k_pr s)) in
  if truthy p then diverge else
  modify (fun s =>
    let u := k_ua s in
    set_ua (set_u_out (u_out u ++ [u8 c]) (set_u_idle (Nat.pred (Nat.max 1 (u_idle u))) u)) s);;
  pop_off.

Definition BACKSPACE : Z := 256.

Definition consputc (c : Z) : M kst unit :=
  if c =? BACKSPACE
  then uartputc_sync 8;; uartputc_sync 32;; uartputc_sync 8
  else uartputc_sync c.

(** ** Numbers *)

(** [digits[i]] of the kernel: lower case. *)
Definition digit (i : Z) : Z := if i <? 10 then 48 + i else 87 + i.

(** The do-while loop of printint; least significant digit first. *)
Fixpoint printint_loop (fuel : nat) (x base : Z) : list Z :=
  match fuel with
  | O => []
  | S fuel' => digit (x mod base) :: (if x / base =? 0 then [] else printint_loop fuel' (x / base) base)
  end.

(** The contents of buf[] when printint starts to print it backwards. *)
Definition printint_buf (xx base : Z) (sign : bool) : list Z :=
  let neg := sign && (xx <? 0) in
  let x := u32 (if neg then - xx else xx) in
  printint_loop 32 x base ++ (if neg then [45] else []).

Definition printint (xx base : Z) (sign : bool) : list Z := rev (printint_buf xx base sign).

(** printptr: the 16 hexadecimal digits, most significant first. *)
Fixpoint printptr_loop (n : nat) (x : Z) : list Z :=
  match n with
  | O => []
  | S n' => digit (Z.shiftr x 60) :: printptr_loop n' (u64 (Z.shiftl x 4))
  end.

Definition printptr (x : Z) : list Z := 48 :: 120 :: printptr_loop 16 x.

(** ** Formats *)

(** The newline of a format string. *)
Definition NL : string := String (Ascii.ascii_of_nat 10) EmptyString.

(** Variadic arguments: an int, a uint64, or a string pointer. *)
Inductive arg := AInt (x : Z) | APtr (x : Z) | AStr (s : option (list Z)).

Definition arg_int (a : list arg) : Z := match a with AInt x :: _ => x | APtr x :: _ => s32 x | _ => 0 end.
Definition arg_ptr (a : list arg) : Z := match a with AInt x :: _ => u64 x | APtr x :: _ => x | _ => 0 end.
Definition arg_str (a : list arg) : list Z :=
  match a with AStr (Some s) :: _ => s | _ => str "(null)" end.

(** A char array as the string printf prints. *)
Fixpoint cstr (bs : list Z) : list Z :=
  match bs with
  | [] => []
  | b :: bs' => if b =? 0 then [] else b :: cstr bs'
  end.

(** The loop over the format string. *)
Fixpoint format (fmt : list Z) (a : list arg) : list Z :=
  match fmt with
  | [] => []
  | c :: fmt =>
      if negb (c =? 37) then c :: format fmt a else
      match fmt with
      | [] => []
      | c :: fmt =>
          if c =? 100 then printint (arg_int a) 10 true ++ format fmt (tail a) else
          if c =? 120 then printint (arg_int a) 16 true ++ format fmt (tail a) else
          if c =? 112 then printptr (arg_ptr a) ++ format fmt (tail a) else
          if c =? 115 then arg_str a ++ format fmt (tail a) else
          if c =? 37 then 37 :: format fmt a
          else 37 :: c :: format fmt a
      end
  end.

(** Take pr.lock, print, release it. *)
Definition with_pr (text : list Z) : M kst unit :=
  let! locking := gets (fun s => pr_locking (k_pr s)) in
  (if truthy locking then acquire prlock else skip);;
  mfor text consputc;;
  (if truthy locking then release prlock else skip).

Definition printf (fmt : string) (a : list arg) : M kst unit := with_pr (format (str fmt) a).

(** exit_info(...) of kernel/defs.h: in cyan, after [INFO]. *)
Definition info_with_color (fmt : string) (a : list arg) : M kst unit :=
  with_pr ((27 :: str "[0;36m") ++ str "[INFO] " ++ format (str fmt) a ++ (27 :: str "[0m")).

Definition printfinit : M kst unit :=
  initlock prlock "pr";;
  modify (fun s => set_pr (Printer (pr_lock (k_pr s)) 1 (pr_panicked (k_pr s))) s).

(** ** What printint prints *)

(** The value of a digit character, and of a numeral in base [base]. *)
Definition undigit (c : Z) : Z := if c <? 58 then c - 48 else c - 87.
Definition numeral (base : Z) (ds : list Z) : Z := fold_left (fun a d => a * base + undigit d) ds 0.

Lemma undigit_digit i : 0 <= i < 16 -> undigit (digit i) = i.
Proof.
  intros Hi. unfold undigit, digit. destruct (Z.ltb_spec i 10).
  - destruct (Z.ltb_spec (48 + i) 58); lia.
  - destruct (Z.ltb_spec (87 + i) 58); lia.
Qed.

Lemma digit_zero i : 0 <= i < 16 -> digit i = 48 <-> i = 0.
Proof. intros Hi. unfold digit. destruct (Z.ltb_spec i 10); lia. Qed.

Lemma numeral_snoc base ds d : numeral base (ds ++ [d]) = numeral base ds * base + undigit d.
Proof. unfold numeral. by rewrite fold_left_app. Qed.

(** The digits of [x], in the order they are printed. *)
Lemma printint_loop_spec k fuel x base :
  2 <= base <= 16 -> 0 <= x < base ^ Z.of_nat k -> (0 < k <= fuel)%nat ->
  let ds := rev (printint_loop fuel x base) in
  numeral base ds = x /\ (length ds <= k)%nat /\
  (x = 0 -> ds = [48]) /\ (0 < x -> exists d ds', ds = d :: ds' /\ d <> 48).
Proof.
  intros Hb. revert fuel x. induction k as [|k IH]; intros fuel x Hx Hk; [lia|].
  destruct fuel as [|fuel]; [lia|]. cbn [printint_loop rev].
  assert (0 <= x mod base < base) as Hm by (apply Z.mod_pos_bound; lia).
  pose proof (Z.div_mod x base ltac:(lia)) as Hdm.
  assert (0 <= x / base) by (apply Z.div_pos; lia).
  destruct (Z.eqb_spec (x / base) 0) as [Hz|Hz].
  - cbn [rev app]. unfold numeral; cbn [fold_left]. rewrite undigit_digit by lia.
    split_and!; [lia|simpl; lia| |].
    + intros ->. by rewrite Z.mod_0_l by lia.
    + intros Hpos. exists (digit (x mod base)), []. split; [done|]. rewrite digit_zero by lia. lia.
  - rewrite Nat2Z.inj_succ, Z.pow_succ_r in Hx by lia.
    assert (x / base < base ^ Z.of_nat k) as Hlt by (apply Z.div_lt_upper_bound; lia).
    assert (0 < k)%nat as Hk0.
    { destruct k; [|lia]. cbn in Hlt. lia. }
    destruct (IH fuel (x / base)) as (Hn & Hlen & _ & Hpos); [lia|lia|].
    rewrite numeral_snoc, Hn, undigit_digit, length_app by lia. cbn [length].
    split_and!; [lia|lia|intros ->; by rewrite Z.div_0_l in Hz by lia|].
    intros _. destruct Hpos as (d & ds' & -> & Hd); [lia|]. by exists d, (ds' ++ [digit (x mod base)]).
Qed.

(** Printint prints the canonical numeral of every int, INT_MIN included, with a
    sign when negative, and never overruns its 16-byte buffer. *)
Theorem printint_correct xx base :
  -2147483648 <= xx < 2147483648 -> base = 10 \/ base = 16 ->
  (length (printint_buf xx base true) <= 16)%nat /\
  exists ds, printint xx base true = (if xx <? 0 then [45] else []) ++ ds /\
    numeral base ds = Z.abs xx /\ (xx = 0 -> ds = [48]) /\
    (xx <> 0 -> exists d ds', ds = d :: ds' /\ d <> 48).
Proof.
  intros Hx Hb. set (x := Z.abs xx).
  assert (u32 (if xx <? 0 then - xx else xx) = x) as Hu.
  { subst x. destruct (Z.ltb_spec xx 0); rewrite u32_small; lia. }
  unfold printint, printint_buf. cbn [andb]. rewrite Hu.
  destruct (printint_loop_spec 10 32 x base) as (Hn & Hlen & Hz & Hpos); [lia| |lia|].
  { subst x. assert (2147483648 < base ^ Z.of_nat 10); [|lia]. destruct Hb as [-> | ->]; vm_compute; done. }
  rewrite length_rev in Hlen. rewrite length_app, rev_app_distr. split.
  { destruct (Z.ltb_spec xx 0); cbn [length]; lia. }
  exists (rev (printint_loop 32 x base)). split_and!; auto.
  - by destruct (Z.ltb_spec xx 0).
  - intros ->. by apply Hz.
  - intros Hne. apply Hpos. lia.
Qed.

Lemma printint_correct_witness :
  printint (-2147483648) 10 true = str "-2147483648" /\
  (length (printint_buf (-2147483648) 10 true) <= 16)%nat.
Proof. split; [reflexivity|]. apply (printint_correct (-2147483648) 10); lia. Defined.

(** ** What the output path does to the state *)

(** The state after [text] has been sent. *)
Definition sent (text : list Z) (s : kst) : kst :=
  match text with
  | [] => s
  | _ => set_ua (set_u_out (u_out (k_ua s) ++ text)
           (set_u_idle (u_idle (k_ua s) - length text) (k_ua s))) (put_hart (touched (hart_of s)) s)
  end.

Lemma uartputc_sync_eq c s :
  hart_ok (hart_of s) -> pr_panicked (k_pr s) = 0 -> 0 <= c < 256 ->
  uartputc_sync c s = Ok tt (sent [c] s).
Proof.
  intros Hh Hp Hc. unfold uartputc_sync. rewrite (bind_Ok _ _ _ _ _ (push_off_eq s)). mstep.
  cbn [k_pr put_hart kst_hart set_m]. rewrite Hp. change (truthy 0) with false. cbv iota. mstep.
  rewrite (pop_off_pushed _ (hart_of s)) by done.
  unfold sent, set_ua, set_u_out, set_u_idle. cbn. rewrite u8_small by done. 
  by replace (Nat.pred (Nat.max 1 (u_idle (k_ua s)))) with (u_idle (k_ua s) - 1)%nat by lia.
Qed.

Lemma sent_app t1 t2 s : hart_ok (hart_of s) -> sent t2 (sent t1 s) = sent (t1 ++ t2) s.
Proof.
  intros Hh. destruct t1 as [|c t1]; [done|]. destruct t2 as [|d t2]; [by rewrite app_nil_r|].
  unfold sent. cbn [app]. unfold set_ua, set_u_out, set_u_idle. cbn. rewrite touched_twice, <- app_assoc.
  replace (u_idle (k_ua s) - S (length (t1 ++ d :: t2)))%nat
    with (u_idle (k_ua s) - S (length t1) - S (length t2))%nat; [done|].
  rewrite length_app. cbn [length]. lia.
Qed.

Lemma sent_hart_ok t s : hart_ok (hart_of s) -> hart_ok (hart_of (sent t s)).
Proof. intros Hh. destruct t; [done|]. cbn. by apply touched_ok. Qed.

Lemma sent_pr t s : k_pr (sent t s) = k_pr s.
Proof. by destruct t. Qed.

(** Printing bytes below 256 appends them to the output. *)
Lemma consputs_eq text s :
  hart_ok (hart_of s) -> pr_panicked (k_pr s) = 0 -> Forall (fun c => 0 <= c < 256) text ->
  mfor text consputc s = Ok tt (sent text s).
Proof.
  revert s. induction text as [|c text IH]; intros s Hh Hp Ht; [done|].
  apply Forall_cons in Ht as [Hc Ht]. cbn [mfor]. unfold consputc at 1.
  destruct (Z.eqb_spec c BACKSPACE); [unfold BACKSPACE in *; lia|].
  rewrite (bind_Ok _ _ _ _ _ (uartputc_sync_eq c s Hh Hp Hc)).
  rewrite IH by (rewrite ?sent_pr; auto using sent_hart_ok).
  by rewrite sent_app.
Qed.
