(* ===== verification/Vm.v ===== *)
(** * kernel/vm.c: Sv39 page tables, user memory and copies to and from it

    Page tables live in physical memory: a table is a page of 512 eight-byte
    entries, and [walk] follows and creates them exactly as the source does.
    Loops carry a bound on their number of iterations; running out of it is
    [Diverge], and VmSpec.v proves it does not happen. *)

From S2P Require Import Prelude CString Layout Spinlock Kalloc.

Section Vm.
Context `{KernelImage}.

(** ** Walking *)

(** The for loop of walk, from [level] down to 1. *)
Fixpoint walk_levels (level : nat) (pagetable va alloc : Z) : M mst Z :=
  match level with
  | O => ret (pagetable + 8 * PX 0 va)
  | S level' =>
      let pte := pagetable + 8 * PX (Z.of_nat level) va in
      let! v := load64 pte in
      if truthy (Z.land v PTE_V) then walk_levels level' (PTE2PA v) va alloc
      else if negb (truthy alloc) then ret 0 else
      let! pagetable := kalloc in
      if pagetable =? 0 then ret 0 else
      kmemset pagetable 0 PGSIZE;;
      store64 pte (Z.lor (PA2PTE pagetable) PTE_V);;
      walk_levels level' pagetable va alloc
  end.

(** Address of the PTE of [va], or 0. *)
Definition walk (pagetable va alloc : Z) : M mst Z :=
  if MAXVA <=? va then panic "walk" else walk_levels 2 pagetable va alloc.

Definition walkaddr (pagetable va : Z) : M mst Z :=
  if MAXVA <=? va then ret 0 else
  let! pte := walk pagetable va 0 in
  if pte =? 0 then ret 0 else
  let! v := load64 pte in
  if negb (truthy (Z.land v PTE_V)) then ret 0 else
  if negb (truthy (Z.land v PTE_U)) then ret 0 else
  ret (PTE2PA v).

(** ** Mapping and unmapping *)

Fixpoint mappages_loop (fuel : nat) (pagetable a last pa perm : Z) : M mst Z :=
  match fuel with
  | O => diverge
  | S fuel' =>
      let! pte := walk pagetable a 1 in
      if pte =? 0 then ret (-1) else
      let! v := load64 pte in
      if truthy (Z.land v PTE_V) then panic "remap" else
      store64 pte (Z.lor (Z.lor (PA2PTE pa) perm) PTE_V);;
      if a =? last then ret 0 else
      mappages_loop fuel' pagetable (u64 (a + PGSIZE)) last (u64 (pa + PGSIZE)) perm
  end.

Definition mappages (pagetable va size pa perm : Z) : M mst Z :=
  let a := PGROUNDDOWN va in
  let last := PGROUNDDOWN (u64 (va + size - 1)) in
  mappages_loop (S (Z.to_nat (u64 (last - a) / PGSIZE))) pagetable a last pa perm.

Definition kvmmap (va pa sz perm : Z) : M mst unit :=
  let! kpgtbl := gets m_kpgtbl in
  let! r := mappages kpgtbl va sz pa perm in
  if negb (r =? 0) then panic "kvmmap" else skip.

(** Create the direct-map page table of the kernel. *)
Definition kvminit : M mst unit :=
  let! p := kalloc in
  modify (set_kpgtbl p);;
  kmemset p 0 PGSIZE;;
  kvmmap UART0 UART0 PGSIZE (Z.lor PTE_R PTE_W);;
  kvmmap VIRTIO0 VIRTIO0 PGSIZE (Z.lor PTE_R PTE_W);;
  kvmmap CLINT CLINT 65536 (Z.lor PTE_R PTE_W);;
  kvmmap PLIC PLIC 4194304 (Z.lor PTE_R PTE_W);;
  kvmmap KERNBASE KERNBASE (k_etext - KERNBASE) (Z.lor PTE_R PTE_X);;
  kvmmap k_etext k_etext (PHYSTOP - k_etext) (Z.lor PTE_R PTE_W);;
  kvmmap TRAMPOLINE k_trampoline PGSIZE (Z.lor PTE_R PTE_X).

(** w_satp(MAKE_SATP(kernel_pagetable)); the TLB is not modelled. *)
Definition kvminithart : M mst unit :=
  modify (fun s =>
    let h := m_hart s in let r := h_csr h in
    put_hart (Hart (h_tp h) (Csrs (r_sstatus r) (r_sepc r) (r_scause r) (r_stval r) (r_stvec r)
                               (MAKE_SATP (m_kpgtbl s)) (r_sip r)) (h_cpus h)) s).

(** Physical address of a kernel virtual address. *)
Definition kvmpa (va : Z) : M mst Z :=
  let off := va mod PGSIZE in
  let! kpgtbl := gets m_kpgtbl in
  let! pte := walk kpgtbl va 0 in
  if pte =? 0 then panic "kvmpa" else
  let! v := load64 pte in
  if negb (truthy (Z.land v PTE_V)) then panic "kvmpa" else
  ret (u64 (PTE2PA v + off)).

Fixpoint uvmunmap_loop (fuel : nat) (pagetable a bound do_free : Z) : M mst unit :=
  match fuel with
  | O => diverge
  | S fuel' =>
      if negb (a <? bound) then skip else
      let! pte := walk pagetable a 0 in
      if pte =? 0 then panic "uvmunmap: walk" else
      let! v := load64 pte in
      if negb (truthy (Z.land v PTE_V)) then panic "uvmunmap: not mapped" else
      if PTE_FLAGS v =? PTE_V then panic "uvmunmap: not a leaf" else
      (if truthy do_free then kfree (PTE2PA v) else skip);;
      store64 pte 0;;
      uvmunmap_loop fuel' pagetable (u64 (a + PGSIZE)) bound do_free
  end.

Definition uvmunmap (pagetable va npages do_free : Z) : M mst unit :=
  if negb (va mod PGSIZE =? 0) then panic "uvmunmap: not aligned" else
  let bound := u64 (va + npages * PGSIZE) in
  uvmunmap_loop (S (Z.to_nat ((bound - va) / PGSIZE + 1))) pagetable va bound do_free.

(** ** User address spaces *)

Definition uvmcreate : M mst Z :=
  let! pagetable := kalloc in
  if pagetable =? 0 then ret 0 else
  kmemset pagetable 0 PGSIZE;;
  ret pagetable.

(** [src] are the bytes of the C array. *)
Definition uvminit (pagetable : Z) (src : list Z) : M mst unit :=
  if PGSIZE <=? Z.of_nat (length src) then panic "inituvm: more than a page" else
  let! mem := kalloc in
  kmemset mem 0 PGSIZE;;
  let! _r := mappages pagetable 0 PGSIZE mem
    (Z.lor (Z.lor (Z.lor PTE_W PTE_R) PTE_X) PTE_U) in
  modify (fun s => set_mem (wrs (m_mem s) mem src) s).

Definition uvmdealloc (pagetable oldsz newsz : Z) : M mst Z :=
  if oldsz <=? newsz then ret oldsz else
  (if PGROUNDUP newsz <? PGROUNDUP oldsz
   then let npages := s32 ((PGROUNDUP oldsz - PGROUNDUP newsz) / PGSIZE) in
        uvmunmap pagetable (PGROUNDUP newsz) (u64 npages) 1
   else skip);;
  ret newsz.

Fixpoint uvmalloc_loop (fuel : nat) (pagetable oldsz a newsz : Z) : M mst Z :=
  match fuel with
  | O => diverge
  | S fuel' =>
      if negb (a <? newsz) then ret newsz else
      let! mem := kalloc in
      if mem =? 0 then let! _r := uvmdealloc pagetable a oldsz in ret 0 else
      kmemset mem 0 PGSIZE;;
      let! r := mappages pagetable a PGSIZE mem
        (Z.lor (Z.lor (Z.lor PTE_W PTE_X) PTE_R) PTE_U) in
      if negb (r =? 0)
      then kfree mem;; let! _r := uvmdealloc pagetable a oldsz in ret 0
      else uvmalloc_loop fuel' pagetable oldsz (u64 (a + PGSIZE)) newsz
  end.

Definition uvmalloc (pagetable oldsz newsz : Z) : M mst Z :=
  if newsz <? oldsz then ret oldsz else
  let oldsz := PGROUNDUP oldsz in
  uvmalloc_loop (S (Z.to_nat ((newsz - oldsz) / PGSIZE + 1))) pagetable oldsz oldsz newsz.

(** The body of freewalk's loop over the 512 entries of a table. *)
Definition freewalk_entry (freewalk : Z -> M mst unit) (pagetable i : Z) : M mst unit :=
  let! pte := load64 (pagetable + 8 * i) in
  if truthy (Z.land pte PTE_V) && (Z.land pte (Z.lor (Z.lor PTE_R PTE_W) PTE_X) =? 0)
  then freewalk (PTE2PA pte);; store64 (pagetable + 8 * i) 0
  else if truthy (Z.land pte PTE_V) then panic "freewalk: leaf"
  else skip.

(** The recursion depth is bounded by the number of levels of the tree. *)
Fixpoint freewalk (depth : nat) (pagetable : Z) : M mst unit :=
  match depth with
  | O => diverge
  | S depth' =>
      mfor (seqZ 0 512) (freewalk_entry (freewalk depth') pagetable);;
      kfree pagetable
  end.

Definition uvmfree (pagetable sz : Z) : M mst unit :=
  (if 0 <? sz then uvmunmap pagetable 0 (PGROUNDUP sz / PGSIZE) 1 else skip);;
  freewalk 3 pagetable.

Fixpoint uvmcopy_loop (fuel : nat) (old new i sz : Z) : M mst Z :=
  match fuel with
  | O => diverge
  | S fuel' =>
      if negb (i <? sz) then ret 0 else
      let! pte := walk old i 0 in
      if pte =? 0 then panic "uvmcopy: pte should exist" else
      let! v := load64 pte in
      if negb (truthy (Z.land v PTE_V)) then panic "uvmcopy: page not present" else
      let pa := PTE2PA v in
      let flags := PTE_FLAGS v in
      let err := uvmunmap new 0 (i / PGSIZE) 1;; ret (-1) in
      let! mem := kalloc in
      if mem =? 0 then err else
      kmemmove mem pa PGSIZE;;
      let! r := mappages new i PGSIZE mem flags in
      if negb (r =? 0) then kfree mem;; err
      else uvmcopy_loop fuel' old new (u64 (i + PGSIZE)) sz
  end.

Definition uvmcopy (old new sz : Z) : M mst Z :=
  uvmcopy_loop (S (Z.to_nat (sz / PGSIZE + 1))) old new 0 sz.

Definition uvmclear (pagetable va : Z) : M mst unit :=
  let! pte := walk pagetable va 0 in
  if pte =? 0 then panic "uvmclear" else
  let! v := load64 pte in
  store64 pte (Z.land v (Z.lnot PTE_U)).

(** ** Copies between kernel and user memory *)

Fixpoint copyout_loop (fuel : nat) (pagetable dstva src len : Z) : M mst Z :=
  match fuel with
  | O => diverge
  | S fuel' =>
      if negb (0 <? len) then ret 0 else
      let va0 := PGROUNDDOWN dstva in
      let! pa0 := walkaddr pagetable va0 in
      if pa0 =? 0 then ret (-1) else
      let n := PGSIZE - (dstva - va0) in
      let n := if len <? n then len else n in
      kmemmove (pa0 + (dstva - va0)) src n;;
      copyout_loop fuel' pagetable (u64 (va0 + PGSIZE)) (src + n) (len - n)
  end.

Definition copyout (pagetable dstva src len : Z) : M mst Z :=
  copyout_loop (Z.to_nat (len / PGSIZE + 3)) pagetable dstva src len.

Fixpoint copyin_loop (fuel : nat) (pagetable dst srcva len : Z) : M mst Z :=
  match fuel with
  | O => diverge
  | S fuel' =>
      if negb (0 <? len) then ret 0 else
      let va0 := PGROUNDDOWN srcva in
      let! pa0 := walkaddr pagetable va0 in
      if pa0 =? 0 then ret (-1) else
      let n := PGSIZE - (srcva - va0) in
      let n := if len <? n then len else n in
      kmemmove dst (pa0 + (srcva - va0)) n;;
      copyin_loop fuel' pagetable (dst + n) (u64 (va0 + PGSIZE)) (len - n)
  end.

Definition copyin (pagetable dst srcva len : Z) : M mst Z :=
  copyin_loop (Z.to_nat (len / PGSIZE + 3)) pagetable dst srcva len.

(** The same two functions when the kernel side is a C object outside [mem]:
    [bs] are the bytes copied out, and the bytes copied in are returned. *)
Fixpoint copyout_obj_loop (fuel : nat) (pagetable dstva : Z) (bs : list Z) : M mst Z :=
  match fuel with
  | O => diverge
  | S fuel' =>
      let len := Z.of_nat (length bs) in
      if negb (0 <? len) then ret 0 else
      let va0 := PGROUNDDOWN dstva in
      let! pa0 := walkaddr pagetable va0 in
      if pa0 =? 0 then ret (-1) else
      let n := PGSIZE - (dstva - va0) in
      let n := if len <? n then len else n in
      modify (fun s => set_mem (wrs (m_mem s) (pa0 + (dstva - va0)) (take (Z.to_nat n) bs)) s);;
      copyout_obj_loop fuel' pagetable (u64 (va0 + PGSIZE)) (drop (Z.to_nat n) bs)
  end.

Definition copyout_obj (pagetable dstva : Z) (bs : list Z) : M mst Z :=
  copyout_obj_loop (Z.to_nat (Z.of_nat (length bs) / PGSIZE + 3)) pagetable dstva bs.

Fixpoint copyin_obj_loop (fuel : nat) (pagetable srcva len : Z) : M mst (Z * list Z) :=
  match fuel with
  | O => diverge
  | S fuel' =>
      if negb (0 <? len) then ret (0, []) else
      let va0 := PGROUNDDOWN srcva in
      let! pa0 := walkaddr pagetable va0 in
      if pa0 =? 0 then ret (-1, []) else
      let n := PGSIZE - (srcva - va0) in
      let n := if len <? n then len else n in
      let! bs := gets (fun s => rds (m_mem s) (pa0 + (srcva - va0)) n) in
      let! r := copyin_obj_loop fuel' pagetable (u64 (va0 + PGSIZE)) (len - n) in
      ret (fst r, bs ++ snd r)
  end.

Definition copyin_obj (pagetable srcva len : Z) : M mst (Z * list Z) :=
  copyin_obj_loop (Z.to_nat (len / PGSIZE + 3)) pagetable srcva len.

(** The inner loop of copyinstr over the [n] bytes of one page: returns
    got_null and the [dst] reached. *)
Fixpoint copyinstr_page (n : nat) (p dst : Z) : M mst (bool * Z) :=
  match n with
  | O => ret (false, dst)
  | S n' =>
      let! c := gets (fun s => rd (m_mem s) p) in
      if c =? 0
      then modify (fun s => set_mem (wr (m_mem s) dst 0) s);; ret (true, dst)
      else modify (fun s => set_mem (wr (m_mem s) dst c) s);; copyinstr_page n' (p + 1) (dst + 1)
  end.

Fixpoint copyinstr_loop (fuel : nat) (pagetable dst srcva max : Z) : M mst Z :=
  match fuel with
  | O => diverge
  | S fuel' =>
      if negb (0 <? max) then ret (-1) else
      let va0 := PGROUNDDOWN srcva in
      let! pa0 := walkaddr pagetable va0 in
      if pa0 =? 0 then ret (-1) else
      let n := PGSIZE - (srcva - va0) in
      let n := if max <? n then max else n in
      let! r := copyinstr_page (Z.to_nat n) (pa0 + (srcva - va0)) dst in
      if fst r then ret 0
      else copyinstr_loop fuel' pagetable (snd r) (u64 (va0 + PGSIZE)) (max - n)
  end.

Definition copyinstr (pagetable dst srcva max : Z) : M mst Z :=
  copyinstr_loop (Z.to_nat (max / PGSIZE + 3)) pagetable dst srcva max.

(** copyinstr into a C array: the bytes stored come with the result. *)
Fixpoint copyinstr_obj_page (n : nat) (m : mem) (p : Z) : bool * list Z :=
  match n with
  | O => (false, [])
  | S n' =>
      let c := rd m p in
      if c =? 0 then (true, [0])
      else let r := copyinstr_obj_page n' m (p + 1) in (fst r, c :: snd r)
  end.

Fixpoint copyinstr_obj_loop (fuel : nat) (pagetable srcva max : Z) : M mst (Z * list Z) :=
  match fuel with
  | O => diverge
  | S fuel' =>
      if negb (0 <? max) then ret (-1, []) else
      let va0 := PGROUNDDOWN srcva in
      let! pa0 := walkaddr pagetable va0 in
      if pa0 =? 0 then ret (-1, []) else
      let n := PGSIZE - (srcva - va0) in
      let n := if max <? n then max else n in
      let! r := gets (fun s => copyinstr_obj_page (Z.to_nat n) (m_mem s) (pa0 + (srcva - va0))) in
      if fst r then ret (0, snd r)
      else
        let! rest := copyinstr_obj_loop fuel' pagetable (u64 (va0 + PGSIZE)) (max - n) in
        ret (fst rest, snd r ++ snd rest)
  end.

Definition copyinstr_obj (pagetable srcva max : Z) : M mst (Z * list Z) :=
  copyinstr_obj_loop (Z.to_nat (max / PGSIZE + 3)) pagetable srcva max.

End Vm.

#[global] Arguments walk : simpl never.
#[global] Arguments walk_levels : simpl never.
#[global] Arguments walkaddr : simpl never.
#[global] Arguments kalloc : simpl never.
#[global] Arguments kfree : simpl never.
#[global] Arguments mappages : simpl never.
#[global] Arguments uvmunmap : simpl never.
#[global] Arguments uvmdealloc : simpl never.
#[global] Arguments copyin : simpl never.
#[global] Arguments copyout : simpl never.
#[global] Arguments copyinstr : simpl never.
