(* ===== verification/Proc.v ===== *)
(** * kernel/proc.c: the process table

    Everything of proc.c that does not call the file system (the rest is in
    ProcFs).  A pointer into proc[] is an index.  Code runs as one kernel
    thread; [swtch] hands the hart to the rest of the system, and what has
    happened to the state by the time this thread runs again is the function
    [others] of the class [Others], about which nothing is assumed here. *)

From S2P Require Import Prelude CString Layout Spinlock Kalloc State Output Vm.

(** What the scheduler, the other processes, the other harts and the devices
    do from a swtch() away from a thread to the swtch() back to it, and how
    often one wait of a thread may be woken for nothing before the model gives
    it up as waiting for ever. *)
Class Others := { others : kst -> kst; patience : nat }.

Definition swtch `{Others} : M kst unit := modify others.

(** Offsets in struct trapframe, a page of memory. *)
Definition tf_kernel_satp : Z := 0.
Definition tf_kernel_sp : Z := 8.
Definition tf_kernel_trap : Z := 16.
Definition tf_epc : Z := 24.
Definition tf_kernel_hartid : Z := 32.
Definition tf_sp : Z := 48.
Definition tf_a (n : Z) : Z := 112 + 8 * n.

Definition get_tf (i : nat) (off : Z) : M kst Z :=
  gets (fun s => rd64 (m_mem (k_m s)) (p_trapframe (getp s i) + off)).
Definition put_tf (i : nat) (off v : Z) : M kst unit :=
  modify (fun s => set_m (set_mem (wr64 (m_mem (k_m s)) (p_trapframe (getp s i) + off) v) (k_m s)) s).

Section Processes.
Context `{KernelImage} `{Others}.

(** ** The running process *)

Definition cpuid (h : hart) : Z := h_tp h.

Definition myproc : M kst (option nat) :=
  push_off;;
  let! p := gets (fun s => c_proc (mycpu (hart_of s))) in
  pop_off;;
  ret p.

(** Following a pointer: address 0 is not mapped in the kernel page table, so a
    null one traps into kerneltrap, which panics. *)
Definition deref {A} (p : option A) : M kst A :=
  match p with
  | Some i => ret i
  | None => panic "kerneltrap"
  end.

(** myproc() where the result is dereferenced. *)
Definition curproc : M kst nat := let! p := myproc in deref p.

(** ** Creating and freeing *)

Fixpoint procinit_loop (l : list nat) : M kst unit :=
  match l with
  | [] => skip
  | i :: l' =>
      initlock (plock i) "proc";;
      let! pa := memop kalloc in
      if pa =? 0 then panic "kalloc" else
      let va := KSTACK (Z.of_nat i) in
      memop (kvmmap va pa PGSIZE (Z.lor PTE_R PTE_W));;
      updp i (set_p_kstack va);;
      procinit_loop l'
  end.

Definition procs : list nat := seq 0 (Z.to_nat NPROC).

Definition procinit : M kst unit :=
  initlock pidlock "nextpid";;
  procinit_loop procs;;
  memop kvminithart.

Definition allocpid : M kst Z :=
  acquire pidlock;;
  let! pid := gets (fun s => pt_nextpid (k_pt s)) in
  modify (fun s => set_pt (set_pt_nextpid (s32 (pt_nextpid (k_pt s) + 1)) (k_pt s)) s);;
  release pidlock;;
  ret pid.

Definition proc_pagetable (i : nat) : M kst Z :=
  let! pagetable := memop uvmcreate in
  if pagetable =? 0 then ret 0 else
  let! r := memop (mappages pagetable TRAMPOLINE PGSIZE k_trampoline (Z.lor PTE_R PTE_X)) in
  if r <? 0 then memop (uvmfree pagetable 0);; ret 0 else
  let! tf := gets (fun s => p_trapframe (getp s i)) in
  let! r := memop (mappages pagetable TRAPFRAME PGSIZE tf (Z.lor PTE_R PTE_W)) in
  if r <? 0
  then memop (uvmunmap pagetable TRAMPOLINE 1 0);; memop (uvmfree pagetable 0);; ret 0
  else ret pagetable.

Definition proc_freepagetable (pagetable sz : Z) : M kst unit :=
  memop (uvmunmap pagetable TRAMPOLINE 1 0);;
  memop (uvmunmap pagetable TRAPFRAME 1 0);;
  memop (uvmfree pagetable sz).

Definition freeproc (i : nat) : M kst unit :=
  let! p := gets (fun s => getp s i) in
  (if truthy (p_trapframe p) then memop (kfree (p_trapframe p)) else skip);;
  updp i (set_p_trapframe 0);;
  (if truthy (p_pagetable p) then proc_freepagetable (p_pagetable p) (p_sz p) else skip);;
  updp i (set_p_pagetable 0);;
  updp i (set_p_sz 0);;
  updp i (set_p_pid 0);;
  updp i (set_p_parent None);;
  updp i (fun p => set_p_name (<[0%nat := 0]> (p_name p)) p);;
  updp i (set_p_chan None);;
  updp i (set_p_killed 0);;
  updp i (set_p_xstate 0);;
  updp i (set_p_state UNUSED).

(** The search for an UNUSED slot; the slot found is left locked. *)
Fixpoint allocproc_scan (l : list nat) : M kst (option nat) :=
  match l with
  | [] => ret None
  | i :: l' =>
      acquire (plock i);;
      let! st := gets (fun s => p_state (getp s i)) in
      if decide (st = UNUSED) then ret (Some i) else
      release (plock i);;
      allocproc_scan l'
  end.

(** found: *)
Definition allocproc_found (i : nat) : M kst (option nat) :=
  let! pid := allocpid in
  updp i (set_p_pid pid);;
  let! tf := memop kalloc in
  updp i (set_p_trapframe tf);;
  if tf =? 0 then release (plock i);; ret None else
  let! pagetable := proc_pagetable i in
  updp i (set_p_pagetable pagetable);;
  if pagetable =? 0 then freeproc i;; release (plock i);; ret None else
  updp i (fun p => set_p_context
    (Context k_forkret (p_kstack p + PGSIZE) 0 0 0 0 0 0 0 0 0 0 0 0) p);;
  ret (Some i).

Definition allocproc : M kst (option nat) :=
  let! found := allocproc_scan procs in
  match found with
  | None => ret None
  | Some i => allocproc_found i
  end.

(** [sz] is a uint, and sz + n is computed at that width. *)
Definition growproc (n : Z) : M kst Z :=
  let! i := curproc in
  let! p := gets (fun s => getp s i) in
  let sz := u32 (p_sz p) in
  if 0 <? n then
    let! r := memop (uvmalloc (p_pagetable p) sz (u32 (sz + n))) in
    let sz := u32 r in
    if sz =? 0 then ret (-1) else
    updp i (set_p_sz sz);; ret 0
  else if n <? 0 then
    let! r := memop (uvmdealloc (p_pagetable p) sz (u32 (sz + n))) in
    updp i (set_p_sz (u32 r));; ret 0
  else updp i (set_p_sz sz);; ret 0.

(** ** Scheduling *)

Definition sched : M kst unit :=
  let! i := curproc in
  let! hold := holding (plock i) in
  if negb hold then panic "sched p->lock" else
  let! c := gets (fun s => mycpu (hart_of s)) in
  if negb (c_noff c =? 1) then panic "sched locks" else
  let! st := gets (fun s => p_state (getp s i)) in
  if decide (st = RUNNING) then panic "sched running" else
  let! h := gets hart_of in
  if intr_get h then panic "sched interruptible" else
  let intena := c_intena (mycpu h) in
  swtch;;
  modify (fun s => put_hart (set_mycpu (set_intena intena (mycpu (hart_of s))) (hart_of s)) s).

Definition yield : M kst unit :=
  let! i := curproc in
  acquire (plock i);;
  updp i (set_p_state RUNNABLE);;
  sched;;
  release (plock i).

(** [lk] is None when it is the lock of the calling process. *)
Definition sleep (ch : chan) (lk : option (lockref kst)) : M kst unit :=
  let! i := curproc in
  match lk with
  | Some l => acquire (plock i);; release l
  | None => skip
  end;;
  updp i (set_p_chan (Some ch));;
  updp i (set_p_state SLEEPING);;
  sched;;
  updp i (set_p_chan None);;
  match lk with
  | Some l => release (plock i);; acquire l
  | None => skip
  end.

(** while(...) sleep(chan, lk) *)
Fixpoint sleep_while_loop (fuel : nat) (cond : kst -> bool) (ch : chan) (lk : option (lockref kst)) : M kst unit :=
  match fuel with
  | O => diverge
  | S fuel' =>
      let! c := gets cond in
      if c then sleep ch lk;; sleep_while_loop fuel' cond ch lk else skip
  end.

Definition sleep_while : (kst -> bool) -> chan -> option (lockref kst) -> M kst unit :=
  sleep_while_loop (S patience).

Definition wakeup_at (ch : chan) (i : nat) : M kst unit :=
  acquire (plock i);;
  let! p := gets (fun s => getp s i) in
  (if bool_decide (p_state p = SLEEPING) && bool_decide (p_chan p = Some ch)
   then updp i (set_p_state RUNNABLE) else skip);;
  release (plock i).

Definition wakeup (ch : chan) : M kst unit := mfor procs (wakeup_at ch).

Definition wakeup1 (i : nat) : M kst unit :=
  let! hold := holding (plock i) in
  if negb hold then panic "wakeup1" else
  let! p := gets (fun s => getp s i) in
  if bool_decide (p_chan p = Some (ChProc i)) && bool_decide (p_state p = SLEEPING)
  then updp i (set_p_state RUNNABLE) else skip.

Fixpoint kill_scan (pid : Z) (l : list nat) : M kst Z :=
  match l with
  | [] => ret (-1)
  | i :: l' =>
      acquire (plock i);;
      let! p := gets (fun s => getp s i) in
      if p_pid p =? pid then
        updp i (set_p_killed 1);;
        (if decide (p_state p = SLEEPING) then updp i (set_p_state RUNNABLE) else skip);;
        release (plock i);;
        ret 0
      else
        release (plock i);;
        kill_scan pid l'
  end.

Definition kill (pid : Z) : M kst Z := kill_scan pid procs.

Definition reparent (i : nat) : M kst unit :=
  mfor procs (fun j =>
    let! pp := gets (fun s => p_parent (getp s j)) in
    if decide (pp = Some i) then
      acquire (plock j);;
      let! init := gets (fun s => pt_initproc (k_pt s)) in
      updp j (set_p_parent init);;
      release (plock j)
    else skip).

(** ** wait() *)

Inductive wait_result := Reaped (r : Z) | NoZombie (havekids : bool).

(** The scan of the process table by process [i]; [Reaped r] when it returned. *)
Fixpoint wait_scan (i : nat) (addr : Z) (havekids : bool) (l : list nat) : M kst wait_result :=
  match l with
  | [] => ret (NoZombie havekids)
  | j :: l' =>
      let! pp := gets (fun s => p_parent (getp s j)) in
      if decide (pp = Some i) then
        acquire (plock j);;
        let! np := gets (fun s => getp s j) in
        if decide (p_state np = ZOMBIE) then
          let! p := gets (fun s => getp s i) in
          let! r := (if negb (addr =? 0)
                     then memop (copyout_obj (p_pagetable p) addr (le_bytes 4 (p_xstate np)))
                     else ret 0) in
          if negb (addr =? 0) && (r <? 0)
          then release (plock j);; release (plock i);; ret (Reaped (-1))
          else release (plock j);; release (plock i);; ret (Reaped (p_pid np))
        else
          release (plock j);;
          wait_scan i addr true l'
      else wait_scan i addr havekids l'
  end.

Fixpoint wait_loop (fuel : nat) (addr flags : Z) : M kst Z :=
  match fuel with
  | O => diverge
  | S fuel' =>
      let! i := curproc in
      acquire (plock i);;
      let! w := wait_scan i addr false procs in
      match w with
      | Reaped r => ret r
      | NoZombie havekids =>
          if flags =? 1 then release (plock i);; ret (-1) else
          let! k := gets (fun s => p_killed (getp s i)) in
          if negb havekids || truthy k then release (plock i);; ret (-1) else
          sleep (ChProc i) None;;
          release (plock i);;
          wait_loop fuel' addr flags
      end
  end.

Definition wait : Z -> Z -> M kst Z := wait_loop (S patience).

(** ** The scheduler *)

Definition set_cproc (p : option nat) : M kst unit :=
  modify (fun s =>
    let c := mycpu (hart_of s) in
    put_hart (set_mycpu (Cpu p (c_context c) (c_noff c) (c_intena c)) (hart_of s)) s).

(** The body of the loop over proc[] up to the swtch: whether process [i] is
    RUNNABLE, and then it is the running one and its lock is held. *)
Definition scheduler_pick (i : nat) : M kst bool :=
  acquire (plock i);;
  let! p := gets (fun s => getp s i) in
  if decide (p_state p = RUNNABLE) then
    updp i (set_p_state RUNNING);;
    set_cproc (Some i);;
    let! next := gets (fun s => pt_next (k_pt s)) in
    (if truthy next then
       let! epc := get_tf i tf_epc in
       printf ("Next runnable process pid is %d and user pc is %p" +:+ NL) [AInt (p_pid p); APtr epc];;
       modify (fun s => set_pt (set_pt_next 0 (k_pt s)) s)
     else skip);;
    ret true
  else
    release (plock i);;
    ret false.

(** After the swtch back to the scheduler. *)
Definition scheduler_back (i : nat) : M kst unit :=
  set_cproc None;;
  release (plock i).

Fixpoint scheduler_scan (found : bool) (l : list nat) : M kst bool :=
  match l with
  | [] => ret found
  | i :: l' =>
      let! picked := scheduler_pick i in
      if (picked : bool) then
        swtch;;
        scheduler_back i;;
        scheduler_scan true l'
      else scheduler_scan found l'
  end.

(** One turn of the endless loop; with no process found the hart waits for an
    interrupt, which the rest of the system delivers. *)
Definition scheduler_turn : M kst unit :=
  modify (fun s => put_hart (intr_on (hart_of s)) s);;
  let! found := scheduler_scan false procs in
  if found then skip
  else modify (fun s => put_hart (intr_on (hart_of s)) s);; swtch.

Fixpoint scheduler_loop (turns : nat) : M kst unit :=
  match turns with
  | O => skip
  | S turns' => scheduler_turn;; scheduler_loop turns'
  end.

(** The first [turns] turns of scheduler(). *)
Definition scheduler (turns : nat) : M kst unit :=
  set_cproc None;; scheduler_loop turns.

(** ** Copying to and from either address space *)

(** Where bytes go: a user address, an address in memory the kernel maps
    directly, or a C object whose new contents the caller receives. *)
Inductive kdst := DUser (a : Z) | DMem (a : Z) | DObj.

(** Where bytes come from: a user address, or the bytes of a C object. *)
Inductive ksrc := SUser (a : Z) | SObj (bs : list Z).

(** dst += n and src += n *)
Definition kdst_add (d : kdst) (n : Z) : kdst :=
  match d with
  | DUser a => DUser (u64 (a + n))
  | DMem a => DMem (u64 (a + n))
  | DObj => DObj
  end.
Definition ksrc_add (r : ksrc) (n : Z) : ksrc :=
  match r with
  | SUser a => SUser (u64 (a + n))
  | SObj bs => SObj (drop (Z.to_nat n) bs)
  end.

Definition either_copyout (dst : kdst) (bs : list Z) : M kst Z :=
  let! i := myproc in
  match dst with
  | DUser a =>
      let! i := deref i in
      let! p := gets (fun s => getp s i) in
      memop (copyout_obj (p_pagetable p) a bs)
  | DMem a => modify (fun s => set_m (set_mem (wrs (m_mem (k_m s)) a bs) (k_m s)) s);; ret 0
  | DObj => ret 0
  end.

(** The bytes copied come with the result: all [len] of them, or those before
    the page that could not be read. *)
Definition either_copyin (src : ksrc) (len : Z) : M kst (Z * list Z) :=
  let! i := myproc in
  match src with
  | SUser a =>
      let! i := deref i in
      let! p := gets (fun s => getp s i) in
      memop (copyin_obj (p_pagetable p) a len)
  | SObj bs => ret (0, take (Z.to_nat len) bs)
  end.

(** ** procdump() *)

Definition statename (st : procstate) : list Z :=
  str match st with
      | UNUSED => "unused"
      | SLEEPING => "sleep "
      | RUNNABLE => "runble"
      | RUNNING => "run   "
      | ZOMBIE => "zombie"
      end.

Definition procdump : M kst unit :=
  printf NL [];;
  mfor procs (fun i =>
    let! p := gets (fun s => getp s i) in
    if decide (p_state p = UNUSED) then skip else
    printf "%d %s %s" [AInt (p_pid p); AStr (Some (statename (p_state p))); AStr (Some (cstr (p_name p)))];;
    printf NL []).

End Processes.
