(* ===== verification/SleepLock.v ===== *)
(** * kernel/sleeplock.c: locks that a process sleeps on *)

From S2P Require Import Prelude Layout Spinlock Kalloc State Proc.

Section SleepLocks.
Context `{Others}.

Definition initsleeplock (l : sleepref) (name : string) : M kst unit :=
  initlock (sl_spin l) "sleep lock";;
  modify (fun s => sl_put l (Sleeplock 0 (sl_lk (sl_get l s)) name 0) s).

Definition acquiresleep (l : sleepref) : M kst unit :=
  acquire (sl_spin l);;
  sleep_while (fun s => truthy (sl_locked (sl_get l s))) (sl_chan l) (Some (sl_spin l));;
  modify (fun s => sl_put l (set_sl_locked 1 (sl_get l s)) s);;
  let! i := curproc in
  modify (fun s => sl_put l (set_sl_pid (p_pid (getp s i)) (sl_get l s)) s);;
  release (sl_spin l).

Definition releasesleep (l : sleepref) : M kst unit :=
  acquire (sl_spin l);;
  modify (fun s => sl_put l (set_sl_locked 0 (sl_get l s)) s);;
  modify (fun s => sl_put l (set_sl_pid 0 (sl_get l s)) s);;
  wakeup (sl_chan l);;
  release (sl_spin l).

Definition holdingsleep (l : sleepref) : M kst bool :=
  acquire (sl_spin l);;
  let! k := gets (sl_get l) in
  let! r := (if truthy (sl_locked k)
             then let! i := curproc in gets (fun s => sl_pid (sl_get l s) =? p_pid (getp s i))
             else ret false) in
  release (sl_spin l);;
  ret r.

End SleepLocks.
