(* ===== verification/Bio.v ===== *)
(** * kernel/bio.c: the buffer cache

    Buffers are indices in bcache.buf, NBUF standing for bcache.head; the
    doubly linked list is kept in the buffers' own fields, as in the source.
    The driver below the cache is the interface [BlockDev]. *)

From S2P Require Import Prelude Layout Spinlock Kalloc State Proc SleepLock.

(** The block device driver: virtio_disk_rw(b, write). *)
Class BlockDev := { disk_rw : nat -> bool -> M kst unit }.

Definition bhead : nat := Z.to_nat NBUF.
Definition bufs : list nat := seq 0 bhead.

Section BufferCache.
Context `{Others} `{BlockDev}.

Definition binit : M kst unit :=
  initlock bcachelock "bcache";;
  updb bhead (set_b_prev bhead);;
  updb bhead (set_b_next bhead);;
  mfor bufs (fun b =>
    let! first := gets (fun s => b_next (getb s bhead)) in
    updb b (set_b_next first);;
    updb b (set_b_prev bhead);;
    initsleeplock (buflock b) "buffer";;
    let! first := gets (fun s => b_next (getb s bhead)) in
    updb first (set_b_prev b);;
    updb bhead (set_b_next b)).

(** The two walks of bget: forward for the block, backward for a free buffer. *)
Fixpoint bget_cached (fuel : nat) (b : nat) (dev blockno : Z) : M kst (option nat) :=
  match fuel with
  | O => diverge
  | S fuel' =>
      if Nat.eqb b bhead then ret None else
      let! x := gets (fun s => getb s b) in
      if (b_dev x =? dev) && (b_blockno x =? blockno) then ret (Some b)
      else bget_cached fuel' (b_next x) dev blockno
  end.

Fixpoint bget_lru (fuel : nat) (b : nat) : M kst (option nat) :=
  match fuel with
  | O => diverge
  | S fuel' =>
      if Nat.eqb b bhead then ret None else
      let! x := gets (fun s => getb s b) in
      if b_refcnt x =? 0 then ret (Some b) else bget_lru fuel' (b_prev x)
  end.

Definition bget (dev blockno : Z) : M kst nat :=
  acquire bcachelock;;
  let! first := gets (fun s => b_next (getb s bhead)) in
  let! hit := bget_cached (S bhead) first dev blockno in
  match hit with
  | Some b =>
      updb b (fun x => set_b_refcnt (u32 (b_refcnt x + 1)) x);;
      release bcachelock;;
      acquiresleep (buflock b);;
      ret b
  | None =>
      let! last := gets (fun s => b_prev (getb s bhead)) in
      let! free := bget_lru (S bhead) last in
      match free with
      | Some b =>
          updb b (set_b_dev dev);;
          updb b (set_b_blockno blockno);;
          updb b (set_b_valid 0);;
          updb b (set_b_refcnt 1);;
          release bcachelock;;
          acquiresleep (buflock b);;
          ret b
      | None => panic "bget: no buffers"
      end
  end.

Definition bread (dev blockno : Z) : M kst nat :=
  let! b := bget dev blockno in
  let! v := gets (fun s => b_valid (getb s b)) in
  (if negb (truthy v) then disk_rw b false;; updb b (set_b_valid 1) else skip);;
  ret b.

Definition bwrite (b : nat) : M kst unit :=
  let! hold := holdingsleep (buflock b) in
  if negb hold then panic "bwrite" else
  disk_rw b true.

(** no one is waiting for it: move to the head of the list *)
Definition to_front (b : nat) : M kst unit :=
  let! x := gets (fun s => getb s b) in
  updb (b_next x) (set_b_prev (b_prev x));;
  let! x := gets (fun s => getb s b) in
  updb (b_prev x) (set_b_next (b_next x));;
  let! first := gets (fun s => b_next (getb s bhead)) in
  updb b (set_b_next first);;
  updb b (set_b_prev bhead);;
  let! first := gets (fun s => b_next (getb s bhead)) in
  updb first (set_b_prev b);;
  updb bhead (set_b_next b).

Definition brelse (b : nat) : M kst unit :=
  let! hold := holdingsleep (buflock b) in
  if negb hold then panic "brelse" else
  releasesleep (buflock b);;
  acquire bcachelock;;
  updb b (fun x => set_b_refcnt (u32 (b_refcnt x - 1)) x);;
  let! x := gets (fun s => getb s b) in
  (if b_refcnt x =? 0 then to_front b else skip);;
  release bcachelock.

Definition bpin (b : nat) : M kst unit :=
  acquire bcachelock;;
  updb b (fun x => set_b_refcnt (u32 (b_refcnt x + 1)) x);;
  release bcachelock.

Definition bunpin (b : nat) : M kst unit :=
  acquire bcachelock;;
  updb b (fun x => set_b_refcnt (u32 (b_refcnt x - 1)) x);;
  release bcachelock.

End BufferCache.
