(* ===== verification/Log.v ===== *)
(** * kernel/log.c: the redo log

    The on-disk header is a struct logheader laid over the data of its block:
    [n] at offset 0 and [block[i]] at offset 4 + 4i. *)

From S2P Require Import Prelude Layout Spinlock Kalloc State Proc SleepLock Bio.

Definition block_at (i : Z) (lh : logheader) : Z := default 0 (lh_block lh !! Z.to_nat i).

Section Logging.
Context `{Others} `{BlockDev}.

Definition log_n : M kst Z := gets (fun s => lh_n (lg_lh (k_lg s))).
Definition set_log_n (n : Z) : M kst unit := updlg (fun l => set_lg_lh (set_lh_n n (lg_lh l)) l).

(** log.lh.block[i]; the array has LOGSIZE entries. *)
Definition log_block (i : Z) : M kst Z :=
  if (0 <=? i) && (i <? LOGSIZE) then gets (fun s => block_at i (lg_lh (k_lg s))) else ub.
Definition set_log_block (i v : Z) : M kst unit :=
  if (0 <=? i) && (i <? LOGSIZE)
  then updlg (fun l => set_lg_lh (set_lh_block (<[Z.to_nat i := v]> (lh_block (lg_lh l))) (lg_lh l)) l)
  else ub.

(** One turn of install_trans's loop. *)
Definition install_block (tail : Z) : M kst unit :=
  let! l := gets k_lg in
  let! lbuf := bread (lg_dev l) (u32 (lg_start l + tail + 1)) in
  let! home := log_block tail in
  let! dbuf := bread (lg_dev l) (u32 home) in
  let! data := gets (fun s => b_data (getb s lbuf)) in
  updb dbuf (set_b_data data);;
  bwrite dbuf;;
  bunpin dbuf;;
  brelse lbuf;;
  brelse dbuf.

Fixpoint install_trans_loop (fuel : nat) (tail : Z) : M kst unit :=
  match fuel with
  | O => diverge
  | S fuel' =>
      let! n := log_n in
      if negb (tail <? n) then skip else
      install_block tail;;
      install_trans_loop fuel' (tail + 1)
  end.

Definition install_trans : M kst unit :=
  let! n := log_n in install_trans_loop (S (Z.to_nat n)) 0.

Fixpoint read_head_loop (fuel : nat) (i : Z) (data : list Z) : M kst unit :=
  match fuel with
  | O => diverge
  | S fuel' =>
      let! n := log_n in
      if negb (i <? n) then skip else
      set_log_block i (s32 (peek 4 data (4 + 4 * i)));;
      read_head_loop fuel' (i + 1) data
  end.

Definition read_head : M kst unit :=
  let! l := gets k_lg in
  let! buf := bread (lg_dev l) (u32 (lg_start l)) in
  let! data := gets (fun s => b_data (getb s buf)) in
  set_log_n (s32 (peek 4 data 0));;
  let! n := log_n in
  read_head_loop (S (Z.to_nat n)) 0 data;;
  brelse buf.

Fixpoint write_head_loop (fuel : nat) (i : Z) (buf : nat) : M kst unit :=
  match fuel with
  | O => diverge
  | S fuel' =>
      let! n := log_n in
      if negb (i <? n) then skip else
      let! b := log_block i in
      updb buf (fun x => set_b_data (poke 4 (b_data x) (4 + 4 * i) b) x);;
      write_head_loop fuel' (i + 1) buf
  end.

Definition write_head : M kst unit :=
  let! l := gets k_lg in
  let! buf := bread (lg_dev l) (u32 (lg_start l)) in
  let! n := log_n in
  updb buf (fun x => set_b_data (poke 4 (b_data x) 0 n) x);;
  write_head_loop (S (Z.to_nat n)) 0 buf;;
  bwrite buf;;
  brelse buf.

Definition recover_from_log : M kst unit :=
  read_head;;
  install_trans;;
  set_log_n 0;;
  write_head.

(** sizeof(struct logheader) *)
Definition sizeof_logheader : Z := 4 + 4 * LOGSIZE.

Definition initlog (dev : Z) (sb : superblock) : M kst unit :=
  if BSIZE <=? sizeof_logheader then panic "initlog: too big logheader" else
  initlock loglock "log";;
  updlg (set_lg_start (s32 (sb_logstart sb)));;
  updlg (set_lg_size (s32 (sb_nlog sb)));;
  updlg (set_lg_dev dev);;
  recover_from_log.

(** An operation may start: no commit is running, and the log has room for it. *)
Definition log_busy (l : log) : bool :=
  truthy (lg_committing l) || (LOGSIZE <? lh_n (lg_lh l) + (lg_outstanding l + 1) * MAXOPBLOCKS).

Definition begin_op : M kst unit :=
  acquire loglock;;
  sleep_while (fun s => log_busy (k_lg s)) ChLog (Some loglock);;
  updlg (fun l => set_lg_outstanding (lg_outstanding l + 1) l);;
  release loglock.

(** One turn of write_log's loop. *)
Definition write_log_block (tail : Z) : M kst unit :=
  let! l := gets k_lg in
  let! to := bread (lg_dev l) (u32 (lg_start l + tail + 1)) in
  let! home := log_block tail in
  let! from := bread (lg_dev l) (u32 home) in
  let! data := gets (fun s => b_data (getb s from)) in
  updb to (set_b_data data);;
  bwrite to;;
  brelse from;;
  brelse to.

Fixpoint write_log_loop (fuel : nat) (tail : Z) : M kst unit :=
  match fuel with
  | O => diverge
  | S fuel' =>
      let! n := log_n in
      if negb (tail <? n) then skip else
      write_log_block tail;;
      write_log_loop fuel' (tail + 1)
  end.

Definition write_log : M kst unit :=
  let! n := log_n in write_log_loop (S (Z.to_nat n)) 0.

Definition commit : M kst unit :=
  let! n := log_n in
  if 0 <? n then
    write_log;;
    write_head;;
    install_trans;;
    set_log_n 0;;
    write_head
  else skip.

Definition end_op : M kst unit :=
  acquire loglock;;
  updlg (fun l => set_lg_outstanding (lg_outstanding l - 1) l);;
  let! l := gets k_lg in
  if truthy (lg_committing l) then panic "log.committing" else
  let do_commit := lg_outstanding l =? 0 in
  (if do_commit then updlg (set_lg_committing 1) else wakeup ChLog);;
  release loglock;;
  if do_commit then
    commit;;
    acquire loglock;;
    updlg (set_lg_committing 0);;
    wakeup ChLog;;
    release loglock
  else skip.

(** The search for the block in the header; [i] is the index where it stops. *)
Fixpoint absorb (bs : list Z) (n blockno : Z) : Z :=
  match bs with
  | [] => 0
  | b :: bs' => if n <=? 0 then 0 else if u32 b =? blockno then 0 else 1 + absorb bs' (n - 1) blockno
  end.

Definition log_write (b : nat) : M kst unit :=
  let! l := gets k_lg in
  if (LOGSIZE <=? lh_n (lg_lh l)) || (lg_size l - 1 <=? lh_n (lg_lh l))
  then panic "too big a transaction" else
  if lg_outstanding l <? 1 then panic "log_write outside of trans" else
  acquire loglock;;
  let! blockno := gets (fun s => b_blockno (getb s b)) in
  let! lh := gets (fun s => lg_lh (k_lg s)) in
  let i := absorb (lh_block lh) (lh_n lh) blockno in
  set_log_block i (s32 blockno);;
  (if i =? lh_n lh then bpin b;; set_log_n (lh_n lh + 1) else skip);;
  release loglock.

End Logging.
