(* ===== verification/Fs.v ===== *)
(** * kernel/fs.c: blocks, inodes, directories and paths

    Pointers to in-memory inodes are indices in icache.inode; a struct dinode,
    a struct dirent or the superblock is read from and written to the bytes of
    the block that holds it.  A path is the bytes of a C string without its
    terminating 0, a directory entry's name an array of DIRSIZ bytes. *)

From S2P Require Import Prelude Layout Spinlock Kalloc State Proc SleepLock Bio Log.

(** ** Constants and layouts (kernel/fs.h, kernel/stat.h) *)

Definition ROOTINO : Z := 1.
Definition FSMAGIC : Z := 0x10203040.
Definition NDIRECT : Z := 12.
Definition NINDIRECT : Z := BSIZE / 4.
Definition MAXFILE : Z := NDIRECT + NINDIRECT.
Definition DIRSIZ : Z := 14.
Definition sizeof_dinode : Z := 64.
Definition sizeof_dirent : Z := 16.
Definition IPB : Z := BSIZE / sizeof_dinode.
Definition BPB : Z := BSIZE * 8.

Definition IBLOCK (i : Z) (sb : superblock) : Z := u32 (i / IPB + sb_inodestart sb).
Definition BBLOCK (b : Z) (sb : superblock) : Z := u32 (b / BPB + sb_bmapstart sb).

Definition T_DIR : Z := 1.
Definition T_FILE : Z := 2.
Definition T_DEVICE : Z := 3.

(** struct superblock in the bytes of block 1. *)
Definition superblock_of (data : list Z) : superblock :=
  Superblock (peek 4 data 0) (peek 4 data 4) (peek 4 data 8) (peek 4 data 12)
    (peek 4 data 16) (peek 4 data 20) (peek 4 data 24) (peek 4 data 28).

(** struct dinode at offset [o] of a block: type, major, minor, nlink, size and
    the NDIRECT+1 addresses, copied between the block and an inode. *)
Definition dinode_addrs (data : list Z) (o : Z) : list Z :=
  (fun k => peek 4 data (o + 12 + 4 * Z.of_nat k)) <$> seq 0 13.

Definition load_dinode (data : list Z) (o : Z) (ip : inode) : inode :=
  set_i_addrs (dinode_addrs data o)
    (set_i_size (peek 4 data (o + 8)) (set_i_nlink (s16 (peek 2 data (o + 6)))
    (set_i_minor (s16 (peek 2 data (o + 4))) (set_i_major (s16 (peek 2 data (o + 2)))
    (set_i_type (s16 (peek 2 data o)) ip))))).

Definition dinode_bytes (ip : inode) : list Z :=
  le_bytes 2 (i_type ip) ++ le_bytes 2 (i_major ip) ++ le_bytes 2 (i_minor ip) ++
  le_bytes 2 (i_nlink ip) ++ le_bytes 4 (i_size ip) ++ concat (le_bytes 4 <$> i_addrs ip).

(** struct stat; the four bytes of padding before [size] are taken as 0. *)
Record stat := Stat { st_dev : Z; st_ino : Z; st_type : Z; st_nlink : Z; st_size : Z }.

Definition stat_bytes (st : stat) : list Z :=
  le_bytes 4 (st_dev st) ++ le_bytes 4 (st_ino st) ++ le_bytes 2 (st_type st) ++
  le_bytes 2 (st_nlink st) ++ [0; 0; 0; 0] ++ le_bytes 8 (st_size st).

(** struct dirent. *)
Record dirent := Dirent { de_inum : Z; de_name : list Z }.

Definition dirent_of (bs : list Z) : dirent :=
  Dirent (peek 2 bs 0) (take 14 (drop 2 bs)).
Definition dirent_bytes (de : dirent) : list Z := le_bytes 2 (de_inum de) ++ de_name de.

(** strncmp and strncpy on arrays of bytes; past its end an array reads as 0. *)
Fixpoint strncmp_bytes (n : nat) (p q : list Z) : Z :=
  match n with
  | O => 0
  | S n' =>
      let a := hd 0 p in
      let b := hd 0 q in
      if negb (a =? 0) && (a =? b) then strncmp_bytes n' (tail p) (tail q) else a - b
  end.

Fixpoint strncpy_bytes (n : nat) (t : list Z) : list Z :=
  match n with
  | O => []
  | S n' => if hd 0 t =? 0 then replicate n 0 else hd 0 t :: strncpy_bytes n' (tail t)
  end.

Definition namecmp (s t : list Z) : Z := strncmp_bytes (Z.to_nat DIRSIZ) s t.

(** ** Paths *)

Definition slash : Z := 47.

Fixpoint skip_slashes (path : list Z) : list Z :=
  match path with
  | c :: path' => if c =? slash then skip_slashes path' else path
  | [] => []
  end.

(** The element at the start of the path, and what follows it. *)
Fixpoint take_elem (path : list Z) : list Z * list Z :=
  match path with
  | c :: path' =>
      if c =? slash then ([], path)
      else let r := take_elem path' in (c :: fst r, snd r)
  | [] => ([], [])
  end.

(** [name] is the array before the call; None when there is no element. *)
Definition skipelem (path name : list Z) : option (list Z * list Z) :=
  match skip_slashes path with
  | [] => None
  | path =>
      let r := take_elem path in
      let s := fst r in
      let len := Z.of_nat (length s) in
      let name := if DIRSIZ <=? len then splice name 0 (take (Z.to_nat DIRSIZ) s)
                  else splice name 0 (s ++ [0]) in
      Some (skip_slashes (snd r), name)
  end.

Section FileSystem.
Context `{Others} `{BlockDev}.

(** ** Blocks *)

Definition readsb (dev : Z) : M kst unit :=
  let! bp := bread dev 1 in
  modify (fun s => set_sb (superblock_of (b_data (getb s bp))) s);;
  brelse bp.

Definition fsinit (dev : Z) : M kst unit :=
  readsb dev;;
  let! sb := gets k_sb in
  if negb (sb_magic sb =? FSMAGIC) then panic "invalid file system" else
  initlog dev sb.

Definition bzero (dev bno : Z) : M kst unit :=
  let! bp := bread dev bno in
  updb bp (set_b_data (replicate (Z.to_nat BSIZE) 0));;
  log_write bp;;
  brelse bp.

Definition byte_at (data : list Z) (i : Z) : Z := default 0 (data !! Z.to_nat i).

(** The inner loop of balloc: the first clear bit of the bitmap block. *)
Fixpoint free_bit (fuel : nat) (data : list Z) (b bi size : Z) : option Z :=
  match fuel with
  | O => None
  | S fuel' =>
      if (bi <? BPB) && (b + bi <? size) then
        if Z.land (byte_at data (bi / 8)) (Z.shiftl 1 (bi mod 8)) =? 0 then Some bi
        else free_bit fuel' data b (bi + 1) size
      else None
  end.

Fixpoint balloc_loop (fuel : nat) (dev b : Z) : M kst Z :=
  match fuel with
  | O => diverge
  | S fuel' =>
      let! sb := gets k_sb in
      if negb (b <? sb_size sb) then panic "balloc: out of blocks" else
      let! bp := bread dev (BBLOCK b sb) in
      let! data := gets (fun s => b_data (getb s bp)) in
      match free_bit (S (Z.to_nat BPB)) data b 0 (sb_size sb) with
      | Some bi =>
          updb bp (set_b_data (<[Z.to_nat (bi / 8) :=
            Z.lor (byte_at data (bi / 8)) (Z.shiftl 1 (bi mod 8))]> data));;
          log_write bp;;
          brelse bp;;
          bzero dev (b + bi);;
          ret (b + bi)
      | None =>
          brelse bp;;
          balloc_loop fuel' dev (b + BPB)
      end
  end.

Definition balloc (dev : Z) : M kst Z :=
  let! sb := gets k_sb in
  balloc_loop (Z.to_nat (sb_size sb / BPB + 2)) dev 0.

Definition bfree (dev b : Z) : M kst unit :=
  let! sb := gets k_sb in
  let! bp := bread dev (BBLOCK b sb) in
  let bi := b mod BPB in
  let m := Z.shiftl 1 (bi mod 8) in
  let! data := gets (fun s => b_data (getb s bp)) in
  if Z.land (byte_at data (bi / 8)) m =? 0 then panic "freeing free block" else
  updb bp (set_b_data (<[Z.to_nat (bi / 8) := Z.land (byte_at data (bi / 8)) (Z.lnot m)]> data));;
  log_write bp;;
  brelse bp.

(** ** Inodes *)

Definition inodes : list nat := seq 0 (Z.to_nat NINODE).

Definition iinit : M kst unit :=
  initlock icachelock "icache";;
  mfor inodes (fun i => initsleeplock (inodelock i) "inode").

(** The scan of iget; [empty] is the first free entry seen. *)
Fixpoint iget_scan (dev inum : Z) (empty : option nat) (l : list nat) (s : kst) : option nat * option nat :=
  match l with
  | [] => (None, empty)
  | i :: l' =>
      let ip := geti s i in
      if (0 <? i_ref ip) && (i_dev ip =? dev) && (i_inum ip =? inum) then (Some i, empty)
      else
        let empty := match empty with
                     | None => if i_ref ip =? 0 then Some i else None
                     | Some _ => empty
                     end in
        iget_scan dev inum empty l' s
  end.

Definition iget (dev inum : Z) : M kst nat :=
  acquire icachelock;;
  let! r := gets (iget_scan dev inum None inodes) in
  match r with
  | (Some i, _) =>
      updi i (fun ip => set_i_ref (i_ref ip + 1) ip);;
      release icachelock;;
      ret i
  | (None, None) => panic "iget: no inodes"
  | (None, Some i) =>
      updi i (set_i_dev dev);;
      updi i (set_i_inum inum);;
      updi i (set_i_ref 1);;
      updi i (set_i_valid 0);;
      release icachelock;;
      ret i
  end.

Fixpoint ialloc_loop (fuel : nat) (dev type inum : Z) : M kst nat :=
  match fuel with
  | O => diverge
  | S fuel' =>
      let! sb := gets k_sb in
      if negb (inum <? sb_ninodes sb) then panic "ialloc: no inodes" else
      let! bp := bread dev (IBLOCK inum sb) in
      let! data := gets (fun s => b_data (getb s bp)) in
      let o := inum mod IPB * sizeof_dinode in
      if peek 2 data o =? 0 then
        updb bp (set_b_data (poke 2 (splice data o (replicate (Z.to_nat sizeof_dinode) 0)) o type));;
        log_write bp;;
        brelse bp;;
        iget dev inum
      else
        brelse bp;;
        ialloc_loop fuel' dev type (inum + 1)
  end.

Definition ialloc (dev type : Z) : M kst nat :=
  let! sb := gets k_sb in
  ialloc_loop (S (Z.to_nat (sb_ninodes sb))) dev type 1.

Definition iupdate (i : nat) : M kst unit :=
  let! ip := gets (fun s => geti s i) in
  let! sb := gets k_sb in
  let! bp := bread (i_dev ip) (IBLOCK (i_inum ip) sb) in
  let o := i_inum ip mod IPB * sizeof_dinode in
  updb bp (fun b => set_b_data (splice (b_data b) o (dinode_bytes ip)) b);;
  log_write bp;;
  brelse bp.

Definition idup (i : nat) : M kst nat :=
  acquire icachelock;;
  updi i (fun ip => set_i_ref (i_ref ip + 1) ip);;
  release icachelock;;
  ret i.

Definition ilock (i : nat) : M kst unit :=
  let! ip := gets (fun s => geti s i) in
  if i_ref ip <? 1 then panic "ilock" else
  acquiresleep (inodelock i);;
  let! ip := gets (fun s => geti s i) in
  if i_valid ip =? 0 then
    let! sb := gets k_sb in
    let! bp := bread (i_dev ip) (IBLOCK (i_inum ip) sb) in
    let! data := gets (fun s => b_data (getb s bp)) in
    updi i (load_dinode data (i_inum ip mod IPB * sizeof_dinode));;
    brelse bp;;
    updi i (set_i_valid 1);;
    let! ip := gets (fun s => geti s i) in
    if i_type ip =? 0 then panic "ilock: no type" else skip
  else skip.

Definition iunlock (i : nat) : M kst unit :=
  let! hold := holdingsleep (inodelock i) in
  let! ip := gets (fun s => geti s i) in
  if negb hold || (i_ref ip <? 1) then panic "iunlock" else
  releasesleep (inodelock i).

Definition addr_at (i : nat) (k : Z) : M kst Z := gets (fun s => byte_at (i_addrs (geti s i)) k).
Definition set_addr (i : nat) (k v : Z) : M kst unit :=
  updi i (fun ip => set_i_addrs (<[Z.to_nat k := v]> (i_addrs ip)) ip).

(** ** The content of an inode *)

Definition bmap (i : nat) (bn : Z) : M kst Z :=
  let! dev := gets (fun s => i_dev (geti s i)) in
  if bn <? NDIRECT then
    let! addr := addr_at i bn in
    if addr =? 0 then
      let! addr := balloc dev in
      set_addr i bn addr;;
      ret addr
    else ret addr
  else
    let bn := bn - NDIRECT in
    if bn <? NINDIRECT then
      let! addr := addr_at i NDIRECT in
      let! addr := (if addr =? 0
                    then let! addr := balloc dev in set_addr i NDIRECT addr;; ret addr
                    else ret addr) in
      let! bp := bread dev addr in
      let! addr := gets (fun s => peek 4 (b_data (getb s bp)) (4 * bn)) in
      let! addr := (if addr =? 0
                    then let! addr := balloc dev in
                         updb bp (fun b => set_b_data (poke 4 (b_data b) (4 * bn) addr) b);;
                         log_write bp;;
                         ret addr
                    else ret addr) in
      brelse bp;;
      ret addr
    else panic "bmap: out of range".

Definition itrunc (i : nat) : M kst unit :=
  let! dev := gets (fun s => i_dev (geti s i)) in
  mfor (seq 0 (Z.to_nat NDIRECT)) (fun k =>
    let! addr := addr_at i (Z.of_nat k) in
    if truthy addr then bfree dev addr;; set_addr i (Z.of_nat k) 0 else skip);;
  let! addr := addr_at i NDIRECT in
  (if truthy addr then
     let! bp := bread dev addr in
     mfor (seq 0 (Z.to_nat NINDIRECT)) (fun j =>
       let! a := gets (fun s => peek 4 (b_data (getb s bp)) (4 * Z.of_nat j)) in
       if truthy a then bfree dev a else skip);;
     brelse bp;;
     let! addr := addr_at i NDIRECT in
     bfree dev addr;;
     set_addr i NDIRECT 0
   else skip);;
  updi i (set_i_size 0);;
  iupdate i.

Definition iput (i : nat) : M kst unit :=
  acquire icachelock;;
  let! ip := gets (fun s => geti s i) in
  (if (i_ref ip =? 1) && truthy (i_valid ip) && (i_nlink ip =? 0) then
     acquiresleep (inodelock i);;
     release icachelock;;
     itrunc i;;
     updi i (set_i_type 0);;
     iupdate i;;
     updi i (set_i_valid 0);;
     releasesleep (inodelock i);;
     acquire icachelock
   else skip);;
  updi i (fun ip => set_i_ref (i_ref ip - 1) ip);;
  release icachelock.

Definition iunlockput (i : nat) : M kst unit := iunlock i;; iput i.

Definition stati (i : nat) : M kst stat :=
  gets (fun s => let ip := geti s i in
                 Stat (s32 (i_dev ip)) (i_inum ip) (i_type ip) (i_nlink ip) (i_size ip)).

(** [tot] bytes have been copied to [dst]; the result lists the bytes copied. *)
Fixpoint readi_loop (fuel : nat) (i : nat) (dst : kdst) (off n tot : Z) : M kst (Z * list Z) :=
  match fuel with
  | O => diverge
  | S fuel' =>
      if negb (tot <? n) then ret (tot, []) else
      let! addr := bmap i (off / BSIZE) in
      let! dev := gets (fun s => i_dev (geti s i)) in
      let! bp := bread dev addr in
      let m := Z.min (n - tot) (BSIZE - off mod BSIZE) in
      let! data := gets (fun s => b_data (getb s bp)) in
      let bs := take (Z.to_nat m) (drop (Z.to_nat (off mod BSIZE)) data) in
      let! r := either_copyout dst bs in
      if r =? -1 then brelse bp;; ret (tot, []) else
      brelse bp;;
      let! rest := readi_loop fuel' i (kdst_add dst m) (off + m) n (tot + m) in
      ret (fst rest, bs ++ snd rest)
  end.

Definition readi (i : nat) (dst : kdst) (off n : Z) : M kst (Z * list Z) :=
  let! size := gets (fun s => i_size (geti s i)) in
  if (size <? off) || (u32 (off + n) <? off) then ret (0, []) else
  let n := if size <? u32 (off + n) then u32 (size - off) else n in
  readi_loop (Z.to_nat (n / BSIZE + 3)) i dst off n 0.

(** The final value of [off]. *)
Fixpoint writei_loop (fuel : nat) (i : nat) (src : ksrc) (off n tot : Z) : M kst Z :=
  match fuel with
  | O => diverge
  | S fuel' =>
      if negb (tot <? n) then ret off else
      let! addr := bmap i (off / BSIZE) in
      let! dev := gets (fun s => i_dev (geti s i)) in
      let! bp := bread dev addr in
      let m := Z.min (n - tot) (BSIZE - off mod BSIZE) in
      let! r := either_copyin src m in
      updb bp (fun b => set_b_data (splice (b_data b) (off mod BSIZE) (snd r)) b);;
      if fst r =? -1 then brelse bp;; ret off else
      log_write bp;;
      brelse bp;;
      writei_loop fuel' i (ksrc_add src m) (off + m) n (tot + m)
  end.

Definition writei (i : nat) (src : ksrc) (off n : Z) : M kst Z :=
  let! size := gets (fun s => i_size (geti s i)) in
  if (size <? off) || (u32 (off + n) <? off) then ret (-1) else
  if MAXFILE * BSIZE <? u32 (off + n) then ret (-1) else
  let! off := writei_loop (Z.to_nat (n / BSIZE + 3)) i src off n 0 in
  (if 0 <? n then
     let! size := gets (fun s => i_size (geti s i)) in
     (if size <? off then updi i (set_i_size off) else skip);;
     iupdate i
   else skip);;
  ret (s32 n).

(** ** Directories *)

(** The inode found, with the offset of its entry. *)
Fixpoint dirlookup_loop (fuel : nat) (dp : nat) (name : list Z) (off : Z) : M kst (option (nat * Z)) :=
  match fuel with
  | O => diverge
  | S fuel' =>
      let! dev := gets (fun s => i_dev (geti s dp)) in
      let! size := gets (fun s => i_size (geti s dp)) in
      if negb (off <? size) then ret None else
      let! r := readi dp DObj off sizeof_dirent in
      if negb (fst r =? sizeof_dirent) then panic "dirlookup read" else
      let de := dirent_of (snd r) in
      if negb (de_inum de =? 0) && (namecmp name (de_name de) =? 0) then
        let! ip := iget dev (de_inum de) in
        ret (Some (ip, off))
      else dirlookup_loop fuel' dp name (u32 (off + sizeof_dirent))
  end.

Definition dirlookup (dp : nat) (name : list Z) : M kst (option (nat * Z)) :=
  let! ip := gets (fun s => geti s dp) in
  if negb (i_type ip =? T_DIR) then panic "dirlookup not DIR" else
  dirlookup_loop (Z.to_nat (i_size ip / sizeof_dirent + 2)) dp name 0.

Fixpoint empty_dirent (fuel : nat) (dp : nat) (off : Z) : M kst Z :=
  match fuel with
  | O => diverge
  | S fuel' =>
      let! size := gets (fun s => i_size (geti s dp)) in
      if negb (off <? size) then ret off else
      let! r := readi dp DObj off sizeof_dirent in
      if negb (fst r =? sizeof_dirent) then panic "dirlink read" else
      if de_inum (dirent_of (snd r)) =? 0 then ret off
      else empty_dirent fuel' dp (off + sizeof_dirent)
  end.

Definition dirlink (dp : nat) (name : list Z) (inum : Z) : M kst Z :=
  let! r := dirlookup dp name in
  match r with
  | Some (ip, _) => iput ip;; ret (-1)
  | None =>
      let! size := gets (fun s => i_size (geti s dp)) in
      let! off := empty_dirent (Z.to_nat (size / sizeof_dirent + 2)) dp 0 in
      let de := Dirent (u16 inum) (strncpy_bytes (Z.to_nat DIRSIZ) name) in
      let! n := writei dp (SObj (dirent_bytes de)) off sizeof_dirent in
      if negb (n =? sizeof_dirent) then panic "dirlink" else
      ret 0
  end.

(** ** Path names *)

(** [name] is the array the last element is copied to. *)
Fixpoint namex_loop (fuel : nat) (ip : nat) (path : list Z) (nameiparent : bool) (name : list Z) :
    M kst (option nat * list Z) :=
  match fuel with
  | O => diverge
  | S fuel' =>
      match skipelem path name with
      | Some (path, name) =>
          ilock ip;;
          let! type := gets (fun s => i_type (geti s ip)) in
          if negb (type =? T_DIR) then iunlockput ip;; ret (None, name) else
          if nameiparent && bool_decide (path = []) then iunlock ip;; ret (Some ip, name) else
          let! next := dirlookup ip name in
          match next with
          | None => iunlockput ip;; ret (None, name)
          | Some (next, _) => iunlockput ip;; namex_loop fuel' next path nameiparent name
          end
      | None => if nameiparent then iput ip;; ret (None, name) else ret (Some ip, name)
      end
  end.

Definition namex (path : list Z) (nameiparent : bool) (name : list Z) : M kst (option nat * list Z) :=
  let! ip := (if hd 0 path =? slash then iget ROOTDEV ROOTINO
              else let! i := curproc in
                   let! cwd := gets (fun s => p_cwd (getp s i)) in
                   let! cwd := deref cwd in
                   idup cwd) in
  namex_loop (S (length path)) ip path nameiparent name.

(** A fresh char name[DIRSIZ]; only bytes the code has written are ever read. *)
Definition name0 : list Z := replicate (Z.to_nat DIRSIZ) 0.

Definition namei (path : list Z) : M kst (option nat) :=
  let! r := namex path false name0 in ret (fst r).

Definition nameiparent (path : list Z) : M kst (option nat * list Z) := namex path true name0.

End FileSystem.
