(* ===== verification/Pipe.v ===== *)
(** * kernel/pipe.c: pipes

    A pipe is known by the address of the page kalloc() gave it; its fields are
    kept beside the memory, in [k_pipes].  pipealloc, which needs filealloc and
    fileclose, is in File. *)

From S2P Require Import Prelude Layout Spinlock Kalloc State Vm Proc.

Section Pipes.
Context `{KernelImage} `{Others}.

(** The page goes back to the allocator, and the pipe in it is gone. *)
Definition pipe_free (a : Z) : M kst unit :=
  modify (fun s => set_pipes (delete a (k_pipes s)) s);;
  memop (kfree a).

Definition pipeclose (a : Z) (writable : bool) : M kst unit :=
  acquire (pipelock a);;
  (if writable then updpipe a (set_pi_writeopen 0);; wakeup (ChPipeRead a)
   else updpipe a (set_pi_readopen 0);; wakeup (ChPipeWrite a));;
  let! pi := gets (fun s => getpipe s a) in
  if (pi_readopen pi =? 0) && (pi_writeopen pi =? 0)
  then release (pipelock a);; pipe_free a
  else release (pipelock a).

Definition pipe_full (pi : pipe) : bool := pi_nwrite pi =? u32 (pi_nread pi + PIPESIZE).

(** The wait for space: false when pipewrite returned -1. *)
Fixpoint pipewrite_wait (fuel : nat) (a : Z) (pr : nat) : M kst bool :=
  match fuel with
  | O => diverge
  | S fuel' =>
      let! pi := gets (fun s => getpipe s a) in
      if pipe_full pi then
        let! killed := gets (fun s => p_killed (getp s pr)) in
        if (pi_readopen pi =? 0) || truthy killed then release (pipelock a);; ret false else
        wakeup (ChPipeRead a);;
        sleep (ChPipeWrite a) (Some (pipelock a));;
        pipewrite_wait fuel' a pr
      else ret true
  end.

(** pi->data[pi->nwrite++ % PIPESIZE] = ch *)
Definition pipe_put (ch : Z) (pi : pipe) : pipe :=
  set_pi_nwrite (u32 (pi_nwrite pi + 1))
    (set_pi_data (<[Z.to_nat (pi_nwrite pi mod PIPESIZE) := ch]> (pi_data pi)) pi).

(** None when pipewrite returned -1, else the final value of [i]. *)
Fixpoint pipewrite_loop (k : nat) (a addr : Z) (pr : nat) (i : Z) : M kst (option Z) :=
  match k with
  | O => ret (Some i)
  | S k' =>
      let! room := pipewrite_wait (S patience) a pr in
      if negb room then ret None else
      let! pagetable := gets (fun s => p_pagetable (getp s pr)) in
      let! r := memop (copyin_obj pagetable (u64 (addr + i)) 1) in
      if fst r =? -1 then ret (Some i) else
      updpipe a (pipe_put (hd 0 (snd r)));;
      pipewrite_loop k' a addr pr (i + 1)
  end.

Definition pipewrite (a addr n : Z) : M kst Z :=
  let! pr := curproc in
  acquire (pipelock a);;
  let! r := pipewrite_loop (Z.to_nat n) a addr pr 0 in
  match r with
  | None => ret (-1)
  | Some i =>
      wakeup (ChPipeRead a);;
      release (pipelock a);;
      ret i
  end.

(** The wait for data: false when piperead returned -1. *)
Fixpoint piperead_wait (fuel : nat) (a : Z) (pr : nat) : M kst bool :=
  match fuel with
  | O => diverge
  | S fuel' =>
      let! pi := gets (fun s => getpipe s a) in
      if (pi_nread pi =? pi_nwrite pi) && truthy (pi_writeopen pi) then
        let! killed := gets (fun s => p_killed (getp s pr)) in
        if truthy killed then release (pipelock a);; ret false else
        sleep (ChPipeRead a) (Some (pipelock a));;
        piperead_wait fuel' a pr
      else ret true
  end.

(** pi->data[pi->nread++ % PIPESIZE] *)
Definition pipe_head (pi : pipe) : Z := default 0 (pi_data pi !! Z.to_nat (pi_nread pi mod PIPESIZE)).
Definition pipe_get (pi : pipe) : pipe := set_pi_nread (u32 (pi_nread pi + 1)) pi.

Fixpoint piperead_loop (k : nat) (a addr : Z) (pr : nat) (i : Z) : M kst Z :=
  match k with
  | O => ret i
  | S k' =>
      let! pi := gets (fun s => getpipe s a) in
      if pi_nread pi =? pi_nwrite pi then ret i else
      updpipe a pipe_get;;
      let! pagetable := gets (fun s => p_pagetable (getp s pr)) in
      let! r := memop (copyout_obj pagetable (u64 (addr + i)) [pipe_head pi]) in
      if r =? -1 then ret i else
      piperead_loop k' a addr pr (i + 1)
  end.

Definition piperead (a addr n : Z) : M kst Z :=
  let! pr := curproc in
  acquire (pipelock a);;
  let! data := piperead_wait (S patience) a pr in
  if negb data then ret (-1) else
  let! i := piperead_loop (Z.to_nat n) a addr pr 0 in
  wakeup (ChPipeWrite a);;
  release (pipelock a);;
  ret i.

End Pipes.
