(* ===== verification/Console.v ===== *)
(** * kernel/console.c and kernel/uart.c: the console

    The 16550's transmit side is [u_out], the bytes stored to THR, and [u_idle],
    the number of bytes it accepts before LSR_TX_IDLE reads 0; its receive side
    is [u_in], the bytes waiting in RHR.  The baud rate, line control and
    interrupt enable registers have no counterpart in the state. *)

From S2P Require Import Prelude Layout Spinlock Kalloc State Output Vm Proc.

Definition UART_TX_BUF_SIZE : Z := 32.
Definition INPUT_BUF : Z := 128.
Definition CONSOLE : Z := 1.

Definition ctrl (c : Z) : Z := c - 64.
Definition ctrl_D : Z := ctrl 68.
Definition ctrl_H : Z := ctrl 72.
Definition ctrl_P : Z := ctrl 80.
Definition ctrl_U : Z := ctrl 85.
Definition newline : Z := 10.

Definition updua (f : uart -> uart) : M kst unit := modify (fun s => set_ua (f (k_ua s)) s).
Definition updcn (f : console -> console) : M kst unit := modify (fun s => set_cn (f (k_cn s)) s).

Section Consoles.
Context `{KernelImage} `{Others}.

(** ** The UART driver *)

(** The writes to the control registers enable and clear the FIFOs. *)
Definition uartinit : M kst unit :=
  updua (set_u_in []);;
  initlock uartlock "uart".

Fixpoint uartstart_loop (fuel : nat) : M kst unit :=
  match fuel with
  | O => diverge
  | S fuel' =>
      let! u := gets k_ua in
      if u_w u =? u_r u then skip else
      if Nat.eqb (u_idle u) 0 then skip else
      let c := default 0 (u_buf u !! Z.to_nat (u_r u)) in
      updua (fun u => set_u_r ((u_r u + 1) mod UART_TX_BUF_SIZE) u);;
      wakeup ChUart;;
      updua (fun u => set_u_out (u_out u ++ [u8 c]) (set_u_idle (Nat.pred (u_idle u)) u));;
      uartstart_loop fuel'
  end.

(** Every turn takes one byte out of the buffer. *)
Definition uartstart : M kst unit := uartstart_loop (S (Z.to_nat UART_TX_BUF_SIZE)).

Definition uart_full (u : uart) : bool := (u_w u + 1) mod UART_TX_BUF_SIZE =? u_r u.

Definition uartputc (c : Z) : M kst unit :=
  acquire uartlock;;
  let! p := gets (fun s => pr_panicked (k_pr s)) in
  if truthy p then diverge else
  sleep_while (fun s => uart_full (k_ua s)) ChUart (Some uartlock);;
  updua (fun u => set_u_buf (<[Z.to_nat (u_w u) := u8 c]> (u_buf u)) u);;
  updua (fun u => set_u_w ((u_w u + 1) mod UART_TX_BUF_SIZE) u);;
  uartstart;;
  release uartlock.

Definition uartgetc : M kst Z :=
  let! u := gets k_ua in
  match u_in u with
  | [] => ret (-1)
  | c :: rest => updua (set_u_in rest);; ret c
  end.

(** ** The console device *)

Fixpoint consolewrite_loop (k : nat) (src : ksrc) (i : Z) : M kst Z :=
  match k with
  | O => ret i
  | S k' =>
      let! r := either_copyin src 1 in
      if fst r =? -1 then ret i else
      uartputc (hd 0 (snd r));;
      consolewrite_loop k' (ksrc_add src 1) (i + 1)
  end.

Definition consolewrite (src : ksrc) (n : Z) : M kst Z :=
  acquire conslock;;
  let! i := consolewrite_loop (Z.to_nat n) src 0 in
  release conslock;;
  ret i.

(** The wait for input: false when consoleread returned -1. *)
Fixpoint consoleread_wait (fuel : nat) : M kst bool :=
  match fuel with
  | O => diverge
  | S fuel' =>
      let! cn := gets k_cn in
      if cn_r cn =? cn_w cn then
        let! i := curproc in
        let! killed := gets (fun s => p_killed (getp s i)) in
        if truthy killed then release conslock;; ret false else
        sleep ChCons (Some conslock);;
        consoleread_wait fuel'
      else ret true
  end.

Definition cons_at (cn : console) (i : Z) : Z := default 0 (cn_buf cn !! Z.to_nat (i mod INPUT_BUF)).

(** None when consoleread returned -1, else the final value of [n]; [k] = n. *)
Fixpoint consoleread_loop (k : nat) (dst : kdst) (target : Z) : M kst (option Z) :=
  match k with
  | O => ret (Some 0)
  | S k' =>
      let n := Z.of_nat k in
      let! ready := consoleread_wait (S patience) in
      if negb ready then ret None else
      let! cn := gets k_cn in
      let c := cons_at cn (cn_r cn) in
      updcn (fun cn => set_cn_r (u32 (cn_r cn + 1)) cn);;
      if c =? ctrl_D then
        (if n <? target then updcn (fun cn => set_cn_r (u32 (cn_r cn - 1)) cn) else skip);;
        ret (Some n)
      else
        let! r := either_copyout dst [c] in
        if r =? -1 then ret (Some n) else
        if c =? newline then ret (Some (n - 1))
        else consoleread_loop k' (kdst_add dst 1) target
  end.

Definition consoleread (dst : kdst) (n : Z) : M kst Z :=
  let target := u32 n in
  acquire conslock;;
  let! r := (if 0 <? n then consoleread_loop (Z.to_nat n) dst target else ret (Some n)) in
  match r with
  | None => ret (-1)
  | Some n => release conslock;; ret (s32 (u32 (target - n)))
  end.

(** The loop of control-U; the line being edited has at most INPUT_BUF bytes. *)
Fixpoint kill_line (fuel : nat) : M kst unit :=
  match fuel with
  | O => diverge
  | S fuel' =>
      let! cn := gets k_cn in
      if negb (cn_e cn =? cn_w cn) && negb (cons_at cn (u32 (cn_e cn - 1)) =? newline) then
        updcn (fun cn => set_cn_e (u32 (cn_e cn - 1)) cn);;
        consputc BACKSPACE;;
        kill_line fuel'
      else skip
  end.

Definition consoleintr (c : Z) : M kst unit :=
  acquire conslock;;
  (if c =? ctrl_P then procdump
   else if c =? ctrl_U then kill_line (S (Z.to_nat INPUT_BUF))
   else if (c =? ctrl_H) || (c =? 127) then
     let! cn := gets k_cn in
     if negb (cn_e cn =? cn_w cn) then
       updcn (fun cn => set_cn_e (u32 (cn_e cn - 1)) cn);;
       consputc BACKSPACE
     else skip
   else
     let! cn := gets k_cn in
     if negb (c =? 0) && (u32 (cn_e cn - cn_r cn) <? INPUT_BUF) then
       let c := if c =? 13 then newline else c in
       consputc c;;
       updcn (fun cn => set_cn_e (u32 (cn_e cn + 1))
         (set_cn_buf (<[Z.to_nat (cn_e cn mod INPUT_BUF) := u8 c]> (cn_buf cn)) cn));;
       let! cn := gets k_cn in
       if (c =? newline) || (c =? ctrl_D) || (cn_e cn =? u32 (cn_r cn + INPUT_BUF)) then
         updcn (fun cn => set_cn_w (cn_e cn) cn);;
         wakeup ChCons
       else skip
     else skip);;
  release conslock.

Definition consoleinit : M kst unit :=
  initlock conslock "cons";;
  uartinit;;
  modify (fun s => set_ft (set_ft_devsw (<[CONSOLE := ConsoleFns]> (ft_devsw (k_ft s))) (k_ft s)) s).

Fixpoint uartintr_loop (fuel : nat) : M kst unit :=
  match fuel with
  | O => diverge
  | S fuel' =>
      let! c := uartgetc in
      if c =? -1 then skip else
      consoleintr c;;
      uartintr_loop fuel'
  end.

(** Every turn of the first loop takes one byte out of RHR. *)
Definition uartintr : M kst unit :=
  let! n := gets (fun s => length (u_in (k_ua s))) in
  uartintr_loop (S n);;
  acquire uartlock;;
  uartstart;;
  release uartlock.

End Consoles.
