(* ===== verification/File.v ===== *)
(** * kernel/file.c: open files, with pipealloc of kernel/pipe.c

    A struct file is an index in ftable.file. *)

From S2P Require Import Prelude Layout Spinlock Kalloc State Output Vm Proc SleepLock Bio Log Fs Pipe Console.

Definition files : list nat := seq 0 (Z.to_nat NFILE).

Section Files.
Context `{KernelImage} `{Others} `{BlockDev}.

Definition fileinit : M kst unit := initlock ftablelock "ftable".

(** The first entry with no reference. *)
Fixpoint free_file (l : list nat) (s : kst) : option nat :=
  match l with
  | [] => None
  | i :: l' => if f_ref (getf s i) =? 0 then Some i else free_file l' s
  end.

Definition filealloc : M kst (option nat) :=
  acquire ftablelock;;
  let! r := gets (free_file files) in
  match r with
  | Some i =>
      updf i (set_f_ref 1);;
      release ftablelock;;
      ret (Some i)
  | None =>
      release ftablelock;;
      ret None
  end.

Definition filedup (i : nat) : M kst nat :=
  acquire ftablelock;;
  let! f := gets (fun s => getf s i) in
  if f_ref f <? 1 then panic "filedup" else
  updf i (set_f_ref (f_ref f + 1));;
  release ftablelock;;
  ret i.

Definition fileclose (i : nat) : M kst unit :=
  acquire ftablelock;;
  let! f := gets (fun s => getf s i) in
  if f_ref f <? 1 then panic "fileclose" else
  updf i (set_f_ref (f_ref f - 1));;
  if 0 <? f_ref f - 1 then release ftablelock else
  let! ff := gets (fun s => getf s i) in
  updf i (set_f_ref 0);;
  updf i (set_f_type FD_NONE);;
  release ftablelock;;
  match f_type ff with
  | FD_PIPE => pipeclose (f_pipe ff) (truthy (f_writable ff))
  | FD_INODE | FD_DEVICE =>
      begin_op;;
      let! ip := deref (f_ip ff) in
      iput ip;;
      end_op
  | FD_NONE => skip
  end.

(** The argument of ilock, which panics on a null pointer. *)
Definition ilockable (p : option nat) : M kst nat :=
  match p with
  | Some ip => ret ip
  | None => panic "ilock"
  end.

Definition filestat (i : nat) (addr : Z) : M kst Z :=
  let! p := curproc in
  let! f := gets (fun s => getf s i) in
  match f_type f with
  | FD_INODE | FD_DEVICE =>
      let! ip := ilockable (f_ip f) in
      ilock ip;;
      let! st := stati ip in
      iunlock ip;;
      let! pagetable := gets (fun s => p_pagetable (getp s p)) in
      let! r := memop (copyout_obj pagetable addr (stat_bytes st)) in
      if r <? 0 then ret (-1) else ret 0
  | _ => ret (-1)
  end.

(** devsw[major], when it is in range and its function is not null. *)
Definition devsw_of (major : Z) : M kst (option devfns) :=
  if (major <? 0) || (NDEV <=? major) then ret None
  else gets (fun s => ft_devsw (k_ft s) !! major).

Definition fileread (i : nat) (addr n : Z) : M kst Z :=
  let! f := gets (fun s => getf s i) in
  if f_readable f =? 0 then ret (-1) else
  match f_type f with
  | FD_PIPE => piperead (f_pipe f) addr n
  | FD_DEVICE =>
      let! d := devsw_of (f_major f) in
      match d with
      | None => ret (-1)
      | Some ConsoleFns => consoleread (DUser addr) n
      end
  | FD_INODE =>
      let! ip := ilockable (f_ip f) in
      ilock ip;;
      let! off := gets (fun s => f_off (getf s i)) in
      let! r := readi ip (DUser addr) off (u32 n) in
      let r := s32 (fst r) in
      (if 0 <? r then updf i (fun f => set_f_off (u32 (f_off f + r)) f) else skip);;
      iunlock ip;;
      ret r
  | FD_NONE => panic "fileread"
  end.

(** Bytes written in one transaction. *)
Definition write_max : Z := (MAXOPBLOCKS - 1 - 1 - 2) / 2 * BSIZE.

(** The final value of [i]. *)
Fixpoint filewrite_loop (fuel : nat) (fi : nat) (addr n i : Z) : M kst Z :=
  match fuel with
  | O => diverge
  | S fuel' =>
      if negb (i <? n) then ret i else
      let n1 := n - i in
      let n1 := if write_max <? n1 then write_max else n1 in
      begin_op;;
      let! f := gets (fun s => getf s fi) in
      let! ip := ilockable (f_ip f) in
      ilock ip;;
      let! off := gets (fun s => f_off (getf s fi)) in
      let! r := writei ip (SUser (u64 (addr + i))) off n1 in
      (if 0 <? r then updf fi (fun f => set_f_off (u32 (f_off f + r)) f) else skip);;
      iunlock ip;;
      end_op;;
      if r <? 0 then ret i else
      if negb (r =? n1) then panic "short filewrite" else
      filewrite_loop fuel' fi addr n (i + r)
  end.

Definition filewrite (i : nat) (addr n : Z) : M kst Z :=
  let! f := gets (fun s => getf s i) in
  if f_writable f =? 0 then ret (-1) else
  match f_type f with
  | FD_PIPE => pipewrite (f_pipe f) addr n
  | FD_DEVICE =>
      let! d := devsw_of (f_major f) in
      match d with
      | None => ret (-1)
      | Some ConsoleFns => consolewrite (SUser addr) n
      end
  | FD_INODE =>
      let! k := filewrite_loop (S (Z.to_nat n)) i addr n 0 in
      ret (if k =? n then n else -1)
  | FD_NONE => panic "filewrite"
  end.

(** The page a new pipe lives in holds what kalloc() filled it with. *)
Definition fresh_pipe : pipe := Pipe (Spinlock 0 "pipe" None) (replicate (Z.to_nat PIPESIZE) 5) 0 0 1 1.

Definition pipe_bad (f0 f1 : option nat) : M kst (option (nat * nat)) :=
  match f0 with Some f => fileclose f | None => skip end;;
  match f1 with Some f => fileclose f | None => skip end;;
  ret None.

(** The two ends; None when it returned -1. *)
Definition pipealloc : M kst (option (nat * nat)) :=
  let! f0 := filealloc in
  match f0 with
  | None => pipe_bad None None
  | Some r =>
      let! f1 := filealloc in
      match f1 with
      | None => pipe_bad (Some r) None
      | Some w =>
          let! a := memop kalloc in
          if a =? 0 then pipe_bad (Some r) (Some w) else
          modify (setpipe a fresh_pipe);;
          updf r (fun f => set_f_pipe a (set_f_writable 0 (set_f_readable 1 (set_f_type FD_PIPE f))));;
          updf w (fun f => set_f_pipe a (set_f_writable 1 (set_f_readable 0 (set_f_type FD_PIPE f))));;
          ret (Some (r, w))
      end
  end.

End Files.
