(* ===== verification/ProcFs.v ===== *)
(** * kernel/proc.c: the functions that use the file system

    userinit, fork and exit. *)

From S2P Require Import Prelude CString Layout Spinlock Kalloc State Output Vm Proc SleepLock Bio Log Fs Pipe Console File.

(** safestrcpy on arrays of bytes: at most [n] - 1 bytes of [t], then a 0.  A
    string shorter than that has its own 0 copied, and the 0 after the loop
    follows it. *)
Definition safestrcpy_bytes (s t : list Z) (n : nat) : list Z :=
  splice s 0 (if (length (cstr t) <? Nat.pred n)%nat then cstr t ++ [0; 0] else take (Nat.pred n) (cstr t) ++ [0]).

(** sizeof(struct trapframe) *)
Definition sizeof_trapframe : Z := 288.

Section ProcessesAndFiles.
Context `{KernelImage} `{Others} `{BlockDev}.

(** od -t xC initcode *)
Definition initcode : list Z :=
  [0x17; 0x05; 0x00; 0x00; 0x13; 0x05; 0x45; 0x02; 0x97; 0x05; 0x00; 0x00; 0x93;
   0x85; 0x35; 0x02; 0x93; 0x08; 0x70; 0x00; 0x73; 0x00; 0x00; 0x00; 0x93; 0x08;
   0x20; 0x00; 0x73; 0x00; 0x00; 0x00; 0xef; 0xf0; 0x9f; 0xff; 0x2f; 0x69; 0x6e;
   0x69; 0x74; 0x00; 0x00; 0x24; 0x00; 0x00; 0x00; 0x00; 0x00; 0x00; 0x00; 0x00].

Definition userinit : M kst unit :=
  let! p := allocproc in
  modify (fun s => set_pt (set_pt_initproc p (k_pt s)) s);;
  let! i := deref p in
  let! pagetable := gets (fun s => p_pagetable (getp s i)) in
  memop (uvminit pagetable initcode);;
  updp i (set_p_sz PGSIZE);;
  put_tf i tf_epc 0;;
  put_tf i tf_sp PGSIZE;;
  updp i (fun p => set_p_name (safestrcpy_bytes (p_name p) (str "initcode") 16) p);;
  let! cwd := namei (str "/") in
  updp i (set_p_cwd cwd);;
  updp i (set_p_state RUNNABLE);;
  release (plock i).

(** [*(np->trapframe) = *(p->trapframe)] *)
Definition copy_trapframe (from to : nat) : M kst unit :=
  modify (fun s =>
    let m := m_mem (k_m s) in
    set_m (set_mem (wrs m (p_trapframe (getp s to)) (rds m (p_trapframe (getp s from)) sizeof_trapframe))
             (k_m s)) s).

Definition fds : list nat := seq 0 (Z.to_nat NOFILE).

(** Descriptor [fd] of process [i] is shared with process [j]. *)
Definition fork_fd (i j fd : nat) : M kst unit :=
  let! f := gets (fun s => p_ofile (getp s i) !! fd) in
  match f with
  | Some f => let! f := filedup f in updp j (fun np => set_p_ofile (<[fd := f]> (p_ofile np)) np)
  | None => skip
  end.

(** The child is in slot [j]: copy the process into it. *)
Definition fork_into (i j : nat) : M kst Z :=
  let! p := gets (fun s => getp s i) in
  let! np := gets (fun s => getp s j) in
  let! r := memop (uvmcopy (p_pagetable p) (p_pagetable np) (p_sz p)) in
  if r <? 0 then freeproc j;; release (plock j);; ret (-1) else
  updp j (set_p_sz (p_sz p));;
  updp j (set_p_parent (Some i));;
  copy_trapframe i j;;
  put_tf j (tf_a 0) 0;;
  mfor fds (fork_fd i j);;
  let! cwd := deref (p_cwd p) in
  let! cwd := idup cwd in
  updp j (set_p_cwd (Some cwd));;
  updp j (fun np => set_p_name (safestrcpy_bytes (p_name np) (p_name p) 16) np);;
  let! pid := gets (fun s => p_pid (getp s j)) in
  updp j (set_p_state RUNNABLE);;
  release (plock j);;
  ret pid.

Definition fork : M kst Z :=
  let! i := curproc in
  let! np := allocproc in
  match np with
  | None => ret (-1)
  | Some j => fork_into i j
  end.

(** The second loop of exit: the children that are about to be given away. *)
Fixpoint exit_children (i : nat) (child_count : Z) (l : list nat) : M kst unit :=
  match l with
  | [] => skip
  | j :: l' =>
      let! c := gets (fun s => getp s j) in
      if decide (p_parent c = Some i) then
        let! pid := gets (fun s => p_pid (getp s i)) in
        info_with_color ("proc %d exit, child %d, pid %d, name %s, state %s" +:+ NL)
          [AInt pid; AInt child_count; AInt (p_pid c); AStr (Some (cstr (p_name c)));
           AStr (Some (statename (p_state c)))];;
        exit_children i (child_count + 1) l'
      else exit_children i child_count l'
  end.

(** Close all open files of process [i]. *)
Definition close_files (i : nat) : M kst unit :=
  mfor fds (fun fd =>
    let! f := gets (fun s => p_ofile (getp s i) !! fd) in
    match f with
    | Some f => fileclose f;; updp i (fun p => set_p_ofile (delete fd (p_ofile p)) p)
    | None => skip
    end).

(** Does not return: the last sched() hands the hart over for good. *)
Definition exit {A} (status : Z) : M kst A :=
  let! i := curproc in
  let! init := gets (fun s => pt_initproc (k_pt s)) in
  if decide (init = Some i) then panic "init exiting" else
  close_files i;;
  begin_op;;
  let! cwd := gets (fun s => p_cwd (getp s i)) in
  let! cwd := deref cwd in
  iput cwd;;
  end_op;;
  updp i (set_p_cwd None);;
  let! init := deref init in
  acquire (plock init);;
  wakeup1 init;;
  release (plock init);;
  acquire (plock i);;
  let! original_parent := gets (fun s => p_parent (getp s i)) in
  release (plock i);;
  let! parent := deref original_parent in
  acquire (plock parent);;
  acquire (plock i);;
  let! p := gets (fun s => getp s i) in
  let! q := deref (p_parent p) in
  let! q := gets (fun s => getp s q) in
  info_with_color ("proc %d exit, parent pid %d, name %s, state %s" +:+ NL)
    [AInt (p_pid p); AInt (p_pid q); AStr (Some (cstr (p_name q))); AStr (Some (statename (p_state q)))];;
  exit_children i 0 procs;;
  reparent i;;
  wakeup1 parent;;
  updp i (set_p_xstate status);;
  updp i (set_p_state ZOMBIE);;
  release (plock parent);;
  sched;;
  panic "zombie exit".

End ProcessesAndFiles.
