(* ===== verification/Exec.v ===== *)
(** * kernel/exec.c: loading a program

    [argv] holds the addresses of the pages with the argument strings, as
    sys_exec prepares them; a null entry ends it. *)

From S2P Require Import Prelude CString Layout Spinlock Kalloc State Output Vm Proc SleepLock Bio Log Fs Pipe Console File ProcFs.

(** ** ELF (kernel/elf.h) *)

Definition ELF_MAGIC : Z := 0x464C457F.
Definition ELF_PROG_LOAD : Z := 1.

Record elfhdr := Elfhdr { e_magic : Z; e_entry : Z; e_phoff : Z; e_phnum : Z }.
Definition sizeof_elfhdr : Z := 64.
Definition elfhdr_of (bs : list Z) : elfhdr :=
  Elfhdr (peek 4 bs 0) (peek 8 bs 24) (peek 8 bs 32) (peek 2 bs 56).

Record proghdr := Proghdr { ph_type : Z; ph_off : Z; ph_vaddr : Z; ph_filesz : Z; ph_memsz : Z }.
Definition sizeof_proghdr : Z := 56.
Definition proghdr_of (bs : list Z) : proghdr :=
  Proghdr (peek 4 bs 0) (peek 8 bs 8) (peek 8 bs 16) (peek 8 bs 32) (peek 8 bs 40).

Section Exec.
Context `{KernelImage} `{Others} `{BlockDev}.

Fixpoint loadseg_loop (fuel : nat) (pagetable va : Z) (ip : nat) (offset sz i : Z) : M kst Z :=
  match fuel with
  | O => diverge
  | S fuel' =>
      if negb (i <? sz) then ret 0 else
      let! pa := memop (walkaddr pagetable (u64 (va + i))) in
      if pa =? 0 then panic "loadseg: address should exist" else
      let n := if sz - i <? PGSIZE then sz - i else PGSIZE in
      let! r := readi ip (DMem pa) (u32 (offset + i)) n in
      if negb (fst r =? n) then ret (-1) else
      loadseg_loop fuel' pagetable va ip offset sz (u32 (i + PGSIZE))
  end.

Definition loadseg (pagetable va : Z) (ip : nat) (offset sz : Z) : M kst Z :=
  if negb (va mod PGSIZE =? 0) then panic "loadseg: va must be page aligned" else
  loadseg_loop (Z.to_nat (sz / PGSIZE + 2)) pagetable va ip offset sz 0.

(** The loop over the program headers, [n] of them left.  The first component
    is false on goto bad; the second is the value of [sz]. *)
Fixpoint exec_load (n : nat) (off : Z) (ip : nat) (pagetable sz : Z) : M kst (bool * Z) :=
  match n with
  | O => ret (true, sz)
  | S n' =>
      let! r := readi ip DObj (u32 off) sizeof_proghdr in
      if negb (fst r =? sizeof_proghdr) then ret (false, sz) else
      let ph := proghdr_of (snd r) in
      let next := s32 (off + sizeof_proghdr) in
      if negb (ph_type ph =? ELF_PROG_LOAD) then exec_load n' next ip pagetable sz else
      if ph_memsz ph <? ph_filesz ph then ret (false, sz) else
      if u64 (ph_vaddr ph + ph_memsz ph) <? ph_vaddr ph then ret (false, sz) else
      let! sz1 := memop (uvmalloc pagetable sz (u64 (ph_vaddr ph + ph_memsz ph))) in
      if sz1 =? 0 then ret (false, sz) else
      if negb (ph_vaddr ph mod PGSIZE =? 0) then ret (false, sz1) else
      let! r := loadseg pagetable (ph_vaddr ph) ip (u32 (ph_off ph)) (u32 (ph_filesz ph)) in
      if r <? 0 then ret (false, sz1) else
      exec_load n' next ip pagetable sz1
  end.

(** Push the argument strings: the final argc, sp and ustack[0..argc); None on
    goto bad. *)
Fixpoint exec_push (argv : list Z) (argc pagetable sp stackbase : Z) (ustack : list Z) :
    M kst (option (Z * Z * list Z)) :=
  match argv with
  | [] => ub
  | a :: argv' =>
      if a =? 0 then ret (Some (argc, sp, ustack)) else
      if MAXARG <=? argc then ret None else
      let! len := gets (fun s => strlen (m_mem (k_m s)) a) in
      let sp := u64 (sp - (len + 1)) in
      let sp := sp - sp mod 16 in
      if sp <? stackbase then ret None else
      let! r := memop (copyout pagetable sp a (len + 1)) in
      if r <? 0 then ret None else
      exec_push argv' (argc + 1) pagetable sp stackbase (ustack ++ [sp])
  end.

(** The program's name: what follows the last slash of its path. *)
Fixpoint basename (last s : list Z) : list Z :=
  match s with
  | [] => last
  | c :: s' => basename (if c =? slash then s' else last) s'
  end.

(** bad: *)
Definition exec_bad (pagetable sz : Z) (ip : option nat) : M kst Z :=
  (if truthy pagetable then proc_freepagetable pagetable sz else skip);;
  match ip with
  | Some ip => iunlockput ip;; end_op
  | None => skip
  end;;
  ret (-1).

(** From the user stack to the new image, once the program is loaded. *)
Definition exec_stack (i : nat) (path : list Z) (argv : list Z) (elf : elfhdr) (pagetable sz : Z) : M kst Z :=
  let! oldsz := gets (fun s => p_sz (getp s i)) in
  let sz := PGROUNDUP sz in
  let! sz1 := memop (uvmalloc pagetable sz (u64 (sz + 2 * PGSIZE))) in
  if sz1 =? 0 then exec_bad pagetable sz None else
  let sz := sz1 in
  memop (uvmclear pagetable (u64 (sz - 2 * PGSIZE)));;
  let stackbase := u64 (sz - PGSIZE) in
  let! r := exec_push argv 0 pagetable sz stackbase [] in
  match r with
  | None => exec_bad pagetable sz None
  | Some (argc, sp, ustack) =>
      let sp := u64 (sp - (argc + 1) * 8) in
      let sp := sp - sp mod 16 in
      if sp <? stackbase then exec_bad pagetable sz None else
      let! r := memop (copyout_obj pagetable sp (concat (le_bytes 8 <$> ustack ++ [0]))) in
      if r <? 0 then exec_bad pagetable sz None else
      put_tf i (tf_a 1) sp;;
      updp i (fun p => set_p_name (safestrcpy_bytes (p_name p) (basename path path) 16) p);;
      let! oldpagetable := gets (fun s => p_pagetable (getp s i)) in
      updp i (set_p_pagetable pagetable);;
      updp i (set_p_sz sz);;
      put_tf i tf_epc (e_entry elf);;
      put_tf i tf_sp sp;;
      proc_freepagetable oldpagetable oldsz;;
      ret argc
  end.

Definition exec (path : list Z) (argv : list Z) : M kst Z :=
  let! i := curproc in
  begin_op;;
  let! ip := namei path in
  match ip with
  | None => end_op;; ret (-1)
  | Some ip =>
      ilock ip;;
      let! r := readi ip DObj 0 sizeof_elfhdr in
      if negb (fst r =? sizeof_elfhdr) then exec_bad 0 0 (Some ip) else
      let elf := elfhdr_of (snd r) in
      if negb (e_magic elf =? ELF_MAGIC) then exec_bad 0 0 (Some ip) else
      let! pagetable := proc_pagetable i in
      if pagetable =? 0 then exec_bad 0 0 (Some ip) else
      let! r := exec_load (Z.to_nat (e_phnum elf)) (s32 (e_phoff elf)) ip pagetable 0 in
      if negb (fst r) then exec_bad pagetable (snd r) (Some ip) else
      iunlockput ip;;
      end_op;;
      exec_stack i path argv elf pagetable (snd r)
  end.

End Exec.
