(* ===== verification/Syscall.v ===== *)
(** * kernel/syscall.c: fetching arguments, with kernel/sysproc.c

    The dispatcher itself is in Trap.v, after the handlers of sysfile.c. *)

From S2P Require Import Prelude CString Layout Spinlock Kalloc State Output Vm Proc SleepLock Bio Log Fs Pipe Console File ProcFs.

Section Arguments.
Context `{KernelImage} `{Others}.

(** The result and the uint64 read. *)
Definition fetchaddr (addr : Z) : M kst (Z * Z) :=
  let! i := curproc in
  let! p := gets (fun s => getp s i) in
  if (p_sz p <=? addr) || (p_sz p <? u64 (addr + 8)) then ret (-1, 0) else
  let! r := memop (copyin_obj (p_pagetable p) addr 8) in
  if negb (fst r =? 0) then ret (-1, 0) else ret (0, le_val (snd r)).

(** Into a C array: the result and the bytes stored. *)
Definition fetchstr (addr max : Z) : M kst (Z * list Z) :=
  let! i := curproc in
  let! p := gets (fun s => getp s i) in
  let! r := memop (copyinstr_obj (p_pagetable p) addr max) in
  if fst r <? 0 then ret r else ret (Z.of_nat (length (cstr (snd r))), snd r).

(** Into memory at [buf]. *)
Definition fetchstr_mem (addr buf max : Z) : M kst Z :=
  let! i := curproc in
  let! p := gets (fun s => getp s i) in
  let! err := memop (copyinstr (p_pagetable p) buf addr max) in
  if err <? 0 then ret err else gets (fun s => strlen (m_mem (k_m s)) buf).

Definition argraw (n : Z) : M kst Z :=
  let! i := curproc in
  if (0 <=? n) && (n <=? 5) then get_tf i (tf_a n) else panic "argraw".

(** argint and argaddr never fail. *)
Definition argint (n : Z) : M kst Z := let! v := argraw n in ret (s32 v).
Definition argaddr (n : Z) : M kst Z := argraw n.

Definition argstr (n max : Z) : M kst (Z * list Z) :=
  let! addr := argaddr n in fetchstr addr max.

End Arguments.

(** ** kernel/sysproc.c *)

(** struct proc occupies 360 bytes, with its 112-byte context at offset 96. *)
Definition sizeof_proc : Z := 360.
Definition sizeof_context : Z := 112.
Definition context_addr `{KernelImage} (i : nat) : Z := k_proc + sizeof_proc * Z.of_nat i + 96.

Section Sysproc.
Context `{KernelImage} `{Others} `{BlockDev}.

Definition sys_exit : M kst Z :=
  let! n := argint 0 in
  exit n.

Definition sys_getpid : M kst Z :=
  let! i := curproc in gets (fun s => p_pid (getp s i)).

Definition sys_fork : M kst Z := fork.

Definition sys_wait : M kst Z :=
  let! p := argaddr 0 in
  let! flags := argint 1 in
  wait p flags.

(** [addr] is an int. *)
Definition sys_sbrk : M kst Z :=
  let! n := argint 0 in
  let! i := curproc in
  let! addr := gets (fun s => s32 (p_sz (getp s i))) in
  let! r := growproc n in
  if r <? 0 then ret (-1) else ret addr.

(** The wait for the clock: false when the process was killed. *)
Fixpoint sleep_ticks (fuel : nat) (ticks0 n : Z) : M kst bool :=
  match fuel with
  | O => diverge
  | S fuel' =>
      let! ticks := gets (fun s => ck_ticks (k_ck s)) in
      if u32 (ticks - ticks0) <? u32 n then
        let! i := curproc in
        let! killed := gets (fun s => p_killed (getp s i)) in
        if truthy killed then release tickslock;; ret false else
        sleep ChTicks (Some tickslock);;
        sleep_ticks fuel' ticks0 n
      else ret true
  end.

Definition sys_sleep : M kst Z :=
  let! n := argint 0 in
  acquire tickslock;;
  let! ticks0 := gets (fun s => ck_ticks (k_ck s)) in
  let! ok := sleep_ticks (S patience) ticks0 n in
  if negb ok then ret (-1) else
  release tickslock;;
  ret 0.

Definition sys_kill : M kst Z :=
  let! pid := argint 0 in kill pid.

Definition sys_uptime : M kst Z :=
  acquire tickslock;;
  let! xticks := gets (fun s => ck_ticks (k_ck s)) in
  release tickslock;;
  ret xticks.

(** The string goes to the 16 bytes of [name], and from there to p->name. *)
Definition sys_rename : M kst Z :=
  let! r := argstr 0 MAXPATH in
  let len := fst r in
  if 16 <? Z.of_nat (length (snd r)) then ub else
  if len <? 0 then ret (-1) else
  let! i := curproc in
  updp i (fun p => set_p_name (splice (p_name p) 0 (take (Z.to_nat len) (snd r))) p);;
  updp i (fun p => set_p_name (<[Z.to_nat len := 0]> (p_name p)) p);;
  ret 0.

Definition sys_yield : M kst Z :=
  let! i := curproc in
  printf ("Save the context of the process to the memory region from address %p to %p" +:+ NL)
    [APtr (context_addr i); APtr (context_addr i + sizeof_context)];;
  let! pid := gets (fun s => p_pid (getp s i)) in
  let! epc := get_tf i tf_epc in
  printf ("Current running process pid is %d and user pc is %p" +:+ NL) [AInt pid; APtr epc];;
  modify (fun s => set_pt (set_pt_next 1 (k_pt s)) s);;
  yield;;
  ret 0.

End Sysproc.
