(* ===== verification/Sysfile.v ===== *)
(** * kernel/sysfile.c: the file system's system calls

    A handler returns the int or uint64 of the source as an integer; the
    dispatcher stores it modulo 2^64. *)

From S2P Require Import Prelude CString Layout Spinlock Kalloc State Output Vm Proc SleepLock Bio Log Fs Pipe Console File ProcFs Exec Syscall.

(** ** kernel/fcntl.h *)

Definition O_RDONLY : Z := 0.
Definition O_WRONLY : Z := 1.
Definition O_RDWR : Z := 2.
Definition O_CREATE : Z := 0x200.
Definition O_TRUNC : Z := 0x400.

Section Sysfile.
Context `{KernelImage} `{Others} `{BlockDev}.

(** The descriptor and the file; None when it returned -1. *)
Definition argfd (n : Z) : M kst (option (nat * nat)) :=
  let! fd := argint n in
  if (fd <? 0) || (NOFILE <=? fd) then ret None else
  let! i := curproc in
  let! f := gets (fun s => p_ofile (getp s i) !! Z.to_nat fd) in
  match f with
  | None => ret None
  | Some f => ret (Some (Z.to_nat fd, f))
  end.

Definition set_ofile (i fd : nat) (f : option nat) : M kst unit :=
  updp i (fun p => set_p_ofile (partial_alter (fun _ => f) fd (p_ofile p)) p).

Fixpoint fdalloc_scan (i f : nat) (l : list nat) : M kst Z :=
  match l with
  | [] => ret (-1)
  | fd :: l' =>
      let! x := gets (fun s => p_ofile (getp s i) !! fd) in
      match x with
      | None => set_ofile i fd (Some f);; ret (Z.of_nat fd)
      | Some _ => fdalloc_scan i f l'
      end
  end.

Definition fdalloc (f : nat) : M kst Z :=
  let! i := curproc in fdalloc_scan i f fds.

Definition sys_dup : M kst Z :=
  let! a := argfd 0 in
  match a with
  | None => ret (-1)
  | Some (_, f) =>
      let! fd := fdalloc f in
      if fd <? 0 then ret (-1) else
      let! _f := filedup f in
      ret fd
  end.

Definition sys_read : M kst Z :=
  let! a := argfd 0 in
  match a with
  | None => ret (-1)
  | Some (_, f) =>
      let! n := argint 2 in
      let! p := argaddr 1 in
      fileread f p n
  end.

Definition sys_write : M kst Z :=
  let! a := argfd 0 in
  match a with
  | None => ret (-1)
  | Some (_, f) =>
      let! n := argint 2 in
      let! p := argaddr 1 in
      filewrite f p n
  end.

Definition sys_close : M kst Z :=
  let! a := argfd 0 in
  match a with
  | None => ret (-1)
  | Some (fd, f) =>
      let! i := curproc in
      set_ofile i fd None;;
      fileclose f;;
      ret 0
  end.

Definition sys_fstat : M kst Z :=
  let! a := argfd 0 in
  match a with
  | None => ret (-1)
  | Some (_, f) =>
      let! st := argaddr 1 in
      filestat f st
  end.

(** ip->nlink += d, for a short. *)
Definition add_nlink (i : nat) (d : Z) : M kst unit :=
  updi i (fun ip => set_i_nlink (s16 (i_nlink ip + d)) ip).

(** bad: of sys_link *)
Definition link_bad (ip : nat) : M kst Z :=
  ilock ip;;
  add_nlink ip (-1);;
  iupdate ip;;
  iunlockput ip;;
  end_op;;
  ret (-1).

Definition sys_link : M kst Z :=
  let! old := argstr 0 MAXPATH in
  if fst old <? 0 then ret (-1) else
  let! new := argstr 1 MAXPATH in
  if fst new <? 0 then ret (-1) else
  begin_op;;
  let! ip := namei (cstr (snd old)) in
  match ip with
  | None => end_op;; ret (-1)
  | Some ip =>
      ilock ip;;
      let! type := gets (fun s => i_type (geti s ip)) in
      if type =? T_DIR then iunlockput ip;; end_op;; ret (-1) else
      add_nlink ip 1;;
      iupdate ip;;
      iunlock ip;;
      let! r := nameiparent (cstr (snd new)) in
      match r with
      | (None, _) => link_bad ip
      | (Some dp, name) =>
          ilock dp;;
          let! ddev := gets (fun s => i_dev (geti s dp)) in
          let! x := gets (fun s => geti s ip) in
          let! r := (if negb (ddev =? i_dev x) then ret (-1) else dirlink dp name (i_inum x)) in
          if r <? 0 then iunlockput dp;; link_bad ip else
          iunlockput dp;;
          iput ip;;
          end_op;;
          ret 0
      end
  end.

Fixpoint isdirempty_loop (fuel : nat) (dp : nat) (off : Z) : M kst bool :=
  match fuel with
  | O => diverge
  | S fuel' =>
      let! size := gets (fun s => i_size (geti s dp)) in
      if negb (off <? size) then ret true else
      let! r := readi dp DObj off sizeof_dirent in
      if negb (fst r =? sizeof_dirent) then panic "isdirempty: readi" else
      if negb (de_inum (dirent_of (snd r)) =? 0) then ret false
      else isdirempty_loop fuel' dp (off + sizeof_dirent)
  end.

Definition isdirempty (dp : nat) : M kst bool :=
  let! size := gets (fun s => i_size (geti s dp)) in
  isdirempty_loop (Z.to_nat (size / sizeof_dirent + 2)) dp (2 * sizeof_dirent).

(** bad: of sys_unlink *)
Definition unlink_bad (dp : nat) : M kst Z :=
  iunlockput dp;;
  end_op;;
  ret (-1).

Definition sys_unlink : M kst Z :=
  let! path := argstr 0 MAXPATH in
  if fst path <? 0 then ret (-1) else
  begin_op;;
  let! r := nameiparent (cstr (snd path)) in
  match r with
  | (None, _) => end_op;; ret (-1)
  | (Some dp, name) =>
      ilock dp;;
      if (namecmp name (str ".") =? 0) || (namecmp name (str "..") =? 0) then unlink_bad dp else
      let! r := dirlookup dp name in
      match r with
      | None => unlink_bad dp
      | Some (ip, off) =>
          ilock ip;;
          let! x := gets (fun s => geti s ip) in
          if i_nlink x <? 1 then panic "unlink: nlink < 1" else
          let! empty := (if i_type x =? T_DIR then isdirempty ip else ret true) in
          if negb empty then iunlockput ip;; unlink_bad dp else
          let! n := writei dp (SObj (replicate 16 0)) off sizeof_dirent in
          if negb (n =? sizeof_dirent) then panic "unlink: writei" else
          let! x := gets (fun s => geti s ip) in
          (if i_type x =? T_DIR then add_nlink dp (-1);; iupdate dp else skip);;
          iunlockput dp;;
          add_nlink ip (-1);;
          iupdate ip;;
          iunlockput ip;;
          end_op;;
          ret 0
      end
  end.

(** Returns with the inode locked. *)
Definition create (path : list Z) (type major minor : Z) : M kst (option nat) :=
  let! r := nameiparent path in
  match r with
  | (None, _) => ret None
  | (Some dp, name) =>
      ilock dp;;
      let! r := dirlookup dp name in
      match r with
      | Some (ip, _) =>
          iunlockput dp;;
          ilock ip;;
          let! t := gets (fun s => i_type (geti s ip)) in
          if (type =? T_FILE) && ((t =? T_FILE) || (t =? T_DEVICE)) then ret (Some ip) else
          iunlockput ip;;
          ret None
      | None =>
          let! ddev := gets (fun s => i_dev (geti s dp)) in
          let! ip := ialloc ddev type in
          ilock ip;;
          updi ip (set_i_major major);;
          updi ip (set_i_minor minor);;
          updi ip (set_i_nlink 1);;
          iupdate ip;;
          (if type =? T_DIR then
             add_nlink dp 1;;
             iupdate dp;;
             let! inum := gets (fun s => i_inum (geti s ip)) in
             let! r := dirlink ip (str ".") inum in
             if r <? 0 then panic "create dots" else
             let! dinum := gets (fun s => i_inum (geti s dp)) in
             let! r := dirlink ip (str "..") dinum in
             if r <? 0 then panic "create dots" else skip
           else skip);;
          let! inum := gets (fun s => i_inum (geti s ip)) in
          let! r := dirlink dp name inum in
          if r <? 0 then panic "create: dirlink" else
          iunlockput dp;;
          ret (Some ip)
      end
  end.

(** The inode sys_open opens, locked; None when it returned -1. *)
Definition open_inode (path : list Z) (omode : Z) : M kst (option nat) :=
  if truthy (Z.land omode O_CREATE) then
    let! ip := create path T_FILE 0 0 in
    match ip with
    | None => end_op;; ret None
    | Some ip => ret (Some ip)
    end
  else
    let! ip := namei path in
    match ip with
    | None => end_op;; ret None
    | Some ip =>
        ilock ip;;
        let! type := gets (fun s => i_type (geti s ip)) in
        if (type =? T_DIR) && negb (omode =? O_RDONLY) then iunlockput ip;; end_op;; ret None
        else ret (Some ip)
    end.

Definition open_fail (ip : nat) : M kst Z :=
  iunlockput ip;;
  end_op;;
  ret (-1).

Definition sys_open : M kst Z :=
  let! path := argstr 0 MAXPATH in
  if fst path <? 0 then ret (-1) else
  let! omode := argint 1 in
  begin_op;;
  let! ip := open_inode (cstr (snd path)) omode in
  match ip with
  | None => ret (-1)
  | Some ip =>
      let! x := gets (fun s => geti s ip) in
      if (i_type x =? T_DEVICE) && ((i_major x <? 0) || (NDEV <=? i_major x)) then open_fail ip else
      let! f := filealloc in
      match f with
      | None => open_fail ip
      | Some f =>
          let! fd := fdalloc f in
          if fd <? 0 then fileclose f;; open_fail ip else
          let! x := gets (fun s => geti s ip) in
          (if i_type x =? T_DEVICE
           then updf f (fun y => set_f_major (i_major x) (set_f_type FD_DEVICE y))
           else updf f (fun y => set_f_off 0 (set_f_type FD_INODE y)));;
          updf f (set_f_ip (Some ip));;
          updf f (set_f_readable (if truthy (Z.land omode O_WRONLY) then 0 else 1));;
          updf f (set_f_writable
            (if truthy (Z.land omode O_WRONLY) || truthy (Z.land omode O_RDWR) then 1 else 0));;
          (if truthy (Z.land omode O_TRUNC) && (i_type x =? T_FILE) then itrunc ip else skip);;
          iunlock ip;;
          end_op;;
          ret fd
      end
  end.

Definition sys_mkdir : M kst Z :=
  begin_op;;
  let! path := argstr 0 MAXPATH in
  if fst path <? 0 then end_op;; ret (-1) else
  let! ip := create (cstr (snd path)) T_DIR 0 0 in
  match ip with
  | None => end_op;; ret (-1)
  | Some ip => iunlockput ip;; end_op;; ret 0
  end.

Definition sys_mknod : M kst Z :=
  begin_op;;
  let! path := argstr 0 MAXPATH in
  if fst path <? 0 then end_op;; ret (-1) else
  let! major := argint 1 in
  let! minor := argint 2 in
  let! ip := create (cstr (snd path)) T_DEVICE (s16 major) (s16 minor) in
  match ip with
  | None => end_op;; ret (-1)
  | Some ip => iunlockput ip;; end_op;; ret 0
  end.

Definition sys_chdir : M kst Z :=
  let! i := curproc in
  begin_op;;
  let! path := argstr 0 MAXPATH in
  if fst path <? 0 then end_op;; ret (-1) else
  let! ip := namei (cstr (snd path)) in
  match ip with
  | None => end_op;; ret (-1)
  | Some ip =>
      ilock ip;;
      let! type := gets (fun s => i_type (geti s ip)) in
      if negb (type =? T_DIR) then iunlockput ip;; end_op;; ret (-1) else
      iunlock ip;;
      let! cwd := gets (fun s => p_cwd (getp s i)) in
      let! cwd := deref cwd in
      iput cwd;;
      end_op;;
      updp i (set_p_cwd (Some ip));;
      ret 0
  end.

(** The loop that copies the arguments in; [argv] are the pages so far, and the
    first component is false on goto bad. *)
Fixpoint exec_args (n : nat) (uargv i : Z) (argv : list Z) : M kst (bool * list Z) :=
  match n with
  | O => ret (false, argv)
  | S n' =>
      let! r := fetchaddr (u64 (uargv + 8 * i)) in
      if fst r <? 0 then ret (false, argv) else
      let uarg := snd r in
      if uarg =? 0 then ret (true, argv) else
      let! a := memop kalloc in
      if a =? 0 then ret (false, argv) else
      let! r := fetchstr_mem uarg a PGSIZE in
      if r <? 0 then ret (false, argv ++ [a]) else
      exec_args n' uargv (i + 1) (argv ++ [a])
  end.

Definition sys_exec : M kst Z :=
  let! path := argstr 0 MAXPATH in
  if fst path <? 0 then ret (-1) else
  let! uargv := argaddr 1 in
  let! r := exec_args (Z.to_nat MAXARG) uargv 0 [] in
  let argv := snd r in
  if fst r then
    let! x := exec (cstr (snd path)) (argv ++ [0]) in
    mfor argv (fun a => memop (kfree a));;
    ret x
  else
    mfor argv (fun a => memop (kfree a));;
    ret (-1).

Definition sys_pipe : M kst Z :=
  let! i := curproc in
  let! fdarray := argaddr 0 in
  let! r := pipealloc in
  match r with
  | None => ret (-1)
  | Some (rf, wf) =>
      let! fd0 := fdalloc rf in
      let! fd1 := (if fd0 <? 0 then ret (-1) else fdalloc wf) in
      if (fd0 <? 0) || (fd1 <? 0) then
        (if 0 <=? fd0 then set_ofile i (Z.to_nat fd0) None else skip);;
        fileclose rf;;
        fileclose wf;;
        ret (-1)
      else
        let! pagetable := gets (fun s => p_pagetable (getp s i)) in
        let! r0 := memop (copyout_obj pagetable fdarray (le_bytes 4 fd0)) in
        let! r1 := (if r0 <? 0 then ret (-1)
                    else memop (copyout_obj pagetable (u64 (fdarray + 4)) (le_bytes 4 fd1))) in
        if (r0 <? 0) || (r1 <? 0) then
          set_ofile i (Z.to_nat fd0) None;;
          set_ofile i (Z.to_nat fd1) None;;
          fileclose rf;;
          fileclose wf;;
          ret (-1)
        else ret 0
  end.

End Sysfile.
