(* ===== verification/Virtio.v ===== *)
(** * kernel/virtio_disk.c: the disk driver

    The rings and descriptors shared with the device are fields of [vdisk]; the
    MMIO words at VIRTIO0 are [vd_regs].  What the device does with a request
    is not in this file: it acts while the driver sleeps, as part of
    [others], or between two instructions of other code. *)

From S2P Require Import Prelude Layout Spinlock Kalloc State Output Vm Proc.

(** ** kernel/virtio.h *)

Definition VIRTIO_MMIO_MAGIC_VALUE : Z := 0x000.
Definition VIRTIO_MMIO_VERSION : Z := 0x004.
Definition VIRTIO_MMIO_DEVICE_ID : Z := 0x008.
Definition VIRTIO_MMIO_VENDOR_ID : Z := 0x00c.
Definition VIRTIO_MMIO_DEVICE_FEATURES : Z := 0x010.
Definition VIRTIO_MMIO_DRIVER_FEATURES : Z := 0x020.
Definition VIRTIO_MMIO_GUEST_PAGE_SIZE : Z := 0x028.
Definition VIRTIO_MMIO_QUEUE_SEL : Z := 0x030.
Definition VIRTIO_MMIO_QUEUE_NUM_MAX : Z := 0x034.
Definition VIRTIO_MMIO_QUEUE_NUM : Z := 0x038.
Definition VIRTIO_MMIO_QUEUE_PFN : Z := 0x040.
Definition VIRTIO_MMIO_QUEUE_NOTIFY : Z := 0x050.
Definition VIRTIO_MMIO_INTERRUPT_STATUS : Z := 0x060.
Definition VIRTIO_MMIO_INTERRUPT_ACK : Z := 0x064.
Definition VIRTIO_MMIO_STATUS : Z := 0x070.

Definition VIRTIO_CONFIG_S_ACKNOWLEDGE : Z := 1.
Definition VIRTIO_CONFIG_S_DRIVER : Z := 2.
Definition VIRTIO_CONFIG_S_DRIVER_OK : Z := 4.
Definition VIRTIO_CONFIG_S_FEATURES_OK : Z := 8.

Definition VIRTIO_BLK_F_RO : Z := 5.
Definition VIRTIO_BLK_F_SCSI : Z := 7.
Definition VIRTIO_BLK_F_CONFIG_WCE : Z := 11.
Definition VIRTIO_BLK_F_MQ : Z := 12.
Definition VIRTIO_F_ANY_LAYOUT : Z := 27.
Definition VIRTIO_RING_F_INDIRECT_DESC : Z := 28.
Definition VIRTIO_RING_F_EVENT_IDX : Z := 29.

Definition NUM : Z := 8.
Definition VRING_DESC_F_NEXT : Z := 1.
Definition VRING_DESC_F_WRITE : Z := 2.
Definition VIRTIO_BLK_T_IN : Z := 0.
Definition VIRTIO_BLK_T_OUT : Z := 1.

Definition updvd (f : vdisk -> vdisk) : M kst unit := modify (fun s => set_vd (f (k_vd s)) s).
Definition read_reg (r : Z) : M kst Z := gets (fun s => default 0 (vd_regs (k_vd s) !! r)).
Definition write_reg (r v : Z) : M kst unit := updvd (fun d => set_vd_regs (<[r := u32 v]> (vd_regs d)) d).

Definition descs : list nat := seq 0 (Z.to_nat NUM).
Definition getdesc (d : vdisk) (i : nat) : vdesc := default vdesc0 (vd_desc d !! i).
Definition setdesc (i : nat) (x : vdesc) (d : vdisk) : vdisk := set_vd_desc (<[i := x]> (vd_desc d)) d.

Definition clear_bit (x n : Z) : Z := Z.land x (Z.lnot (Z.shiftl 1 n)).

Section Driver.
Context `{KernelImage} `{Others}.

(** [pages] is the physical address of disk.pages. *)
Definition virtio_disk_init (pages : Z) : M kst unit :=
  initlock vdisklock "virtio_disk";;
  let! magic := read_reg VIRTIO_MMIO_MAGIC_VALUE in
  let! version := read_reg VIRTIO_MMIO_VERSION in
  let! device := read_reg VIRTIO_MMIO_DEVICE_ID in
  let! vendor := read_reg VIRTIO_MMIO_VENDOR_ID in
  if negb (magic =? 0x74726976) || negb (version =? 1) || negb (device =? 2) ||
     negb (vendor =? 0x554d4551)
  then panic "could not find virtio disk" else
  let status := VIRTIO_CONFIG_S_ACKNOWLEDGE in
  write_reg VIRTIO_MMIO_STATUS status;;
  let status := Z.lor status VIRTIO_CONFIG_S_DRIVER in
  write_reg VIRTIO_MMIO_STATUS status;;
  let! features := read_reg VIRTIO_MMIO_DEVICE_FEATURES in
  write_reg VIRTIO_MMIO_DRIVER_FEATURES
    (fold_left clear_bit
       [VIRTIO_BLK_F_RO; VIRTIO_BLK_F_SCSI; VIRTIO_BLK_F_CONFIG_WCE; VIRTIO_BLK_F_MQ;
        VIRTIO_F_ANY_LAYOUT; VIRTIO_RING_F_EVENT_IDX; VIRTIO_RING_F_INDIRECT_DESC] features);;
  let status := Z.lor status VIRTIO_CONFIG_S_FEATURES_OK in
  write_reg VIRTIO_MMIO_STATUS status;;
  let status := Z.lor status VIRTIO_CONFIG_S_DRIVER_OK in
  write_reg VIRTIO_MMIO_STATUS status;;
  write_reg VIRTIO_MMIO_GUEST_PAGE_SIZE PGSIZE;;
  write_reg VIRTIO_MMIO_QUEUE_SEL 0;;
  let! max := read_reg VIRTIO_MMIO_QUEUE_NUM_MAX in
  if max =? 0 then panic "virtio disk has no queue 0" else
  if max <? NUM then panic "virtio disk max queue too short" else
  write_reg VIRTIO_MMIO_QUEUE_NUM NUM;;
  updvd (fun d => set_vd_desc ∅ (set_vd_avail_idx 0 (set_vd_avail ∅
    (set_vd_used_id 0 (set_vd_used ∅ d)))));;
  write_reg VIRTIO_MMIO_QUEUE_PFN (Z.shiftr pages PGSHIFT);;
  updvd (set_vd_free (replicate (Z.to_nat NUM) 1)).

Definition isfree (d : vdisk) (i : nat) : bool := truthy (default 0 (vd_free d !! i)).
Definition mark (i : nat) (x : Z) (d : vdisk) : vdisk := set_vd_free (<[i := x]> (vd_free d)) d.

Fixpoint alloc_desc_scan (l : list nat) : M kst (option nat) :=
  match l with
  | [] => ret None
  | i :: l' =>
      let! d := gets k_vd in
      if isfree d i then updvd (mark i 0);; ret (Some i) else alloc_desc_scan l'
  end.

(** None for -1. *)
Definition alloc_desc : M kst (option nat) := alloc_desc_scan descs.

Definition free_desc (i : nat) : M kst unit :=
  if NUM <=? Z.of_nat i then panic "virtio_disk_intr 1" else
  let! d := gets k_vd in
  if isfree d i then panic "virtio_disk_intr 2" else
  updvd (fun d => let x := getdesc d i in setdesc i (Vdesc ANull (dc_len x) (dc_flags x) (dc_next x)) d);;
  updvd (mark i 1);;
  wakeup ChDiskFree.

(** A chain has at most NUM descriptors. *)
Fixpoint free_chain_loop (fuel : nat) (i : nat) : M kst unit :=
  match fuel with
  | O => diverge
  | S fuel' =>
      free_desc i;;
      let! x := gets (fun s => getdesc (k_vd s) i) in
      if truthy (Z.land (dc_flags x) VRING_DESC_F_NEXT)
      then free_chain_loop fuel' (Z.to_nat (dc_next x)) else skip
  end.

Definition free_chain (i : nat) : M kst unit := free_chain_loop (S (Z.to_nat NUM)) i.

(** Take [n] descriptors, or give back the ones taken. *)
Fixpoint alloc_descs (n : nat) (taken : list nat) : M kst (option (list nat)) :=
  match n with
  | O => ret (Some taken)
  | S n' =>
      let! i := alloc_desc in
      match i with
      | Some i => alloc_descs n' (taken ++ [i])
      | None => mfor taken free_desc;; ret None
      end
  end.

Definition alloc3_desc : M kst (option (list nat)) := alloc_descs 3 [].

Fixpoint wait_descs (fuel : nat) : M kst (list nat) :=
  match fuel with
  | O => diverge
  | S fuel' =>
      let! r := alloc3_desc in
      match r with
      | Some idx => ret idx
      | None =>
          sleep ChDiskFree (Some vdisklock);;
          wait_descs fuel'
      end
  end.

(** The three descriptors of a request for buffer [b]. *)
Definition format_request (b i0 i1 i2 : nat) (sector : Z) (write : bool) (d : vdisk) : vdisk :=
  let d := setdesc i0 (Vdesc (AHdr (if write then VIRTIO_BLK_T_OUT else VIRTIO_BLK_T_IN) sector) 16
             VRING_DESC_F_NEXT (Z.of_nat i1)) d in
  let d := setdesc i1 (Vdesc (AData b) BSIZE
             (Z.lor (if write then 0 else VRING_DESC_F_WRITE) VRING_DESC_F_NEXT) (Z.of_nat i2)) d in
  let d := set_vd_info_status (<[i0 := 0]> (vd_info_status d)) d in
  setdesc i2 (Vdesc (AStatus i0) 1 VRING_DESC_F_WRITE 0) d.

(** Put the chain that starts at [i0] in the available ring. *)
Definition offer (i0 : nat) (d : vdisk) : vdisk :=
  let d := set_vd_avail (<[Z.to_nat (vd_avail_idx d mod NUM) := Z.of_nat i0]> (vd_avail d)) d in
  set_vd_avail_idx (u16 (vd_avail_idx d + 1)) d.

Definition virtio_disk_rw (b : nat) (write : bool) : M kst unit :=
  let! sector := gets (fun s => u32 (b_blockno (getb s b) * (BSIZE / 512))) in
  acquire vdisklock;;
  let! idx := wait_descs (S patience) in
  match idx with
  | [i0; i1; i2] =>
      updvd (format_request b i0 i1 i2 sector write);;
      updb b (set_b_disk 1);;
      updvd (fun d => set_vd_info_b (<[i0 := b]> (vd_info_b d)) d);;
      updvd (offer i0);;
      write_reg VIRTIO_MMIO_QUEUE_NOTIFY 0;;
      sleep_while (fun s => b_disk (getb s b) =? 1) (ChBuf b) (Some vdisklock);;
      updvd (fun d => set_vd_info_b (delete i0 (vd_info_b d)) d);;
      free_chain i0;;
      release vdisklock
  | _ => ub
  end.

(** The completions between used_idx and used->id; fewer than NUM of them. *)
Fixpoint virtio_disk_intr_loop (fuel : nat) : M kst unit :=
  match fuel with
  | O => diverge
  | S fuel' =>
      let! d := gets k_vd in
      if vd_used_idx d mod NUM =? vd_used_id d mod NUM then skip else
      let id := Z.to_nat (default 0 (vd_used d !! Z.to_nat (vd_used_idx d))) in
      if negb (default 0 (vd_info_status d !! id) =? 0) then panic "virtio_disk_intr status" else
      let! b := deref (vd_info_b d !! id) in
      updb b (set_b_disk 0);;
      wakeup (ChBuf b);;
      updvd (fun d => set_vd_used_idx ((vd_used_idx d + 1) mod NUM) d);;
      virtio_disk_intr_loop fuel'
  end.

Definition virtio_disk_intr : M kst unit :=
  acquire vdisklock;;
  virtio_disk_intr_loop (Z.to_nat NUM);;
  let! st := read_reg VIRTIO_MMIO_INTERRUPT_STATUS in
  write_reg VIRTIO_MMIO_INTERRUPT_ACK (Z.land st 3);;
  release vdisklock.

End Driver.
