(* ===== verification/Trap.v ===== *)
(** * kernel/trap.c: traps, with syscall() of kernel/syscall.c, kernel/plic.c and
    forkret of kernel/proc.c

    The assembly that saves and restores registers around these functions
    (trampoline.S, kernelvec.S) is not modelled: a trap is a call of usertrap
    or kerneltrap in a state whose supervisor registers say what happened. *)

From S2P Require Import Prelude CString Layout Spinlock Kalloc State Output Vm Proc SleepLock Bio Log Fs Pipe Console File ProcFs Exec Syscall Sysfile Virtio.

(** ** Supervisor registers *)

Definition upd_csr (f : csrs -> csrs) : M kst unit :=
  modify (fun s => let h := hart_of s in put_hart (Hart (h_tp h) (f (h_csr h)) (h_cpus h)) s).
Definition w_stvec (x : Z) : M kst unit := upd_csr (fun r =>
  Csrs (r_sstatus r) (r_sepc r) (r_scause r) (r_stval r) x (r_satp r) (r_sip r)).
Definition w_sepc (x : Z) : M kst unit := upd_csr (fun r =>
  Csrs (r_sstatus r) x (r_scause r) (r_stval r) (r_stvec r) (r_satp r) (r_sip r)).
Definition w_sstatus (x : Z) : M kst unit := upd_csr (fun r =>
  Csrs x (r_sepc r) (r_scause r) (r_stval r) (r_stvec r) (r_satp r) (r_sip r)).
Definition w_sip (x : Z) : M kst unit := upd_csr (fun r =>
  Csrs (r_sstatus r) (r_sepc r) (r_scause r) (r_stval r) (r_stvec r) (r_satp r) x).
Definition csr : M kst csrs := gets (fun s => h_csr (hart_of s)).

(** ** kernel/plic.c *)

Definition PLIC_SENABLE (hart : Z) : Z := PLIC + 0x2080 + hart * 0x100.
Definition PLIC_SPRIORITY (hart : Z) : Z := PLIC + 0x201000 + hart * 0x2000.
Definition PLIC_SCLAIM (hart : Z) : Z := PLIC + 0x201004 + hart * 0x2000.

Definition plic_store (a v : Z) : M kst unit :=
  modify (fun s => set_pl (set_pl_regs (<[a := u32 v]> (pl_regs (k_pl s))) (k_pl s)) s).

Definition plicinit : M kst unit :=
  plic_store (PLIC + UART0_IRQ * 4) 1;;
  plic_store (PLIC + VIRTIO0_IRQ * 4) 1.

Definition plicinithart : M kst unit :=
  let! hart := gets (fun s => cpuid (hart_of s)) in
  plic_store (PLIC_SENABLE hart) (Z.lor (Z.shiftl 1 UART0_IRQ) (Z.shiftl 1 VIRTIO0_IRQ));;
  plic_store (PLIC_SPRIORITY hart) 0.

(** Reading the claim register takes the pending interrupt, 0 for none. *)
Definition plic_claim : M kst Z :=
  let! p := gets (fun s => pl_pending (k_pl s)) in
  match p with
  | [] => ret 0
  | irq :: rest => modify (fun s => set_pl (set_pl_pending rest (k_pl s)) s);; ret irq
  end.

Definition plic_complete (irq : Z) : M kst unit :=
  let! hart := gets (fun s => cpuid (hart_of s)) in
  plic_store (PLIC_SCLAIM hart) irq.

Section Traps.
Context `{KernelImage} `{Others} `{BlockDev}.

(** ** The system call dispatcher *)

(** syscalls[num] *)
Definition syscalls (num : Z) : option (M kst Z) :=
  match num with
  | 1 => Some sys_fork | 2 => Some sys_exit | 3 => Some sys_wait | 4 => Some sys_pipe
  | 5 => Some sys_read | 6 => Some sys_kill | 7 => Some sys_exec | 8 => Some sys_fstat
  | 9 => Some sys_chdir | 10 => Some sys_dup | 11 => Some sys_getpid | 12 => Some sys_sbrk
  | 13 => Some sys_sleep | 14 => Some sys_uptime | 15 => Some sys_open | 16 => Some sys_write
  | 17 => Some sys_mknod | 18 => Some sys_unlink | 19 => Some sys_link | 20 => Some sys_mkdir
  | 21 => Some sys_close | 22 => Some sys_rename | 23 => Some sys_yield
  | _ => None
  end.

Definition syscall : M kst unit :=
  let! i := curproc in
  let! a7 := get_tf i (tf_a 7) in
  let num := s32 a7 in
  match syscalls num with
  | Some f => let! r := f in put_tf i (tf_a 0) r
  | None =>
      let! p := gets (fun s => getp s i) in
      printf ("%d %s: unknown sys call %d" +:+ NL) [AInt (p_pid p); AStr (Some (cstr (p_name p))); AInt num];;
      put_tf i (tf_a 0) (-1)
  end.

(** ** Traps *)

Definition trapinit : M kst unit := initlock tickslock "time".
Definition trapinithart : M kst unit := w_stvec k_kernelvec.

Definition clockintr : M kst unit :=
  acquire tickslock;;
  modify (fun s => set_ck (set_ck_ticks (u32 (ck_ticks (k_ck s) + 1)) (k_ck s)) s);;
  wakeup ChTicks;;
  release tickslock.

Definition devintr : M kst Z :=
  let! r := csr in
  let scause := r_scause r in
  if truthy (Z.land scause 0x8000000000000000) && (Z.land scause 0xff =? 9) then
    let! irq := plic_claim in
    (if irq =? UART0_IRQ then uartintr
     else if irq =? VIRTIO0_IRQ then virtio_disk_intr
     else if truthy irq then printf ("unexpected interrupt irq=%d" +:+ NL) [AInt irq]
     else skip);;
    (if truthy irq then plic_complete irq else skip);;
    ret 1
  else if scause =? 0x8000000000000001 then
    let! h := gets hart_of in
    (if cpuid h =? 0 then clockintr else skip);;
    let! r := csr in
    w_sip (Z.land (r_sip r) (Z.lnot 2));;
    ret 2
  else ret 0.

(** The jump into the trampoline: its address and its two arguments. *)
Record user_return := UserReturn { ur_fn : Z; ur_trapframe : Z; ur_satp : Z }.

Definition usertrapret : M kst user_return :=
  let! i := curproc in
  modify (fun s => put_hart (intr_off (hart_of s)) s);;
  w_stvec (TRAMPOLINE + (k_uservec - k_trampoline));;
  let! r := csr in
  put_tf i tf_kernel_satp (r_satp r);;
  let! kstack := gets (fun s => p_kstack (getp s i)) in
  put_tf i tf_kernel_sp (kstack + PGSIZE);;
  put_tf i tf_kernel_trap k_usertrap;;
  let! h := gets hart_of in
  put_tf i tf_kernel_hartid (h_tp h);;
  let! r := csr in
  w_sstatus (Z.lor (Z.land (r_sstatus r) (Z.lnot SSTATUS_SPP)) SSTATUS_SPIE);;
  let! epc := get_tf i tf_epc in
  w_sepc epc;;
  let! pagetable := gets (fun s => p_pagetable (getp s i)) in
  ret (UserReturn (TRAMPOLINE + (k_userret - k_trampoline)) TRAPFRAME (MAKE_SATP pagetable)).

Definition usertrap : M kst user_return :=
  let! r := csr in
  if truthy (Z.land (r_sstatus r) SSTATUS_SPP) then panic "usertrap: not from user mode" else
  w_stvec k_kernelvec;;
  let! i := curproc in
  put_tf i tf_epc (r_sepc r);;
  let! which_dev := (
    if r_scause r =? 8 then
      let! killed := gets (fun s => p_killed (getp s i)) in
      (if truthy killed then exit (-1) else skip);;
      let! epc := get_tf i tf_epc in
      put_tf i tf_epc (epc + 4);;
      modify (fun s => put_hart (intr_on (hart_of s)) s);;
      syscall;;
      ret 0
    else
      let! which_dev := devintr in
      if negb (which_dev =? 0) then ret which_dev else
      let! r := csr in
      let! pid := gets (fun s => p_pid (getp s i)) in
      printf ("usertrap(): unexpected scause %p pid=%d" +:+ NL) [APtr (r_scause r); AInt pid];;
      printf ("            sepc=%p stval=%p" +:+ NL) [APtr (r_sepc r); APtr (r_stval r)];;
      updp i (set_p_killed 1);;
      ret 0) in
  let! killed := gets (fun s => p_killed (getp s i)) in
  (if truthy killed then exit (-1) else skip);;
  (if which_dev =? 2 then yield else skip);;
  usertrapret.

Definition kerneltrap : M kst unit :=
  let! r := csr in
  if Z.land (r_sstatus r) SSTATUS_SPP =? 0 then panic "kerneltrap: not from supervisor mode" else
  let! h := gets hart_of in
  if intr_get h then panic "kerneltrap: interrupts enabled" else
  let! which_dev := devintr in
  if which_dev =? 0 then
    printf ("scause %p" +:+ NL) [APtr (r_scause r)];;
    let! r := csr in
    printf ("sepc=%p stval=%p" +:+ NL) [APtr (r_sepc r); APtr (r_stval r)];;
    panic "kerneltrap"
  else
    (if which_dev =? 2 then
       let! p := myproc in
       match p with
       | Some i =>
           let! st := gets (fun s => p_state (getp s i)) in
           if decide (st = RUNNING) then yield else skip
       | None => skip
       end
     else skip);;
    w_sepc (r_sepc r);;
    w_sstatus (r_sstatus r).

Definition forkret : M kst user_return :=
  let! i := curproc in
  release (plock i);;
  let! first := gets (fun s => pt_first (k_pt s)) in
  (if truthy first then
     modify (fun s => set_pt (set_pt_first 0 (k_pt s)) s);;
     fsinit ROOTDEV
   else skip);;
  usertrapret.

End Traps.
