(* ===== verification/Boot.v ===== *)
(** * kernel/start.c and kernel/main.c: booting

    start() runs in machine mode on the machine-mode registers below; mret then
    enters main() in the mode MPP names, at the address in mepc. *)

From S2P Require Import Prelude CString Layout Spinlock Kalloc State Output Vm Proc SleepLock Bio Log Fs Pipe Console File ProcFs Exec Syscall Sysfile Virtio Trap.

Definition MSTATUS_MPP_MASK : Z := Z.shiftl 3 11.
Definition MSTATUS_MPP_S : Z := Z.shiftl 1 11.
Definition MSTATUS_MIE : Z := Z.shiftl 1 3.
Definition SIE_SEIE : Z := Z.shiftl 1 9.
Definition SIE_STIE : Z := Z.shiftl 1 5.
Definition SIE_SSIE : Z := Z.shiftl 1 1.
Definition MIE_MTIE : Z := Z.shiftl 1 7.

Definition CLINT_MTIMECMP (hart : Z) : Z := CLINT + 0x4000 + 8 * hart.

(** The registers start() and timerinit() use; [mm_mtime] and [mm_mtimecmp] are
    the CLINT's, [mm_scratch] this hart's 32 words of mscratch0. *)
Record mmode := Mmode {
  mm_mhartid : Z; mm_mstatus : Z; mm_mepc : Z; mm_satp : Z; mm_medeleg : Z; mm_mideleg : Z;
  mm_sie : Z; mm_pmpaddr0 : Z; mm_pmpcfg0 : Z; mm_mscratch : Z; mm_mtvec : Z; mm_mie : Z;
  mm_tp : Z; mm_mtime : Z; mm_mtimecmp : Z; mm_scratch : gmap nat Z }.

Section Boot.
Context `{KernelImage} `{Others} `{BlockDev}.
(** The addresses of main, timervec, mscratch0 and disk.pages. *)
Context (main_addr timervec mscratch0 disk_pages : Z).

Definition timer_interval : Z := 1000000.

Definition timerinit (m : mmode) : mmode :=
  let id := mm_mhartid m in
  {| mm_mtimecmp := u64 (mm_mtime m + timer_interval);
     mm_scratch := <[5%nat := timer_interval]> (<[4%nat := CLINT_MTIMECMP id]> (mm_scratch m));
     mm_mscratch := mscratch0 + 8 * (32 * id);
     mm_mtvec := timervec;
     mm_mstatus := Z.lor (mm_mstatus m) MSTATUS_MIE;
     mm_mie := Z.lor (mm_mie m) MIE_MTIE;
     mm_mhartid := mm_mhartid m; mm_mepc := mm_mepc m; mm_satp := mm_satp m;
     mm_medeleg := mm_medeleg m; mm_mideleg := mm_mideleg m; mm_sie := mm_sie m;
     mm_pmpaddr0 := mm_pmpaddr0 m; mm_pmpcfg0 := mm_pmpcfg0 m; mm_tp := mm_tp m;
     mm_mtime := mm_mtime m |}.

(** The register part of start(), up to the test of cpuid(). *)
Definition start_regs (m : mmode) : mmode :=
  let m := {| mm_mstatus := Z.lor (Z.land (mm_mstatus m) (Z.lnot MSTATUS_MPP_MASK)) MSTATUS_MPP_S;
              mm_mepc := main_addr;
              mm_satp := 0;
              mm_medeleg := 0xffff;
              mm_mideleg := 0xffff;
              mm_sie := Z.lor (Z.lor (Z.lor (mm_sie m) SIE_SEIE) SIE_STIE) SIE_SSIE;
              mm_pmpaddr0 := 0x1fffffffffffff;
              mm_pmpcfg0 := 0x1f;
              mm_mhartid := mm_mhartid m; mm_mscratch := mm_mscratch m; mm_mtvec := mm_mtvec m;
              mm_mie := mm_mie m; mm_tp := mm_tp m; mm_mtime := mm_mtime m;
              mm_mtimecmp := mm_mtimecmp m; mm_scratch := mm_scratch m |} in
  let m := timerinit m in
  {| mm_tp := s32 (mm_mhartid m);
     mm_mstatus := mm_mstatus m; mm_mepc := mm_mepc m; mm_satp := mm_satp m;
     mm_medeleg := mm_medeleg m; mm_mideleg := mm_mideleg m; mm_sie := mm_sie m;
     mm_pmpaddr0 := mm_pmpaddr0 m; mm_pmpcfg0 := mm_pmpcfg0 m; mm_mhartid := mm_mhartid m;
     mm_mscratch := mm_mscratch m; mm_mtvec := mm_mtvec m; mm_mie := mm_mie m;
     mm_mtime := mm_mtime m; mm_mtimecmp := mm_mtimecmp m; mm_scratch := mm_scratch m |}.

(** The rest of start(): hart 0 sets up the console. *)
Definition start_console : M kst unit :=
  let! h := gets hart_of in
  if cpuid h =? 0 then consoleinit;; printfinit else skip.

(** main() on hart 0, up to the store to [started]. *)
Definition main_first : M kst unit :=
  printf NL [];;
  printf ("xv6 kernel is booting" +:+ NL) [];;
  printf NL [];;
  memop kinit;;
  memop kvminit;;
  memop kvminithart;;
  procinit;;
  trapinit;;
  trapinithart;;
  plicinit;;
  plicinithart;;
  binit;;
  iinit;;
  fileinit;;
  virtio_disk_init disk_pages;;
  userinit.

(** main() on the other harts, once [started] is set. *)
Definition main_other : M kst unit :=
  let! h := gets hart_of in
  printf ("hart %d starting" +:+ NL) [AInt (cpuid h)];;
  memop kvminithart;;
  trapinithart;;
  plicinithart.

(** The first [turns] turns of the scheduler loop main() ends in; a hart other
    than 0 spins for ever when [started] is never set. *)
Definition main (started : bool) (turns : nat) : M kst unit :=
  let! h := gets hart_of in
  (if cpuid h =? 0 then main_first else if started then main_other else diverge);;
  scheduler turns.

End Boot.
