(* ===== verification/ProcSpec.v ===== *)
(** * What the process table operations do

    [wakeup], [kill] and [wait] for a thread that holds no process lock, in a
    state where no process lock is held. *)

From S2P Require Import Prelude CString Layout Spinlock Kalloc State Output Vm Proc.

(** No process lock is held. *)
Definition plocks_free (s : kst) : Prop := forall i, lock_free (p_lock (getp s i)).

Lemma plocks_free_hart h s : plocks_free (put_hart h s) <-> plocks_free s.
Proof. done. Qed.

Lemma plocks_free_setp i p s : plocks_free s -> lock_free (p_lock p) -> plocks_free (setp i p s).
Proof. intros Hs Hp j. rewrite getp_setp. by case_decide. Qed.

Lemma set_p_lock_twice k k' p : set_p_lock k (set_p_lock k' p) = set_p_lock k p.
Proof. done. Qed.

Lemma set_p_lock_id p : set_p_lock (p_lock p) p = p.
Proof. by destruct p. Qed.

(** The state inside the critical section of process [i]. *)
Definition in_plock (i : nat) (s : kst) : kst :=
  setp i (set_p_lock (locked_by (hart_of s) (p_lock (getp s i))) (getp s i))
    (put_hart (pushed (hart_of s)) s).

Lemma acquire_plock i s :
  lock_free (p_lock (getp s i)) -> acquire (plock i) s = Ok tt (in_plock i s).
Proof. intros Hl. exact (acquire_eq (plock i) s Hl). Qed.

(** Releasing it after the process has become [p]. *)
Lemma release_plock i s p s1 :
  hart_ok (hart_of s) -> lock_free (p_lock (getp s i)) ->
  s1 = setp i p (put_hart (pushed (hart_of s)) s) ->
  p_lock p = locked_by (hart_of s) (p_lock (getp s i)) ->
  release (plock i) s1 =
  Ok tt (setp i (set_p_lock (p_lock (getp s i)) p) (put_hart (touched (hart_of s)) s)).
Proof.
  intros Hh Hl -> Hp.
  rewrite (release_eq (plock i) _ (hart_of s) (p_lock (getp s i))); [|done|done|done|].
  - cbn [plock lk_put]. rewrite put_hart_setp, getp_setp, decide_True by done.
    by rewrite setp_setp.
  - cbn [plock lk_get]. by rewrite getp_setp, decide_True.
Qed.

(** ** wakeup *)

Definition wake (ch : chan) (p : proc) : proc :=
  if bool_decide (p_state p = SLEEPING) && bool_decide (p_chan p = Some ch)
  then set_p_state RUNNABLE p else p.

Lemma wake_lock ch p : p_lock (wake ch p) = p_lock p.
Proof. unfold wake. by case_match. Qed.

Lemma wakeup_at_eq ch i s :
  hart_ok (hart_of s) -> lock_free (p_lock (getp s i)) ->
  wakeup_at ch i s = Ok tt (setp i (wake ch (getp s i)) (put_hart (touched (hart_of s)) s)).
Proof.
  intros Hh Hl. unfold wakeup_at. rewrite (bind_Ok _ _ _ _ _ (acquire_plock i s Hl)). mstep.
  unfold in_plock. rewrite getp_setp, decide_True by done. cbn [p_state p_chan set_p_lock].
  unfold wake. destruct (bool_decide (p_state (getp s i) = SLEEPING) && _) eqn:E.
  - unfold updp. mstep. rewrite getp_setp, decide_True, setp_setp by done.
    erewrite release_plock; [|done|done|done|done]. done.
  - mstep. erewrite release_plock; [|done|done|done|done]. by rewrite set_p_lock_twice, set_p_lock_id.
Qed.

(** The processes of [l] woken one after the other. *)
Definition wakes (ch : chan) (l : list nat) (s : kst) : kst :=
  fold_left (fun s i => setp i (wake ch (getp s i)) s) l s.

Lemma getp_wakes ch l s j :
  NoDup l -> getp (wakes ch l s) j = if decide (j ∈ l) then wake ch (getp s j) else getp s j.
Proof.
  unfold wakes. revert s. induction l as [|i l IH]; intros s Hl.
  { rewrite decide_False by (intros [] % elem_of_nil). done. }
  apply NoDup_cons in Hl as [Hi Hl]. cbn [fold_left]. rewrite IH, getp_setp by done.
  destruct (decide (i = j)) as [->|Hne].
  - by rewrite decide_False, decide_True by (done || left).
  - destruct (decide (j ∈ l)); [by rewrite decide_True by (by right)|].
    by rewrite decide_False by (by intros [?|?] % elem_of_cons).
Qed.

Lemma wakes_rest ch l s :
  wakes ch l s = set_pt (set_pt_proc (pt_proc (k_pt (wakes ch l s))) (k_pt s)) s.
Proof.
  unfold wakes. revert s. induction l as [|i l IH]; intros s; [by destruct s as [? [] ? ? ? ? ? ? ? ? ? ? ? ? ?]|].
  cbn [fold_left]. rewrite IH at 1. done.
Qed.

Lemma hart_wakes ch l s : hart_of (wakes ch l s) = hart_of s.
Proof. by rewrite wakes_rest. Qed.

Lemma put_hart_wakes ch l h s : put_hart h (wakes ch l s) = wakes ch l (put_hart h s).
Proof. unfold wakes. revert s. induction l as [|i l IH]; intros s; [done|]. cbn [fold_left]. apply IH. Qed.

Lemma wakeup_loop ch l s :
  hart_ok (hart_of s) -> plocks_free s -> NoDup l ->
  mfor l (wakeup_at ch) s =
  Ok tt (match l with [] => s | _ => wakes ch l (put_hart (touched (hart_of s)) s) end).
Proof.
  revert s. induction l as [|i l IH]; intros s Hh Hl Hn; [done|].
  apply NoDup_cons in Hn as [Hi Hn]. cbn [mfor].
  rewrite (bind_Ok _ _ _ _ _ (wakeup_at_eq ch i s Hh (Hl i))). rewrite IH; [| |by apply plocks_free_setp; [|rewrite wake_lock]|done].
  - destruct l as [|j l]; [done|]. f_equal. autorewrite with proc hart. by rewrite touched_twice.
  - autorewrite with proc hart. by apply touched_ok.
Qed.

Lemma wakeup_eq ch s :
  hart_ok (hart_of s) -> plocks_free s ->
  wakeup ch s = Ok tt (wakes ch procs (put_hart (touched (hart_of s)) s)).
Proof. intros Hh Hl. unfold wakeup. rewrite wakeup_loop by (done || apply NoDup_seq). done. Qed.

(** ** States that differ only in how the process table is stored *)

Definition pequiv (s s' : kst) : Prop :=
  (forall i, getp s' i = getp s i) /\ exists m, s' = set_pt (set_pt_proc m (k_pt s)) s.

#[export] Instance pequiv_preorder : PreOrder pequiv.
Proof.
  split.
  - intros s. split; [done|]. exists (pt_proc (k_pt s)). by destruct s as [? [] ? ? ? ? ? ? ? ? ? ? ? ? ?].
  - intros s1 s2 s3 [H12 [m1 E12]] [H23 [m2 E23]]. split.
    + intros i. by rewrite H23.
    + exists m2. by rewrite E23, E12.
Qed.

#[export] Instance pequiv_hart : Proper (pequiv ==> eq) hart_of.
Proof. intros s s' [_ [m ->]]. done. Qed.

#[export] Instance pequiv_put_hart h : Proper (pequiv ==> pequiv) (put_hart h).
Proof. intros s s' [H [m E]]. split; [apply H|]. exists m. by rewrite E. Qed.

#[export] Instance pequiv_setp i p : Proper (pequiv ==> pequiv) (setp i p).
Proof.
  intros s s' [H [m E]]. split.
  - intros j. rewrite !getp_setp. by case_decide.
  - exists (<[i := p]> m). by rewrite E.
Qed.

Lemma setp_pequiv i p s : p = getp s i -> pequiv s (setp i p s).
Proof.
  intros ->. split.
  - intros j. rewrite getp_setp. by case_decide; subst.
  - by eexists.
Qed.

Lemma pequiv_locks s s' : pequiv s s' -> plocks_free s -> plocks_free s'.
Proof. intros [H _] Hs i. rewrite H. apply Hs. Qed.

(** States before and after locks have been taken and released: the hart may
    remember the interrupt state it found. *)
Definition quiet (s s' : kst) : Prop :=
  (hart_of s' = hart_of s \/ hart_of s' = touched (hart_of s)) /\ pequiv (put_hart (hart_of s') s) s'.

#[export] Instance quiet_preorder : PreOrder quiet.
Proof.
  split.
  - intros s. split; [by left|]. by rewrite hart_put_get.
  - intros s1 s2 s3 [H12 E12] [H23 E23]. split.
    + destruct H12 as [H12|H12], H23 as [H23|H23]; rewrite H23, H12, ?touched_twice; auto.
    + etransitivity; [|exact E23]. apply (pequiv_put_hart (hart_of s3)) in E12.
      by rewrite hart_put_put in E12.
Qed.

Lemma quiet_getp s s' i : quiet s s' -> getp s' i = getp s i.
Proof. intros [_ [H _]]. apply H. Qed.

Lemma quiet_locks s s' : quiet s s' -> plocks_free s -> plocks_free s'.
Proof. intros H Hs i. rewrite (quiet_getp s s') by done. apply Hs. Qed.

Lemma quiet_hart_ok s s' : quiet s s' -> hart_ok (hart_of s) -> hart_ok (hart_of s').
Proof. intros [[-> | ->] _] Hs; [done|by apply touched_ok]. Qed.

Lemma quiet_cproc s s' : quiet s s' -> c_proc (mycpu (hart_of s')) = c_proc (mycpu (hart_of s)).
Proof. intros [[-> | ->] _]; [done|apply touched_proc]. Qed.

Lemma quiet_setp i p s s' : quiet s s' -> quiet (setp i p s) (setp i p s').
Proof. intros [H E]. split; [done|]. exact (pequiv_setp i p _ _ E). Qed.

Lemma touch_quiet s : quiet s (put_hart (touched (hart_of s)) s).
Proof. split; [by right|]. done. Qed.

(** Looking at process [i] under its lock. *)
Definition visited (i : nat) (s : kst) : kst := setp i (getp s i) (put_hart (touched (hart_of s)) s).

Lemma visited_quiet i s : quiet s (visited i s).
Proof. split; [by right|]. by apply setp_pequiv. Qed.

Lemma release_visited i s :
  hart_ok (hart_of s) -> lock_free (p_lock (getp s i)) ->
  release (plock i) (in_plock i s) = Ok tt (visited i s).
Proof.
  intros Hh Hl. unfold in_plock. erewrite release_plock; [|done|done|done|done].
  by rewrite set_p_lock_twice, set_p_lock_id.
Qed.

Lemma getp_in_plock i s : getp (in_plock i s) i = set_p_lock (locked_by (hart_of s) (p_lock (getp s i))) (getp s i).
Proof. unfold in_plock. by rewrite getp_setp, decide_True. Qed.

Lemma getp_in_plock_ne i j s : i <> j -> getp (in_plock i s) j = getp s j.
Proof. intros Hne. unfold in_plock. by rewrite getp_setp, decide_False. Qed.

Lemma pid_in_plock i s : p_pid (getp (in_plock i s) i) = p_pid (getp s i).
Proof. by rewrite getp_in_plock. Qed.
Lemma state_in_plock i s : p_state (getp (in_plock i s) i) = p_state (getp s i).
Proof. by rewrite getp_in_plock. Qed.

(** Process [i] becomes [f] of itself in its critical section. *)
Lemma release_updated i f s :
  hart_ok (hart_of s) -> lock_free (p_lock (getp s i)) ->
  (forall k p, f (set_p_lock k p) = set_p_lock k (f p)) -> (forall p, p_lock (f p) = p_lock p) ->
  release (plock i) (setp i (f (getp (in_plock i s) i)) (in_plock i s)) =
  Ok tt (setp i (f (getp s i)) (put_hart (touched (hart_of s)) s)).
Proof.
  intros Hh Hl Hf Hk. rewrite getp_in_plock, Hf. unfold in_plock. rewrite setp_setp.
  erewrite release_plock; [|done|done|done|done].
  rewrite set_p_lock_twice, <- (Hk (getp s i)). by rewrite set_p_lock_id.
Qed.

Lemma filter_none_nil {A} (P : A -> Prop) `{!forall x, Decision (P x)} (l : list A) :
  (forall x, x ∈ l -> ~ P x) -> filter P l = [].
Proof.
  induction l as [|x l IH]; intros Hl; [done|]. rewrite filter_cons, decide_False by (apply Hl; left).
  apply IH. intros y Hy. apply Hl. by right.
Qed.

(** ** kill *)

Definition find_pid (pid : Z) (l : list nat) (s : kst) : option nat :=
  head (filter (fun i => p_pid (getp s i) = pid) l).

(** What kill does to its victim. *)
Definition kill_proc (p : proc) : proc :=
  let q := set_p_killed 1 p in
  if decide (p_state p = SLEEPING) then set_p_state RUNNABLE q else q.

Lemma kill_scan_hit pid i l s :
  hart_ok (hart_of s) -> lock_free (p_lock (getp s i)) -> p_pid (getp s i) = pid ->
  kill_scan pid (i :: l) s = Ok 0 (setp i (kill_proc (getp s i)) (put_hart (touched (hart_of s)) s)).
Proof.
  intros Hh Hl Hp. cbn [kill_scan]. rewrite (bind_Ok _ _ _ _ _ (acquire_plock i s Hl)). mstep.
  rewrite pid_in_plock, state_in_plock, Hp, Z.eqb_refl. unfold updp. mstep.
  pose proof (release_updated i kill_proc s Hh Hl) as Hr. rewrite getp_in_plock in Hr |- *.
  unfold kill_proc in Hr |- *. cbn [p_state set_p_lock] in Hr.
  destruct (decide (p_state (getp s i) = SLEEPING)); mstep;
    rewrite ?getp_setp, ?decide_True, ?setp_setp by done;
    erewrite bind_Ok by (apply Hr; intros; by case_match); done.
Qed.

Lemma kill_scan_miss pid i l s :
  hart_ok (hart_of s) -> lock_free (p_lock (getp s i)) -> p_pid (getp s i) <> pid ->
  kill_scan pid (i :: l) s = kill_scan pid l (visited i s).
Proof.
  intros Hh Hl Hp. cbn [kill_scan]. rewrite (bind_Ok _ _ _ _ _ (acquire_plock i s Hl)). mstep.
  rewrite pid_in_plock. destruct (Z.eqb_spec (p_pid (getp s i)) pid); [done|].
  by rewrite (bind_Ok _ _ _ _ _ (release_visited i s Hh Hl)).
Qed.

Lemma kill_scan_spec pid l s :
  hart_ok (hart_of s) -> plocks_free s ->
  exists s', quiet s s' /\ kill_scan pid l s =
    match find_pid pid l s with
    | Some i => Ok 0 (setp i (kill_proc (getp s i)) s')
    | None => Ok (-1) s'
    end.
Proof.
  revert s. induction l as [|i l IH]; intros s Hh Hl; [by exists s|].
  unfold find_pid. rewrite filter_cons.
  destruct (decide (p_pid (getp s i) = pid)) as [Hp|Hp]; cbn [head].
  - eexists. split; [apply touch_quiet|]. by apply kill_scan_hit.
  - rewrite kill_scan_miss by (done || apply Hl).
    pose proof (visited_quiet i s) as Hv.
    destruct (IH (visited i s)) as (s' & Hq & Hr); [by eapply quiet_hart_ok|by eapply quiet_locks|].
    exists s'. split; [by etransitivity|]. rewrite Hr. unfold find_pid.
    erewrite (list_filter_iff _ (fun j => p_pid (getp s j) = pid)) by (intros j; by rewrite (quiet_getp s)).
    destruct (head _); [|done]. by rewrite (quiet_getp s).
Qed.

Lemma find_pid_least pid s i :
  (i < Z.to_nat NPROC)%nat -> p_pid (getp s i) = pid ->
  (forall j, (j < i)%nat -> p_pid (getp s j) <> pid) -> find_pid pid procs s = Some i.
Proof.
  intros Hi Hp Hmin. unfold find_pid, procs.
  replace (Z.to_nat NPROC) with (i + S (Z.to_nat NPROC - i - 1))%nat by lia.
  rewrite seq_app, filter_app, filter_none_nil.
  - cbn [seq app]. by rewrite filter_cons, decide_True by done.
  - intros j Hj%elem_of_seq. apply Hmin. lia.
Qed.

Lemma find_pid_none pid s :
  (forall i, (i < Z.to_nat NPROC)%nat -> p_pid (getp s i) <> pid) -> find_pid pid procs s = None.
Proof.
  intros Hno. unfold find_pid. rewrite filter_none_nil; [done|].
  intros j Hj%elem_of_seq. apply Hno. lia.
Qed.

(** ** The current process *)

Lemma curproc_eq i s :
  hart_ok (hart_of s) -> c_proc (mycpu (hart_of s)) = Some i ->
  curproc s = Ok i (put_hart (touched (hart_of s)) s).
Proof.
  intros Hh Hp. unfold curproc, myproc. rewrite bind_assoc, (bind_Ok _ _ _ _ _ (push_off_eq s)). mstep.
  erewrite bind_Ok by (apply (pop_off_pushed _ (hart_of s)); autorewrite with hart; done).
  autorewrite with hart. mstep. unfold pushed. rewrite mycpu_set_mycpu.
  destruct (c_noff (mycpu (hart_of s)) =? 0); cbn [c_proc set_noff set_intena]; by rewrite Hp.
Qed.

(** ** wait *)

Section Wait.
Context `{KernelImage} `{Others}.

(** The child wait() finds. *)
Definition zombie_child (i : nat) (l : list nat) (s : kst) : option nat :=
  head (filter (fun j => p_parent (getp s j) = Some i /\ p_state (getp s j) = ZOMBIE) l).

(** Process [i] is inside its critical section, entered from [h] with lock [k]. *)
Record waiting (i : nat) (h : hart) (k : spinlock) (s : kst) : Prop := {
  wt_hart : hart_of s = pushed h;
  wt_ok : hart_ok h;
  wt_free : lock_free k;
  wt_lock : p_lock (getp s i) = locked_by h k;
  wt_others : forall j, j <> i -> lock_free (p_lock (getp s j));
  wt_parent : p_parent (getp s i) <> Some i }.

Lemma waiting_pequiv i h k s s' : pequiv s s' -> waiting i h k s -> waiting i h k s'.
Proof.
  intros E [H1 H2 H3 H4 H5 H6]. destruct E as [Hg Hm].
  assert (hart_of s' = hart_of s) by (destruct Hm as [m ->]; done).
  split; [congruence|done|done|by rewrite Hg|intros; rewrite Hg; auto|by rewrite Hg].
Qed.

Lemma pushed_visit i j h k s :
  waiting i h k s -> j <> i ->
  (acquire (plock j);; release (plock j)) s = Ok tt (setp j (getp s j) s).
Proof.
  intros [H1 H2 H3 H4 H5 H6] Hne. pose proof (pushed_ok h H2) as Hok. rewrite <- H1 in Hok.
  rewrite (bind_Ok _ _ _ _ _ (acquire_plock j s (H5 j Hne))).
  rewrite release_visited by auto. unfold visited.
  rewrite H1, touched_pushed, <- H1, hart_put_get by done. done.
Qed.

(** The scan with addr = 0: nobody's state changes, and [i]'s lock is released
    when a zombie is found. *)
Lemma wait_scan_spec i h k hk l s :
  waiting i h k s ->
  exists s', pequiv s s' /\ wait_scan i 0 hk l s =
    match zombie_child i l s with
    | Some j => Ok (Reaped (p_pid (getp s j)))
                  (setp i (set_p_lock k (getp s i)) (put_hart (touched h) s'))
    | None => Ok (NoZombie (hk || existsb (fun j => bool_decide (p_parent (getp s j) = Some i)) l)) s'
    end.
Proof.
  revert hk s. induction l as [|j l IH]; intros hk s Hw.
  { exists s. split; [done|]. cbn. by rewrite orb_false_r. }
  unfold zombie_child. cbn [wait_scan existsb]. mstep. rewrite filter_cons.
  destruct (decide (p_parent (getp s j) = Some i)) as [Hp|Hp].
  - assert (j <> i) as Hne by (intros ->; by destruct (wt_parent _ _ _ _ Hw)).
    pose proof (pushed_visit _ j _ _ _ Hw Hne) as Hv.
    pose proof (acquire_plock j s (wt_others _ _ _ _ Hw j Hne)) as Ha.
    rewrite (bind_Ok _ _ _ _ _ Ha) in Hv. rewrite (bind_Ok _ _ _ _ _ Ha). mstep.
    rewrite state_in_plock, pid_in_plock. destruct (decide (p_state (getp s j) = ZOMBIE)) as [Hz|Hz].
    + rewrite decide_True by done. cbn [head]. exists (setp j (getp s j) s).
      split; [by apply setp_pequiv|]. mstep. cbn [negb Z.eqb andb]. mstep.
      rewrite (bind_Ok _ _ _ _ _ Hv). destruct Hw as [H1 H2 H3 H4 H5 H6].
      erewrite bind_Ok.
      2:{ apply (release_eq (plock i) _ h k H2 H3); [done|]. cbn [lk_get plock].
          by rewrite getp_setp, decide_False. }
      mstep. cbn [lk_put plock]. autorewrite with proc. rewrite getp_setp, decide_False by done. done.
    + rewrite decide_False by (by intros [_ ?]). rewrite (bind_Ok _ _ _ _ _ Hv).
      assert (pequiv s (setp j (getp s j) s)) as He by (by apply setp_pequiv).
      destruct (IH true (setp j (getp s j) s)) as (s' & Hs' & Hr); [by eapply waiting_pequiv|].
      exists s'. split; [by etransitivity|]. rewrite Hr. unfold zombie_child. destruct He as [He _].
      erewrite (list_filter_iff _ (fun j => p_parent (getp s j) = Some i /\ p_state (getp s j) = ZOMBIE))
        by (intros x; by rewrite He).
      rewrite (bool_decide_eq_true_2 _ Hp). cbn [orb]. rewrite orb_true_r, He.
      by destruct (head _); [rewrite He|].
  - rewrite decide_False by (by intros [? _]). rewrite (bool_decide_eq_false_2 _ Hp). cbn [orb].
    by apply IH.
Qed.

(** wait(0, flags) when some child of the process is a zombie. *)
Lemma wait_zombie i j flags s :
  hart_ok (hart_of s) -> plocks_free s -> c_proc (mycpu (hart_of s)) = Some i ->
  p_parent (getp s i) <> Some i -> zombie_child i procs s = Some j ->
  exists s', quiet s s' /\ wait 0 flags s = Ok (p_pid (getp s j)) s'.
Proof.
  intros Hh Hl Hc Hp Hz. unfold wait. cbn [wait_loop].
  rewrite (bind_Ok _ _ _ _ _ (curproc_eq i s Hh Hc)).
  set (s1 := put_hart (touched (hart_of s)) s).
  assert (hart_ok (hart_of s1)) as Hh1 by (by apply touched_ok).
  rewrite (bind_Ok _ _ _ _ _ (acquire_plock i s1 (Hl i))).
  assert (waiting i (touched (hart_of s)) (p_lock (getp s i)) (in_plock i s1)) as Hw.
  { split; [done|by apply touched_ok|apply Hl|by rewrite getp_in_plock| |by rewrite getp_in_plock].
    intros x Hx. rewrite getp_in_plock_ne by done. apply Hl. }
  destruct (wait_scan_spec _ _ _ false procs _ Hw) as (s2 & He & Hr).
  assert (forall x, p_parent (getp (in_plock i s1) x) = p_parent (getp s x) /\
                    p_state (getp (in_plock i s1) x) = p_state (getp s x) /\
                    p_pid (getp (in_plock i s1) x) = p_pid (getp s x)) as Hx.
  { intros x. destruct (decide (i = x)) as [->|]; [by rewrite getp_in_plock|by rewrite getp_in_plock_ne]. }
  assert (zombie_child i procs (in_plock i s1) = Some j) as Hz1.
  { rewrite <- Hz. unfold zombie_child. f_equal. apply list_filter_iff. intros x.
    by destruct (Hx x) as (-> & -> & _). }
  rewrite Hz1 in Hr. destruct (Hx j) as (_ & _ & Hpid). rewrite Hpid in Hr.
  rewrite (bind_Ok _ _ _ _ _ Hr). mstep. eexists. split; [|done].
  split; [by right; cbn; rewrite touched_twice|].
  rewrite getp_in_plock, set_p_lock_twice, set_p_lock_id. autorewrite with proc hart.
  eapply (pequiv_put_hart (touched (touched (hart_of s)))), (pequiv_setp i (getp s i)) in He.
  etransitivity; [|exact He]. unfold in_plock, s1. autorewrite with proc hart.
  by apply setp_pequiv.
Qed.
End Wait.
