(* ===== verification/SleepSpec.v ===== *)
(** * Sleep locks, by a process that finds them free

    The lock changes hands and its spin lock, taken in between, is as before. *)

From S2P Require Import Prelude Layout Spinlock Kalloc State Proc SleepLock ProcSpec.

(** A sleep lock behaves like a variable apart from the hart and the processes. *)
Class SleepLaws (l : sleepref) : Prop := {
  sl_get_put : forall k s, sl_get l (sl_put l k s) = k;
  sl_put_put : forall k k' s, sl_put l k (sl_put l k' s) = sl_put l k s;
  sl_get_hart : forall h s, sl_get l (put_hart h s) = sl_get l s;
  hart_of_sl : forall k s, hart_of (sl_put l k s) = hart_of s;
  put_hart_sl : forall h k s, put_hart h (sl_put l k s) = sl_put l k (put_hart h s);
  k_pt_sl : forall k s, k_pt (sl_put l k s) = k_pt s;
  set_pt_sl : forall pt k s, set_pt pt (sl_put l k s) = sl_put l k (set_pt pt s);
  sl_get_pt : forall pt s, sl_get l (set_pt pt s) = sl_get l s }.

#[export] Instance buflock_laws b : SleepLaws (buflock b).
Proof.
  split; try done; intros; cbn; rewrite ?getb_setb, ?decide_True by done; try done.
  by rewrite setb_setb.
Qed.

#[export] Instance inodelock_laws b : SleepLaws (inodelock b).
Proof.
  split; try done; intros; cbn; rewrite ?geti_seti, ?decide_True by done; try done.
  by rewrite seti_seti.
Qed.

#[export] Instance sl_spin_laws l `{!SleepLaws l} : LockLaws (sl_spin l).
Proof.
  split; intros; cbn [lk_get lk_put sl_spin];
    rewrite ?sl_get_put, ?sl_put_put, ?sl_get_hart, ?hart_of_sl, ?put_hart_sl; done.
Qed.

Section SleepSpec.
Context `{OT : Others} (l : sleepref) `{LL : !SleepLaws l}.

(** The lock as [pid] holds it, and as nobody does. *)
Definition taken (pid : Z) (k : sleeplock) : sleeplock := Sleeplock 1 (sl_lk k) (sl_name k) pid.
Definition freed (k : sleeplock) : sleeplock := Sleeplock 0 (sl_lk k) (sl_name k) 0.

(** The state inside the short critical section, with lock value [k]. *)
Definition in_sleep (h : hart) (k : sleeplock) (s : kst) : kst :=
  sl_put l (set_sl_lk (locked_by h (sl_lk k)) k) (put_hart (pushed h) s).

Lemma sleep_enter s :
  lock_free (sl_lk (sl_get l s)) -> acquire (sl_spin l) s = Ok tt (in_sleep (hart_of s) (sl_get l s) s).
Proof.
  intros Hl. rewrite (acquire_eq (sl_spin l)) by done. cbn [lk_get lk_put sl_spin]. by rewrite sl_get_hart.
Qed.

Lemma sleep_leave h k s :
  hart_ok h -> lock_free (sl_lk k) ->
  release (sl_spin l) (in_sleep h k s) = Ok tt (sl_put l k (put_hart (touched h) s)).
Proof.
  intros Hh Hk. rewrite (release_eq (sl_spin l) _ h (sl_lk k)); [|done|done| |].
  - cbn [lk_put sl_spin]. unfold in_sleep. rewrite put_hart_sl, hart_put_put, sl_get_put, sl_put_put. by destruct k.
  - unfold in_sleep. by rewrite hart_of_sl, hart_get_put.
  - cbn [lk_get sl_spin]. unfold in_sleep. by rewrite sl_get_put.
Qed.

Lemma curproc_in_sleep i h k s :
  hart_ok h -> c_proc (mycpu h) = Some i -> curproc (in_sleep h k s) = Ok i (in_sleep h k s).
Proof.
  intros Hh Hc. unfold in_sleep.
  assert (forall x, hart_of (sl_put l x (put_hart (pushed h) s)) = pushed h) as Ht by (intros; by rewrite hart_of_sl, hart_get_put).
  rewrite (curproc_eq i); rewrite ?Ht.
  - by rewrite touched_pushed, put_hart_sl, hart_put_put.
  - by apply pushed_ok.
  - by rewrite pushed_proc.
Qed.

Lemma get_in_sleep h k s : sl_get l (in_sleep h k s) = set_sl_lk (locked_by h (sl_lk k)) k.
Proof. unfold in_sleep. by rewrite sl_get_put. Qed.

Lemma put_in_sleep h k k' s :
  sl_put l k' (in_sleep h k s) = sl_put l k' (put_hart (pushed h) s).
Proof. unfold in_sleep. by rewrite sl_put_put. Qed.

Lemma getp_in_sleep h k s i : getp (in_sleep h k s) i = getp s i.
Proof. unfold in_sleep, getp. by rewrite k_pt_sl. Qed.

Lemma acquiresleep_eq i s :
  hart_ok (hart_of s) -> c_proc (mycpu (hart_of s)) = Some i ->
  lock_free (sl_lk (sl_get l s)) -> sl_locked (sl_get l s) = 0 ->
  acquiresleep l s =
  Ok tt (sl_put l (taken (p_pid (getp s i)) (sl_get l s)) (put_hart (touched (hart_of s)) s)).
Proof.
  intros Hh Hc Hf Hk. unfold acquiresleep. rewrite (bind_Ok _ _ _ _ _ (sleep_enter s Hf)).
  set (h := hart_of s) in *. set (k := sl_get l s) in *. unfold sleep_while. cbn [sleep_while_loop]. mstep.
  rewrite get_in_sleep. cbn [sl_locked set_sl_lk]. rewrite Hk. change (truthy 0) with false. cbv iota. mstep.
  rewrite get_in_sleep, put_in_sleep.
  assert (sl_put l (set_sl_locked 1 (set_sl_lk (locked_by h (sl_lk k)) k)) (put_hart (pushed h) s) =
          in_sleep h (set_sl_locked 1 k) s) as -> by done.
  rewrite (bind_Ok _ _ _ _ _ (curproc_in_sleep i h (set_sl_locked 1 k) s Hh Hc)). mstep.
  rewrite getp_in_sleep, get_in_sleep, put_in_sleep.
  assert (sl_put l (set_sl_pid (p_pid (getp s i)) (set_sl_lk (locked_by h (sl_lk (set_sl_locked 1 k))) (set_sl_locked 1 k)))
            (put_hart (pushed h) s) = in_sleep h (taken (p_pid (getp s i)) k) s) as -> by done.
  by rewrite (sleep_leave h (taken (p_pid (getp s i)) k) s).
Qed.

Lemma holdingsleep_eq i s :
  hart_ok (hart_of s) -> c_proc (mycpu (hart_of s)) = Some i -> lock_free (sl_lk (sl_get l s)) ->
  holdingsleep l s =
  Ok (truthy (sl_locked (sl_get l s)) && (sl_pid (sl_get l s) =? p_pid (getp s i)))
     (sl_put l (sl_get l s) (put_hart (touched (hart_of s)) s)).
Proof.
  intros Hh Hc Hf. unfold holdingsleep. rewrite (bind_Ok _ _ _ _ _ (sleep_enter s Hf)).
  set (h := hart_of s) in *. set (k := sl_get l s) in *. mstep. rewrite get_in_sleep. cbn [sl_locked set_sl_lk].
  destruct (truthy (sl_locked k)); cbn [andb]; mstep.
  - rewrite (bind_Ok _ _ _ _ _ (curproc_in_sleep i h k s Hh Hc)). mstep. rewrite get_in_sleep, getp_in_sleep.
    by rewrite (bind_Ok _ _ _ _ _ (sleep_leave h k s Hh Hf)).
  - by rewrite (bind_Ok _ _ _ _ _ (sleep_leave h k s Hh Hf)).
Qed.

(** The process table after a wakeup on channel [ch]. *)
Definition woken (ch : chan) (s : kst) (pt : ptable) : Prop :=
  pt = set_pt_proc (pt_proc pt) (k_pt s) /\
  forall j, getp (set_pt pt s) j = if decide (j ∈ procs) then wake ch (getp s j) else getp s j.

Lemma wakes_in_sleep ch h k s :
  exists pt, wakes ch procs (in_sleep h k s) = in_sleep h k (set_pt pt s) /\ woken ch s pt.
Proof.
  set (t := in_sleep h k s). assert (k_pt t = k_pt s) as Hpt by (unfold t, in_sleep; by rewrite k_pt_sl).
  pose proof (wakes_rest ch procs t) as Hw. pose proof (fun j => getp_wakes ch procs t j (NoDup_seq _ _)) as Hg.
  generalize dependent (wakes ch procs t). intros W HW Hg. rewrite Hpt in HW.
  exists (set_pt_proc (pt_proc (k_pt W)) (k_pt s)). split; [|split; [done|]].
  - etransitivity; [exact HW|]. unfold t, in_sleep. by rewrite set_pt_sl.
  - intros j. specialize (Hg j). unfold getp in *. rewrite Hpt in Hg. exact Hg.
Qed.

Lemma releasesleep_eq s :
  hart_ok (hart_of s) -> plocks_free s -> lock_free (sl_lk (sl_get l s)) ->
  exists pt, woken (sl_chan l) s pt /\ releasesleep l s =
    Ok tt (sl_put l (freed (sl_get l s)) (put_hart (touched (hart_of s)) (set_pt pt s))).
Proof.
  intros Hh Hl Hf. unfold releasesleep. rewrite (bind_Ok _ _ _ _ _ (sleep_enter s Hf)).
  set (h := hart_of s) in *. set (k := sl_get l s) in *. mstep.
  rewrite !get_in_sleep, put_in_sleep, sl_get_put, sl_put_put.
  assert (sl_put l (set_sl_pid 0 (set_sl_locked 0 (set_sl_lk (locked_by h (sl_lk k)) k))) (put_hart (pushed h) s) =
          in_sleep h (freed k) s) as -> by done.
  assert (hart_of (in_sleep h (freed k) s) = pushed h) as Ht by (unfold in_sleep; by rewrite hart_of_sl, hart_get_put).
  rewrite (bind_Ok _ _ _ _ _ (wakeup_eq (sl_chan l) (in_sleep h (freed k) s)
    ltac:(rewrite Ht; by apply pushed_ok) ltac:(intros j; rewrite getp_in_sleep; apply Hl))).
  rewrite Ht, touched_pushed, <- Ht, hart_put_get by done.
  destruct (wakes_in_sleep (sl_chan l) h (freed k) s) as (pt & -> & Hw). exists pt. split; [done|].
  by apply (sleep_leave h (freed k) (set_pt pt s)).
Qed.
End SleepSpec.

Lemma wakeup_woken `{Others} ch s : hart_ok (hart_of s) -> plocks_free s ->
  exists pt, woken ch s pt /\ wakeup ch s = Ok tt (set_pt pt (put_hart (touched (hart_of s)) s)).
Proof.
  intros Hh Hpl. rewrite wakeup_eq by done. set (u := put_hart (touched (hart_of s)) s).
  pose proof (wakes_rest ch procs u) as Hw. pose proof (fun j => getp_wakes ch procs u j (NoDup_seq _ _)) as Hg.
  generalize dependent (wakes ch procs u). intros W HW Hg.
  exists (set_pt_proc (pt_proc (k_pt W)) (k_pt s)). split; [|by rewrite HW]. split; [done|]. intros j.
  specialize (Hg j). rewrite HW in Hg. exact Hg.
Qed.

Lemma woken_locks ch s pt : woken ch s pt -> plocks_free s -> plocks_free (set_pt pt s).
Proof. intros [_ Hw] Hpl j. rewrite Hw. case_decide; [rewrite wake_lock|]; apply Hpl. Qed.
