(* ===== verification/ConsoleSpec.v ===== *)
(** * The console's line discipline

    The ring of the console, with its three 32-bit counters r, w and e, holds
    the input that a reader may take and, after it, the line being edited.
    consoleintr is proved to act on these two lists as a terminal does. *)

From S2P Require Import Prelude Layout Spinlock Kalloc State Output Proc Console ProcSpec SleepSpec.

(** ** The ring *)

(** [n] bytes of the ring from counter [a] on. *)
Definition window (buf : list Z) (a n : Z) : list Z :=
  (fun i => buf !!! Z.to_nat ((a + i) mod INPUT_BUF)) <$> seqZ 0 n.

Definition ready_len (cn : console) : Z := u32 (cn_w cn - cn_r cn).
Definition line_len (cn : console) : Z := u32 (cn_e cn - cn_w cn).

(** What a reader may take, and the line being edited. *)
Definition ready (cn : console) : list Z := window (cn_buf cn) (cn_r cn) (ready_len cn).
Definition line (cn : console) : list Z := window (cn_buf cn) (cn_w cn) (line_len cn).

Record cons_inv (cn : console) : Prop := {
  cv_size : length (cn_buf cn) = Z.to_nat INPUT_BUF;
  cv_r : 0 <= cn_r cn < 2 ^ 32;
  cv_w : 0 <= cn_w cn < 2 ^ 32;
  cv_e : 0 <= cn_e cn < 2 ^ 32;
  cv_room : ready_len cn + line_len cn <= INPUT_BUF;
  cv_line : newline ∉ line cn }.

Lemma length_window buf a n : length (window buf a n) = Z.to_nat n.
Proof. unfold window. by rewrite length_fmap, length_seqZ. Qed.

Lemma window_snoc buf a n : 0 <= n -> window buf a (n + 1) = window buf a n ++ [buf !!! Z.to_nat ((a + n) mod INPUT_BUF)].
Proof. intros Hn. unfold window. rewrite seqZ_app, fmap_app by lia. by rewrite Z.add_0_l. Qed.

Lemma window_app buf a n m : 0 <= n -> 0 <= m -> window buf a (n + m) = window buf a n ++ window buf (a + n) m.
Proof.
  intros Hn Hm. unfold window. rewrite seqZ_app, fmap_app, Z.add_0_l by lia. f_equal.
  rewrite <- (Z.add_0_r n) at 1. rewrite <- fmap_add_seqZ, <- list_fmap_compose. apply list_fmap_ext. intros j i _. cbn.
  do 3 f_equal. lia.
Qed.

(** The start may be given modulo 2^32. *)
Lemma window_u32 buf a n : window buf (u32 a) n = window buf a n.
Proof. unfold window. apply list_fmap_ext. intros j i _. do 2 f_equal. unfold u32, INPUT_BUF. zlia. Qed.

(** A write outside the window. *)
Lemma window_insert buf a n k v : 0 <= n <= k -> k < INPUT_BUF ->
  window (<[Z.to_nat ((a + k) mod INPUT_BUF) := v]> buf) a n = window buf a n.
Proof.
  intros Hn Hk. unfold window. apply list_fmap_ext. intros j i [-> Hi]%lookup_seqZ.
  apply list_lookup_total_insert_ne. unfold INPUT_BUF in *. zlia.
Qed.

Lemma ready_len_range cn : 0 <= ready_len cn < 2 ^ 32.
Proof. unfold ready_len, u32. zlia. Qed.
Lemma line_len_range cn : 0 <= line_len cn < 2 ^ 32.
Proof. unfold line_len, u32. zlia. Qed.

(** ** The operations of consoleintr on the ring *)

Definition put_char (c : Z) (cn : console) : console :=
  set_cn_e (u32 (cn_e cn + 1)) (set_cn_buf (<[Z.to_nat (cn_e cn mod INPUT_BUF) := u8 c]> (cn_buf cn)) cn).
Definition drop_char (cn : console) : console := set_cn_e (u32 (cn_e cn - 1)) cn.
Definition give_line (cn : console) : console := set_cn_w (cn_e cn) cn.

(** Everything but the newlines of the line being edited. *)
Record ring_ok (cn : console) : Prop := {
  ro_size : length (cn_buf cn) = Z.to_nat INPUT_BUF;
  ro_r : 0 <= cn_r cn < 2 ^ 32;
  ro_w : 0 <= cn_w cn < 2 ^ 32;
  ro_e : 0 <= cn_e cn < 2 ^ 32;
  ro_room : ready_len cn + line_len cn <= INPUT_BUF }.

Lemma cons_inv_iff cn : cons_inv cn <-> ring_ok cn /\ newline ∉ line cn.
Proof. split; [intros []; by split|intros [[] ?]; by split]. Qed.

Lemma used_len cn : ring_ok cn -> u32 (cn_e cn - cn_r cn) = ready_len cn + line_len cn.
Proof. intros [_ H1 H2 H3 H4]. unfold ready_len, line_len, u32, INPUT_BUF in *. zlia. Qed.

Lemma put_char_spec c cn : ring_ok cn -> ready_len cn + line_len cn < INPUT_BUF -> 0 <= c < 256 ->
  ring_ok (put_char c cn) /\ ready (put_char c cn) = ready cn /\ line (put_char c cn) = line cn ++ [c].
Proof.
  intros Hr Hroom Hc. pose proof (ready_len_range cn). pose proof (line_len_range cn).
  destruct Hr as [H1 H2 H3 H4 H5].
  assert (ready_len (put_char c cn) = ready_len cn /\ line_len (put_char c cn) = line_len cn + 1) as [E1 E2].
  { split; [done|]. unfold line_len, ready_len, put_char, u32, INPUT_BUF in *. cbn. zlia. }
  assert (cn_e cn mod INPUT_BUF = (cn_w cn + line_len cn) mod INPUT_BUF) as E3 by (unfold line_len, u32, INPUT_BUF; zlia).
  assert (cn_e cn mod INPUT_BUF = (cn_r cn + (ready_len cn + line_len cn)) mod INPUT_BUF) as E4
    by (unfold ready_len, line_len, u32, INPUT_BUF in *; zlia).
  assert (Z.to_nat (cn_e cn mod INPUT_BUF) < length (cn_buf cn))%nat as Hidx by (rewrite H1; unfold INPUT_BUF; zlia).
  split_and!.
  - split; rewrite ?E1, ?E2; cbn; [by rewrite length_insert|done|done|unfold u32; zlia|lia].
  - unfold ready. rewrite E1. cbn [put_char set_cn_e set_cn_buf cn_buf cn_r]. rewrite E4. apply window_insert; lia.
  - unfold line. rewrite E2, window_snoc by lia. cbn [put_char set_cn_e set_cn_buf cn_buf cn_w]. rewrite <- E3. f_equal.
    + rewrite E3. apply window_insert; lia.
    + rewrite list_lookup_total_insert_eq by done. by rewrite u8_small.
Qed.

Lemma drop_char_spec cn : ring_ok cn -> 0 < line_len cn ->
  ring_ok (drop_char cn) /\ ready (drop_char cn) = ready cn /\ line cn = line (drop_char cn) ++ [cons_at cn (u32 (cn_e cn - 1))].
Proof.
  intros [H1 H2 H3 H4 H5] Hl. pose proof (ready_len_range cn).
  assert (line_len (drop_char cn) = line_len cn - 1) as E2.
  { unfold line_len, drop_char, u32 in *. cbn. zlia. }
  split_and!; [split; rewrite ?E2; try done; cbn; [unfold u32; zlia|change (ready_len (drop_char cn)) with (ready_len cn); lia]|done|].
  unfold line. rewrite E2. replace (line_len cn) with (line_len cn - 1 + 1) at 1 by lia. rewrite window_snoc by lia.
  cbn [drop_char set_cn_e cn_buf cn_w]. do 2 f_equal. unfold cons_at.
  replace (u32 (cn_e cn - 1) mod INPUT_BUF) with ((cn_w cn + (line_len cn - 1)) mod INPUT_BUF)
    by (unfold line_len, u32, INPUT_BUF in *; zlia).
  destruct (lookup_lt_is_Some_2 (cn_buf cn) (Z.to_nat ((cn_w cn + (line_len cn - 1)) mod INPUT_BUF))) as [x Hx].
  { rewrite H1. unfold INPUT_BUF. zlia. }
  rewrite Hx. by apply list_lookup_total_correct.
Qed.

Lemma give_line_spec cn : ring_ok cn ->
  cons_inv (give_line cn) /\ ready (give_line cn) = ready cn ++ line cn /\ line (give_line cn) = [].
Proof.
  intros Hr. pose proof (used_len cn Hr) as Hu. pose proof (ready_len_range cn). pose proof (line_len_range cn). destruct Hr as [H1 H2 H3 H4 H5].
  assert (ready_len (give_line cn) = ready_len cn + line_len cn) as E1 by (rewrite <- Hu; done).
  assert (line_len (give_line cn) = 0) as E2 by (unfold line_len, give_line, u32; cbn; zlia).
  assert (line (give_line cn) = []) as E3 by (unfold line; by rewrite E2).
  split_and!; [|unfold ready, line; rewrite E1, window_app by lia; cbn [give_line set_cn_w cn_buf cn_r]|done].
  - split; rewrite ?E1, ?E2, ?E3; try done; [lia|apply not_elem_of_nil].
  - f_equal. rewrite <- window_u32. replace (u32 (cn_r cn + ready_len cn)) with (cn_w cn); [done|]. unfold ready_len, u32. zlia.
Qed.

(** ** What a key does *)

(** To the input [fst q] that readers may take and the line [snd q]. *)
Definition typed (c : Z) (q : list Z * list Z) : list Z * list Z :=
  if c =? ctrl_U then (fst q, [])
  else if (c =? ctrl_H) || (c =? 127) then (fst q, removelast (snd q))
  else if negb (c =? 0) && (Z.of_nat (length (fst q ++ snd q)) <? INPUT_BUF) then
    let c := if c =? 13 then newline else c in
    if (c =? newline) || (c =? ctrl_D) || (Z.of_nat (length (fst q ++ snd q)) + 1 =? INPUT_BUF)
    then (fst q ++ snd q ++ [c], []) else (fst q, snd q ++ [c])
  else q.

(** What it shows. *)
Definition erase : list Z := [8; 32; 8].
Definition echo (c : Z) (q : list Z * list Z) : list Z :=
  if c =? ctrl_U then concat (replicate (length (snd q)) erase)
  else if (c =? ctrl_H) || (c =? 127) then match snd q with [] => [] | _ => erase end
  else if negb (c =? 0) && (Z.of_nat (length (fst q ++ snd q)) <? INPUT_BUF)
  then [if c =? 13 then newline else c] else [].

Section Intr.
Context `{KI : KernelImage} `{OT : Others}.

Section Inside.
Context (S : kst) (h : hart).
Hypothesis Hhart : hart_of S = pushed h.
Hypothesis Hok : hart_ok h.
Hypothesis Hrun : pr_panicked (k_pr S) = 0.

(** Inside cons.lock, after [text] has been shown. *)
Definition at_cons (cn : console) (text : list Z) : kst :=
  set_cn cn (set_ua (set_u_out (u_out (k_ua S) ++ text) (set_u_idle (u_idle (k_ua S) - length text) (k_ua S))) S).

Lemma put_at cn text c : 0 <= c < 256 -> uartputc_sync c (at_cons cn text) = Ok tt (at_cons cn (text ++ [c])).
Proof.
  intros Hc. assert (hart_of (at_cons cn text) = pushed h) as Hh by exact Hhart.
  rewrite uartputc_sync_eq by (done || rewrite Hh; by apply pushed_ok). f_equal. unfold sent. rewrite Hh, touched_pushed, <- Hh, hart_put_get by done.
  unfold at_cons. cbn [k_ua set_cn set_ua u_out u_idle set_u_out set_u_idle]. rewrite length_app, <- app_assoc.
  replace (u_idle (k_ua S) - length text - length [c])%nat with (u_idle (k_ua S) - (length text + length [c]))%nat by lia. done.
Qed.

Lemma show_at {B} cn text c (K : unit -> M kst B) : 0 <= c < 256 -> bind (consputc c) K (at_cons cn text) = K tt (at_cons cn (text ++ [c])).
Proof.
  intros Hc. unfold consputc, BACKSPACE. destruct (Z.eqb_spec c 256); [lia|]. by rewrite (bind_Ok _ _ _ _ _ (put_at cn text c Hc)).
Qed.

Lemma erase_last cn text : consputc BACKSPACE (at_cons cn text) = Ok tt (at_cons cn (text ++ erase)).
Proof.
  unfold consputc. rewrite Z.eqb_refl, (bind_Ok _ _ _ _ _ (put_at cn text 8 ltac:(lia))).
  rewrite (bind_Ok _ _ _ _ _ (put_at cn _ 32 ltac:(lia))), (put_at cn _ 8 ltac:(lia)). by rewrite <- !app_assoc.
Qed.

Lemma erase_at {B} cn text (K : unit -> M kst B) : bind (consputc BACKSPACE) K (at_cons cn text) = K tt (at_cons cn (text ++ erase)).
Proof. by rewrite (bind_Ok _ _ _ _ _ (erase_last cn text)). Qed.

Lemma cons_at_state {B} cn text (K : console -> M kst B) : bind (gets k_cn) K (at_cons cn text) = K cn (at_cons cn text).
Proof. done. Qed.

Lemma updcn_at {B} f cn text (K : unit -> M kst B) : bind (updcn f) K (at_cons cn text) = K tt (at_cons (f cn) text).
Proof. done. Qed.

Lemma line_empty cn : ring_ok cn -> (cn_e cn =? cn_w cn) = (line_len cn =? 0).
Proof.
  intros [_ _ H1 H2 _]. unfold line_len, u32. destruct (Z.eqb_spec (cn_e cn) (cn_w cn)), (Z.eqb_spec ((cn_e cn - cn_w cn) mod 4294967296) 0); zlia.
Qed.

(** control-U removes the line. *)
Lemma kill_line_at fuel cn text : ring_ok cn -> newline ∉ line cn -> (length (line cn) < fuel)%nat ->
  exists cn', kill_line fuel (at_cons cn text) = Ok tt (at_cons cn' (text ++ concat (replicate (length (line cn)) erase))) /\
    ring_ok cn' /\ ready cn' = ready cn /\ line cn' = [] /\ cn_lock cn' = cn_lock cn.
Proof.
  revert cn text. induction fuel as [|fuel IH]; intros cn text Hr Hn Hf; [lia|]. cbn [kill_line]. rewrite cons_at_state, line_empty by done.
  pose proof (line_len_range cn) as Hl. assert (length (line cn) = Z.to_nat (line_len cn)) as Hlen by (apply length_window).
  destruct (Z.eqb_spec (line_len cn) 0) as [Hz|Hz]; cbn [negb andb].
  - exists cn. rewrite Hlen, Hz. cbn. rewrite app_nil_r. split_and!; try done. unfold line. by rewrite Hz.
  - destruct (drop_char_spec cn Hr) as (Hr' & Hrd & Hln); [lia|]. rewrite Hln in Hn, Hf, Hlen. rewrite length_app in Hf, Hlen. cbn [length] in Hf, Hlen.
    apply not_elem_of_app in Hn as [Hn1 Hn2]. rewrite not_elem_of_cons in Hn2. destruct Hn2 as [Hne _].
    destruct (Z.eqb_spec (cons_at cn (u32 (cn_e cn - 1))) newline); [congruence|]. cbn [negb].
    rewrite updcn_at, erase_at. fold (drop_char cn).
    destruct (IH (drop_char cn) (text ++ erase) Hr' Hn1) as (cn' & Hk & H1 & H2 & H3 & H4); [lia|].
    exists cn'. split_and!; [|done|congruence|done|done]. rewrite Hk, Hln, length_app, <- app_assoc. cbn [length].
    replace (length (line (drop_char cn)) + 1)%nat with (Datatypes.S (length (line (drop_char cn)))) by lia. done.
Qed.

(** The processes after the key: readers wake when there is more to read. *)
Definition readers (c : Z) (q : list Z * list Z) (s s' : kst) : Prop :=
  forall j, getp s' j = if decide (fst (typed c q) = fst q) then getp s j
                        else if decide (j ∈ procs) then wake ChCons (getp s j) else getp s j.

(** The body of consoleintr. *)
Definition intr_body (c : Z) : M kst unit :=
  if c =? ctrl_P then procdump
  else if c =? ctrl_U then kill_line (Datatypes.S (Z.to_nat INPUT_BUF))
  else if (c =? ctrl_H) || (c =? 127) then
    let! cn := gets k_cn in
    if negb (cn_e cn =? cn_w cn) then updcn drop_char;; consputc BACKSPACE else skip
  else
    let! cn := gets k_cn in
    if negb (c =? 0) && (u32 (cn_e cn - cn_r cn) <? INPUT_BUF) then
      let c := if c =? 13 then newline else c in
      consputc c;;
      updcn (put_char c);;
      let! cn := gets k_cn in
      if (c =? newline) || (c =? ctrl_D) || (cn_e cn =? u32 (cn_r cn + INPUT_BUF)) then
        updcn give_line;; wakeup ChCons
      else skip
    else skip.

(** Its result on the ring [cn]. *)
Definition keyed (c : Z) (cn : console) (t : kst) : Prop :=
  let q := (ready cn, line cn) in
  exists cn' pt, t = set_pt pt (at_cons cn' (echo c q)) /\ cons_inv cn' /\ cn_lock cn' = cn_lock cn /\
    (ready cn', line cn') = typed c q /\ readers c q S (set_pt pt S).

Lemma set_pt_at cn text : set_pt (k_pt S) (at_cons cn text) = at_cons cn text.
Proof. unfold at_cons. by destruct S. Qed.

Lemma readers_same c q : fst (typed c q) = fst q -> readers c q S (set_pt (k_pt S) S).
Proof. intros He j. rewrite decide_True by done. by destruct S. Qed.

Lemma key_kill cn : cons_inv cn -> exists t, intr_body ctrl_U (at_cons cn []) = Ok tt t /\ keyed ctrl_U cn t.
Proof.
  intros [Hr Hn]%cons_inv_iff. pose proof (line_len_range cn) as L1. pose proof (ready_len_range cn) as L2. pose proof (ro_room _ Hr) as L3.
  assert (length (line cn) = Z.to_nat (line_len cn)) as Hlen by (apply length_window).
  destruct (kill_line_at (Datatypes.S (Z.to_nat INPUT_BUF)) cn [] Hr Hn) as (cn' & Hk & H1 & H2 & H3 & H4); [lia|].
  eexists. split; [exact Hk|]. exists cn', (k_pt S). split_and!; [by rewrite set_pt_at| |done|rewrite H2, H3; done|by apply readers_same].
  apply cons_inv_iff. split; [done|]. rewrite H3. apply not_elem_of_nil.
Qed.

Lemma key_erase c cn : cons_inv cn -> c = ctrl_H \/ c = 127 -> exists t, intr_body c (at_cons cn []) = Ok tt t /\ keyed c cn t.
Proof.
  intros [Hr Hn]%cons_inv_iff Hc. pose proof (line_len_range cn).
  assert (length (line cn) = Z.to_nat (line_len cn)) as Hlen by (apply length_window).
  assert (typed c (ready cn, line cn) = (ready cn, removelast (line cn)) /\
          echo c (ready cn, line cn) = match line cn with [] => [] | _ => erase end /\
          intr_body c = (let! cn := gets k_cn in if negb (cn_e cn =? cn_w cn) then updcn drop_char;; consputc BACKSPACE else skip)) as (Ht & He & Hb)
    by (by destruct Hc as [-> | ->]).
  rewrite Hb, cons_at_state, line_empty by done. unfold keyed. rewrite Ht, He.
  destruct (Z.eqb_spec (line_len cn) 0) as [Hz|Hz]; cbn [negb].
  - assert (line cn = []) as Hnil by (unfold line; by rewrite Hz). rewrite Hnil. eexists. split; [done|]. exists cn, (k_pt S).
    split_and!; [by rewrite set_pt_at|by apply cons_inv_iff|done|by rewrite Hnil|apply readers_same; by rewrite <- Hnil, Ht].
  - destruct (drop_char_spec cn Hr) as (Hr' & Hrd & Hln); [lia|]. rewrite updcn_at.
    rewrite erase_last.
    eexists. split; [done|]. exists (drop_char cn), (k_pt S). destruct (line cn) as [|x l] eqn:El; [by destruct (line (drop_char cn))|].
    split_and!; [by rewrite set_pt_at| |done| |apply readers_same; by rewrite Ht].
    + apply cons_inv_iff. split; [done|]. intros Hin. apply Hn. rewrite Hln. apply elem_of_app. by left.
    + rewrite Hrd, Hln. by rewrite removelast_last.
Qed.

Lemma ring_full cn : ring_ok cn -> (cn_e cn =? u32 (cn_r cn + INPUT_BUF)) = (ready_len cn + line_len cn =? INPUT_BUF).
Proof.
  intros Hr. rewrite <- used_len by done. destruct Hr as [_ H1 _ H2 _]. unfold u32, INPUT_BUF.
  destruct (Z.eqb_spec (cn_e cn) ((cn_r cn + 128) mod 4294967296)), (Z.eqb_spec ((cn_e cn - cn_r cn) mod 4294967296) 128); zlia.
Qed.

Lemma length_ring cn : Z.of_nat (length (ready cn ++ line cn)) = ready_len cn + line_len cn.
Proof.
  pose proof (line_len_range cn). pose proof (ready_len_range cn).
  rewrite length_app. unfold ready, line. rewrite !length_window. lia.
Qed.

(** Giving the line to the readers. *)
Lemma give_at cn text : ring_ok cn -> plocks_free S ->
  exists pt, (updcn give_line;; wakeup ChCons) (at_cons cn text) = Ok tt (set_pt pt (at_cons (give_line cn) text)) /\ woken ChCons S pt.
Proof.
  intros Hr Hpl. rewrite updcn_at. assert (hart_of (at_cons (give_line cn) text) = pushed h) as Hh by exact Hhart.
  destruct (wakeup_woken ChCons (at_cons (give_line cn) text)) as (pt & Hw & Hs); [rewrite Hh; by apply pushed_ok|exact Hpl|].
  exists pt. split; [|exact Hw]. rewrite Hs. f_equal. by rewrite Hh, touched_pushed, <- Hh, hart_put_get.
Qed.

Lemma key_char c cn : cons_inv cn -> plocks_free S -> 0 <= c < 256 -> c <> ctrl_P -> c <> ctrl_U -> c <> ctrl_H -> c <> 127 ->
  exists t, intr_body c (at_cons cn []) = Ok tt t /\ keyed c cn t.
Proof.
  intros [Hr Hn]%cons_inv_iff Hpl Hc N1 N2 N3 N4. unfold keyed, typed, echo, intr_body. cbn [fst snd]. rewrite length_ring.
  destruct (Z.eqb_spec c ctrl_P), (Z.eqb_spec c ctrl_U), (Z.eqb_spec c ctrl_H), (Z.eqb_spec c 127); try contradiction. cbn [orb].
  rewrite cons_at_state, used_len by done. destruct (negb (c =? 0) && (ready_len cn + line_len cn <? INPUT_BUF)) eqn:E.
  2: { eexists. split; [done|]. exists cn, (k_pt S). split_and!; [by rewrite set_pt_at|by apply cons_inv_iff|done|done|].
       apply readers_same. unfold typed. cbn [fst snd]. rewrite length_ring, E.
       destruct (Z.eqb_spec c ctrl_U), (Z.eqb_spec c ctrl_H), (Z.eqb_spec c 127); try contradiction. done. }
  apply andb_true_iff in E as E'. destruct E' as [_ Hroom%Z.ltb_lt]. set (x := if c =? 13 then newline else c).
  assert (0 <= x < 256) as Hx by (unfold x, newline; case_match; lia).
  rewrite show_at, updcn_at by done. destruct (put_char_spec x cn Hr Hroom Hx) as (Hr' & Hrd & Hln).
  rewrite cons_at_state, ring_full by done. rewrite <- length_ring, Hrd, Hln, app_assoc, length_app, Nat2Z.inj_add, length_ring.
  change (Z.of_nat (length [x])) with 1. destruct ((x =? newline) || (x =? ctrl_D) || (ready_len cn + line_len cn + 1 =? INPUT_BUF)) eqn:Eg.
  - destruct (give_at (put_char x cn) [x] Hr' Hpl) as (pt & Hs & Hw). destruct (give_line_spec _ Hr') as (Hi & Hrd2 & Hln2).
    eexists. split; [exact Hs|]. exists (give_line (put_char x cn)), pt. split_and!; [done|done|done|by rewrite Hrd2, Hln2, Hrd, Hln, ?app_assoc|].
    intros j. rewrite decide_False; [apply Hw|]. unfold typed. cbn [fst snd]. rewrite length_ring, E. fold x. rewrite Eg.
    destruct (Z.eqb_spec c ctrl_U), (Z.eqb_spec c ctrl_H), (Z.eqb_spec c 127); try contradiction. cbn [orb fst].
    intros Heq%(f_equal length). rewrite !length_app in Heq. cbn in Heq. lia.
  - eexists. split; [done|]. exists (put_char x cn), (k_pt S). split_and!; [by rewrite set_pt_at| |done|by rewrite Hrd, Hln|].
    + apply cons_inv_iff. split; [done|]. rewrite Hln. rewrite not_elem_of_app, list_elem_of_singleton. split; [done|].
      intros <-. by rewrite Z.eqb_refl in Eg.
    + apply readers_same. unfold typed. cbn [fst snd]. rewrite length_ring, E. fold x. rewrite Eg.
      destruct (Z.eqb_spec c ctrl_U), (Z.eqb_spec c ctrl_H), (Z.eqb_spec c 127); try contradiction. done.
Qed.
End Inside.

(** A console that takes input. *)
Record cons_ready (s : kst) : Prop := {
  cr_hart : hart_ok (hart_of s);
  cr_locks : plocks_free s;
  cr_run : pr_panicked (k_pr s) = 0;
  cr_lock : lock_free (cn_lock (k_cn s));
  cr_inv : cons_inv (k_cn s) }.

Lemma intr_body_eq c : consoleintr c = (acquire conslock;; intr_body c;; release conslock).
Proof. done. Qed.

Lemma consoleintr_spec s c :
  cons_ready s -> 0 <= c < 256 -> c <> ctrl_P ->
  let q := (ready (k_cn s), line (k_cn s)) in
  exists s', consoleintr c s = Ok tt s' /\ cons_ready s' /\ (ready (k_cn s'), line (k_cn s')) = typed c q /\
    u_out (k_ua s') = u_out (k_ua s) ++ echo c q /\ readers c q s s'.
Proof.
  intros [Hh Hpl Hrun Hlk Hi] Hc Hp q. rewrite intr_body_eq, (bind_Ok _ _ _ _ _ (acquire_eq conslock s Hlk)).
  set (lk := cn_lock (k_cn s)) in *. set (S := put_hart (pushed (hart_of s)) s). set (cn := set_cn_lock (locked_by (hart_of s) lk) (k_cn s)).
  assert (lk_put conslock (locked_by (hart_of s) (lk_get conslock s)) S = at_cons S cn []) as ->.
  { unfold at_cons. cbn [length]. rewrite app_nil_r, Nat.sub_0_r. subst S cn. cbn. by destruct s as [? ? ? ? ? ? ? ? ? ? ? [] ? ? ?]. }
  assert (cons_inv cn) as Hi' by (by destruct Hi).
  assert (exists t, intr_body c (at_cons S cn []) = Ok tt t /\ keyed S c cn t) as (t & Ht & cn' & pt & -> & Hcn & Hcl & Hq & Hrd).
  { destruct (decide (c = ctrl_U)) as [->|]; [by eapply key_kill|]. destruct (decide (c = ctrl_H)); [eapply key_erase; eauto|].
    destruct (decide (c = 127)); [eapply key_erase; eauto|]. by apply (key_char S (hart_of s)). }
  rewrite (bind_Ok _ _ _ _ _ Ht). change (ready cn, line cn) with q in *.
  rewrite (release_eq conslock _ (hart_of s) lk) by (done || (cbn; by rewrite Hcl)). eexists. split; [reflexivity|].
  split_and!; [|exact Hq|reflexivity|exact Hrd].
  split; [by apply touched_ok| |done|done|by destruct Hcn]. intros j.
  match goal with |- lock_free (p_lock (getp ?x j)) => change (getp x j) with (getp (set_pt pt S) j) end.
  rewrite Hrd. repeat case_decide; rewrite ?wake_lock; apply Hpl.
Qed.
End Intr.
