(* ===== verification/Ring.v ===== *)
(** * The circular list of the buffer cache

    [linked nx pv x xs z]: following [nx] from [x] visits [xs] and ends in [z],
    and [pv] goes back the same way.  The cache's list is such a path from the
    head to itself. *)

From S2P Require Import Prelude Layout Spinlock State Proc SleepLock Bio.

Fixpoint linked (nx pv : nat -> nat) (x : nat) (xs : list nat) (z : nat) : Prop :=
  match xs with
  | [] => nx x = z /\ pv z = x
  | y :: ys => nx x = y /\ pv y = x /\ linked nx pv y ys z
  end.

Lemma linked_app nx pv x l1 b l2 z :
  linked nx pv x (l1 ++ b :: l2) z <-> linked nx pv x l1 b /\ linked nx pv b l2 z.
Proof.
  revert x. induction l1 as [|y l1 IH]; intros x; cbn; [tauto|]. rewrite IH. tauto.
Qed.

Lemma linked_ext nx pv nx' pv' x xs z :
  linked nx pv x xs z -> (forall y, y ∈ x :: xs -> nx' y = nx y) -> (forall y, y ∈ xs ++ [z] -> pv' y = pv y) ->
  linked nx' pv' x xs z.
Proof.
  revert x. induction xs as [|y xs IH]; intros x; cbn; intros Hl Hn Hp.
  - rewrite Hn, Hp by left. done.
  - destruct Hl as (H1 & H2 & H3). rewrite Hn, Hp by left. split_and!; [done..|].
    apply IH; [done|intros w Hw; apply Hn; by right|intros w Hw; apply Hp; by right].
Qed.

Lemma linked_first nx pv x xs z : linked nx pv x xs z -> nx x ∈ xs ++ [z].
Proof. destruct xs as [|y xs]; cbn; [intros [-> _]|intros [-> _]]; left. Qed.

Lemma linked_last nx pv x xs z : linked nx pv x xs z -> pv z ∈ x :: xs.
Proof.
  revert x. induction xs as [|y xs IH]; intros x; cbn; [intros [_ ->]; left|].
  intros (_ & _ & Hl). right. by apply IH.
Qed.

(** Function update. *)
Definition fupd (f : nat -> nat) (a b : nat) : nat -> nat := fun x => if decide (a = x) then b else f x.

(** Taking [b] out. *)
Lemma linked_unlink nx pv x l1 b l2 z :
  linked nx pv x l1 b -> linked nx pv b l2 z ->
  NoDup (x :: l1 ++ b :: l2) -> z ∉ l1 ++ b :: l2 ->
  linked (fupd nx (pv b) (nx b)) (fupd pv (nx b) (pv b)) x (l1 ++ l2) z.
Proof.
  revert x. induction l1 as [|y l1 IH]; intros x H1 H2 Hd Hz.
  - cbn in H1. destruct H1 as [_ Hp]. rewrite Hp in *. cbn [app] in *. destruct l2 as [|y l2]; cbn in H2 |- *.
    + destruct H2 as [-> _]. unfold fupd. by rewrite !decide_True.
    + destruct H2 as (Hb & Hy & Hl). rewrite Hb. unfold fupd at 1 2. rewrite !decide_True by done. split_and!; [done..|].
      apply NoDup_cons in Hd as [Hx Hd]. apply NoDup_cons in Hd as [Hb' Hd]. apply NoDup_cons in Hd as [Hy' Hd].
      eapply linked_ext; [exact Hl| |]; intros w Hw; unfold fupd; rewrite decide_False; try done.
      * intros ->. apply Hx. by right.
      * intros ->. apply elem_of_app in Hw as [Hw| ->%list_elem_of_singleton]; [done|]. apply Hz. right. left.
  - cbn in H1 |- *. destruct H1 as (Hx & Hy & Hl). apply NoDup_cons in Hd as [Hxn Hd].
    pose proof (linked_last _ _ _ _ _ Hl) as Hp. pose proof (linked_first _ _ _ _ _ H2) as Hq. split_and!.
    + unfold fupd. rewrite decide_False; [done|]. intros E. apply Hxn. rewrite <- E. apply elem_of_app. by left.
    + unfold fupd. rewrite decide_False; [done|]. intros E. rewrite E in Hq. apply NoDup_cons in Hd as [Hyn _].
      apply elem_of_app in Hq as [Hq| ->%list_elem_of_singleton]; [apply Hyn, elem_of_app; right; by right|apply Hz; left].
    + apply IH; [done|done|done|]. intros Hin. apply Hz. by right.
Qed.

(** Putting [b] after [x]. *)
Lemma linked_push nx pv x xs z b :
  linked nx pv x xs z -> NoDup (x :: xs) -> (z ∉ xs) -> (b ∉ x :: xs) -> b <> z ->
  linked (fupd (fupd nx b (nx x)) x b) (fupd (fupd pv b x) (nx x) b) x (b :: xs) z.
Proof.
  intros Hl Hd Hz Hb Hbz. pose proof (linked_first _ _ _ _ _ Hl) as Hf.
  assert (nx x <> b) as Hne.
  { intros E. rewrite E in Hf. apply elem_of_app in Hf as [Hf| ->%list_elem_of_singleton]; [apply Hb; by right|done]. }
  assert (x <> b) as Hxb by (intros ->; apply Hb; left). cbn. split_and!.
  - unfold fupd. by rewrite decide_True.
  - unfold fupd. rewrite decide_False, decide_True by done. done.
  - destruct xs as [|y ys]; cbn in Hl |- *.
    + destruct Hl as [-> _]. unfold fupd. rewrite decide_False, !decide_True by done. done.
    + destruct Hl as (Hx & Hy & Hl). rewrite Hx. unfold fupd at 1 2 3. rewrite decide_False, !decide_True by done. split_and!; [done..|].
      apply NoDup_cons in Hd as [Hxn Hd]. apply NoDup_cons in Hd as [Hyn Hd].
      eapply linked_ext; [exact Hl| |]; intros w Hw; unfold fupd; rewrite !decide_False; try done.
      * intros ->. apply Hb. by right.
      * intros ->. done.
      * intros ->. apply elem_of_app in Hw as [Hw| ->%list_elem_of_singleton]; [|done]. apply Hb. by right; right.
      * intros ->. apply elem_of_app in Hw as [Hw| ->%list_elem_of_singleton]; [done|]. apply Hz. left.
Qed.

(** ** In the state *)

Definition nxt (s : kst) (b : nat) : nat := b_next (getb s b).
Definition prv (s : kst) (b : nat) : nat := b_prev (getb s b).

(** [L] is the list, most recently used first. *)
Definition ring (s : kst) (L : list nat) : Prop := linked (nxt s) (prv s) bhead L bhead.

(** A buffer without its links. *)
Definition core (x : buf) : buf :=
  Buf (b_valid x) (b_disk x) (b_dev x) (b_blockno x) (b_lock x) (b_refcnt x) 0 0 (b_data x).

(** Two states with the same buffers, up to links. *)
Definition same_cores (s s' : kst) : Prop := forall b, core (getb s' b) = core (getb s b).

Lemma ring_ext s s' L : ring s L -> (forall b, nxt s' b = nxt s b) -> (forall b, prv s' b = prv s b) -> ring s' L.
Proof. intros H H1 H2. by eapply linked_ext. Qed.

Definition put_prev (b v : nat) (s : kst) : kst := setb b (set_b_prev v (getb s b)) s.
Definition put_next (b v : nat) (s : kst) : kst := setb b (set_b_next v (getb s b)) s.

Lemma put_prev_links b v s x : nxt (put_prev b v s) x = nxt s x /\ prv (put_prev b v s) x = fupd (prv s) b v x.
Proof. unfold nxt, prv, put_prev, fupd. rewrite getb_setb. by case_decide; subst. Qed.
Lemma put_next_links b v s x : nxt (put_next b v s) x = fupd (nxt s) b v x /\ prv (put_next b v s) x = prv s x.
Proof. unfold nxt, prv, put_next, fupd. rewrite getb_setb. by case_decide; subst. Qed.
Lemma put_prev_core b v s : same_cores s (put_prev b v s).
Proof. intros x. unfold put_prev. rewrite getb_setb. by case_decide; subst. Qed.
Lemma put_next_core b v s : same_cores s (put_next b v s).
Proof. intros x. unfold put_next. rewrite getb_setb. by case_decide; subst. Qed.

#[export] Instance same_cores_preorder : PreOrder same_cores.
Proof. split; [by intros s b|]. intros s1 s2 s3 H1 H2 b. by rewrite H2, H1. Qed.

Lemma fupd_ext f g a b x : (forall y, f y = g y) -> fupd f a b x = fupd g a b x.
Proof. intros H. unfold fupd. by case_decide. Qed.

(** Take [b] out of the list. *)
Definition unlink (b : nat) (s : kst) : kst :=
  let s1 := put_prev (nxt s b) (prv s b) s in put_next (prv s1 b) (nxt s1 b) s1.

(** Put [b] at the front. *)
Definition push_front (b : nat) (s : kst) : kst :=
  let s1 := put_prev b bhead (put_next b (nxt s bhead) s) in put_next bhead b (put_prev (nxt s1 bhead) b s1).

Lemma unlink_ring s l1 b l2 :
  ring s (l1 ++ b :: l2) -> NoDup (bhead :: l1 ++ b :: l2) -> ring (unlink b s) (l1 ++ l2) /\ same_cores s (unlink b s).
Proof.
  intros [H1 H2]%linked_app Hd. unfold unlink. set (s1 := put_prev _ _ s).
  assert (prv s1 b = prv s b /\ nxt s1 b = nxt s b) as [-> ->].
  { unfold s1. destruct (put_prev_links (nxt s b) (prv s b) s b) as [-> ->]. split; [|done]. unfold fupd. case_decide as E; [done|done]. }
  split; [|etransitivity; [apply put_prev_core|apply put_next_core]].
  pose proof (proj1 (NoDup_cons _ _) Hd) as [Hh _].
  eapply linked_ext; [by apply (linked_unlink (nxt s) (prv s) bhead l1 b l2 bhead)|..]; intros y _.
  - rewrite (proj1 (put_next_links _ _ _ _)). apply fupd_ext. intros w. apply put_prev_links.
  - rewrite (proj2 (put_next_links _ _ _ _)). apply put_prev_links.
Qed.

Lemma push_front_ring s L b :
  ring s L -> NoDup (bhead :: L) -> (b ∉ bhead :: L) -> ring (push_front b s) (b :: L) /\ same_cores s (push_front b s).
Proof.
  intros Hr Hd Hb. pose proof (proj1 (NoDup_cons _ _) Hd) as [Hh _].
  assert (b <> bhead) as Hne by (intros ->; apply Hb; left). unfold push_front.
  set (s1 := put_next b (nxt s bhead) s). set (s2 := put_prev b bhead s1).
  assert (nxt s2 bhead = nxt s bhead) as ->.
  { unfold s2, s1. rewrite (proj1 (put_prev_links _ _ _ _)), (proj1 (put_next_links _ _ _ _)).
    unfold fupd. by rewrite decide_False. }
  split.
  2:{ etransitivity; [apply put_next_core|]. etransitivity; [apply put_prev_core|].
      etransitivity; [apply put_prev_core|apply put_next_core]. }
  eapply linked_ext; [by apply (linked_push (nxt s) (prv s) bhead L bhead b)|..]; intros y _.
  - rewrite (proj1 (put_next_links _ _ _ _)). apply fupd_ext. intros w. rewrite (proj1 (put_prev_links _ _ _ _)).
    unfold s2. rewrite (proj1 (put_prev_links _ _ _ _)). apply put_next_links.
  - rewrite (proj2 (put_next_links _ _ _ _)), (proj2 (put_prev_links _ _ _ _)). apply fupd_ext. intros w.
    unfold s2. rewrite (proj2 (put_prev_links _ _ _ _)). apply fupd_ext. intros v. apply put_next_links.
Qed.

(** ** The two walks of bget *)

Section Walks.
Context (s : kst).

Definition caches (dev n : Z) (b : nat) : Prop := b_dev (getb s b) = dev /\ b_blockno (getb s b) = n.
#[export] Instance caches_dec dev n b : Decision (caches dev n b).
Proof. unfold caches. apply _. Defined.

Lemma bget_cached_spec fuel dev n x xs :
  linked (nxt s) (prv s) x xs bhead -> (bhead ∉ xs) -> (length xs < fuel)%nat ->
  bget_cached fuel (nxt s x) dev n s = Ok (head (filter (caches dev n) xs)) s.
Proof.
  revert fuel x. induction xs as [|y xs IH]; intros [|fuel] x Hl Hh Hf; cbn [length] in Hf; try lia; cbn in Hl.
  - destruct Hl as [-> _]. cbn [bget_cached]. by rewrite Nat.eqb_refl.
  - destruct Hl as (-> & _ & Hl). apply not_elem_of_cons in Hh as [Hy Hh]. cbn [bget_cached].
    destruct (Nat.eqb_spec y bhead) as [->|_]; [done|]. mstep. rewrite filter_cons.
    destruct (decide (caches dev n y)) as [[H1 H2]|Hn].
    + by rewrite H1, H2, !Z.eqb_refl.
    + assert ((b_dev (getb s y) =? dev) && (b_blockno (getb s y) =? n) = false) as ->.
      { apply andb_false_iff. rewrite !Z.eqb_neq. unfold caches in Hn. lia. }
      apply IH; [done|done|lia].
Qed.

Lemma bget_lru_spec fuel xs z :
  linked (nxt s) (prv s) bhead xs z -> (bhead ∉ xs) -> (length xs < fuel)%nat ->
  bget_lru fuel (prv s z) s = Ok (last (filter (fun b => b_refcnt (getb s b) = 0) xs)) s.
Proof.
  revert fuel z. induction xs as [|y xs IH] using rev_ind; intros [|fuel] z Hl Hh Hf; rewrite ?length_app in Hf; cbn [length] in Hf; try lia.
  - destruct Hl as [_ ->]. cbn [bget_lru]. by rewrite Nat.eqb_refl.
  - apply linked_app in Hl as [Hl [_ ->]]. apply not_elem_of_app in Hh as [Hh Hy]. cbn [bget_lru].
    destruct (Nat.eqb_spec y bhead) as [->|_]; [destruct Hy; left|]. mstep. rewrite filter_app, filter_cons.
    destruct (decide (b_refcnt (getb s y) = 0)) as [->|Hn]; [by rewrite last_app|].
    destruct (Z.eqb_spec (b_refcnt (getb s y)) 0); [done|]. rewrite filter_nil, app_nil_r. apply (IH _ y); [done|done|lia].
Qed.
End Walks.
