(* ===== verification/CacheSpec.v ===== *)
(** * The buffer cache as a view of the disk

    [cache i d s V R Hd]: process [i] works alone on device [d].  [V n] is what
    block [n] holds as the kernel sees it, [R n] the number of references to
    its buffer, and [Hd] the buffers the process has locked.  The operations
    of the cache act on [V], [R] and [Hd] only; which buffer a block sits in,
    and the order of the list, are hidden. *)

From S2P Require Import Prelude Layout Spinlock Kalloc State Proc SleepLock Bio Virtio ProcSpec SleepSpec Ring.

(** ** What the rest of the kernel sees of such an operation: nothing *)

(** The channels that the file system and the disk driver sleep on. *)
Definition fs_chan (ch : chan) : bool :=
  match ch with
  | ChBufLock _ | ChInodeLock _ | ChLog | ChDiskFree | ChBuf _ => true
  | _ => false
  end.

Definition proc_of (pt : ptable) (j : nat) : proc := default proc0 (pt_proc pt !! j).

(** Process [i] is running, no other process can run, and none waits for what
    [i] does in the file system. *)
Record alone (i : nat) (pt : ptable) : Prop := {
  al_slot : i ∈ procs;
  al_run : p_state (proc_of pt i) = RUNNING;
  al_rest : forall j, j <> i -> p_state (proc_of pt j) <> RUNNABLE /\
    (p_state (proc_of pt j) = SLEEPING -> forall ch, p_chan (proc_of pt j) = Some ch -> fs_chan ch = false);
  al_next : pt_next pt = 0 }.

(** The driver and the device between two requests. *)
Record disk_idle (v : vdisk) (pl : plic) : Prop := {
  di_lock : lock_free (vd_lock v);
  di_free : vd_free v = replicate (Z.to_nat NUM) 1;
  di_used : 0 <= vd_used_id v < 65536;
  di_avail : vd_avail_idx v = vd_used_id v;
  di_seen : vd_used_idx v = vd_used_id v mod NUM;
  di_irq : pl_pending pl = [] }.

(** Process [i] runs alone with [lvl] spin locks held, none of them a process
    lock or that of the driver. *)
Definition kready_at {lvl : Z} (i : nat) (s : kst) : Prop :=
  hart_ok (hart_of s) /\ c_proc (mycpu (hart_of s)) = Some i /\ plocks_free s /\
  c_noff (mycpu (hart_of s)) = lvl /\ alone i (k_pt s) /\ disk_idle (k_vd s) (k_pl s).
Abbreviation kready := (@kready_at 0).

(** Between [s] and [s'] only the hart's interrupt bookkeeping, sleepers that
    were woken, buffers, the disk and its driver may differ. *)
Record calm (i : nat) (s s' : kst) : Prop := {
  cm_ready : forall {lvl}, @kready_at lvl i s -> @kready_at lvl i s';
  cm_pid : p_pid (getp s' i) = p_pid (getp s i);
  cm_lg : k_lg s' = k_lg s;
  cm_sb : k_sb s' = k_sb s;
  cm_ic : k_ic s' = k_ic s;
  cm_ft : k_ft s' = k_ft s;
  cm_pipes : k_pipes s' = k_pipes s;
  cm_mem : m_mem (k_m s') = m_mem (k_m s);
  cm_kmem : m_kmem (k_m s') = m_kmem (k_m s);
  cm_as : p_pagetable (getp s' i) = p_pagetable (getp s i) }.

#[export] Instance calm_preorder i : PreOrder (calm i).
Proof.
  split; [by split|]. intros s1 s2 s3 [] []. split; try congruence. auto.
Qed.

(** What [kready_at] depends on. *)
Lemma kready_ext {lvl} i s s' : hart_ok (hart_of s') -> c_proc (mycpu (hart_of s')) = c_proc (mycpu (hart_of s)) ->
  c_noff (mycpu (hart_of s')) = c_noff (mycpu (hart_of s)) -> k_pt s' = k_pt s -> k_vd s' = k_vd s -> k_pl s' = k_pl s ->
  @kready_at lvl i s -> @kready_at lvl i s'.
Proof.
  intros Hh Hp Hn Et Ev El (_ & H2 & H3 & H4 & H5 & H6). unfold kready_at, plocks_free, getp.
  rewrite Et, Ev, El, Hp, Hn. split_and!; done.
Qed.

Lemma calm_touched i s : calm i s (put_hart (touched (hart_of s)) s).
Proof.
  split; try done. intros lvl Hk. apply (kready_ext i s); try done; rewrite hart_get_put;
    [apply touched_ok, Hk|apply touched_proc|apply touched_noff].
Qed.

Lemma calm_setb i b x s : calm i s (setb b x s).
Proof. by split. Qed.

(** A wakeup on a channel of the file system wakes nobody. *)
Lemma alone_woken i ch s pt : fs_chan ch = true -> woken ch s pt -> alone i (k_pt s) -> forall j, getp (set_pt pt s) j = getp s j.
Proof.
  intros Hch [_ Hw] [_ A2 A3 _] j. change (proc_of (k_pt s)) with (getp s) in *. rewrite Hw. case_decide; [|done]. unfold wake.
  destruct (decide (p_state (getp s j) = SLEEPING)) as [E|E]; [|by rewrite (bool_decide_eq_false_2 _ E)].
  destruct (decide (p_chan (getp s j) = Some ch)) as [E2|E2]; [|by rewrite (bool_decide_eq_false_2 _ E2), andb_false_r].
  destruct (decide (j = i)) as [->|Hne]; [congruence|]. destruct (A3 j Hne) as [_ K]. specialize (K E ch E2). congruence.
Qed.

Lemma calm_woken i ch s pt : fs_chan ch = true -> woken ch s pt -> calm i s (set_pt pt s).
Proof.
  intros Hch Hwk. pose proof Hwk as [Hpt Hw].
  assert (forall j, p_lock (getp (set_pt pt s) j) = p_lock (getp s j) /\ p_pid (getp (set_pt pt s) j) = p_pid (getp s j) /\
                    p_pagetable (getp (set_pt pt s) j) = p_pagetable (getp s j)) as Hj.
  { intros j. rewrite Hw. case_decide; [|done]. rewrite wake_lock. unfold wake. by case_match. }
  split; try done; [|apply Hj|apply Hj]. intros lvl (H1 & H2 & H3 & H4 & H5 & H6).
  pose proof (alone_woken i ch s pt Hch Hwk H5) as Hg. destruct H5 as [A1 A2 A3 A4]. split_and!; [done|done| |done| |done].
  - intros j. rewrite Hg. apply H3.
  - change (forall j, proc_of pt j = proc_of (k_pt s) j) in Hg. cbn. split; [done|by rewrite Hg|intros j; rewrite Hg; apply A3|by rewrite Hpt].
Qed.

(** Contents of block [n] of the disk. *)
Definition dblock (d : disk) (n : Z) : list Z := default (replicate (Z.to_nat BSIZE) 0) (d_blocks d !! n).

(** One write. *)
Definition disk_put (n : Z) (v : list Z) (d : disk) : disk := Disk (<[n := v]> (d_blocks d)) (d_writes d ++ [(n, v)]).

Lemma dblock_put n v d m : dblock (disk_put n v d) m = if decide (n = m) then v else dblock d m.
Proof. unfold dblock, disk_put. cbn. rewrite lookup_insert. by case_decide. Qed.

(** The blocks whose first sector the driver can name: it computes the number
    of the sector, twice that of the block, in 32 bits. *)
Definition blockno_ok (n : Z) : Prop := 0 <= n < 2 ^ 31.

(** What the cache relies on of the driver: called by a process that holds no
    spin lock, with an idle buffer, it returns after the transfer. *)
Class DiskLaws `{BlockDev} : Prop := {
  disk_read : forall i s b, kready i s -> b_disk (getb s b) = 0 -> blockno_ok (b_blockno (getb s b)) ->
    exists s', disk_rw b false s = Ok tt s' /\ calm i s s' /\ k_dk s' = k_dk s /\ bc_lock (k_bc s') = bc_lock (k_bc s) /\
      forall x, getb s' x = if decide (b = x) then set_b_data (dblock (k_dk s) (b_blockno (getb s b))) (getb s b) else getb s x;
  disk_write : forall i s b, kready i s -> b_disk (getb s b) = 0 -> blockno_ok (b_blockno (getb s b)) ->
    exists s', disk_rw b true s = Ok tt s' /\ calm i s s' /\
      k_dk s' = disk_put (b_blockno (getb s b)) (b_data (getb s b)) (k_dk s) /\ bc_lock (k_bc s') = bc_lock (k_bc s) /\
      forall x, getb s' x = getb s x }.

(** ** The cache *)

Record cache_at {lvl : Z} (i : nat) (d : Z) (s : kst) (V : Z -> list Z) (R : Z -> Z) (Hd : gmap Z nat) : Prop := {
  ca_ready : @kready_at lvl i s;
  ca_lock : lock_free (bc_lock (k_bc s));
  ca_spin : forall b, lock_free (sl_lk (b_lock (getb s b)));
  ca_ring : exists L, ring s L /\ L ≡ₚ bufs;
  ca_idle : forall b, b ∈ bufs -> b_disk (getb s b) = 0;
  ca_refcnt : forall b, b ∈ bufs ->
    b_refcnt (getb s b) = if b_dev (getb s b) =? d then R (b_blockno (getb s b)) else 0;
  ca_valid : forall b, b ∈ bufs -> b_dev (getb s b) = d ->
    b_valid (getb s b) = 1 /\ b_data (getb s b) = V (b_blockno (getb s b));
  ca_uniq : forall b b', b ∈ bufs -> b' ∈ bufs -> b_dev (getb s b) = d -> b_dev (getb s b') = d ->
    b_blockno (getb s b) = b_blockno (getb s b') -> b = b';
  ca_refs : forall n, 0 <= R n < 2 ^ 32 /\ (0 < R n -> exists b, b ∈ bufs /\ caches s d n b);
  ca_clean : forall n, R n = 0 -> V n = dblock (k_dk s) n;
  ca_held : forall n b, Hd !! n = Some b ->
    b ∈ bufs /\ caches s d n b /\ sl_locked (b_lock (getb s b)) = 1 /\
    sl_pid (b_lock (getb s b)) = p_pid (getp s i);
  ca_unheld : forall b, b ∈ bufs -> sl_locked (b_lock (getb s b)) <> 0 ->
    exists n, Hd !! n = Some b;
  ca_blocks : forall n b, Hd !! n = Some b -> blockno_ok n }.
Abbreviation cache := (@cache_at 0).

Section CacheSpec.
Context `{OT : Others} `{BD : BlockDev} `{DL : !DiskLaws}.

(** ** Critical sections of bcache.lock *)

Definition in_bc (s : kst) : kst := lk_put bcachelock (locked_by (hart_of s) (bc_lock (k_bc s))) (put_hart (pushed (hart_of s)) s).

(** Leaving it: [t] differs from the state inside in buffers only. *)
Definition out_bc (s t : kst) : kst := lk_put bcachelock (bc_lock (k_bc s)) (put_hart (touched (hart_of s)) t).

Lemma bc_enter s : lock_free (bc_lock (k_bc s)) -> acquire bcachelock s = Ok tt (in_bc s).
Proof. intros Hl. by rewrite (acquire_eq bcachelock). Qed.

Lemma bc_leave s t :
  hart_ok (hart_of s) -> lock_free (bc_lock (k_bc s)) -> hart_of t = hart_of (in_bc s) ->
  bc_lock (k_bc t) = bc_lock (k_bc (in_bc s)) -> release bcachelock t = Ok tt (out_bc s t).
Proof. intros Hh Hl Ht Hk. by apply (release_eq bcachelock). Qed.

Lemma getb_hart h s b : getb (put_hart h s) b = getb s b.
Proof. done. Qed.
Lemma getb_in_bc s b : getb (in_bc s) b = getb s b.
Proof. done. Qed.
Lemma getb_out_bc s t b : getb (out_bc s t) b = getb t b.
Proof. done. Qed.

Lemma calm_out_bc i s t : calm i (in_bc s) t -> hart_of t = hart_of (in_bc s) -> k_pt t = k_pt s -> calm i s (out_bc s t).
Proof.
  intros [] Ht Hpt. split; try done.
  - intros lvl Hk. assert (@kready_at (lvl + 1) i (in_bc s)) as Hin.
    { destruct Hk as (H1 & H2 & H3 & H4 & H5 & H6). unfold kready_at. change (hart_of (in_bc s)) with (pushed (hart_of s)).
      split_and!; [by apply pushed_ok|by rewrite pushed_proc|done|by rewrite pushed_noff, H4|done|done]. }
    apply cm_ready0 in Hin as (_ & _ & K3 & _ & K5 & K6). destruct Hk as (H1 & H2 & H3 & H4 & _).
    unfold kready_at. change (hart_of (out_bc s t)) with (touched (hart_of s)).
    split_and!; [by apply touched_ok|by rewrite touched_proc|exact K3|by rewrite touched_noff|exact K5|exact K6].
Qed.

(** ** bget *)

(** Locked buffers are referenced. *)
Definition solid (R : Z -> Z) (Hd : gmap Z nat) : Prop := forall n b, Hd !! n = Some b -> 0 < R n.

(** Fewer blocks are referenced than there are buffers. *)
Definition few (R : Z -> Z) : Prop := exists P : list Z, (length P < bhead)%nat /\ forall n, 0 < R n -> n ∈ P.

Lemma head_filter_Some {A} (P : A -> Prop) `{!forall x, Decision (P x)} l x :
  head (filter P l) = Some x -> x ∈ l /\ P x.
Proof.
  destruct (filter P l) as [|y r] eqn:E; [done|]. intros [= ->].
  assert (x ∈ filter P l) as Hx by (rewrite E; left). apply list_elem_of_filter in Hx. tauto.
Qed.

Lemma last_filter_Some {A} (P : A -> Prop) `{!forall x, Decision (P x)} l x :
  last (filter P l) = Some x -> x ∈ l /\ P x.
Proof. intros Hx%last_Some_elem_of. apply list_elem_of_filter in Hx. tauto. Qed.

Lemma head_filter_None {A} (P : A -> Prop) `{!forall x, Decision (P x)} l :
  head (filter P l) = None -> forall x, x ∈ l -> ~ P x.
Proof.
  destruct (filter P l) as [|y r] eqn:E; [|done]. intros _ x Hx HP.
  assert (x ∈ filter P l) as Hf by (by apply list_elem_of_filter). rewrite E in Hf. by apply elem_of_nil in Hf.
Qed.

Section Ops.
Context (i : nat) (d : Z).

Lemma free_buffer s V R Hd L :
  cache i d s V R Hd -> L ≡ₚ bufs -> few R ->
  exists b, last (filter (fun b => b_refcnt (getb s b) = 0) L) = Some b.
Proof.
  intros Hc HL (P & HP & Hin). destruct (last _) as [b|] eqn:E; [by exists b|exfalso].
  apply last_None in E.
  assert (forall b, b ∈ bufs -> b_dev (getb s b) = d /\ 0 < R (b_blockno (getb s b))) as Hall.
  { intros b Hb. pose proof (ca_refcnt _ _ _ _ _ _ Hc b Hb) as Hr.
    assert (b_refcnt (getb s b) <> 0) as Hne.
    { intros H0. assert (b ∈ filter (fun b => b_refcnt (getb s b) = 0) L) as Hf by (apply list_elem_of_filter; by rewrite HL).
      rewrite E in Hf. by apply elem_of_nil in Hf. }
    destruct (Z.eqb_spec (b_dev (getb s b)) d); [|done]. split; [done|].
    pose proof (proj1 (ca_refs _ _ _ _ _ _ Hc (b_blockno (getb s b)))). lia. }
  assert ((fun b => b_blockno (getb s b)) <$> bufs ⊆+ P) as Hsub.
  { apply NoDup_submseteq.
    - apply NoDup_fmap_2_strong; [|apply NoDup_seq]. intros b b' Hb Hb' He.
      by apply (ca_uniq _ _ _ _ _ _ Hc b b' Hb Hb' (proj1 (Hall b Hb)) (proj1 (Hall b' Hb'))).
    - intros n (b & -> & Hb)%list_elem_of_fmap. by apply Hin, Hall. }
  apply submseteq_length in Hsub. rewrite length_fmap in Hsub. unfold bufs in Hsub. rewrite length_seq in Hsub. lia.
Qed.

Definition hit_buf (pid : Z) (x : buf) : buf :=
  set_b_lock (taken pid (b_lock x)) (set_b_refcnt (u32 (b_refcnt x + 1)) x).
Definition miss_buf (pid n : Z) (x : buf) : buf :=
  set_b_lock (taken pid (b_lock x)) (set_b_refcnt 1 (set_b_valid 0 (set_b_blockno n (set_b_dev d x)))).

Lemma bget_tail s b y :
  kready i s -> lock_free (bc_lock (k_bc s)) -> lock_free (sl_lk (b_lock y)) -> sl_locked (b_lock y) = 0 ->
  exists s', (release bcachelock;; acquiresleep (buflock b);; ret b : M kst nat) (setb b y (in_bc s)) = Ok b s' /\
    calm i s s' /\ k_dk s' = k_dk s /\ bc_lock (k_bc s') = bc_lock (k_bc s) /\
    forall x, getb s' x = if decide (b = x) then set_b_lock (taken (p_pid (getp s i)) (b_lock y)) y else getb s x.
Proof.
  intros Hk Hl Hy Hf. pose proof Hk as (Hh & Hcur & Hpl & _). set (t := setb b y (in_bc s)).
  rewrite (bind_Ok _ _ _ _ _ (bc_leave s t Hh Hl eq_refl eq_refl)). set (t1 := out_bc s t).
  assert (calm i s t1) as Hc by (apply calm_out_bc; [apply calm_setb|done|done]).
  destruct (cm_ready _ _ _ Hc Hk) as (Hh1 & Hcur1 & Hpl1 & _).
  assert (sl_get (buflock b) t1 = b_lock y) as Hg.
  { cbn [sl_get buflock]. unfold t1. rewrite getb_out_bc. unfold t. by rewrite getb_setb, decide_True. }
  rewrite (bind_Ok _ _ _ _ _ (acquiresleep_eq (buflock b) i t1 Hh1 Hcur1 ltac:(by rewrite Hg) ltac:(by rewrite Hg))), Hg.
  eexists. split; [done|]. split_and!; [|done|done|].
  - etransitivity; [exact Hc|]. etransitivity; [apply (calm_touched i t1)|]. apply calm_setb.
  - intros x. cbn [sl_put buflock]. rewrite getb_setb, !getb_hart. unfold t1. rewrite !getb_out_bc. unfold t. rewrite !getb_setb, (decide_True (P := b = b)) by done. by case_decide.
Qed.

Lemma bget_spec n s V R Hd :
  cache i d s V R Hd -> solid R Hd -> Hd !! n = None -> 0 < R n \/ few R ->
  exists b s', bget d n s = Ok b s' /\ calm i s s' /\ k_dk s' = k_dk s /\ bc_lock (k_bc s') = bc_lock (k_bc s) /\ b ∈ bufs /\
    exists y, (forall x, getb s' x = if decide (b = x) then y else getb s x) /\
      ((caches s d n b /\ y = hit_buf (p_pid (getp s i)) (getb s b)) \/
       ((forall b', b' ∈ bufs -> ~ caches s d n b') /\ b_refcnt (getb s b) = 0 /\ y = miss_buf (p_pid (getp s i)) n (getb s b))).
Proof.
  intros Hc Hsol Hn Hroom. pose proof Hc as [Hr Hl Hsp (L & HL & HLp) _ _ _ _ Hrefs _ Hheld Hunh Hbk].
  assert (NoDup (bhead :: L)) as Hnd.
  { constructor; [|rewrite HLp; apply NoDup_seq]. rewrite HLp. intros Hin%elem_of_seq. unfold bhead in Hin. lia. }
  apply NoDup_cons in Hnd as [Hnh _].
  assert (length L < S bhead)%nat as Hlen by (rewrite HLp; unfold bufs; rewrite length_seq; lia).
  assert (forall b, b ∈ bufs -> (forall m, Hd !! m <> Some b) -> sl_locked (b_lock (getb s b)) = 0) as Hunl.
  { intros b Hb Hno. destruct (Z.eq_dec (sl_locked (b_lock (getb s b))) 0); [done|]. destruct (Hunh b Hb) as [m Hm]; [done|]. by destruct (Hno m). }
  unfold bget. rewrite (bind_Ok _ _ _ _ _ (bc_enter s Hl)). mstep. change (b_next (getb (in_bc s) bhead)) with (nxt (in_bc s) bhead).
  rewrite (bind_Ok _ _ _ _ _ (bget_cached_spec (in_bc s) (S bhead) d n bhead L HL Hnh Hlen)).
  change (filter (caches (in_bc s) d n) L) with (filter (caches s d n) L).
  destruct (head (filter (caches s d n) L)) as [b|] eqn:Eh.
  - apply head_filter_Some in Eh as [Hb Hca]. rewrite HLp in Hb. unfold updb. mstep. rewrite getb_in_bc.
    destruct (bget_tail s b (set_b_refcnt (u32 (b_refcnt (getb s b) + 1)) (getb s b)) Hr Hl (Hsp b)) as (s' & Hs' & Hcalm & Hdk & Hlk & Hg).
    { apply Hunl; [done|]. intros m Hm. destruct (Hheld m b Hm) as (_ & [_ Hbn] & _). destruct Hca as [_ Hbn']. congruence. }
    exists b, s'. split_and!; [exact Hs'|done..|]. eexists. split; [exact Hg|]. by left.
  - mstep. change (b_prev (getb (in_bc s) bhead)) with (prv (in_bc s) bhead).
    rewrite (bind_Ok _ _ _ _ _ (bget_lru_spec (in_bc s) (S bhead) L bhead HL Hnh Hlen)).
    change (filter (fun b => b_refcnt (getb (in_bc s) b) = 0) L) with (filter (fun b => b_refcnt (getb s b) = 0) L).
    assert (forall b', b' ∈ bufs -> ~ caches s d n b') as Hmiss.
    { intros b' Hb'. apply (head_filter_None _ _ Eh). by rewrite HLp. }
    assert (few R) as Hfew.
    { destruct Hroom as [H0|]; [|done]. destruct (proj2 (Hrefs n) H0) as (b' & Hb' & Hca). by destruct (Hmiss b'). }
    destruct (free_buffer s V R Hd L Hc HLp Hfew) as [b Hb]. rewrite Hb. apply last_filter_Some in Hb as [Hbl Hb0].
    rewrite HLp in Hbl. unfold updb. mstep. rewrite !getb_setb, !decide_True, !setb_setb by done. rewrite getb_in_bc.
    destruct (bget_tail s b (set_b_refcnt 1 (set_b_valid 0 (set_b_blockno n (set_b_dev d (getb s b))))) Hr Hl (Hsp b)) as (s' & Hs' & Hcalm & Hdk & Hlk & Hg).
    { apply Hunl; [done|]. intros m Hm. destruct (Hheld m b Hm) as (_ & [Hdev Hbn] & _ & _). pose proof (Hsol m b Hm) as Hm1.
      pose proof (ca_refcnt _ _ _ _ _ _ Hc b Hbl) as Hrc. rewrite Hdev, Z.eqb_refl, Hbn in Hrc. lia. }
    exists b, s'. split_and!; [exact Hs'|done..|]. eexists. split; [exact Hg|]. by right.
Qed.

(** ** Keeping the invariant when one buffer changes *)

Definition upd {A} (f : Z -> A) (n : Z) (v : A) : Z -> A := fun m => if decide (n = m) then v else f m.

Lemma upd_same {A} (f : Z -> A) n v : upd f n v n = v.
Proof. unfold upd. by rewrite decide_True. Qed.
Lemma upd_other {A} (f : Z -> A) n v m : n <> m -> upd f n v m = f m.
Proof. intros H. unfold upd. by rewrite decide_False. Qed.

(** The new contents [y] of buffer [b], for block [n]. *)
Record fits (s s' : kst) (R : Z -> Z) (Hd : gmap Z nat) (n : Z) (b : nat) (y : buf) (v : list Z) (r : Z) (held : bool) : Prop := {
  ft_block : b_dev y = d /\ b_blockno y = n;
  ft_links : b_next y = b_next (getb s b) /\ b_prev y = b_prev (getb s b);
  ft_idle : b_disk y = 0 /\ lock_free (sl_lk (b_lock y));
  ft_data : b_valid y = 1 /\ b_data y = v;
  ft_refs : b_refcnt y = r /\ 0 <= r < 2 ^ 32;
  ft_alone : forall b', b' ∈ bufs -> b' <> b -> ~ caches s d n b';
  ft_evict : b_dev (getb s b) = d -> b_blockno (getb s b) <> n ->
    R (b_blockno (getb s b)) = 0 /\ Hd !! b_blockno (getb s b) = None;
  ft_clean : r = 0 -> v = dblock (k_dk s') n;
  ft_held : if held then sl_locked (b_lock y) = 1 /\ sl_pid (b_lock y) = p_pid (getp s i)
            else sl_locked (b_lock y) = 0;
  ft_blocks : held = true -> blockno_ok n }.

Lemma cache_upd {lvl} s s' V R Hd n b y v r held :
  @cache_at lvl i d s V R Hd -> calm i s s' -> bc_lock (k_bc s') = bc_lock (k_bc s) -> b ∈ bufs ->
  (forall x, getb s' x = if decide (b = x) then y else getb s x) ->
  (forall m, m <> n -> dblock (k_dk s') m = dblock (k_dk s) m) ->
  fits s s' R Hd n b y v r held ->
  @cache_at lvl i d s' (upd V n v) (upd R n r) (if held then <[n := b]> Hd else delete n Hd).
Proof.
  intros Hc Hcalm Hlk Hb Hg Hdk [[F1 F2] [F3 F4] [F5 F6] [F7 F8] [F9 F10] F11 F12 F13 F14 F15].
  pose proof Hc as [Hr Hl Hsp (L & HL & HLp) Hidle Hrc Hval Hun Hrefs Hcl Hheld Hunh Hbk].
  assert (forall x, getb s' x = y /\ x = b \/ getb s' x = getb s x /\ x <> b) as Hgx.
  { intros x. rewrite Hg. case_decide; subst; auto. }
  assert (forall x, x ∈ bufs -> x <> b -> b_dev (getb s x) = d -> b_blockno (getb s x) <> n) as Hnot.
  { intros x Hx Hxb Hdx Hnx. by apply (F11 x Hx Hxb). }
  assert (forall m, m <> n -> Hd !! m = Some b -> False) as Hgone.
  { intros m Hm Hmb. destruct (Hheld m b Hmb) as (_ & [Hd1 Hd2] & _).
    destruct F12 as [_ Hno]; [done|congruence|]. congruence. }
  split.
  - by apply (cm_ready _ _ _ Hcalm).
  - by rewrite Hlk.
  - intros x. destruct (Hgx x) as [[-> _]|[-> _]]; auto.
  - exists L. split; [|done]. apply (ring_ext s); [done|..]; intros x; unfold nxt, prv;
      destruct (Hgx x) as [[-> ->]|[-> _]]; done.
  - intros x Hx. destruct (Hgx x) as [[-> _]|[-> _]]; auto.
  - intros x Hx. destruct (Hgx x) as [[-> _]|[-> Hxb]].
    + rewrite F1, Z.eqb_refl, F2. by rewrite upd_same.
    + rewrite Hrc by done. destruct (Z.eqb_spec (b_dev (getb s x)) d) as [E|]; [|done].
      rewrite upd_other; [done|]. intros E2. by apply (Hnot x).
  - intros x Hx. destruct (Hgx x) as [[-> _]|[-> Hxb]]; intros E.
    + rewrite F2, upd_same. done.
    + rewrite upd_other; [auto|]. intros E2. by apply (Hnot x).
  - intros x x' Hx Hx'. destruct (Hgx x) as [[-> ->]|[-> Hxb]], (Hgx x') as [[-> ->]|[-> Hxb']]; intros E1 E2 E3; auto.
    + exfalso. apply (Hnot x' Hx' Hxb' E2). congruence.
    + exfalso. apply (Hnot x Hx Hxb E1). congruence.
  - intros m. destruct (decide (n = m)) as [->|Hne].
    + rewrite upd_same. split; [done|]. intros _. exists b. split; [done|]. unfold caches. by rewrite Hg, decide_True.
    + rewrite upd_other by done. destruct (Hrefs m) as [H1 H2]. split; [done|]. intros Hm.
      destruct (H2 Hm) as (x & Hx & [Hc1 Hc2]). exists x. split; [done|]. unfold caches. rewrite Hg.
      rewrite decide_False; [done|]. intros ->. rewrite <- Hc2 in Hm. destruct F12 as [H0 _]; [done|congruence|lia].
  - intros m. destruct (decide (n = m)) as [->|Hne]; [by rewrite !upd_same|].
    rewrite !upd_other, Hdk by done. auto.
  - intros m x Hm. rewrite (cm_pid _ _ _ Hcalm). destruct (decide (n = m)) as [->|Hne].
    + destruct held; [|by rewrite lookup_delete_eq in Hm].
      rewrite lookup_insert_eq in Hm. injection Hm as <-. destruct F14 as [? ?].
      unfold caches. rewrite Hg, decide_True by done. done.
    + assert (Hd !! m = Some x) as Hm'.
      { destruct held; [by rewrite lookup_insert_ne in Hm|by rewrite lookup_delete_ne in Hm]. }
      assert (x <> b) by (intros ->; by apply (Hgone m)). unfold caches. rewrite Hg, decide_False by done. by apply Hheld.
  - intros x Hx. destruct (Hgx x) as [[-> ->]|[-> Hxb]]; intros Hlkd.
    + exists n. destruct held; [apply lookup_insert_eq|done].
    + destruct (Hunh x Hx Hlkd) as [m Hm]. exists m.
      assert (n <> m).
      { intros <-. destruct (Hheld n x Hm) as (_ & [H1 H2] & _). by apply (Hnot x). }
      destruct held; [by rewrite lookup_insert_ne|by rewrite lookup_delete_ne].
  - intros m x Hm. destruct held; [|apply lookup_delete_Some in Hm as [_ Hm]; by eapply Hbk].
    apply lookup_insert_Some in Hm as [[<- _]|[_ Hm]]; [auto|by eapply Hbk].
Qed.

#[export] Instance cache_proper {lvl} s :
  Proper (pointwise_relation Z eq ==> pointwise_relation Z eq ==> eq ==> iff) (@cache_at lvl i d s).
Proof.
  assert (forall V V' R R' Hd, pointwise_relation Z eq V V' -> pointwise_relation Z eq R R' ->
            @cache_at lvl i d s V R Hd -> @cache_at lvl i d s V' R' Hd) as H.
  { intros V V' R R' Hd HV HR []. split; try done.
    - intros b Hb. rewrite <- HR. auto.
    - intros b Hb He. rewrite <- HV. auto.
    - intros n. rewrite <- HR. auto.
    - intros n. rewrite <- HR, <- HV. auto.
    }
  intros V V' HV R R' HR Hd ? <-. split; apply H; done.
Qed.

Lemma upd_id {A} (f : Z -> A) n : pointwise_relation Z eq (upd f n (f n)) f.
Proof. intros m. unfold upd. by case_decide; subst. Qed.

Lemma upd_eq {A} (f : Z -> A) n v : f n = v -> pointwise_relation Z eq (upd f n v) f.
Proof. intros <-. apply upd_id. Qed.

Lemma upd_upd {A} (f : Z -> A) n v w : pointwise_relation Z eq (upd (upd f n v) n w) (upd f n w).
Proof. intros m. unfold upd. by case_decide. Qed.

Lemma held_buf {lvl} s V R Hd n b :
  @cache_at lvl i d s V R Hd -> Hd !! n = Some b ->
  b ∈ bufs /\ caches s d n b /\ b_data (getb s b) = V n /\ b_valid (getb s b) = 1 /\ b_refcnt (getb s b) = R n /\ 0 <= R n < 2 ^ 32 /\
  b_lock (getb s b) = taken (p_pid (getp s i)) (b_lock (getb s b)) /\
  (forall b', b' ∈ bufs -> b' <> b -> ~ caches s d n b').
Proof.
  intros Hc Hn. destruct (ca_held _ _ _ _ _ _ Hc n b Hn) as (Hb & [H1 H2] & H3 & H4).
  destruct (ca_valid _ _ _ _ _ _ Hc b Hb H1) as [H6 H7]. rewrite H2 in H7.
  pose proof (ca_refcnt _ _ _ _ _ _ Hc b Hb) as H8. rewrite H1, Z.eqb_refl, H2 in H8.
  pose proof (proj1 (ca_refs _ _ _ _ _ _ Hc n)). split_and!; try done; try lia.
  - unfold taken. rewrite <- H4. destruct (b_lock (getb s b)); cbn in *. by rewrite H3.
  - intros b' Hb' Hne [H9 H10]. apply Hne. apply (ca_uniq _ _ _ _ _ _ Hc); congruence.
Qed.

(** ** bread *)

Lemma bread_spec n s V R Hd :
  cache i d s V R Hd -> solid R Hd -> Hd !! n = None -> 0 < R n \/ few R -> R n < 2 ^ 32 - 1 -> blockno_ok n ->
  exists b s', bread d n s = Ok b s' /\ calm i s s' /\ k_dk s' = k_dk s /\
    cache i d s' V (upd R n (R n + 1)) (<[n := b]> Hd).
Proof.
  intros Hc Hsol Hn Hroom Hmax Hno. destruct (bget_spec n s V R Hd Hc Hsol Hn Hroom) as (b & s1 & Hs1 & Hcalm & Hdk & Hlk & Hb & y & Hg & Hy).
  pose proof Hc as [Hr Hl Hsp (L & HL & HLp) Hidle Hrc Hval Hun Hrefs Hcl Hheld Hunh Hbk].
  unfold bread. rewrite (bind_Ok _ _ _ _ _ Hs1). mstep. rewrite Hg, decide_True by done.
  destruct Hy as [[[H1 H2] ->]|(Hmiss & H0 & ->)].
  - destruct (Hval b Hb H1) as [Hv Hdata]. cbn [b_valid hit_buf set_b_lock set_b_refcnt]. rewrite Hv. cbn [truthy Z.eqb negb]. mstep.
    exists b, s1. split_and!; [done..|].
    pose proof (cache_upd s s1 V R Hd n b _ (V n) (R n + 1) true Hc Hcalm Hlk Hb Hg) as HC.
    rewrite upd_id in HC. apply HC; clear HC; [by rewrite Hdk|]. pose proof (Hrc b Hb) as Hrb. rewrite H1, Z.eqb_refl, H2 in Hrb.
    pose proof (proj1 (Hrefs n)). split; cbn; try done.
    + split; [auto|apply Hsp].
    + by rewrite Hv, Hdata, H2.
    + rewrite Hrb, u32_small by lia. lia.
    + intros b' Hb' Hne [? ?]. apply Hne, Hun; congruence.
    + lia.
  - cbn [b_valid miss_buf set_b_lock set_b_refcnt set_b_valid]. cbn [truthy Z.eqb negb].
    assert (R n = 0) as HR0.
    { destruct (Hrefs n) as [Hge Hex]. destruct (Z.eq_dec (R n) 0); [done|]. destruct Hex as (b' & Hb' & Hca); [lia|]. by destruct (Hmiss b'). }
    destruct (disk_read i s1 b) as (s2 & Hs2 & Hcalm2 & Hdk2 & Hlk2 & Hg2).
    { by apply (cm_ready _ _ _ Hcalm). } { rewrite Hg, decide_True by done. cbn. auto. } { rewrite Hg, decide_True by done. exact Hno. }
    rewrite bind_assoc, (bind_Ok _ _ _ _ _ Hs2). unfold updb. mstep. rewrite !Hg2, !Hg, !decide_True by done.
    set (y := set_b_valid 1 _). exists b. eexists. split; [done|].
    assert (calm i s (setb b y s2)) as Hcalm3 by (do 2 (etransitivity; [eassumption|]); apply calm_setb).
    split_and!; [done|by cbn; rewrite Hdk2|].
    assert (forall x, getb (setb b y s2) x = if decide (b = x) then y else getb s x) as Hg3.
    { intros x. rewrite getb_setb. case_decide; [done|]. rewrite Hg2, decide_False, Hg, decide_False by done. done. }
    assert (bc_lock (k_bc (setb b y s2)) = bc_lock (k_bc s)) as Hlk3 by (cbn; congruence).
    pose proof (cache_upd s (setb b y s2) V R Hd n b y (V n) (R n + 1) true Hc Hcalm3 Hlk3 Hb Hg3) as HC.
    rewrite upd_id in HC. apply HC; clear HC; [cbn; by rewrite Hdk2, Hdk|].
    pose proof (Hrc b Hb) as Hrb. rewrite H0 in Hrb. split; cbn; try done.
    + split; [auto|apply Hsp].
    + split; [done|]. rewrite Hdk. by rewrite (Hcl n HR0).
    + lia.
    + intros b' Hb' _. by apply Hmiss.
    + intros E _. rewrite E, Z.eqb_refl in Hrb. split; [done|].
      destruct (Hd !! b_blockno (getb s b)) as [z|] eqn:Ez; [|done]. apply Hsol in Ez. lia.
    + lia.
Qed.

(** ** Changing a buffer the process has locked *)

(** Any change of a locked buffer that keeps its identity. *)
Lemma held_upd {lvl} s s' V R Hd n b y v r :
  @cache_at lvl i d s V R Hd -> Hd !! n = Some b -> calm i s s' -> bc_lock (k_bc s') = bc_lock (k_bc s) ->
  (forall x, getb s' x = if decide (b = x) then y else getb s x) ->
  (forall m, m <> n -> dblock (k_dk s') m = dblock (k_dk s) m) ->
  y = set_b_data v (set_b_refcnt r (getb s b)) -> 0 <= r < 2 ^ 32 -> (r = 0 -> v = dblock (k_dk s') n) ->
  @cache_at lvl i d s' (upd V n v) (upd R n r) Hd.
Proof.
  intros Hc Hn Hcalm Hlk Hg Hdk -> Hrr Hclean. destruct (held_buf _ _ _ _ _ _ Hc Hn) as (Hb & [H1 H2] & H3 & H4 & H5 & H6 & H7 & H8).
  rewrite <- (insert_id Hd n b Hn). apply (cache_upd s s' V R Hd n b _ v r true Hc Hcalm Hlk Hb Hg Hdk).
  split; cbn; try done.
  - split; [by apply (ca_idle _ _ _ _ _ _ Hc)|apply (ca_spin _ _ _ _ _ _ Hc)].
  - exact (conj (f_equal sl_locked H7) (f_equal sl_pid H7)).
  - intros _. by apply (ca_blocks _ _ _ _ _ _ Hc n b).
Qed.

Lemma bdata_spec s V R Hd n b v :
  cache i d s V R Hd -> Hd !! n = Some b -> 0 < R n ->
  cache i d (setb b (set_b_data v (getb s b)) s) (upd V n v) R Hd.
Proof.
  intros Hc Hn Hpos. destruct (held_buf _ _ _ _ _ _ Hc Hn) as (Hb & [H1 H2] & H3 & H4 & H5 & H6 & H7 & H8).
  rewrite <- (upd_id R n). apply (held_upd s _ V R Hd n b (set_b_data v (getb s b)) v (R n) Hc Hn); [apply calm_setb|done|intros x; apply getb_setb|done| |lia|lia].
  rewrite <- H5. by destruct (getb s b).
Qed.

Lemma same_upd_id s s' V R Hd n b :
  cache i d s V R Hd -> Hd !! n = Some b -> calm i s s' -> bc_lock (k_bc s') = bc_lock (k_bc s) ->
  (forall x, getb s' x = getb s x) -> (forall m, m <> n -> dblock (k_dk s') m = dblock (k_dk s) m) ->
  (R n = 0 -> V n = dblock (k_dk s') n) ->
  cache i d s' V R Hd.
Proof.
  intros Hc Hn Hcalm Hlk Hg Hdk Hcl. destruct (held_buf _ _ _ _ _ _ Hc Hn) as (Hb & [H1 H2] & H3 & H4 & H5 & H6 & H7 & H8).
  rewrite <- (upd_id V n), <- (upd_id R n).
  apply (held_upd s s' V R Hd n b (getb s b) (V n) (R n) Hc Hn Hcalm Hlk); [|done| |lia|done].
  - intros x. rewrite Hg. by case_decide; subst.
  - rewrite <- H3, <- H5. by destruct (getb s b).
Qed.

Lemma holding_spec s V R Hd n b :
  cache i d s V R Hd -> Hd !! n = Some b ->
  exists s', holdingsleep (buflock b) s = Ok true s' /\ calm i s s' /\ k_dk s' = k_dk s /\ cache i d s' V R Hd /\
    forall x, getb s' x = getb s x.
Proof.
  intros Hc Hn. pose proof (ca_ready _ _ _ _ _ _ Hc) as (Hh & Hcur & Hpl & Hdr).
  destruct (held_buf _ _ _ _ _ _ Hc Hn) as (Hb & [H1 H2] & H3 & H4 & H5 & H6 & H7 & H8).
  rewrite (holdingsleep_eq (buflock b) i s Hh Hcur (ca_spin _ _ _ _ _ _ Hc b)).
  assert (truthy (sl_locked (sl_get (buflock b) s)) && (sl_pid (sl_get (buflock b) s) =? p_pid (getp s i)) = true) as ->.
  { change (sl_get (buflock b) s) with (b_lock (getb s b)). rewrite H7. cbn [sl_locked sl_pid taken]. by rewrite Z.eqb_refl. }
  set (s' := sl_put _ _ _). assert (calm i s s') as Hcalm by (etransitivity; [apply calm_touched|apply calm_setb]).
  assert (forall x, getb s' x = getb s x) as Hg.
  { intros x. unfold s'. cbn [sl_put sl_get buflock]. rewrite getb_setb, !getb_hart. case_decide; subst; [by destruct (getb s x)|done]. }
  exists s'. split_and!; [done..| |done]. eapply same_upd_id; eauto. apply (ca_clean _ _ _ _ _ _ Hc).
Qed.

Lemma bwrite_spec s V R Hd n b :
  cache i d s V R Hd -> Hd !! n = Some b ->
  exists s', bwrite b s = Ok tt s' /\ calm i s s' /\ k_dk s' = disk_put n (V n) (k_dk s) /\ cache i d s' V R Hd.
Proof.
  intros Hc Hn. unfold bwrite. destruct (holding_spec s V R Hd n b Hc Hn) as (s1 & Hs1 & Hcalm & Hdk & Hc1 & Hg).
  rewrite (bind_Ok _ _ _ _ _ Hs1). cbn [negb].
  destruct (held_buf _ _ _ _ _ _ Hc1 Hn) as (Hb & [H1 H2] & H3 & H4 & H5 & H6 & H7 & H8).
  destruct (disk_write i s1 b) as (s2 & Hs2 & Hcalm2 & Hdk2 & Hlk2 & Hg2);
    [apply (ca_ready _ _ _ _ _ _ Hc1)|by apply (ca_idle _ _ _ _ _ _ Hc1)|rewrite H2; by apply (ca_blocks _ _ _ _ _ _ Hc1 n b)|]. rewrite H2, H3, Hdk in Hdk2.
  exists s2. split_and!; [done|by etransitivity|done|].
  apply (same_upd_id s1 s2 V R Hd n b Hc1 Hn Hcalm2 Hlk2 Hg2).
  - intros m Hm. rewrite Hdk2, dblock_put, decide_False by done. by rewrite Hdk.
  - intros _. by rewrite Hdk2, dblock_put, decide_True.
Qed.

(** Changing the reference count in a critical section of bcache.lock. *)
Lemma ref_section {lvl} (f : Z -> Z) s V R Hd n b :
  @cache_at lvl i d s V R Hd -> Hd !! n = Some b -> (u32 (f (R n)) = 0 -> V n = dblock (k_dk s) n) ->
  exists s', (acquire bcachelock;; updb b (fun x => set_b_refcnt (u32 (f (b_refcnt x))) x);; release bcachelock : M kst unit) s = Ok tt s' /\
    calm i s s' /\ k_dk s' = k_dk s /\ hart_of s' = touched (hart_of s) /\ @cache_at lvl i d s' V (upd R n (u32 (f (R n)))) Hd.
Proof.
  intros Hc Hn Hf. pose proof (ca_ready _ _ _ _ _ _ Hc) as (Hh & Hcur & Hpl & Hdr). pose proof (ca_lock _ _ _ _ _ _ Hc) as Hl.
  destruct (held_buf _ _ _ _ _ _ Hc Hn) as (Hb & [H1 H2] & H3 & H4 & H5 & H6 & H7 & H8).
  rewrite (bind_Ok _ _ _ _ _ (bc_enter s Hl)). unfold updb. mstep. rewrite getb_in_bc, H5.
  set (t := setb b _ (in_bc s)). rewrite (bc_leave s t Hh Hl eq_refl eq_refl).
  assert (calm i s (out_bc s t)) as Hcalm by (apply calm_out_bc; [apply calm_setb|done|done]).
  exists (out_bc s t). split_and!; [done..|]. rewrite <- (upd_id V n).
  apply (held_upd s _ V R Hd n b (set_b_refcnt (u32 (f (R n))) (getb s b)) (V n) _ Hc Hn Hcalm); [done| |done| |unfold u32; zlia|done].
  - intros x. rewrite getb_out_bc. unfold t. by rewrite getb_setb, getb_in_bc.
  - rewrite <- H3. by destruct (getb s b).
Qed.

Lemma bpin_spec {lvl} s V R Hd n b :
  @cache_at lvl i d s V R Hd -> Hd !! n = Some b -> R n < 2 ^ 32 - 1 ->
  exists s', bpin b s = Ok tt s' /\ calm i s s' /\ k_dk s' = k_dk s /\ hart_of s' = touched (hart_of s) /\ @cache_at lvl i d s' V (upd R n (R n + 1)) Hd.
Proof.
  intros Hc Hn Hmax. destruct (held_buf _ _ _ _ _ _ Hc Hn) as (_ & _ & _ & _ & _ & H6 & _).
  destruct (ref_section (fun r => r + 1) s V R Hd n b Hc Hn) as (s' & Hs & H1 & H2 & H3 & H4); [rewrite u32_small; lia|].
  rewrite u32_small in H4 by lia. by exists s'.
Qed.

(** The count wraps below 0: a buffer without references must be clean. *)
Lemma bunpin_spec s V R Hd n b :
  cache i d s V R Hd -> Hd !! n = Some b -> (R n = 1 -> V n = dblock (k_dk s) n) ->
  exists s', bunpin b s = Ok tt s' /\ calm i s s' /\ k_dk s' = k_dk s /\ cache i d s' V (upd R n (u32 (R n - 1))) Hd.
Proof.
  intros Hc Hn Hcl. destruct (held_buf _ _ _ _ _ _ Hc Hn) as (_ & _ & _ & _ & _ & H6 & _).
  destruct (ref_section (fun r => r - 1) s V R Hd n b Hc Hn) as (s' & Hs & H1 & H2 & H3 & H4); [|by exists s'].
  intros Hz. apply Hcl. unfold u32 in Hz. zlia.
Qed.

(** ** brelse *)

(** A change that only relinks the list. *)
Lemma cache_relink s s' V R Hd :
  cache i d s V R Hd -> calm i s s' -> k_dk s' = k_dk s -> bc_lock (k_bc s') = bc_lock (k_bc s) -> same_cores s s' ->
  (exists L, ring s' L /\ L ≡ₚ bufs) -> cache i d s' V R Hd.
Proof.
  intros Hc Hcalm Hdk Hlk Hco Hring. destruct Hc.
  assert (forall b, b_disk (getb s' b) = b_disk (getb s b) /\ b_dev (getb s' b) = b_dev (getb s b) /\
    b_blockno (getb s' b) = b_blockno (getb s b) /\ b_lock (getb s' b) = b_lock (getb s b) /\
    b_refcnt (getb s' b) = b_refcnt (getb s b) /\ b_valid (getb s' b) = b_valid (getb s b) /\ b_data (getb s' b) = b_data (getb s b)) as Hf.
  { intros b. specialize (Hco b). injection Hco. auto 10. }
  split; try done; try (intros b; destruct (Hf b) as (E1 & E2 & E3 & E4 & E5 & E6 & E7); rewrite ?E1, ?E2, ?E3, ?E4, ?E5, ?E6, ?E7; auto; done).
  - by apply (cm_ready _ _ _ Hcalm).
  - by rewrite Hlk.
  - intros b b'. destruct (Hf b) as (E1 & E2 & E3 & E4 & E5 & E6 & E7), (Hf b') as (G1 & G2 & G3 & _).
    rewrite E2, E3, G2, G3. apply ca_uniq0.
  - intros n. destruct (ca_refs0 n) as [H1 H2]. split; [done|]. intros H0. destruct (H2 H0) as (b & Hb & [? ?]). exists b. split; [done|].
    destruct (Hf b) as (E1 & E2 & E3 & _). unfold caches. by rewrite E2, E3.
  - intros n. rewrite Hdk. auto.
  - intros n b Hn. destruct (ca_held0 n b Hn) as (H1 & [H2 H2'] & H3 & H4). destruct (Hf b) as (E1 & E2 & E3 & E4 & _).
    unfold caches. rewrite E2, E3, E4, (cm_pid _ _ _ Hcalm). done.
Qed.

(** The buffer is unlocked but still referenced. *)
Lemma unlock_spec s V R Hd n b :
  cache i d s V R Hd -> Hd !! n = Some b ->
  exists s', releasesleep (buflock b) s = Ok tt s' /\ calm i s s' /\ k_dk s' = k_dk s /\ cache i d s' V R (delete n Hd) /\
    caches s' d n b.
Proof.
  intros Hc Hn. pose proof (ca_ready _ _ _ _ _ _ Hc) as (Hh & Hcur & Hpl & Hdr).
  destruct (held_buf _ _ _ _ _ _ Hc Hn) as (Hb & [H1 H2] & H3 & H4 & H5 & H6 & H7 & H8).
  destruct (releasesleep_eq (buflock b) s Hh Hpl (ca_spin _ _ _ _ _ _ Hc b)) as (pt & Hw & Hs). rewrite Hs.
  set (s' := sl_put _ _ _). cbn [sl_get sl_put sl_chan buflock] in *.
  assert (calm i s s') as Hcalm.
  { etransitivity; [by apply (calm_woken i (sl_chan (buflock b)))|]. etransitivity; [apply (calm_touched i (set_pt pt s))|apply calm_setb]. }
  assert (forall x, getb s' x = if decide (b = x) then set_b_lock (freed (b_lock (getb s b))) (getb s b) else getb s x) as Hg.
  { intros x. unfold s'. by rewrite getb_setb. }
  exists s'. split_and!; [done..| |].
  - rewrite <- (upd_id V n), <- (upd_id R n).
    apply (cache_upd s s' V R Hd n b _ (V n) (R n) false Hc Hcalm eq_refl Hb Hg); [done|].
    split; try done.
    + split; [by apply (ca_idle _ _ _ _ _ _ Hc)|apply (ca_spin _ _ _ _ _ _ Hc)].
    + apply (ca_clean _ _ _ _ _ _ Hc).
  - unfold caches. rewrite Hg, decide_True by done. done.
Qed.

Lemma updb_prev {B} b v (K : unit -> M kst B) t : bind (updb b (set_b_prev v)) K t = K tt (put_prev b v t).
Proof. done. Qed.
Lemma updb_next {B} b v (K : unit -> M kst B) t : bind (updb b (set_b_next v)) K t = K tt (put_next b v t).
Proof. done. Qed.

Lemma updb_next_last b v t : updb b (set_b_next v) t = Ok tt (put_next b v t).
Proof. done. Qed.

Lemma to_front_eq b t : to_front b t = Ok tt (push_front b (unlink b t)).
Proof.
  unfold to_front.
  rewrite bind_gets, updb_prev, bind_gets, updb_next, bind_gets, updb_next, updb_prev, bind_gets, updb_prev, updb_next_last.
  unfold push_front, unlink, nxt, prv. cbv zeta. reflexivity.
Qed.

Lemma unlink_rest b s : k_pt (unlink b s) = k_pt s /\ hart_of (unlink b s) = hart_of s /\ k_dk (unlink b s) = k_dk s /\
  bc_lock (k_bc (unlink b s)) = bc_lock (k_bc s) /\ calm i s (unlink b s).
Proof. by split_and!. Qed.

Lemma push_front_rest b s : k_pt (push_front b s) = k_pt s /\ hart_of (push_front b s) = hart_of s /\ k_dk (push_front b s) = k_dk s /\
  bc_lock (k_bc (push_front b s)) = bc_lock (k_bc s) /\ calm i s (push_front b s).
Proof. by split_and!. Qed.

Lemma relink_ring s L b :
  ring s L -> L ≡ₚ bufs -> b ∈ bufs -> exists L', ring (push_front b (unlink b s)) L' /\ L' ≡ₚ bufs /\ same_cores s (push_front b (unlink b s)).
Proof.
  intros HL Hp Hb. assert (b ∈ L) as Hin by (by rewrite Hp). apply list_elem_of_split in Hin as (l1 & l2 & ->).
  assert (NoDup (bhead :: l1 ++ b :: l2)) as Hnd.
  { constructor; [|rewrite Hp; apply NoDup_seq]. rewrite Hp. intros Hin%elem_of_seq. unfold bhead in Hin. lia. }
  destruct (unlink_ring s l1 b l2 HL Hnd) as [H1 H2].
  assert (NoDup (b :: bhead :: l1 ++ l2)) as Hnd2.
  { rewrite Permutation_swap, (Permutation_middle l1 l2 b). exact Hnd. }
  apply NoDup_cons in Hnd2 as [Hb2 Hnd2].
  destruct (push_front_ring (unlink b s) (l1 ++ l2) b H1 Hnd2 Hb2) as [H3 H4].
  exists (b :: l1 ++ l2). split_and!; [done|by rewrite Permutation_middle|by etransitivity].
Qed.

Lemma unref_spec s V R Hd n b :
  cache i d s V R Hd -> Hd !! n = None -> b ∈ bufs -> caches s d n b -> (R n = 1 -> V n = dblock (k_dk s) n) ->
  exists s',
    (acquire bcachelock;;
     updb b (fun x => set_b_refcnt (u32 (b_refcnt x - 1)) x);;
     let! x := gets (fun s => getb s b) in
     (if b_refcnt x =? 0 then to_front b else skip);;
     release bcachelock : M kst unit) s = Ok tt s' /\
    calm i s s' /\ k_dk s' = k_dk s /\ cache i d s' V (upd R n (u32 (R n - 1))) Hd.
Proof.
  intros Hc Hn Hb [H1 H2] Hcl. pose proof (ca_ready _ _ _ _ _ _ Hc) as (Hh & Hcur & Hpl & Hdr). pose proof (ca_lock _ _ _ _ _ _ Hc) as Hl.
  pose proof (ca_refcnt _ _ _ _ _ _ Hc b Hb) as Hrc. rewrite H1, Z.eqb_refl, H2 in Hrc.
  pose proof (proj1 (ca_refs _ _ _ _ _ _ Hc n)) as Hmax.
  rewrite (bind_Ok _ _ _ _ _ (bc_enter s Hl)). unfold updb at 1. mstep. rewrite getb_in_bc, Hrc.
  assert (u32 (R n - 1) = 0 -> R n = 1) as H01 by (unfold u32; zlia).
  assert (0 <= u32 (R n - 1) < 2 ^ 32) as Hr32 by (unfold u32; zlia). set (r := u32 (R n - 1)) in *. clearbody r.
  set (y := set_b_refcnt r (getb s b)). set (t := setb b y (in_bc s)).
  assert (forall x, getb t x = if decide (b = x) then y else getb s x) as Hg.
  { intros x. unfold t. by rewrite getb_setb, getb_in_bc. }
  assert (calm i s (out_bc s t)) as Hcalm by (apply calm_out_bc; [apply calm_setb|done|done]).
  assert (cache i d (out_bc s t) V (upd R n r) Hd) as Hc1.
  { rewrite <- (upd_id V n), <- (delete_id Hd n Hn).
    apply (cache_upd s (out_bc s t) V R Hd n b y (V n) r false Hc Hcalm eq_refl Hb Hg); [done|].
    split; try done.
    - split; [by apply (ca_idle _ _ _ _ _ _ Hc)|apply (ca_spin _ _ _ _ _ _ Hc)].
    - destruct (ca_valid _ _ _ _ _ _ Hc b Hb H1) as [? ?]. split; [done|]. cbn [b_data y set_b_refcnt]. congruence.
    - intros b' Hb' Hne [? ?]. apply Hne, (ca_uniq _ _ _ _ _ _ Hc); congruence.
    - auto.
    - destruct (Z.eq_dec (sl_locked (b_lock (getb s b))) 0); [done|].
      destruct (ca_unheld _ _ _ _ _ _ Hc b Hb) as [m Hm]; [done|].
      destruct (ca_held _ _ _ _ _ _ Hc m b Hm) as (_ & [_ ?] & _). congruence. }
  assert (b_refcnt (getb t b) = r) as -> by (by rewrite Hg, decide_True).
  destruct (Z.eqb_spec r 0) as [Hz|Hz].
  2:{ mstep. rewrite (bc_leave s t Hh Hl eq_refl eq_refl). by exists (out_bc s t). }
  rewrite (bind_Ok _ _ _ _ _ (to_front_eq b t)).
  destruct (unlink_rest b t) as (P1 & P2 & P3 & P4 & P5), (push_front_rest b (unlink b t)) as (Q1 & Q2 & Q3 & Q4 & Q5).
  set (t2 := push_front b (unlink b t)) in *.
  assert (hart_of t = hart_of (in_bc s) /\ k_pt t = k_pt s /\ k_dk t = k_dk s) as (T1 & T2 & T3) by done.
  rewrite (bc_leave s t2 Hh Hl); [|by rewrite Q2, P2|by rewrite Q4, P4]. exists (out_bc s t2).
  destruct (ca_ring _ _ _ _ _ _ Hc1) as (L & HL & HLp). destruct (relink_ring t L b HL HLp Hb) as (L' & R1 & R2 & R3). fold t2 in R1, R3.
  assert (calm i s (out_bc s t2)) as Hcalm2.
  { apply calm_out_bc; [|by rewrite Q2, P2|by rewrite Q1, P1]. etransitivity; [apply calm_setb|]. by etransitivity. }
  split_and!; [done|done|change (k_dk t2 = k_dk s); congruence|].
  apply (cache_relink (out_bc s t)); [done| |change (k_dk t2 = k_dk t); congruence|done|done|by exists L'].
  destruct Hcalm, Hcalm2. split; try congruence. done.
Qed.

Lemma brelse_spec s V R Hd n b :
  cache i d s V R Hd -> Hd !! n = Some b -> (R n = 1 -> V n = dblock (k_dk s) n) ->
  exists s', brelse b s = Ok tt s' /\ calm i s s' /\ k_dk s' = k_dk s /\
    cache i d s' V (upd R n (u32 (R n - 1))) (delete n Hd).
Proof.
  intros Hc Hn Hcl. unfold brelse. destruct (holding_spec s V R Hd n b Hc Hn) as (s1 & Hs1 & Hcalm1 & Hdk1 & Hc1 & _).
  rewrite (bind_Ok _ _ _ _ _ Hs1). cbn [negb].
  destruct (unlock_spec s1 V R Hd n b Hc1 Hn) as (s2 & Hs2 & Hcalm2 & Hdk2 & Hc2 & Hca). rewrite (bind_Ok _ _ _ _ _ Hs2).
  destruct (held_buf _ _ _ _ _ _ Hc Hn) as (Hb & _ & _ & _ & _ & H6 & _).
  destruct (unref_spec s2 V R (delete n Hd) n b Hc2) as (s3 & Hs3 & Hcalm3 & Hdk3 & Hc3);
    [apply lookup_delete_eq|done|done|by rewrite Hdk2, Hdk1|].
  exists s3. split_and!; [exact Hs3|by do 2 (etransitivity; [eassumption|])|congruence|done].
Qed.
End Ops.
End CacheSpec.
