(* ===== verification/DiskSystem.v ===== *)
(** * The disk driver at work

    What happens while a process waits for the disk, made of the code of the
    kernel and of the device: the scheduler finds no process to run and waits
    for an interrupt, the device serves the request in the rings and raises
    its interrupt, kerneltrap runs virtio_disk_intr, and the scheduler runs the
    process that this wakes.  With the device as the VirtIO specification
    describes it ([HardwareLaws]) virtio_disk_rw satisfies [DiskLaws], which is
    all that the buffer cache needs of it. *)

From S2P Require Import Prelude CString Layout Spinlock Kalloc State Output Vm Proc SleepLock Bio Virtio Trap ProcSpec SleepSpec Ring CacheSpec.

(** ** The hardware *)

(** [device]: what the disk makes of the memory it shares with the driver, of
    its blocks and of the contents of the buffers, when it serves the requests
    in the available ring; the buffers that it stores into are listed.
    [wfi_pc]: the address at which the scheduler is interrupted.  [elsewhere]:
    what the rest of the system does until the process runs again, when it is
    not for the disk alone that the process waits. *)
Class Hardware := {
  device : vdisk -> disk -> (nat -> list Z) -> vdisk * disk * list (nat * list Z);
  wfi_pc : Z;
  elsewhere : kst -> kst }.

(** One request in the available ring that the device has not served: a chain
    of three descriptors, of the header, the data and the status. *)
Record request (v : vdisk) (type sector : Z) (b i0 i1 i2 : nat) : Prop := {
  rq_new : vd_avail_idx v = u16 (vd_used_id v + 1);
  rq_head : vd_avail v !! Z.to_nat (vd_used_id v mod NUM) = Some (Z.of_nat i0);
  rq_header : getdesc v i0 = Vdesc (AHdr type sector) 16 VRING_DESC_F_NEXT (Z.of_nat i1);
  rq_data : getdesc v i1 = Vdesc (AData b) BSIZE
    (Z.lor (if type =? VIRTIO_BLK_T_OUT then 0 else VRING_DESC_F_WRITE) VRING_DESC_F_NEXT) (Z.of_nat i2);
  rq_status : getdesc v i2 = Vdesc (AStatus i0) 1 VRING_DESC_F_WRITE 0 }.

(** The rings once it is served: the status is 0, the head of the chain is in the
    used ring, and used->id has advanced. *)
Definition served (i0 : nat) (regs : gmap Z Z) (v : vdisk) : vdisk :=
  set_vd_regs regs (set_vd_info_status (<[i0 := 0]> (vd_info_status v))
    (set_vd_used_id (u16 (vd_used_id v + 1))
      (set_vd_used (<[Z.to_nat (vd_used_id v mod NUM) := Z.of_nat i0]> (vd_used v)) v))).

(** VirtIO block devices, section 5.2.6: a read stores the sectors into the
    data, a write the data into the sectors; block [n] is the sectors 2n and
    2n + 1.  What the device writes to its own registers is left open. *)
Class HardwareLaws `{Hardware} : Prop := {
  device_in : forall v d data n b i0 i1 i2, 0 <= n -> request v VIRTIO_BLK_T_IN (2 * n) b i0 i1 i2 ->
    exists regs, device v d data = (served i0 regs v, d, [(b, dblock d n)]);
  device_out : forall v d data n b i0 i1 i2, 0 <= n -> request v VIRTIO_BLK_T_OUT (2 * n) b i0 i1 i2 ->
    exists regs, device v d data = (served i0 regs v, disk_put n (data b) d, []) }.

Section System.
Context `{HW : Hardware}.

(** The device serves what is in the rings, and raises its interrupt when it has
    put something in the used ring. *)
Definition store_bufs (w : list (nat * list Z)) (s : kst) : kst :=
  fold_left (fun s x => setb (fst x) (set_b_data (snd x) (getb s (fst x))) s) w s.

Definition device_step (s : kst) : kst :=
  let '(v, d, w) := device (k_vd s) (k_dk s) (fun b => b_data (getb s b)) in
  let pl := if vd_used_id v =? vd_used_id (k_vd s) then k_pl s
            else set_pl_pending (pl_pending (k_pl s) ++ [VIRTIO0_IRQ]) (k_pl s) in
  store_bufs w (set_pl pl (set_vd v (set_dk d s))).

(** A trap in supervisor mode moves SIE to SPIE, and sret moves it back. *)
Definition trap_sstatus (x : Z) : Z :=
  let y := Z.lor (Z.land (Z.land x (Z.lnot SSTATUS_SIE)) (Z.lnot SSTATUS_SPIE)) SSTATUS_SPP in
  if truthy (Z.land x SSTATUS_SIE) then Z.lor y SSTATUS_SPIE else y.
Definition sret_sstatus (x : Z) : Z :=
  let y := Z.lor (Z.land (Z.land x (Z.lnot SSTATUS_SIE)) (Z.lnot SSTATUS_SPP)) SSTATUS_SPIE in
  if truthy (Z.land x SSTATUS_SPIE) then Z.lor y SSTATUS_SIE else y.

(** The scheduler runs on no process, so that kerneltrap does not yield. *)
Definition no_thread : Others := {| others s := s; patience := 0 |}.

(** An external interrupt of the hart, from the trap to the sret. *)
Definition interrupt : M kst unit :=
  upd_csr (fun r => Csrs (trap_sstatus (r_sstatus r)) wfi_pc 0x8000000000000009 0 (r_stvec r) (r_satp r) (r_sip r));;
  kerneltrap (H0 := no_thread);;
  upd_csr (fun r => Csrs (sret_sstatus (r_sstatus r)) (r_sepc r) (r_scause r) (r_stval r) (r_stvec r) (r_satp r) (r_sip r)).

Definition wfi : M kst unit := modify device_step;; interrupt.

(** ** The scheduler, from one swtch to the next *)

(** The rest of a walk over proc[]: whether a process is picked. *)
Fixpoint run_next (l : list nat) : M kst bool :=
  match l with
  | [] => ret false
  | j :: l' =>
      let! picked := scheduler_pick j in
      if (picked : bool) then ret true else run_next l'
  end.

(** Turns of the endless loop, until a process is picked. *)
Fixpoint scheduler_turns (fuel : nat) : M kst unit :=
  match fuel with
  | O => diverge
  | S fuel' =>
      modify (fun s => put_hart (intr_on (hart_of s)) s);;
      let! picked := run_next procs in
      if (picked : bool) then skip else
      modify (fun s => put_hart (intr_on (hart_of s)) s);;
      wfi;;
      scheduler_turns fuel'
  end.

(** From the swtch of process [i] to that of the process picked next; [found]
    is 1 in the turn that has run [i]. *)
Definition away (i : nat) : M kst unit :=
  scheduler_back i;;
  let! picked := run_next (drop (S i) procs) in
  if (picked : bool) then skip else scheduler_turns 2.

Definition system_others (s : kst) : kst :=
  match c_proc (mycpu (hart_of s)) with
  | None => elsewhere s
  | Some i =>
      match away i s with
      | Ok _ s' => if decide (c_proc (mycpu (hart_of s')) = Some i) then s' else elsewhere s'
      | _ => elsewhere s
      end
  end.

Definition system : Others := {| others := system_others; patience := 1 |}.
Definition virtio : BlockDev := {| disk_rw := virtio_disk_rw (H0 := system) |}.
End System.

(** ** The hart, seen from outside *)

(** Hart [tp] runs process [p] with [n] spin locks held; [on]: interrupts are on,
    or will be once the locks are released. *)
Record hview (tp : Z) (p : option nat) (n : Z) (on : bool) (h : hart) : Prop := {
  hv_tp : h_tp h = tp;
  hv_proc : c_proc (mycpu h) = p;
  hv_noff : c_noff (mycpu h) = n;
  hv_on : if n =? 0 then intr_get h = on else intr_get h = false /\ c_intena (mycpu h) = on }.

Lemma hview_ok tp p n on h : 0 <= n -> hview tp p n on h -> hart_ok h.
Proof. intros Hn [H1 H2 H3 H4]. split; [lia|]. intros H. rewrite (proj2 (Z.eqb_neq n 0)) in H4 by lia. apply H4. Qed.

Lemma hview_pushed tp p n on h : 0 <= n -> hview tp p n on h -> hview tp p (n + 1) on (pushed h).
Proof.
  intros Hn Hv. pose proof (hview_ok _ _ _ _ _ Hn Hv) as Hok. destruct Hv as [H1 H2 H3 H4]. split; [by rewrite pushed_tp|by rewrite pushed_proc|by rewrite pushed_noff, H3|].
  rewrite (proj2 (Z.eqb_neq (n + 1) 0)) by lia. split; [apply pushed_intr|]. unfold pushed. rewrite mycpu_set_mycpu, H3.
  destruct (n =? 0); cbn; tauto.
Qed.

Lemma hview_touched tp p n on h : hview tp p n on h -> hview tp p n on (touched h).
Proof.
  intros [H1 H2 H3 H4]. split; [by rewrite touched_tp|by rewrite touched_proc|by rewrite touched_noff|].
  unfold touched. rewrite mycpu_set_mycpu, intr_get_set_mycpu, H3. by destruct (n =? 0).
Qed.

(** A hart with a lock held is one on which push_off has been called. *)
Lemma hview_pop tp p n on h : 0 <= n -> hview tp p (n + 1) on h -> exists h0, h = pushed h0 /\ hart_ok h0 /\ hview tp p n on (touched h0).
Proof.
  intros Hn [H1 H2 H3 H4]. rewrite (proj2 (Z.eqb_neq (n + 1) 0)) in H4 by lia. destruct H4 as [H4 H5].
  set (c := mycpu h) in *. exists (set_mycpu (set_noff n c) (if (n =? 0) && on then intr_on h else h)).
  assert (intr_get (intr_on h) = true) as Hon by (rewrite intr_get_bit; unfold intr_on, set_sstatus; cbn [h_csr r_sstatus]; rewrite sie_on_bits by lia; apply orb_true_r).
  assert (intr_off (intr_on h) = h) as Hoff.
  { unfold intr_off, intr_on. rewrite set_sstatus_twice. etransitivity; [|apply set_sstatus_same]. f_equal. apply Z.bits_inj'. intros k Hk.
    unfold set_sstatus. cbn [h_csr r_sstatus]. rewrite sie_off_bits, sie_on_bits by done. rewrite intr_get_bit in H4. destruct (Z.eqb_spec k 1) as [->|]; [by rewrite H4, andb_false_r|].
    by rewrite orb_false_r, andb_true_r. }
  assert (set_mycpu c h = h) as Hid.
  { unfold c, set_mycpu, mycpu in *. destruct (h_cpus h !! h_tp h) as [c'|] eqn:E; cbn in *; [|lia]. rewrite insert_id by done. by destruct h. }
  clearbody c.
  assert (forall g x y, intr_off g = h -> y = c -> h = set_mycpu y (intr_off (set_mycpu x g))) as Hp.
  { intros g x y Hg ->. change (intr_off (set_mycpu x g)) with (set_mycpu x (intr_off g)). by rewrite Hg, set_mycpu_twice. }
  destruct (Z.eqb_spec n 0) as [->|Hne]; [destruct on|apply Z.eqb_neq in Hne]; cbn [andb];
    unfold pushed, touched, hart_ok; rewrite !mycpu_set_mycpu, !intr_get_set_mycpu; cbn [c_noff set_noff Z.eqb]; rewrite ?Hne, ?Hon, ?H4.
  - split_and!; [apply Hp; [done|]|lia|lia|]. { unfold set_noff, set_intena. cbn. destruct c; cbn in H3, H5. by subst. }
    split; rewrite ?mycpu_set_mycpu; done.
  - split_and!; [apply Hp; [by apply intr_off_id|]|lia|lia|]. { unfold set_noff, set_intena. cbn. destruct c; cbn in H3, H5. by subst. }
    split; rewrite ?mycpu_set_mycpu; done.
  - split_and!; [apply Hp; [by apply intr_off_id|]|lia|done|]. { unfold set_noff, set_intena. cbn. destruct c; cbn in H3, H5. by subst. }
    split; rewrite ?mycpu_set_mycpu, ?Hne; done.
Qed.

Lemma hview_cproc tp p q n on h : hview tp p n on h ->
  hview tp q n on (set_mycpu (Cpu q (c_context (mycpu h)) (c_noff (mycpu h)) (c_intena (mycpu h))) h).
Proof. intros [H1 H2 H3 H4]. split; rewrite ?mycpu_set_mycpu, ?intr_get_set_mycpu; done. Qed.

Lemma intr_get_on h : intr_get (intr_on h) = true.
Proof. rewrite intr_get_bit. unfold intr_on, set_sstatus. cbn [h_csr r_sstatus]. rewrite sie_on_bits by lia. apply orb_true_r. Qed.

Lemma hview_on tp p on h : hview tp p 0 on h -> hview tp p 0 true (intr_on h).
Proof. intros [H1 H2 H3 H4]. split; [done..|]. apply intr_get_on. Qed.

Definition held (tp : Z) (k : spinlock) : spinlock := Spinlock 1 (lk_name k) (Some tp).

Lemma acquire_view (l : lockref kst) `{!LockLaws l} tp p n on s : 0 <= n -> hview tp p n on (hart_of s) -> lock_free (lk_get l s) ->
  exists h', acquire l s = Ok tt (lk_put l (held tp (lk_get l s)) (put_hart h' s)) /\ hview tp p (n + 1) on h'.
Proof.
  intros Hn Hv Hl. exists (pushed (hart_of s)). split; [|by apply hview_pushed]. rewrite (acquire_eq l) by done.
  unfold locked_by, held. by rewrite (hv_tp _ _ _ _ _ Hv).
Qed.

Lemma release_view (l : lockref kst) `{!LockLaws l} tp p n on s k : 0 <= n -> hview tp p (n + 1) on (hart_of s) -> lock_free k -> lk_get l s = held tp k ->
  exists h', release l s = Ok tt (lk_put l k (put_hart h' s)) /\ hview tp p n on h'.
Proof.
  intros Hn Hv Hk Hl. destruct (hview_pop _ _ _ _ _ Hn Hv) as (h0 & E & Hok & Hv'). exists (touched h0). split; [|done].
  apply (release_eq l s h0 k); [done|done|done|]. rewrite Hl. unfold held, locked_by. f_equal. f_equal.
  rewrite <- (pushed_tp h0), <- E. symmetry. apply Hv.
Qed.

(** ** States that differ from [s0] in what the disk is concerned with *)

Definition st (s0 : kst) (h : hart) (pt : ptable) (bc : bcache) (dk : disk) (vd : vdisk) (pl : plic) : kst :=
  set_pl pl (set_vd vd (set_bc bc (set_dk dk (set_pt pt (put_hart h s0))))).

Definition pset (j : nat) (p : proc) (pt : ptable) : ptable := set_pt_proc (<[j := p]> (pt_proc pt)) pt.
Definition buf_of (bc : bcache) (b : nat) : buf := default buf0 (bc_buf bc !! b).
Definition bset (b : nat) (x : buf) (bc : bcache) : bcache := set_bc_buf (<[b := x]> (bc_buf bc)) bc.

Lemma proc_of_pset j p pt x : proc_of (pset j p pt) x = if decide (j = x) then p else proc_of pt x.
Proof. unfold proc_of, pset. cbn. rewrite lookup_insert. by case_decide. Qed.

Lemma buf_of_bset j p bc x : buf_of (bset j p bc) x = if decide (j = x) then p else buf_of bc x.
Proof. unfold buf_of, bset. cbn. rewrite lookup_insert. by case_decide. Qed.

(** The same processes. *)
Definition peq (pt pt' : ptable) : Prop := (forall j, proc_of pt' j = proc_of pt j) /\ pt_next pt' = pt_next pt.

#[export] Instance peq_preorder : PreOrder peq.
Proof. split; [done|]. intros a b c [H1 H2] [H3 H4]. split; [intros j; by rewrite H3|congruence]. Qed.

Section Steps.
Context `{HW : Hardware} `{HL : !HardwareLaws}.
Context (s0 : kst) (tp : Z).

Lemma enter_plock h pt bc dk vd pl j p n on : 0 <= n -> hview tp p n on h -> lock_free (p_lock (proc_of pt j)) ->
  exists h', acquire (plock j) (st s0 h pt bc dk vd pl) = Ok tt (st s0 h' (pset j (set_p_lock (held tp (p_lock (proc_of pt j))) (proc_of pt j)) pt) bc dk vd pl) /\
    hview tp p (n + 1) on h'.
Proof.
  intros Hn Hv Hl. destruct (acquire_view (plock j) tp p n on (st s0 h pt bc dk vd pl) Hn Hv Hl) as (h' & E & Hv'). by exists h'.
Qed.

Lemma leave_plock h pt bc dk vd pl j p n on k : 0 <= n -> hview tp p (n + 1) on h -> lock_free k -> p_lock (proc_of pt j) = held tp k ->
  exists h', release (plock j) (st s0 h pt bc dk vd pl) = Ok tt (st s0 h' (pset j (set_p_lock k (proc_of pt j)) pt) bc dk vd pl) /\ hview tp p n on h'.
Proof.
  intros Hn Hv Hk Hl. destruct (release_view (plock j) tp p n on (st s0 h pt bc dk vd pl) k Hn Hv Hk Hl) as (h' & E & Hv'). by exists h'.
Qed.

Lemma pick_no h pt bc dk vd pl j p on : hview tp p 0 on h -> lock_free (p_lock (proc_of pt j)) -> p_state (proc_of pt j) <> RUNNABLE ->
  exists h' pt', scheduler_pick j (st s0 h pt bc dk vd pl) = Ok false (st s0 h' pt' bc dk vd pl) /\ peq pt pt' /\ hview tp p 0 on h'.
Proof.
  intros Hv Hl Hs. unfold scheduler_pick. destruct (enter_plock h pt bc dk vd pl j p 0 on ltac:(done) Hv Hl) as (h1 & E1 & V1).
  rewrite (bind_Ok _ _ _ _ _ E1), bind_gets. change (getp (st s0 h1 ?t bc dk vd pl)) with (proc_of t). set (pt1 := pset j _ pt) in *.
  assert (proc_of pt1 j = set_p_lock (held tp (p_lock (proc_of pt j))) (proc_of pt j)) as Ep by (unfold pt1; by rewrite proc_of_pset, decide_True).
  rewrite Ep, decide_False by done.
  destruct (leave_plock h1 pt1 bc dk vd pl j p 0 on (p_lock (proc_of pt j)) ltac:(done) V1 Hl ltac:(by rewrite Ep)) as (h2 & E2 & V2).
  rewrite (bind_Ok _ _ _ _ _ E2). eexists h2, _. split; [done|]. split; [|done]. split; [|done].
  intros x. rewrite proc_of_pset. unfold pt1. rewrite !proc_of_pset, (decide_True (P := j = j)) by done. case_decide; [|done]. subst. rewrite set_p_lock_twice. apply set_p_lock_id.
Qed.

Lemma pick_yes h pt bc dk vd pl j p on : hview tp p 0 on h -> lock_free (p_lock (proc_of pt j)) -> p_state (proc_of pt j) = RUNNABLE -> pt_next pt = 0 ->
  exists h' pt', scheduler_pick j (st s0 h pt bc dk vd pl) = Ok true (st s0 h' pt' bc dk vd pl) /\ hview tp (Some j) 1 on h' /\ pt_next pt' = 0 /\
    forall x, proc_of pt' x = if decide (j = x) then set_p_state RUNNING (set_p_lock (held tp (p_lock (proc_of pt j))) (proc_of pt j)) else proc_of pt x.
Proof.
  intros Hv Hl Hs Hx. unfold scheduler_pick. destruct (enter_plock h pt bc dk vd pl j p 0 on ltac:(done) Hv Hl) as (h1 & E1 & V1).
  rewrite (bind_Ok _ _ _ _ _ E1), bind_gets. change (getp (st s0 h1 ?t bc dk vd pl)) with (proc_of t). set (pt1 := pset j _ pt) in *.
  assert (proc_of pt1 j = set_p_lock (held tp (p_lock (proc_of pt j))) (proc_of pt j)) as Ep by (unfold pt1; by rewrite proc_of_pset, decide_True).
  rewrite Ep, decide_True by done. unfold updp, set_cproc. mstep. 
  match goal with |- context [truthy ?x] => replace (truthy x) with false by (by cbn; rewrite Hx) end. mstep.
  exists (set_mycpu (Cpu (Some j) (c_context (mycpu h1)) (c_noff (mycpu h1)) (c_intena (mycpu h1))) h1), (pset j (set_p_state RUNNING (proc_of pt1 j)) pt1).
  split; [done|]. split_and!; [by eapply hview_cproc|done|]. intros x. rewrite proc_of_pset, Ep. case_decide; [done|]. unfold pt1. by rewrite proc_of_pset, decide_False.
Qed.

Lemma run_next_none l h pt bc dk vd pl p on : hview tp p 0 on h -> (forall j, j ∈ l -> lock_free (p_lock (proc_of pt j)) /\ p_state (proc_of pt j) <> RUNNABLE) ->
  exists h' pt', run_next l (st s0 h pt bc dk vd pl) = Ok false (st s0 h' pt' bc dk vd pl) /\ peq pt pt' /\ hview tp p 0 on h'.
Proof.
  revert h pt. induction l as [|j l IH]; intros h pt Hv Hl; [by exists h, pt|]. cbn [run_next].
  destruct (Hl j ltac:(left)) as [K1 K2]. destruct (pick_no h pt bc dk vd pl j p on Hv K1 K2) as (h1 & pt1 & E1 & P1 & V1).
  rewrite (bind_Ok _ _ _ _ _ E1). destruct (IH h1 pt1 V1) as (h2 & pt2 & E2 & P2 & V2).
  { intros x Hx. rewrite (proj1 P1). apply Hl. by right. }
  exists h2, pt2. split_and!; [exact E2|by etransitivity|done].
Qed.

Lemma run_next_some l1 j l2 h pt bc dk vd pl p on : hview tp p 0 on h -> (forall x, x ∈ l1 -> lock_free (p_lock (proc_of pt x)) /\ p_state (proc_of pt x) <> RUNNABLE) ->
  lock_free (p_lock (proc_of pt j)) -> p_state (proc_of pt j) = RUNNABLE -> pt_next pt = 0 ->
  exists h' pt', run_next (l1 ++ j :: l2) (st s0 h pt bc dk vd pl) = Ok true (st s0 h' pt' bc dk vd pl) /\ hview tp (Some j) 1 on h' /\ pt_next pt' = 0 /\
    forall x, proc_of pt' x = if decide (j = x) then set_p_state RUNNING (set_p_lock (held tp (p_lock (proc_of pt j))) (proc_of pt j)) else proc_of pt x.
Proof.
  revert h pt. induction l1 as [|y l1 IH]; intros h pt Hv Hl Hj Hs Hx; cbn [app run_next].
  - destruct (pick_yes h pt bc dk vd pl j p on Hv Hj Hs Hx) as (h1 & pt1 & E1 & V1 & X1 & P1). rewrite (bind_Ok _ _ _ _ _ E1). by exists h1, pt1.
  - destruct (Hl y ltac:(left)) as [K1 K2]. destruct (pick_no h pt bc dk vd pl y p on Hv K1 K2) as (h1 & pt1 & E1 & [P1 Q1] & V1).
    rewrite (bind_Ok _ _ _ _ _ E1). destruct (IH h1 pt1 V1) as (h2 & pt2 & E2 & V2 & X2 & P2); [|by rewrite P1..|congruence|].
    { intros x Hx'. rewrite P1. apply Hl. by right. }
    exists h2, pt2. split_and!; [exact E2|done|done|]. intros x. by rewrite P2, !P1.
Qed.

(** ** The interrupt *)

(** The driver's lock. *)
Lemma enter_vdisk h pt bc dk vd pl p n on : 0 <= n -> hview tp p n on h -> lock_free (vd_lock vd) ->
  exists h', acquire vdisklock (st s0 h pt bc dk vd pl) = Ok tt (st s0 h' pt bc dk (set_vd_lock (held tp (vd_lock vd)) vd) pl) /\ hview tp p (n + 1) on h'.
Proof.
  intros Hn Hv Hl. destruct (acquire_view vdisklock tp p n on (st s0 h pt bc dk vd pl) Hn Hv Hl) as (h' & E & Hv'). by exists h'.
Qed.

Lemma leave_vdisk h pt bc dk vd pl p n on k : 0 <= n -> hview tp p (n + 1) on h -> lock_free k -> vd_lock vd = held tp k ->
  exists h', release vdisklock (st s0 h pt bc dk vd pl) = Ok tt (st s0 h' pt bc dk (set_vd_lock k vd) pl) /\ hview tp p n on h'.
Proof.
  intros Hn Hv Hk Hl. destruct (release_view vdisklock tp p n on (st s0 h pt bc dk vd pl) k Hn Hv Hk Hl) as (h' & E & Hv'). by exists h'.
Qed.

Definition pfree (pt : ptable) : Prop := forall j, lock_free (p_lock (proc_of pt j)).

Lemma wakeup_st h pt bc dk vd pl p n on ch : 0 <= n -> hview tp p n on h -> pfree pt ->
  exists h' pt', wakeup ch (st s0 h pt bc dk vd pl) = Ok tt (st s0 h' pt' bc dk vd pl) /\ hview tp p n on h' /\ pt_next pt' = pt_next pt /\
    forall j, proc_of pt' j = if decide (j ∈ procs) then wake ch (proc_of pt j) else proc_of pt j.
Proof.
  intros Hn Hv Hl. destruct (wakeup_woken (H := no_thread) ch (st s0 h pt bc dk vd pl)) as (pt' & [Hw1 Hw2] & E).
  - exact (hview_ok _ _ _ _ _ Hn Hv).
  - exact Hl.
  - exists (touched h), pt'. split_and!; [exact E|by apply hview_touched|by rewrite Hw1|exact Hw2].
Qed.

(** One completion in the used ring. *)
Record completed (vd : vdisk) (u : Z) (i0 b : nat) : Prop := {
  co_range : 0 <= u < 65536;
  co_seen : vd_used_idx vd = u mod NUM;
  co_used : vd_used_id vd = u16 (u + 1);
  co_head : vd_used vd !! Z.to_nat (u mod NUM) = Some (Z.of_nat i0);
  co_status : vd_info_status vd !! i0 = Some 0;
  co_buf : vd_info_b vd !! i0 = Some b }.

Lemma intr_loop_S fuel s : virtio_disk_intr_loop (S fuel) s =
  (let d := k_vd s in
   if vd_used_idx d mod NUM =? vd_used_id d mod NUM then Ok tt s else
   let id := Z.to_nat (default 0 (vd_used d !! Z.to_nat (vd_used_idx d))) in
   if negb (default 0 (vd_info_status d !! id) =? 0) then Panic "virtio_disk_intr status" else
   (let! b := deref (vd_info_b d !! id) in
    updb b (set_b_disk 0);;
    wakeup (ChBuf b);;
    updvd (fun d => set_vd_used_idx ((vd_used_idx d + 1) mod NUM) d);;
    virtio_disk_intr_loop fuel) s).
Proof. cbn [virtio_disk_intr_loop]. rewrite bind_gets. cbv zeta. case_match; [done|]. by case_match. Qed.

Lemma intr_loop h pt bc dk vd pl p n on u i0 b : 0 <= n -> hview tp p n on h -> pfree pt -> completed vd u i0 b ->
  exists h' pt', virtio_disk_intr_loop (Z.to_nat NUM) (st s0 h pt bc dk vd pl) =
      Ok tt (st s0 h' pt' (bset b (set_b_disk 0 (buf_of bc b)) bc) dk (set_vd_used_idx ((u mod NUM + 1) mod NUM) vd) pl) /\
    hview tp p n on h' /\ pt_next pt' = pt_next pt /\ forall j, proc_of pt' j = if decide (j ∈ procs) then wake (ChBuf b) (proc_of pt j) else proc_of pt j.
Proof.
  intros Hn Hv Hl [C1 C2 C3 C4 C5 C6]. change (Z.to_nat NUM) with 8%nat. rewrite intr_loop_S. cbv zeta. change (k_vd (st s0 h pt bc dk vd pl)) with vd.
  change NUM with 8 in *. rewrite C2, C3. unfold u16 in *. destruct (Z.eqb_spec ((u mod 8) mod 8) (((u + 1) mod 65536) mod 8)) as [E|_]; [exfalso; clear - E; zlia|].
  rewrite C4. change (default 0 (Some (Z.of_nat i0))) with (Z.of_nat i0). rewrite Nat2Z.id, C5, C6. change (negb (default 0 (Some 0) =? 0)) with false. cbv iota.
  unfold deref. rewrite bind_ret. unfold updb, updvd. rewrite bind_modify.
  destruct (wakeup_st h pt (bset b (set_b_disk 0 (buf_of bc b)) bc) dk vd pl p n on (ChBuf b) Hn Hv Hl) as (h1 & pt1 & E1 & V1 & X1 & P1).
  change (setb b (set_b_disk 0 (getb (st s0 h pt bc dk vd pl) b)) (st s0 h pt bc dk vd pl)) with (st s0 h pt (bset b (set_b_disk 0 (buf_of bc b)) bc) dk vd pl).
  rewrite (bind_Ok _ _ _ _ _ E1), bind_modify, intr_loop_S. cbv zeta.
  set (bc' := bset b _ bc) in *.
  change (set_vd (set_vd_used_idx ((vd_used_idx (k_vd (st s0 h1 pt1 bc' dk vd pl)) + 1) mod 8) (k_vd (st s0 h1 pt1 bc' dk vd pl))) (st s0 h1 pt1 bc' dk vd pl))
    with (st s0 h1 pt1 bc' dk (set_vd_used_idx ((vd_used_idx vd + 1) mod 8) vd) pl).
  change (k_vd (st s0 h1 pt1 bc' dk ?v pl)) with v. cbn [vd_used_idx vd_used_id set_vd_used_idx]. rewrite C2, C3.
  destruct (Z.eqb_spec (((u mod 8 + 1) mod 8) mod NUM) (((u + 1) mod 65536) mod NUM)) as [_|E]; [|exfalso; apply E; change NUM with 8; clear; zlia].
  by exists h1, pt1.
Qed.

(** The processes after the interrupt for buffer [b]. *)
Definition after_wake (b : nat) (pt pt' : ptable) : Prop :=
  pt_next pt' = pt_next pt /\ forall j, proc_of pt' j = if decide (j ∈ procs) then wake (ChBuf b) (proc_of pt j) else proc_of pt j.

Lemma set_vd_lock_id k v : vd_lock v = k -> set_vd_lock k v = v.
Proof. intros <-. by destruct v. Qed.

Lemma disk_intr_st h pt bc dk vd pl p on u i0 b : hview tp p 0 on h -> pfree pt -> lock_free (vd_lock vd) -> completed vd u i0 b ->
  exists h' pt' regs, virtio_disk_intr (st s0 h pt bc dk vd pl) =
      Ok tt (st s0 h' pt' (bset b (set_b_disk 0 (buf_of bc b)) bc) dk (set_vd_regs regs (set_vd_used_idx ((u mod NUM + 1) mod NUM) vd)) pl) /\
    hview tp p 0 on h' /\ after_wake b pt pt'.
Proof.
  intros Hv Hl Hf Hc. unfold virtio_disk_intr. destruct (enter_vdisk h pt bc dk vd pl p 0 on ltac:(done) Hv Hf) as (h1 & E1 & V1). rewrite (bind_Ok _ _ _ _ _ E1).
  set (vd1 := set_vd_lock _ vd) in *. assert (completed vd1 u i0 b) as Hc1 by (by destruct Hc).
  destruct (intr_loop h1 pt bc dk vd1 pl p (0 + 1) on u i0 b ltac:(done) V1 Hl Hc1) as (h2 & pt2 & E2 & V2 & P2). rewrite (bind_Ok _ _ _ _ _ E2).
  unfold read_reg, write_reg, updvd. rewrite bind_gets, bind_modify. set (bc2 := bset b _ bc) in *. set (vd2 := set_vd_used_idx _ vd1) in *.
  change (k_vd (st s0 h2 pt2 bc2 dk vd2 pl)) with vd2. set (regs := <[_ := _]> (vd_regs vd2)).
  change (set_vd (set_vd_regs regs vd2) (st s0 h2 pt2 bc2 dk vd2 pl)) with (st s0 h2 pt2 bc2 dk (set_vd_regs regs vd2) pl).
  destruct (leave_vdisk h2 pt2 bc2 dk (set_vd_regs regs vd2) pl p 0 on (vd_lock vd) ltac:(done) V2 Hf eq_refl) as (h3 & E3 & V3).
  exists h3, pt2, regs. split_and!; [|done|exact P2]. rewrite E3. unfold vd2, vd1. by destruct vd.
Qed.

Lemma kerneltrap_st h pt bc dk vd pl u i0 b : hview tp None 0 false h -> r_scause (h_csr h) = 0x8000000000000009 ->
  (Z.land (r_sstatus (h_csr h)) SSTATUS_SPP =? 0) = false -> pfree pt -> lock_free (vd_lock vd) -> completed vd u i0 b -> pl_pending pl = [VIRTIO0_IRQ] ->
  exists h' pt' regs pl', kerneltrap (H0 := no_thread) (st s0 h pt bc dk vd pl) =
      Ok tt (st s0 h' pt' (bset b (set_b_disk 0 (buf_of bc b)) bc) dk (set_vd_regs regs (set_vd_used_idx ((u mod NUM + 1) mod NUM) vd)) pl') /\
    hview tp None 0 false h' /\ r_sstatus (h_csr h') = r_sstatus (h_csr h) /\ pl_pending pl' = [] /\ after_wake b pt pt'.
Proof.
  intros Hv Hcause Hspp Hl Hf Hc Hpl. unfold kerneltrap, csr. rewrite !bind_gets. change (hart_of (st s0 h pt bc dk vd pl)) with h.
  rewrite Hspp, bind_gets. change (hart_of (st s0 h pt bc dk vd pl)) with h. rewrite (hv_on _ _ _ _ _ Hv : intr_get h = false). unfold devintr, csr. rewrite bind_assoc, bind_gets. change (hart_of (st s0 h pt bc dk vd pl)) with h. rewrite Hcause.
  change (truthy _ && (_ =? 9)) with true. cbv iota. unfold plic_claim. rewrite !bind_assoc, bind_gets. change (k_pl (st s0 h pt bc dk vd pl)) with pl. rewrite Hpl.
  rewrite !bind_assoc, bind_modify, bind_ret. change (VIRTIO0_IRQ =? UART0_IRQ) with false. change (VIRTIO0_IRQ =? VIRTIO0_IRQ) with true. change (truthy VIRTIO0_IRQ) with true. cbv iota.
  set (pl1 := set_pl_pending [] pl). change (set_pl (set_pl_pending [] (k_pl (st s0 h pt bc dk vd pl))) (st s0 h pt bc dk vd pl)) with (st s0 h pt bc dk vd pl1).
  destruct (disk_intr_st h pt bc dk vd pl1 None false u i0 b Hv Hl Hf Hc) as (h1 & pt1 & regs & E1 & V1 & P1). rewrite !bind_assoc, (bind_Ok _ _ _ _ _ E1).
  set (bc1 := bset b _ bc) in *. set (vd1 := set_vd_regs regs _) in *. unfold plic_complete, plic_store. rewrite !bind_assoc, bind_gets, bind_modify, bind_ret.
  change (1 =? 0) with false. change (1 =? 2) with false. cbv iota. rewrite bind_skip. unfold w_sepc, w_sstatus, upd_csr. rewrite bind_modify.
  set (h2 := Hart (h_tp h1) (Csrs (r_sstatus (h_csr h)) (r_sepc (h_csr h)) (r_scause (h_csr h1)) (r_stval (h_csr h1)) (r_stvec (h_csr h1)) (r_satp (h_csr h1)) (r_sip (h_csr h1))) (h_cpus h1)).
  eexists h2, pt1, regs, _. split; [done|]. split_and!; [|done|done|exact P1]. destruct V1 as [A1 A2 A3 A4]. split; [done..|]. apply Hv.
Qed.

Lemma testbit_sstatus (x k j : Z) : 0 <= k -> Z.testbit (Z.lor x (Z.shiftl 1 k)) j = Z.testbit x j || (j =? k) /\ (0 <= j -> Z.testbit (Z.land x (Z.lnot (Z.shiftl 1 k))) j = Z.testbit x j && negb (j =? k)).
Proof.
  intros Hk. rewrite Z.lor_spec, Z.shiftl_1_l, Z.pow2_bits_eqb, (Z.eqb_sym k) by lia. split; [done|]. intros Hj.
  rewrite Z.land_spec, Z.lnot_spec, Z.pow2_bits_eqb, (Z.eqb_sym k) by lia. done.
Qed.

Lemma trap_bits x : Z.testbit x 1 = true ->
  Z.testbit (trap_sstatus x) 1 = false /\ Z.testbit (trap_sstatus x) 8 = true /\ Z.testbit (sret_sstatus (trap_sstatus x)) 1 = true.
Proof.
  intros Hx. unfold trap_sstatus, sret_sstatus, SSTATUS_SIE, SSTATUS_SPIE, SSTATUS_SPP. rewrite !truthy_pte_bit, Hx by lia.
  assert (forall y k j, 0 <= k -> Z.testbit (Z.lor y (Z.shiftl 1 k)) j = Z.testbit y j || (j =? k)) as B1 by (intros; by apply testbit_sstatus).
  assert (forall y k j, 0 <= k -> 0 <= j -> Z.testbit (Z.land y (Z.lnot (Z.shiftl 1 k))) j = Z.testbit y j && negb (j =? k)) as B2 by (intros; by apply testbit_sstatus).
  rewrite !B1, !B2, Hx by lia. cbn [Z.eqb Pos.eqb negb]. rewrite !andb_false_r, !orb_true_r. cbn [orb]. split_and!; [done|done|].
  rewrite B1 by lia. apply orb_true_r.
Qed.

Lemma interrupt_st h pt bc dk vd pl u i0 b : hview tp None 0 true h -> pfree pt -> lock_free (vd_lock vd) -> completed vd u i0 b -> pl_pending pl = [VIRTIO0_IRQ] ->
  exists h' pt' regs pl', interrupt (st s0 h pt bc dk vd pl) =
      Ok tt (st s0 h' pt' (bset b (set_b_disk 0 (buf_of bc b)) bc) dk (set_vd_regs regs (set_vd_used_idx ((u mod NUM + 1) mod NUM) vd)) pl') /\
    hview tp None 0 true h' /\ pl_pending pl' = [] /\ after_wake b pt pt'.
Proof.
  intros Hv Hl Hf Hc Hpl. unfold interrupt, upd_csr. rewrite bind_modify.
  set (h1 := Hart (h_tp h) (Csrs (trap_sstatus (r_sstatus (h_csr h))) wfi_pc 0x8000000000000009 0 (r_stvec (h_csr h)) (r_satp (h_csr h)) (r_sip (h_csr h))) (h_cpus h)).
  change (put_hart _ (st s0 h pt bc dk vd pl)) with (st s0 h1 pt bc dk vd pl). destruct Hv as [A1 A2 A3 A4]. cbn [Z.eqb] in A4. rewrite intr_get_bit in A4.
  destruct (trap_bits _ A4) as (B1 & B2 & B3).
  destruct (kerneltrap_st h1 pt bc dk vd pl u i0 b) as (h2 & pt2 & regs & pl2 & E2 & V2 & S2 & L2 & P2); try done.
  { split; [done..|]. cbn [Z.eqb]. by rewrite intr_get_bit. }
  { apply Z.eqb_neq. intros E. assert (Z.testbit (Z.land (r_sstatus (h_csr h1)) SSTATUS_SPP) 8 = false) as K by (by rewrite E).
    rewrite Z.land_spec in K. change (r_sstatus (h_csr h1)) with (trap_sstatus (r_sstatus (h_csr h))) in K. by rewrite B2 in K. }
  rewrite (bind_Ok _ _ _ _ _ E2). change (r_sstatus (h_csr h1)) with (trap_sstatus (r_sstatus (h_csr h))) in S2.
  set (h3 := Hart (h_tp h2) (Csrs (sret_sstatus (r_sstatus (h_csr h2))) (r_sepc (h_csr h2)) (r_scause (h_csr h2)) (r_stval (h_csr h2)) (r_stvec (h_csr h2)) (r_satp (h_csr h2)) (r_sip (h_csr h2))) (h_cpus h2)).
  exists h3, pt2, regs, pl2. split; [done|]. split_and!; [|done|done]. destruct V2 as [C1 C2 C3 C4]. split; [done..|]. cbn [Z.eqb]. rewrite intr_get_bit.
  change (r_sstatus (h_csr h3)) with (sret_sstatus (r_sstatus (h_csr h2))). by rewrite S2.
Qed.

(** ** The device, and the scheduler around it *)

(** The request is the only one, and its process waits for buffer [b]. *)
Record waiting (vd : vdisk) (u n : Z) (write : bool) (b i0 i1 i2 : nat) : Prop := {
  wt_range : 0 <= u < 65536 /\ 0 <= n;
  wt_used : vd_used_id vd = u;
  wt_seen : vd_used_idx vd = u mod NUM;
  wt_lock : lock_free (vd_lock vd);
  wt_buf : vd_info_b vd !! i0 = Some b;
  wt_request : request vd (if write then VIRTIO_BLK_T_OUT else VIRTIO_BLK_T_IN) (2 * n) b i0 i1 i2 }.

(** The rings, the disk and the buffers once it has been served. *)
Definition vd_done (i0 : nat) (u : Z) (regs : gmap Z Z) (vd : vdisk) : vdisk := set_vd_used_idx ((u mod NUM + 1) mod NUM) (served i0 regs vd).
Definition dk_done (n : Z) (write : bool) (b : nat) (bc : bcache) (dk : disk) : disk := if write then disk_put n (b_data (buf_of bc b)) dk else dk.
Definition buf_done (n : Z) (write : bool) (b : nat) (bc : bcache) (dk : disk) : buf :=
  set_b_disk 0 (if write then buf_of bc b else set_b_data (dblock dk n) (buf_of bc b)).

Lemma device_st h pt bc dk vd pl u n write b i0 i1 i2 : waiting vd u n write b i0 i1 i2 -> pl_pending pl = [] ->
  exists regs bc1 pl1, device_step (st s0 h pt bc dk vd pl) = st s0 h pt bc1 (dk_done n write b bc dk) (served i0 regs vd) pl1 /\ pl_pending pl1 = [VIRTIO0_IRQ] /\
    bc_lock bc1 = bc_lock bc /\ forall x, buf_of bc1 x = if decide (b = x) then (if write then buf_of bc b else set_b_data (dblock dk n) (buf_of bc b)) else buf_of bc x.
Proof.
  intros [[W1 W1'] W2 W3 W4 W5 W6] Hpl. unfold device_step. change (k_vd (st s0 h pt bc dk vd pl)) with vd. change (k_dk (st s0 h pt bc dk vd pl)) with dk.
  change (fun b => b_data (getb (st s0 h pt bc dk vd pl) b)) with (fun b => b_data (buf_of bc b)). change (k_pl (st s0 h pt bc dk vd pl)) with pl.
  assert (forall regs, (vd_used_id (served i0 regs vd) =? vd_used_id vd) = false) as Hne.
  { intros regs. apply Z.eqb_neq. unfold served. cbn. rewrite W2. unfold u16. zlia. }
  destruct write.
  - destruct (device_out vd dk (fun b => b_data (buf_of bc b)) n b i0 i1 i2 W1' W6) as [regs E]. rewrite E, Hne, Hpl.
    eexists regs, bc, _. split_and!; [done|done|done|]. intros x. by case_decide; subst.
  - destruct (device_in vd dk (fun b => b_data (buf_of bc b)) n b i0 i1 i2 W1' W6) as [regs E]. rewrite E, Hne, Hpl.
    eexists regs, (bset b (set_b_data (dblock dk n) (buf_of bc b)) bc), _. split_and!; [done|done|done|]. intros x. by rewrite buf_of_bset.
Qed.

Lemma wfi_st h pt bc dk vd pl u n write b i0 i1 i2 : waiting vd u n write b i0 i1 i2 -> pl_pending pl = [] -> hview tp None 0 true h -> pfree pt ->
  exists h' pt' regs bc' pl', wfi (st s0 h pt bc dk vd pl) = Ok tt (st s0 h' pt' bc' (dk_done n write b bc dk) (vd_done i0 u regs vd) pl') /\
    hview tp None 0 true h' /\ pl_pending pl' = [] /\ after_wake b pt pt' /\ bc_lock bc' = bc_lock bc /\
    forall x, buf_of bc' x = if decide (b = x) then buf_done n write b bc dk else buf_of bc x.
Proof.
  intros Hw Hpl Hv Hl. unfold wfi. rewrite bind_modify. destruct (device_st h pt bc dk vd pl u n write b i0 i1 i2 Hw Hpl) as (regs & bc1 & pl1 & -> & L1 & K1 & B1).
  destruct (interrupt_st h pt bc1 (dk_done n write b bc dk) (served i0 regs vd) pl1 u i0 b Hv Hl) as (h2 & pt2 & regs2 & pl2 & E2 & V2 & L2 & P2); [apply Hw| |done|].
  { destruct Hw as [[W1 _] W2 W3 W4 W5 W6]. split; try done; unfold served; cbn; rewrite ?W2; [done|apply lookup_insert_eq..]. }
  eexists h2, pt2, regs2, _, pl2. split; [exact E2|]. split_and!; [done|done|done|exact K1|]. intros x. rewrite buf_of_bset, !B1, (decide_True (P := b = b)) by done.
  unfold buf_done. by case_decide.
Qed.

(** Process [i] sleeps for buffer [b] and holds its own lock; no other process
    can run. *)
Record asleep (i b : nat) (k : spinlock) (pt : ptable) : Prop := {
  as_slot : i ∈ procs;
  as_free : lock_free k;
  as_held : p_lock (proc_of pt i) = held tp k;
  as_state : p_state (proc_of pt i) = SLEEPING;
  as_chan : p_chan (proc_of pt i) = Some (ChBuf b);
  as_locks : forall j, j <> i -> lock_free (p_lock (proc_of pt j));
  as_rest : forall j, j <> i -> p_state (proc_of pt j) <> RUNNABLE /\ (p_state (proc_of pt j) = SLEEPING -> p_chan (proc_of pt j) <> Some (ChBuf b));
  as_next : pt_next pt = 0 }.

Lemma turns_st h pt bc dk vd pl u n write b i0 i1 i2 i on : hview tp None 0 on h -> waiting vd u n write b i0 i1 i2 -> pl_pending pl = [] ->
  i ∈ procs -> pfree pt -> p_state (proc_of pt i) = SLEEPING -> p_chan (proc_of pt i) = Some (ChBuf b) ->
  (forall j, j <> i -> p_state (proc_of pt j) <> RUNNABLE /\ (p_state (proc_of pt j) = SLEEPING -> p_chan (proc_of pt j) <> Some (ChBuf b))) -> pt_next pt = 0 ->
  exists h' pt' regs bc' pl', scheduler_turns 2 (st s0 h pt bc dk vd pl) = Ok tt (st s0 h' pt' bc' (dk_done n write b bc dk) (vd_done i0 u regs vd) pl') /\
    hview tp (Some i) 1 true h' /\ pl_pending pl' = [] /\ bc_lock bc' = bc_lock bc /\
    (forall x, buf_of bc' x = if decide (b = x) then buf_done n write b bc dk else buf_of bc x) /\ pt_next pt' = 0 /\
    forall x, proc_of pt' x = if decide (i = x) then set_p_state RUNNING (set_p_lock (held tp (p_lock (proc_of pt i))) (proc_of pt i)) else proc_of pt x.
Proof.
  intros Hv Hw Hpl Hi Hl Hs Hch Hrest Hx. cbn [scheduler_turns]. rewrite bind_modify. change (put_hart _ (st s0 h pt bc dk vd pl)) with (st s0 (intr_on h) pt bc dk vd pl).
  destruct (run_next_none procs (intr_on h) pt bc dk vd pl None true (hview_on _ _ _ _ Hv)) as (h1 & pt1 & E1 & [P1 Q1] & V1).
  { intros j _. split; [apply Hl|]. destruct (decide (j = i)) as [->|Hne]; [congruence|]. by apply Hrest. }
  rewrite (bind_Ok _ _ _ _ _ E1), bind_modify. change (put_hart _ (st s0 h1 pt1 bc dk vd pl)) with (st s0 (intr_on h1) pt1 bc dk vd pl).
  destruct (wfi_st (intr_on h1) pt1 bc dk vd pl u n write b i0 i1 i2 Hw Hpl (hview_on _ _ _ _ V1)) as (h2 & pt2 & regs & bc2 & pl2 & E2 & V2 & L2 & [Q2 P2] & K2 & B2).
  { intros j. rewrite P1. apply Hl. }
  rewrite (bind_Ok _ _ _ _ _ E2), bind_modify. set (dk2 := dk_done _ _ _ _ _) in *. set (vd2 := vd_done _ _ _ _) in *.
  change (put_hart _ (st s0 h2 pt2 bc2 dk2 vd2 pl2)) with (st s0 (intr_on h2) pt2 bc2 dk2 vd2 pl2).
  assert (forall j, j <> i -> proc_of pt2 j = proc_of pt j) as Hj.
  { intros j Hne. rewrite P2, P1. case_decide; [|done]. unfold wake. destruct (Hrest j Hne) as [_ K].
    destruct (decide (p_state (proc_of pt j) = SLEEPING)) as [E|E]; [|by rewrite (bool_decide_eq_false_2 _ E)].
    by rewrite (bool_decide_eq_false_2 _ (K E)), andb_false_r. }
  assert (proc_of pt2 i = set_p_state RUNNABLE (proc_of pt i)) as Ei.
  { rewrite P2, P1, decide_True by done. unfold wake. by rewrite !bool_decide_eq_true_2. }
  pose proof Hi as Hsp. apply list_elem_of_split in Hsp as (l1 & l2 & El).
  assert (i ∉ l1) as Hnot. { assert (NoDup procs) as Hnd by apply NoDup_seq. rewrite El in Hnd. apply NoDup_app in Hnd as (_ & Hnd & _). intros H. apply (Hnd i H). left. }
  destruct (run_next_some l1 i l2 (intr_on h2) pt2 bc2 dk2 vd2 pl2 None true (hview_on _ _ _ _ V2)) as (h3 & pt3 & E3 & V3 & X3 & P3).
  { intros x Hxl. rewrite Hj by (intros ->; done). split; [apply Hl|]. apply Hrest. intros ->. done. }
  { rewrite Ei. apply Hl. } { by rewrite Ei. } { congruence. }
  rewrite <- El in E3. rewrite (bind_Ok _ _ _ _ _ E3). exists h3, pt3, regs, bc2, pl2. split; [done|]. split_and!; [done..|].
  intros x. rewrite P3, Ei. case_decide; [done|]. by apply Hj.
Qed.

Lemma others_st h pt bc dk vd pl u n write b i0 i1 i2 i k on : hview tp (Some i) 1 on h -> waiting vd u n write b i0 i1 i2 -> pl_pending pl = [] -> asleep i b k pt ->
  exists h' pt' regs bc' pl', system_others (st s0 h pt bc dk vd pl) = st s0 h' pt' bc' (dk_done n write b bc dk) (vd_done i0 u regs vd) pl' /\
    hview tp (Some i) 1 true h' /\ pl_pending pl' = [] /\ bc_lock bc' = bc_lock bc /\
    (forall x, buf_of bc' x = if decide (b = x) then buf_done n write b bc dk else buf_of bc x) /\ pt_next pt' = 0 /\
    forall x, proc_of pt' x = if decide (i = x) then set_p_state RUNNING (proc_of pt i) else proc_of pt x.
Proof.
  intros Hv Hw Hpl [A1 A2 A3 A4 A5 A6 A7 A8]. unfold system_others. change (hart_of (st s0 h pt bc dk vd pl)) with h. rewrite (hv_proc _ _ _ _ _ Hv).
  unfold away, scheduler_back, set_cproc. rewrite !bind_assoc, bind_modify.
  set (h1 := set_mycpu (Cpu None (c_context (mycpu h)) (c_noff (mycpu h)) (c_intena (mycpu h))) h). change (put_hart _ (st s0 h pt bc dk vd pl)) with (st s0 h1 pt bc dk vd pl).
  assert (hview tp None (0 + 1) on h1) as V1 by (by eapply hview_cproc).
  destruct (leave_plock h1 pt bc dk vd pl i None 0 on k ltac:(done) V1 A2 A3) as (h2 & E2 & V2). rewrite (bind_Ok _ _ _ _ _ E2). set (pt2 := pset i _ pt) in *.
  assert (forall x, proc_of pt2 x = if decide (i = x) then set_p_lock k (proc_of pt i) else proc_of pt x) as P2 by (intros x; apply proc_of_pset).
  assert (pfree pt2) as Hf. { intros j. rewrite P2. case_decide; [done|]. by apply A6. }
  assert (forall j, j <> i -> p_state (proc_of pt2 j) <> RUNNABLE /\ (p_state (proc_of pt2 j) = SLEEPING -> p_chan (proc_of pt2 j) <> Some (ChBuf b))) as Hr.
  { intros j Hne. rewrite P2, decide_False by congruence. by apply A7. }
  destruct (run_next_none (drop (S i) procs) h2 pt2 bc dk vd pl None on V2) as (h3 & pt3 & E3 & [P3 Q3] & V3).
  { intros j _. split; [apply Hf|]. destruct (decide (j = i)) as [->|Hne]; [rewrite P2, decide_True by done; cbn; congruence|by apply Hr]. }
  rewrite (bind_Ok _ _ _ _ _ E3).
  destruct (turns_st h3 pt3 bc dk vd pl u n write b i0 i1 i2 i on V3 Hw Hpl A1) as (h4 & pt4 & regs & bc4 & pl4 & E4 & V4 & L4 & K4 & B4 & X4 & P4).
  { intros j. rewrite P3. apply Hf. } { by rewrite P3, P2, decide_True. } { by rewrite P3, P2, decide_True. }
  { intros j Hne. rewrite P3. by apply Hr. } { by rewrite Q3. }
  rewrite E4. set (dk4 := dk_done _ _ _ _ _) in *. set (vd4 := vd_done _ _ _ _) in *. change (hart_of (st s0 h4 pt4 bc4 dk4 vd4 pl4)) with h4. rewrite (hv_proc _ _ _ _ _ V4), decide_True by done.
  exists h4, pt4, regs, bc4, pl4. split_and!; [done..|]. intros x. rewrite P4, !P3, !P2, (decide_True (P := i = i)) by done. case_decide; [|done].
  rewrite set_p_lock_twice. cbn [p_lock set_p_lock]. f_equal. rewrite <- A3. apply set_p_lock_id.
Qed.

(** ** sleep, and the driver *)

#[local] Existing Instance system.

Lemma curproc_st h pt bc dk vd pl i n on : 0 <= n -> hview tp (Some i) n on h ->
  exists h', curproc (st s0 h pt bc dk vd pl) = Ok i (st s0 h' pt bc dk vd pl) /\ hview tp (Some i) n on h'.
Proof.
  intros Hn Hv. exists (touched h). split; [|by apply hview_touched]. apply (curproc_eq i (st s0 h pt bc dk vd pl)); [exact (hview_ok _ _ _ _ _ Hn Hv)|apply Hv].
Qed.

Lemma sched_st h pt bc dk vd pl u n write b i0 i1 i2 i k on : hview tp (Some i) 1 on h -> waiting vd u n write b i0 i1 i2 -> pl_pending pl = [] -> asleep i b k pt ->
  exists h' pt' regs bc' pl', sched (st s0 h pt bc dk vd pl) = Ok tt (st s0 h' pt' bc' (dk_done n write b bc dk) (vd_done i0 u regs vd) pl') /\
    hview tp (Some i) 1 on h' /\ pl_pending pl' = [] /\ bc_lock bc' = bc_lock bc /\
    (forall x, buf_of bc' x = if decide (b = x) then buf_done n write b bc dk else buf_of bc x) /\ pt_next pt' = 0 /\
    forall x, proc_of pt' x = if decide (i = x) then set_p_state RUNNING (proc_of pt i) else proc_of pt x.
Proof.
  intros Hv Hw Hpl Ha. unfold sched. destruct (curproc_st h pt bc dk vd pl i 1 on ltac:(done) Hv) as (h1 & E1 & V1). rewrite (bind_Ok _ _ _ _ _ E1).
  unfold holding. rewrite bind_gets. change (lk_get (plock i) (st s0 h1 pt bc dk vd pl)) with (p_lock (proc_of pt i)). change (hart_of (st s0 h1 pt bc dk vd pl)) with h1.
  rewrite (as_held _ _ _ _ Ha), (hv_tp _ _ _ _ _ V1), (bool_decide_eq_true_2 (lk_cpu (held tp k) = Some tp)) by done. cbn [truthy held lk_locked Z.eqb negb andb].
  rewrite bind_gets. change (hart_of (st s0 h1 pt bc dk vd pl)) with h1. rewrite (hv_noff _ _ _ _ _ V1). cbn [Z.eqb Pos.eqb negb].
  rewrite bind_gets. change (getp (st s0 h1 pt bc dk vd pl) i) with (proc_of pt i). rewrite (as_state _ _ _ _ Ha), decide_False by done.
  rewrite bind_gets. change (hart_of (st s0 h1 pt bc dk vd pl)) with h1. destruct (hv_on _ _ _ _ _ V1) as [O1 O2]. rewrite O1, O2. unfold swtch. rewrite bind_modify.
  change (others (st s0 h1 pt bc dk vd pl)) with (system_others (st s0 h1 pt bc dk vd pl)).
  destruct (others_st h1 pt bc dk vd pl u n write b i0 i1 i2 i k on V1 Hw Hpl Ha) as (h2 & pt2 & regs & bc2 & pl2 & E2 & V2 & R2). rewrite E2.
  exists (set_mycpu (set_intena on (mycpu h2)) h2), pt2, regs, bc2, pl2. split; [done|]. split; [|exact R2].
  destruct V2 as [A1 A2 A3 A4]. cbn [Z.eqb] in A4. destruct A4 as [A4 _]. split; rewrite ?mycpu_set_mycpu, ?intr_get_set_mycpu; done.
Qed.

(** The process that runs, before and after it slept. *)
Record running (i b : nat) (pt : ptable) : Prop := {
  rn_slot : i ∈ procs;
  rn_locks : pfree pt;
  rn_rest : forall j, j <> i -> p_state (proc_of pt j) <> RUNNABLE /\ (p_state (proc_of pt j) = SLEEPING -> p_chan (proc_of pt j) <> Some (ChBuf b));
  rn_next : pt_next pt = 0 }.

Lemma sleep_st h pt bc dk vd pl u n write b i0 i1 i2 i k on : hview tp (Some i) 1 on h -> vd_lock vd = held tp k -> lock_free k ->
  waiting (set_vd_lock k vd) u n write b i0 i1 i2 -> pl_pending pl = [] -> running i b pt ->
  exists h' pt' regs bc' pl', sleep (ChBuf b) (Some vdisklock) (st s0 h pt bc dk vd pl) =
      Ok tt (st s0 h' pt' bc' (dk_done n write b bc dk) (set_vd_lock (held tp k) (vd_done i0 u regs vd)) pl') /\
    hview tp (Some i) 1 on h' /\ pl_pending pl' = [] /\ bc_lock bc' = bc_lock bc /\
    (forall x, buf_of bc' x = if decide (b = x) then buf_done n write b bc dk else buf_of bc x) /\ pt_next pt' = 0 /\
    forall x, proc_of pt' x = if decide (i = x) then set_p_chan None (set_p_state RUNNING (proc_of pt i)) else proc_of pt x.
Proof.
  intros Hv Hk Hf Hw Hpl [R1 R2 R3 R4]. unfold sleep. destruct (curproc_st h pt bc dk vd pl i 1 on ltac:(done) Hv) as (h1 & E1 & V1). rewrite (bind_Ok _ _ _ _ _ E1).
  destruct (enter_plock h1 pt bc dk vd pl i (Some i) 1 on ltac:(done) V1 (R2 i)) as (h2 & E2 & V2). rewrite !bind_assoc, (bind_Ok _ _ _ _ _ E2). set (pt2 := pset i _ pt) in *.
  destruct (leave_vdisk h2 pt2 bc dk vd pl (Some i) 1 on k ltac:(done) V2 Hf Hk) as (h3 & E3 & V3). rewrite (bind_Ok _ _ _ _ _ E3). set (vd3 := set_vd_lock k vd) in *.
  unfold updp. rewrite !bind_modify. change (getp (st s0 h3 pt2 bc dk vd3 pl) i) with (proc_of pt2 i). 
  change (setp i ?x (st s0 h3 pt2 bc dk vd3 pl)) with (st s0 h3 (pset i x pt2) bc dk vd3 pl). set (pt3 := pset i _ pt2).
  change (getp (st s0 h3 pt3 bc dk vd3 pl) i) with (proc_of pt3 i). change (setp i ?x (st s0 h3 pt3 bc dk vd3 pl)) with (st s0 h3 (pset i x pt3) bc dk vd3 pl). set (pt4 := pset i _ pt3).
  assert (forall x, proc_of pt4 x = if decide (i = x) then set_p_state SLEEPING (set_p_chan (Some (ChBuf b)) (set_p_lock (held tp (p_lock (proc_of pt i))) (proc_of pt i))) else proc_of pt x) as P4.
  { intros x. unfold pt4, pt3, pt2. rewrite !proc_of_pset, !(decide_True (P := i = i)) by done. by case_decide. }
  assert (asleep i b (p_lock (proc_of pt i)) pt4) as Ha.
  { split; [done|apply R2|by rewrite P4, decide_True|by rewrite P4, decide_True|by rewrite P4, decide_True|..|done]; intros j Hne; rewrite P4, decide_False by congruence; [apply R2|by apply R3]. }
  destruct (sched_st h3 pt4 bc dk vd3 pl u n write b i0 i1 i2 i (p_lock (proc_of pt i)) on V3 Hw Hpl Ha) as (h5 & pt5 & regs & bc5 & pl5 & E5 & V5 & L5 & K5 & B5 & X5 & P5).
  rewrite (bind_Ok _ _ _ _ _ E5), bind_modify. set (dk5 := dk_done _ _ _ _ _) in *. set (vd5 := vd_done _ _ _ _) in *.
  change (getp (st s0 h5 pt5 bc5 dk5 vd5 pl5) i) with (proc_of pt5 i). change (setp i ?x (st s0 h5 pt5 bc5 dk5 vd5 pl5)) with (st s0 h5 (pset i x pt5) bc5 dk5 vd5 pl5). set (pt6 := pset i _ pt5).
  assert (p_lock (proc_of pt6 i) = held tp (p_lock (proc_of pt i))) as E6. { unfold pt6. rewrite proc_of_pset, decide_True by done. rewrite P5, P4, !decide_True by done. done. }
  destruct (leave_plock h5 pt6 bc5 dk5 vd5 pl5 i (Some i) 0 on (p_lock (proc_of pt i)) ltac:(done) V5 (R2 i) E6) as (h7 & E7 & V7). rewrite (bind_Ok _ _ _ _ _ E7). set (pt7 := pset i _ pt6) in *.
  destruct (enter_vdisk h7 pt7 bc5 dk5 vd5 pl5 (Some i) 0 on ltac:(done) V7 Hf) as (h8 & E8 & V8).
  exists h8, pt7, regs, bc5, pl5. split; [exact E8|]. split_and!; [done..|]. intros x. unfold pt7, pt6. rewrite !proc_of_pset, !(decide_True (P := i = i)) by done.
  case_decide; [|by rewrite P5, decide_False, P4, decide_False by done]. rewrite P5, P4, !decide_True by done. by destruct (proc_of pt i).
Qed.
End Steps.

Section Driver.
Context `{HW : Hardware} `{HL : !HardwareLaws}.
Context (s0 : kst) (tp : Z).
#[local] Existing Instance system.

(** ** The descriptors *)

Lemma getdesc_setdesc i x v j : getdesc (setdesc i x v) j = if decide (i = j) then x else getdesc v j.
Proof. unfold getdesc, setdesc. cbn. rewrite lookup_insert. by case_decide. Qed.

(** The free flags with the first three descriptors in use. *)
Definition three_used : list Z := [0; 0; 0; 1; 1; 1; 1; 1].

Lemma alloc3_st h pt bc dk vd pl : vd_free vd = replicate (Z.to_nat NUM) 1 ->
  alloc3_desc (st s0 h pt bc dk vd pl) = Ok (Some [0; 1; 2]%nat) (st s0 h pt bc dk (set_vd_free three_used vd) pl).
Proof. intros Hf. destruct vd. cbn in Hf. rewrite Hf. reflexivity. Qed.

(** Nobody waits for a descriptor. *)
Definition no_waiter (pt : ptable) : Prop := forall j, p_state (proc_of pt j) = SLEEPING -> p_chan (proc_of pt j) <> Some ChDiskFree.

Definition cleared (j : nat) (vd : vdisk) : vdisk :=
  let x := getdesc vd j in mark j 1 (setdesc j (Vdesc ANull (dc_len x) (dc_flags x) (dc_next x)) vd).

Lemma free_desc_st h pt bc dk vd pl p n on j : 0 <= n -> hview tp p n on h -> pfree pt -> no_waiter pt -> (j < 8)%nat -> isfree vd j = false ->
  exists h' pt', free_desc j (st s0 h pt bc dk vd pl) = Ok tt (st s0 h' pt' bc dk (cleared j vd) pl) /\ hview tp p n on h' /\ peq pt pt'.
Proof.
  intros Hn Hv Hl Hw Hj Hf. unfold free_desc. change NUM with 8. rewrite (proj2 (Z.leb_gt 8 (Z.of_nat j))) by lia.
  rewrite bind_gets. change (k_vd (st s0 h pt bc dk vd pl)) with vd. rewrite Hf. unfold updvd. rewrite !bind_modify.
  destruct (wakeup_st s0 tp h pt bc dk (cleared j vd) pl p n on ChDiskFree Hn Hv Hl) as (h1 & pt1 & E1 & V1 & X1 & P1).
  exists h1, pt1. split; [exact E1|]. split; [done|]. split; [|done]. intros x. rewrite P1. case_decide; [|done]. unfold wake.
  destruct (decide (p_state (proc_of pt x) = SLEEPING)) as [E|E]; [|by rewrite (bool_decide_eq_false_2 _ E)].
  by rewrite (bool_decide_eq_false_2 _ (Hw x E)), andb_false_r.
Qed.

Lemma no_waiter_peq pt pt' : peq pt pt' -> no_waiter pt -> no_waiter pt'.
Proof. intros [H _] Hw j. rewrite H. apply Hw. Qed.
Lemma pfree_peq pt pt' : peq pt pt' -> pfree pt -> pfree pt'.
Proof. intros [H _] Hw j. rewrite H. apply Hw. Qed.

Lemma free_chain_step h pt bc dk vd pl p n on j fuel : 0 <= n -> hview tp p n on h -> pfree pt -> no_waiter pt -> (j < 8)%nat -> isfree vd j = false ->
  exists h' pt', hview tp p n on h' /\ peq pt pt' /\ free_chain_loop (S fuel) j (st s0 h pt bc dk vd pl) =
    (if truthy (Z.land (dc_flags (getdesc vd j)) VRING_DESC_F_NEXT) then free_chain_loop fuel (Z.to_nat (dc_next (getdesc vd j))) else skip) (st s0 h' pt' bc dk (cleared j vd) pl).
Proof.
  intros Hn Hv Hl Hw Hj Hf. destruct (free_desc_st h pt bc dk vd pl p n on j Hn Hv Hl Hw Hj Hf) as (h1 & pt1 & E1 & V1 & P1). exists h1, pt1. split_and!; [done|done|].
  cbn [free_chain_loop]. rewrite (bind_Ok _ _ _ _ _ E1), bind_gets. change (k_vd (st s0 h1 pt1 bc dk ?v pl)) with v.
  assert (getdesc (cleared j vd) j = Vdesc ANull (dc_len (getdesc vd j)) (dc_flags (getdesc vd j)) (dc_next (getdesc vd j))) as ->; [|done].
  unfold cleared. change (getdesc (mark j 1 ?v)) with (getdesc v). by rewrite getdesc_setdesc, decide_True.
Qed.

(** The chain of a request. *)
Record chain (vd : vdisk) : Prop := {
  ch_free : vd_free vd = three_used;
  ch_0 : dc_flags (getdesc vd 0) = 1 /\ dc_next (getdesc vd 0) = 1;
  ch_1 : truthy (Z.land (dc_flags (getdesc vd 1)) 1) = true /\ dc_next (getdesc vd 1) = 2;
  ch_2 : dc_flags (getdesc vd 2) = 2 }.

Lemma getdesc_cleared j vd x : getdesc (cleared j vd) x = if decide (j = x) then Vdesc ANull (dc_len (getdesc vd j)) (dc_flags (getdesc vd j)) (dc_next (getdesc vd j)) else getdesc vd x.
Proof. unfold cleared. change (getdesc (mark j 1 ?v)) with (getdesc v). apply getdesc_setdesc. Qed.

Lemma free_chain_st h pt bc dk vd pl p n on : 0 <= n -> hview tp p n on h -> pfree pt -> no_waiter pt -> chain vd ->
  exists h' pt' ds, free_chain 0 (st s0 h pt bc dk vd pl) = Ok tt (st s0 h' pt' bc dk (set_vd_free (replicate 8 1) (set_vd_desc ds vd)) pl) /\ hview tp p n on h' /\ peq pt pt'.
Proof.
  intros Hn Hv Hl Hw [C0 [C1 C2] [C3 C4] C5]. unfold free_chain. change (S (Z.to_nat NUM)) with 9%nat.
  destruct (free_chain_step h pt bc dk vd pl p n on 0 8 Hn Hv Hl Hw) as (h1 & pt1 & V1 & P1 & ->); [lia|unfold isfree; by rewrite C0|].
  rewrite C1, C2. change (truthy (Z.land 1 VRING_DESC_F_NEXT)) with true. cbv iota. change (Z.to_nat 1) with 1%nat.
  destruct (free_chain_step h1 pt1 bc dk (cleared 0 vd) pl p n on 1 7 Hn V1 (pfree_peq _ _ P1 Hl) (no_waiter_peq _ _ P1 Hw)) as (h2 & pt2 & V2 & P2 & ->); [lia|unfold isfree, cleared; cbn; by rewrite C0|].
  rewrite !getdesc_cleared, decide_False, C4 by done. unfold VRING_DESC_F_NEXT. rewrite C3. cbv iota. change (Z.to_nat 2) with 2%nat.
  assert (peq pt pt2) as P12 by (by etransitivity).
  destruct (free_chain_step h2 pt2 bc dk (cleared 1 (cleared 0 vd)) pl p n on 2 6 Hn V2 (pfree_peq _ _ P12 Hl) (no_waiter_peq _ _ P12 Hw)) as (h3 & pt3 & V3 & P3 & ->); [lia|unfold isfree, cleared; cbn; by rewrite C0|].
  rewrite !getdesc_cleared, !decide_False, C5 by done. exists h3, pt3, (vd_desc (cleared 2 (cleared 1 (cleared 0 vd)))). split_and!; [|done|by etransitivity].
  change (truthy (Z.land 2 VRING_DESC_F_NEXT)) with false. cbv iota. unfold skip, ret. f_equal. f_equal. unfold cleared, mark, setdesc. cbn. rewrite C0. done.
Qed.

(** The rings when the request is in them. *)
Definition offered (b : nat) (n : Z) (write : bool) (regs : gmap Z Z) (vd : vdisk) : vdisk :=
  set_vd_regs regs (offer 0 (let d := format_request b 0 1 2 (2 * n) write (set_vd_free three_used vd) in set_vd_info_b (<[0%nat := b]> (vd_info_b d)) d)).

Lemma offered_desc b n write regs vd k : let w := set_vd_lock k (offered b n write regs vd) in
  getdesc w 0 = Vdesc (AHdr (if write then VIRTIO_BLK_T_OUT else VIRTIO_BLK_T_IN) (2 * n)) 16 VRING_DESC_F_NEXT 1 /\
  getdesc w 1 = Vdesc (AData b) BSIZE (Z.lor (if write then 0 else VRING_DESC_F_WRITE) VRING_DESC_F_NEXT) 2 /\
  getdesc w 2 = Vdesc (AStatus 0) 1 VRING_DESC_F_WRITE 0.
Proof.
  intros w. set (d0 := set_vd_free three_used vd).
  change (getdesc w) with (getdesc (setdesc 2 (Vdesc (AStatus 0) 1 VRING_DESC_F_WRITE 0)
    (setdesc 1 (Vdesc (AData b) BSIZE (Z.lor (if write then 0 else VRING_DESC_F_WRITE) VRING_DESC_F_NEXT) 2)
    (setdesc 0 (Vdesc (AHdr (if write then VIRTIO_BLK_T_OUT else VIRTIO_BLK_T_IN) (2 * n)) 16 VRING_DESC_F_NEXT 1) d0)))).
  rewrite !getdesc_setdesc. done.
Qed.

Lemma offered_waiting b n write regs vd pl k : disk_idle vd pl -> 0 <= n -> lock_free k ->
  waiting (set_vd_lock k (offered b n write regs vd)) (vd_used_id vd) n write b 0 1 2.
Proof.
  intros [D1 D2 D3 D4 D5 D6] Hn Hk. destruct (offered_desc b n write regs vd k) as (G0 & G1 & G2). split; try done.
  - change (<[0%nat := b]> (vd_info_b vd) !! 0%nat = Some b). apply lookup_insert_eq.
  - split.
    + change (u16 (vd_avail_idx vd + 1) = u16 (vd_used_id vd + 1)). by rewrite D4.
    + change (<[Z.to_nat (vd_avail_idx vd mod NUM) := 0]> (vd_avail vd) !! Z.to_nat (vd_used_id vd mod NUM) = Some 0). rewrite D4. apply lookup_insert_eq.
    + exact G0.
    + rewrite G1. by destruct write.
    + exact G2.
Qed.

Lemma rw_start h pt bc dk vd pl b n write : vd_free vd = replicate (Z.to_nat NUM) 1 -> exists regs, forall K : M kst unit,
  (let! idx := wait_descs (S patience) in
   match idx with
   | [i0; i1; i2] =>
      updvd (format_request b i0 i1 i2 (2 * n) write);;
      updb b (set_b_disk 1);;
      updvd (fun d => set_vd_info_b (<[i0 := b]> (vd_info_b d)) d);;
      updvd (offer i0);;
      write_reg VIRTIO_MMIO_QUEUE_NOTIFY 0;;
      sleep_while (fun s => b_disk (getb s b) =? 1) (ChBuf b) (Some vdisklock);;
      updvd (fun d => set_vd_info_b (delete i0 (vd_info_b d)) d);;
      free_chain i0;;
      K
   | _ => ub
   end) (st s0 h pt bc dk vd pl) =
  (sleep_while (fun s => b_disk (getb s b) =? 1) (ChBuf b) (Some vdisklock);;
      updvd (fun d => set_vd_info_b (delete 0%nat (vd_info_b d)) d);;
      free_chain 0;;
      K) (st s0 h pt (bset b (set_b_disk 1 (buf_of bc b)) bc) dk (offered b n write regs vd) pl).
Proof.
  intros Hf. exists (<[VIRTIO_MMIO_QUEUE_NOTIFY := u32 0]> (vd_regs vd)). intros K. change (S patience) with 2%nat. cbn [wait_descs].
  rewrite bind_assoc, (bind_Ok _ _ _ _ _ (alloc3_st h pt bc dk vd pl Hf)), bind_ret. cbv iota. unfold write_reg, updvd, updb. rewrite !bind_modify. done.
Qed.

Lemma running_alone i b pt : alone i pt -> pfree pt -> running i b pt /\ no_waiter pt.
Proof.
  intros [A1 A2 A3 A4] Hl. split; [split; try done|].
  - intros j Hne. destruct (A3 j Hne) as [K1 K2]. split; [done|]. intros Hs Hc. by specialize (K2 Hs _ Hc).
  - intros j Hs Hc. destruct (decide (j = i)) as [->|Hne]; [congruence|]. destruct (A3 j Hne) as [K1 K2]. by specialize (K2 Hs _ Hc).
Qed.

Lemma sleep_while_st h pt bc dk vd pl u n write b i k on : hview tp (Some i) 1 on h -> vd_lock vd = held tp k -> lock_free k ->
  waiting (set_vd_lock k vd) u n write b 0 1 2 -> pl_pending pl = [] -> running i b pt -> b_disk (buf_of bc b) = 1 ->
  exists h' pt' regs bc' pl', sleep_while (fun s => b_disk (getb s b) =? 1) (ChBuf b) (Some vdisklock) (st s0 h pt bc dk vd pl) =
      Ok tt (st s0 h' pt' bc' (dk_done n write b bc dk) (set_vd_lock (held tp k) (vd_done 0 u regs vd)) pl') /\
    hview tp (Some i) 1 on h' /\ pl_pending pl' = [] /\ bc_lock bc' = bc_lock bc /\
    (forall x, buf_of bc' x = if decide (b = x) then buf_done n write b bc dk else buf_of bc x) /\ pt_next pt' = 0 /\
    forall x, proc_of pt' x = if decide (i = x) then set_p_chan None (set_p_state RUNNING (proc_of pt i)) else proc_of pt x.
Proof.
  intros Hv Hk Hf Hw Hpl Hr Hd. unfold sleep_while. change (S patience) with 2%nat. cbn [sleep_while_loop]. rewrite bind_gets.
  change (getb (st s0 h pt bc dk vd pl) b) with (buf_of bc b). rewrite Hd. cbn [Z.eqb Pos.eqb].
  destruct (sleep_st s0 tp h pt bc dk vd pl u n write b 0 1 2 i k on Hv Hk Hf Hw Hpl Hr) as (h1 & pt1 & regs & bc1 & pl1 & E1 & R1). rewrite (bind_Ok _ _ _ _ _ E1), bind_gets.
  change (getb (st s0 h1 pt1 bc1 ?d ?v pl1) b) with (buf_of bc1 b). destruct R1 as (V1 & L1 & K1 & B1 & R1). rewrite B1, decide_True by done.
  change (b_disk (buf_done n write b bc dk) =? 1) with false. cbv iota. by exists h1, pt1, regs, bc1, pl1.
Qed.

(** The whole of virtio_disk_rw. *)
Lemma rw_st h pt bc dk vd pl b i n write on : hview tp (Some i) 0 on h -> disk_idle vd pl -> alone i pt -> pfree pt -> b_disk (buf_of bc b) = 0 ->
  b_blockno (buf_of bc b) = n -> blockno_ok n ->
  exists h' pt' vd' bc' pl', virtio_disk_rw b write (st s0 h pt bc dk vd pl) = Ok tt (st s0 h' pt' bc' (dk_done n write b bc dk) vd' pl') /\
    hview tp (Some i) 0 on h' /\ disk_idle vd' pl' /\ bc_lock bc' = bc_lock bc /\
    (forall x, buf_of bc' x = if decide (b = x) then buf_done n write b bc dk else buf_of bc x) /\ pt_next pt' = 0 /\
    forall x, proc_of pt' x = if decide (i = x) then set_p_chan None (set_p_state RUNNING (proc_of pt i)) else proc_of pt x.
Proof.
  intros Hv Hidle Hal Hl Hd Hbn [Hn1 Hn2]. pose proof Hidle as [D1 D2 D3 D4 D5 D6]. destruct (running_alone i b pt Hal Hl) as [Hrun Hno].
  unfold virtio_disk_rw. rewrite bind_gets. change (getb (st s0 h pt bc dk vd pl) b) with (buf_of bc b). rewrite Hbn.
  assert (u32 (n * (BSIZE / 512)) = 2 * n) as ->. { change (BSIZE / 512) with 2. rewrite u32_small by lia. lia. }
  destruct (enter_vdisk s0 tp h pt bc dk vd pl (Some i) 0 on ltac:(done) Hv D1) as (h1 & E1 & V1). rewrite (bind_Ok _ _ _ _ _ E1). set (vd1 := set_vd_lock _ vd) in *.
  destruct (rw_start h1 pt bc dk vd1 pl b n write D2) as [regs E]. rewrite E. clear E. set (bc2 := bset b _ bc). set (vd2 := offered b n write regs vd1) in *.
  assert (waiting (set_vd_lock (vd_lock vd) vd2) (vd_used_id vd) n write b 0 1 2) as Hw.
  { exact (offered_waiting b n write regs (set_vd_lock (vd_lock vd) vd) pl (vd_lock vd) ltac:(by destruct Hidle) Hn1 D1). }
  destruct (sleep_while_st h1 pt bc2 dk vd2 pl (vd_used_id vd) n write b i (vd_lock vd) on V1 eq_refl D1 Hw D6 Hrun) as (h3 & pt3 & regs3 & bc3 & pl3 & E3 & V3 & L3 & K3 & B3 & X3 & P3).
  { unfold bc2. by rewrite buf_of_bset, decide_True. }
  rewrite (bind_Ok _ _ _ _ _ E3). unfold updvd. rewrite bind_modify. set (dk3 := dk_done n write b bc2 dk) in *. set (vd3 := set_vd_lock (held tp (vd_lock vd)) (vd_done 0 (vd_used_id vd) regs3 vd2)) in *.
  set (vd4 := set_vd_info_b (delete 0%nat (vd_info_b vd3)) vd3). change (set_vd _ (st s0 h3 pt3 bc3 dk3 vd3 pl3)) with (st s0 h3 pt3 bc3 dk3 vd4 pl3).
  assert (pfree pt3) as Hl3. { intros j. rewrite P3. case_decide; [apply Hl|apply Hl]. }
  assert (no_waiter pt3) as Hno3. { intros j. rewrite P3. case_decide; [done|apply Hno]. }
  assert (chain vd4) as Hch.
  { destruct (offered_desc b n write regs vd1 (held tp (vd_lock vd))) as (G0 & G1 & G2). assert (forall x, getdesc (set_vd_lock (held tp (vd_lock vd)) (offered b n write regs vd1)) x = getdesc vd4 x) as Hgd by done. rewrite !Hgd in *. clear Hgd.
    split; [done|by rewrite G0|rewrite G1; by destruct write|by rewrite G2]. }
  destruct (free_chain_st h3 pt3 bc3 dk3 vd4 pl3 (Some i) 1 on ltac:(done) V3 Hl3 Hno3 Hch) as (h5 & pt5 & ds & E5 & V5 & [P5 Q5]). rewrite (bind_Ok _ _ _ _ _ E5). set (vd5 := set_vd_free _ _) in *.
  destruct (leave_vdisk s0 tp h5 pt5 bc3 dk3 vd5 pl3 (Some i) 0 on (vd_lock vd) ltac:(done) V5 D1 eq_refl) as (h6 & E6 & V6).
  assert (dk3 = dk_done n write b bc dk) as Edk. { unfold dk3, dk_done, bc2. by rewrite buf_of_bset, decide_True. }
  rewrite <- Edk. exists h6, pt5, (set_vd_lock (vd_lock vd) vd5), bc3, pl3. split; [exact E6|]. split_and!; [done| |exact K3| |congruence|].
  - split; try done.
    + change (0 <= u16 (vd_used_id vd + 1) < 65536). unfold u16. zlia.
    + change (u16 (vd_avail_idx vd + 1) = u16 (vd_used_id vd + 1)). by rewrite D4.
    + change ((vd_used_id vd mod NUM + 1) mod NUM = u16 (vd_used_id vd + 1) mod NUM). change NUM with 8. unfold u16. zlia.
  - intros x. rewrite B3. unfold buf_done, bc2. rewrite !buf_of_bset, !(decide_True (P := b = b)) by done. case_decide; [by destruct write|done].
  - intros x. by rewrite P5, P3.
Qed.
End Driver.

(** ** The driver keeps its promise to the buffer cache *)

Section Laws.
Context `{HW : Hardware} `{HL : !HardwareLaws}.

Lemma st_self s : st s (hart_of s) (k_pt s) (k_bc s) (k_dk s) (k_vd s) (k_pl s) = s.
Proof. by destruct s as [[]]. Qed.

Lemma rw_ready i s b write : kready i s -> b_disk (getb s b) = 0 -> blockno_ok (b_blockno (getb s b)) ->
  exists s', virtio_disk_rw (H0 := system) b write s = Ok tt s' /\ calm i s s' /\ k_dk s' = dk_done (b_blockno (getb s b)) write b (k_bc s) (k_dk s) /\
    bc_lock (k_bc s') = bc_lock (k_bc s) /\
    forall x, getb s' x = if decide (b = x) then buf_done (b_blockno (getb s b)) write b (k_bc s) (k_dk s) else getb s x.
Proof.
  intros (K1 & K2 & K3 & K4 & K5 & K6) Hd Hb. set (h := hart_of s).
  assert (hview (h_tp h) (Some i) 0 (intr_get h) h) as Hv by (by split).
  destruct (rw_st s (h_tp h) h (k_pt s) (k_bc s) (k_dk s) (k_vd s) (k_pl s) b i (b_blockno (getb s b)) write (intr_get h) Hv K6 K5 K3 Hd eq_refl Hb) as (h1 & pt1 & vd1 & bc1 & pl1 & E1 & V1 & I1 & L1 & B1 & X1 & P1).
  change (st s h (k_pt s) (k_bc s) (k_dk s) (k_vd s) (k_pl s)) with (st s (hart_of s) (k_pt s) (k_bc s) (k_dk s) (k_vd s) (k_pl s)) in E1. rewrite st_self in E1. set (s1 := st s h1 pt1 bc1 _ vd1 pl1) in *. exists s1. split_and!; [exact E1| |done|done|exact B1].
  assert (forall x, getp s1 x = if decide (i = x) then set_p_chan None (set_p_state RUNNING (getp s i)) else getp s x) as Hg by exact P1.
  split; try done; try (by rewrite Hg, decide_True).
  intros lvl (_ & _ & _ & J4 & J5 & _). split_and!; [exact (hview_ok _ _ _ _ _ (Z.le_refl 0) V1)|apply V1| |exact (eq_trans (hv_noff _ _ _ _ _ V1) (eq_trans (eq_sym K4) J4))| |exact I1].
  - intros j. rewrite Hg. case_decide; apply K3.
  - destruct J5 as [A1 A2 A3 A4]. split; [done|by rewrite P1, decide_True| |done]. intros j Hne. rewrite P1, decide_False by congruence. by apply A3.
Qed.

#[global] Instance virtio_laws : DiskLaws (H := virtio).
Proof.
  split; intros i s b Hk Hd Hb.
  - destruct (rw_ready i s b false Hk Hd Hb) as (s1 & E & Hc & Hdk & Hl & Hg). exists s1. split_and!; [done..|]. intros x. rewrite Hg. case_decide; [|done].
    unfold buf_done. change (buf_of (k_bc s) b) with (getb s b). rewrite <- Hd. by destruct (getb s b).
  - destruct (rw_ready i s b true Hk Hd Hb) as (s1 & E & Hc & Hdk & Hl & Hg). exists s1. split_and!; [done..|]. intros x. rewrite Hg. case_decide; [|done].
    subst x. unfold buf_done. change (buf_of (k_bc s) b) with (getb s b). rewrite <- Hd. by destruct (getb s b).
Qed.
End Laws.
