(* ===== verification/CacheInit.v ===== *)
(** * binit: the cache the kernel boots with *)

From S2P Require Import Prelude Layout Spinlock Kalloc State Proc SleepLock Bio ProcSpec SleepSpec Ring CacheSpec.

(** Buffers as the loader leaves them, in the zeroed memory of the kernel. *)
Definition blank (x : buf) : Prop := b_dev x = 0 /\ b_refcnt x = 0 /\ b_disk x = 0.

Lemma core_lock x y : core x = core y -> b_lock x = b_lock y.
Proof. intros H. exact (f_equal b_lock H). Qed.

Lemma core_blank x y : core x = core y -> blank y -> blank x.
Proof.
  intros H (H1 & H2 & H3). pose proof (f_equal b_dev H) as E1. pose proof (f_equal b_refcnt H) as E2.
  pose proof (f_equal b_disk H) as E3. split_and!; etransitivity; eassumption.
Qed.

Section Binit.
Context `{OT : Others}.

Definition relock (b : nat) (s : kst) : kst := setb b (set_b_lock (Sleeplock 0 (Spinlock 0 "sleep lock" None) "buffer" 0) (getb s b)) s.

Lemma initsleeplock_buf b s : initsleeplock (buflock b) "buffer" s = Ok tt (relock b s).
Proof.
  unfold initsleeplock, initlock, bind, modify, relock. cbn. rewrite !getb_setb, !decide_True, setb_setb by done. cbn.
  by destruct (getb s b).
Qed.

Lemma relock_lock b s : b_lock (getb (relock b s) b) = Sleeplock 0 (Spinlock 0 "sleep lock" None) "buffer" 0.
Proof. unfold relock. by rewrite getb_setb, decide_True. Qed.

(** One turn of the loop. *)
Definition binit_one (b : nat) : M kst unit :=
  let! first := gets (fun s => b_next (getb s bhead)) in
  updb b (set_b_next first);;
  updb b (set_b_prev bhead);;
  initsleeplock (buflock b) "buffer";;
  let! first := gets (fun s => b_next (getb s bhead)) in
  updb first (set_b_prev b);;
  updb bhead (set_b_next b).

Lemma relock_links b s x : nxt (relock b s) x = nxt s x /\ prv (relock b s) x = prv s x.
Proof. unfold nxt, prv, relock. rewrite getb_setb. by case_decide; subst. Qed.

Lemma relock_put b s n p : relock b (put_prev b p (put_next b n s)) = put_prev b p (put_next b n (relock b s)).
Proof. unfold relock, put_prev, put_next. rewrite !getb_setb, !decide_True, !setb_setb by done. done. Qed.

Lemma binit_one_eq b s : binit_one b s = Ok tt (push_front b (relock b s)).
Proof.
  unfold binit_one. mstep. rewrite updb_next, updb_prev.
  rewrite (bind_Ok _ _ _ _ _ (initsleeplock_buf b _)). fold (nxt s bhead). rewrite relock_put.
  mstep. rewrite updb_prev, updb_next_last. unfold push_front. by rewrite (proj1 (relock_links b s bhead)).
Qed.

(** Between two turns: [l] are the buffers in the list. *)
Record set_up (l : list nat) (s0 s : kst) : Prop := {
  su_ring : ring s l;
  su_lock : bc_lock (k_bc s) = bc_lock (k_bc s0);
  su_rest : exists bc, s = set_bc bc s0;
  su_core : forall b, core (getb s b) =
    if decide (b ∈ l) then core (getb (relock b s0) b) else core (getb s0 b) }.

Lemma setb_rest b x s s0 : (exists bc, s = set_bc bc s0) -> exists bc, setb b x s = set_bc bc s0.
Proof. intros [bc ->]. by eexists. Qed.

Lemma binit_loop s0 bs l s :
  set_up l s0 s -> NoDup (bhead :: bs ++ l) ->
  exists s', mfor bs binit_one s = Ok tt s' /\ set_up (rev bs ++ l) s0 s'.
Proof.
  revert l s. induction bs as [|b bs IH]; intros l s Hs Hd; cbn [mfor rev app]; [by exists s|].
  rewrite (bind_Ok _ _ _ _ _ (binit_one_eq b s)). destruct Hs as [H1 H2 [bc H3] H4].
  destruct (push_front_ring (relock b s) l b) as [Hr Hc].
  { eapply ring_ext; [exact H1|intros x; apply relock_links..]. }
  { apply NoDup_cons in Hd as [Hn Hd]. apply NoDup_cons in Hd as [_ Hd]. apply NoDup_app in Hd as (_ & _ & Hd).
    apply NoDup_cons. split; [|done]. intros Hin. apply Hn. right. apply elem_of_app. by right. }
  { apply NoDup_cons in Hd as [Hn Hd]. apply NoDup_cons in Hd as [Hb _]. intros [->|Hin]%elem_of_cons; [apply Hn; left|].
    apply Hb. apply elem_of_app. by right. }
  destruct (IH (b :: l) (push_front b (relock b s))) as (s' & Hs' & Hok).
  - split; [done|by rewrite <- H2|do 5 apply setb_rest; by exists bc|]. intros x. rewrite Hc. unfold relock. rewrite !getb_setb.
    rewrite (decide_True (P := x = x)) by done. specialize (H4 x). unfold relock in H4. rewrite getb_setb, (decide_True (P := x = x)) in H4 by done.
    destruct (decide (b = x)) as [->|Hne].
    + rewrite decide_True by left. destruct (decide (x ∈ l)); unfold core in *; cbn in *; congruence.
    + rewrite (decide_ext (x ∈ b :: l) (x ∈ l)); [exact H4|]. rewrite elem_of_cons. naive_solver.
  - apply NoDup_cons in Hd as [Hn Hd]. rewrite NoDup_cons. rewrite <- (Permutation_middle bs l b). done.
  - exists s'. split; [done|]. by rewrite <- app_assoc.
Qed.

Lemma initlock_bc s : initlock bcachelock "bcache" s = Ok tt (set_bc (set_bc_lock (Spinlock 0 "bcache" None) (k_bc s)) s).
Proof. done. Qed.

Lemma binit_spec s :
  exists s', binit s = Ok tt s' /\ ring s' (rev bufs) /\ (exists bc, s' = set_bc bc s) /\
    bc_lock (k_bc s') = Spinlock 0 "bcache" None /\
    forall b, core (getb s' b) = if decide (b ∈ bufs) then core (getb (relock b s) b) else core (getb s b).
Proof.
  unfold binit. rewrite (bind_Ok _ _ _ _ _ (initlock_bc s)), updb_prev, updb_next.
  set (s0 := set_bc _ s). set (s1 := put_next _ _ _).
  assert (same_cores s0 s1) as Hc by (etransitivity; [apply put_prev_core|apply put_next_core]).
  destruct (binit_loop s1 bufs [] s1) as (s' & Hs' & [H1 H2 [bc H3] H4]).
  { split; [|done|by exists (k_bc s1); destruct s1|]; [|intros b; by rewrite decide_False by apply not_elem_of_nil].
    split; unfold nxt, prv, s1, put_next, put_prev; rewrite !getb_setb, decide_True by done; reflexivity. }
  { rewrite app_nil_r. vm_compute. repeat constructor; set_solver. }
  rewrite app_nil_r in *. exists s'. split_and!; [exact Hs'|done|by exists bc; rewrite H3|done|].
  intros b. rewrite H4. unfold relock. rewrite !getb_setb, !(decide_True (P := b = b)) by done.
  assert (core (getb s1 b) = core (getb s b)) as Hb by apply Hc.
  assert (b ∈ rev bufs <-> b ∈ bufs) as He by (rewrite !list_elem_of_In; symmetry; apply in_rev).
  rewrite (decide_ext _ _ _ _ He). case_decide; [|done]. unfold core in *. cbn in *. congruence.
Qed.

(** A cache without references, whatever process looks at it. *)
Lemma fresh_cache i d s L :
  kready i s -> lock_free (bc_lock (k_bc s)) -> ring s L -> L ≡ₚ bufs -> d <> 0 ->
  (forall b, lock_free (sl_lk (b_lock (getb s b)))) ->
  (forall b, b ∈ bufs -> blank (getb s b) /\ sl_locked (b_lock (getb s b)) = 0) ->
  cache i d s (dblock (k_dk s)) (fun _ => 0) ∅.
Proof.
  intros Hk Hl Hr HL Hd Hs Hb. split; try done; [by exists L|..].
  - intros b H. by destruct (Hb b H) as [(_ & _ & ?) _].
  - intros b H. destruct (Hb b H) as [(H1 & H2 & _) _]. rewrite H2. by case_match.
  - intros b H H'. destruct (Hb b H) as [(H1 & _) _]. congruence.
  - intros b b' H _ H'. destruct (Hb b H) as [(H1 & _) _]. congruence.
  - intros b H H'. by destruct (Hb b H).
Qed.

Lemma binit_cache s :
  (forall b, blank (getb s b) /\ lock_free (sl_lk (b_lock (getb s b)))) ->
  exists s', binit s = Ok tt s' /\ (exists bc, s' = set_bc bc s) /\
    forall t i d, k_bc t = k_bc s' -> kready i t -> d <> 0 -> cache i d t (dblock (k_dk t)) (fun _ => 0) ∅.
Proof.
  intros Hb. destruct (binit_spec s) as (s' & Hs' & Hr & Hbc & Hl & Hc). exists s'. split_and!; [done|done|].
  clear Hs'. intros t i d Ht Hk Hd. assert (forall b, getb t b = getb s' b) as Hg by (intros b; unfold getb; by rewrite Ht).
  apply (fresh_cache i d t (rev bufs)); [done|by rewrite Ht, Hl|eapply ring_ext; [exact Hr|intros b; unfold nxt, prv; by rewrite Hg..]| |done|..].
  - symmetry. apply Permutation_rev.
  - intros b. rewrite Hg. specialize (Hc b). destruct (decide (b ∈ bufs)).
    + by rewrite (core_lock _ _ Hc), relock_lock.
    + rewrite (core_lock _ _ Hc). apply Hb.
  - intros b Hin. rewrite Hg. specialize (Hc b). rewrite decide_True in Hc by done. split; [|by rewrite (core_lock _ _ Hc), relock_lock].
    apply (core_blank _ _ Hc). unfold relock. rewrite getb_setb, decide_True by done. apply (proj1 (Hb b)).
Qed.
End Binit.
