(* ===== verification/LogSpec.v ===== *)
(** * The log: what commit and recovery do to the disk

    Both are proved against the view of the disk that the buffer cache offers
    (CacheSpec); the result is the exact sequence of disk writes. *)

From S2P Require Import Prelude Layout Spinlock Kalloc State Proc SleepLock Bio Log ProcSpec SleepSpec Ring CacheSpec.

(** ** Sequences of writes *)

Definition puts (ws : list (Z * list Z)) (D : disk) : disk := fold_left (fun D w => disk_put w.1 w.2 D) ws D.
Definition vputs (ws : list (Z * list Z)) (V : Z -> list Z) : Z -> list Z := fold_left (fun V w => upd V w.1 w.2) ws V.

Lemma puts_app ws ws' D : puts (ws ++ ws') D = puts ws' (puts ws D).
Proof. apply fold_left_app. Qed.
Lemma vputs_app ws ws' V : vputs (ws ++ ws') V = vputs ws' (vputs ws V).
Proof. apply fold_left_app. Qed.

Lemma puts_one n v D : puts [(n, v)] D = disk_put n v D.
Proof. done. Qed.
Lemma vputs_one n v V : vputs [(n, v)] V = upd V n v.
Proof. done. Qed.

Lemma puts_writes ws D : d_writes (puts ws D) = d_writes D ++ ws.
Proof.
  revert D. induction ws as [|[n v] ws IH]; intros D; cbn; [by rewrite app_nil_r|].
  change (d_writes (puts ws (disk_put n v D)) = d_writes D ++ (n, v) :: ws). rewrite IH. cbn. by rewrite <- app_assoc.
Qed.

Lemma vputs_out ws V n : n ∉ ws.*1 -> vputs ws V n = V n.
Proof.
  revert V. induction ws as [|[m v] ws IH]; intros V Hn; [done|]. cbn in Hn. apply not_elem_of_cons in Hn as [H1 H2].
  change (vputs ws (upd V m v) n = V n). rewrite IH, upd_other by done. done.
Qed.

Lemma vputs_ext ws V V' n : V n = V' n -> vputs ws V n = vputs ws V' n.
Proof.
  revert V V'. induction ws as [|[m v] ws IH]; intros V V' He; [done|].
  apply (IH (upd V m v) (upd V' m v)). unfold upd. by case_decide.
Qed.

Lemma dblock_puts ws D n : dblock (puts ws D) n = vputs ws (dblock D) n.
Proof.
  revert D. induction ws as [|[m v] ws IH]; intros D; [done|].
  change (dblock (puts ws (disk_put m v D)) n = vputs ws (upd (dblock D) m v) n). rewrite IH. apply vputs_ext.
  rewrite dblock_put. done.
Qed.

(** ** The header block *)

(** Store [bs] as block[i], block[i+1], ... *)
Fixpoint put_blocks (data : list Z) (i : Z) (bs : list Z) : list Z :=
  match bs with
  | [] => data
  | b :: bs' => put_blocks (poke 4 data (4 + 4 * i) b) (i + 1) bs'
  end.

(** The header block that names the blocks [bs], written over [data]. *)
Definition header (data : list Z) (bs : list Z) : list Z := put_blocks (poke 4 data 0 (Z.of_nat (length bs))) 0 bs.

(** What a header block says. *)
Definition head_n (data : list Z) : Z := s32 (peek 4 data 0).
Definition head_block (data : list Z) (i : Z) : Z := s32 (peek 4 data (4 + 4 * i)).

Lemma put_blocks_spec bs data i :
  0 <= i -> 4 + 4 * (i + Z.of_nat (length bs)) <= Z.of_nat (length data) ->
  length (put_blocks data i bs) = length data /\
  (forall off, 0 <= off -> off + 4 <= 4 + 4 * i -> peek 4 (put_blocks data i bs) off = peek 4 data off) /\
  forall k b, bs !! k = Some b -> peek 4 (put_blocks data i bs) (4 + 4 * (i + Z.of_nat k)) = b mod 2 ^ 32.
Proof.
  revert data i. induction bs as [|x bs IH]; intros data i Hi Hl; cbn [put_blocks length] in *; [done|].
  assert (length (poke 4 data (4 + 4 * i) x) = length data) as Hlp by (apply length_poke; lia).
  destruct (IH (poke 4 data (4 + 4 * i) x) (i + 1)) as (H1 & H2 & H3); [lia|rewrite Hlp; lia|]. split_and!.
  - congruence.
  - intros off Ho1 Ho2. rewrite H2 by lia. apply peek_poke_ne; lia.
  - intros [|k] b Hb; cbn in Hb.
    + injection Hb as ->. rewrite Z.add_0_r, H2 by lia. by rewrite peek_poke by lia.
    + rewrite <- (H3 k b Hb). f_equal. lia.
Qed.

Lemma header_spec data bs :
  4 + 4 * Z.of_nat (length bs) <= Z.of_nat (length data) -> Z.of_nat (length bs) < 2 ^ 31 ->
  Forall (fun b => 0 <= b < 2 ^ 31) bs ->
  length (header data bs) = length data /\ head_n (header data bs) = Z.of_nat (length bs) /\
  forall k b, bs !! k = Some b -> head_block (header data bs) (Z.of_nat k) = b.
Proof.
  intros Hl Hn Hb. unfold header, head_n, head_block. set (d0 := poke 4 data 0 _).
  assert (length d0 = length data) as Hl0 by (apply length_poke; lia).
  destruct (put_blocks_spec bs d0 0) as (H1 & H2 & H3); [lia|rewrite Hl0; lia|]. split_and!.
  - congruence.
  - rewrite H2 by lia. unfold d0. rewrite peek_poke by lia. rewrite Z.mod_small by (change (256 ^ Z.of_nat 4) with (2 ^ 32); lia).
    apply s32_small. lia.
  - intros k b Hk. specialize (H3 k b Hk). rewrite Z.add_0_l in H3. rewrite H3.
    eapply Forall_lookup in Hb; [|exact Hk]. cbn in Hb. rewrite Z.mod_small by lia. apply s32_small. lia.
Qed.

(** ** Running the log *)

(** In-memory log [lg] at block [st] names the home blocks [hs]. *)
Record log_names (d st : Z) (lg : log) (hs : list Z) : Prop := {
  ln_dev : lg_dev lg = d;
  ln_start : lg_start lg = st;
  ln_range : 0 <= st /\ st + 31 < 2 ^ 31;
  ln_n : lh_n (lg_lh lg) = Z.of_nat (length hs);
  ln_size : length (lh_block (lg_lh lg)) = Z.to_nat LOGSIZE;
  ln_blocks : exists rest, lh_block (lg_lh lg) = hs ++ rest;
  ln_homes : Forall (fun h => 0 <= h < 2 ^ 31) hs }.

Section LogSpec.
Context `{OT : Others} `{BD : BlockDev} `{DL : !DiskLaws}.
Context (i : nat) (d st : Z).

Lemma log_n_eq s lg hs : log_names d st lg hs -> k_lg s = lg -> log_n s = Ok (Z.of_nat (length hs)) s.
Proof. intros [] <-. unfold log_n, gets. by rewrite ln_n0. Qed.

Lemma log_block_eq s lg hs pre h post :
  log_names d st lg hs -> k_lg s = lg -> hs = pre ++ h :: post -> log_block (Z.of_nat (length pre)) s = Ok h s.
Proof.
  intros [] <- ->. destruct ln_blocks0 as [rest Hb]. rewrite Hb, !length_app in ln_size0. cbn in ln_size0.
  unfold log_block. change (Z.to_nat LOGSIZE) with 30%nat in ln_size0. change LOGSIZE with 30.
  destruct (Z.leb_spec 0 (Z.of_nat (length pre))), (Z.ltb_spec (Z.of_nat (length pre)) 30); try lia.
  cbn [andb]. unfold gets, block_at. rewrite Hb, Nat2Z.id, <- app_assoc. cbn. by rewrite list_lookup_middle.
Qed.

(** Writing a field of a locked buffer. *)
Lemma poke_step s V R Hd n b off v :
  cache i d s V R Hd -> Hd !! n = Some b -> 0 < R n ->
  exists s', updb b (fun x => set_b_data (poke 4 (b_data x) off v) x) s = Ok tt s' /\ calm i s s' /\ k_dk s' = k_dk s /\
    cache i d s' (upd V n (poke 4 (V n) off v)) R Hd.
Proof.
  intros Hc Hn Hp. destruct (held_buf i d s V R Hd n b Hc Hn) as (_ & _ & <- & _).
  eexists. split; [done|]. split_and!; [apply calm_setb|done|]. by apply (bdata_spec i d).
Qed.

Lemma write_head_loop_spec lg hs post pre fuel s V R Hd b :
  log_names d st lg hs -> k_lg s = lg -> hs = pre ++ post -> (length post < fuel)%nat ->
  cache i d s V R Hd -> Hd !! st = Some b -> 0 < R st ->
  exists s', write_head_loop fuel (Z.of_nat (length pre)) b s = Ok tt s' /\ calm i s s' /\ k_dk s' = k_dk s /\
    cache i d s' (upd V st (put_blocks (V st) (Z.of_nat (length pre)) post)) R Hd.
Proof.
  intros Hlg. revert pre fuel s V. induction post as [|h post IH]; intros pre [|fuel] s V Hk Hhs Hf Hc Hb Hp; cbn in Hf; try lia; cbn [write_head_loop].
  - rewrite (bind_Ok _ _ _ _ _ (log_n_eq s lg hs Hlg Hk)). rewrite Hhs, app_nil_r.
    destruct (Z.ltb_spec (Z.of_nat (length pre)) (Z.of_nat (length pre))); [lia|]. cbn [negb put_blocks].
    exists s. split_and!; [done|done|done|]. by rewrite upd_id.
  - rewrite (bind_Ok _ _ _ _ _ (log_n_eq s lg hs Hlg Hk)).
    destruct (Z.ltb_spec (Z.of_nat (length pre)) (Z.of_nat (length hs))); [|rewrite Hhs, length_app in *; cbn in *; lia]. cbn [negb].
    rewrite (bind_Ok _ _ _ _ _ (log_block_eq s lg hs pre h post Hlg Hk Hhs)).
    destruct (poke_step s V R Hd st b (4 + 4 * Z.of_nat (length pre)) h Hc Hb Hp) as (s1 & Hs1 & Hcalm1 & Hdk1 & Hc1).
    rewrite (bind_Ok _ _ _ _ _ Hs1).
    destruct (IH (pre ++ [h]) fuel s1 (upd V st (poke 4 (V st) (4 + 4 * Z.of_nat (length pre)) h))) as (s2 & Hs2 & Hcalm2 & Hdk2 & Hc2);
      [by rewrite (cm_lg _ _ _ Hcalm1)|by rewrite <- app_assoc|lia|done|done|done|].
    replace (Z.of_nat (length (pre ++ [h]))) with (Z.of_nat (length pre) + 1) in * by (rewrite length_app; cbn; lia).
    exists s2. split_and!; [done|by etransitivity|congruence|]. rewrite upd_upd, upd_same in Hc2. done.
Qed.

Lemma bread_start lg s : lg_start lg = st -> 0 <= st /\ st + 31 < 2 ^ 31 -> lg_dev lg = d ->
  bread (lg_dev lg) (u32 (lg_start lg)) s = bread d st s.
Proof. intros -> ? ->. by rewrite u32_small by lia. Qed.

Lemma write_head_spec lg hs s V R :
  log_names d st lg hs -> k_lg s = lg -> cache i d s V R ∅ -> few R -> R st = 0 ->
  exists s', write_head s = Ok tt s' /\ calm i s s' /\ k_dk s' = disk_put st (header (V st) hs) (k_dk s) /\
    cache i d s' (upd V st (header (V st) hs)) R ∅.
Proof.
  intros Hlg Hk Hc Hfew Hst. unfold write_head. mstep. rewrite Hk. pose proof Hlg as [Hdev Hs0 Hrng Hn _ _ _].
  destruct (bread_spec i d st s V R ∅ Hc ltac:(done) ltac:(done) (or_intror Hfew) ltac:(lia) ltac:(unfold blockno_ok; lia)) as (b & s1 & Hs1 & Hcalm1 & Hdk1 & Hc1).
  rewrite Hst in Hc1. cbn in Hc1. rewrite Hdev, Hs0, u32_small by lia. rewrite (bind_Ok _ _ _ _ _ Hs1).
  pose proof (cm_lg _ _ _ Hcalm1) as Hk1. rewrite Hk in Hk1.
  rewrite (bind_Ok _ _ _ _ _ (log_n_eq s1 lg hs Hlg Hk1)).
  destruct (poke_step s1 V _ _ st b 0 (Z.of_nat (length hs)) Hc1) as (s2 & Hs2 & Hcalm2 & Hdk2 & Hc2); [apply lookup_insert_eq|by rewrite upd_same|].
  rewrite (bind_Ok _ _ _ _ _ Hs2). pose proof (cm_lg _ _ _ Hcalm2) as Hk2. rewrite Hk1 in Hk2.
  destruct (write_head_loop_spec lg hs hs [] (S (Z.to_nat (Z.of_nat (length hs)))) s2 _ _ _ b Hlg Hk2 eq_refl ltac:(lia) Hc2)
    as (s3 & Hs3 & Hcalm3 & Hdk3 & Hc3); [apply lookup_insert_eq|by rewrite upd_same|].
  cbn [length Z.of_nat] in Hs3. rewrite (bind_Ok _ _ _ _ _ Hs3). rewrite upd_same, upd_upd in Hc3.
  change (put_blocks (poke 4 (V st) 0 (Z.of_nat (length hs))) (Z.of_nat (length [])) hs) with (header (V st) hs) in Hc3.
  destruct (bwrite_spec i d s3 _ _ _ st b Hc3) as (s4 & Hs4 & Hcalm4 & Hdk4 & Hc4); [apply lookup_insert_eq|].
  rewrite (bind_Ok _ _ _ _ _ Hs4).
  destruct (brelse_spec i d s4 _ _ _ st b Hc4) as (s5 & Hs5 & Hcalm5 & Hdk5 & Hc5); [apply lookup_insert_eq| |].
  { intros _. rewrite Hdk4, dblock_put, decide_True by done. done. }
  rewrite upd_same in Hdk4. exists s5. split_and!; [done|by do 4 (etransitivity; [eassumption|])|congruence|].
  rewrite upd_same in Hc5. change (u32 (1 - 1)) with 0 in Hc5. rewrite upd_upd, (upd_eq R st 0 Hst) in Hc5.
  rewrite delete_insert_id in Hc5 by done. done.
Qed.

(** ** Copying the transaction into the log *)

Lemma write_log_block_spec lg hs pre h post s V R :
  log_names d st lg hs -> k_lg s = lg -> hs = pre ++ h :: post -> cache i d s V R ∅ -> few R ->
  let to := st + Z.of_nat (length pre) + 1 in
  R to = 0 -> 0 < R h < 2 ^ 32 - 2 -> h <> to -> (length pre < 30)%nat ->
  exists s', write_log_block (Z.of_nat (length pre)) s = Ok tt s' /\ calm i s s' /\ k_dk s' = disk_put to (V h) (k_dk s) /\
    cache i d s' (upd V to (V h)) R ∅.
Proof.
  intros Hlg Hk Hhs Hc Hfew to Hto Hh Hne Hpre. unfold write_log_block. mstep. rewrite Hk.
  pose proof Hlg as [Hdev Hs0 Hrng Hn _ _ Hhome]. rewrite Hdev, Hs0. fold to. rewrite (u32_small to) by (unfold to; lia).
  assert (0 <= h < 2 ^ 31) as Hhr by (rewrite Hhs in Hhome; by apply Forall_app in Hhome as [_ [? _]%Forall_cons]).
  destruct (bread_spec i d to s V R ∅ Hc ltac:(done) ltac:(done) (or_intror Hfew) ltac:(lia) ltac:(unfold blockno_ok, to; lia)) as (b & s1 & Hs1 & Hcalm1 & Hdk1 & Hc1).
  rewrite (bind_Ok _ _ _ _ _ Hs1). pose proof (cm_lg _ _ _ Hcalm1) as Hk1. rewrite Hk in Hk1. rewrite Hto in Hc1. change (0 + 1) with 1 in Hc1.
  rewrite (bind_Ok _ _ _ _ _ (log_block_eq s1 lg hs pre h post Hlg Hk1 Hhs)), (u32_small h) by lia.
  set (H1 := <[to := b]> (∅ : gmap Z nat)) in *. set (R1 := upd R to 1) in *.
  assert (R1 h = R h) as HRh by (unfold R1; by rewrite upd_other).
  destruct (bread_spec i d h s1 V R1 H1 Hc1) as (c & s2 & Hs2 & Hcalm2 & Hdk2 & Hc2).
  { intros n x [[<- <-]|[_ ?]]%lookup_insert_Some; [unfold R1; by rewrite upd_same|done]. }
  { unfold H1. by rewrite lookup_insert_ne. } { left. lia. } { lia. } { done. }
  rewrite (bind_Ok _ _ _ _ _ Hs2). rewrite HRh in Hc2. set (H2 := <[h := c]> H1) in *. set (R2 := upd R1 h (R h + 1)) in *.
  assert (H2 !! h = Some c /\ H2 !! to = Some b) as [L1 L2].
  { unfold H2, H1. by rewrite lookup_insert_eq, lookup_insert_ne, lookup_insert_eq. }
  assert (R2 h = R h + 1 /\ R2 to = 1) as [Q1 Q2] by (unfold R2, R1; by rewrite upd_same, upd_other, upd_same).
  mstep. destruct (held_buf _ _ _ _ _ _ _ _ Hc2 L1) as (_ & _ & -> & _).
  pose proof (bdata_spec i d s2 V R2 H2 to b (V h) Hc2 L2 ltac:(lia)) as Hc3. unfold updb. mstep.
  set (s3 := setb b _ s2) in *. destruct (bwrite_spec i d s3 _ _ _ to b Hc3 L2) as (s4 & Hs4 & Hcalm4 & Hdk4 & Hc4).
  rewrite (bind_Ok _ _ _ _ _ Hs4). rewrite upd_same in Hdk4.
  destruct (brelse_spec i d s4 _ _ _ h c Hc4 L1) as (s5 & Hs5 & Hcalm5 & Hdk5 & Hc5); [lia|].
  rewrite (bind_Ok _ _ _ _ _ Hs5). rewrite Q1, u32_small in Hc5 by lia. replace (R h + 1 - 1) with (R h) in Hc5 by lia.
  assert (delete h H2 = H1) as E1 by (unfold H2; apply delete_insert_id; unfold H1; by rewrite lookup_insert_ne).
  rewrite E1 in Hc5. unfold R2 in Hc5. rewrite upd_upd, (upd_eq R1 h (R h) HRh) in Hc5.
  destruct (brelse_spec i d s5 _ _ _ to b Hc5) as (s6 & Hs6 & Hcalm6 & Hdk6 & Hc6); [apply lookup_insert_eq| |].
  { intros _. rewrite upd_same, Hdk5, Hdk4, dblock_put, decide_True by done. done. }
  assert (calm i s2 s3) as Hcalm3 by apply calm_setb. assert (k_dk s3 = k_dk s2) as Hdk3 by done.
  exists s6. split_and!; [exact Hs6|by do 5 (etransitivity; [eassumption|])|congruence|].
  unfold R1 in Hc6. rewrite upd_same in Hc6. change (u32 (1 - 1)) with 0 in Hc6.
  rewrite upd_upd, (upd_eq R to 0 Hto) in Hc6. unfold H1 in Hc6. by rewrite delete_insert_id in Hc6.
Qed.

(** The writes of write_log for the blocks [hs], from position [t]. *)
Fixpoint log_writes (V : Z -> list Z) (t : Z) (hs : list Z) : list (Z * list Z) :=
  match hs with
  | [] => []
  | h :: hs' => (st + t + 1, V h) :: log_writes V (t + 1) hs'
  end.

Lemma log_writes_ext V V' t hs : (forall h, h ∈ hs -> V h = V' h) -> log_writes V t hs = log_writes V' t hs.
Proof.
  revert t. induction hs as [|h hs IH]; intros t He; cbn; [done|]. rewrite (He h) by left. f_equal. apply IH.
  intros x Hx. apply He. by right.
Qed.

(** The home blocks lie outside the first [n] + 1 blocks of the log. *)
Definition outside (n : Z) (hs : list Z) : Prop := forall h, h ∈ hs -> ~ (st <= h <= st + n).

Lemma write_log_loop_spec lg hs post pre fuel s V R :
  log_names d st lg hs -> k_lg s = lg -> hs = pre ++ post -> (length post < fuel)%nat ->
  cache i d s V R ∅ -> few R -> (length hs < 31)%nat -> outside (Z.of_nat (length hs)) hs ->
  (forall k, 0 < k <= Z.of_nat (length hs) -> R (st + k) = 0) -> (forall h, h ∈ hs -> 0 < R h < 2 ^ 32 - 2) ->
  exists s', write_log_loop fuel (Z.of_nat (length pre)) s = Ok tt s' /\ calm i s s' /\
    k_dk s' = puts (log_writes V (Z.of_nat (length pre)) post) (k_dk s) /\
    cache i d s' (vputs (log_writes V (Z.of_nat (length pre)) post) V) R ∅.
Proof.
  intros Hlg. revert pre fuel s V.
  induction post as [|h post IH]; intros pre [|fuel] s V Hk Hhs Hf Hc Hfew Hlen Hout HRl HRh; cbn in Hf; try lia; cbn [write_log_loop].
  - rewrite (bind_Ok _ _ _ _ _ (log_n_eq s lg hs Hlg Hk)). rewrite Hhs, app_nil_r.
    destruct (Z.ltb_spec (Z.of_nat (length pre)) (Z.of_nat (length pre))); [lia|]. by exists s.
  - rewrite (bind_Ok _ _ _ _ _ (log_n_eq s lg hs Hlg Hk)). assert (Z.of_nat (length hs) = Z.of_nat (length pre) + 1 + Z.of_nat (length post)) as Hl.
    { rewrite Hhs, length_app. cbn. lia. }
    destruct (Z.ltb_spec (Z.of_nat (length pre)) (Z.of_nat (length hs))); [|lia]. cbn [negb].
    assert (h ∈ hs) as Hh by (rewrite Hhs; apply elem_of_app; right; left).
    destruct (write_log_block_spec lg hs pre h post s V R Hlg Hk Hhs Hc Hfew) as (s1 & Hs1 & Hcalm1 & Hdk1 & Hc1).
    { replace (st + Z.of_nat (length pre) + 1) with (st + (Z.of_nat (length pre) + 1)) by lia. apply HRl. lia. }
    { by apply HRh. } { intros E. apply (Hout h Hh). lia. } { lia. }
    rewrite (bind_Ok _ _ _ _ _ Hs1). set (to := st + Z.of_nat (length pre) + 1) in *.
    destruct (IH (pre ++ [h]) fuel s1 (upd V to (V h))) as (s2 & Hs2 & Hcalm2 & Hdk2 & Hc2);
      [by rewrite (cm_lg _ _ _ Hcalm1)|by rewrite <- app_assoc|lia|done..|].
    replace (Z.of_nat (length (pre ++ [h]))) with (Z.of_nat (length pre) + 1) in * by (rewrite length_app; cbn; lia).
    rewrite (log_writes_ext _ V) in Hdk2, Hc2 by (intros x Hx; apply upd_other; intros E; apply (Hout x); [rewrite Hhs; apply elem_of_app; right; by right|unfold to in E; lia]).
    exists s2. split_and!; [done|by etransitivity|rewrite Hdk2, Hdk1; done|exact Hc2].
Qed.

(** ** Installing the log *)

Lemma install_block_spec lg hs pre h post s V R :
  log_names d st lg hs -> k_lg s = lg -> hs = pre ++ h :: post -> cache i d s V R ∅ -> few R ->
  let from := st + Z.of_nat (length pre) + 1 in
  R from = 0 -> 0 < R h \/ few (upd R from 1) -> R h < 2 ^ 32 - 1 -> h <> from -> (length pre < 30)%nat ->
  exists s', install_block (Z.of_nat (length pre)) s = Ok tt s' /\ calm i s s' /\ k_dk s' = disk_put h (V from) (k_dk s) /\
    cache i d s' (upd V h (V from)) (upd R h (u32 (R h - 1))) ∅.
Proof.
  intros Hlg Hk Hhs Hc Hfew from Hfrom Hroom Hh Hne Hpre. unfold install_block. mstep. rewrite Hk.
  pose proof Hlg as [Hdev Hs0 Hrng Hn _ _ Hhome]. rewrite Hdev, Hs0. fold from. rewrite (u32_small from) by (unfold from; lia).
  assert (0 <= h < 2 ^ 31) as Hhr by (rewrite Hhs in Hhome; by apply Forall_app in Hhome as [_ [? _]%Forall_cons]).
  destruct (bread_spec i d from s V R ∅ Hc ltac:(done) ltac:(done) (or_intror Hfew) ltac:(lia) ltac:(unfold blockno_ok, from; lia)) as (b & s1 & Hs1 & Hcalm1 & Hdk1 & Hc1).
  rewrite (bind_Ok _ _ _ _ _ Hs1). pose proof (cm_lg _ _ _ Hcalm1) as Hk1. rewrite Hk in Hk1. rewrite Hfrom in Hc1. change (0 + 1) with 1 in Hc1.
  rewrite (bind_Ok _ _ _ _ _ (log_block_eq s1 lg hs pre h post Hlg Hk1 Hhs)), (u32_small h) by lia.
  set (H1 := <[from := b]> (∅ : gmap Z nat)) in *. set (R1 := upd R from 1) in *.
  assert (R1 h = R h) as HRh by (unfold R1; by rewrite upd_other).
  destruct (bread_spec i d h s1 V R1 H1 Hc1) as (c & s2 & Hs2 & Hcalm2 & Hdk2 & Hc2).
  { intros n x [[<- <-]|[_ ?]]%lookup_insert_Some; [unfold R1; by rewrite upd_same|done]. }
  { unfold H1. by rewrite lookup_insert_ne. } { by rewrite HRh. } { lia. } { done. }
  rewrite (bind_Ok _ _ _ _ _ Hs2). rewrite HRh in Hc2. set (H2 := <[h := c]> H1) in *. set (R2 := upd R1 h (R h + 1)) in *.
  assert (H2 !! h = Some c /\ H2 !! from = Some b) as [L1 L2].
  { unfold H2, H1. by rewrite lookup_insert_eq, lookup_insert_ne, lookup_insert_eq. }
  pose proof (proj1 (ca_refs _ _ _ _ _ _ Hc h)) as Hge.
  assert (R2 h = R h + 1 /\ R2 from = 1) as [Q1 Q2] by (unfold R2, R1; by rewrite upd_same, upd_other, upd_same).
  mstep. destruct (held_buf _ _ _ _ _ _ _ _ Hc2 L2) as (_ & _ & -> & _).
  pose proof (bdata_spec i d s2 V R2 H2 h c (V from) Hc2 L1 ltac:(lia)) as Hc3. unfold updb. mstep.
  set (s3 := setb c _ s2) in *. destruct (bwrite_spec i d s3 _ _ _ h c Hc3 L1) as (s4 & Hs4 & Hcalm4 & Hdk4 & Hc4).
  rewrite (bind_Ok _ _ _ _ _ Hs4). rewrite upd_same in Hdk4.
  destruct (bunpin_spec i d s4 _ _ _ h c Hc4 L1) as (s5 & Hs5 & Hcalm5 & Hdk5 & Hc5).
  { intros _. rewrite Hdk4, upd_same, dblock_put, decide_True by done. done. }
  rewrite (bind_Ok _ _ _ _ _ Hs5). rewrite Q1, u32_small in Hc5 by lia. replace (R h + 1 - 1) with (R h) in Hc5 by lia.
  unfold R2 in Hc5. rewrite upd_upd, (upd_eq R1 h (R h) HRh) in Hc5.
  destruct (brelse_spec i d s5 _ _ _ from b Hc5 L2) as (s6 & Hs6 & Hcalm6 & Hdk6 & Hc6).
  { intros _. rewrite upd_other, Hdk5, Hdk4, dblock_put, decide_False by done.
    rewrite (ca_clean _ _ _ _ _ _ Hc from Hfrom). change (k_dk s3) with (k_dk s2). by rewrite Hdk2, Hdk1. }
  rewrite (bind_Ok _ _ _ _ _ Hs6). unfold R1 in Hc6. rewrite upd_same in Hc6. change (u32 (1 - 1)) with 0 in Hc6.
  rewrite upd_upd, (upd_eq R from 0 Hfrom) in Hc6.
  assert (delete from H2 = <[h := c]> ∅) as E1.
  { unfold H2, H1. rewrite delete_insert_ne by done. by rewrite delete_insert_id. }
  rewrite E1 in Hc6.
  destruct (brelse_spec i d s6 _ _ _ h c Hc6) as (s7 & Hs7 & Hcalm7 & Hdk7 & Hc7); [apply lookup_insert_eq| |].
  { intros _. rewrite upd_same, Hdk6, Hdk5, Hdk4, dblock_put, decide_True by done. done. }
  assert (calm i s2 s3) as Hcalm3 by apply calm_setb. assert (k_dk s3 = k_dk s2) as Hdk3 by done.
  exists s7. split_and!; [exact Hs7|by do 6 (etransitivity; [eassumption|])|congruence|].
  by rewrite delete_insert_id in Hc7.
Qed.

(** The writes of install_trans, and the references it drops. *)
Fixpoint install_writes (V : Z -> list Z) (t : Z) (hs : list Z) : list (Z * list Z) :=
  match hs with
  | [] => []
  | h :: hs' => (h, V (st + t + 1)) :: install_writes V (t + 1) hs'
  end.

Definition unref (hs : list Z) (R : Z -> Z) : Z -> Z := fold_left (fun R h => upd R h (u32 (R h - 1))) hs R.

Lemma unref_snoc hs h R : unref (hs ++ [h]) R = upd (unref hs R) h (u32 (unref hs R h - 1)).
Proof. unfold unref. by rewrite fold_left_app. Qed.

Lemma unref_nodup hs R n : NoDup hs -> unref hs R n = if decide (n ∈ hs) then u32 (R n - 1) else R n.
Proof.
  revert n. induction hs as [|h hs IH] using rev_ind; intros n Hd.
  { by rewrite decide_False by apply not_elem_of_nil. }
  apply NoDup_app in Hd as (Hd & Hdis & _). rewrite unref_snoc. unfold upd.
  assert (h ∉ hs) as Hh by (intros Hin; apply (Hdis h Hin); left).
  rewrite !IH by done. destruct (decide (h = n)) as [->|Hne].
  - rewrite (decide_False (P := n ∈ hs)) by done. rewrite decide_True by (apply elem_of_app; right; left). done.
  - assert (n ∈ hs <-> n ∈ hs ++ [h]) as He by (rewrite elem_of_app, list_elem_of_singleton; naive_solver).
    by rewrite (decide_ext _ _ _ _ He).
Qed.

(** Room for each turn of install_trans: [R'] are the references left by the
    turns before it. *)
Definition install_room (hs : list Z) (R : Z -> Z) : Prop :=
  forall pre h post, hs = pre ++ h :: post -> let R' := unref pre R in let from := st + Z.of_nat (length pre) + 1 in
    few R' /\ (0 < R' h \/ few (upd R' from 1)) /\ R' h < 2 ^ 32 - 1 /\ R' from = 0.

Lemma install_writes_ext V V' t hs : (forall k, 0 <= k < Z.of_nat (length hs) -> V (st + (t + k) + 1) = V' (st + (t + k) + 1)) ->
  install_writes V t hs = install_writes V' t hs.
Proof.
  revert t. induction hs as [|h hs IH]; intros t He; cbn [install_writes]; [done|]. f_equal.
  - specialize (He 0). rewrite Z.add_0_r in He. rewrite He; [done|cbn; lia].
  - apply IH. intros k Hk. replace (t + 1 + k) with (t + (k + 1)) by lia. apply He. cbn [length]. lia.
Qed.

Lemma install_loop_spec lg hs post pre fuel s V R :
  log_names d st lg hs -> k_lg s = lg -> hs = pre ++ post -> (length post < fuel)%nat ->
  cache i d s V (unref pre R) ∅ -> install_room hs R -> (length hs < 31)%nat -> outside (Z.of_nat (length hs)) hs ->
  exists s', install_trans_loop fuel (Z.of_nat (length pre)) s = Ok tt s' /\ calm i s s' /\
    k_dk s' = puts (install_writes V (Z.of_nat (length pre)) post) (k_dk s) /\
    cache i d s' (vputs (install_writes V (Z.of_nat (length pre)) post) V) (unref hs R) ∅.
Proof.
  intros Hlg. revert pre fuel s V.
  induction post as [|h post IH]; intros pre [|fuel] s V Hk Hhs Hf Hc Hroom Hlen Hout; cbn in Hf; try lia; cbn [install_trans_loop].
  - rewrite (bind_Ok _ _ _ _ _ (log_n_eq s lg hs Hlg Hk)). rewrite Hhs, app_nil_r.
    destruct (Z.ltb_spec (Z.of_nat (length pre)) (Z.of_nat (length pre))); [lia|]. by exists s.
  - rewrite (bind_Ok _ _ _ _ _ (log_n_eq s lg hs Hlg Hk)). assert (Z.of_nat (length hs) = Z.of_nat (length pre) + 1 + Z.of_nat (length post)) as Hl.
    { rewrite Hhs, length_app. cbn. lia. }
    destruct (Z.ltb_spec (Z.of_nat (length pre)) (Z.of_nat (length hs))); [|lia]. cbn [negb].
    assert (h ∈ hs) as Hh by (rewrite Hhs; apply elem_of_app; right; left).
    destruct (Hroom pre h post Hhs) as (Hfew & Hr & Hmax & Hfrom).
    destruct (install_block_spec lg hs pre h post s V (unref pre R) Hlg Hk Hhs Hc Hfew Hfrom Hr Hmax) as (s1 & Hs1 & Hcalm1 & Hdk1 & Hc1).
    { intros E. apply (Hout h Hh). lia. } { lia. }
    rewrite (bind_Ok _ _ _ _ _ Hs1). set (from := st + Z.of_nat (length pre) + 1) in *. rewrite <- unref_snoc in Hc1.
    destruct (IH (pre ++ [h]) fuel s1 (upd V h (V from))) as (s2 & Hs2 & Hcalm2 & Hdk2 & Hc2);
      [by rewrite (cm_lg _ _ _ Hcalm1)|by rewrite <- app_assoc|lia|done..|].
    replace (Z.of_nat (length (pre ++ [h]))) with (Z.of_nat (length pre) + 1) in * by (rewrite length_app; cbn; lia).
    rewrite (install_writes_ext _ V) in Hdk2, Hc2 by (intros k Hk'; apply upd_other; intros E; apply (Hout h Hh); lia).
    exists s2. split_and!; [done|by etransitivity|rewrite Hdk2, Hdk1; done|exact Hc2].
Qed.

(** ** commit *)

Lemma calm_set_lg L s s' : calm i s s' -> calm i (set_lg L s) (set_lg L s').
Proof. intros []. by split. Qed.

Lemma cache_set_lg {lvl} L s V R Hd : @cache_at lvl i d s V R Hd -> @cache_at lvl i d (set_lg L s) V R Hd.
Proof. intros []. by split. Qed.

Definition empty_log (lg : log) : log := set_lg_lh (set_lh_n 0 (lg_lh lg)) lg.

Lemma empty_log_names lg hs : log_names d st lg hs -> log_names d st (empty_log lg) [].
Proof. intros []. split; try done. by eexists. Qed.

(** Exactly the blocks of the transaction are referenced, once each. *)
Definition pinned (hs : list Z) (R : Z -> Z) : Prop := forall n, R n = if decide (n ∈ hs) then 1 else 0.

Lemma pinned_few hs R : pinned hs R -> (length hs < bhead)%nat -> few R.
Proof. intros Hp Hl. exists hs. split; [done|]. intros n. rewrite Hp. case_decide; [done|lia]. Qed.

(** The writes of a commit. *)
Definition home_writes (V : Z -> list Z) (hs : list Z) : list (Z * list Z) := (fun h => (h, V h)) <$> hs.
Definition commit_writes (V : Z -> list Z) (hs : list Z) : list (Z * list Z) :=
  log_writes V 0 hs ++ [(st, header (V st) hs)] ++ home_writes V hs ++ [(st, header (header (V st) hs) [])].

Lemma log_writes_fst V t hs n : n ∈ (log_writes V t hs).*1 -> st + t + 1 <= n <= st + t + Z.of_nat (length hs).
Proof.
  revert t. induction hs as [|h hs IH]; intros t; cbn; [by intros ?%elem_of_nil|].
  intros [->|Hn]%elem_of_cons; [lia|]. apply IH in Hn. lia.
Qed.

(** The log blocks hold the transaction once they are written. *)
Lemma log_writes_at V V0 t hs k h : hs !! k = Some h ->
  vputs (log_writes V t hs) V0 (st + t + Z.of_nat k + 1) = V h.
Proof.
  revert V0 t k. induction hs as [|x hs IH]; intros V0 t [|k] Hk; try done; cbn in Hk.
  - injection Hk as ->. cbn [log_writes]. change (vputs (log_writes V (t + 1) hs) (upd V0 (st + t + 1) (V h)) (st + t + Z.of_nat 0 + 1) = V h).
    rewrite Z.add_0_r, vputs_out; [apply upd_same|]. intros Hn%log_writes_fst. lia.
  - change (vputs (log_writes V (t + 1) hs) (upd V0 (st + t + 1) (V x)) (st + t + Z.of_nat (S k) + 1) = V h).
    replace (st + t + Z.of_nat (S k) + 1) with (st + (t + 1) + Z.of_nat k + 1) by lia. by apply IH.
Qed.

Lemma install_home_writes V W t hs :
  (forall k h, hs !! k = Some h -> W (st + t + Z.of_nat k + 1) = V h) -> install_writes W t hs = home_writes V hs.
Proof.
  revert t. induction hs as [|h hs IH]; intros t He; cbn [install_writes home_writes fmap list_fmap]; [done|]. f_equal.
  - specialize (He 0%nat h eq_refl). rewrite Z.add_0_r in He. by rewrite He.
  - apply IH. intros k x Hk. specialize (He (S k) x Hk). rewrite <- He. f_equal. lia.
Qed.

Lemma home_writes_fst V hs : (home_writes V hs).*1 = hs.
Proof. unfold home_writes. rewrite <- list_fmap_compose. apply list_fmap_id. Qed.

Lemma commit_room hs R : NoDup hs -> pinned hs R -> (length hs < bhead)%nat -> outside (Z.of_nat (length hs)) hs -> install_room hs R.
Proof.
  intros Hnd Hp Hlen Hout pre h post Hhs R' from. pose proof Hnd as Hnd'. rewrite Hhs in Hnd'.
  apply NoDup_app in Hnd' as (Hd1 & Hd2 & _). assert (h ∉ pre) as Hh by (intros Hin; apply (Hd2 h Hin); left).
  assert (h ∈ hs) as Hhin by (rewrite Hhs; apply elem_of_app; right; left).
  assert (forall n, R' n = if decide (n ∈ pre) then u32 (R n - 1) else R n) as HR by (intros n; by apply unref_nodup).
  assert (forall n, n ∈ hs -> R n = 1) as H1 by (intros n Hn; by rewrite Hp, decide_True).
  split_and!.
  - exists hs. split; [done|]. intros n. rewrite HR, Hp. destruct (decide (n ∈ hs)); [done|].
    rewrite decide_False; [lia|]. intros Hin. apply n0. rewrite Hhs. apply elem_of_app. by left.
  - left. rewrite HR, decide_False, H1 by done. lia.
  - rewrite HR, decide_False, H1 by done. lia.
  - assert (from ∉ hs) as Hf.
    { intros Hin. apply (Hout from Hin). unfold from. rewrite Hhs, length_app. cbn. lia. }
    rewrite HR, decide_False, Hp, decide_False; [done|done|]. intros Hin. apply Hf. rewrite Hhs. apply elem_of_app. by left.
Qed.

Lemma write_log_spec lg hs s V R :
  log_names d st lg hs -> k_lg s = lg -> cache i d s V R ∅ -> pinned hs R -> (length hs < bhead)%nat ->
  outside (Z.of_nat (length hs)) hs ->
  exists s', write_log s = Ok tt s' /\ calm i s s' /\ k_dk s' = puts (log_writes V 0 hs) (k_dk s) /\
    cache i d s' (vputs (log_writes V 0 hs) V) R ∅.
Proof.
  intros Hlg Hk Hc Hp Hlen Hout. unfold write_log. rewrite (bind_Ok _ _ _ _ _ (log_n_eq s lg hs Hlg Hk)).
  change bhead with 30%nat in Hlen.
  apply (write_log_loop_spec lg hs hs [] _ s V R Hlg Hk eq_refl); [lia|done|by apply (pinned_few hs)|lia|done| |].
  - intros k Hk'. rewrite Hp, decide_False; [done|]. intros Hin. apply (Hout _ Hin). lia.
  - intros h Hh. rewrite Hp, decide_True by done. lia.
Qed.

Lemma install_trans_spec lg hs s V R :
  log_names d st lg hs -> k_lg s = lg -> cache i d s V R ∅ -> install_room hs R -> (length hs < 31)%nat ->
  outside (Z.of_nat (length hs)) hs ->
  exists s', install_trans s = Ok tt s' /\ calm i s s' /\ k_dk s' = puts (install_writes V 0 hs) (k_dk s) /\
    cache i d s' (vputs (install_writes V 0 hs) V) (unref hs R) ∅.
Proof.
  intros Hlg Hk Hc Hroom Hlen Hout. unfold install_trans. rewrite (bind_Ok _ _ _ _ _ (log_n_eq s lg hs Hlg Hk)).
  apply (install_loop_spec lg hs hs [] _ s V R Hlg Hk eq_refl); [lia|done..].
Qed.

(** The last two steps of commit and of recovery: forget the transaction. *)
Lemma erase_spec lg hs s V R :
  log_names d st lg hs -> k_lg s = lg -> cache i d s V R ∅ -> few R -> R st = 0 ->
  exists s', (set_log_n 0;; write_head) s = Ok tt s' /\ calm i (set_lg (empty_log lg) s) s' /\
    k_dk s' = disk_put st (header (V st) []) (k_dk s) /\ cache i d s' (upd V st (header (V st) [])) R ∅.
Proof.
  intros Hlg Hk Hc Hfew Hst. unfold set_log_n, updlg. mstep. rewrite Hk. fold (empty_log lg).
  destruct (write_head_spec (empty_log lg) [] (set_lg (empty_log lg) s) V R) as (s' & Hs & Hcalm & Hdk & Hc');
    [by eapply empty_log_names|done|by apply cache_set_lg|done|done|].
  by exists s'.
Qed.

(** commit of a pinned transaction performs exactly [commit_writes], drops
    the pins and empties the log. *)
Lemma commit_spec lg hs s V R :
  log_names d st lg hs -> k_lg s = lg -> cache i d s V R ∅ -> NoDup hs -> pinned hs R ->
  (0 < length hs < bhead)%nat -> outside (Z.of_nat (length hs)) hs ->
  exists s', commit s = Ok tt s' /\ calm i (set_lg (empty_log lg) s) s' /\ k_dk s' = puts (commit_writes V hs) (k_dk s) /\
    cache i d s' (vputs (commit_writes V hs) V) (fun _ => 0) ∅.
Proof.
  intros Hlg Hk Hc Hnd Hp [Hpos Hlen] Hout. unfold commit. rewrite (bind_Ok _ _ _ _ _ (log_n_eq s lg hs Hlg Hk)).
  destruct (Z.ltb_spec 0 (Z.of_nat (length hs))); [|lia].
  assert (st ∉ hs) as Hst by (intros Hin; apply (Hout _ Hin); lia).
  destruct (write_log_spec lg hs s V R Hlg Hk Hc Hp Hlen Hout) as (s1 & Hs1 & Hcalm1 & Hdk1 & Hc1).
  rewrite (bind_Ok _ _ _ _ _ Hs1). pose proof (cm_lg _ _ _ Hcalm1) as Hk1. rewrite Hk in Hk1.
  set (V1 := vputs (log_writes V 0 hs) V) in *.
  assert (V1 st = V st) as HV1 by (apply vputs_out; intros Hin%log_writes_fst; lia).
  destruct (write_head_spec lg hs s1 V1 R Hlg Hk1 Hc1) as (s2 & Hs2 & Hcalm2 & Hdk2 & Hc2);
    [by apply (pinned_few hs)|by rewrite Hp, decide_False|].
  rewrite (bind_Ok _ _ _ _ _ Hs2). pose proof (cm_lg _ _ _ Hcalm2) as Hk2. rewrite Hk1 in Hk2. rewrite HV1 in *.
  destruct (install_trans_spec lg hs s2 _ R Hlg Hk2 Hc2) as (s3 & Hs3 & Hcalm3 & Hdk3 & Hc3);
    [by apply commit_room|change bhead with 30%nat in Hlen; lia|done|].
  rewrite (bind_Ok _ _ _ _ _ Hs3). pose proof (cm_lg _ _ _ Hcalm3) as Hk3. rewrite Hk2 in Hk3.
  assert (install_writes (upd V1 st (header (V st) hs)) 0 hs = home_writes V hs) as Hiw.
  { apply install_home_writes. intros k h Hkh. rewrite upd_other by lia. apply (log_writes_at V V 0 hs k h Hkh). }
  rewrite Hiw in Hdk3, Hc3.
  set (V3 := vputs (home_writes V hs) _) in *.
  assert (V3 st = header (V st) hs) as HV3 by (unfold V3; rewrite vputs_out, upd_same; [done|by rewrite home_writes_fst]).
  assert (forall n, unref hs R n = 0) as HR.
  { intros n. rewrite unref_nodup, Hp by done. by case_decide. }
  destruct (erase_spec lg hs s3 V3 (unref hs R) Hlg Hk3 Hc3) as (s4 & Hs4 & Hcalm4 & Hdk4 & Hc4); [|done|].
  { exists []. split; [cbn; change bhead with 30%nat; lia|]. intros n. rewrite HR. lia. }
  exists s4. rewrite HV3 in *. split_and!; [done| | |].
  - etransitivity; [|exact Hcalm4]. apply calm_set_lg. by do 2 (etransitivity; [eassumption|]).
  - unfold commit_writes. rewrite !puts_app, <- Hdk1. by rewrite !puts_one, <- Hdk2, <- Hdk3.
  - unfold commit_writes. rewrite !vputs_app, !vputs_one. exact (proj1 (cache_proper i d s4 _ _ (fun _ => eq_refl) _ _ HR _ _ eq_refl) Hc4).
Qed.

(** ** Recovery *)

(** The home blocks that a header block names. *)
Definition head_blocks (data : list Z) : list Z := head_block data <$> seqZ 0 (head_n data).

(** A header block recovery can act on. *)
Record head_ok (data : list Z) : Prop := {
  ho_n : 0 <= head_n data < Z.of_nat bhead;
  ho_nodup : NoDup (head_blocks data);
  ho_homes : Forall (fun h => 0 <= h < 2 ^ 31) (head_blocks data);
  ho_outside : outside (head_n data) (head_blocks data) }.

Lemma length_head_blocks data : 0 <= head_n data -> Z.of_nat (length (head_blocks data)) = head_n data.
Proof. intros Hn. unfold head_blocks. rewrite length_fmap, length_seqZ. lia. Qed.

Lemma head_blocks_at data pre h post : head_blocks data = pre ++ h :: post -> head_block data (Z.of_nat (length pre)) = h.
Proof.
  intros He. assert (head_blocks data !! length pre = Some h) as Hl by (rewrite He; by apply list_lookup_middle).
  unfold head_blocks in Hl. rewrite list_lookup_fmap in Hl. apply fmap_Some in Hl as (k & [-> _]%lookup_seqZ & ->).
  by rewrite Z.add_0_l.
Qed.

(** The in-memory log before [hs] is read into it. *)
Definition log_at (lg : log) : Prop :=
  lg_dev lg = d /\ lg_start lg = st /\ (0 <= st /\ st + 31 < 2 ^ 31) /\ length (lh_block (lg_lh lg)) = Z.to_nat LOGSIZE.

Lemma read_head_loop_spec data post pre fuel s :
  log_at (k_lg s) -> lh_n (lg_lh (k_lg s)) = head_n data -> head_ok data -> head_blocks data = pre ++ post ->
  (length post < fuel)%nat -> (exists rest, lh_block (lg_lh (k_lg s)) = pre ++ rest) ->
  exists lg', read_head_loop fuel (Z.of_nat (length pre)) data s = Ok tt (set_lg lg' s) /\ log_names d st lg' (head_blocks data).
Proof.
  revert pre fuel s. induction post as [|h post IH]; intros pre [|fuel] s Hat Hn Hok Hhs Hf [rest Hrest]; cbn in Hf; try lia;
    cbn [read_head_loop]; unfold log_n; mstep; rewrite Hn; destruct Hat as (A1 & A2 & A3 & A4);
    pose proof (length_head_blocks data (proj1 (ho_n _ Hok))) as Hl; rewrite Hhs, length_app in Hl; cbn in Hl.
  - destruct (Z.ltb_spec (Z.of_nat (length pre)) (head_n data)); [lia|]. cbn [negb]. exists (k_lg s). rewrite app_nil_r in Hhs. split.
    + by destruct s.
    + split; try done; [rewrite Hn, Hhs; lia|exists rest; by rewrite Hhs|apply Hok].
  - destruct (Z.ltb_spec (Z.of_nat (length pre)) (head_n data)); [|lia]. cbn [negb].
    pose proof (ho_n _ Hok) as Hb. change (Z.of_nat bhead) with 30 in Hb. unfold set_log_block. change LOGSIZE with 30.
    destruct (Z.leb_spec 0 (Z.of_nat (length pre))), (Z.ltb_spec (Z.of_nat (length pre)) 30); try lia. cbn [andb].
    fold (head_block data (Z.of_nat (length pre))). rewrite (head_blocks_at data pre h post Hhs), Nat2Z.id.
    unfold updlg. mstep. set (L := set_lg_lh _ (k_lg s)).
    destruct rest as [|x rest]; [rewrite Hrest, app_nil_r in A4; change (Z.to_nat LOGSIZE) with 30%nat in A4; lia|].
    destruct (IH (pre ++ [h]) fuel (set_lg L s)) as (lg' & He & Hnames); [|done|done|by rewrite <- app_assoc|lia| |].
    + split_and!; [done|done|apply A3..|]. unfold L. cbn [k_lg set_lg set_lg_lh lg_lh set_lh_block lh_block]. by rewrite length_insert.
    + exists rest. unfold L. cbn [k_lg set_lg set_lg_lh lg_lh set_lh_block lh_block]. rewrite Hrest, <- app_assoc. rewrite <- (Nat.add_0_r (length pre)) at 1. by rewrite insert_app_r.
    + exists lg'. split; [|done]. replace (Z.of_nat (length (pre ++ [h]))) with (Z.of_nat (length pre) + 1) in He by (rewrite length_app; cbn; lia).
      exact He.
Qed.

Lemma read_head_spec s V R :
  log_at (k_lg s) -> cache i d s V R ∅ -> few R -> R st = 0 -> head_ok (V st) ->
  exists lg' s', read_head s = Ok tt s' /\ calm i (set_lg lg' s) s' /\ k_dk s' = k_dk s /\
    log_names d st lg' (head_blocks (V st)) /\ cache i d s' V R ∅.
Proof.
  intros Hat Hc Hfew Hst Hok. unfold read_head. mstep. pose proof Hat as (A1 & A2 & A3 & A4).
  rewrite A1, A2, u32_small by lia.
  destruct (bread_spec i d st s V R ∅ Hc ltac:(done) ltac:(done) (or_intror Hfew) ltac:(lia) ltac:(unfold blockno_ok; lia)) as (b & s1 & Hs1 & Hcalm1 & Hdk1 & Hc1).
  rewrite (bind_Ok _ _ _ _ _ Hs1). rewrite Hst in Hc1. cbn in Hc1. pose proof (cm_lg _ _ _ Hcalm1) as Hk1.
  mstep. destruct (held_buf i d s1 V _ _ st b Hc1) as (_ & _ & -> & _); [apply lookup_insert_eq|].
  unfold set_log_n, updlg, log_n. mstep. set (s2 := set_lg _ s1).
  change (lh_n (lg_lh (k_lg s2))) with (head_n (V st)).
  destruct (read_head_loop_spec (V st) (head_blocks (V st)) [] (S (Z.to_nat (head_n (V st)))) s2) as (lg' & He & Hnames).
  { unfold s2. cbn. rewrite Hk1. split_and!; try done; apply A3. } { done. } { done. } { done. }
  { pose proof (length_head_blocks (V st) (proj1 (ho_n _ Hok))). lia. } { by eexists. }
  cbn [length Z.of_nat] in He. rewrite (bind_Ok _ _ _ _ _ He).
  assert (set_lg lg' s2 = set_lg lg' s1) as -> by done.
  destruct (brelse_spec i d (set_lg lg' s1) V _ _ st b (cache_set_lg lg' _ _ _ _ Hc1)) as (s3 & Hs3 & Hcalm3 & Hdk3 & Hc3).
  { apply lookup_insert_eq. } { intros _. change (k_dk (set_lg lg' s1)) with (k_dk s1). rewrite Hdk1. by apply (ca_clean _ _ _ _ _ _ Hc). }
  exists lg', s3. split_and!; [done| |change (k_dk (set_lg lg' s1)) with (k_dk s1) in Hdk3; congruence|done|].
  - etransitivity; [|exact Hcalm3]. by apply calm_set_lg.
  - rewrite upd_same in Hc3. change (u32 (1 - 1)) with 0 in Hc3. rewrite upd_upd, (upd_eq R st 0 Hst) in Hc3.
    by rewrite delete_insert_id in Hc3.
Qed.

Lemma unref_zero hs R n : NoDup hs -> (forall m, R m = 0) -> unref hs R n = if decide (n ∈ hs) then 2 ^ 32 - 1 else 0.
Proof. intros Hnd HR. rewrite unref_nodup, HR by done. by case_decide. Qed.

Lemma recover_room hs R : NoDup hs -> (forall n, R n = 0) -> (length hs < bhead)%nat -> outside (Z.of_nat (length hs)) hs -> install_room hs R.
Proof.
  intros Hnd HR Hlen Hout pre h post Hhs R' from. pose proof Hnd as Hnd'. rewrite Hhs in Hnd'.
  apply NoDup_app in Hnd' as (Hd1 & Hd2 & _). assert (h ∉ pre) as Hh by (intros Hin; apply (Hd2 h Hin); left).
  assert (forall n, 0 < R' n -> n ∈ pre) as Hpre.
  { intros n. unfold R'. rewrite unref_zero by done. case_decide; [done|lia]. }
  rewrite Hhs, length_app in Hlen. cbn [length] in Hlen.
  assert (from ∉ pre) as Hf.
  { intros Hin. assert (from ∈ hs) as Hin' by (rewrite Hhs; apply elem_of_app; by left).
    apply (Hout from Hin'). unfold from. rewrite Hhs, length_app. cbn. lia. }
  split_and!.
  - exists pre. split; [lia|done].
  - right. exists (from :: pre). split; [cbn; lia|]. intros n. unfold upd. case_decide as E; [subst; left|]. intros Hn%Hpre. by right.
  - unfold R'. rewrite unref_zero, decide_False by done. lia.
  - unfold R'. by rewrite unref_zero, decide_False.
Qed.

(** The writes of recovery from a disk that shows [V]. *)
Definition recover_writes (V : Z -> list Z) : list (Z * list Z) :=
  install_writes V 0 (head_blocks (V st)) ++ [(st, header (V st) [])].

Lemma install_writes_fst V t hs : (install_writes V t hs).*1 = hs.
Proof. revert t. induction hs as [|h hs IH]; intros t; cbn; [done|]. f_equal. apply IH. Qed.

(** Recovery on an unreferenced cache performs exactly [recover_writes]; each
    recovered block is left with a reference count that wrapped around. *)
Lemma recover_spec s V R :
  log_at (k_lg s) -> cache i d s V R ∅ -> (forall n, R n = 0) -> head_ok (V st) ->
  exists lg' s', recover_from_log s = Ok tt s' /\ calm i (set_lg lg' s) s' /\ log_names d st lg' [] /\
    k_dk s' = puts (recover_writes V) (k_dk s) /\
    cache i d s' (vputs (recover_writes V) V) (unref (head_blocks (V st)) R) ∅.
Proof.
  intros Hat Hc HR Hok. set (hs := head_blocks (V st)).
  assert (forall R0, (forall n, R0 n = 0) -> few R0) as Hfew0.
  { intros R0 H0. exists []. split; [change bhead with 30%nat; cbn; lia|]. intros n. rewrite H0. lia. }
  destruct (read_head_spec s V R Hat Hc (Hfew0 R HR) (HR st) Hok) as (lg1 & s1 & Hs1 & Hcalm1 & Hdk1 & Hn1 & Hc1).
  fold hs in Hn1. unfold recover_from_log. rewrite (bind_Ok _ _ _ _ _ Hs1). pose proof (cm_lg _ _ _ Hcalm1) as Hk1. cbn in Hk1.
  destruct Hok as [Hn Hnd Hh Hout]. pose proof (length_head_blocks (V st) (proj1 Hn)) as Hl. fold hs in Hl, Hnd, Hh, Hout.
  rewrite <- Hl in Hn, Hout. assert (length hs < bhead)%nat as Hlen by lia.
  assert (st ∉ hs) as Hst by (intros Hin; apply (Hout _ Hin); lia).
  destruct (install_trans_spec lg1 hs s1 V R Hn1 Hk1 Hc1) as (s2 & Hs2 & Hcalm2 & Hdk2 & Hc2);
    [by apply recover_room|change bhead with 30%nat in Hlen; lia|done|].
  rewrite (bind_Ok _ _ _ _ _ Hs2). pose proof (cm_lg _ _ _ Hcalm2) as Hk2. rewrite Hk1 in Hk2.
  destruct (erase_spec lg1 hs s2 _ _ Hn1 Hk2 Hc2) as (s3 & Hs3 & Hcalm3 & Hdk3 & Hc3).
  { exists hs. split; [done|]. intros n. rewrite unref_zero by done. case_decide; [done|lia]. }
  { by rewrite unref_zero, decide_False. }
  assert (vputs (install_writes V 0 hs) V st = V st) as HV by (apply vputs_out; by rewrite install_writes_fst).
  rewrite HV in Hdk3, Hc3. exists (empty_log lg1), s3. split_and!; [exact Hs3| |by eapply empty_log_names| |].
  - etransitivity; [|exact Hcalm3]. change (set_lg (empty_log lg1) s) with (set_lg (empty_log lg1) (set_lg lg1 s)).
    apply calm_set_lg. by etransitivity.
  - unfold recover_writes. fold hs. by rewrite puts_app, puts_one, <- Hdk1, <- Hdk2.
  - unfold recover_writes. fold hs. by rewrite vputs_app, vputs_one.
Qed.
End LogSpec.
