(* ===== verification/LogOps.v ===== *)
(** * The log's interface: begin_op, log_write, end_op

    A system call brackets its updates of the disk with begin_op and end_op,
    and reports each block it changed with log_write. *)

From S2P Require Import Prelude Layout Spinlock Kalloc State Proc SleepLock Bio Log ProcSpec SleepSpec Ring CacheSpec LogSpec.

Section LogOps.
Context `{OT : Others} `{BD : BlockDev} `{DL : !DiskLaws}.
Context (i : nat) (d st : Z).

(** ** Critical sections of log.lock *)

(** Inside one; the log may already have changed to [lg]. *)
Definition in_lg (lg : log) (s : kst) : kst :=
  set_lg (set_lg_lock (locked_by (hart_of s) (lg_lock lg)) lg) (put_hart (pushed (hart_of s)) s).

Lemma lg_enter s : lock_free (lg_lock (k_lg s)) -> acquire loglock s = Ok tt (in_lg (k_lg s) s).
Proof. intros Hl. by rewrite (acquire_eq loglock). Qed.

Lemma set_lg_lock_id lg : set_lg_lock (lg_lock lg) lg = lg.
Proof. by destruct lg. Qed.

(** Inside it one spin lock is held. *)
Lemma kready_in_lg lg s : kready i s -> @kready_at 1 i (in_lg lg s).
Proof.
  intros (H1 & H2 & H3 & H4 & H5 & H6). unfold kready_at. change (hart_of (in_lg lg s)) with (pushed (hart_of s)).
  split_and!; [by apply pushed_ok|by rewrite pushed_proc|done|by rewrite pushed_noff, H4|done|done].
Qed.

Lemma lg_leave lg s t :
  kready i s -> lock_free (lg_lock lg) -> calm i (in_lg lg s) t -> hart_of t = pushed (hart_of s) ->
  exists t', release loglock t = Ok tt t' /\ calm i (set_lg lg s) t' /\ k_bc t' = k_bc t /\ k_dk t' = k_dk t.
Proof.
  intros Hr Hl Hc Ht. pose proof Hr as (Hh & Hcur & Hpl & Hno & Hal & Hdr). pose proof (cm_lg _ _ _ Hc) as Hk. cbn in Hk.
  rewrite (release_eq loglock t (hart_of s) (lg_lock lg) Hh Hl Ht) by (cbn; by rewrite Hk).
  eexists. split; [done|]. split_and!; [|done|done]. destruct Hc. split; try done.
  - intros lvl (_ & _ & _ & Hlvl & _). destruct (cm_ready _ (kready_in_lg lg s Hr)) as (_ & _ & H3 & _ & H5 & H6).
    unfold kready_at. match goal with |- context [lk_put loglock ?k (put_hart ?h ?x)] => change (hart_of (lk_put loglock k (put_hart h x))) with (touched (hart_of s)) end.
    split_and!; [by apply touched_ok|by rewrite touched_proc|done|by rewrite touched_noff|exact H5|exact H6].
  - cbn. rewrite Hk. by destruct lg.
Qed.

Lemma cache_move {l l'} s s' V R Hd :
  @cache_at l i d s V R Hd -> (@kready_at l i s -> @kready_at l' i s') -> p_pid (getp s' i) = p_pid (getp s i) -> k_bc s' = k_bc s -> k_dk s' = k_dk s ->
  @cache_at l' i d s' V R Hd.
Proof.
  intros [] Hr Hp Hb Hk. assert (forall b, getb s' b = getb s b) as Hg by (intros b; unfold getb; by rewrite Hb).
  split; try done; [auto|by rewrite Hb|..].
  2: { destruct ca_ring as (L & HL & HP). exists L. split; [|done]. eapply ring_ext; [exact HL|intros b; unfold nxt, prv; by rewrite Hg..]. }
  all: unfold caches; rewrite ?Hp, ?Hk; repeat setoid_rewrite Hg; assumption.
Qed.

Lemma cache_same s s' V R Hd :
  cache i d s V R Hd -> (kready i s -> kready i s') -> p_pid (getp s' i) = p_pid (getp s i) -> k_bc s' = k_bc s -> k_dk s' = k_dk s ->
  cache i d s' V R Hd.
Proof. apply cache_move. Qed.

Lemma cache_in_lg lg s V R Hd : cache i d s V R Hd -> @cache_at 1 i d (in_lg lg s) V R Hd.
Proof. intros Hc. eapply cache_move; [exact Hc|..]; try done. apply kready_in_lg. Qed.

(** ** log_write *)

Lemma absorb_spec hs rest n :
  Forall (fun h => 0 <= h < 2 ^ 31) hs ->
  exists k, absorb (hs ++ rest) (Z.of_nat (length hs)) n = Z.of_nat k /\ (hs !! k = Some n \/ k = length hs /\ n ∉ hs).
Proof.
  induction hs as [|h hs IH]; intros Hf.
  - exists 0%nat. split; [by destruct rest|]. right. split; [done|]. apply not_elem_of_nil.
  - apply Forall_cons in Hf as [Hh Hf]. destruct (IH Hf) as (k & Hk & Hres). cbn [app absorb length].
    destruct (Z.leb_spec (Z.of_nat (S (length hs))) 0); [lia|]. rewrite u32_small by lia.
    destruct (Z.eqb_spec h n) as [->|Hne]; [by exists 0%nat; split; [|left]|].
    exists (S k). replace (Z.of_nat (S (length hs)) - 1) with (Z.of_nat (length hs)) by lia. rewrite Hk. split; [lia|].
    destruct Hres as [Hres|[-> Hn]]; [by left|right]. split; [done|]. by apply not_elem_of_cons.
Qed.

(** A process that has locked the buffers [Hd], inside a transaction that
    changed the blocks [hs]. *)
Record in_tx (s : kst) (hs : list Z) (V : Z -> list Z) (Hd : gmap Z nat) : Prop := {
  it_cache : exists R, cache i d s V R Hd /\
    forall n, R n = (if decide (n ∈ hs) then 1 else 0) + match Hd !! n with Some _ => 1 | None => 0 end;
  it_log : log_names d st (k_lg s) hs;
  it_nodup : NoDup hs;
  it_lock : lock_free (lg_lock (k_lg s));
  it_open : 0 < lg_outstanding (k_lg s) }.

(** The blocks of the transaction once block [n] is in it. *)
Definition add_block (n : Z) (hs : list Z) : list Z := if decide (n ∈ hs) then hs else hs ++ [n].

Lemma set_log_block_eq k v s : (k < 30)%nat ->
  set_log_block (Z.of_nat k) v s =
  Ok tt (set_lg (set_lg_lh (set_lh_block (<[k := v]> (lh_block (lg_lh (k_lg s)))) (lg_lh (k_lg s))) (k_lg s)) s).
Proof.
  intros Hk. unfold set_log_block. change LOGSIZE with 30.
  destruct (Z.leb_spec 0 (Z.of_nat k)), (Z.ltb_spec (Z.of_nat k) 30); try lia. cbn [andb]. by rewrite Nat2Z.id.
Qed.

Lemma set_lg_twice L L' s : set_lg L (set_lg L' s) = set_lg L s.
Proof. done. Qed.

Lemma set_lg_id s : set_lg (k_lg s) s = s.
Proof. by destruct s. Qed.

Lemma add_names lg hs n : log_names d st lg hs -> 0 <= n < 2 ^ 31 -> (length hs < 30)%nat ->
  log_names d st (set_lg_lh (Logheader (Z.of_nat (length hs) + 1) (<[length hs := n]> (lh_block (lg_lh lg)))) lg) (hs ++ [n]).
Proof.
  intros [H1 H2 H3 H4 H5 [rest H6] H7] Hn Hl. rewrite H6, length_app in H5. change (Z.to_nat LOGSIZE) with 30%nat in H5.
  split; cbn [set_lg_lh lg_dev lg_start lg_lh lh_n lh_block]; try done.
  - rewrite length_app. cbn. lia.
  - rewrite length_insert, H6, length_app. change (Z.to_nat LOGSIZE) with 30%nat. lia.
  - destruct rest as [|x rest]; [cbn in H5; lia|]. exists rest. rewrite H6, <- (Nat.add_0_r (length hs)), insert_app_r, <- app_assoc. done.
  - apply Forall_app. split; [done|]. by constructor.
Qed.

(** log_write of a locked buffer puts its block in the transaction, once, and
    pins it in the cache. *)
Lemma log_write_spec s hs V Hd n b :
  in_tx s hs V Hd -> Hd !! n = Some b -> 0 <= n < 2 ^ 31 -> Z.of_nat (length hs) < LOGSIZE ->
  Z.of_nat (length hs) < lg_size (k_lg s) - 1 ->
  exists lh s', log_write b s = Ok tt s' /\ calm i (set_lg (set_lg_lh lh (k_lg s)) s) s' /\ k_dk s' = k_dk s /\
    in_tx s' (add_block n hs) V Hd.
Proof.
  intros [(R & Hc & HR) Hln Hnd Hlk Hopen] Hb Hn Hl1 Hl2. change LOGSIZE with 30 in *. pose proof Hln as [_ _ _ Hn0 _ [rest Hblk] Hhomes].
  unfold log_write. mstep. rewrite Hn0. change LOGSIZE with 30.
  destruct (Z.leb_spec 30 (Z.of_nat (length hs))), (Z.leb_spec (lg_size (k_lg s) - 1) (Z.of_nat (length hs))); try lia. cbn [orb].
  destruct (Z.ltb_spec (lg_outstanding (k_lg s)) 1); [lia|].
  rewrite (bind_Ok _ _ _ _ _ (lg_enter s Hlk)). set (lg := k_lg s) in *.
  pose proof (cache_in_lg lg s V R Hd Hc) as Hc1. destruct (held_buf i d _ V R Hd n b Hc1 Hb) as (_ & [_ Hno] & _).
  mstep. rewrite Hno. change (k_lg (in_lg lg s)) with (set_lg_lock (locked_by (hart_of s) (lg_lock lg)) lg).
  change (lg_lh (set_lg_lock ?k lg)) with (lg_lh lg). rewrite Hblk, Hn0.
  destruct (absorb_spec hs rest n Hhomes) as (k & -> & Hk). rewrite s32_small by lia.
  pose proof (ca_ready _ _ _ _ _ _ Hc) as Hready. unfold add_block. destruct Hk as [Hk|[-> Hk]].
  - assert (k < length hs)%nat as Hlt by (by eapply lookup_lt_Some). rewrite decide_True by (by eapply list_elem_of_lookup_2).
    rewrite (bind_Ok _ _ _ _ _ (set_log_block_eq k n _ ltac:(lia))). set (t := set_lg _ (in_lg lg s)).
    assert (t = in_lg lg s) as ->.
    { unfold t. rewrite list_insert_id. 2: { change (lh_block (lg_lh (k_lg (in_lg lg s)))) with (lh_block (lg_lh lg)). rewrite Hblk. by apply lookup_app_l_Some. }
      destruct lg as [? ? ? ? ? ? []]. done. }
    destruct (Z.eqb_spec (Z.of_nat k) (Z.of_nat (length hs))); [lia|]. unfold skip at 1. mstep.
    destruct (lg_leave lg s (in_lg lg s)) as (s' & Hs' & Hcalm & Hbc & Hdk); [done|done|done|done|].
    exists (lg_lh lg), s'. assert (set_lg_lh (lg_lh lg) lg = lg) as -> by (by destruct lg). pose proof (cm_lg _ _ _ Hcalm) as Hlg. cbn in Hlg.
    split_and!; [exact Hs'|exact Hcalm|exact Hdk|]. split; rewrite ?Hlg; try done.
    exists R. split; [|done]. apply (cache_same s s'); [done|..]; [intros Hr; by apply (cm_ready _ _ _ Hcalm)|apply (cm_pid _ _ _ Hcalm)|done|done].
  - rewrite decide_False by done. rewrite (bind_Ok _ _ _ _ _ (set_log_block_eq (length hs) n _ ltac:(lia))).
    destruct (Z.eqb_spec (Z.of_nat (length hs)) (Z.of_nat (length hs))); [|lia].
    set (t := set_lg _ (in_lg lg s)). assert (@cache_at 1 i d t V R Hd) as Hct by (by apply cache_set_lg).
    destruct (bpin_spec i d t V R Hd n b Hct Hb) as (t1 & Ht1 & Hcalm1 & Hdk1 & Hh1 & Hc2).
    { rewrite HR, decide_False, Hb by done. lia. }
    rewrite bind_assoc, (bind_Ok _ _ _ _ _ Ht1). unfold set_log_n, updlg. mstep. pose proof (cm_lg _ _ _ Hcalm1) as Hlg1.
    set (lg' := set_lg_lh (Logheader (Z.of_nat (length hs) + 1) (<[length hs := n]> (lh_block (lg_lh lg)))) lg).
    assert (set_lg_lh (set_lh_n (Z.of_nat (length hs) + 1) (lg_lh (k_lg t1))) (k_lg t1) = set_lg_lock (locked_by (hart_of s) (lg_lock lg)) lg') as ->
      by (rewrite Hlg1; done).
    set (L := set_lg_lock _ lg'). destruct (lg_leave lg' s (set_lg L t1)) as (s' & Hs' & Hcalm & Hbc & Hdk); [done|done| | |].
    { change (in_lg lg' s) with (set_lg L t). by apply calm_set_lg. }
    { change (hart_of (set_lg L t1)) with (hart_of t1). rewrite Hh1. apply touched_pushed, Hready. }
    pose proof (cm_lg _ _ _ Hcalm) as Hlg. cbn in Hlg.
    exists (lg_lh lg'), s'. split_and!; [exact Hs'|exact Hcalm|rewrite Hdk; exact Hdk1|]. split; rewrite ?Hlg; try done.
    + exists (upd R n (R n + 1)). split.
      * apply (cache_move (l := 1) t1 s'); [done| | |done|done].
        -- intros _. by apply (cm_ready _ _ _ Hcalm).
        -- rewrite (cm_pid _ _ _ Hcalm), (cm_pid _ _ _ Hcalm1). done.
      * intros m. unfold upd. destruct (decide (n = m)) as [<-|Hne].
        -- rewrite HR, Hb, decide_False, decide_True by (done || (apply elem_of_app; right; by left)). lia.
        -- rewrite HR. assert (m ∈ hs <-> m ∈ hs ++ [n]) as He by (rewrite elem_of_app, list_elem_of_singleton; naive_solver).
           by rewrite (decide_ext _ _ _ _ He).
    + apply add_names; [done|done|lia].
    + apply NoDup_app. split_and!; [done| |apply NoDup_singleton]. intros x Hx ->%list_elem_of_singleton. done.
Qed.

(** ** begin_op and end_op *)

Lemma wakeup_calm {lvl} ch s : fs_chan ch = true -> @kready_at lvl i s ->
  exists t, wakeup ch s = Ok tt t /\ calm i s t /\ hart_of t = touched (hart_of s) /\ k_bc t = k_bc s /\ k_dk t = k_dk s.
Proof.
  intros Hch (Hh & Hcur & Hpl & _). destruct (wakeup_woken ch s Hh Hpl) as (pt & Hw & Hs). eexists. split_and!; [exact Hs| |done..].
  etransitivity; [apply calm_touched|]. by apply (calm_woken i ch (put_hart (touched (hart_of s)) s)).
Qed.

(** No operation is running and nothing waits to be committed. *)
Record log_idle (s : kst) (V : Z -> list Z) : Prop := {
  li_cache : cache i d s V (fun _ => 0) ∅;
  li_log : log_names d st (k_lg s) [];
  li_lock : lock_free (lg_lock (k_lg s));
  li_out : lg_outstanding (k_lg s) = 0;
  li_comm : lg_committing (k_lg s) = 0 }.

Lemma begin_op_spec s V :
  log_idle s V ->
  exists s', begin_op s = Ok tt s' /\ calm i (set_lg (set_lg_outstanding 1 (k_lg s)) s) s' /\ k_dk s' = k_dk s /\ in_tx s' [] V ∅.
Proof.
  intros [Hc Hln Hlk Hout Hcom]. unfold begin_op. rewrite (bind_Ok _ _ _ _ _ (lg_enter s Hlk)).
  unfold sleep_while. cbn [sleep_while_loop]. mstep.
  assert (log_busy (k_lg (in_lg (k_lg s) s)) = false) as ->.
  { unfold log_busy, in_lg. cbn [k_lg set_lg set_lg_lock lg_committing lg_lh lg_outstanding]. rewrite Hcom, Hout, (ln_n _ _ _ _ Hln). done. }
  unfold updlg. mstep. set (lg' := set_lg_outstanding 1 (k_lg s)).
  assert (set_lg_outstanding (lg_outstanding (k_lg (in_lg (k_lg s) s)) + 1) (k_lg (in_lg (k_lg s) s)) =
          set_lg_lock (locked_by (hart_of s) (lg_lock lg')) lg') as ->.
  { unfold in_lg. cbn [k_lg set_lg set_lg_lock lg_outstanding]. rewrite Hout. done. }
  destruct (lg_leave lg' s (in_lg lg' s)) as (s' & Hs' & Hcalm & Hbc & Hdk); [apply Hc|done|done|done|].
  pose proof (cm_lg _ _ _ Hcalm) as Hlg. cbn in Hlg. exists s'. split_and!; [exact Hs'|done|exact Hdk|].
  split; rewrite ?Hlg; try done; [|by destruct Hln|constructor].
  exists (fun _ => 0). split; [|done]. apply (cache_same s s'); [done| |apply (cm_pid _ _ _ Hcalm)|done|done].
  intros Hr. by apply (cm_ready _ _ _ Hcalm).
Qed.

(** The first section of end_op, by the last operation that is running. *)
Lemma end_op_start s hs V :
  in_tx s hs V ∅ -> lg_outstanding (k_lg s) = 1 ->
  let lg' := set_lg_committing 1 (set_lg_outstanding 0 (k_lg s)) in
  exists s', release loglock (in_lg lg' s) = Ok tt s' /\ calm i (set_lg lg' s) s' /\ k_dk s' = k_dk s /\ k_lg s' = lg' /\
    log_names d st lg' hs /\ exists R, cache i d s' V R ∅ /\ pinned hs R.
Proof.
  intros [(R & Hc & HR) Hln Hnd Hlk Hopen] Hout lg'.
  destruct (lg_leave lg' s (in_lg lg' s)) as (s' & Hs' & Hcalm & Hbc & Hdk); [apply Hc|done|done|done|].
  pose proof (cm_lg _ _ _ Hcalm) as Hlg. cbn in Hlg. exists s'. split_and!; [done|done|exact Hdk|done|by destruct Hln|].
  exists R. split; [|intros n; rewrite HR, lookup_empty; lia].
  apply (cache_same s s'); [done| |apply (cm_pid _ _ _ Hcalm)|done|done]. intros Hr. by apply (cm_ready _ _ _ Hcalm).
Qed.

(** The last section of end_op. *)
Lemma end_op_finish s V lg :
  k_lg s = lg -> cache i d s V (fun _ => 0) ∅ -> lock_free (lg_lock lg) ->
  exists s', (acquire loglock;; updlg (set_lg_committing 0);; wakeup ChLog;; release loglock : M kst unit) s = Ok tt s' /\
    calm i (set_lg (set_lg_committing 0 lg) s) s' /\ k_dk s' = k_dk s /\ cache i d s' V (fun _ => 0) ∅.
Proof.
  intros Hk Hc Hl. pose proof (ca_ready _ _ _ _ _ _ Hc) as Hready. rewrite <- Hk in Hl. rewrite (bind_Ok _ _ _ _ _ (lg_enter s Hl)).
  rewrite Hk in *. unfold updlg. mstep. set (lg' := set_lg_committing 0 lg). change (set_lg _ (in_lg lg s)) with (in_lg lg' s).
  destruct (wakeup_calm ChLog (in_lg lg' s) eq_refl (kready_in_lg lg' s Hready)) as (t & Ht & Hcalm1 & Hh1 & Hb1 & Hd1).
  rewrite (bind_Ok _ _ _ _ _ Ht). destruct (lg_leave lg' s t) as (s' & Hs' & Hcalm & Hbc & Hdk); [done|done|done| |].
  { rewrite Hh1. apply touched_pushed, Hready. }
  exists s'. split_and!; [done|done|by rewrite Hdk, Hd1|].
  apply (cache_same s s'); [done| |apply (cm_pid _ _ _ Hcalm)|by rewrite Hbc, Hb1|by rewrite Hdk, Hd1]. intros Hr. by apply (cm_ready _ _ _ Hcalm).
Qed.

(** The writes of end_op. *)
Definition tx_writes (V : Z -> list Z) (hs : list Z) : list (Z * list Z) :=
  match hs with [] => [] | _ => commit_writes st V hs end.

Lemma commit_any lg hs s V R :
  log_names d st lg hs -> k_lg s = lg -> cache i d s V R ∅ -> NoDup hs -> pinned hs R ->
  (length hs < bhead)%nat -> outside st (Z.of_nat (length hs)) hs ->
  exists s', commit s = Ok tt s' /\ calm i (set_lg (empty_log lg) s) s' /\ k_dk s' = puts (tx_writes V hs) (k_dk s) /\
    cache i d s' (vputs (tx_writes V hs) V) (fun _ => 0) ∅.
Proof.
  intros Hln Hk Hc Hnd Hp Hl Hout. destruct hs as [|h hs]; [|apply (commit_spec i d st lg (h :: hs) s V R); (done || cbn in *; lia)].
  exists s. unfold commit. rewrite (bind_Ok _ _ _ _ _ (log_n_eq d st s lg [] Hln Hk)). cbn. split_and!; [done| |done|].
  - assert (empty_log lg = k_lg s) as ->; [|by rewrite set_lg_id]. rewrite Hk. pose proof (ln_n _ _ _ _ Hln) as Hz.
    destruct lg as [? ? ? ? ? ? []]. cbn in *. by subst.
  - exact (proj1 (cache_proper i d s _ _ (fun _ => eq_refl) _ _ Hp _ _ eq_refl) Hc).
Qed.

(** end_op by the only operation that is running commits its transaction. *)
Lemma end_op_spec s hs V :
  in_tx s hs V ∅ -> lg_outstanding (k_lg s) = 1 -> lg_committing (k_lg s) = 0 ->
  (length hs < bhead)%nat -> outside st (Z.of_nat (length hs)) hs ->
  exists s', end_op s = Ok tt s' /\ k_dk s' = puts (tx_writes V hs) (k_dk s) /\ log_idle s' (vputs (tx_writes V hs) V) /\
    calm i (set_lg (k_lg s') s) s' /\ lg_size (k_lg s') = lg_size (k_lg s).
Proof.
  intros Htx Hout Hcom Hl Ho. pose proof Htx as [_ Hln0 Hnd Hlk _]. unfold end_op.
  rewrite (bind_Ok _ _ _ _ _ (lg_enter s Hlk)). unfold updlg. mstep.
  match goal with |- context [truthy (lg_committing ?l)] => change (lg_committing l) with (lg_committing (k_lg s)) end. rewrite Hcom.
  match goal with |- context [lg_outstanding ?l =? 0] => change (lg_outstanding l) with (lg_outstanding (k_lg s) - 1) end. rewrite Hout.
  change (truthy 0) with false. cbv iota.
  destruct (end_op_start s hs V Htx Hout) as (s1 & Hs1 & Hcalm1 & Hdk1 & Hk1 & Hln & R & Hc1 & Hp).
  set (lg' := set_lg_committing 1 (set_lg_outstanding 0 (k_lg s))) in *. mstep.
  match goal with |- context [set_lg ?l (in_lg (k_lg s) s)] => set (t := set_lg l (in_lg (k_lg s) s)) end.
  assert (set_lg (set_lg_committing 1 (k_lg t)) t = in_lg lg' s) as Ht.
  { unfold t, in_lg. cbn [k_lg set_lg set_lg_lock lg_outstanding]. by rewrite Hout. }
  change (1 - 1 =? 0) with true. cbv iota. rewrite bind_modify, Ht.
  rewrite (bind_Ok _ _ _ _ _ Hs1).
  destruct (commit_any lg' hs s1 V R Hln Hk1 Hc1 Hnd Hp Hl Ho) as (s2 & Hs2 & Hcalm2 & Hdk2 & Hc2).
  rewrite (bind_Ok _ _ _ _ _ Hs2). pose proof (cm_lg _ _ _ Hcalm2) as Hk2. cbn in Hk2.
  destruct (end_op_finish s2 _ _ Hk2 Hc2) as (s3 & Hs3 & Hcalm3 & Hdk3 & Hc3); [done|].
  pose proof (cm_lg _ _ _ Hcalm3) as Hk3. cbn in Hk3. exists s3. split_and!; [exact Hs3|by rewrite Hdk3, Hdk2, Hdk1| | |by rewrite Hk3].
  - split; rewrite ?Hk3; try done. by apply (empty_log_names d st _ hs) in Hln as [].
  - rewrite Hk3. set (L := set_lg_committing 0 (empty_log lg')) in *. etransitivity; [|exact Hcalm3].
    apply (calm_set_lg i L) in Hcalm1, Hcalm2. rewrite !set_lg_twice in Hcalm1, Hcalm2. by etransitivity.
Qed.

(** ** Blocks inside a transaction *)

Lemma in_tx_calm s s' hs V V' Hd Hd' R :
  in_tx s hs V Hd -> calm i s s' -> cache i d s' V' R Hd' ->
  (forall n, R n = (if decide (n ∈ hs) then 1 else 0) + match Hd' !! n with Some _ => 1 | None => 0 end) -> in_tx s' hs V' Hd'.
Proof.
  intros [_ H2 H3 H4 H5] Hcalm Hc HR. split; rewrite ?(cm_lg _ _ _ Hcalm); try done. by exists R.
Qed.

Lemma bread_tx s hs V Hd n :
  in_tx s hs V Hd -> Hd !! n = None -> (length hs + size Hd < bhead)%nat -> blockno_ok n ->
  exists b s', bread d n s = Ok b s' /\ calm i s s' /\ k_dk s' = k_dk s /\ in_tx s' hs V (<[n := b]> Hd).
Proof.
  intros Htx Hn Hroom Hno. pose proof Htx as [(R & Hc & HR) _ _ _ _].
  destruct (bread_spec i d n s V R Hd Hc) as (b & s' & Hs & Hcalm & Hdk & Hc'); [|done|right|rewrite HR, Hn; case_decide; lia|done|].
  - intros m b Hm. rewrite HR, Hm. case_decide; lia.
  - exists (hs ++ (map_to_list Hd).*1). split; [rewrite length_app, length_fmap, length_map_to_list; exact Hroom|].
    intros m Hm. rewrite HR in Hm. apply elem_of_app. destruct (decide (m ∈ hs)); [by left|right].
    destruct (Hd !! m) as [b|] eqn:E; [|lia]. apply list_elem_of_fmap. exists (m, b). split; [done|]. by apply elem_of_map_to_list.
  - exists b, s'. split_and!; [done..|]. eapply in_tx_calm; [exact Htx|done|exact Hc'|]. intros m. unfold upd.
    destruct (decide (n = m)) as [<-|Hne]; [by rewrite lookup_insert_eq, HR, Hn; lia|by rewrite lookup_insert_ne].
Qed.

Lemma bdata_tx s hs V Hd n b v :
  in_tx s hs V Hd -> Hd !! n = Some b ->
  let s' := setb b (set_b_data v (getb s b)) s in updb b (set_b_data v) s = Ok tt s' /\ calm i s s' /\ k_dk s' = k_dk s /\ in_tx s' hs (upd V n v) Hd.
Proof.
  intros Htx Hn s'. pose proof Htx as [(R & Hc & HR) _ _ _ _]. split_and!; [done|apply calm_setb|done|].
  eapply in_tx_calm; [exact Htx|apply calm_setb|apply (bdata_spec i d s V R Hd n b v Hc Hn)|done]. rewrite HR, Hn. case_decide; lia.
Qed.

Lemma brelse_tx s hs V Hd n b :
  in_tx s hs V Hd -> Hd !! n = Some b -> n ∈ hs \/ V n = dblock (k_dk s) n ->
  exists s', brelse b s = Ok tt s' /\ calm i s s' /\ k_dk s' = k_dk s /\ in_tx s' hs V (delete n Hd).
Proof.
  intros Htx Hn Hcl. pose proof Htx as [(R & Hc & HR) _ _ _ _].
  destruct (brelse_spec i d s V R Hd n b Hc Hn) as (s' & Hs & Hcalm & Hdk & Hc').
  { rewrite HR, Hn. intros E. destruct Hcl as [Hin|]; [|done]. rewrite decide_True in E by done. lia. }
  exists s'. split_and!; [done..|]. eapply in_tx_calm; [exact Htx|done|exact Hc'|]. intros m. unfold upd.
  destruct (decide (n = m)) as [<-|Hne]; [|by rewrite lookup_delete_ne].
  rewrite lookup_delete_eq, HR, Hn, u32_small; case_decide; lia.
Qed.
End LogOps.

(** ** What a power cut leaves on the disk

    The disk is seen as the sequence of its writes.  A power cut keeps a prefix
    of them: each write of a block is atomic, and they reach the disk in the
    order the driver completes them.  [recoverable] relates a disk to the
    contents that recovery brings back; each write of recovery preserves it,
    and the writes of a commit change the contents in one of them only. *)

(** [Dc] is the disk after a power cut somewhere between [D] and [D']. *)
Definition cut (D D' Dc : disk) : Prop := exists ws, (d_writes D ++ ws) `prefix_of` d_writes D' /\ Dc = puts ws D.

Lemma cut_puts W D Dc : cut D (puts W D) Dc -> exists k, Dc = puts (take k W) D.
Proof.
  intros (ws & Hp & ->). rewrite puts_writes in Hp. apply prefix_app_inv in Hp as [rest ->].
  exists (length ws). by rewrite take_app_length.
Qed.

Section Crash.
Context (st : Z).

(** The log, header included. *)
Definition in_log (n : Z) : Prop := st <= n < st + LOGSIZE.

Record recoverable (W C : Z -> list Z) : Prop := {
  rc_len : length (W st) = Z.to_nat BSIZE;
  rc_head : head_ok st (W st);
  rc_log : forall k h, head_blocks (W st) !! k = Some h -> W (st + Z.of_nat k + 1) = C h;
  rc_home : forall n, ~ in_log n -> n ∉ head_blocks (W st) -> W n = C n }.

#[export] Instance recoverable_proper : Proper (pointwise_relation Z eq ==> pointwise_relation Z eq ==> iff) recoverable.
Proof.
  assert (forall W W' C C', pointwise_relation Z eq W W' -> pointwise_relation Z eq C C' -> recoverable W C -> recoverable W' C') as H.
  { intros W W' C C' HW HC []. split; try setoid_rewrite <- HC; try setoid_rewrite <- HW; done. }
  intros W W' HW C C' HC. split; by apply H.
Qed.

(** *** The header *)

Lemma head_blocks_header data bs :
  length data = Z.to_nat BSIZE -> (length bs <= 30)%nat -> Forall (fun b => 0 <= b < 2 ^ 31) bs ->
  length (header data bs) = Z.to_nat BSIZE /\ head_n (header data bs) = Z.of_nat (length bs) /\ head_blocks (header data bs) = bs.
Proof.
  intros Hl Hn Hb. change (Z.to_nat BSIZE) with 1024%nat in *.
  destruct (header_spec data bs) as (H1 & H2 & H3); [lia|lia|done|]. split_and!; [congruence|done|].
  unfold head_blocks. rewrite H2. apply list_eq. intros k. rewrite list_lookup_fmap.
  destruct (bs !! k) as [b|] eqn:Hk.
  - assert (k < length bs)%nat by (by eapply lookup_lt_Some). rewrite lookup_seqZ_lt by lia. cbn. f_equal. by apply H3.
  - apply lookup_ge_None in Hk. by rewrite lookup_seqZ_ge by lia.
Qed.

Lemma head_ok_header data hs :
  length data = Z.to_nat BSIZE -> (length hs < bhead)%nat -> Forall (fun b => 0 <= b < 2 ^ 31) hs -> NoDup hs ->
  outside st (Z.of_nat (length hs)) hs -> head_ok st (header data hs).
Proof.
  intros Hl Hn Hb Hnd Hout. change bhead with 30%nat in Hn.
  destruct (head_blocks_header data hs) as (_ & H2 & H3); [done|lia|done|].
  split; rewrite ?H2, ?H3; try done. change (Z.of_nat bhead) with 30. lia.
Qed.

Lemma home_writes_at V W hs n : vputs (home_writes V hs) W n = if decide (n ∈ hs) then V n else W n.
Proof.
  revert W. induction hs as [|h hs IH]; intros W; [done|].
  change (vputs (home_writes V hs) (upd W h (V h)) n = if decide (n ∈ h :: hs) then V n else W n). rewrite IH.
  destruct (decide (n ∈ hs)); [by rewrite decide_True by (by right)|]. unfold upd.
  destruct (decide (h = n)) as [->|]; [by rewrite decide_True by left|]. rewrite decide_False; [done|]. intros [?|?]%elem_of_cons; congruence.
Qed.

(** Installing any part of the transaction over a disk that holds it. *)
Lemma recoverable_install W C hs' : recoverable W C -> hs' ⊆ head_blocks (W st) -> recoverable (vputs (home_writes C hs') W) C.
Proof.
  intros [H1 H2 H3 H4] Hsub. pose proof (ho_outside _ _ H2) as Hout. pose proof (ho_n _ _ H2) as Hn.
  assert (forall n, n ∉ head_blocks (W st) -> vputs (home_writes C hs') W n = W n) as Hsame.
  { intros n Hn'. rewrite home_writes_at, decide_False; [done|]. intros Hin. apply Hn'. by apply Hsub. }
  assert (vputs (home_writes C hs') W st = W st) as Hst by (apply Hsame; intros Hin; apply (Hout _ Hin); lia).
  split; rewrite ?Hst; try done.
  - intros k h Hk. rewrite Hsame; [auto|]. intros Hin. apply (Hout _ Hin).
    apply lookup_lt_Some in Hk. pose proof (length_head_blocks (W st) (proj1 Hn)). lia.
  - intros n Hl Hn'. rewrite Hsame by done. auto.
Qed.

(** Erasing the header of a disk whose home blocks are up to date. *)
Lemma recoverable_erase W C : length (W st) = Z.to_nat BSIZE -> (forall n, ~ in_log n -> W n = C n) ->
  recoverable (upd W st (header (W st) [])) C.
Proof.
  intros Hl HC. destruct (head_blocks_header (W st) [] Hl) as (H1 & H2 & H3); [cbn; lia|done|].
  split; rewrite ?upd_same; try done.
  - split; rewrite ?H2, ?H3; try done; [by constructor|intros h Hh; by apply elem_of_nil in Hh].
  - intros n Hn _. rewrite upd_other; [auto|]. intros <-. apply Hn. unfold in_log. change LOGSIZE with 30. lia.
Qed.

Lemma installed W C n : recoverable W C -> ~ in_log n -> vputs (home_writes C (head_blocks (W st))) W n = C n.
Proof. intros [] Hn. rewrite home_writes_at. case_decide; auto. Qed.

Lemma recover_home W C : recoverable W C -> install_writes st W 0 (head_blocks (W st)) = home_writes C (head_blocks (W st)).
Proof. intros [_ _ H3 _]. apply install_home_writes. intros k h Hk. rewrite Z.add_0_r. by apply H3. Qed.

Lemma recover_split W C : recoverable W C -> recover_writes st W = home_writes C (head_blocks (W st)) ++ [(st, header (W st) [])].
Proof. intros Hr. unfold recover_writes. by rewrite (recover_home W C). Qed.

Lemma recovered W C : recoverable W C ->
  vputs (recover_writes st W) W = upd (vputs (home_writes C (head_blocks (W st))) W) st (header (vputs (home_writes C (head_blocks (W st))) W st) []).
Proof.
  intros Hr. rewrite (recover_split W C Hr), vputs_app, vputs_one. f_equal. f_equal. symmetry. apply vputs_out. rewrite home_writes_fst.
  intros Hin. apply (ho_outside _ _ (rc_head _ _ Hr) _ Hin). pose proof (ho_n _ _ (rc_head _ _ Hr)). lia.
Qed.

(** A power cut anywhere in recovery keeps the contents. *)
Lemma recover_prefix W C k : recoverable W C -> recoverable (vputs (take k (recover_writes st W)) W) C.
Proof.
  intros Hr. destruct (decide (k <= length (head_blocks (W st)))%nat) as [Hk|Hk].
  - rewrite (recover_split W C Hr). rewrite take_app_le by (unfold home_writes; by rewrite length_fmap).
    unfold home_writes. rewrite <- fmap_take. apply recoverable_install; [done|]. intros x Hx. by eapply subseteq_take.
  - rewrite take_ge.
    2: { rewrite (recover_split W C Hr), length_app. unfold home_writes. rewrite length_fmap. cbn. lia. }
    rewrite (recovered W C Hr). pose proof (recoverable_install W C _ Hr (reflexivity _)) as Hi.
    apply recoverable_erase; [apply Hi|]. intros n Hn. by apply installed.
Qed.

(** A finished recovery brings the contents to the home blocks. *)
Lemma recover_done W C n : recoverable W C -> ~ in_log n -> vputs (recover_writes st W) W n = C n.
Proof.
  intros Hr Hn. rewrite (recovered W C Hr), upd_other; [by apply installed|].
  intros <-. apply Hn. unfold in_log. change LOGSIZE with 30. lia.
Qed.

(** *** The writes of a commit *)

(** The transaction [hs], with new contents [V], over a disk that shows [W]
    and has an empty log. *)
Record transaction (W V : Z -> list Z) (hs : list Z) : Prop := {
  tx_len : length (W st) = Z.to_nat BSIZE;
  tx_empty : head_n (W st) = 0;
  tx_room : (length hs < bhead)%nat;
  tx_nodup : NoDup hs;
  tx_homes : Forall (fun h => 0 <= h < 2 ^ 31) hs;
  tx_out : forall h, h ∈ hs -> ~ in_log h;
  tx_same : forall n, n ∉ hs -> V n = W n }.

Lemma tx_outside W V hs : transaction W V hs -> outside st (Z.of_nat (length hs)) hs.
Proof.
  intros [_ _ Hr _ _ Ho _] h Hh Hin. apply (Ho h Hh). unfold in_log. change bhead with 30%nat in Hr. change LOGSIZE with 30. lia.
Qed.

Lemma length_log_writes V t hs : length (log_writes st V t hs) = length hs.
Proof. revert t. induction hs as [|h hs IH]; intros t; cbn; [done|]. by rewrite IH. Qed.

(** Before the header is written the old contents are there ... *)
Lemma commit_before W V hs k : transaction W V hs -> recoverable (vputs (take k (log_writes st V 0 hs)) W) W.
Proof.
  intros Ht. pose proof Ht as [H1 H2 H3 _ _ _ _]. change bhead with 30%nat in H3.
  assert (forall n, n ∈ (take k (log_writes st V 0 hs)).*1 -> in_log n /\ n <> st) as Hin.
  { intros n Hn. rewrite fmap_take in Hn. apply subseteq_take, log_writes_fst in Hn. unfold in_log. change LOGSIZE with 30. lia. }
  assert (head_blocks (W st) = []) as Hnil by (unfold head_blocks; by rewrite H2).
  assert (vputs (take k (log_writes st V 0 hs)) W st = W st) as Hst by (apply vputs_out; intros Hn; by destruct (Hin st Hn)).
  split; rewrite ?Hst, ?Hnil; try done.
  - split; rewrite ?H2, ?Hnil; try done; [by constructor|intros h Hh; by apply elem_of_nil in Hh].
  - intros n Hn _. apply vputs_out. intros Hn'. by destruct (Hin n Hn').
Qed.

(** ... and once it is written the new ones are. *)
Lemma commit_point W V hs : transaction W V hs ->
  recoverable (upd (vputs (log_writes st V 0 hs) W) st (header (V st) hs)) V.
Proof.
  intros Ht. pose proof (tx_outside W V hs Ht) as Hout. pose proof Ht as [H1 H2 H3 H4 H5 H6 H7].
  assert (st ∉ hs) as Hst by (intros Hin; apply (Hout st Hin); lia). rewrite <- H7 in H1 by done.
  destruct (head_blocks_header (V st) hs) as (L1 & L2 & L3); [done|change bhead with 30%nat in H3; lia|done|].
  split; rewrite ?upd_same, ?L3; try done; [by apply head_ok_header| |].
  - intros k h Hk. rewrite upd_other by lia. rewrite <- (log_writes_at st V W 0 hs k h Hk), Z.add_0_r. done.
  - intros n Hn Hnh. unfold in_log in Hn. change LOGSIZE with 30 in Hn. change bhead with 30%nat in H3.
    rewrite upd_other by lia. rewrite vputs_out; [by rewrite H7|]. intros Hin%log_writes_fst. lia.
Qed.

(** A power cut anywhere in a commit leaves the old contents or the new ones. *)
Lemma commit_prefix W V hs k : transaction W V hs ->
  recoverable (vputs (take k (commit_writes st V hs)) W) (if decide (k <= length hs)%nat then W else V).
Proof.
  intros Ht. unfold commit_writes. case_decide as Hk.
  - rewrite take_app_le by (by rewrite length_log_writes). by apply commit_before.
  - set (W1 := upd (vputs (log_writes st V 0 hs) W) st (header (V st) hs)). pose proof (commit_point W V hs Ht) as Hr. fold W1 in Hr.
    pose proof Ht as [H1 _ H3 _ H5 _ H7]. pose proof (tx_outside W V hs Ht) as Hout.
    assert (st ∉ hs) as Hst by (intros Hin; apply (Hout st Hin); lia). rewrite <- H7 in H1 by done.
    destruct (head_blocks_header (V st) hs) as (_ & _ & L3); [done|change bhead with 30%nat in H3; lia|done|].
    assert (home_writes V hs ++ [(st, header (header (V st) hs) [])] = recover_writes st W1) as ->.
    { rewrite (recover_split W1 V Hr). unfold W1. by rewrite upd_same, L3. }
    replace k with (length (log_writes st V 0 hs) + (1 + (k - length hs - 1)))%nat by (rewrite length_log_writes; lia).
    rewrite take_app_add. cbn [take app Nat.add]. rewrite vputs_app.
    exact (recover_prefix W1 V (k - length hs - 1) Hr).
Qed.

(** A finished commit leaves the new contents in the home blocks. *)
Lemma commit_done W V hs n : transaction W V hs -> ~ in_log n -> vputs (commit_writes st V hs) W n = V n.
Proof.
  intros Ht Hn. assert (n <> st) by (intros ->; apply Hn; unfold in_log; change LOGSIZE with 30; lia).
  unfold commit_writes. rewrite !vputs_app, !vputs_one, upd_other, home_writes_at by done. case_decide; [done|].
  rewrite upd_other by done. rewrite vputs_out; [by rewrite (tx_same _ _ _ Ht)|]. intros Hin%log_writes_fst. apply Hn.
  pose proof (tx_room _ _ _ Ht) as Hr. change bhead with 30%nat in Hr. unfold in_log. change LOGSIZE with 30. lia.
Qed.
End Crash.
