(* ===== verification/FsTx.v ===== *)
(** * Blocks in a transaction, and the block allocator

    The file system works on the view of the disk that the cache and the log
    offer inside a transaction ([in_tx]): a block is read, changed, reported to
    the log and released.  balloc and bfree of kernel/fs.c are proved to set
    and clear one bit of the free map in that view. *)

From S2P Require Import Prelude Layout Spinlock Kalloc State Proc SleepLock Bio Log Fs ProcSpec SleepSpec Ring CacheSpec LogSpec LogOps.

(** ** Bits *)

(** The bit of block [b] in the free map, in the view [V] of the disk. *)
Definition bit_of (data : list Z) (bi : Z) : bool := Z.testbit (byte_at data (bi / 8)) (bi mod 8).
Definition used (V : Z -> list Z) (sb : superblock) (b : Z) : bool := bit_of (V (BBLOCK b sb)) (b mod BPB).

Definition set_bit (data : list Z) (bi : Z) : list Z :=
  <[Z.to_nat (bi / 8) := Z.lor (byte_at data (bi / 8)) (Z.shiftl 1 (bi mod 8))]> data.
Definition clear_bit (data : list Z) (bi : Z) : list Z :=
  <[Z.to_nat (bi / 8) := Z.land (byte_at data (bi / 8)) (Z.lnot (Z.shiftl 1 (bi mod 8)))]> data.

Lemma land_bit x k : 0 <= k -> (Z.land x (Z.shiftl 1 k) =? 0) = negb (Z.testbit x k).
Proof.
  intros Hk. destruct (Z.testbit x k) eqn:E; cbn.
  - apply Z.eqb_neq. intros H. apply (f_equal (fun y => Z.testbit y k)) in H.
    rewrite Z.land_spec, E, Z.shiftl_spec, Z.sub_diag, Z.bits_0 in H by lia. done.
  - apply Z.eqb_eq. apply Z.bits_inj_0. intros n. rewrite Z.land_spec. destruct (Z.ltb_spec n 0) as [Hn|Hn]; [by rewrite Z.testbit_neg_r|].
    rewrite Z.shiftl_spec by lia. destruct (Z.eqb_spec n k) as [->|Hne]; [by rewrite E|].
    destruct (Z.ltb_spec n k); [by rewrite (Z.testbit_neg_r 1), andb_false_r by lia|].
    rewrite (Z.bits_above_log2 1), andb_false_r by (cbn; lia). done.
Qed.

Lemma shift_bit k n : 0 <= k -> 0 <= n -> Z.testbit (Z.shiftl 1 k) n = bool_decide (n = k).
Proof.
  intros Hk Hn. rewrite Z.shiftl_spec by lia. destruct (Z.ltb_spec n k).
  - rewrite Z.testbit_neg_r by lia. symmetry. apply bool_decide_eq_false. lia.
  - destruct (decide (n = k)) as [->|Hne]; [by rewrite Z.sub_diag, bool_decide_true|]. rewrite Z.bits_above_log2 by (cbn; lia).
    symmetry. by apply bool_decide_eq_false.
Qed.

Lemma byte_at_insert data i j v : 0 <= i -> 0 <= j -> (Z.to_nat i < length data)%nat ->
  byte_at (<[Z.to_nat i := v]> data) j = if decide (i = j) then v else byte_at data j.
Proof.
  intros Hi Hj Hl. unfold byte_at. case_decide as E.
  - subst. by rewrite list_lookup_insert_eq.
  - by rewrite list_lookup_insert_ne by lia.
Qed.

Lemma bit_set data bi bj : 0 <= bi < 8 * Z.of_nat (length data) -> 0 <= bj -> bit_of (set_bit data bi) bj = bool_decide (bj = bi) || bit_of data bj.
Proof.
  intros Hi Hj. unfold bit_of, set_bit. rewrite byte_at_insert by zlia. destruct (decide (bi / 8 = bj / 8)) as [E|E].
  - rewrite Z.lor_spec, shift_bit by zlia. rewrite E, orb_comm. f_equal. apply bool_decide_ext. zlia.
  - rewrite bool_decide_false; [done|]. by intros ->.
Qed.

Lemma bit_clear data bi bj : 0 <= bi < 8 * Z.of_nat (length data) -> 0 <= bj -> bit_of (clear_bit data bi) bj = negb (bool_decide (bj = bi)) && bit_of data bj.
Proof.
  intros Hi Hj. unfold bit_of, clear_bit. rewrite byte_at_insert by zlia. destruct (decide (bi / 8 = bj / 8)) as [E|E].
  - rewrite Z.land_spec, Z.lnot_spec, shift_bit by zlia. rewrite E, andb_comm. f_equal. f_equal. apply bool_decide_ext. zlia.
  - rewrite bool_decide_false; [done|]. by intros ->.
Qed.

(** The first clear bit of a block of the free map. *)
Lemma free_bit_spec fuel data b bi size : 0 <= bi -> BPB - bi <= Z.of_nat fuel - 1 ->
  match free_bit fuel data b bi size with
  | Some k => bi <= k < BPB /\ b + k < size /\ bit_of data k = false /\ forall j, bi <= j < k -> bit_of data j = true
  | None => forall j, bi <= j < BPB -> b + j < size -> bit_of data j = true
  end.
Proof.
  revert bi. induction fuel as [|fuel IH]; intros bi H0 Hf; cbn [free_bit]; [lia|].
  destruct ((bi <? BPB) && (b + bi <? size)) eqn:E; [|intros j H1 H2; lia].
  rewrite land_bit by zlia. fold (bit_of data bi). destruct (bit_of data bi) eqn:Eb; cbn [negb].
  - specialize (IH (bi + 1) ltac:(lia) ltac:(lia)). destruct (free_bit fuel data b (bi + 1) size) as [k|].
    + destruct IH as (H1 & H2 & H3 & H4). split_and!; [lia|lia|lia|done|]. intros j Hj. destruct (decide (j = bi)) as [->|]; [done|]. apply H4. lia.
    + intros j H1 H2. destruct (decide (j = bi)) as [->|]; [done|]. apply IH; lia.
  - split_and!; [lia|lia|lia|done|]. intros j Hj. lia.
Qed.

(** ** Blocks in a transaction *)

Lemma seq3_Ok {S A} (a b c : M S unit) (k : M S A) s s' : (a;; b;; c) s = Ok tt s' -> (a;; b;; c;; k) s = k s'.
Proof. unfold bind. destruct (a s) as [[] s1| |]; [|done|done]. destruct (b s1) as [[] s2| |]; [|done|done]. by intros ->. Qed.

Section Tx.
Context `{OT : Others} `{BD : BlockDev} `{DL : !DiskLaws}.
Context (i : nat) (d st : Z).
Local Abbreviation in_tx := (in_tx i d st).

(** Between [s] and [s'] a transaction went on: besides buffers, sleepers and
    the hart's bookkeeping only the blocks named by the log changed. *)
Record quiet (s s' : kst) : Prop := {
  q_ready : kready i s -> kready i s';
  q_pid : p_pid (getp s' i) = p_pid (getp s i);
  q_lg : exists lh, k_lg s' = set_lg_lh lh (k_lg s);
  q_sb : k_sb s' = k_sb s;
  q_ic : forall j, geti s' j = geti s j;
  q_icl : ic_lock (k_ic s') = ic_lock (k_ic s);
  q_ft : k_ft s' = k_ft s;
  q_pipes : k_pipes s' = k_pipes s;
  q_mem : m_mem (k_m s') = m_mem (k_m s);
  q_kmem : m_kmem (k_m s') = m_kmem (k_m s);
  q_dk : k_dk s' = k_dk s;
  q_as : p_pagetable (getp s' i) = p_pagetable (getp s i) }.

#[export] Instance quiet_preorder : PreOrder quiet.
Proof.
  split.
  - intros s. split; try done. exists (lg_lh (k_lg s)). by destruct (k_lg s).
  - intros s1 s2 s3 [? ? [lh E] ? H1 ? ? ? ? ? ? ?] [? ? [lh' E'] ? H2 ? ? ? ? ? ? ?]. split; try congruence; try (by auto).
    + exists lh'. rewrite E', E. done.
Qed.

Lemma calm_quiet s s' : calm i s s' -> k_dk s' = k_dk s -> quiet s s'.
Proof. intros Hc ?. pose proof (fun H : kready i s => cm_ready _ _ _ Hc H). destruct Hc. split; unfold geti; try congruence; try done. exists (lg_lh (k_lg s)). by destruct (k_lg s). Qed.

Lemma calm_quiet_lg lh s s' : calm i (set_lg (set_lg_lh lh (k_lg s)) s) s' -> k_dk s' = k_dk s -> quiet s s'.
Proof. intros Hc ?. pose proof (fun H : kready i s => cm_ready _ _ _ Hc H). destruct Hc. split; unfold geti; try congruence; try done; [by exists lh|intros j; by rewrite cm_ic|by rewrite cm_ic]. Qed.

Lemma quiet_lg_size s s' : quiet s s' -> lg_size (k_lg s') = lg_size (k_lg s).
Proof. intros [_ _ [lh ->] _ _ _ _ _ _ _ _ _]. done. Qed.

(** A block that is neither locked nor in the transaction is as on the disk. *)
Lemma tx_clean s hs V Hd n : in_tx s hs V Hd -> Hd !! n = None -> n ∈ hs \/ V n = dblock (k_dk s) n.
Proof.
  intros [(R & Hc & HR) _ _ _ _] Hn. destruct (decide (n ∈ hs)) as [|Hni]; [by left|right].
  apply (ca_clean _ _ _ _ _ _ Hc). by rewrite HR, decide_False, Hn.
Qed.

Lemma bread_q s hs V Hd n : in_tx s hs V Hd -> Hd !! n = None -> (length hs + size Hd < bhead)%nat -> blockno_ok n ->
  exists b s', bread d n s = Ok b s' /\ quiet s s' /\ b_data (getb s' b) = V n /\ in_tx s' hs V (<[n := b]> Hd).
Proof.
  intros Htx Hn Hroom Hno. destruct (bread_tx i d st s hs V Hd n Htx Hn Hroom Hno) as (b & s' & Hs & Hcalm & Hdk & Htx').
  exists b, s'. split_and!; [done|by apply calm_quiet| |done]. destruct Htx' as [(R & Hc & _) _ _ _ _].
  destruct (held_buf i d s' V R _ n b Hc (lookup_insert_eq _ _ _)) as (_ & _ & H & _). exact H.
Qed.

(** Reading a block and releasing it. *)
Lemma brelse_q s hs V Hd n b : in_tx s hs V Hd -> Hd !! n = Some b -> n ∈ hs \/ V n = dblock (k_dk s) n ->
  exists s', brelse b s = Ok tt s' /\ quiet s s' /\ in_tx s' hs V (delete n Hd).
Proof.
  intros Htx Hn Hcl. destruct (brelse_tx i d st s hs V Hd n b Htx Hn Hcl) as (s' & Hs & Hcalm & Hdk & Htx').
  exists s'. split_and!; [done|by apply calm_quiet|done].
Qed.

(** The log can take [k] more blocks. *)
Definition log_room (s : kst) (hs : list Z) (k : nat) : Prop := (length hs + k <= 29)%nat /\ 30 <= lg_size (k_lg s).

(** Changing a locked block and reporting it to the log. *)
Lemma put_q s hs V Hd n b v : in_tx s hs V Hd -> Hd !! n = Some b -> 0 <= n < 2 ^ 31 -> log_room s hs 1 ->
  exists s', (updb b (set_b_data v);; log_write b) s = Ok tt s' /\ quiet s s' /\ in_tx s' (add_block n hs) (upd V n v) Hd.
Proof.
  intros Htx Hn Hr [H1 H2]. destruct (bdata_tx i d st s hs V Hd n b v Htx Hn) as (Hs1 & Hcalm1 & Hdk1 & Htx1).
  rewrite (bind_Ok _ _ _ _ _ Hs1). set (s1 := setb b _ s) in *.
  destruct (log_write_spec i d st s1 hs (upd V n v) Hd n b Htx1 Hn Hr) as (lh & s2 & Hs2 & Hcalm2 & Hdk2 & Htx2).
  { change LOGSIZE with 30. lia. } { rewrite (cm_lg _ _ _ Hcalm1). lia. }
  exists s2. split_and!; [done| |done]. transitivity s1; [by apply calm_quiet|by eapply calm_quiet_lg].
Qed.

Lemma put_release_q s hs V Hd n b v : in_tx s hs V Hd -> Hd !! n = Some b -> 0 <= n < 2 ^ 31 -> log_room s hs 1 ->
  exists s', (updb b (set_b_data v);; log_write b;; brelse b) s = Ok tt s' /\ quiet s s' /\ in_tx s' (add_block n hs) (upd V n v) (delete n Hd).
Proof.
  intros Htx Hn Hr Hroom. destruct (put_q s hs V Hd n b v Htx Hn Hr Hroom) as (s1 & Hs1 & Hq1 & Htx1).
  destruct (brelse_q s1 _ _ Hd n b Htx1 Hn) as (s2 & Hs2 & Hq2 & Htx2).
  { left. unfold add_block. case_decide; [done|]. apply elem_of_app. right. by left. }
  exists s2. rewrite <- bind_assoc, (bind_Ok _ _ _ _ _ Hs1). split_and!; [done|by transitivity s1|done].
Qed.

(** ** balloc and bfree *)

Definition zeros : list Z := replicate (Z.to_nat BSIZE) 0.

(** The super block describes a free map that block numbers can address. *)
Record sb_ok (sb : superblock) : Prop := {
  sbo_size : 0 < sb_size sb < 2 ^ 31;
  sbo_map : 0 <= sb_bmapstart sb /\ sb_bmapstart sb + sb_size sb / BPB < 2 ^ 31 }.

Lemma bblock_eq sb b : sb_ok sb -> 0 <= b < sb_size sb -> BBLOCK b sb = b / BPB + sb_bmapstart sb /\ 0 <= BBLOCK b sb < 2 ^ 31.
Proof.
  intros [H1 H2] Hb. unfold BBLOCK. change BPB with 8192 in *. unfold u32. rewrite Z.mod_small; zlia.
Qed.

(** The bits of one block of the free map. *)
Lemma used_in_block sb V b k : sb_ok sb -> b mod BPB = 0 -> 0 <= b -> 0 <= k < BPB -> b + k < sb_size sb ->
  BBLOCK (b + k) sb = BBLOCK b sb /\ (b + k) mod BPB = k /\ used V sb (b + k) = bit_of (V (BBLOCK b sb)) k.
Proof.
  intros Hsb Hb H0 Hk Hs. change BPB with 8192 in *.
  assert (BBLOCK (b + k) sb = BBLOCK b sb) as E1.
  { destruct (bblock_eq sb (b + k) Hsb ltac:(lia)) as [-> _]. destruct (bblock_eq sb b Hsb ltac:(lia)) as [-> _]. change BPB with 8192. zlia. }
  assert ((b + k) mod 8192 = k) as E2 by zlia. split_and!; [done|done|]. unfold used. change BPB with 8192. by rewrite E1, E2.
Qed.

Lemma bzero_q s hs V Hd n : in_tx s hs V Hd -> Hd !! n = None -> (length hs + size Hd < bhead)%nat -> 0 <= n < 2 ^ 31 -> log_room s hs 1 ->
  exists s', bzero d n s = Ok tt s' /\ quiet s s' /\ in_tx s' (add_block n hs) (upd V n zeros) Hd.
Proof.
  intros Htx Hn Hsz Hr Hroom. unfold bzero. destruct (bread_q s hs V Hd n Htx Hn Hsz Hr) as (b & s1 & Hs1 & Hq1 & _ & Htx1).
  rewrite (bind_Ok _ _ _ _ _ Hs1). destruct (put_release_q s1 hs V _ n b zeros Htx1 (lookup_insert_eq _ _ _) Hr) as (s2 & Hs2 & Hq2 & Htx2).
  { destruct Hroom as [? ?]. split; [done|]. by rewrite (quiet_lg_size _ _ Hq1). }
  exists s2. rewrite delete_insert_id in Htx2 by done. split_and!; [exact Hs2|by transitivity s1|done].
Qed.

(** The view after [nb] is allocated. *)
Definition allocated (V : Z -> list Z) (sb : superblock) (nb : Z) : Z -> list Z :=
  upd (upd V (BBLOCK nb sb) (set_bit (V (BBLOCK nb sb)) (nb mod BPB))) nb zeros.

Lemma add_block_length n hs : (length (add_block n hs) <= S (length hs))%nat.
Proof. unfold add_block. case_decide; [lia|]. rewrite length_app. cbn. lia. Qed.

Lemma balloc_loop_spec sb fuel s hs V Hd b nb :
  in_tx s hs V Hd -> k_sb s = sb -> sb_ok sb -> b mod BPB = 0 -> 0 <= b <= nb -> nb < sb_size sb -> nb - b < BPB * Z.of_nat fuel ->
  used V sb nb = false -> (forall j, b <= j < nb -> used V sb j = true) ->
  (forall k, 0 <= k < sb_size sb -> Hd !! BBLOCK k sb = None) -> Hd !! nb = None -> (length hs + size Hd + 1 < bhead)%nat -> log_room s hs 2 ->
  exists s', balloc_loop fuel d b s = Ok nb s' /\ quiet s s' /\
    in_tx s' (add_block nb (add_block (BBLOCK nb sb) hs)) (allocated V sb nb) Hd.
Proof.
  intros Htx Hsb Hok Hb Hle Hnb Hfu Hfree Hbelow Hun Hunb Hsz Hroom. revert s b Htx Hsb Hb Hle Hfu Hbelow Hroom.
  induction fuel as [|fuel IH]; intros s b Htx Hsb Hb Hle Hfu Hbelow Hroom; [lia|]. cbn [balloc_loop]. rewrite bind_gets, Hsb.
  rewrite (proj2 (Z.ltb_lt _ _)) by lia. cbn [negb].
  destruct (bread_q s hs V Hd (BBLOCK b sb) Htx (Hun b ltac:(lia)) ltac:(lia) (proj2 (bblock_eq sb b Hok ltac:(lia)))) as (bp & s1 & Hs1 & Hq1 & Hdat & Htx1).
  rewrite (bind_Ok _ _ _ _ _ Hs1), bind_gets, Hdat.
  pose proof (free_bit_spec (S (Z.to_nat BPB)) (V (BBLOCK b sb)) b 0 (sb_size sb) ltac:(lia) ltac:(change BPB with 8192; lia)) as Hfb.
  destruct (free_bit _ _ b 0 (sb_size sb)) as [k|].
  - destruct Hfb as (Hk & Hks & Hkb & Hkl). assert (b + k = nb) as <-.
    { destruct (used_in_block sb V b k Hok Hb ltac:(lia) Hk Hks) as (_ & _ & Hu). rewrite Hkb in Hu.
      destruct (Z.lt_trichotomy (b + k) nb) as [Hlt|[?|Hgt]]; [|done|].
      - rewrite (Hbelow (b + k)) in Hu by lia. done.
      - destruct (used_in_block sb V b (nb - b) Hok Hb ltac:(lia) ltac:(lia) ltac:(lia)) as (_ & _ & Hu').
        rewrite (Hkl (nb - b)) in Hu' by lia. replace (b + (nb - b)) with nb in Hu' by lia. congruence. }
    destruct (used_in_block sb V b k Hok Hb ltac:(lia) Hk Hks) as (Ebb & Ek & _). unfold allocated. rewrite Ebb, Ek in *.
    destruct (bblock_eq sb b Hok ltac:(lia)) as [_ Hrb].
    destruct (put_release_q s1 hs V _ (BBLOCK b sb) bp (set_bit (V (BBLOCK b sb)) k) Htx1 (lookup_insert_eq _ _ _) Hrb) as (s2 & Hs2 & Hq2 & Htx2).
    { destruct Hroom as [? ?]. split; [lia|]. by rewrite (quiet_lg_size _ _ Hq1). }
    rewrite delete_insert_id in Htx2 by (apply Hun; lia). pose proof (add_block_length (BBLOCK b sb) hs) as Hal.
    destruct (bzero_q s2 _ _ _ (b + k) Htx2 Hunb) as (s3 & Hs3 & Hq3 & Htx3); [lia|destruct Hok; lia| |].
    { destruct Hroom as [? ?]. split; [lia|]. by rewrite (quiet_lg_size _ _ Hq2), (quiet_lg_size _ _ Hq1). }
    exists s3. split_and!; [|by transitivity s1; [|transitivity s2]|done].
    rewrite (seq3_Ok _ _ _ _ _ _ Hs2), (bind_Ok _ _ _ _ _ Hs3). done.
  - destruct (brelse_q s1 hs V _ (BBLOCK b sb) bp Htx1 (lookup_insert_eq _ _ _)) as (s2 & Hs2 & Hq2 & Htx2).
    { rewrite (q_dk _ _ Hq1). apply (tx_clean s hs V Hd); [done|]. apply Hun. lia. }
    rewrite (bind_Ok _ _ _ _ _ Hs2). rewrite delete_insert_id in Htx2 by (apply Hun; lia).
    assert (b + BPB <= nb) as Hnext.
    { destruct (Z.leb_spec (b + BPB) nb) as [|Hlt]; [done|exfalso].
      destruct (used_in_block sb V b (nb - b) Hok Hb ltac:(lia) ltac:(lia) ltac:(lia)) as (_ & _ & Hu').
      rewrite (Hfb (nb - b)) in Hu' by lia. replace (b + (nb - b)) with nb in Hu' by lia. congruence. }
    destruct (IH s2 (b + BPB) Htx2) as (s3 & Hs3 & Hq3 & Htx3).
    + by rewrite (q_sb _ _ Hq2), (q_sb _ _ Hq1).
    + change BPB with 8192 in *. zlia.
    + change BPB with 8192 in *. lia.
    + change BPB with 8192 in *. lia.
    + intros j Hj. apply Hbelow. change BPB with 8192 in *. lia.
    + destruct Hroom as [? ?]. split; [done|]. by rewrite (quiet_lg_size _ _ Hq2), (quiet_lg_size _ _ Hq1).
    + exists s3. split_and!; [done|by transitivity s1; [|transitivity s2]|done].
Qed.

(** The first block that the free map has as free. *)
Definition first_free (V : Z -> list Z) (sb : superblock) (nb : Z) : Prop :=
  0 <= nb < sb_size sb /\ used V sb nb = false /\ forall j, 0 <= j < nb -> used V sb j = true.

(** No block of the free map is locked. *)
Definition map_unlocked (sb : superblock) (Hd : gmap Z nat) : Prop := forall k, 0 <= k < sb_size sb -> Hd !! BBLOCK k sb = None.

Lemma balloc_spec sb s hs V Hd nb :
  in_tx s hs V Hd -> k_sb s = sb -> sb_ok sb -> first_free V sb nb -> map_unlocked sb Hd -> Hd !! nb = None ->
  (length hs + size Hd + 1 < bhead)%nat -> log_room s hs 2 ->
  exists s', balloc d s = Ok nb s' /\ quiet s s' /\
    in_tx s' (add_block nb (add_block (BBLOCK nb sb) hs)) (allocated V sb nb) Hd.
Proof.
  intros Htx Hsb Hok (H1 & H2 & H3) Hun Hunb Hsz Hroom. unfold balloc. rewrite bind_gets, Hsb.
  apply (balloc_loop_spec sb); try done; try lia. change BPB with 8192. destruct Hok as [Hs _]. zlia.
Qed.

Lemma bfree_spec sb s hs V Hd b :
  in_tx s hs V Hd -> k_sb s = sb -> sb_ok sb -> 0 <= b < sb_size sb -> used V sb b = true -> map_unlocked sb Hd ->
  (length hs + size Hd < bhead)%nat -> log_room s hs 1 ->
  exists s', bfree d b s = Ok tt s' /\ quiet s s' /\
    in_tx s' (add_block (BBLOCK b sb) hs) (upd V (BBLOCK b sb) (clear_bit (V (BBLOCK b sb)) (b mod BPB))) Hd.
Proof.
  intros Htx Hsb Hok Hb Hu Hun Hsz Hroom. unfold bfree. rewrite bind_gets, Hsb.
  destruct (bread_q s hs V Hd (BBLOCK b sb) Htx (Hun b Hb) Hsz (proj2 (bblock_eq sb b Hok Hb))) as (bp & s1 & Hs1 & Hq1 & Hdat & Htx1).
  rewrite (bind_Ok _ _ _ _ _ Hs1), bind_gets, Hdat. change (b mod BPB) with (b mod 8192). rewrite land_bit by zlia.
  unfold used, bit_of in Hu. change BPB with 8192 in Hu. rewrite Hu. cbn [negb].
  destruct (bblock_eq sb b Hok Hb) as [_ Hr].
  destruct (put_release_q s1 hs V _ (BBLOCK b sb) bp (clear_bit (V (BBLOCK b sb)) (b mod 8192)) Htx1 (lookup_insert_eq _ _ _) Hr) as (s2 & Hs2 & Hq2 & Htx2).
  { destruct Hroom as [? ?]. split; [done|]. by rewrite (quiet_lg_size _ _ Hq1). }
  rewrite delete_insert_id in Htx2 by (by apply Hun). exists s2. split_and!; [exact Hs2|by transitivity s1|done].
Qed.

(** Freeing a block that is free panics. *)
Lemma bfree_free sb s hs V Hd b :
  in_tx s hs V Hd -> k_sb s = sb -> sb_ok sb -> 0 <= b < sb_size sb -> used V sb b = false -> map_unlocked sb Hd -> (length hs + size Hd < bhead)%nat ->
  bfree d b s = Panic "freeing free block".
Proof.
  intros Htx Hsb Hok Hb Hu Hun Hsz. unfold bfree. rewrite bind_gets, Hsb.
  destruct (bread_q s hs V Hd (BBLOCK b sb) Htx (Hun b Hb) Hsz (proj2 (bblock_eq sb b Hok Hb))) as (bp & s1 & Hs1 & Hq1 & Hdat & Htx1).
  rewrite (bind_Ok _ _ _ _ _ Hs1), bind_gets, Hdat. change (b mod BPB) with (b mod 8192). rewrite land_bit by zlia.
  unfold used, bit_of in Hu. change BPB with 8192 in Hu. by rewrite Hu.
Qed.

(** ** The free map after an allocation *)

(** Every block of the free map has its size, and none of them is [nb]. *)
Definition map_sized (V : Z -> list Z) (sb : superblock) : Prop :=
  forall k, 0 <= k < sb_size sb -> length (V (BBLOCK k sb)) = Z.to_nat BSIZE.

Lemma bblock_same sb b c : sb_ok sb -> 0 <= b < sb_size sb -> 0 <= c < sb_size sb -> BBLOCK b sb = BBLOCK c sb -> b mod BPB = c mod BPB -> b = c.
Proof.
  intros Hok Hb Hc. destruct (bblock_eq sb b Hok Hb) as [-> _], (bblock_eq sb c Hok Hc) as [-> _]. change BPB with 8192. zlia.
Qed.

Lemma used_upd V V' sb b c (f : list Z -> Z -> list Z) (g : bool -> bool -> bool) :
  sb_ok sb -> map_sized V sb -> 0 <= b < sb_size sb -> 0 <= c < sb_size sb ->
  (forall k, 0 <= k < sb_size sb -> V' (BBLOCK k sb) = upd V (BBLOCK b sb) (f (V (BBLOCK b sb)) (b mod BPB)) (BBLOCK k sb)) ->
  (forall data bi bj, 0 <= bi < 8 * Z.of_nat (length data) -> 0 <= bj -> bit_of (f data bi) bj = g (bool_decide (bj = bi)) (bit_of data bj)) ->
  (forall x, g false x = x) -> used V' sb c = g (bool_decide (c = b)) (used V sb c).
Proof.
  intros Hok Hsz Hb Hc HV Hf Hg. unfold used. rewrite HV by done. unfold upd. destruct (decide (BBLOCK b sb = BBLOCK c sb)) as [E|E].
  - rewrite Hf.
    + rewrite E. f_equal. apply bool_decide_ext. split; [|by intros ->]. intros E2. symmetry. apply (bblock_same sb); done.
    + rewrite Hsz by done. change BPB with 8192. change (Z.to_nat BSIZE) with 1024%nat. zlia.
    + change BPB with 8192. zlia.
  - rewrite bool_decide_false by (by intros ->). by rewrite Hg.
Qed.

Lemma used_allocated V sb nb c : sb_ok sb -> map_sized V sb -> 0 <= nb < sb_size sb -> 0 <= c < sb_size sb ->
  (forall k, 0 <= k < sb_size sb -> BBLOCK k sb <> nb) -> used (allocated V sb nb) sb c = bool_decide (c = nb) || used V sb c.
Proof.
  intros Hok Hsz Hb Hc Hne. apply (used_upd V _ sb nb c set_bit orb); try done.
  - intros k Hk. unfold allocated. rewrite upd_other by (apply not_eq_sym, Hne; done). done.
  - intros. by apply bit_set.
Qed.

Lemma used_freed V sb b c : sb_ok sb -> map_sized V sb -> 0 <= b < sb_size sb -> 0 <= c < sb_size sb ->
  used (upd V (BBLOCK b sb) (clear_bit (V (BBLOCK b sb)) (b mod BPB))) sb c = negb (bool_decide (c = b)) && used V sb c.
Proof.
  intros Hok Hsz Hb Hc. apply (used_upd V _ sb b c clear_bit (fun x y => negb x && y)); try done.
  intros. by apply bit_clear.
Qed.

Lemma length_set_bit data k : length (set_bit data k) = length data.
Proof. apply length_insert. Qed.

Lemma map_sized_allocated V sb nb : map_sized V sb -> map_sized (allocated V sb nb) sb.
Proof.
  intros H k Hk. unfold allocated, upd. case_decide; [done|]. case_decide as E; [|by apply H].
  rewrite length_set_bit, E. by apply H.
Qed.
End Tx.
