(* ===== verification/FsMap.v ===== *)
(** * The block map of a file

    A file has 269 slots for block numbers: twelve direct ones, the one of the
    indirect block, and those in the indirect block.  bmap of kernel/fs.c finds
    the block of a slot, or allocates one; the invariant says that the blocks
    of a file are data blocks, in use, and each in one slot only. *)

From S2P Require Import Prelude Layout Spinlock Kalloc State Proc SleepLock Bio Log Fs ProcSpec SleepSpec Ring CacheSpec LogSpec LogOps FsTx.

(** ** Slots *)

Definition nslots : Z := 269.

(** The block number in slot [k], 0 for none; slot 12 is the indirect block. *)
Definition loc (V : Z -> list Z) (addrs : list Z) (k : Z) : Z :=
  if k <? 13 then byte_at addrs k
  else if byte_at addrs 12 =? 0 then 0 else peek 4 (V (byte_at addrs 12)) (4 * (k - 13)).

(** The slot of block [bn] of the file. *)
Definition slot_of (bn : Z) : Z := if bn <? 12 then bn else bn + 1.

(** ** Invariants *)

(** The disk: the blocks below [ds] hold the super block, the log, the inodes
    and the free map, and are in use. *)
Record fs_ok (V : Z -> list Z) (sb : superblock) (ds : Z) : Prop := {
  fs_sb : sb_ok sb;
  fs_ds : 0 < ds <= sb_size sb;
  fs_map : forall k, 0 <= k < sb_size sb -> 0 < BBLOCK k sb < ds;
  fs_meta : forall b, 0 <= b < ds -> used V sb b = true;
  fs_sized : forall b, 0 <= b < sb_size sb -> length (V b) = Z.to_nat BSIZE }.

(** The file has block [b]. *)
Definition gained (V : Z -> list Z) (addrs : list Z) (b : Z) : Prop := b <> 0 /\ exists k, 0 <= k < nslots /\ loc V addrs k = b.

(** The file: its blocks are data blocks in use, each in one slot. *)
Record file_ok (V : Z -> list Z) (sb : superblock) (ds : Z) (addrs : list Z) : Prop := {
  fi_len : length addrs = 13%nat;
  fi_data : forall k, 0 <= k < nslots -> loc V addrs k <> 0 -> ds <= loc V addrs k < sb_size sb /\ used V sb (loc V addrs k) = true;
  fi_inj : forall k j, 0 <= k < nslots -> 0 <= j < nslots -> loc V addrs k <> 0 -> loc V addrs k = loc V addrs j -> k = j }.

Lemma loc_blockno V sb ds addrs k : fs_ok V sb ds -> file_ok V sb ds addrs -> 0 <= k < nslots -> loc V addrs k <> 0 -> blockno_ok (loc V addrs k).
Proof.
  intros Hfs Hf Hk Hnz. destruct (fi_data _ _ _ _ Hf k Hk Hnz) as [H _]. pose proof (fs_ds _ _ _ Hfs). pose proof (sbo_size _ (fs_sb _ _ _ Hfs)).
  unfold blockno_ok. lia.
Qed.

Lemma fs_map_sized V sb ds : fs_ok V sb ds -> map_sized V sb.
Proof.
  intros [H1 H2 H3 _ H5] k Hk. apply H5. destruct (bblock_eq sb k H1 Hk) as [_ ?]. specialize (H3 k Hk). lia.
Qed.

(** ** Free blocks *)

Definition nfree (V : Z -> list Z) (sb : superblock) : nat := length (filter (fun b => used V sb b = false) (seqZ 0 (sb_size sb))).

Lemma first_free_exists V sb : (0 < nfree V sb)%nat -> exists nb, first_free V sb nb.
Proof.
  unfold nfree. intros H.
  assert (forall n, (exists nb, 0 <= nb < Z.of_nat n /\ used V sb nb = false /\ forall j, 0 <= j < nb -> used V sb j = true) \/
     forall j, 0 <= j < Z.of_nat n -> used V sb j = true) as Hall.
  { induction n as [|n [(nb & K1 & K2 & K3)|K]]; [right; lia|left; exists nb; split_and!; (done || lia)|].
    destruct (used V sb (Z.of_nat n)) eqn:E; [right|left; exists (Z.of_nat n); split_and!; try done; try lia].
    intros j Hj. destruct (decide (j = Z.of_nat n)) as [->|]; [done|]. apply K. lia. }
  destruct (Hall (Z.to_nat (sb_size sb))) as [(nb & K1 & K2 & K3)|K]; [exists nb; split_and!; (done || lia)|exfalso].
  destruct (filter (fun b => used V sb b = false) (seqZ 0 (sb_size sb))) as [|x l] eqn:E; [cbn in H; lia|].
  assert (x ∈ filter (fun b => used V sb b = false) (seqZ 0 (sb_size sb))) as Hx by (rewrite E; by left).
  apply list_elem_of_filter in Hx as [Hx1 Hx2]. apply elem_of_seqZ in Hx2. rewrite K in Hx1 by lia. done.
Qed.

Lemma nfree_used V V' sb nb : 0 <= nb < sb_size sb -> used V sb nb = false ->
  (forall c, 0 <= c < sb_size sb -> used V' sb c = bool_decide (c = nb) || used V sb c) -> nfree V sb = S (nfree V' sb).
Proof.
  intros Hnb Hu Hall. unfold nfree.
  apply (Permutation_length (l' := nb :: filter (fun b => used V' sb b = false) (seqZ 0 (sb_size sb)))).
  apply NoDup_Permutation.
  - apply NoDup_filter, NoDup_seqZ.
  - apply NoDup_cons. split; [|apply NoDup_filter, NoDup_seqZ]. intros K. apply list_elem_of_filter in K as [K1 K2].
    apply elem_of_seqZ in K2. rewrite Hall, bool_decide_true in K1 by (done || lia). done.
  - intros b. rewrite elem_of_cons, !list_elem_of_filter, elem_of_seqZ. split.
    + intros [K1 K2]. destruct (decide (b = nb)) as [->|Hne]; [by left|right]. rewrite Hall, bool_decide_false by (done || lia). done.
    + intros [->|[K1 K2]]; [split; [done|lia]|]. rewrite Hall in K1 by lia. apply orb_false_iff in K1 as [_ K1]. done.
Qed.

(** ** Blocks that an allocation leaves alone *)

Lemma allocated_other V sb nb b : b <> nb -> b <> BBLOCK nb sb -> allocated V sb nb b = V b.
Proof. intros H1 H2. unfold allocated. by rewrite !upd_other by (by apply not_eq_sym). Qed.

Lemma allocated_zero V sb nb : allocated V sb nb nb = zeros.
Proof. unfold allocated. apply upd_same. Qed.

Lemma fs_ok_allocated V sb ds nb : fs_ok V sb ds -> ds <= nb < sb_size sb -> fs_ok (allocated V sb nb) sb ds.
Proof.
  intros Hfs Hnb. pose proof (fs_map_sized _ _ _ Hfs) as Hms. destruct Hfs as [H1 H2 H3 H4 H5]. split; try done.
  - intros b Hb. rewrite used_allocated; try done; [|lia|lia|intros k Hk; specialize (H3 k Hk); lia]. rewrite H4 by done. apply orb_true_r.
  - intros b Hb. unfold allocated, upd. case_decide; [done|]. case_decide as E; [|by apply H5]. rewrite length_set_bit, E. by apply H5.
Qed.

(** ** Filling a slot *)

Lemma le_val_zeros n : le_val (replicate n 0) = 0.
Proof. induction n as [|n IH]; [done|]. cbn [replicate le_val]. rewrite IH. done. Qed.

Lemma peek_zeros n off : peek n zeros off = 0.
Proof. unfold peek, zeros. rewrite drop_replicate, take_replicate. apply le_val_zeros. Qed.

Lemma byte_at_set (addrs : list Z) k j v : 0 <= k < Z.of_nat (length addrs) -> 0 <= j ->
  byte_at (<[Z.to_nat k := v]> addrs) j = if decide (j = k) then v else byte_at addrs j.
Proof.
  intros Hk Hj. rewrite byte_at_insert by lia. destruct (decide (k = j)) as [->|Hne]; [by rewrite decide_True|by rewrite decide_False by congruence].
Qed.

(** The indirect block is a data block in use. *)
Lemma ind_data V sb ds addrs : file_ok V sb ds addrs -> byte_at addrs 12 <> 0 ->
  ds <= byte_at addrs 12 < sb_size sb /\ used V sb (byte_at addrs 12) = true.
Proof. intros Hf Hi. apply (fi_data _ _ _ _ Hf 12); [unfold nslots; lia|done]. Qed.

Lemma loc_allocated V sb ds addrs nb j : fs_ok V sb ds -> file_ok V sb ds addrs -> used V sb nb = false -> ds <= nb < sb_size sb ->
  loc (allocated V sb nb) addrs j = loc V addrs j.
Proof.
  intros Hfs Hf Hu Hnb. unfold loc. destruct (j <? 13); [done|]. destruct (Z.eqb_spec (byte_at addrs 12) 0) as [|Hi]; [done|].
  destruct (ind_data _ _ _ _ Hf Hi) as [K1 K2]. rewrite allocated_other; [done|intros E; rewrite E in K2; congruence|].
  intros E. pose proof (fs_map _ _ _ Hfs nb ltac:(destruct (fs_ds _ _ _ Hfs); lia)). lia.
Qed.

Lemma loc_set_direct V sb ds addrs nb k j : fs_ok V sb ds -> file_ok V sb ds addrs -> used V sb nb = false -> ds <= nb < sb_size sb ->
  0 <= k < 13 -> loc V addrs k = 0 -> 0 <= j -> loc (allocated V sb nb) (<[Z.to_nat k := nb]> addrs) j = if decide (j = k) then nb else loc V addrs j.
Proof.
  intros Hfs Hf Hu Hnb Hk H0 Hj. pose proof (fi_len _ _ _ _ Hf) as Hlen. unfold loc at 1.
  destruct (Z.ltb_spec j 13) as [Hj2|Hj2].
  - rewrite byte_at_set by lia. case_decide; [done|]. unfold loc. by rewrite (proj2 (Z.ltb_lt j 13)).
  - rewrite (decide_False (P := j = k)) by lia. rewrite byte_at_set by lia. case_decide as E.
    + subst k. rewrite allocated_zero, peek_zeros. unfold loc in *. rewrite (proj2 (Z.ltb_ge j 13)) by done.
      cbn in H0. rewrite H0. cbn. by destruct (nb =? 0).
    + rewrite <- (loc_allocated V sb ds addrs nb j) by done. unfold loc. by rewrite (proj2 (Z.ltb_ge j 13)).
Qed.

Lemma loc_set_entry V sb ds addrs nb k j : fs_ok V sb ds -> file_ok V sb ds addrs -> used V sb nb = false -> ds <= nb < sb_size sb ->
  13 <= k < nslots -> byte_at addrs 12 <> 0 -> 0 <= j < nslots ->
  loc (upd (allocated V sb nb) (byte_at addrs 12) (poke 4 (V (byte_at addrs 12)) (4 * (k - 13)) nb)) addrs j = if decide (j = k) then nb else loc V addrs j.
Proof.
  intros Hfs Hf Hu Hnb Hk Hi Hj. destruct (ind_data _ _ _ _ Hf Hi) as [K1 K2]. destruct (fs_ds _ _ _ Hfs) as [Hd1 Hd2].
  pose proof (fs_sized _ _ _ Hfs (byte_at addrs 12) ltac:(lia)) as Hlen. change (Z.to_nat BSIZE) with 1024%nat in Hlen.
  unfold nslots in *. unfold loc. destruct (Z.ltb_spec j 13) as [Hj2|Hj2]; [by rewrite decide_False by lia|].
  rewrite (proj2 (Z.eqb_neq _ _) Hi), upd_same. case_decide as E.
  - subst j. rewrite peek_poke by lia. apply Z.mod_small. pose proof (sbo_size _ (fs_sb _ _ _ Hfs)). cbn. lia.
  - apply peek_poke_ne; lia.
Qed.

(** A file with a new block in slot [k]. *)
Lemma file_ok_set V V' sb ds addrs addrs' nb k : file_ok V sb ds addrs -> length addrs' = 13%nat -> ds <= nb < sb_size sb -> used V sb nb = false ->
  0 < ds -> 0 <= k < nslots -> (forall j, 0 <= j < nslots -> loc V' addrs' j = if decide (j = k) then nb else loc V addrs j) ->
  (forall c, 0 <= c < sb_size sb -> used V' sb c = bool_decide (c = nb) || used V sb c) -> file_ok V' sb ds addrs'.
Proof.
  intros Hf Hlen Hnb Hu Hds Hk Hloc Hused. split; [done|..].
  - intros j Hj. rewrite Hloc by done. case_decide as E.
    + intros _. split; [done|]. rewrite Hused, bool_decide_true by (done || lia). done.
    + intros Hnz. destruct (fi_data _ _ _ _ Hf j Hj Hnz) as [K1 K2]. split; [done|]. rewrite Hused, K2 by lia. apply orb_true_r.
  - intros j1 j2 Hj1 Hj2. rewrite !Hloc by done. case_decide as E1; case_decide as E2; [congruence|..].
    + intros _ E. exfalso. destruct (fi_data _ _ _ _ Hf j2 Hj2 ltac:(lia)) as [_ K]. congruence.
    + intros Hnz E. exfalso. destruct (fi_data _ _ _ _ Hf j1 Hj1 Hnz) as [_ K]. congruence.
    + by apply (fi_inj _ _ _ _ Hf).
Qed.

(** ** bmap *)

(** The blocks that writing to files puts in the log. *)
Definition file_block (sb : superblock) (ds h : Z) : Prop := ds <= h < sb_size sb \/ exists c, 0 <= c < sb_size sb /\ h = BBLOCK c sb.

Lemma add_block_inv n hs h : h ∈ add_block n hs -> h ∈ hs \/ h = n.
Proof. unfold add_block. case_decide; [by left|]. rewrite elem_of_app, list_elem_of_singleton. tauto. Qed.

(** Slot [k] holds the block [a]: what finding or allocating it changes. *)
Record mapped (sb : superblock) (ds : Z) (V : Z -> list Z) (addrs hs : list Z) (V' : Z -> list Z) (addrs' hs' : list Z) (k a : Z) : Prop := {
  mp_fs : fs_ok V' sb ds;
  mp_file : file_ok V' sb ds addrs';
  mp_slot : loc V' addrs' k = a;
  mp_block : a <> 0;
  mp_keep : forall j, 0 <= j < nslots -> j = 12 \/ j = k -> loc V addrs j <> 0 -> loc V' addrs' j = loc V addrs j;
  mp_others : forall j, 0 <= j < nslots -> j <> k -> j <> 12 -> loc V' addrs' j = loc V addrs j;
  mp_data : forall b, ds <= b < sb_size sb -> used V sb b = true -> b <> loc V addrs 12 -> V' b = V b;
  mp_new : loc V addrs k = 0 -> k <> 12 -> V' a = zeros;
  mp_meta : forall b, 0 <= b < ds -> (forall c, 0 <= c < sb_size sb -> b <> BBLOCK c sb) -> V' b = V b;
  mp_used : forall b, 0 <= b < sb_size sb -> used V sb b = true -> used V' sb b = true;
  mp_fresh : forall j, 0 <= j < nslots -> loc V addrs j = 0 -> loc V' addrs' j <> 0 -> used V sb (loc V' addrs' j) = false;
  mp_free : (nfree V sb <= nfree V' sb + 2)%nat;
  mp_log : (length hs' <= length hs + 5)%nat;
  mp_hs : forall h, h ∈ hs' -> h ∈ hs \/ file_block sb ds h;
  mp_map : forall b, 0 <= b < sb_size sb -> used V' sb b = true -> used V sb b = true \/ gained V' addrs' b }.

Lemma mapped_refl sb ds V addrs hs k : fs_ok V sb ds -> file_ok V sb ds addrs -> loc V addrs k <> 0 ->
  mapped sb ds V addrs hs V addrs hs k (loc V addrs k).
Proof. intros H1 H2 H3. split; try done; try lia; by left. Qed.

Section Bmap.
Context `{OT : Others} `{BD : BlockDev} `{DL : !DiskLaws}.
Context (i : nat) (d st : Z) (sb : superblock) (ds : Z).
Local Abbreviation in_tx := (in_tx i d st).
Local Abbreviation quiet := (quiet i).

(** Locked blocks are data blocks in use. *)
Definition locked_data (V : Z -> list Z) (Hd : gmap Z nat) : Prop := forall b x, Hd !! b = Some x -> ds <= b < sb_size sb /\ used V sb b = true.

Lemma balloc_file s hs V Hd : in_tx s hs V Hd -> k_sb s = sb -> fs_ok V sb ds -> (0 < nfree V sb)%nat -> locked_data V Hd ->
  (length hs + size Hd + 1 < bhead)%nat -> log_room s hs 2 ->
  exists nb s', balloc d s = Ok nb s' /\ quiet s s' /\ ds <= nb < sb_size sb /\ used V sb nb = false /\
    in_tx s' (add_block nb (add_block (BBLOCK nb sb) hs)) (allocated V sb nb) Hd.
Proof.
  intros Htx Hsb Hfs Hn Hlk Hsz Hroom. destruct (first_free_exists V sb Hn) as [nb Hff].
  pose proof Hff as (H1 & H2 & _). assert (ds <= nb) as Hge.
  { destruct (Z.leb_spec ds nb); [done|]. rewrite (fs_meta _ _ _ Hfs) in H2 by lia. done. }
  destruct (balloc_spec i d st sb s hs V Hd nb Htx Hsb (fs_sb _ _ _ Hfs) Hff) as (s' & Hs & Hq & Htx'); [| |done|done|].
  - intros k Hk. destruct (Hd !! BBLOCK k sb) eqn:E; [|done]. apply Hlk in E as [E _]. pose proof (fs_map _ _ _ Hfs k Hk). lia.
  - destruct (Hd !! nb) eqn:E; [|done]. apply Hlk in E as [_ E]. congruence.
  - exists nb, s'. split_and!; [done|done|done|lia|done|done].
Qed.

(** The view after an allocation for slot [k]. *)
Lemma mapped_alloc V V' addrs addrs' hs hs' k nb : fs_ok V sb ds -> file_ok V sb ds addrs -> ds <= nb < sb_size sb -> used V sb nb = false ->
  0 <= k < nslots -> loc V addrs k = 0 -> length addrs' = 13%nat -> fs_ok V' sb ds ->
  (forall j, 0 <= j < nslots -> loc V' addrs' j = if decide (j = k) then nb else loc V addrs j) ->
  (forall b, b <> 0 -> b <> loc V addrs 12 -> V' b = allocated V sb nb b) -> V' 0 = V 0 ->
  (length hs' <= length hs + 5)%nat -> (forall h, h ∈ hs' -> h ∈ hs \/ file_block sb ds h) -> mapped sb ds V addrs hs V' addrs' hs' k nb.
Proof.
  intros Hfs Hf Hnb Hu Hk H0 Hlen Hfs' Hloc HV HV0 Hl Hhs. pose proof (fs_map_sized _ _ _ Hfs) as Hms. destruct (fs_ds _ _ _ Hfs) as [Hd1 Hd2].
  pose proof (fs_map _ _ _ Hfs) as Hmap.
  assert (loc V addrs 12 <> 0 -> ds <= loc V addrs 12 /\ used V sb (loc V addrs 12) = true) as Hind.
  { intros E. destruct (fi_data _ _ _ _ Hf 12 ltac:(unfold nslots; lia) E) as [K1 K2]. split; [lia|done]. }
  assert (nb <> loc V addrs 12) as Hni by (intros E; destruct Hind as [_ K]; [lia|congruence]).
  assert (forall c, 0 <= c < sb_size sb -> used V' sb c = bool_decide (c = nb) || used V sb c) as Hused.
  { intros c Hc. rewrite <- (used_allocated V sb nb c (fs_sb _ _ _ Hfs) Hms) by (lia || (intros k' Hk'; specialize (Hmap k' Hk'); lia)).
    unfold used. rewrite HV; [done|specialize (Hmap c Hc); lia|]. intros E. specialize (Hmap c Hc). destruct Hind as [K _]; lia. }
  split; try done.
  - by eapply file_ok_set.
  - by rewrite Hloc, decide_True.
  - lia.
  - intros j Hj Hor Hnz. rewrite Hloc by done. case_decide as E; [subst; congruence|done].
  - intros j Hj H1 H2. rewrite Hloc by done. by rewrite decide_False.
  - intros b Hb Hub Hbi. rewrite HV by lia. apply allocated_other; [congruence|]. specialize (Hmap nb ltac:(lia)). lia.
  - intros _ _. rewrite HV by lia. apply allocated_zero.
  - intros b Hb Hnm. destruct (decide (b = 0)) as [->|Hb0]; [done|]. rewrite HV; [|done|intros E; destruct Hind as [K _]; lia].
    apply allocated_other; [lia|]. apply Hnm. lia.
  - intros b Hb Hub. rewrite Hused, Hub by done. apply orb_true_r.
  - intros j Hj E0. rewrite Hloc by done. by case_decide.
  - rewrite (nfree_used V V' sb nb) by (done || lia). lia.
  - intros b Hb Hub. rewrite Hused in Hub by done. apply orb_true_iff in Hub as [E|E]; [right|by left]. apply bool_decide_eq_true in E as ->.
    split; [lia|]. exists k. split; [done|]. by rewrite Hloc, decide_True.
Qed.

(** ** The slots of the inode *)

Lemma alloc_hs hs nb h : 0 < ds -> ds <= nb < sb_size sb -> h ∈ add_block nb (add_block (BBLOCK nb sb) hs) -> h ∈ hs \/ file_block sb ds h.
Proof.
  intros Hd Hnb H. apply add_block_inv in H as [H| ->]; [|by right; left]. apply add_block_inv in H as [H| ->]; [by left|].
  right. right. exists nb. split; [lia|done].
Qed.

Lemma in_tx_seti s hs V Hd ip x : in_tx s hs V Hd -> in_tx (seti ip x s) hs V Hd.
Proof. intros [(R & Hc & HR) H2 H3 H4 H5]. split; try done. exists R. split; [|done]. by apply (cache_same i d s). Qed.

Lemma quiet_seti ip x s s' : quiet s s' -> quiet (seti ip x s) (seti ip x s').
Proof. intros []. split; try done. intros j. by rewrite !geti_seti, q_ic. Qed.

Lemma quiet_seti_id ip s : quiet (seti ip (geti s ip) s) s.
Proof. split; try done; [exists (lg_lh (k_lg s)); change (k_lg (seti ip (geti s ip) s)) with (k_lg s); by destruct (k_lg s)|]. intros j. rewrite geti_seti. case_decide; congruence. Qed.

(** Finding or allocating the block of a slot of the inode itself. *)
Definition direct_slot (ip : nat) (k : Z) : M kst Z :=
  let! addr := addr_at ip k in
  if addr =? 0 then let! addr := balloc d in set_addr ip k addr;; ret addr else ret addr.

Lemma direct_slot_spec s hs V ip k : in_tx s hs V ∅ -> k_sb s = sb -> fs_ok V sb ds -> file_ok V sb ds (i_addrs (geti s ip)) ->
  0 <= k < 13 -> (0 < nfree V sb)%nat -> (length hs < 27)%nat -> 30 <= lg_size (k_lg s) ->
  exists a s' V' addrs' hs', direct_slot ip k s = Ok a s' /\ quiet (seti ip (set_i_addrs addrs' (geti s ip)) s) s' /\
    in_tx s' hs' V' ∅ /\ mapped sb ds V (i_addrs (geti s ip)) hs V' addrs' hs' k a /\ (length hs' <= length hs + 2)%nat /\
    (nfree V sb <= nfree V' sb + 1)%nat.
Proof.
  intros Htx Hsb Hfs Hf Hk Hnf Hl Hsz. unfold direct_slot, addr_at. rewrite bind_gets. set (addrs := i_addrs (geti s ip)) in *.
  assert (loc V addrs k = byte_at addrs k) as Eloc by (unfold loc; by rewrite (proj2 (Z.ltb_lt k 13)) by lia).
  destruct (Z.eqb_spec (byte_at addrs k) 0) as [E0|E0].
  - destruct (balloc_file s hs V ∅ Htx Hsb Hfs Hnf) as (nb & s1 & Hs1 & Hq1 & Hnb & Hu & Htx1);
      [intros ? ? K; by rewrite lookup_empty in K|rewrite map_size_empty; change bhead with 30%nat; lia|split; [lia|done]|].
    rewrite (bind_Ok _ _ _ _ _ Hs1). unfold set_addr, updi. rewrite bind_modify.
    pose proof (q_ic _ _ _ Hq1 ip) as Eg. rewrite Eg. fold addrs.
    exists nb, (seti ip (set_i_addrs (<[Z.to_nat k := nb]> addrs) (geti s ip)) s1), (allocated V sb nb), (<[Z.to_nat k := nb]> addrs).
    eexists. pose proof (add_block_length (BBLOCK nb sb) hs) as L1. pose proof (add_block_length nb (add_block (BBLOCK nb sb) hs)) as L2.
    split_and!; [done|by apply quiet_seti|apply in_tx_seti; exact Htx1| |lia|].
    + apply mapped_alloc; try done; [unfold nslots; lia|by rewrite Eloc|rewrite length_insert; apply (fi_len _ _ _ _ Hf)|by apply fs_ok_allocated|..].
      * intros j Hj. apply (loc_set_direct V sb ds); (done || lia || by rewrite Eloc).
      * destruct (fs_ds _ _ _ Hfs). apply allocated_other; [lia|]. pose proof (fs_map _ _ _ Hfs nb ltac:(lia)). lia.
      * lia.
      * intros h Hh. destruct (fs_ds _ _ _ Hfs). by apply (alloc_hs hs nb).
    + pose proof (fs_map _ _ _ Hfs) as Hmap. destruct (fs_ds _ _ _ Hfs) as [Hd1 Hd2].
      rewrite (nfree_used V (allocated V sb nb) sb nb); [lia|lia|done|]. intros c Hc.
      apply used_allocated; [apply Hfs|by eapply fs_map_sized|lia|done|]. intros k' Hk'. specialize (Hmap k' Hk'). lia.
  - exists (byte_at addrs k), s, V, addrs, hs. split_and!; [done|..|done| |lia|lia].
    + assert (set_i_addrs addrs (geti s ip) = geti s ip) as -> by (unfold addrs; by destruct (geti s ip)). by apply quiet_seti_id.
    + rewrite <- Eloc. apply mapped_refl; [done|done|]. by rewrite Eloc.
Qed.

(** ** The slots of the indirect block *)

(** Finding or allocating entry [j] of the indirect block [ind]. *)
Definition entry_slot (ind j : Z) : M kst Z :=
  let! bp := bread d ind in
  let! addr := gets (fun s => peek 4 (b_data (getb s bp)) (4 * j)) in
  let! addr := (if addr =? 0
                then let! addr := balloc d in
                     updb bp (fun b => set_b_data (poke 4 (b_data b) (4 * j) addr) b);;
                     log_write bp;;
                     ret addr
                else ret addr) in
  brelse bp;;
  ret addr.

(** The contents of a locked buffer. *)
Lemma locked_content s hs V Hd n b : in_tx s hs V Hd -> Hd !! n = Some b -> b_data (getb s b) = V n.
Proof. intros [(R & Hc & _) _ _ _ _] Hn. by destruct (held_buf i d s V R Hd n b Hc Hn) as (_ & _ & H & _). Qed.

Lemma add_block_in n hs : n ∈ add_block n hs.
Proof. unfold add_block. case_decide; [done|]. apply elem_of_app. right. by left. Qed.

(** A new block for an entry. *)
Lemma entry_alloc s hs V addrs bp j : in_tx s hs V {[byte_at addrs 12 := bp]} -> k_sb s = sb -> fs_ok V sb ds -> file_ok V sb ds addrs ->
  byte_at addrs 12 <> 0 -> 0 <= j < 256 -> (0 < nfree V sb)%nat -> (length hs < 26)%nat -> 30 <= lg_size (k_lg s) ->
  exists nb s' hs', (let! addr := balloc d in updb bp (fun b => set_b_data (poke 4 (b_data b) (4 * j) addr) b);; log_write bp;; ret addr) s = Ok nb s' /\
    quiet s s' /\ ds <= nb < sb_size sb /\ used V sb nb = false /\ (length hs' <= length hs + 3)%nat /\ byte_at addrs 12 ∈ hs' /\
    (forall h, h ∈ hs' -> h ∈ hs \/ file_block sb ds h) /\
    in_tx s' hs' (upd (allocated V sb nb) (byte_at addrs 12) (poke 4 (V (byte_at addrs 12)) (4 * j) nb)) {[byte_at addrs 12 := bp]}.
Proof.
  intros Htx Hsb Hfs Hf Hi Hj Hnf Hl Hsz. set (ind := byte_at addrs 12) in *. destruct (ind_data _ _ _ _ Hf Hi) as [K1 K2]. fold ind in K1, K2.
  destruct (fs_ds _ _ _ Hfs) as [Hd1 Hd2]. pose proof (sbo_size _ (fs_sb _ _ _ Hfs)) as Hss.
  destruct (balloc_file s hs V _ Htx Hsb Hfs Hnf) as (nb & s1 & Hs1 & Hq1 & Hnb & Hu & Htx1);
    [intros b x K; apply lookup_singleton_Some in K as [<- _]; done|rewrite map_size_singleton; change bhead with 30%nat; lia|split; [lia|done]|].
  rewrite (bind_Ok _ _ _ _ _ Hs1). pose proof (locked_content s1 _ _ _ ind bp Htx1 (lookup_singleton_eq _ _)) as Hdat.
  rewrite allocated_other in Hdat; [|intros E; rewrite E in K2; congruence|pose proof (fs_map _ _ _ Hfs nb ltac:(lia)); lia].
  pose proof (add_block_length (BBLOCK nb sb) hs) as L1. pose proof (add_block_length nb (add_block (BBLOCK nb sb) hs)) as L2.
  pose proof (add_block_length ind (add_block nb (add_block (BBLOCK nb sb) hs))) as L3.
  destruct (put_q i d st s1 _ _ _ ind bp (poke 4 (V ind) (4 * j) nb) Htx1 (lookup_singleton_eq _ _)) as (s2 & Hs2 & Hq2 & Htx2);
    [lia|split; [lia|by rewrite (quiet_lg_size _ _ _ Hq1)]|].
  exists nb, s2. eexists. split_and!; [|by transitivity s1|lia|lia|done|..|exact Htx2].
  - assert (updb bp (fun b => set_b_data (poke 4 (b_data b) (4 * j) nb) b) s1 = updb bp (set_b_data (poke 4 (V ind) (4 * j) nb)) s1) as E.
    { unfold updb, modify. by rewrite Hdat. }
    unfold bind in Hs2 |- *. rewrite E. destruct (updb bp _ s1) as [[] s3| |]; [|done|done]. by rewrite Hs2.
  - lia.
  - apply add_block_in.
  - intros h Hh. apply add_block_inv in Hh as [Hh| ->]; [by apply (alloc_hs hs nb)|right; left; lia].
Qed.

(** The view with the new entry. *)
Definition with_entry (V : Z -> list Z) (addrs : list Z) (nb j : Z) : Z -> list Z :=
  upd (allocated V sb nb) (byte_at addrs 12) (poke 4 (V (byte_at addrs 12)) (4 * j) nb).

Lemma entry_range V nb : fs_ok V sb ds -> ds <= nb < sb_size sb -> 0 <= nb < sb_size sb.
Proof. intros Hfs Hnb. destruct (fs_ds _ _ _ Hfs). lia. Qed.

Lemma entry_used V addrs nb j : fs_ok V sb ds -> file_ok V sb ds addrs -> byte_at addrs 12 <> 0 -> 0 <= j < 256 -> ds <= nb < sb_size sb -> used V sb nb = false ->
  forall c, 0 <= c < sb_size sb -> used (with_entry V addrs nb j) sb c = bool_decide (c = nb) || used V sb c.
Proof.
  intros Hfs Hf Hi Hj Hnb Hu c Hc. destruct (ind_data _ _ _ _ Hf Hi) as [K1 K2]. pose proof (fs_map _ _ _ Hfs) as Hmap.
  rewrite <- (used_allocated V sb nb c (fs_sb _ _ _ Hfs) (fs_map_sized _ _ _ Hfs)); [|by eapply entry_range|done|intros k Hk; specialize (Hmap k Hk); lia].
  unfold used, with_entry. rewrite upd_other; [done|]. specialize (Hmap c Hc). lia.
Qed.

Lemma mapped_entry V addrs hs hs' nb j : fs_ok V sb ds -> file_ok V sb ds addrs -> byte_at addrs 12 <> 0 -> 0 <= j < 256 -> ds <= nb < sb_size sb ->
  used V sb nb = false -> loc V addrs (13 + j) = 0 -> (length hs' <= length hs + 3)%nat -> (forall h, h ∈ hs' -> h ∈ hs \/ file_block sb ds h) ->
  mapped sb ds V addrs hs (with_entry V addrs nb j) addrs hs' (13 + j) nb.
Proof.
  intros Hfs Hf Hi Hj Hnb Hu H0 Hl Hhs. destruct (ind_data _ _ _ _ Hf Hi) as [K1 K2]. destruct (fs_ds _ _ _ Hfs) as [Hd1 Hd2].
  pose proof (fs_sized _ _ _ Hfs (byte_at addrs 12) ltac:(lia)) as Hlen. change (Z.to_nat BSIZE) with 1024%nat in Hlen.
  pose proof (fs_ok_allocated V sb ds nb Hfs Hnb) as Hfs'. unfold with_entry. apply mapped_alloc; try done; [unfold nslots; lia|apply Hf|..|lia].
  - destruct Hfs' as [A1 A2 A3 A4 A5]. split; try done.
    + intros b Hb. unfold used. rewrite upd_other by (pose proof (A3 b ltac:(lia)); lia). by apply A4.
    + intros b Hb. unfold upd. case_decide; [|by apply A5]. by rewrite length_poke by lia.
  - intros k Hk. replace (4 * j) with (4 * (13 + j - 13)) by lia. apply (loc_set_entry V sb ds); try done. unfold nslots. lia.
  - intros b Hb0 Hb. apply upd_other. intros E. apply Hb. by rewrite <- E.
  - rewrite upd_other by done. apply allocated_other; [lia|]. pose proof (fs_map _ _ _ Hfs nb ltac:(lia)). lia.
Qed.

Lemma entry_slot_spec s hs V addrs j : in_tx s hs V ∅ -> k_sb s = sb -> fs_ok V sb ds -> file_ok V sb ds addrs -> byte_at addrs 12 <> 0 ->
  0 <= j < 256 -> (0 < nfree V sb)%nat -> (length hs < 26)%nat -> 30 <= lg_size (k_lg s) ->
  exists a s' V' hs', entry_slot (byte_at addrs 12) j s = Ok a s' /\ quiet s s' /\ in_tx s' hs' V' ∅ /\
    mapped sb ds V addrs hs V' addrs hs' (13 + j) a /\ (length hs' <= length hs + 3)%nat /\ (nfree V sb <= nfree V' sb + 1)%nat.
Proof.
  intros Htx Hsb Hfs Hf Hi Hj Hnf Hl Hsz. set (ind := byte_at addrs 12) in *.
  destruct (bread_q i d st s hs V ∅ ind Htx (lookup_empty _)) as (bp & s1 & Hs1 & Hq1 & Hdat & Htx1); [rewrite map_size_empty; change bhead with 30%nat; lia|exact (loc_blockno V sb ds addrs 12 Hfs Hf ltac:(done) Hi)|].
  rewrite insert_empty in Htx1. unfold entry_slot. rewrite (bind_Ok _ _ _ _ _ Hs1), bind_gets, Hdat.
  assert (loc V addrs (13 + j) = peek 4 (V ind) (4 * j)) as Eloc.
  { unfold loc. fold ind. rewrite (proj2 (Z.ltb_ge _ _)), (proj2 (Z.eqb_neq _ _) Hi) by lia. do 2 f_equal. lia. }
  assert (forall bb : nat, delete ind ({[ind := bb]} : gmap Z nat) = ∅) as Edel by (intros; apply delete_singleton_eq).
  destruct (Z.eqb_spec (peek 4 (V ind) (4 * j)) 0) as [E0|E0].
  - destruct (entry_alloc s1 hs V addrs bp j Htx1) as (nb & s2 & hs' & Hs2 & Hq2 & Hnb & Hu & Hlen & Hin & Hhs & Htx2); try done;
      [by rewrite (q_sb _ _ _ Hq1)|by rewrite (quiet_lg_size _ _ _ Hq1)|].
    rewrite (bind_Ok _ _ _ _ _ Hs2). fold ind in Htx2, Hin.
    destruct (brelse_q i d st s2 _ _ _ ind bp Htx2 (lookup_singleton_eq _ _)) as (s3 & Hs3 & Hq3 & Htx3); [by left|].
    rewrite (bind_Ok _ _ _ _ _ Hs3). rewrite Edel in Htx3. exists nb, s3, (with_entry V addrs nb j), hs'.
    split_and!; [done|by transitivity s1; [|transitivity s2]|exact Htx3|..|done|].
    + apply (mapped_entry V addrs hs hs' nb j); try done. by rewrite Eloc.
    + rewrite (nfree_used V _ sb nb (entry_range _ _ Hfs Hnb) Hu (entry_used V addrs nb j Hfs Hf Hi Hj Hnb Hu)). lia.
  - rewrite bind_ret. destruct (brelse_q i d st s1 _ _ _ ind bp Htx1 (lookup_singleton_eq _ _)) as (s3 & Hs3 & Hq3 & Htx3).
    { rewrite (q_dk _ _ _ Hq1). by apply (tx_clean i d st s hs V ∅). }
    rewrite (bind_Ok _ _ _ _ _ Hs3). rewrite Edel in Htx3. exists (peek 4 (V ind) (4 * j)), s3, V, hs.
    split_and!; [done|by transitivity s1|done| |lia|lia]. rewrite <- Eloc. apply mapped_refl; [done|done|by rewrite Eloc].
Qed.

(** The indirect block, and then one of its entries. *)
Lemma mapped_trans V addrs hs V1 addrs1 hs1 ind V2 addrs2 hs2 k a :
  mapped sb ds V addrs hs V1 addrs1 hs1 12 ind -> mapped sb ds V1 addrs1 hs1 V2 addrs2 hs2 k a -> 13 <= k < nslots ->
  (nfree V sb <= nfree V2 sb + 2)%nat -> (length hs2 <= length hs + 5)%nat -> 0 < ds -> mapped sb ds V addrs hs V2 addrs2 hs2 k a.
Proof.
  intros [A1 A2 A3 A4 A5 A6 A7 A8 A9 A10 A11 A12 A13 A14 A15] [B1 B2 B3 B4 B5 B6 B7 B8 B9 B10 B11 B12 B13 B14 B15] Hk Hnf Hl Hds.
  assert (ds <= a < sb_size sb) as Ha by (rewrite <- B3 in *; apply (fi_data _ _ _ _ B2); [lia|done]).
  assert (loc V1 addrs1 k = loc V addrs k) as Ek by (apply A6; lia). split; try done.
  - intros j Hj Hor Hnz. destruct Hor as [->| ->]; [|rewrite B5, Ek by (auto || congruence); done].
    assert (loc V1 addrs1 12 = loc V addrs 12) as E by (apply A5; auto). rewrite B5; auto. congruence.
  - intros j Hj Hjk Hj12. rewrite B6 by done. apply A6; done.
  - intros b Hb Hub Hbi. rewrite B7; [by apply A7|done|apply A10; (done || lia)|]. rewrite A3. intros E.
    destruct (decide (loc V addrs 12 = 0)) as [E0|E0]; [rewrite E, <- A3, A11 in Hub; [done|unfold nslots; lia|done|by rewrite A3]|].
    apply Hbi. rewrite E, <- A3. apply A5; auto. unfold nslots. lia.
  - intros H0 Hk12. apply B8; congruence.
  - intros b Hb Hnm. rewrite B9 by done. by apply A9.
  - intros b Hb Hub. apply B10; [done|]. by apply A10.
  - intros j Hj H0 Hnz. destruct (decide (loc V1 addrs1 j = 0)) as [E0|E0].
    + destruct (fi_data _ _ _ _ B2 j Hj Hnz) as [Hr _]. destruct (used V sb (loc V2 addrs2 j)) eqn:E; [|done]. apply A10 in E; [|lia].
      rewrite B11 in E; done.
    + assert (loc V2 addrs2 j = loc V1 addrs1 j) as ->; [|by apply A11].
      destruct (decide (j = 12 \/ j = k)) as [Hor|Hor]; [by apply B5|apply B6; [done|tauto..]].
  - intros h Hh. destruct (B14 h Hh) as [Hh1|]; [by apply A14|by right].
  - intros b Hb Hub. destruct (B15 b Hb Hub) as [Hu1|]; [|by right]. destruct (A15 b Hb Hu1) as [|(H0 & j & Hj & E)]; [by left|right].
    split; [done|]. exists j. split; [done|]. rewrite <- E. destruct (decide (j = 12 \/ j = k)) as [Hor|Hor]; [apply B5; (done || congruence)|apply B6; [done|tauto..]].
Qed.

Lemma quiet_seti_trans ip x s s1 s2 : quiet (seti ip x s) s1 -> quiet s1 s2 -> quiet (seti ip x s) s2.
Proof. intros H1 H2. by transitivity s1. Qed.

Lemma bmap_spec s hs V ip bn : in_tx s hs V ∅ -> k_sb s = sb -> fs_ok V sb ds -> file_ok V sb ds (i_addrs (geti s ip)) -> i_dev (geti s ip) = d ->
  0 <= bn < MAXFILE -> (2 <= nfree V sb)%nat -> (length hs < 24)%nat -> 30 <= lg_size (k_lg s) ->
  exists a s' V' addrs' hs', bmap ip bn s = Ok a s' /\ quiet (seti ip (set_i_addrs addrs' (geti s ip)) s) s' /\ in_tx s' hs' V' ∅ /\
    mapped sb ds V (i_addrs (geti s ip)) hs V' addrs' hs' (slot_of bn) a.
Proof.
  intros Htx Hsb Hfs Hf Hdev Hbn Hnf Hl Hsz. unfold bmap, slot_of. rewrite bind_gets, Hdev. change NDIRECT with 12. change NINDIRECT with 256.
  change MAXFILE with 268 in Hbn. destruct (Z.ltb_spec bn 12) as [Hlt|Hge].
  - destruct (direct_slot_spec s hs V ip bn Htx Hsb Hfs Hf) as (a & s' & V' & addrs' & hs' & Hs & Hq & Htx' & Hm & _); [lia|lia|lia|done|].
    exists a, s', V', addrs', hs'. done.
  - rewrite (proj2 (Z.ltb_lt (bn - 12) 256)) by lia.
    destruct (direct_slot_spec s hs V ip 12 Htx Hsb Hfs Hf) as (ind & s1 & V1 & addrs1 & hs1 & Hs1 & Hq1 & Htx1 & Hm1 & Hl1 & Hn1); [lia|lia|lia|done|].
    rewrite <- bind_assoc. unfold direct_slot in Hs1. rewrite (bind_Ok _ _ _ _ _ Hs1).
    assert (i_addrs (geti s1 ip) = addrs1) as Ea by (rewrite (q_ic _ _ _ Hq1), geti_seti, decide_True by done; by destruct (geti s ip)).
    assert (byte_at addrs1 12 = ind) as Ei by (apply (mp_slot _ _ _ _ _ _ _ _ _ _ Hm1)).
    destruct (entry_slot_spec s1 hs1 V1 addrs1 (bn - 12) Htx1) as (a & s2 & V2 & hs2 & Hs2 & Hq2 & Htx2 & Hm2 & Hl2 & Hn2).
    + by rewrite (q_sb _ _ _ Hq1).
    + apply Hm1.
    + apply Hm1.
    + rewrite Ei. apply Hm1.
    + lia.
    + lia.
    + lia.
    + by rewrite (quiet_lg_size _ _ _ Hq1).
    + rewrite Ei in Hs2. exists a, s2, V2, addrs1, hs2. split_and!; [exact Hs2|by eapply quiet_seti_trans|done|].
      replace (bn + 1) with (13 + (bn - 12)) by lia. eapply mapped_trans; [exact Hm1|exact Hm2|unfold nslots; lia|lia|lia|apply Hfs].
Qed.
End Bmap.
