(* ===== verification/FsFile.v ===== *)
(** * Reading and writing files

    The content of a file as a function from offsets to bytes.  writei of
    kernel/fs.c changes exactly the bytes it is given, whether their blocks
    exist or must be allocated, and readi returns the bytes of the file. *)

From S2P Require Import Prelude Layout Spinlock Kalloc State Vm Proc SleepLock Bio Log Fs ProcSpec SleepSpec Ring CacheSpec LogSpec LogOps FsTx FsMap.

(** ** Content *)

(** The byte at offset [off]; blocks that are not there read as zeros. *)
Definition fbyte (V : Z -> list Z) (addrs : list Z) (off : Z) : Z :=
  let a := loc V addrs (slot_of (off / BSIZE)) in
  if a =? 0 then 0 else byte_at (V a) (off mod BSIZE).

Definition maxbytes : Z := MAXFILE * BSIZE.

Lemma slot_range off : 0 <= off < maxbytes -> 0 <= slot_of (off / BSIZE) < nslots /\ slot_of (off / BSIZE) <> 12.
Proof.
  change maxbytes with 274432. change BSIZE with 1024. unfold slot_of, nslots. intros H. destruct (Z.ltb_spec (off / 1024) 12); zlia.
Qed.

Lemma slot_inj b c : slot_of b = slot_of c -> b = c.
Proof. unfold slot_of. destruct (Z.ltb_spec b 12), (Z.ltb_spec c 12); lia. Qed.

Lemma byte_at_zeros off : byte_at zeros off = 0.
Proof. unfold byte_at, zeros. destruct (replicate (Z.to_nat BSIZE) 0 !! Z.to_nat off) eqn:E; [|done]. by apply lookup_replicate in E as [-> _]. Qed.

(** Finding or allocating a block changes no content. *)
Lemma mapped_content sb ds V addrs hs V' addrs' hs' k a off : file_ok V sb ds addrs -> mapped sb ds V addrs hs V' addrs' hs' k a ->
  0 <= k < nslots -> k <> 12 -> 0 <= off < maxbytes -> fbyte V' addrs' off = fbyte V addrs off.
Proof.
  intros Hf Hm Hk Hk12 Hoff. destruct (slot_range off Hoff) as [Hr H12]. unfold fbyte. set (j := slot_of (off / BSIZE)) in *.
  assert (loc V addrs j <> 0 -> V' (loc V addrs j) = V (loc V addrs j)) as HV.
  { intros Hnz. destruct (fi_data _ _ _ _ Hf j Hr Hnz) as [K1 K2]. apply (mp_data _ _ _ _ _ _ _ _ _ _ Hm); [done|done|].
    intros E. apply H12. by apply (fi_inj _ _ _ _ Hf). }
  destruct (decide (j = k)) as [->|Hne].
  - destruct (Z.eqb_spec (loc V addrs k) 0) as [E|E].
    + rewrite (mp_slot _ _ _ _ _ _ _ _ _ _ Hm), (mp_new _ _ _ _ _ _ _ _ _ _ Hm) by done. rewrite byte_at_zeros. by case_match.
    + rewrite (mp_keep _ _ _ _ _ _ _ _ _ _ Hm) by auto. by rewrite (proj2 (Z.eqb_neq _ _) E), HV.
  - rewrite (mp_others _ _ _ _ _ _ _ _ _ _ Hm) by done. destruct (Z.eqb_spec (loc V addrs j) 0) as [E|E]; [done|]. by rewrite HV.
Qed.

(** ** A block of the file is overwritten *)

Lemma byte_at_splice l off new j : 0 <= off -> off + Z.of_nat (length new) <= Z.of_nat (length l) -> 0 <= j ->
  byte_at (splice l off new) j = if decide (off <= j < off + Z.of_nat (length new)) then byte_at new (j - off) else byte_at l j.
Proof.
  intros H0 H1 Hj. unfold byte_at, splice. destruct (Z.ltb_spec j off) as [Hlt|Hge].
  - rewrite decide_False by lia. rewrite lookup_app_l by (rewrite length_take; lia). by rewrite lookup_take_lt by lia.
  - rewrite lookup_app_r by (rewrite length_take; lia). rewrite length_take, Nat.min_l by lia. case_decide.
    + rewrite lookup_app_l by lia. do 2 f_equal. lia.
    + rewrite lookup_app_r by lia. rewrite lookup_drop. do 2 f_equal. lia.
Qed.

Lemma length_splice l off new : 0 <= off -> off + Z.of_nat (length new) <= Z.of_nat (length l) -> length (splice l off new) = length l.
Proof. intros H0 H1. unfold splice. rewrite !length_app, length_take, length_drop. lia. Qed.

(** The data block in slot [k] gets the contents [v]. *)
Lemma loc_upd V sb ds addrs k v j : file_ok V sb ds addrs -> 0 <= k < nslots -> k <> 12 -> loc V addrs k <> 0 ->
  loc (upd V (loc V addrs k) v) addrs j = loc V addrs j.
Proof.
  intros Hf Hk Hk12 Hnz. remember (loc V addrs k) as a eqn:Ea. unfold loc. destruct (j <? 13); [done|].
  destruct (Z.eqb_spec (byte_at addrs 12) 0) as [|E]; [done|]. rewrite upd_other; [done|]. intros E2. apply Hk12.
  apply (fi_inj _ _ _ _ Hf); [done|unfold nslots; lia|by rewrite <- Ea|]. by rewrite <- Ea, E2.
Qed.

Lemma used_upd_data V sb ds b v c : fs_ok V sb ds -> ds <= b -> 0 <= c < sb_size sb -> used (upd V b v) sb c = used V sb c.
Proof. intros Hfs Hb Hc. unfold used. rewrite upd_other; [done|]. pose proof (fs_map _ _ _ Hfs c Hc). lia. Qed.

(** ** What a write changes *)

(** Between two views of the disk a file was written, [c] blocks of it. *)
Record wrote (sb : superblock) (ds : Z) (V : Z -> list Z) (addrs hs : list Z) (V' : Z -> list Z) (addrs' hs' : list Z) (c : nat) : Prop := {
  wr_fs : fs_ok V' sb ds;
  wr_file : file_ok V' sb ds addrs';
  wr_own : forall k, 0 <= k < nslots -> loc V addrs k <> 0 -> loc V' addrs' k = loc V addrs k;
  wr_fresh : forall k, 0 <= k < nslots -> loc V addrs k = 0 -> loc V' addrs' k <> 0 -> used V sb (loc V' addrs' k) = false;
  wr_other : forall b, ds <= b < sb_size sb -> used V sb b = true -> (forall k, 0 <= k < nslots -> loc V addrs k <> b) -> V' b = V b;
  wr_meta : forall b, 0 <= b < ds -> (forall c, 0 <= c < sb_size sb -> b <> BBLOCK c sb) -> V' b = V b;
  wr_used : forall b, 0 <= b < sb_size sb -> used V sb b = true -> used V' sb b = true;
  wr_free : (nfree V sb <= nfree V' sb + 2 * c)%nat;
  wr_log : (length hs' <= length hs + 6 * c)%nat;
  wr_hs : forall h, h ∈ hs' -> h ∈ hs \/ file_block sb ds h;
  wr_map : forall b, 0 <= b < sb_size sb -> used V' sb b = true -> used V sb b = true \/ gained V' addrs' b }.

Lemma wrote_refl sb ds V addrs hs : fs_ok V sb ds -> file_ok V sb ds addrs -> wrote sb ds V addrs hs V addrs hs 0.
Proof. intros H1 H2. split; try done; try lia; by left. Qed.

Lemma wrote_trans sb ds V addrs hs V1 addrs1 hs1 c1 V2 addrs2 hs2 c2 :
  wrote sb ds V addrs hs V1 addrs1 hs1 c1 -> wrote sb ds V1 addrs1 hs1 V2 addrs2 hs2 c2 -> 0 < ds ->
  wrote sb ds V addrs hs V2 addrs2 hs2 (c1 + c2).
Proof.
  intros [A1 A2 A3 A4 A5 A6 A7 A8 A9 A10 A11] [B1 B2 B3 B4 B5 B6 B7 B8 B9 B10 B11] Hds. split; try done.
  - intros k Hk Hnz. assert (loc V1 addrs1 k = loc V addrs k) as E by auto. rewrite B3; [done|done|congruence].
  - intros k Hk H0 Hnz. destruct (decide (loc V1 addrs1 k = 0)) as [E0|E0].
    + destruct (fi_data _ _ _ _ B2 k Hk Hnz) as [Hr _]. destruct (used V sb (loc V2 addrs2 k)) eqn:E; [|done].
      apply A7 in E; [|lia]. rewrite B4 in E; done.
    + rewrite B3 by done. by apply A4.
  - intros b Hb Hub Hno. rewrite B5; [by apply A5|done|apply A7; (done || lia)|]. intros k Hk E.
    destruct (decide (loc V addrs k = 0)) as [E0|E0].
    + rewrite <- E, A4 in Hub; (done || lia).
    + apply (Hno k Hk). rewrite <- E. by rewrite A3.
  - intros b Hb Hnm. rewrite B6 by done. by apply A6.
  - intros b Hb Hub. apply B7; [done|]. by apply A7.
  - lia.
  - lia.
  - intros h Hh. destruct (B10 h Hh) as [Hh1|]; [by apply A10|by right].
  - intros b Hb Hub. destruct (B11 b Hb Hub) as [Hu1|]; [|by right]. destruct (A11 b Hb Hu1) as [|(H0 & j & Hj & E)]; [by left|right].
    split; [done|]. exists j. split; [done|]. rewrite <- E. apply B3; [done|congruence].
Qed.

Lemma fs_ok_upd V sb ds b v : fs_ok V sb ds -> ds <= b < sb_size sb -> length v = Z.to_nat BSIZE -> fs_ok (upd V b v) sb ds.
Proof.
  intros Hfs Hb Hv. pose proof Hfs as [H1 H2 H3 H4 H5]. split; try done.
  - intros c Hc. rewrite (used_upd_data V sb ds) by (done || lia). by apply H4.
  - intros c Hc. unfold upd. case_decide; [done|by apply H5].
Qed.

Lemma file_ok_upd V sb ds addrs k v : fs_ok V sb ds -> file_ok V sb ds addrs -> 0 <= k < nslots -> k <> 12 -> loc V addrs k <> 0 ->
  file_ok (upd V (loc V addrs k) v) sb ds addrs.
Proof.
  intros Hfs Hf Hk Hk12 Hnz. destruct (fi_data _ _ _ _ Hf k Hk Hnz) as [Hr _].
  assert (forall j, loc (upd V (loc V addrs k) v) addrs j = loc V addrs j) as Hloc by (intros j; by apply (loc_upd V sb ds)).
  destruct (fs_ds _ _ _ Hfs). pose proof Hf as [F1 F2 F3]. split; [done|..].
  - intros j Hj. rewrite Hloc. intros Hj0. destruct (F2 j Hj Hj0) as [K1 K2]. split; [done|]. rewrite (used_upd_data V sb ds); (done || lia).
  - intros j1 j2 Hj1 Hj2. rewrite !Hloc. by apply F3.
Qed.

Lemma nfree_same V V' sb : (forall c, 0 <= c < sb_size sb -> used V' sb c = used V sb c) -> nfree V' sb = nfree V sb.
Proof.
  intros H. unfold nfree. f_equal. assert (forall x, x ∈ seqZ 0 (sb_size sb) -> 0 <= x < sb_size sb) as Hin by (intros x Hx; apply elem_of_seqZ in Hx; lia).
  induction (seqZ 0 (sb_size sb)) as [|x l IH]; [done|]. rewrite !filter_cons, H by (apply Hin; by left).
  rewrite IH by (intros y Hy; apply Hin; by right). done.
Qed.

(** One block: found or allocated, and overwritten. *)
Lemma wrote_step sb ds V addrs hs V1 addrs1 hs1 k a v : fs_ok V sb ds -> file_ok V sb ds addrs -> mapped sb ds V addrs hs V1 addrs1 hs1 k a ->
  0 <= k < nslots -> k <> 12 -> length v = Z.to_nat BSIZE -> wrote sb ds V addrs hs (upd V1 a v) addrs1 (add_block a hs1) 1.
Proof.
  intros Hfs Hf Hm Hk Hk12 Hv. pose proof Hm as [M1 M2 M3 M4 M5 M6 M7 M8 M9 M10 M11 M12 M13 M14 M15]. destruct (fs_ds _ _ _ Hfs) as [Hd1 Hd2].
  assert (loc V1 addrs1 k <> 0) as Hnz by congruence. destruct (fi_data _ _ _ _ M2 k Hk Hnz) as [Hr _]. rewrite M3 in Hr.
  assert (forall j, loc (upd V1 a v) addrs1 j = loc V1 addrs1 j) as Hloc by (intros j; rewrite <- M3; by apply (loc_upd V1 sb ds)).
  assert (forall j, 0 <= j < nslots -> loc V addrs j <> 0 -> loc V1 addrs1 j = loc V addrs j) as Hown.
  { intros j Hj Hj0. destruct (decide (j = 12 \/ j = k)) as [Hor|Hor]; [by apply M5|apply M6; [done|tauto..]]. }
  split.
  - by apply fs_ok_upd.
  - rewrite <- M3. by apply file_ok_upd.
  - intros j Hj Hj0. rewrite Hloc. by apply Hown.
  - intros j Hj. rewrite Hloc. by apply M11.
  - intros b Hb Hub Hno. rewrite upd_other, M7; try done; [apply not_eq_sym, Hno; unfold nslots; lia|]. rewrite <- M3. intros E.
    destruct (decide (loc V addrs k = 0)) as [E0|E0]; [rewrite <- E, M11 in Hub; done|]. apply (Hno k Hk). rewrite <- E. symmetry. by apply Hown.
  - intros b Hb Hnm. rewrite upd_other by lia. by apply M9.
  - intros b Hb Hub. rewrite (used_upd_data V1 sb ds) by (done || lia). by apply M10.
  - rewrite (nfree_same V1 (upd V1 a v)); [lia|]. intros c Hc. apply (used_upd_data V1 sb ds); (done || lia).
  - pose proof (add_block_length a hs1). lia.
  - intros h Hh. apply add_block_inv in Hh as [Hh| ->]; [by apply M14|right; by left].
  - intros b Hb. rewrite (used_upd_data V1 sb ds) by (done || lia). intros Hub. destruct (M15 b Hb Hub) as [|(H0 & j & Hj & E)]; [by left|right].
    split; [done|]. exists j. by rewrite Hloc.
Qed.

(** The content after one block is overwritten from [off] on. *)
Lemma content_step sb ds V addrs hs V1 addrs1 hs1 a off new o : fs_ok V sb ds -> file_ok V sb ds addrs ->
  mapped sb ds V addrs hs V1 addrs1 hs1 (slot_of (off / BSIZE)) a ->
  0 <= off < maxbytes -> off mod BSIZE + Z.of_nat (length new) <= BSIZE -> 0 <= o < maxbytes ->
  fbyte (upd V1 a (splice (V1 a) (off mod BSIZE) new)) addrs1 o =
  if decide (off <= o < off + Z.of_nat (length new)) then byte_at new (o - off) else fbyte V addrs o.
Proof.
  intros Hfs Hf Hm Hoff Hnew Ho. destruct (slot_range off Hoff) as [Hk Hk12]. destruct (slot_range o Ho) as [Hj Hj12].
  pose proof Hm as [M1 M2 M3 M4 _ _ _ _ _ _ _ _ _ _]. destruct (fs_ds _ _ _ Hfs) as [Hd1 Hd2].
  rewrite <- (mapped_content sb ds V addrs hs V1 addrs1 hs1 (slot_of (off / BSIZE)) a o) by done.
  set (k := slot_of (off / BSIZE)) in *. assert (loc V1 addrs1 k <> 0) as Hnz by congruence.
  destruct (fi_data _ _ _ _ M2 k Hk Hnz) as [Hr _]. pose proof (fs_sized _ _ _ M1 a ltac:(lia)) as Hlen.
  unfold fbyte at 1. rewrite <- M3, (loc_upd V1 sb ds), M3 by done. unfold fbyte. set (j := slot_of (o / BSIZE)) in *.
  change BSIZE with 1024 in *. change (Z.to_nat 1024) with 1024%nat in Hlen.
  destruct (decide (j = k)) as [E|E].
  - rewrite E, M3, upd_same, (proj2 (Z.eqb_neq _ _) M4). apply slot_inj in E. rewrite byte_at_splice by zlia.
    assert (off / 1024 = o / 1024) as E' by done. case_decide as C1; case_decide as C2; [f_equal; zlia|exfalso; zlia|exfalso; zlia|done].
  - rewrite upd_other by (intros E2; apply E; symmetry; apply (fi_inj _ _ _ _ M2); [done|done|done|congruence]).
    rewrite decide_False; [done|]. intros C. apply E. unfold j, k. f_equal. zlia.
Qed.

(** ** The loops of writei and readi *)

Section Loops.
Context `{OT : Others} `{BD : BlockDev} `{DL : !DiskLaws}.
Context (i : nat) (d st : Z) (sb : superblock) (ds : Z).
Local Abbreviation in_tx := (in_tx i d st).
Local Abbreviation quiet := (quiet i).

Lemma myproc_q s hs V Hd : in_tx s hs V Hd -> exists s', myproc s = Ok (Some i) s' /\ quiet s s' /\ (forall b, getb s' b = getb s b) /\ in_tx s' hs V Hd.
Proof.
  intros Htx. pose proof Htx as [(R & Hc & HR) H2 H3 H4 H5]. destruct (ca_ready _ _ _ _ _ _ Hc) as (Hh & Hp & Hr).
  pose proof (curproc_eq i s Hh Hp) as E. unfold curproc, bind in E. destruct (myproc s) as [[j|] s1| |]; [|done..]. injection E as -> ->.
  eexists. split; [done|]. pose proof (calm_touched i s) as Hcalm. split_and!; [by apply calm_quiet|done|].
  split; try done. exists R. split; [|done]. apply (cache_same i d s); try done. apply Hcalm.
Qed.

(** The states before and after writing to the inode [ip]. *)
Definition wrote_inode (ip : nat) (s : kst) (addrs' : list Z) (s' : kst) : Prop := quiet (seti ip (set_i_addrs addrs' (geti s ip)) s) s'.

Lemma wrote_inode_addrs ip s addrs' s' : wrote_inode ip s addrs' s' -> i_addrs (geti s' ip) = addrs' /\ i_dev (geti s' ip) = i_dev (geti s ip) /\
  i_size (geti s' ip) = i_size (geti s ip) /\ i_inum (geti s' ip) = i_inum (geti s ip).
Proof. intros H. rewrite (q_ic _ _ _ H ip), geti_seti, decide_True by done. by destruct (geti s ip). Qed.

Lemma wrote_inode_trans ip s a1 s1 a2 s2 : wrote_inode ip s a1 s1 -> wrote_inode ip s1 a2 s2 -> wrote_inode ip s a2 s2.
Proof.
  intros H1 H2. unfold wrote_inode in *. pose proof (q_ic _ _ _ H1 ip) as E. rewrite geti_seti, decide_True in E by done.
  rewrite E in H2. replace (set_i_addrs a2 (set_i_addrs a1 (geti s ip))) with (set_i_addrs a2 (geti s ip)) in H2 by (by destruct (geti s ip)).
  transitivity (seti ip (set_i_addrs a2 (geti s ip)) s1); [|done]. rewrite <- (seti_seti ip _ (set_i_addrs a1 (geti s ip)) s). by apply quiet_seti.
Qed.

(** What the code needs of the inode and of the transaction to write a block. *)
Record ready (s : kst) (hs : list Z) (V : Z -> list Z) (ip : nat) : Prop := {
  rd_tx : in_tx s hs V ∅;
  rd_sb : k_sb s = sb;
  rd_fs : fs_ok V sb ds;
  rd_file : file_ok V sb ds (i_addrs (geti s ip));
  rd_dev : i_dev (geti s ip) = d;
  rd_log : 30 <= lg_size (k_lg s) }.

Lemma ready_after s hs V ip s' hs' V' addrs' c : ready s hs V ip -> wrote_inode ip s addrs' s' -> in_tx s' hs' V' ∅ ->
  wrote sb ds V (i_addrs (geti s ip)) hs V' addrs' hs' c -> ready s' hs' V' ip.
Proof.
  intros [R1 R2 R3 R4 R5 R6] Hq Htx Hw. destruct (wrote_inode_addrs _ _ _ _ Hq) as (E1 & E2 & _). split; [done|..].
  - by rewrite (q_sb _ _ _ Hq).
  - apply Hw.
  - rewrite E1. apply Hw.
  - by rewrite E2.
  - by rewrite (quiet_lg_size _ _ _ Hq).
Qed.

(** [src] holds the bytes [bs] for the process. *)
Definition src_holds (s : kst) (src : ksrc) (bs : list Z) : Prop :=
  match src with
  | SUser a => u64 a = a /\ forall m j len, m_mem m = m_mem (k_m s) -> m_kmem m = m_kmem (k_m s) -> hart_ok (m_hart m) -> 0 <= j -> 0 < len -> j + len <= Z.of_nat (length bs) ->
      copyin_obj (p_pagetable (getp s i)) (u64 (a + j)) len m = Ok (0, take (Z.to_nat len) (drop (Z.to_nat j) bs)) m
  | SObj bs' => bs' = bs
  end.

Lemma src_holds_quiet s s' src bs : quiet s s' -> src_holds s src bs -> src_holds s' src bs.
Proof. intros Hq. destruct src as [a|bs']; [|done]. cbn. rewrite (q_mem _ _ _ Hq), (q_kmem _ _ _ Hq), (q_as _ _ _ Hq). done. Qed.

Lemma src_holds_add s src bs m : 0 <= m -> src_holds s src bs -> src_holds s (ksrc_add src m) (drop (Z.to_nat m) bs).
Proof.
  intros Hm. destruct src as [a|bs']; cbn; [|by intros ->]. intros [_ H]. split; [unfold u64; by rewrite Z.mod_mod|]. intros m0 j len H0 Hk Hh Hj Hlen Hl. rewrite length_drop in Hl.
  replace (u64 (u64 (a + m) + j)) with (u64 (a + (m + j))) by (unfold u64; rewrite Zplus_mod_idemp_l; f_equal; lia).
  rewrite H by (done || lia). rewrite drop_drop. do 5 f_equal. lia.
Qed.

Lemma either_copyin_q s hs V Hd src bs m : in_tx s hs V Hd -> src_holds s src bs -> 0 < m <= Z.of_nat (length bs) ->
  exists s', either_copyin src m s = Ok (0, take (Z.to_nat m) bs) s' /\ quiet s s' /\ (forall b, getb s' b = getb s b) /\ in_tx s' hs V Hd.
Proof.
  intros Htx Hsrc Hm. destruct (myproc_q s hs V Hd Htx) as (s1 & Hs1 & Hq & Hb & Htx1). exists s1. split_and!; [|done..].
  unfold either_copyin. rewrite (bind_Ok _ _ _ _ _ Hs1). apply (src_holds_quiet _ _ _ _ Hq) in Hsrc. destruct src as [a|bs']; [|by rewrite Hsrc].
  destruct Hsrc as [Ha Hsrc]. assert (hart_ok (hart_of s1)) as Hh by (destruct Htx1 as [(R & Hc & _) _ _ _ _]; apply Hc).
  specialize (Hsrc (k_m s1) 0 m eq_refl eq_refl Hh). rewrite Z.add_0_r, Ha in Hsrc.
  unfold deref. rewrite bind_ret, bind_gets. rewrite (memop_Ok _ s1 _ _ (Hsrc ltac:(lia) ltac:(lia) ltac:(lia))), drop_0. by destruct s1.
Qed.

(** One turn of the loop of writei. *)
Lemma writei_step s hs V ip src bs off n tot fuel : ready s hs V ip -> (length hs < 24)%nat -> (2 <= nfree V sb)%nat ->
  0 <= tot < n -> src_holds s src bs -> Z.of_nat (length bs) = n - tot -> 0 <= off -> off + (n - tot) <= maxbytes ->
  let m := Z.min (n - tot) (BSIZE - off mod BSIZE) in
  exists s' V' addrs' hs', writei_loop (S fuel) ip src off n tot s = writei_loop fuel ip (ksrc_add src m) (off + m) n (tot + m) s' /\
    wrote_inode ip s addrs' s' /\ in_tx s' hs' V' ∅ /\ wrote sb ds V (i_addrs (geti s ip)) hs V' addrs' hs' 1 /\
    (forall o, off <= o < off + m -> loc V' addrs' (slot_of (o / BSIZE)) <> 0) /\
    forall o, 0 <= o < maxbytes -> fbyte V' addrs' o = if decide (off <= o < off + m) then byte_at bs (o - off) else fbyte V (i_addrs (geti s ip)) o.
Proof.
  intros [R1 R2 R3 R4 R5 R6] Hl Hnf Htot Hsrc Hbs Hoff Hmax m. change maxbytes with 274432 in Hmax.
  assert (0 < m <= BSIZE - off mod BSIZE /\ m <= n - tot) as Hm by (unfold m; change BSIZE with 1024; zlia).
  destruct (bmap_spec i d st sb ds s hs V ip (off / BSIZE) R1 R2 R3 R4 R5) as (a & s1 & V1 & addrs1 & hs1 & Hs1 & Hq1 & Htx1 & Hmp);
    [change MAXFILE with 268; change BSIZE with 1024; zlia|done|done|done|].
  destruct (slot_range off) as [Hk Hk12]; [change maxbytes with 274432; lia|].
  pose proof (mp_log _ _ _ _ _ _ _ _ _ _ Hmp) as Hl1. pose proof (mp_fs _ _ _ _ _ _ _ _ _ _ Hmp) as Hfs1.
  assert (ds <= a < sb_size sb) as Ha.
  { rewrite <- (mp_slot _ _ _ _ _ _ _ _ _ _ Hmp). apply (fi_data _ _ _ _ (mp_file _ _ _ _ _ _ _ _ _ _ Hmp)); [done|].
    rewrite (mp_slot _ _ _ _ _ _ _ _ _ _ Hmp). apply Hmp. }
  destruct (fs_ds _ _ _ R3) as [Hd1 Hd2]. pose proof (sbo_size _ (fs_sb _ _ _ R3)) as Hss.
  pose proof (fs_sized _ _ _ Hfs1 a ltac:(lia)) as Hlen.
  cbn [writei_loop]. rewrite (proj2 (Z.ltb_lt tot n)) by lia. cbn [negb]. rewrite (bind_Ok _ _ _ _ _ Hs1), bind_gets.
  assert (i_dev (geti s1 ip) = d) as Ed by (rewrite (q_ic _ _ _ Hq1), geti_seti, decide_True by done; by destruct (geti s ip)).
  rewrite Ed. destruct (bread_q i d st s1 hs1 V1 ∅ a Htx1 (lookup_empty _)) as (bp & s2 & Hs2 & Hq2 & Hdat & Htx2);
    [rewrite map_size_empty; change bhead with 30%nat; lia|unfold blockno_ok; lia|]. rewrite (bind_Ok _ _ _ _ _ Hs2). fold m.
  assert (src_holds s2 src bs) as Hsrc2 by (apply (src_holds_quiet s1 s2 _ _ Hq2), (src_holds_quiet _ s1 _ _ Hq1); exact Hsrc).
  destruct (either_copyin_q s2 hs1 V1 _ src bs m Htx2 Hsrc2) as (s3 & Hc & Hq3 & Hb3 & Htx3); [lia|].
  rewrite (bind_Ok _ _ _ _ _ Hc). cbn [fst snd]. set (new := take (Z.to_nat m) bs).
  assert (Z.of_nat (length new) = m) as Hnew by (unfold new; rewrite length_take; lia).
  set (v := splice (V1 a) (off mod BSIZE) new).
  assert (length v = Z.to_nat BSIZE) as Hv.
  { unfold v. rewrite length_splice; [done|change BSIZE with 1024; zlia|]. rewrite Hlen. change (Z.to_nat BSIZE) with 1024%nat. change BSIZE with 1024 in *. zlia. }
  destruct (put_release_q i d st s3 hs1 V1 _ a bp v Htx3 (lookup_insert_eq _ _ _)) as (s4 & Hs4 & Hq4 & Htx4);
    [lia|split; [lia|by rewrite (quiet_lg_size _ _ _ Hq3), (quiet_lg_size _ _ _ Hq2), (quiet_lg_size _ _ _ Hq1)]|].
  exists s4, (upd V1 a v), addrs1, (add_block a hs1). rewrite delete_insert_id in Htx4 by apply lookup_empty. split_and!.
  - change (0 =? -1) with false.
    assert (updb bp (fun b => set_b_data (splice (b_data b) (off mod BSIZE) new) b) s3 = updb bp (set_b_data v) s3) as E.
    { unfold updb, modify. rewrite Hb3, Hdat. done. }
    unfold bind in Hs4 |- *. rewrite E. destruct (updb bp (set_b_data v) s3) as [[] s5| |]; [|done..]. cbv iota beta.
    destruct (log_write bp s5) as [[] s6| |]; [|done..]. by rewrite Hs4.
  - unfold wrote_inode. transitivity s1; [done|]. transitivity s2; [done|]. by transitivity s3.
  - done.
  - by eapply wrote_step.
  - intros o Ho. assert (o / BSIZE = off / BSIZE) as -> by (change BSIZE with 1024 in *; zlia). rewrite <- (mp_slot _ _ _ _ _ _ _ _ _ _ Hmp).
    rewrite (loc_upd V1 sb ds), (mp_slot _ _ _ _ _ _ _ _ _ _ Hmp); try done; try apply Hmp. rewrite (mp_slot _ _ _ _ _ _ _ _ _ _ Hmp). apply Hmp.
  - intros o Ho. unfold v. rewrite (content_step sb ds V (i_addrs (geti s ip)) hs V1 addrs1 hs1); try done; [|change maxbytes with 274432; lia|lia].
    rewrite Hnew. case_decide; [|done]. unfold byte_at, new. rewrite lookup_take_lt by lia. done.
Qed.

(** The loop of writei over [c] blocks at most. *)
Lemma writei_loop_spec c : forall s hs V ip src bs off n tot fuel, ready s hs V ip -> src_holds s src bs ->
  (length hs + 6 * c <= 29)%nat -> (2 * c <= nfree V sb)%nat -> (c < fuel)%nat ->
  0 <= tot <= n -> Z.of_nat (length bs) = n - tot -> 0 <= off -> off + (n - tot) <= maxbytes -> tot = n \/ off mod BSIZE + (n - tot) <= Z.of_nat c * BSIZE ->
  exists s' V' addrs' hs' c', writei_loop fuel ip src off n tot s = Ok (off + (n - tot)) s' /\
    wrote_inode ip s addrs' s' /\ in_tx s' hs' V' ∅ /\ (c' <= c)%nat /\ wrote sb ds V (i_addrs (geti s ip)) hs V' addrs' hs' c' /\
    (forall o, off <= o < off + (n - tot) -> loc V' addrs' (slot_of (o / BSIZE)) <> 0) /\
    forall o, 0 <= o < maxbytes ->
      fbyte V' addrs' o = if decide (off <= o < off + (n - tot)) then byte_at bs (o - off) else fbyte V (i_addrs (geti s ip)) o.
Proof.
  induction c as [|c IH]; intros s hs V ip src bs off n tot fuel Hrd Hsrc Hl Hnf Hfu Htot Hbs Hoff Hmax Hc; (destruct fuel as [|fuel]; [lia|]).
  all: destruct (decide (tot = n)) as [->|Hne].
  1, 3: exists s, V, (i_addrs (geti s ip)), hs, 0%nat; destruct Hrd as [R1 R2 R3 R4 R5 R6]; split_and!;
    [cbn [writei_loop]; rewrite Z.ltb_irrefl; cbn; f_equal; lia
    |unfold wrote_inode; replace (set_i_addrs (i_addrs (geti s ip)) (geti s ip)) with (geti s ip) by (by destruct (geti s ip)); apply (quiet_seti_id i)
    |done|lia|by apply wrote_refl|lia|intros o Ho; rewrite decide_False by lia; done].
  - exfalso. destruct Hc as [|Hc]; [done|]. change BSIZE with 1024 in Hc. zlia.
  - destruct (writei_step s hs V ip src bs off n tot fuel Hrd) as (s1 & V1 & addrs1 & hs1 & E & Hw1 & Htx1 & Hwr1 & Hsl1 & Hc1); [lia|lia|lia|done..|].
    set (m := Z.min (n - tot) (BSIZE - off mod BSIZE)) in *.
    assert (0 < m <= BSIZE - off mod BSIZE /\ m <= n - tot) as Hm by (unfold m; change BSIZE with 1024; zlia).
    destruct (wrote_inode_addrs _ _ _ _ Hw1) as (Ea & _).
    destruct (IH s1 hs1 V1 ip (ksrc_add src m) (drop (Z.to_nat m) bs) (off + m) n (tot + m) fuel) as (s2 & V2 & addrs2 & hs2 & c2 & E2 & Hw2 & Htx2 & Hc2 & Hwr2 & Hsl2 & Hcon2).
    + by eapply ready_after.
    + apply src_holds_add; [lia|]. exact (src_holds_quiet _ _ _ _ Hw1 Hsrc).
    + pose proof (wr_log _ _ _ _ _ _ _ _ _ Hwr1). lia.
    + pose proof (wr_free _ _ _ _ _ _ _ _ _ Hwr1). lia.
    + lia.
    + lia.
    + rewrite length_drop. lia.
    + lia.
    + lia.
    + destruct Hc as [|Hc]; [done|]. assert (m = n - tot \/ m = BSIZE - off mod BSIZE) as [Hmin|Hmin] by (unfold m; lia); [left; lia|right].
      change BSIZE with 1024 in *. zlia.
    + rewrite Ea in Hwr2, Hcon2. exists s2, V2, addrs2, hs2, (1 + c2)%nat. split_and!.
      * rewrite E, E2. f_equal. lia.
      * by eapply wrote_inode_trans.
      * done.
      * lia.
      * eapply wrote_trans; [done|done|apply Hrd].
      * intros o Ho. destruct (decide (o < off + m)) as [Hlt|Hge]; [|apply Hsl2; lia].
        assert (loc V1 addrs1 (slot_of (o / BSIZE)) <> 0) as Hnz by (apply Hsl1; lia). rewrite (wr_own _ _ _ _ _ _ _ _ _ Hwr2); [done| |done].
        apply slot_range. lia.
      * intros o Ho. rewrite Hcon2, Hc1 by done. case_decide as C1; case_decide as C2; try case_decide as C3; try lia; try done.
        unfold byte_at. rewrite lookup_drop. do 2 f_equal. lia.
Qed.
End Loops.
