(* ===== verification/FsInode.v ===== *)
(** * Inodes on the disk, and writei and readi

    iupdate writes an inode where ilock reads it back unchanged; writei and
    readi of kernel/fs.c on whole requests. *)

From S2P Require Import Prelude Layout Spinlock Kalloc State Proc SleepLock Bio Log Fs ProcSpec SleepSpec Ring CacheSpec LogSpec LogOps FsTx FsMap FsFile.

(** ** The bytes of a struct dinode *)

Lemma peek_splice n data o l1 v l2 : 0 <= o <= Z.of_nat (length data) ->
  peek n (splice data o (l1 ++ le_bytes n v ++ l2)) (o + Z.of_nat (length l1)) = v mod 256 ^ Z.of_nat n.
Proof.
  intros Ho. unfold peek, splice. rewrite <- !app_assoc, app_assoc, drop_app_length' by (rewrite length_app, length_take; lia).
  rewrite take_app_length' by (by rewrite length_le_bytes). apply le_val_bytes.
Qed.

(** The field that follows [l1] in the bytes [B]. *)
Lemma peek_field n data o B l1 v k : 0 <= o <= Z.of_nat (length data) -> (exists l2, B = l1 ++ le_bytes n v ++ l2) -> Z.of_nat (length l1) = k ->
  peek n (splice data o B) (o + k) = v mod 256 ^ Z.of_nat n.
Proof. intros Ho [l2 ->] <-. by apply peek_splice. Qed.

Lemma s16_mod x : -32768 <= x < 32768 -> s16 (x mod 256 ^ Z.of_nat 2) = x.
Proof. intros H. unfold s16. change (256 ^ Z.of_nat 2) with 65536. destruct (Z.ltb_spec (x mod 65536 mod 65536) 32768); zlia. Qed.

Lemma concat_le_length (l : list Z) : length (concat (le_bytes 4 <$> l)) = (4 * length l)%nat.
Proof. induction l as [|x l IH]; [done|]. cbn [fmap list_fmap concat length]. rewrite length_app, length_le_bytes, IH. lia. Qed.

(** The fields of an inode are those of a struct dinode. *)
Record dinode_range (ip : inode) : Prop := {
  dr_type : -32768 <= i_type ip < 32768;
  dr_major : -32768 <= i_major ip < 32768;
  dr_minor : -32768 <= i_minor ip < 32768;
  dr_nlink : -32768 <= i_nlink ip < 32768;
  dr_size : 0 <= i_size ip < 2 ^ 32;
  dr_addrs : length (i_addrs ip) = 13%nat /\ Forall (fun a => 0 <= a < 2 ^ 32) (i_addrs ip) }.

Lemma length_dinode_bytes ip : length (i_addrs ip) = 13%nat -> length (dinode_bytes ip) = 64%nat.
Proof. intros H. unfold dinode_bytes. rewrite !length_app, !length_le_bytes, concat_le_length, H. done. Qed.

Lemma dinode_addrs_bytes data o ip : 0 <= o <= Z.of_nat (length data) -> length (i_addrs ip) = 13%nat -> Forall (fun a => 0 <= a < 2 ^ 32) (i_addrs ip) ->
  dinode_addrs (splice data o (dinode_bytes ip)) o = i_addrs ip.
Proof.
  intros Ho Hlen Hr. apply list_eq. intros k. unfold dinode_addrs. rewrite list_lookup_fmap. destruct (decide (k < 13)%nat) as [Hk|Hk].
  - rewrite lookup_seq_lt by lia. cbn [fmap option_fmap option_map]. destruct (lookup_lt_is_Some_2 (i_addrs ip) k) as [a Ha]; [lia|].
    rewrite Ha. f_equal. unfold dinode_bytes. rewrite <- (take_drop_middle _ _ _ Ha) at 1. rewrite fmap_app, concat_app. cbn [fmap list_fmap concat].
    rewrite !app_assoc. rewrite <- (app_assoc _ (le_bytes 4 a)).
    match goal with |- peek 4 (splice data o (?l1 ++ le_bytes 4 a ++ ?l2)) _ = a => replace (o + 12 + 4 * Z.of_nat (0 + k)) with (o + Z.of_nat (length l1)) end.
    + rewrite peek_splice by done. apply Z.mod_small. rewrite Forall_forall in Hr. apply Hr. by eapply list_elem_of_lookup_2.
    + rewrite !length_app, !length_le_bytes, concat_le_length, length_take. lia.
  - rewrite lookup_seq_ge, (lookup_ge_None_2 (i_addrs ip)) by lia. done.
Qed.

(** What iupdate writes, ilock reads. *)
Lemma dinode_roundtrip data o ip x : 0 <= o <= Z.of_nat (length data) -> dinode_range ip ->
  load_dinode (splice data o (dinode_bytes ip)) o x =
  Inode (i_dev x) (i_inum x) (i_ref x) (i_lock x) (i_valid x) (i_type ip) (i_major ip) (i_minor ip) (i_nlink ip) (i_size ip) (i_addrs ip).
Proof.
  intros Ho [H1 H2 H3 H4 H5 [H6 H7]]. unfold load_dinode. rewrite dinode_addrs_bytes by done. set (B := dinode_bytes ip).
  set (t := le_bytes 2 (i_type ip)). set (m := le_bytes 2 (i_major ip)). set (k := le_bytes 2 (i_minor ip)). set (l := le_bytes 2 (i_nlink ip)).
  rewrite (peek_field 4 data o B (t ++ m ++ k ++ l) (i_size ip) 8), (peek_field 2 data o B (t ++ m ++ k) (i_nlink ip) 6),
    (peek_field 2 data o B (t ++ m) (i_minor ip) 4), (peek_field 2 data o B t (i_major ip) 2);
    try done; try (unfold B, dinode_bytes; eexists; rewrite <- ?app_assoc; reflexivity).
  pose proof (peek_field 2 data o B [] (i_type ip) 0 Ho ltac:(unfold B, dinode_bytes; by eexists) eq_refl) as P. rewrite Z.add_0_r in P.
  rewrite P, !s16_mod by done. rewrite (Z.mod_small (i_size ip)) by done. done.
Qed.

(** ** iupdate *)

Section Inodes.
Context `{OT : Others} `{BD : BlockDev} `{DL : !DiskLaws}.
Context (i : nat) (d st : Z) (sb : superblock) (ds : Z).
Local Abbreviation in_tx := (in_tx i d st).
Local Abbreviation quiet := (quiet i).
Local Abbreviation ready := (ready i d st sb ds).

(** The place of inode [inum] on the disk. *)
Definition iblock (inum : Z) : Z := IBLOCK inum sb.
Definition ioffset (inum : Z) : Z := inum mod IPB * sizeof_dinode.

(** The inode blocks lie below the data and beside the free map. *)
Definition inode_home (inum : Z) : Prop :=
  0 <= iblock inum < ds /\ forall c, 0 <= c < sb_size sb -> iblock inum <> BBLOCK c sb.

Lemma ioffset_range inum : 0 <= ioffset inum <= 960.
Proof. unfold ioffset. change IPB with 16. change sizeof_dinode with 64. zlia. Qed.

Lemma iupdate_q s hs V ip : in_tx s hs V ∅ -> k_sb s = sb -> i_dev (geti s ip) = d -> inode_home (i_inum (geti s ip)) -> fs_ok V sb ds -> log_room s hs 1 ->
  exists s', iupdate ip s = Ok tt s' /\ quiet s s' /\ in_tx s' (add_block (iblock (i_inum (geti s ip))) hs)
    (upd V (iblock (i_inum (geti s ip))) (splice (V (iblock (i_inum (geti s ip)))) (ioffset (i_inum (geti s ip))) (dinode_bytes (geti s ip)))) ∅.
Proof.
  intros Htx Hsb Hdev [Hr _] Hfs Hroom. unfold iupdate. rewrite !bind_gets, Hsb, Hdev. set (ib := iblock (i_inum (geti s ip))) in *.
  pose proof (sbo_size _ (fs_sb _ _ _ Hfs)). destruct (fs_ds _ _ _ Hfs).
  destruct (bread_q i d st s hs V ∅ ib Htx (lookup_empty _)) as (bp & s1 & Hs1 & Hq1 & Hdat & Htx1); [rewrite map_size_empty; change bhead with 30%nat; destruct Hroom; lia|unfold blockno_ok; lia|].
  rewrite (bind_Ok _ _ _ _ _ Hs1). set (v := splice (V ib) (ioffset (i_inum (geti s ip))) (dinode_bytes (geti s ip))).
  destruct (put_release_q i d st s1 hs V _ ib bp v Htx1 (lookup_insert_eq _ _ _)) as (s2 & Hs2 & Hq2 & Htx2);
    [lia|destruct Hroom; split; [done|by rewrite (quiet_lg_size _ _ _ Hq1)]|].
  rewrite delete_insert_id in Htx2 by apply lookup_empty. exists s2. split_and!; [|by transitivity s1|done].
  rewrite <- Hs2. unfold bind, updb, modify. rewrite Hdat. done.
Qed.

(** ** writei *)

(** The number of blocks that the bytes from [off] to [off + n] touch. *)
Definition span (off n : Z) : nat := Z.to_nat ((off mod BSIZE + n + BSIZE - 1) / BSIZE).

(** An inode that grew to the offset [e]. *)
Definition grown (addrs : list Z) (e : Z) (ip : inode) : inode := set_i_size (Z.max (i_size ip) e) (set_i_addrs addrs ip).

Lemma iblock_free V v inum : fs_ok V sb ds -> inode_home inum -> length v = Z.to_nat BSIZE ->
  fs_ok (upd V (iblock inum) v) sb ds /\ forall addrs, file_ok V sb ds addrs ->
    file_ok (upd V (iblock inum) v) sb ds addrs /\ (forall k, loc (upd V (iblock inum) v) addrs k = loc V addrs k) /\
    forall o, 0 <= o < maxbytes -> fbyte (upd V (iblock inum) v) addrs o = fbyte V addrs o.
Proof.
  intros Hfs [Hr Hnm] Hv. destruct (fs_ds _ _ _ Hfs) as [Hd1 Hd2]. pose proof Hfs as [H1 H2 H3 H4 H5].
  assert (forall c, 0 <= c < sb_size sb -> used (upd V (iblock inum) v) sb c = used V sb c) as Hu.
  { intros c Hc. unfold used. rewrite upd_other; [done|]. by apply Hnm. }
  split; [split; try done|].
  - intros b Hb. rewrite Hu by lia. by apply H4.
  - intros b Hb. unfold upd. case_decide; [done|by apply H5].
  - intros addrs Hf. assert (forall k, loc (upd V (iblock inum) v) addrs k = loc V addrs k) as Hloc.
    { intros k. unfold loc. destruct (k <? 13); [done|]. destruct (Z.eqb_spec (byte_at addrs 12) 0) as [|E]; [done|].
      destruct (ind_data _ _ _ _ Hf E). rewrite upd_other; [done|lia]. }
    split_and!; [|done|].
    + pose proof Hf as [F1 F2 F3]. split; [done|..].
      * intros k Hk. rewrite Hloc. intros Hnz. destruct (F2 k Hk Hnz). split; [done|]. rewrite Hu; (done || lia).
      * intros k j Hk Hj. rewrite !Hloc. by apply F3.
    + intros o Ho. unfold fbyte. rewrite Hloc. destruct (slot_range o Ho) as [Hk _]. destruct (Z.eqb_spec (loc V addrs (slot_of (o / BSIZE))) 0) as [|E]; [done|].
      destruct (fi_data _ _ _ _ Hf _ Hk E). by rewrite upd_other by lia.
Qed.

Lemma span_bounds off n : 0 <= off -> 0 < n -> off mod BSIZE + n <= Z.of_nat (span off n) * BSIZE /\ (span off n < Z.to_nat (n / BSIZE + 3))%nat.
Proof. intros Ho Hn. unfold span. change BSIZE with 1024. zlia. Qed.

(** What writing [bs] at [off] makes of the content. *)
Definition overwritten (V : Z -> list Z) (addrs : list Z) (off : Z) (bs : list Z) (V' : Z -> list Z) (addrs' : list Z) : Prop :=
  (forall o, 0 <= o < maxbytes ->
     fbyte V' addrs' o = if decide (off <= o < off + Z.of_nat (length bs)) then byte_at bs (o - off) else fbyte V addrs o) /\
  (forall o, off <= o < off + Z.of_nat (length bs) -> loc V' addrs' (slot_of (o / BSIZE)) <> 0) /\
  (forall k, 0 <= k < nslots -> loc V addrs k <> 0 -> loc V' addrs' k = loc V addrs k).

(** The blocks that do not belong to the file, its inode, the free map or the
    log are unchanged; in the block of its inode the other inodes are, and in
    the free map what says of blocks that the file did not gain; and the
    blocks it gained were free. *)
Record others_kept (V : Z -> list Z) (addrs : list Z) (inum : Z) (V' : Z -> list Z) (addrs' : list Z) : Prop := {
  ok_data : forall b, ds <= b < sb_size sb -> used V sb b = true -> (forall k, 0 <= k < nslots -> loc V addrs k <> b) -> V' b = V b;
  ok_meta : forall b, 0 <= b < ds -> ~ in_log st b -> b <> iblock inum -> (forall c, 0 <= c < sb_size sb -> b <> BBLOCK c sb) -> V' b = V b;
  ok_inodes : forall o, 0 <= o < BSIZE -> ~ ioffset inum <= o < ioffset inum + sizeof_dinode -> byte_at (V' (iblock inum)) o = byte_at (V (iblock inum)) o;
  ok_map : forall b, 0 <= b < sb_size sb -> used V' sb b = true -> used V sb b = true \/ gained V' addrs' b;
  ok_used : forall b, 0 <= b < sb_size sb -> used V sb b = true -> used V' sb b = true;
  ok_fresh : forall k, 0 <= k < nslots -> loc V addrs k = 0 -> loc V' addrs' k <> 0 -> used V sb (loc V' addrs' k) = false }.

(** The inode on the disk. *)
Definition on_disk (V : Z -> list Z) (ip : inode) : Prop :=
  take 64 (drop (Z.to_nat (ioffset (i_inum ip))) (V (iblock (i_inum ip)))) = dinode_bytes ip.

(** The end of writei: the size grows and the inode goes to the disk. *)
Lemma grow_q s hs V ip e : ready s hs V ip -> inode_home (i_inum (geti s ip)) -> (length hs < 29)%nat ->
  let ino' := set_i_size (Z.max (i_size (geti s ip)) e) (geti s ip) in let ib := iblock (i_inum (geti s ip)) in
  exists s', (let! size := gets (fun s => i_size (geti s ip)) in (if size <? e then updi ip (set_i_size e) else skip);; iupdate ip) s = Ok tt s' /\
    quiet (seti ip ino' s) s' /\ in_tx s' (add_block ib hs) (upd V ib (splice (V ib) (ioffset (i_inum (geti s ip))) (dinode_bytes ino'))) ∅.
Proof.
  intros [R1 R2 R3 R4 R5 R6] Hhome Hl ino' ib. set (s1 := seti ip ino' s). assert (geti s1 ip = ino') as Eg by (unfold s1; by rewrite geti_seti, decide_True).
  assert (exists s0, (if i_size (geti s ip) <? e then updi ip (set_i_size e) else skip) s = Ok tt s0 /\ quiet s1 s0 /\ in_tx s0 hs V ∅) as (s0 & E0 & Hq0 & Htx0).
  { unfold s1, ino'. destruct (Z.ltb_spec (i_size (geti s ip)) e).
    - rewrite Z.max_r by lia. eexists. split_and!; [done|done|]. by apply in_tx_seti.
    - rewrite Z.max_l by lia. exists s. split_and!; [done| |done]. replace (set_i_size (i_size (geti s ip)) (geti s ip)) with (geti s ip) by (by destruct (geti s ip)). apply quiet_seti_id. }
  rewrite bind_gets, (bind_Ok _ _ _ _ _ E0). pose proof (q_ic _ _ _ Hq0 ip) as Ei. rewrite Eg in Ei.
  destruct (iupdate_q s0 hs V ip Htx0) as (s' & E' & Hq' & Htx'); rewrite ?Ei; try done.
  - by rewrite (q_sb _ _ _ Hq0).
  - split; [lia|]. by rewrite (quiet_lg_size _ _ _ Hq0).
  - exists s'. rewrite Ei in Htx'. split_and!; [done|by transitivity s0|done].
Qed.

Lemma take_splice l o new : 0 <= o -> o <= Z.of_nat (length l) -> take (length new) (drop (Z.to_nat o) (splice l o new)) = new.
Proof. intros H1 H2. unfold splice. rewrite drop_app_length' by (rewrite length_take; lia). by rewrite take_app_length. Qed.

(** Writing the inode to its block leaves the file as the loop wrote it. *)
Lemma written_iblock V addrs hs V1 addrs1 hs1 c off bs inum ino' : wrote sb ds V addrs hs V1 addrs1 hs1 c -> inode_home inum -> i_addrs ino' = addrs1 -> i_inum ino' = inum ->
  (forall o, off <= o < off + Z.of_nat (length bs) -> loc V1 addrs1 (slot_of (o / BSIZE)) <> 0) ->
  (forall o, 0 <= o < maxbytes -> fbyte V1 addrs1 o = if decide (off <= o < off + Z.of_nat (length bs)) then byte_at bs (o - off) else fbyte V addrs o) ->
  let V' := upd V1 (iblock inum) (splice (V1 (iblock inum)) (ioffset inum) (dinode_bytes ino')) in
  fs_ok V' sb ds /\ file_ok V' sb ds addrs1 /\ overwritten V addrs off bs V' addrs1 /\ others_kept V addrs inum V' addrs1 /\
  on_disk V' ino' /\ nfree V' sb = nfree V1 sb.
Proof.
  intros Hwr Hhome Ha Ein Hsl Hcon V'. pose proof (wr_fs _ _ _ _ _ _ _ _ _ Hwr) as Hfs. pose proof (wr_file _ _ _ _ _ _ _ _ _ Hwr) as Hf.
  assert (length (dinode_bytes ino') = 64%nat) as H64 by (apply length_dinode_bytes; rewrite Ha; apply Hf).
  pose proof (ioffset_range inum) as Hio. pose proof (fs_ds _ _ _ Hfs). assert (length (V1 (iblock inum)) = 1024%nat) as Hsz by (apply (fs_sized _ _ _ Hfs); destruct Hhome; lia).
  destruct (iblock_free V1 (splice (V1 (iblock inum)) (ioffset inum) (dinode_bytes ino')) inum Hfs Hhome) as [G1 G2]; [rewrite length_splice; [done|lia|lia]|].
  destruct (G2 addrs1 Hf) as (G3 & G4 & G5). fold V' in G1, G3, G4, G5.
  assert (forall b, 0 <= b < sb_size sb -> used V' sb b = used V1 sb b) as Hus by (intros b Hb; unfold used, V'; rewrite upd_other; [done|by apply Hhome]).
  split_and!; [done|done|split_and!|split| |].
  - intros o Ho. rewrite G5 by done. by apply Hcon.
  - intros o Ho. rewrite G4. by apply Hsl.
  - intros k Hk Hnz. rewrite G4. by apply (wr_own _ _ _ _ _ _ _ _ _ Hwr).
  - intros b Hb Hu Hno. unfold V'. rewrite upd_other by (destruct Hhome; lia). by apply (wr_other _ _ _ _ _ _ _ _ _ Hwr).
  - intros b Hb _ Hne Hnm. unfold V'. rewrite upd_other by congruence. by apply (wr_meta _ _ _ _ _ _ _ _ _ Hwr).
  - intros o Ho Hout. unfold V'. rewrite upd_same, byte_at_splice by lia. rewrite decide_False by (change sizeof_dinode with 64 in Hout; lia).
    f_equal. apply (wr_meta _ _ _ _ _ _ _ _ _ Hwr); apply Hhome.
  - intros b Hb. rewrite Hus by done. intros Hu. destruct (wr_map _ _ _ _ _ _ _ _ _ Hwr b Hb Hu) as [|(H0 & j & Hj & E)]; [by left|right].
    split; [done|]. exists j. by rewrite G4.
  - intros b Hb Hu. rewrite Hus by done. by apply (wr_used _ _ _ _ _ _ _ _ _ Hwr).
  - intros k Hk. rewrite G4. by apply (wr_fresh _ _ _ _ _ _ _ _ _ Hwr).
  - unfold on_disk, V'. rewrite Ein, upd_same. rewrite <- H64 at 1. apply take_splice; lia.
  - by apply nfree_same.
Qed.

(** The whole of writei, as one change of the inode in memory. *)
Lemma wrote_inode_grow ip s addrs1 s1 e s2 : wrote_inode i ip s addrs1 s1 -> quiet (seti ip (grown addrs1 e (geti s ip)) s1) s2 ->
  quiet (seti ip (grown addrs1 e (geti s ip)) s) s2.
Proof. intros H1 H2. apply (quiet_seti _ ip (grown addrs1 e (geti s ip))) in H1. rewrite seti_seti in H1. by transitivity (seti ip (grown addrs1 e (geti s ip)) s1). Qed.

Lemma writei_spec s hs V ip src bs off : ready s hs V ip -> let ino := geti s ip in inode_home (i_inum ino) -> src_holds i s src bs -> bs <> [] ->
  0 <= off <= i_size ino -> off + Z.of_nat (length bs) <= maxbytes ->
  (length hs + 6 * span off (Z.of_nat (length bs)) <= 28)%nat -> (2 * span off (Z.of_nat (length bs)) <= nfree V sb)%nat ->
  exists s' V' addrs' hs', writei ip src off (Z.of_nat (length bs)) s = Ok (Z.of_nat (length bs)) s' /\
    quiet (seti ip (grown addrs' (off + Z.of_nat (length bs)) ino) s) s' /\ in_tx s' hs' V' ∅ /\ fs_ok V' sb ds /\ file_ok V' sb ds addrs' /\
    overwritten V (i_addrs ino) off bs V' addrs' /\ others_kept V (i_addrs ino) (i_inum ino) V' addrs' /\
    on_disk V' (grown addrs' (off + Z.of_nat (length bs)) ino) /\
    (nfree V sb <= nfree V' sb + 2 * span off (Z.of_nat (length bs)))%nat /\
    (length hs' <= length hs + 6 * span off (Z.of_nat (length bs)) + 1)%nat /\
    iblock (i_inum ino) ∈ hs' /\ (forall h, h ∈ hs' -> h ∈ hs \/ file_block sb ds h \/ h = iblock (i_inum ino)).
Proof.
  intros Hrd ino Hhome Hsrc Hbs Hoff Hmax Hl Hnf. set (n := Z.of_nat (length bs)) in *. change maxbytes with 274432 in Hmax.
  assert (0 < n) as Hn by (unfold n; destruct bs; [done|cbn; lia]). destruct (span_bounds off n ltac:(lia) Hn) as [Hs1 Hs2].
  destruct (writei_loop_spec i d st sb ds (span off n) s hs V ip src bs off n 0 (Z.to_nat (n / BSIZE + 3)) Hrd Hsrc) as
    (s1 & V1 & addrs1 & hs1 & c1 & E1 & Hw1 & Htx1 & Hc1 & Hwr1 & Hsl1 & Hcon1); try done; try lia; [change maxbytes with 274432; lia|].
  fold ino in Hwr1, Hcon1. replace (off + (n - 0)) with (off + n) in * by lia.
  unfold writei. rewrite bind_gets. fold ino. assert (u32 (off + n) = off + n) as Eu by (unfold u32; apply Z.mod_small; lia). rewrite Eu.
  rewrite (proj2 (Z.ltb_ge (i_size ino) off)), (proj2 (Z.ltb_ge (off + n) off)) by lia. cbn [orb].
  change (MAXFILE * BSIZE) with 274432. rewrite (proj2 (Z.ltb_ge 274432 (off + n))) by lia. rewrite (bind_Ok _ _ _ _ _ E1).
  rewrite (proj2 (Z.ltb_lt 0 n)) by lia.
  pose proof (ready_after _ _ _ _ _ _ _ _ _ _ _ _ _ _ Hrd Hw1 Htx1 Hwr1) as Hrd1.
  assert (geti s1 ip = set_i_addrs addrs1 ino) as Ei by (rewrite (q_ic _ _ _ Hw1 ip), geti_seti, decide_True by done; done).
  assert (i_inum (set_i_addrs addrs1 ino) = i_inum ino) as En by (by destruct ino). assert (i_size (set_i_addrs addrs1 ino) = i_size ino) as Es by (by destruct ino).
  pose proof (wr_log _ _ _ _ _ _ _ _ _ Hwr1). destruct (grow_q s1 hs1 V1 ip (off + n) Hrd1) as (s2 & E2 & Hq2 & Htx2); [by rewrite Ei, En|lia|].
  rewrite (bind_Ok _ _ _ _ _ E2). rewrite Ei, En, Es in *. change (set_i_size (Z.max (i_size ino) (off + n)) (set_i_addrs addrs1 ino)) with (grown addrs1 (off + n) ino) in *.
  destruct (written_iblock V (i_addrs ino) hs V1 addrs1 hs1 c1 off bs (i_inum ino) (grown addrs1 (off + n) ino) Hwr1 Hhome) as (P1 & P2 & P3 & P4 & P5 & P6); [by destruct ino|by destruct ino|by fold n|by fold n|].
  exists s2. do 3 eexists. split_and!; [|by apply (wrote_inode_grow ip s addrs1 s1)|exact Htx2|exact P1|exact P2|exact P3|exact P4|exact P5|..].
  - unfold ret. f_equal. apply s32_small. lia.
  - rewrite P6. pose proof (wr_free _ _ _ _ _ _ _ _ _ Hwr1). lia.
  - pose proof (add_block_length (iblock (i_inum ino)) hs1). lia.
  - unfold add_block. case_decide; [done|]. apply elem_of_app. right. by apply list_elem_of_singleton.
  - intros h Hh. destruct (add_block_inv _ _ _ Hh) as [Hh'| ->]; [|by right; right]. destruct (wr_hs _ _ _ _ _ _ _ _ _ Hwr1 h Hh') as [|]; [by left|by right; left].
Qed.
End Inodes.
