(* ===== verification/FsRead.v ===== *)
(** * readi

    A file is read inside a transaction (directories, programs to run) and
    outside of one (fileread), into kernel memory and into the user's.  The
    classes below state what reading needs of the blocks and of the receiver;
    readi is correct for all their instances. *)

From S2P Require Import Prelude Layout Spinlock Kalloc State Vm Proc SleepLock Bio Log Fs ProcSpec SleepSpec Ring CacheSpec LogSpec LogOps FsTx FsMap FsFile FsInode.

(** The bytes of the file from [off] on. *)
Definition fbytes (V : Z -> list Z) (addrs : list Z) (off n : Z) : list Z := fbyte V addrs <$> seqZ off n.

Lemma fbytes_app V addrs off m n : 0 <= m -> 0 <= n -> fbytes V addrs off (m + n) = fbytes V addrs off m ++ fbytes V addrs (off + m) n.
Proof. intros Hm Hn. unfold fbytes. by rewrite seqZ_app, fmap_app by lia. Qed.

Lemma fbytes_block V addrs off m : 0 <= off -> 0 <= m -> off mod BSIZE + m <= BSIZE -> loc V addrs (slot_of (off / BSIZE)) <> 0 ->
  length (V (loc V addrs (slot_of (off / BSIZE)))) = Z.to_nat BSIZE ->
  take (Z.to_nat m) (drop (Z.to_nat (off mod BSIZE)) (V (loc V addrs (slot_of (off / BSIZE))))) = fbytes V addrs off m.
Proof.
  intros Hoff Hm0 Hm Hnz Hlen. change BSIZE with 1024 in *. change (Z.to_nat 1024) with 1024%nat in Hlen. apply list_eq. intros j.
  unfold fbytes. rewrite list_lookup_fmap. destruct (decide (j < Z.to_nat m)%nat) as [Hj|Hj].
  - rewrite lookup_take_lt, lookup_drop, lookup_seqZ_lt by lia. cbn. unfold fbyte. change BSIZE with 1024.
    assert ((off + Z.of_nat j) / 1024 = off / 1024) as -> by zlia. rewrite (proj2 (Z.eqb_neq _ _) Hnz). unfold byte_at.
    replace (Z.to_nat ((off + Z.of_nat j) mod 1024)) with (Z.to_nat (off mod 1024) + j)%nat by zlia.
    destruct (lookup_lt_is_Some_2 (V (loc V addrs (slot_of (off / 1024)))) (Z.to_nat (off mod 1024) + j)) as [x ->]; [zlia|done].
  - rewrite lookup_take_ge, lookup_seqZ_ge by lia. done.
Qed.

(** Blocks can be read one at a time: [P s V h] says that they have the
    contents [V], the process holding the buffer [h] if any, and [Q] relates
    the states before and after reading. *)
Class BlockReader `{Others} `{BlockDev} (d : Z) (P : kst -> (Z -> list Z) -> option (Z * nat) -> Prop) (Q : kst -> kst -> Prop) : Prop := {
  br_order : PreOrder Q;
  br_ic : forall s s' j, Q s s' -> geti s' j = geti s j;
  br_bread : forall s V n, P s V None -> blockno_ok n -> exists b s', bread d n s = Ok b s' /\ Q s s' /\ b_data (getb s' b) = V n /\ P s' V (Some (n, b));
  br_brelse : forall s V n b, P s V (Some (n, b)) -> exists s', brelse b s = Ok tt s' /\ Q s s' /\ P s' V None }.

(** A receiver of up to [n] bytes: [T s dst bs] says that it has received [bs]
    and [dst] is where the next byte goes. *)
Class Receiver `{Others} (P : kst -> (Z -> list Z) -> option (Z * nat) -> Prop) (Q Q' : kst -> kst -> Prop) (n : Z) (T : kst -> kdst -> list Z -> Prop) : Prop := {
  rv_order : PreOrder Q';
  rv_sub : forall s s', Q s s' -> Q' s s';
  rv_ic : forall s s' j, Q' s s' -> geti s' j = geti s j;
  rv_keep : forall s s' dst bs, Q s s' -> T s dst bs -> T s' dst bs;
  rv_copy : forall s V h dst bs new, P s V (Some h) -> T s dst bs -> new <> [] -> Z.of_nat (length bs + length new) <= n ->
    exists s', either_copyout dst new s = Ok 0 s' /\ Q' s s' /\ P s' V (Some h) /\ T s' (kdst_add dst (Z.of_nat (length new))) (bs ++ new) }.

#[global] Existing Instances br_order rv_order | 100.

Section Reading.
Context `{OT : Others} `{BD : BlockDev} (d : Z) (sb : superblock) (ds : Z) (P : kst -> (Z -> list Z) -> option (Z * nat) -> Prop) (Q : kst -> kst -> Prop) {BR : BlockReader d P Q}.

(** The block of a file that has it. *)
Lemma bmap_found s V ip bn : P s V None -> i_dev (geti s ip) = d -> fs_ok V sb ds -> file_ok V sb ds (i_addrs (geti s ip)) -> 0 <= bn < MAXFILE -> loc V (i_addrs (geti s ip)) (slot_of bn) <> 0 ->
  exists s', bmap ip bn s = Ok (loc V (i_addrs (geti s ip)) (slot_of bn)) s' /\ Q s s' /\ P s' V None.
Proof.
  intros HP Hdev Hfs Hf Hbn Hnz. unfold bmap. rewrite bind_gets, Hdev. change NDIRECT with 12. change NINDIRECT with 256. change MAXFILE with 268 in Hbn.
  set (addrs := i_addrs (geti s ip)) in *. unfold slot_of in *. destruct (Z.ltb_spec bn 12) as [Hlt|Hge]; unfold addr_at.
  - rewrite bind_gets. fold addrs. assert (loc V addrs bn = byte_at addrs bn) as E by (unfold loc; by rewrite (proj2 (Z.ltb_lt bn 13)) by lia). rewrite E in *.
    rewrite (proj2 (Z.eqb_neq _ _) Hnz). exists s. split_and!; [done|reflexivity|done].
  - rewrite (proj2 (Z.ltb_lt (bn - 12) 256)) by lia. rewrite bind_gets. fold addrs.
    assert (byte_at addrs 12 <> 0 /\ loc V addrs (bn + 1) = peek 4 (V (byte_at addrs 12)) (4 * (bn - 12))) as [Hi El].
    { unfold loc in *. rewrite (proj2 (Z.ltb_ge (bn + 1) 13)) in * by lia. destruct (Z.eqb_spec (byte_at addrs 12) 0); [done|]. split; [done|]. do 2 f_equal. lia. }
    rewrite El in *. rewrite (proj2 (Z.eqb_neq _ _) Hi), bind_ret.
    destruct (br_bread s V (byte_at addrs 12) HP (loc_blockno V sb ds addrs 12 Hfs Hf ltac:(done) Hi)) as (bp & s1 & Hs1 & Hq1 & Hdat & HP1).
    rewrite (bind_Ok _ _ _ _ _ Hs1), bind_gets, Hdat, (proj2 (Z.eqb_neq _ _) Hnz), bind_ret.
    destruct (br_brelse s1 V _ bp HP1) as (s2 & Hs2 & Hq2 & HP2). rewrite (bind_Ok _ _ _ _ _ Hs2).
    exists s2. split_and!; [done|by transitivity s1|done].
Qed.

(** ** The loop *)

Context (limit : Z) (Q' : kst -> kst -> Prop) (T : kst -> kdst -> list Z -> Prop) {RV : Receiver P Q Q' limit T}.

(** One turn. *)
Lemma readi_step s V ip dst got off n tot fuel : P s V None -> T s dst got -> i_dev (geti s ip) = d -> fs_ok V sb ds -> file_ok V sb ds (i_addrs (geti s ip)) ->
  0 <= tot < n -> 0 <= off -> off + (n - tot) <= maxbytes -> Z.of_nat (length got) + (n - tot) <= limit ->
  loc V (i_addrs (geti s ip)) (slot_of (off / BSIZE)) <> 0 ->
  let m := Z.min (n - tot) (BSIZE - off mod BSIZE) in let bs := fbytes V (i_addrs (geti s ip)) off m in
  exists s', readi_loop (S fuel) ip dst off n tot s = (let! rest := readi_loop fuel ip (kdst_add dst m) (off + m) n (tot + m) in ret (fst rest, bs ++ snd rest)) s' /\
    Q' s s' /\ P s' V None /\ T s' (kdst_add dst m) (got ++ bs).
Proof.
  intros HP HT Hdev Hfs Hf Htot Hoff Hmax Hlim Hnz m bs. change maxbytes with 274432 in Hmax. set (addrs := i_addrs (geti s ip)) in *.
  assert (0 < m <= BSIZE - off mod BSIZE /\ m <= n - tot) as Hm by (unfold m; change BSIZE with 1024; zlia).
  destruct (slot_range off) as [Hk _]; [change maxbytes with 274432; lia|]. destruct (fi_data _ _ _ _ Hf _ Hk Hnz) as [Hr _]. destruct (fs_ds _ _ _ Hfs) as [Hd1 _].
  pose proof (fs_sized _ _ _ Hfs (loc V addrs (slot_of (off / BSIZE))) ltac:(lia)) as Hlen.
  destruct (bmap_found s V ip (off / BSIZE) HP Hdev Hfs Hf) as (s1 & Hs1 & Hq1 & HP1); [change MAXFILE with 268; change BSIZE with 1024; zlia|done|].
  cbn [readi_loop]. rewrite (proj2 (Z.ltb_lt tot n)) by lia. cbn [negb]. rewrite (bind_Ok _ _ _ _ _ Hs1), bind_gets. fold addrs.
  rewrite (br_ic _ _ ip Hq1), Hdev. set (a := loc V addrs (slot_of (off / BSIZE))) in *.
  destruct (br_bread s1 V a HP1 (loc_blockno V sb ds addrs _ Hfs Hf Hk Hnz)) as (bp & s2 & Hs2 & Hq2 & Hdat & HP2). rewrite (bind_Ok _ _ _ _ _ Hs2), bind_gets, Hdat. fold m.
  assert (take (Z.to_nat m) (drop (Z.to_nat (off mod BSIZE)) (V a)) = bs) as -> by (unfold bs, a; apply fbytes_block; (done || lia)).
  assert (Z.of_nat (length bs) = m) as Hbs by (unfold bs, fbytes; rewrite length_fmap, length_seqZ; lia).
  destruct (rv_copy s2 V (a, bp) dst got bs HP2) as (s3 & Hs3 & Hq3 & HP3 & HT3); [by apply (rv_keep s1), (rv_keep s)|intros E; rewrite E in Hbs; cbn in Hbs; lia|lia|].
  rewrite (bind_Ok _ _ _ _ _ Hs3). change (0 =? -1) with false. destruct (br_brelse s3 V a bp HP3) as (s4 & Hs4 & Hq4 & HP4).
  exists s4. rewrite (bind_Ok _ _ _ _ _ Hs4), <- Hbs at 1. split_and!; [|by rewrite Hbs in *; do 2 (etransitivity; [by apply rv_sub|]); etransitivity; [done|by apply rv_sub]|done|rewrite <- Hbs; by apply (rv_keep s3)].
  by rewrite !Hbs.
Qed.

Lemma readi_loop_spec c : forall s V ip dst got off n tot fuel, P s V None -> T s dst got -> i_dev (geti s ip) = d -> fs_ok V sb ds -> file_ok V sb ds (i_addrs (geti s ip)) ->
  (c < fuel)%nat -> 0 <= tot <= n -> 0 <= off -> off + (n - tot) <= maxbytes -> tot = n \/ off mod BSIZE + (n - tot) <= Z.of_nat c * BSIZE ->
  Z.of_nat (length got) + (n - tot) <= limit -> (forall o, off <= o < off + (n - tot) -> loc V (i_addrs (geti s ip)) (slot_of (o / BSIZE)) <> 0) ->
  let bs := fbytes V (i_addrs (geti s ip)) off (n - tot) in
  exists s' dst', readi_loop fuel ip dst off n tot s = Ok (n, bs) s' /\ Q' s s' /\ P s' V None /\ T s' dst' (got ++ bs).
Proof.
  induction c as [|c IH]; intros s V ip dst got off n tot fuel HP HT Hdev Hfs Hf Hfu Htot Hoff Hmax Hc Hlim Hno; (destruct fuel as [|fuel]; [lia|]).
  all: destruct (decide (tot = n)) as [->|Hne].
  1, 3: exists s, dst; rewrite Z.sub_diag; split_and!; [cbn [readi_loop]; rewrite Z.ltb_irrefl; done|reflexivity|done|by rewrite app_nil_r].
  - exfalso. destruct Hc as [|Hc]; [done|]. change BSIZE with 1024 in Hc. zlia.
  - destruct Hc as [|Hc]; [done|]. set (addrs := i_addrs (geti s ip)) in *. set (m := Z.min (n - tot) (BSIZE - off mod BSIZE)).
    destruct (readi_step s V ip dst got off n tot fuel HP HT Hdev Hfs Hf) as (s1 & E1 & Hq1 & HP1 & HT1); try lia; [apply Hno; lia|]. fold addrs m in E1, HT1.
    assert (0 < m <= BSIZE - off mod BSIZE /\ m <= n - tot) as Hm by (unfold m; change BSIZE with 1024; zlia).
    assert (tot + m = n \/ (off + m) mod BSIZE + (n - (tot + m)) <= Z.of_nat c * BSIZE) as Hc'.
    { assert (m = n - tot \/ m = BSIZE - off mod BSIZE) as [Hmin|Hmin] by (unfold m; lia); [left; lia|right]. change BSIZE with 1024 in *. zlia. }
    pose proof (rv_ic _ _ ip Hq1) as Eg. change maxbytes with 274432 in *.
    destruct (IH s1 V ip (kdst_add dst m) (got ++ fbytes V addrs off m) (off + m) n (tot + m) fuel HP1 HT1) as (s2 & dst2 & E2 & Hq2 & HP2 & HT2);
      rewrite ?Eg; fold addrs; try done; try lia.
    + unfold fbytes. rewrite length_app, length_fmap, length_seqZ. lia.
    + intros o Ho. apply Hno. lia.
    + exists s2, dst2. rewrite E1, (bind_Ok _ _ _ _ _ E2). cbn [fst snd]. rewrite Eg in *. fold addrs in HT2 |- *.
      assert (fbytes V addrs off m ++ fbytes V addrs (off + m) (n - (tot + m)) = fbytes V addrs off (n - tot)) as Eb by (rewrite <- fbytes_app by lia; f_equal; lia).
      rewrite Eb, <- app_assoc, Eb in *. split_and!; [done|by transitivity s1|done|done].
Qed.

(** ** The whole of readi *)

(** A file without holes below its size. *)
Definition whole (V : Z -> list Z) (ino : inode) : Prop :=
  0 <= i_size ino <= maxbytes /\ forall o, 0 <= o < i_size ino -> loc V (i_addrs ino) (slot_of (o / BSIZE)) <> 0.

Lemma readi_spec s V ip dst off n : P s V None -> T s dst [] -> i_dev (geti s ip) = d -> fs_ok V sb ds -> file_ok V sb ds (i_addrs (geti s ip)) ->
  whole V (geti s ip) -> 0 <= off <= i_size (geti s ip) -> 0 <= n < 2 ^ 31 -> n <= limit ->
  let m := Z.min n (i_size (geti s ip) - off) in let bs := fbytes V (i_addrs (geti s ip)) off m in
  exists s' dst', readi ip dst off n s = Ok (m, bs) s' /\ Q' s s' /\ P s' V None /\ T s' dst' bs.
Proof.
  intros HP HT R5 R3 R4 [Hsz Hno] Hoff Hn Hlim m bs. change maxbytes with 274432 in Hsz. change (2 ^ 31) with 2147483648 in Hn.
  unfold readi. rewrite bind_gets. assert (u32 (off + n) = off + n) as -> by (unfold u32; apply Z.mod_small; lia).
  rewrite (proj2 (Z.ltb_ge (i_size (geti s ip)) off)), (proj2 (Z.ltb_ge (off + n) off)) by lia. cbn [orb].
  assert ((if i_size (geti s ip) <? off + n then u32 (i_size (geti s ip) - off) else n) = m) as ->.
  { unfold m. destruct (Z.ltb_spec (i_size (geti s ip)) (off + n)); [|lia]. unfold u32. rewrite Z.mod_small by lia. lia. }
  assert (0 <= m <= n) as Hm by lia. assert (off + m <= i_size (geti s ip)) as Hm' by lia. clearbody m.
  assert (exists c, (c < Z.to_nat (m / BSIZE + 3))%nat /\ (0 = m \/ off mod BSIZE + (m - 0) <= Z.of_nat c * BSIZE)) as (c & Hc1 & Hc2).
  { destruct (decide (m = 0)) as [->|E0]; [exists 0%nat; split; [change (0 / BSIZE) with 0; lia|by left]|].
    destruct (span_bounds off m ltac:(lia) ltac:(lia)) as [S1 S2]. exists (span off m). split; [done|right; lia]. }
  destruct (readi_loop_spec c s V ip dst [] off m 0 (Z.to_nat (m / BSIZE + 3)) HP HT R5 R3 R4 Hc1) as (s' & dst' & E & Hq & HP' & HT'); try lia.
  - change maxbytes with 274432. lia.
  - cbn. lia.
  - intros o Ho. apply Hno. lia.
  - exists s', dst'. rewrite Z.sub_0_r in *. done.
Qed.
End Reading.

(** ** Reading inside a transaction, into kernel memory *)

Section InTransaction.
Context `{OT : Others} `{BD : BlockDev} `{DL : !DiskLaws}.
Context (i : nat) (d st : Z) (hs : list Z) (Hhs : (length hs < 30)%nat).

Definition tx_view (s : kst) (V : Z -> list Z) (h : option (Z * nat)) : Prop :=
  match h with
  | None => in_tx i d st s hs V ∅
  | Some (n, b) => in_tx i d st s hs V {[n := b]} /\ (n ∈ hs \/ V n = dblock (k_dk s) n)
  end.

#[export] Instance tx_reader : BlockReader d tx_view (quiet i).
Proof.
  split.
  - apply _.
  - intros s s' j Hq. apply Hq.
  - intros s V n Htx Hno. destruct (bread_q i d st s hs V ∅ n Htx (lookup_empty _)) as (b & s' & Hs & Hq & Hdat & Htx');
      [rewrite map_size_empty; change bhead with 30%nat; lia|done|].
    exists b, s'. split_and!; try done. split; [done|]. rewrite (q_dk _ _ _ Hq). by apply (tx_clean i d st s hs V ∅).
  - intros s V n b [Htx Hcl]. destruct (brelse_q i d st s hs V _ n b Htx (lookup_singleton_eq _ _) Hcl) as (s' & Hs & Hq & Htx').
    rewrite delete_singleton_eq in Htx'. by exists s'.
Qed.

#[export] Instance obj_receiver limit : Receiver tx_view (quiet i) (quiet i) limit (fun _ dst _ => dst = DObj).
Proof.
  split; try done.
  - apply _.
  - intros s s' j Hq. apply Hq.
  - intros s V [n b] dst bs new [Htx Hcl] -> _ _. destruct (myproc_q i d st s hs V _ Htx) as (s' & Hs & Hq & _ & Htx').
    exists s'. unfold either_copyout. rewrite (bind_Ok _ _ _ _ _ Hs). split_and!; try done. split; [done|]. by rewrite (q_dk _ _ _ Hq).
Qed.
End InTransaction.
