(* ===== verification/FsCommit.v ===== *)
(** * What a committed file operation leaves on the disk

    A transaction changes the log besides the blocks it names.  The file
    system and its files lie outside the log, so that what holds of the
    contents before end_op holds after it; and the writes of successive
    transactions compose. *)

From S2P Require Import Prelude Layout Spinlock Kalloc State Vm Proc SleepLock Bio Log Fs ProcSpec SleepSpec Ring CacheSpec LogSpec LogOps FsTx FsMap FsFile FsInode.

Section Commit.
Context (st : Z) (sb : superblock) (ds : Z).

(** The log lies in front of the data, apart from the free map. *)
Definition log_apart : Prop := forall n, in_log st n -> 0 <= n < ds /\ forall c, 0 <= c < sb_size sb -> n <> BBLOCK c sb.
Context (Hap : log_apart).

(** The same contents outside the log. *)
Definition off_log (V V' : Z -> list Z) : Prop := forall n, ~ in_log st n -> V' n = V n.

Lemma off_log_used V V' b : off_log V V' -> 0 <= b < sb_size sb -> used V' sb b = used V sb b.
Proof. intros Hv Hb. unfold used. rewrite Hv; [done|]. intros [_ Hn]%Hap. by apply (Hn b). Qed.

Lemma off_log_fs V V' : fs_ok V sb ds -> off_log V V' -> (forall b, in_log st b -> length (V' b) = Z.to_nat BSIZE) -> fs_ok V' sb ds.
Proof.
  intros [H1 H2 H3 H4 H5] Hv Hl. split; try done.
  - intros b Hb. rewrite (off_log_used V V' b Hv) by lia. by apply H4.
  - intros b Hb. destruct (decide (st <= b < st + LOGSIZE)) as [Hin|Hout]; [by apply Hl|]. rewrite Hv by done. by apply H5.
Qed.

Lemma off_log_loc V V' addrs k : file_ok V sb ds addrs -> off_log V V' -> loc V' addrs k = loc V addrs k.
Proof.
  intros Hf Hv. unfold loc. destruct (k <? 13); [done|]. destruct (Z.eqb_spec (byte_at addrs 12) 0) as [|E]; [done|].
  rewrite Hv; [done|]. intros [Hr _]%Hap. destruct (ind_data _ _ _ _ Hf E). lia.
Qed.

Lemma off_log_file V V' addrs : file_ok V sb ds addrs -> 0 < ds -> off_log V V' -> file_ok V' sb ds addrs.
Proof.
  intros Hf Hds Hv. pose proof Hf as [H1 H2 H3]. split; [done|..].
  - intros k Hk. rewrite (off_log_loc V V' addrs k Hf Hv). intros Hnz. destruct (H2 k Hk Hnz). rewrite (off_log_used V V' _ Hv) by lia. done.
  - intros k j Hk Hj. rewrite !(off_log_loc V V' addrs _ Hf Hv). by apply H3.
Qed.

Lemma off_log_fbyte V V' addrs o : file_ok V sb ds addrs -> off_log V V' -> 0 <= o < maxbytes -> fbyte V' addrs o = fbyte V addrs o.
Proof.
  intros Hf Hv Ho. unfold fbyte. rewrite (off_log_loc V V' addrs _ Hf Hv). destruct (slot_range o Ho) as [Hk _].
  destruct (Z.eqb_spec (loc V addrs (slot_of (o / BSIZE))) 0) as [|E]; [done|]. rewrite Hv; [done|].
  intros [Hr _]%Hap. destruct (fi_data _ _ _ _ Hf _ Hk E). lia.
Qed.

(** ** What writing to a file means for the disk *)

(** [C] holds the file system in which [bs] was written at [off] of the file
    of [ino], as it was in [V], with the blocks [addrs'] and on the disk. *)
Record written (V : Z -> list Z) (ino : inode) (off : Z) (bs : list Z) (C : Z -> list Z) (addrs' : list Z) : Prop := {
  w_fs : fs_ok C sb ds;
  w_file : file_ok C sb ds addrs';
  w_content : overwritten V (i_addrs ino) off bs C addrs';
  w_others : others_kept st sb ds V (i_addrs ino) (i_inum ino) C addrs';
  w_disk : on_disk sb C (grown addrs' (off + Z.of_nat (length bs)) ino) }.

Lemma written_off_log V ino off bs C addrs' C' : written V ino off bs C addrs' -> off_log C C' ->
  (forall b, in_log st b -> length (C' b) = Z.to_nat BSIZE) -> ~ in_log st (iblock sb (i_inum ino)) -> off + Z.of_nat (length bs) <= maxbytes -> 0 <= off ->
  written V ino off bs C' addrs'.
Proof.
  intros [H1 H2 (C1 & C2 & C3) [O1 O2 O5 O6 O3 O4] H5] Hv Hl Hi Hm H0. assert (0 < ds <= sb_size sb) as Hds by apply H1. split.
  - by apply (off_log_fs C).
  - apply (off_log_file C); [done|lia|done].
  - split_and!.
    + intros o Ho. rewrite (off_log_fbyte C C' addrs' o) by done. by apply C1.
    + intros o Ho. rewrite (off_log_loc C C' addrs') by done. by apply C2.
    + intros k Hk Hnz. rewrite (off_log_loc C C' addrs') by done. by apply C3.
  - split.
    + intros b Hb Hu Hno. rewrite Hv; [by apply O1|]. intros [Hr _]%Hap. lia.
    + intros b Hb Hb' Hne Hnm. rewrite Hv by done. by apply O2.
    + intros o Ho Hout. rewrite Hv by done. by apply O5.
    + intros b Hb. rewrite (off_log_used C C' b Hv Hb). intros Hu. destruct (O6 b Hb Hu) as [|(E0 & j & Hj & E)]; [by left|right].
      split; [done|]. exists j. by rewrite (off_log_loc C C' addrs').
    + intros b Hb Hu. rewrite (off_log_used C C' b Hv Hb). by apply O3.
    + intros k Hk Hz. rewrite (off_log_loc C C' addrs') by done. by apply O4.
  - unfold on_disk in *. by rewrite Hv.
Qed.

Lemma written_refl V ino off : fs_ok V sb ds -> file_ok V sb ds (i_addrs ino) -> on_disk sb V ino -> off <= i_size ino -> written V ino off [] V (i_addrs ino).
Proof.
  intros H1 H2 H3 Ho. split; try done.
  - split_and!; [|cbn; lia|done]. intros o Ho'. rewrite decide_False by (cbn; lia). done.
  - split; try done. by left.
  - cbn. rewrite Z.add_0_r. unfold on_disk, grown in *. rewrite Z.max_l by lia. destruct ino. exact H3.
Qed.

Lemma overwritten_app V a off bs1 V1 a1 bs2 V2 a2 : 0 <= off -> off + Z.of_nat (length (bs1 ++ bs2)) <= maxbytes ->
  overwritten V a off bs1 V1 a1 -> overwritten V1 a1 (off + Z.of_nat (length bs1)) bs2 V2 a2 -> overwritten V a off (bs1 ++ bs2) V2 a2.
Proof.
  rewrite length_app. intros H0 Hm (A1 & A2 & A3) (B1 & B2 & B3). split_and!.
  - intros o Ho. rewrite B1, A1, length_app by done. unfold byte_at.
    case_decide as C1; [rewrite decide_True, lookup_app_r by lia; do 2 f_equal; lia|].
    case_decide as C2; [rewrite decide_True, lookup_app_l by lia; done|rewrite decide_False by lia; done].
  - intros o Ho. rewrite length_app in Ho. destruct (decide (o < off + Z.of_nat (length bs1))); [|apply B2; lia].
    assert (loc V1 a1 (slot_of (o / BSIZE)) <> 0) as Hnz by (apply A2; lia). rewrite B3; [done| |done]. apply slot_range. lia.
  - intros k Hk Hnz. rewrite <- (A3 k Hk Hnz) in Hnz |- *. by apply B3.
Qed.

Lemma others_kept_trans V a inum V1 a1 V2 a2 : 0 < ds <= sb_size sb -> file_ok V2 sb ds a2 ->
  others_kept st sb ds V a inum V1 a1 -> others_kept st sb ds V1 a1 inum V2 a2 ->
  (forall k, 0 <= k < nslots -> loc V a k <> 0 -> loc V1 a1 k = loc V a k) ->
  (forall k, 0 <= k < nslots -> loc V1 a1 k <> 0 -> loc V2 a2 k = loc V1 a1 k) -> others_kept st sb ds V a inum V2 a2.
Proof.
  intros Hds Hf [A1 A2 A5 A6 A3 A4] [B1 B2 B5 B6 B3 B4] H1 H2. split.
  - intros b Hb Hu Hno. rewrite B1; [by apply A1|done|apply A3; [lia|done]|]. intros k Hk Hl.
    destruct (decide (loc V a k = 0)) as [E|E]; [|apply (Hno k Hk); rewrite <- Hl; symmetry; by apply H1].
    assert (used V sb (loc V1 a1 k) = false) as Hfr by (apply A4; [done|done|lia]). rewrite Hl in Hfr. congruence.
  - intros b Hb Hl Hne Hnm. rewrite B2 by done. by apply A2.
  - intros o Ho Hout. rewrite B5 by done. by apply A5.
  - intros b Hb Hu. destruct (B6 b Hb Hu) as [Hu1|]; [|by right]. destruct (A6 b Hb Hu1) as [|(E0 & j & Hj & E)]; [by left|right].
    split; [done|]. exists j. split; [done|]. rewrite <- E. apply H2; [done|congruence].
  - intros b Hb Hu. apply B3; [done|]. by apply A3.
  - intros k Hk Hz Hnz. destruct (decide (loc V1 a1 k = 0)) as [E|E].
    + destruct (used V sb (loc V2 a2 k)) eqn:Hu; [|done]. destruct (fi_data _ _ _ _ Hf k Hk Hnz) as [Hr _].
      apply A3 in Hu; [|lia]. rewrite B4 in Hu by done. done.
    + rewrite H2 by done. by apply A4.
Qed.

(** One write after the other. *)
Lemma written_app V ino off bs1 V1 a1 lk bs2 V2 a2 : 0 <= off -> off + Z.of_nat (length (bs1 ++ bs2)) <= maxbytes -> written V ino off bs1 V1 a1 ->
  written V1 (set_i_lock lk (grown a1 (off + Z.of_nat (length bs1)) ino)) (off + Z.of_nat (length bs1)) bs2 V2 a2 -> written V ino off (bs1 ++ bs2) V2 a2.
Proof.
  intros H0 Hm [A1 A2 A3 A4 A5] [B1 B2 B3 B4 B5]. set (ino1 := set_i_lock lk _) in *.
  assert (i_addrs ino1 = a1 /\ i_inum ino1 = i_inum ino /\ i_size ino1 = Z.max (i_size ino) (off + Z.of_nat (length bs1))) as (E1 & E2 & E3) by (by destruct ino).
  rewrite E1 in *. rewrite E2 in *. split; try done.
  - by apply (overwritten_app V _ off bs1 V1 a1).
  - apply (others_kept_trans V _ _ V1 a1); [apply B1|done|done|done|apply A3|apply B3].
  - unfold on_disk in *. assert (i_inum (grown a2 (off + Z.of_nat (length bs1) + Z.of_nat (length bs2)) ino1) = i_inum (grown a2 (off + Z.of_nat (length (bs1 ++ bs2))) ino)) as Ei by (by destruct ino).
    rewrite Ei in B5. rewrite B5. unfold grown. rewrite E3, length_app.
    replace (Z.max (Z.max (i_size ino) (off + Z.of_nat (length bs1))) (off + Z.of_nat (length bs1) + Z.of_nat (length bs2)))
      with (Z.max (i_size ino) (off + Z.of_nat (length bs1 + length bs2))) by lia. by destruct ino.
Qed.

(** ** The disk after a commit *)

Lemma vputs_sized ws W b : Forall (fun p => length p.2 = Z.to_nat BSIZE) ws -> length (W b) = Z.to_nat BSIZE -> length (vputs ws W b) = Z.to_nat BSIZE.
Proof.
  intros Hws. revert W. induction Hws as [|[n v] ws Hv Hws IH]; intros W HW; [done|]. apply (IH (upd W n v)). unfold upd. by case_decide.
Qed.

Lemma log_writes_sized V t hs : (forall h, h ∈ hs -> length (V h) = Z.to_nat BSIZE) -> Forall (fun p => length p.2 = Z.to_nat BSIZE) (log_writes st V t hs).
Proof. revert t. induction hs as [|h hs IH]; intros t H; constructor; [apply H; by left|]. apply IH. intros. apply H. by right. Qed.

Lemma commit_clean W V hs : transaction st W V hs -> (forall h, h ∈ hs -> length (V h) = Z.to_nat BSIZE) ->
  (forall b, in_log st b -> length (W b) = Z.to_nat BSIZE) ->
  head_n (vputs (commit_writes st V hs) W st) = 0 /\ forall b, in_log st b -> length (vputs (commit_writes st V hs) W b) = Z.to_nat BSIZE.
Proof.
  intros Ht Hh HW. pose proof Ht as [H1 _ H3 _ H5 H6 H7]. change bhead with 30%nat in H3.
  assert (V st = W st) as Est. { apply H7. intros Hin. apply (H6 st Hin). unfold in_log. change LOGSIZE with 30. lia. }
  destruct (head_blocks_header (V st) hs) as (L1 & _); [congruence|lia|done|]. destruct (head_blocks_header (header (V st) hs) []) as (L2 & L3 & _); [done|cbn; lia|done|].
  split.
  - unfold commit_writes. rewrite !vputs_app, !vputs_one, upd_same. exact L3.
  - intros b Hb. apply vputs_sized; [|by apply HW]. unfold commit_writes. rewrite !Forall_app. split_and!.
    + by apply log_writes_sized.
    + by repeat constructor.
    + unfold home_writes. apply Forall_forall. intros p (h & -> & Hin)%list_elem_of_fmap. by apply Hh.
    + by repeat constructor.
Qed.
End Commit.
