(* ===== verification/Mkfs.v ===== *)
(** * mkfs/mkfs.c: the builder of the disk image

    The image is a map from sectors to their bytes; a sector that was never
    written cannot be read, which ends the program.  The host's reads and
    writes of the image succeed.  The integers in the image are little-endian
    (xshort and xint), whatever the host's order; a struct dinode is the part
    of an [inode] that is on the disk, its other fields those of [inode0].
    Messages are not modelled.  A program that ends with exit(1) or a failed
    assertion panics. *)

From S2P Require Import Prelude Layout Spinlock State Bio Fs.

Definition NINODES : Z := 200.
Definition nbitmap : Z := FSSIZE / (BSIZE * 8) + 1.
Definition ninodeblocks : Z := NINODES / IPB + 1.
Definition nlog : Z := LOGSIZE.
Definition nmeta : Z := 2 + nlog + ninodeblocks + nbitmap.
Definition nblocks : Z := FSSIZE - nmeta.

Definition mk_sb : superblock :=
  Superblock FSMAGIC FSSIZE nblocks NINODES nlog 2 (2 + nlog) (2 + nlog + ninodeblocks).

Record mkst := Mkst { img : gmap Z (list Z); freeinode : Z; freeblock : Z }.

Definition set_img (x : gmap Z (list Z)) (s : mkst) : mkst := Mkst x (freeinode s) (freeblock s).
Definition set_freeinode (x : Z) (s : mkst) : mkst := Mkst (img s) x (freeblock s).
Definition set_freeblock (x : Z) (s : mkst) : mkst := Mkst (img s) (freeinode s) x.

(** ** Sectors *)

(** The sector at the offset sec * BSIZE, a uint, of the image. *)
Definition sector (sec : Z) : Z := u32 (sec * BSIZE) / BSIZE.

Definition wsect (sec : Z) (buf : list Z) : M mkst unit := modify (fun s => set_img (<[sector sec := buf]> (img s)) s).

Definition rsect (sec : Z) : M mkst (list Z) :=
  let! b := gets (fun s => img s !! sector sec) in
  match b with Some buf => ret buf | None => panic "read" end.

(** ** Inodes *)

Definition winode (inum : Z) (ip : inode) : M mkst unit :=
  let bn := IBLOCK inum mk_sb in
  let! buf := rsect bn in
  wsect bn (splice buf (inum mod IPB * sizeof_dinode) (dinode_bytes ip)).

Definition rinode (inum : Z) : M mkst inode :=
  let bn := IBLOCK inum mk_sb in
  let! buf := rsect bn in
  ret (load_dinode buf (inum mod IPB * sizeof_dinode) inode0).

Definition mk_ialloc (type : Z) : M mkst Z :=
  let! inum := gets freeinode in
  modify (set_freeinode (u32 (inum + 1)));;
  winode inum (set_i_addrs (replicate 13 0) (set_i_size 0 (set_i_nlink 1 (set_i_type type inode0))));;
  ret inum.

(** ** Blocks *)

Fixpoint mark_loop (k : nat) (i : Z) (buf : list Z) : list Z :=
  match k with
  | O => buf
  | S k' => mark_loop k' (i + 1) (<[Z.to_nat (i / 8) := u8 (Z.lor (byte_at buf (i / 8)) (Z.shiftl 1 (i mod 8)))]> buf)
  end.

Definition mk_balloc (used : Z) : M mkst unit :=
  if negb (used <? BSIZE * 8) then panic "assert" else
  wsect (sb_bmapstart mk_sb) (mark_loop (Z.to_nat used) 0 (replicate (Z.to_nat BSIZE) 0)).

(** freeblock++ *)
Definition next_block : M mkst Z :=
  let! b := gets freeblock in
  modify (set_freeblock (u32 (b + 1)));;
  ret b.

(** The block of the file for [fbn], and the dinode with the addresses that
    were assigned. *)
Definition file_sector (din : inode) (fbn : Z) : M mkst (inode * Z) :=
  if fbn <? NDIRECT then
    let! din := (if byte_at (i_addrs din) fbn =? 0
                 then let! b := next_block in ret (set_i_addrs (<[Z.to_nat fbn := b]> (i_addrs din)) din)
                 else ret din) in
    ret (din, byte_at (i_addrs din) fbn)
  else
    let! din := (if byte_at (i_addrs din) NDIRECT =? 0
                 then let! b := next_block in ret (set_i_addrs (<[Z.to_nat NDIRECT := b]> (i_addrs din)) din)
                 else ret din) in
    let! indirect := rsect (byte_at (i_addrs din) NDIRECT) in
    let! indirect := (if peek 4 indirect (4 * (fbn - NDIRECT)) =? 0
                      then let! b := next_block in
                           let indirect := poke 4 indirect (4 * (fbn - NDIRECT)) b in
                           wsect (byte_at (i_addrs din) NDIRECT) indirect;;
                           ret indirect
                      else ret indirect) in
    ret (din, peek 4 indirect (4 * (fbn - NDIRECT))).

(** [p] are the bytes that are left; the dinode and offset at the end. *)
Fixpoint iappend_loop (fuel : nat) (din : inode) (off : Z) (p : list Z) : M mkst (inode * Z) :=
  match fuel with
  | O => diverge
  | S fuel' =>
      if negb (0 <? Z.of_nat (length p)) then ret (din, off) else
      let fbn := off / BSIZE in
      if negb (fbn <? MAXFILE) then panic "assert" else
      let! r := file_sector din fbn in
      let n1 := Z.min (Z.of_nat (length p)) (u32 ((fbn + 1) * BSIZE - off)) in
      let! buf := rsect (snd r) in
      wsect (snd r) (splice buf (off - fbn * BSIZE) (take (Z.to_nat n1) p));;
      iappend_loop fuel' (fst r) (u32 (off + n1)) (drop (Z.to_nat n1) p)
  end.

Definition iappend (inum : Z) (p : list Z) : M mkst unit :=
  let! din := rinode inum in
  let! r := iappend_loop (S (length p)) din (i_size din) p in
  winode inum (set_i_size (snd r) (fst r)).

(** ** main *)

(** bytes of struct superblock *)
Definition superblock_bytes (sb : superblock) : list Z :=
  le_bytes 4 (sb_magic sb) ++ le_bytes 4 (sb_size sb) ++ le_bytes 4 (sb_nblocks sb) ++ le_bytes 4 (sb_ninodes sb) ++
  le_bytes 4 (sb_nlog sb) ++ le_bytes 4 (sb_logstart sb) ++ le_bytes 4 (sb_inodestart sb) ++ le_bytes 4 (sb_bmapstart sb).

(** An input file: its name on the command line, and what read() returns until
    the end of the file, an error or a result of no bytes; None when it cannot
    be opened. *)
Record input := Input { in_name : list Z; in_reads : option (list (list Z)) }.

Definition underscore : Z := 95.
Definition user_dir : list Z := str "user/".

(** Without the directory user/. *)
Definition shortname (arg : list Z) : list Z :=
  if strncmp_bytes 5 arg user_dir =? 0 then drop 5 arg else arg.

(** Skip leading _. *)
Definition plain (name : list Z) : list Z := if hd 0 name =? underscore then tail name else name.

Fixpoint copy_in (inum : Z) (reads : list (list Z)) : M mkst unit :=
  match reads with
  | [] => skip
  | buf :: reads' => if 0 <? Z.of_nat (length buf) then iappend inum buf;; copy_in inum reads' else skip
  end.

Definition add_entry (rootino inum : Z) (name : list Z) : M mkst unit :=
  iappend rootino (dirent_bytes (Dirent (u16 inum) (strncpy_bytes (Z.to_nat DIRSIZ) name))).

Definition add_file (rootino : Z) (f : input) : M mkst unit :=
  let name := shortname (in_name f) in
  if bool_decide (slash ∈ name) then panic "assert" else
  match in_reads f with
  | None => panic "open"
  | Some reads =>
      let name := plain name in
      let! inum := mk_ialloc T_FILE in
      add_entry rootino inum name;;
      copy_in inum reads
  end.

Definition fix_root (rootino : Z) : M mkst unit :=
  let! din := rinode rootino in
  let off := u32 ((i_size din / BSIZE + 1) * BSIZE) in
  winode rootino (set_i_size off din).

(** The image starts empty; [files] are the arguments after its name. *)
Definition mkfs (files : list input) : M mkst unit :=
  modify (set_freeblock nmeta);;
  mfor (seqZ 0 FSSIZE) (fun i => wsect i (replicate (Z.to_nat BSIZE) 0));;
  wsect 1 (splice (replicate (Z.to_nat BSIZE) 0) 0 (superblock_bytes mk_sb));;
  let! rootino := mk_ialloc T_DIR in
  if negb (rootino =? ROOTINO) then panic "assert" else
  add_entry rootino rootino (str ".");;
  add_entry rootino rootino (str "..");;
  mfor files (add_file rootino);;
  fix_root rootino;;
  let! used := gets freeblock in
  mk_balloc (s32 used).

Definition mkfs_start : mkst := Mkst ∅ 1 0.
