(* ===== verification/MkfsSpec.v ===== *)
(** * The image that mkfs builds

    The blocks of the image are those of a view [V] of a disk in which the free
    map already marks the blocks that were handed out; mkfs writes the map at
    the end.  The lemmas of the kernel's block map then apply to the blocks
    that mkfs gives to files. *)

From S2P Require Import Prelude Layout Spinlock State Bio Fs CacheSpec LogOps FsTx FsMap FsFile FsInode Mkfs.

(** ** The layout *)

Definition bmap_block : Z := 45.

Lemma mk_bblock c : 0 <= c < FSSIZE -> BBLOCK c mk_sb = bmap_block.
Proof. change FSSIZE with 1000. intros Hc. unfold BBLOCK. change BPB with 8192. rewrite Z.div_small by lia. reflexivity. Qed.

Lemma sector_small b : 0 <= b < FSSIZE -> sector b = b.
Proof. change FSSIZE with 1000. intros Hb. unfold sector, u32. change BSIZE with 1024. rewrite Z.mod_small by lia. apply Z.div_mul. lia. Qed.

Lemma mk_sb_ok : sb_ok mk_sb.
Proof. split; [|split]; vm_compute; split_and?; congruence. Qed.

(** ** The free map *)

Lemma testbit_u8 x n : 0 <= n < 8 -> Z.testbit (u8 x) n = Z.testbit x n.
Proof. intros Hn. unfold u8. change 256 with (2 ^ 8). apply Z.mod_pow2_bits_low. lia. Qed.

Lemma mark_bits k : forall i buf j, 0 <= i -> 0 <= j -> i + Z.of_nat k <= 8 * Z.of_nat (length buf) ->
  bit_of (mark_loop k i buf) j = ((i <=? j) && (j <? i + Z.of_nat k)) || bit_of buf j.
Proof.
  induction k as [|k IH]; intros i buf j Hi Hj Hlen; cbn [mark_loop].
  - destruct (Z.leb_spec i j), (Z.ltb_spec j (i + Z.of_nat 0)); cbn; (done || lia).
  - rewrite IH by (rewrite ?length_insert; lia).
    assert (bit_of (<[Z.to_nat (i / 8) := u8 (Z.lor (byte_at buf (i / 8)) (Z.shiftl 1 (i mod 8)))]> buf) j = bool_decide (j = i) || bit_of buf j) as ->.
    { rewrite <- (bit_set buf i j) by lia. unfold bit_of, set_bit. rewrite !byte_at_insert by zlia. case_decide; [|done]. apply testbit_u8. zlia. }
    destruct (Z.leb_spec (i + 1) j), (Z.ltb_spec j (i + 1 + Z.of_nat k)), (Z.leb_spec i j), (Z.ltb_spec j (i + Z.of_nat (S k))), (bool_decide_reflect (j = i)); cbn; (done || lia).
Qed.

Lemma length_mark k : forall i buf, length (mark_loop k i buf) = length buf.
Proof. induction k as [|k IH]; intros i buf; cbn [mark_loop]; [done|]. by rewrite IH, length_insert. Qed.

(** The map that balloc writes. *)
Definition map_of (n : Z) : list Z := mark_loop (Z.to_nat n) 0 zeros.

Lemma map_of_used n V b : 0 <= n <= 8192 -> V bmap_block = map_of n -> 0 <= b < FSSIZE -> used V mk_sb b = (b <? n).
Proof.
  intros Hn HV Hb. unfold used. rewrite mk_bblock, HV by done. change FSSIZE with 1000 in Hb. change BPB with 8192. rewrite Z.mod_small by lia.
  unfold map_of. rewrite mark_bits; [|lia|lia|change (length zeros) with 1024%nat; lia]. unfold bit_of. rewrite byte_at_zeros, Z.bits_0, orb_false_r, Z2Nat.id, Z.add_0_l by lia.
  by rewrite (proj2 (Z.leb_le 0 b)) by lia.
Qed.

(** ** The image and its view *)

Record holds (s : mkst) (V : Z -> list Z) : Prop := {
  h_img : forall b, 0 <= b < FSSIZE -> b <> bmap_block -> img s !! b = Some (V b);
  h_used : forall b, 0 <= b < FSSIZE -> used V mk_sb b = (b <? freeblock s);
  h_zero : forall b, freeblock s <= b < FSSIZE -> V b = zeros;
  h_fs : fs_ok V mk_sb nmeta;
  h_first : nmeta <= freeblock s }.

Lemma next_block_spec s V : holds s V -> freeblock s < FSSIZE ->
  next_block s = Ok (freeblock s) (set_freeblock (freeblock s + 1) s) /\ holds (set_freeblock (freeblock s + 1) s) (allocated V mk_sb (freeblock s)) /\
  nmeta <= freeblock s < FSSIZE /\ used V mk_sb (freeblock s) = false.
Proof.
  intros [H1 H2 H3 H4 H5] Hlt. change nmeta with 46 in *. change FSSIZE with 1000 in *. split_and!; [|split|done|done|].
  - unfold next_block. rewrite bind_gets, bind_modify. assert (u32 (freeblock s + 1) = freeblock s + 1) as -> by (unfold u32; apply Z.mod_small; lia). done.
  - intros b Hb Hne. change (img s !! b = Some (allocated V mk_sb (freeblock s) b)). destruct (decide (b = freeblock s)) as [->|Hb'].
    + rewrite allocated_zero, <- (H3 (freeblock s)) by lia. apply H1; [lia|unfold bmap_block; lia].
    + rewrite allocated_other; [by apply H1|done|by rewrite mk_bblock by (change FSSIZE with 1000; lia)].
  - intros b Hb. rewrite used_allocated; [|apply H4|by eapply fs_map_sized|change (sb_size mk_sb) with 1000; lia|done|intros k Hk; rewrite mk_bblock by done; unfold bmap_block; lia].
    rewrite H2 by done. change (bool_decide (b = freeblock s) || (b <? freeblock s) = (b <? freeblock s + 1)).
    destruct (bool_decide_reflect (b = freeblock s)), (Z.ltb_spec b (freeblock s)), (Z.ltb_spec b (freeblock s + 1)); cbn; (done || lia).
  - intros b Hb. change (freeblock s + 1 <= b < 1000) in Hb. rewrite allocated_other; [apply H3; lia|lia|rewrite mk_bblock by (change FSSIZE with 1000; lia); unfold bmap_block; lia].
  - apply fs_ok_allocated; [done|]. change (sb_size mk_sb) with 1000. change nmeta with 46. lia.
  - change (46 <= freeblock s + 1). lia.
  - rewrite H2 by lia. apply Z.ltb_irrefl.
Qed.

Lemma rsect_spec s V b : holds s V -> 0 <= b < FSSIZE -> b <> bmap_block -> rsect b s = Ok (V b) s.
Proof. intros H Hb Hne. unfold rsect. rewrite bind_gets, sector_small, (h_img _ _ H) by done. done. Qed.

(** A block in use gets new contents. *)
Lemma fs_ok_put V b v : fs_ok V mk_sb nmeta -> b <> bmap_block -> length v = Z.to_nat BSIZE ->
  fs_ok (upd V b v) mk_sb nmeta /\ forall c, 0 <= c < FSSIZE -> used (upd V b v) mk_sb c = used V mk_sb c.
Proof.
  intros [H1 H2 H3 H4 H5] Hne Hv. assert (forall c, 0 <= c < FSSIZE -> used (upd V b v) mk_sb c = used V mk_sb c) as Hu.
  { intros c Hc. unfold used. rewrite upd_other; [done|]. by rewrite mk_bblock. }
  split; [|done]. split; try done.
  - intros c Hc. rewrite Hu by (change nmeta with 46 in Hc; change FSSIZE with 1000; lia). by apply H4.
  - intros c Hc. unfold upd. case_decide; [done|by apply H5].
Qed.

Lemma wsect_spec s V b v : holds s V -> 0 <= b < freeblock s -> b < FSSIZE -> b <> bmap_block -> length v = Z.to_nat BSIZE ->
  exists s', wsect b v s = Ok tt s' /\ holds s' (upd V b v) /\ freeblock s' = freeblock s /\ freeinode s' = freeinode s.
Proof.
  intros [H1 H2 H3 H4 H5] Hb Hb2 Hne Hv. destruct (fs_ok_put V b v H4 Hne Hv) as [Hfs Hu]. eexists. split; [done|]. split_and!; [|done|done]. split.
  - intros c Hc Hc'. cbn [img set_img]. rewrite sector_small by lia. unfold upd. destruct (decide (b = c)) as [->|E]; [by rewrite lookup_insert_eq|].
    rewrite lookup_insert_ne by done. by apply H1.
  - intros c Hc. rewrite Hu by done. by apply H2.
  - intros c Hc. change (freeblock s <= c < FSSIZE) in Hc. rewrite upd_other by lia. by apply H3.
  - done.
  - done.
Qed.

Lemma filter_all {A} (P : A -> Prop) `{!forall x, Decision (P x)} (l : list A) : (forall x, x ∈ l -> P x) -> filter P l = l.
Proof.
  induction l as [|x l IH]; intros Hall; [done|]. rewrite filter_cons_True by (apply Hall; by left). f_equal. apply IH. intros y Hy. apply Hall. by right.
Qed.

Lemma holds_nfree s V : holds s V -> freeblock s <= FSSIZE -> Z.of_nat (nfree V mk_sb) = FSSIZE - freeblock s.
Proof.
  intros H Hle. pose proof (h_first _ _ H) as Hf. change nmeta with 46 in Hf. unfold nfree. change (sb_size mk_sb) with FSSIZE. change FSSIZE with 1000 in *.
  replace 1000 with (freeblock s + (1000 - freeblock s)) at 1 by lia. rewrite seqZ_app, filter_app, length_app by lia.
  assert (filter (fun b => used V mk_sb b = false) (seqZ 0 (freeblock s)) = []) as ->.
  { destruct (filter _ (seqZ 0 (freeblock s))) as [|x l] eqn:E; [done|]. assert (x ∈ x :: l) as Hx by (by left). rewrite <- E in Hx.
    apply list_elem_of_filter in Hx as [K1 K2]. apply elem_of_seqZ in K2. rewrite (h_used _ _ H) in K1 by (change FSSIZE with 1000; lia). apply Z.ltb_ge in K1. lia. }
  rewrite filter_all; [rewrite length_seqZ; cbn [length]; lia|]. intros x Hx. apply elem_of_seqZ in Hx. rewrite (h_used _ _ H) by (change FSSIZE with 1000; lia). apply Z.ltb_ge. lia.
Qed.

(** ** The block for a slot of the inode *)

(** What a step of the builder keeps besides the blocks. *)
Definition cost (V : Z -> list Z) (addrs : list Z) (k : Z) : Z := if loc V addrs k =? 0 then 1 else 0.

Definition own_slot (din : inode) (k : Z) : M mkst inode :=
  if byte_at (i_addrs din) k =? 0
  then let! b := next_block in ret (set_i_addrs (<[Z.to_nat k := b]> (i_addrs din)) din)
  else ret din.

Lemma own_slot_spec s V din k hs : holds s V -> file_ok V mk_sb nmeta (i_addrs din) -> 0 <= k < 13 -> freeblock s + cost V (i_addrs din) k <= FSSIZE ->
  exists s' V' addrs', own_slot din k s = Ok (set_i_addrs addrs' din) s' /\ holds s' V' /\ freeblock s' = freeblock s + cost V (i_addrs din) k /\
    freeinode s' = freeinode s /\ mapped mk_sb nmeta V (i_addrs din) hs V' addrs' hs k (byte_at addrs' k) /\ forall j, 0 <= j -> j <> k -> loc V' addrs' j = loc V (i_addrs din) j.
Proof.
  intros H Hf Hk Hc. unfold own_slot, cost in *. assert (forall W a, loc W a k = byte_at a k) as Eloc by (intros; unfold loc; by rewrite (proj2 (Z.ltb_lt k 13)) by lia).
  rewrite Eloc in *. destruct (Z.eqb_spec (byte_at (i_addrs din) k) 0) as [E0|E0].
  - destruct (next_block_spec s V H ltac:(lia)) as (E & H' & Hnb & Hu). rewrite (bind_Ok _ _ _ _ _ E). set (nb := freeblock s) in *.
    pose proof (fi_len _ _ _ _ Hf) as Hlen. pose proof (h_fs _ _ H) as Hfs.
    assert (forall j, 0 <= j -> loc (allocated V mk_sb nb) (<[Z.to_nat k := nb]> (i_addrs din)) j = if decide (j = k) then nb else loc V (i_addrs din) j) as Hloc.
    { intros j Hj. apply (loc_set_direct V mk_sb nmeta); try done. by rewrite Eloc. }
    eexists _, (allocated V mk_sb nb), (<[Z.to_nat k := nb]> (i_addrs din)). split_and!; [done|done|done|done| |].
    + assert (byte_at (<[Z.to_nat k := nb]> (i_addrs din)) k = nb) as -> by (rewrite byte_at_set, decide_True; (done || lia)).
      apply mapped_alloc; try done; [unfold nslots; lia|by rewrite Eloc|by rewrite length_insert|by apply fs_ok_allocated|intros j Hj; apply Hloc; lia| |lia|by left].
      change nmeta with 46 in Hnb. apply allocated_other; [lia|]. rewrite mk_bblock by lia. done.
    + intros j Hj Hne. rewrite Hloc by done. by rewrite decide_False.
  - exists s, V, (i_addrs din). split_and!; [by destruct din|done|lia|done| |done]. rewrite <- (Eloc V). apply mapped_refl; [apply H|done|by rewrite Eloc].
Qed.

(** The block for entry [j] of the indirect block of [addrs]. *)
Definition own_entry (ind j : Z) : M mkst Z :=
  let! indirect := rsect ind in
  let! indirect := (if peek 4 indirect (4 * j) =? 0
                    then let! b := next_block in
                         let indirect := poke 4 indirect (4 * j) b in
                         wsect ind indirect;;
                         ret indirect
                    else ret indirect) in
  ret (peek 4 indirect (4 * j)).

Lemma own_entry_spec s V addrs j hs : holds s V -> file_ok V mk_sb nmeta addrs -> byte_at addrs 12 <> 0 -> 0 <= j < 256 -> freeblock s + cost V addrs (13 + j) <= FSSIZE ->
  exists s' V' a, own_entry (byte_at addrs 12) j s = Ok a s' /\ holds s' V' /\ freeblock s' = freeblock s + cost V addrs (13 + j) /\
    freeinode s' = freeinode s /\ mapped mk_sb nmeta V addrs hs V' addrs hs (13 + j) a.
Proof.
  intros H Hf Hi Hj Hc. set (ind := byte_at addrs 12) in *. destruct (ind_data _ _ _ _ Hf Hi) as [K1 K2]. fold ind in K1, K2. change nmeta with 46 in K1.
  pose proof (h_fs _ _ H) as Hfs. assert (0 <= ind < FSSIZE /\ ind <> bmap_block) as [Hr Hb] by (change (sb_size mk_sb) with FSSIZE in K1; unfold bmap_block; lia).
  assert (loc V addrs (13 + j) = peek 4 (V ind) (4 * j)) as Eloc.
  { unfold loc. fold ind. rewrite (proj2 (Z.ltb_ge _ _)), (proj2 (Z.eqb_neq _ _) Hi) by lia. do 2 f_equal. lia. }
  unfold own_entry, cost in *. rewrite (bind_Ok _ _ _ _ _ (rsect_spec s V ind H Hr Hb)). rewrite Eloc in *. destruct (Z.eqb_spec (peek 4 (V ind) (4 * j)) 0) as [E0|E0].
  - pose proof (fs_sized _ _ _ Hfs ind Hr) as Hlen. change (Z.to_nat BSIZE) with 1024%nat in Hlen.
    destruct (next_block_spec s V H ltac:(lia)) as (E & H' & Hnb & Hu). rewrite bind_assoc, (bind_Ok _ _ _ _ _ E). set (nb := freeblock s) in *.
    rewrite (h_used _ _ H) in K2 by done. apply Z.ltb_lt in K2. fold nb in K2.
    destruct (wsect_spec _ _ ind (poke 4 (V ind) (4 * j) nb) H') as (s' & E' & H'' & F1 & F2); [split; [lia|]; change (ind < nb + 1); lia|lia|done|rewrite length_poke by lia; done|].
    cbv zeta. rewrite bind_assoc, (bind_Ok _ _ _ _ _ E'), bind_ret.
    assert (peek 4 (poke 4 (V ind) (4 * j) nb) (4 * j) = nb) as ->. { rewrite peek_poke by lia. apply Z.mod_small. change FSSIZE with 1000 in *. cbn. change nmeta with 46 in Hnb. lia. }
    eexists s', _, nb. split_and!; [done|exact H''|done|done|]. apply mapped_entry; try done; [by rewrite Eloc|lia|by left].
  - rewrite bind_ret. exists s, V, (peek 4 (V ind) (4 * j)). split_and!; [done|done|lia|done|]. rewrite <- Eloc. apply mapped_refl; [done|done|by rewrite Eloc].
Qed.

(** ** The blocks of a file of [n] bytes *)

(** The slots in use are those that the size asks for. *)
Record laid (V : Z -> list Z) (addrs : list Z) (n : Z) : Prop := {
  la_data : forall bn, 0 <= bn < MAXFILE -> loc V addrs (slot_of bn) = 0 <-> n <= bn * BSIZE;
  la_ind : loc V addrs 12 = 0 <-> n <= NDIRECT * BSIZE }.

(** The number of blocks, the indirect one included. *)
Definition dblocks (n : Z) : Z := (n + BSIZE - 1) / BSIZE.
Definition nblk (n : Z) : Z := dblocks n + (if NDIRECT <? dblocks n then 1 else 0).

(** The blocks that finding block [fbn] of the file takes. *)
Definition step_cost (V : Z -> list Z) (addrs : list Z) (fbn : Z) : Z :=
  cost V addrs (slot_of fbn) + (if fbn <? NDIRECT then 0 else cost V addrs 12).

Lemma slot_bounds bn : 0 <= bn < MAXFILE -> 0 <= slot_of bn < nslots /\ slot_of bn <> 12.
Proof. change MAXFILE with 268. unfold slot_of, nslots. intros H. destruct (Z.ltb_spec bn 12); lia. Qed.

Lemma step_cost_laid V addrs off n1 : laid V addrs off -> 0 <= off < maxbytes -> 0 < n1 -> off mod BSIZE + n1 <= BSIZE ->
  step_cost V addrs (off / BSIZE) = nblk (off + n1) - nblk off.
Proof.
  intros [H1 H2] Hoff Hn1 Hfit. change maxbytes with 274432 in Hoff. specialize (H1 (off / BSIZE)). change MAXFILE with 268 in H1. unfold step_cost, cost, nblk, dblocks.
  change NDIRECT with 12 in *. change BSIZE with 1024 in *. specialize (H1 ltac:(zlia)). destruct (Z.eqb_spec (loc V addrs (slot_of (off / 1024))) 0), (Z.eqb_spec (loc V addrs 12) 0);
  destruct (Z.ltb_spec (off / 1024) 12), (Z.ltb_spec 12 ((off + n1 + 1024 - 1) / 1024)), (Z.ltb_spec 12 ((off + 1024 - 1) / 1024)); zlia.
Qed.

Lemma laid_step V addrs hs V' addrs' hs' a off n1 v : laid V addrs off -> 0 <= off < maxbytes -> 0 < n1 -> off mod BSIZE + n1 <= BSIZE ->
  mapped mk_sb nmeta V addrs hs V' addrs' hs' (slot_of (off / BSIZE)) a -> (off / BSIZE < NDIRECT -> loc V' addrs' 12 = loc V addrs 12) ->
  laid (upd V' a v) addrs' (off + n1).
Proof.
  intros [H1 H2] Hoff Hn1 Hfit Hm H12. destruct (slot_range off Hoff) as [Hk Hk12]. change maxbytes with 274432 in Hoff.
  pose proof (mp_slot _ _ _ _ _ _ _ _ _ _ Hm) as Es. pose proof (mp_block _ _ _ _ _ _ _ _ _ _ Hm) as Ha.
  assert (forall j, loc (upd V' a v) addrs' j = loc V' addrs' j) as Hloc.
  { intros j. rewrite <- Es. apply (loc_upd V' mk_sb nmeta); try done; [apply Hm|by rewrite Es]. }
  split; [intros bn Hbn|]; rewrite Hloc.
  - destruct (decide (bn = off / BSIZE)) as [->|Hne]; [rewrite Es; split; [done|change BSIZE with 1024 in *; zlia]|].
    destruct (slot_bounds bn Hbn) as [B1 B2]. rewrite (mp_others _ _ _ _ _ _ _ _ _ _ Hm); [|done|intros E; by apply slot_inj in E|done].
    rewrite H1 by done. change BSIZE with 1024 in *. zlia.
  - change NDIRECT with 12 in *. destruct (Z.ltb_spec (off / BSIZE) 12) as [Hlt|Hge]; [rewrite H12 by done; rewrite H2; change BSIZE with 1024 in *; zlia|].
    split; [|change BSIZE with 1024 in *; zlia]. intros E. exfalso. apply Ha. rewrite <- Es. unfold slot_of, loc in *. rewrite (proj2 (Z.ltb_ge (off / BSIZE) 12) Hge).
    rewrite (proj2 (Z.ltb_ge (off / BSIZE + 1) 13)) by lia. cbn in E. by rewrite E.
Qed.

Lemma file_sector_spec s V din fbn hs : holds s V -> file_ok V mk_sb nmeta (i_addrs din) -> 0 <= fbn < MAXFILE -> freeblock s + step_cost V (i_addrs din) fbn <= FSSIZE ->
  exists s' V' addrs' a, file_sector din fbn s = Ok (set_i_addrs addrs' din, a) s' /\ holds s' V' /\ freeblock s' = freeblock s + step_cost V (i_addrs din) fbn /\
    freeinode s' = freeinode s /\ mapped mk_sb nmeta V (i_addrs din) hs V' addrs' hs (slot_of fbn) a /\ (fbn < NDIRECT -> loc V' addrs' 12 = loc V (i_addrs din) 12).
Proof.
  intros H Hf Hfbn Hc. unfold file_sector, step_cost in *. change MAXFILE with 268 in Hfbn. change NDIRECT with 12 in *. unfold slot_of in *. destruct (Z.ltb_spec fbn 12) as [Hlt|Hge].
  - destruct (own_slot_spec s V din fbn hs H Hf) as (s' & V' & addrs' & E & H' & F1 & F2 & Hm & Ho); [lia|lia|]. rewrite (bind_Ok _ _ _ _ _ E).
    exists s', V', addrs', (byte_at addrs' fbn). split_and!; [done|done|lia|done|done|]. intros _. apply Ho; lia.
  - assert (0 <= cost V (i_addrs din) (fbn + 1)) as Hc0 by (unfold cost; by case_match).
    destruct (own_slot_spec s V din 12 hs H Hf) as (s1 & V1 & addrs1 & E & H1 & F1 & F2 & Hm & Ho); [lia|lia|]. rewrite (bind_Ok _ _ _ _ _ E). cbn [i_addrs set_i_addrs].
    pose proof (mp_block _ _ _ _ _ _ _ _ _ _ Hm) as Hi. assert (cost V1 addrs1 (13 + (fbn - 12)) = cost V (i_addrs din) (fbn + 1)) as Ec.
    { unfold cost. rewrite Ho by lia. replace (13 + (fbn - 12)) with (fbn + 1) by lia. done. }
    destruct (own_entry_spec s1 V1 addrs1 (fbn - 12) hs H1 (mp_file _ _ _ _ _ _ _ _ _ _ Hm) Hi) as (s2 & V2 & a & E2 & H2 & F3 & F4 & Hm2); [lia|lia|].
    exists s2, V2, addrs1, a. replace (fbn + 1) with (13 + (fbn - 12)) in * by lia. split_and!; [|done|lia|congruence| |intros; lia].
    + unfold own_entry in E2. destruct (rsect (byte_at addrs1 12) s1) as [ind s1'| |] eqn:Er; [|by unfold bind in E2; rewrite Er in E2|by unfold bind in E2; rewrite Er in E2].
      rewrite (bind_Ok _ _ _ _ _ Er) in E2. rewrite (bind_Ok _ _ _ _ _ Er). revert E2. unfold bind. case_match; [|done|done]. by intros [= -> ->].
    + pose proof (holds_nfree _ _ H) as N0. pose proof (holds_nfree _ _ H2) as N2. apply (mapped_trans mk_sb nmeta V (i_addrs din) hs V1 addrs1 hs (byte_at addrs1 12)); try done; [unfold nslots; lia| |lia].
      assert (0 <= cost V (i_addrs din) 12 <= 1 /\ cost V (i_addrs din) (13 + (fbn - 12)) <= 1) by (unfold cost; split; case_match; lia). lia.
Qed.

(** ** iappend *)

Lemma nblk_mono a b : 0 <= a <= b -> nblk a <= nblk b.
Proof.
  unfold nblk, dblocks. change NDIRECT with 12. change BSIZE with 1024. intros H.
  destruct (Z.ltb_spec 12 ((a + 1024 - 1) / 1024)), (Z.ltb_spec 12 ((b + 1024 - 1) / 1024)); zlia.
Qed.

Lemma byte_at_take_drop (p : list Z) n j : (n <= length p)%nat -> 0 <= j ->
  byte_at p j = if decide (j < Z.of_nat n) then byte_at (take n p) j else byte_at (drop n p) (j - Z.of_nat n).
Proof.
  intros Hn Hj. unfold byte_at. case_decide; [by rewrite lookup_take_lt by lia|]. rewrite lookup_drop. do 2 f_equal. lia.
Qed.

(** One turn of the loop: the part of [p] that fits in the block. *)
Lemma iappend_step s V din off p hs : holds s V -> file_ok V mk_sb nmeta (i_addrs din) -> laid V (i_addrs din) off -> 0 <= off < maxbytes -> p <> [] ->
  let n1 := Z.min (Z.of_nat (length p)) (BSIZE - off mod BSIZE) in freeblock s + nblk (off + n1) - nblk off <= FSSIZE ->
  exists s' V' addrs' hs', (forall fuel, iappend_loop (S fuel) din off p s = iappend_loop fuel (set_i_addrs addrs' din) (off + n1) (drop (Z.to_nat n1) p) s') /\
    holds s' V' /\ freeblock s' = freeblock s + nblk (off + n1) - nblk off /\ freeinode s' = freeinode s /\ wrote mk_sb nmeta V (i_addrs din) hs V' addrs' hs' 1 /\
    laid V' addrs' (off + n1) /\ forall o, 0 <= o < maxbytes -> fbyte V' addrs' o = if decide (off <= o < off + n1) then byte_at (take (Z.to_nat n1) p) (o - off) else fbyte V (i_addrs din) o.
Proof.
  intros H Hf Hl Hoff Hp n1 Hc. assert (0 < Z.of_nat (length p)) as Hp0 by (destruct p; [done|cbn; lia]).
  assert (0 < n1 <= Z.of_nat (length p) /\ off mod BSIZE + n1 <= BSIZE) as [Hn1 Hfit] by (unfold n1; change BSIZE with 1024; zlia).
  rewrite <- Z.add_sub_assoc, <- (step_cost_laid V (i_addrs din) off n1) in Hc |- * by (done || lia).
  assert (0 <= off / BSIZE < MAXFILE) as Hfbn by (change maxbytes with 274432 in Hoff; change BSIZE with 1024; change MAXFILE with 268; zlia).
  destruct (file_sector_spec s V din (off / BSIZE) hs H Hf Hfbn Hc) as (s1 & V1 & addrs1 & a & E1 & H1 & F1 & F2 & Hm & H12).
  destruct (slot_range off Hoff) as [Hk Hk12]. destruct (fi_data _ _ _ _ (mp_file _ _ _ _ _ _ _ _ _ _ Hm) (slot_of (off / BSIZE)) Hk) as [Ha Hu];
    rewrite ?(mp_slot _ _ _ _ _ _ _ _ _ _ Hm) in *; [apply Hm|]. change nmeta with 46 in Ha. change (sb_size mk_sb) with FSSIZE in Ha.
  rewrite (h_used _ _ H1), Z.ltb_lt in Hu by lia. assert (a <> bmap_block) as Hab by (unfold bmap_block; lia).
  pose proof (fs_sized _ _ _ (h_fs _ _ H1) a ltac:(change (sb_size mk_sb) with FSSIZE; lia)) as Hlen. change (Z.to_nat BSIZE) with 1024%nat in Hlen.
  assert (length (take (Z.to_nat n1) p) = Z.to_nat n1) as Ht by (rewrite length_take; lia).
  set (v := splice (V1 a) (off mod BSIZE) (take (Z.to_nat n1) p)). assert (length v = 1024%nat) as Hv by (unfold v; change BSIZE with 1024 in *; rewrite length_splice; zlia).
  destruct (wsect_spec s1 V1 a v H1) as (s2 & E2 & H2 & F3 & F4); [lia|lia|done|done|].
  exists s2, (upd V1 a v), addrs1, (add_block a hs). split_and!; [|done|lia|congruence|apply (wrote_step mk_sb nmeta V (i_addrs din) hs V1 addrs1 hs (slot_of (off / BSIZE))); (done || apply H)| |].
  - intros fuel. cbn [iappend_loop]. rewrite (proj2 (Z.ltb_lt 0 _)) by done. cbn [negb]. rewrite (proj2 (Z.ltb_lt (off / BSIZE) MAXFILE)) by lia. cbn [negb].
    rewrite (bind_Ok _ _ _ _ _ E1). cbn [fst snd]. rewrite (bind_Ok _ _ _ _ _ (rsect_spec s1 V1 a H1 ltac:(lia) Hab)). change maxbytes with 274432 in Hoff. unfold n1, v in *. change BSIZE with 1024 in *.
    assert (u32 ((off / 1024 + 1) * 1024 - off) = 1024 - off mod 1024) as -> by (unfold u32; rewrite Z.mod_small; zlia).
    replace (off - off / 1024 * 1024) with (off mod 1024) by zlia. rewrite (bind_Ok _ _ _ _ _ E2). f_equal. unfold u32. apply Z.mod_small. zlia.
  - apply (laid_step V (i_addrs din) hs V1 addrs1 hs); (done || lia).
  - intros o Ho. unfold v. rewrite (content_step mk_sb nmeta V (i_addrs din) hs V1 addrs1 hs a off); try done; try apply H; rewrite Ht, Z2Nat.id by lia; (done || lia).
Qed.

Lemma iappend_loop_spec fuel : forall s V din off p hs, holds s V -> file_ok V mk_sb nmeta (i_addrs din) -> laid V (i_addrs din) off -> 0 <= off ->
  let e := off + Z.of_nat (length p) in e <= maxbytes -> freeblock s + nblk e - nblk off <= FSSIZE -> (length p < fuel)%nat ->
  exists s' V' addrs' hs' c, iappend_loop fuel din off p s = Ok (set_i_addrs addrs' din, e) s' /\ holds s' V' /\ freeblock s' = freeblock s + nblk e - nblk off /\
    freeinode s' = freeinode s /\ wrote mk_sb nmeta V (i_addrs din) hs V' addrs' hs' c /\ laid V' addrs' e /\
    forall o, 0 <= o < maxbytes -> fbyte V' addrs' o = if decide (off <= o < e) then byte_at p (o - off) else fbyte V (i_addrs din) o.
Proof.
  induction fuel as [|fuel IH]; intros s V din off p hs H Hf Hl Hoff e He Hc Hfuel; [lia|]. destruct (decide (p = [])) as [->|Hp].
  - exists s, V, (i_addrs din), hs, 0%nat. unfold e in *. cbn [length] in *. rewrite Z.add_0_r in *. split_and!; [by destruct din|done|lia|done|apply wrote_refl; [apply H|done]|done|].
    intros o Ho. by rewrite decide_False by lia.
  - assert (0 < Z.of_nat (length p)) as Hp0 by (destruct p; [done|cbn; lia]). set (n1 := Z.min (Z.of_nat (length p)) (BSIZE - off mod BSIZE)).
    assert (0 < n1 <= Z.of_nat (length p)) as Hn1 by (unfold n1; change BSIZE with 1024; zlia).
    pose proof (nblk_mono (off + n1) e ltac:(lia)) as Hmono.
    destruct (iappend_step s V din off p hs H Hf Hl) as (s1 & V1 & addrs1 & hs1 & E1 & H1 & F1 & F2 & W1 & L1 & C1); [lia|done|fold n1; lia|]. fold n1 in E1, F1, L1, C1.
    assert (off + n1 + Z.of_nat (length (drop (Z.to_nat n1) p)) = e) as Ee by (rewrite length_drop; lia).
    destruct (IH s1 V1 (set_i_addrs addrs1 din) (off + n1) (drop (Z.to_nat n1) p) hs1 H1) as (s2 & V2 & addrs2 & hs2 & c & E2 & H2 & F3 & F4 & W2 & L2 & C2);
      rewrite ?Ee; try done; [apply W1|lia|lia|rewrite length_drop; lia|]. rewrite Ee in *. cbn [i_addrs set_i_addrs] in *.
    exists s2, V2, addrs2, hs2, (1 + c)%nat. split_and!; [by rewrite E1|done|lia|congruence| |done|].
    + eapply wrote_trans; [done|done|]. done.
    + intros o Ho. rewrite C2, C1 by done. destruct (decide (off <= o)) as [Hle|Hgt]; [|repeat case_decide; (done || lia)].
      rewrite (byte_at_take_drop p (Z.to_nat n1) (o - off)), Z2Nat.id by lia. repeat case_decide; try done; try lia. f_equal. lia.
Qed.

(** ** The files that mkfs builds

    The image holds a list of files, one per inode from the root directory on:
    [built s V A] says that the view [V] of the image holds the files [A], each
    with its type and content, in blocks of its own, and nothing else. *)

(** *** struct dinode in its block *)

Lemma peek_window n w data o k : (0 <= k) -> k + Z.of_nat n <= Z.of_nat w -> 0 <= o -> peek n data (o + k) = peek n (take w (drop (Z.to_nat o) data)) k.
Proof.
  intros Hk Hw Ho. unfold peek. f_equal. rewrite skipn_firstn_comm, drop_drop, take_take, Nat.min_l by lia. f_equal. f_equal. lia.
Qed.

Lemma load_dinode_window data o x : 0 <= o -> load_dinode data o x = load_dinode (take 64 (drop (Z.to_nat o) data)) 0 x.
Proof.
  intros Ho. unfold load_dinode, dinode_addrs. f_equal.
  - apply list_fmap_ext. intros i k Hi. apply lookup_seq in Hi as [-> Hi]. rewrite <- (Z.add_assoc o), (peek_window 4 64) by lia. done.
  - rewrite !(peek_window _ 64 data o) by lia. pose proof (peek_window 2 64 data o 0) as E. rewrite Z.add_0_r in E. rewrite E by lia. done.
Qed.

Lemma window_splice data o o' new : length new = 64%nat -> 0 <= o -> 0 <= o' -> o' + 64 <= Z.of_nat (length data) -> o + 64 <= o' \/ o' + 64 <= o ->
  take 64 (drop (Z.to_nat o) (splice data o' new)) = take 64 (drop (Z.to_nat o) data).
Proof.
  intros Hn Ho Ho' Hl Hor. apply list_eq. intros j. destruct (decide (j < 64)%nat) as [Hj|Hj]; [|by rewrite !lookup_take_ge by lia].
  rewrite !lookup_take_lt, !lookup_drop by lia. unfold splice. destruct Hor as [Hor|Hor].
  - rewrite lookup_app_l by (rewrite length_take; lia). by rewrite lookup_take_lt by lia.
  - rewrite lookup_app_r by (rewrite length_take; lia). rewrite length_take, lookup_app_r by lia. rewrite lookup_drop. f_equal. lia.
Qed.

(** The inode as the image has it. *)
Definition dinode_at (V : Z -> list Z) (inum : Z) : inode := load_dinode (V (iblock mk_sb inum)) (ioffset inum) inode0.
Definition faddrs (V : Z -> list Z) (inum : Z) : list Z := i_addrs (dinode_at V inum).

(** The bytes of its struct dinode, which determine it. *)
Definition dwindow (V : Z -> list Z) (inum : Z) : list Z := take 64 (drop (Z.to_nat (ioffset inum)) (V (iblock mk_sb inum))).

Lemma dinode_window V V' j : dwindow V' j = dwindow V j -> dinode_at V' j = dinode_at V j.
Proof. intros E. unfold dinode_at. pose proof (ioffset_range j). rewrite !(load_dinode_window _ (ioffset j)) by lia. unfold dwindow in E. by rewrite E. Qed.

(** The inodes lie in thirteen blocks. *)
Definition max_inode : Z := 208.

Lemma iblock_range inum : 0 <= inum < max_inode -> iblock mk_sb inum = 32 + inum / 16 /\ 32 <= iblock mk_sb inum < 45.
Proof. unfold max_inode. intros H. unfold iblock, IBLOCK. change IPB with 16. change (sb_inodestart mk_sb) with 32. unfold u32. rewrite Z.mod_small; zlia. Qed.

Lemma inode_home_range inum : 0 <= inum < max_inode -> inode_home mk_sb nmeta inum.
Proof.
  intros H. destruct (iblock_range inum H) as [_ Hr]. split; [change nmeta with 46; lia|]. intros c Hc. change (sb_size mk_sb) with FSSIZE in Hc. rewrite mk_bblock by done. unfold bmap_block. lia.
Qed.

Lemma rinode_block s V inum : holds s V -> 0 <= inum < max_inode -> rsect (iblock mk_sb inum) s = Ok (V (iblock mk_sb inum)) s.
Proof. intros H Hi. destruct (iblock_range inum Hi) as [_ Hr]. apply rsect_spec; [done|change FSSIZE with 1000; lia|unfold bmap_block; lia]. Qed.

Lemma rinode_spec s V inum : holds s V -> 0 <= inum < max_inode -> rinode inum s = Ok (dinode_at V inum) s.
Proof.
  intros H Hi. unfold rinode. change (IBLOCK inum mk_sb) with (iblock mk_sb inum).
  rewrite (bind_Ok _ _ _ _ _ (rinode_block s V inum H Hi)). done.
Qed.

Lemma winode_spec s V inum ino : holds s V -> 0 <= inum < max_inode -> dinode_range ino ->
  exists s' V', winode inum ino s = Ok tt s' /\ holds s' V' /\ freeblock s' = freeblock s /\ freeinode s' = freeinode s /\
    V' = upd V (iblock mk_sb inum) (splice (V (iblock mk_sb inum)) (ioffset inum) (dinode_bytes ino)) /\
    dinode_at V' inum = Inode 0 0 0 sleeplock0 0 (i_type ino) (i_major ino) (i_minor ino) (i_nlink ino) (i_size ino) (i_addrs ino) /\
    dwindow V' inum = dinode_bytes ino /\ forall j, 0 <= j < max_inode -> j <> inum -> dwindow V' j = dwindow V j.
Proof.
  intros H Hi Hdr. destruct (iblock_range inum Hi) as [Eb Hr]. pose proof (ioffset_range inum) as Ho. pose proof (dr_addrs _ Hdr) as [Hla _].
  pose proof (length_dinode_bytes ino Hla) as Hl64. assert (length (V (iblock mk_sb inum)) = 1024%nat) as Hlen by (apply (fs_sized _ _ _ (h_fs _ _ H)); change (sb_size mk_sb) with 1000; lia).
  set (V' := upd V _ _). pose proof (h_first _ _ H) as Hfb. change nmeta with 46 in Hfb.
  destruct (wsect_spec s V (iblock mk_sb inum) (splice (V (iblock mk_sb inum)) (ioffset inum) (dinode_bytes ino)) H) as (s' & E & H' & F1 & F2);
    [lia|change FSSIZE with 1000; lia|unfold bmap_block; lia|rewrite length_splice; [done|lia|lia]|].
  exists s', V'. split_and!; [|done|done|done|done| | |].
  - unfold winode. change (IBLOCK inum mk_sb) with (iblock mk_sb inum).
    rewrite (bind_Ok _ _ _ _ _ (rinode_block s V inum H Hi)). done.
  - unfold dinode_at, V'. rewrite upd_same, dinode_roundtrip by (done || lia). done.
  - unfold dwindow, V'. rewrite upd_same, <- Hl64. apply take_splice; lia.
  - intros j Hj Hne. destruct (iblock_range j Hj) as [Ej Hrj]. unfold dwindow, V', upd. case_decide as E'; [|done].
    rewrite E' in *. pose proof (ioffset_range j) as Hoj. rewrite window_splice; try done; try lia.
    rewrite Eb in Ej. unfold ioffset. change IPB with 16. change sizeof_dinode with 64. zlia.
Qed.

(** *** A file of the image *)

(** The inode of a file of [n] bytes with one link. *)
Definition file_inode (type n : Z) (addrs : list Z) : inode :=
  Inode 0 0 0 sleeplock0 0 type 0 0 1 n addrs.

Definition size_of (d : list Z) : Z := Z.of_nat (length d).

(** The blocks [addrs] hold the content [d]; the rest of the last one is zero. *)
Record placed (V : Z -> list Z) (addrs d : list Z) : Prop := {
  pl_file : file_ok V mk_sb nmeta addrs;
  pl_laid : laid V addrs (size_of d);
  pl_data : forall o, 0 <= o < maxbytes -> fbyte V addrs o = byte_at d o }.

(** Inode [inum] is a file of type [t] with the content [d]. *)
Record stored (V : Z -> list Z) (inum t : Z) (d : list Z) : Prop := {
  so_inode : dinode_at V inum = file_inode t (size_of d) (faddrs V inum);
  so_bytes : dwindow V inum = dinode_bytes (dinode_at V inum);
  so_type : -32768 <= t < 32768;
  so_placed : placed V (faddrs V inum) d;
  so_max : size_of d <= maxbytes }.

Lemma so_file V inum t d : stored V inum t d -> file_ok V mk_sb nmeta (faddrs V inum).
Proof. intros H. apply H. Qed.

Lemma file_ok_addrs V addrs : file_ok V mk_sb nmeta addrs -> Forall (fun a => 0 <= a < 2 ^ 32) addrs.
Proof.
  intros Hf. pose proof (fi_len _ _ _ _ Hf) as Hlen. apply Forall_lookup. intros k a Hk. pose proof (lookup_lt_Some _ _ _ Hk) as Hlt.
  assert (loc V addrs (Z.of_nat k) = a) as E. { unfold loc, byte_at. rewrite (proj2 (Z.ltb_lt _ 13)) by lia. by rewrite Nat2Z.id, Hk. }
  destruct (decide (a = 0)) as [->|Hne]; [lia|]. destruct (fi_data _ _ _ _ Hf (Z.of_nat k)) as [Hr _]; [unfold nslots; lia|by rewrite E|].
  rewrite E in Hr. change nmeta with 46 in Hr. change (sb_size mk_sb) with 1000 in Hr. lia.
Qed.

Lemma file_inode_range V t n addrs : file_ok V mk_sb nmeta addrs -> -32768 <= t < 32768 -> 0 <= n <= maxbytes -> dinode_range (file_inode t n addrs).
Proof.
  intros Hf Ht Hn. change maxbytes with 274432 in Hn. split; cbn; try done; try lia. split; [apply Hf|by apply (file_ok_addrs V)].
Qed.

(** Two views with the same blocks of a file have the same file. *)
Lemma loc_same V V' addrs k : (byte_at addrs 12 <> 0 -> V' (byte_at addrs 12) = V (byte_at addrs 12)) -> loc V' addrs k = loc V addrs k.
Proof. intros H. unfold loc. destruct (k <? 13); [done|]. destruct (Z.eqb_spec (byte_at addrs 12) 0) as [|E]; [done|]. by rewrite H. Qed.

Definition same_blocks (V V' : Z -> list Z) (addrs : list Z) : Prop :=
  forall k, 0 <= k < nslots -> loc V addrs k <> 0 -> V' (loc V addrs k) = V (loc V addrs k).

Lemma same_blocks_loc V V' addrs k : same_blocks V V' addrs -> loc V' addrs k = loc V addrs k.
Proof. intros H. apply loc_same. intros E. apply (H 12); [unfold nslots; lia|done]. Qed.

Lemma placed_kept V V' addrs d : placed V addrs d -> same_blocks V V' addrs ->
  (forall b, 0 <= b < FSSIZE -> used V mk_sb b = true -> used V' mk_sb b = true) -> placed V' addrs d.
Proof.
  intros [[K1 K2 K3] [L1 L2] H5] Hs Hu. assert (forall k, loc V' addrs k = loc V addrs k) as Hloc by (intros k; by apply same_blocks_loc). split.
  - split; [done| |].
    + intros k Hk. rewrite Hloc. intros Hnz. destruct (K2 k Hk Hnz) as [R1 R2]. split; [done|]. apply Hu; [|done]. change nmeta with 46 in R1. change (sb_size mk_sb) with FSSIZE in R1. lia.
    + intros k j Hk Hj. rewrite !Hloc. by apply K3.
  - split; [intros bn Hbn|]; rewrite Hloc; auto.
  - intros o Ho. rewrite <- H5 by done. unfold fbyte. rewrite Hloc. destruct (slot_range o Ho) as [Hk _].
    destruct (Z.eqb_spec (loc V addrs (slot_of (o / BSIZE))) 0) as [|E]; [done|]. by rewrite Hs.
Qed.

Lemma stored_kept V V' inum t d : stored V inum t d -> dwindow V' inum = dwindow V inum -> same_blocks V V' (faddrs V inum) ->
  (forall b, 0 <= b < FSSIZE -> used V mk_sb b = true -> used V' mk_sb b = true) -> stored V' inum t d.
Proof.
  intros [H1 H0 H2 H3 H4] Ew Hs Hu. pose proof (dinode_window V V' inum Ew) as Ed. assert (faddrs V' inum = faddrs V inum) as Ea by (unfold faddrs; by rewrite Ed).
  split; rewrite ?Ea, ?Ed; try done; [by rewrite Ew|by apply (placed_kept V)].
Qed.

(** *** The whole image *)

Definition sb_block : list Z := splice zeros 0 (superblock_bytes mk_sb).
Definition inum_of (i : nat) : Z := 1 + Z.of_nat i.
Definition blocks_of (A : list (Z * list Z)) : Z := foldr (fun f n => nblk (size_of f.2) + n) 0 A.

Record built (s : mkst) (V : Z -> list Z) (A : list (Z * list Z)) : Prop := {
  bu_holds : holds s V;
  bu_next : freeinode s = inum_of (length A);
  bu_room : inum_of (length A) <= max_inode;
  bu_files : forall i t d, A !! i = Some (t, d) -> stored V (inum_of i) t d;
  bu_apart : forall i j k l, (i < length A)%nat -> (j < length A)%nat -> i <> j -> 0 <= k < nslots -> 0 <= l < nslots ->
    loc V (faddrs V (inum_of i)) k <> 0 -> loc V (faddrs V (inum_of i)) k <> loc V (faddrs V (inum_of j)) l;
  bu_blocks : freeblock s = nmeta + blocks_of A;
  bu_free : forall inum, inum_of (length A) <= inum < max_inode -> dinode_at V inum = inode0;
  bu_sb : V 1 = sb_block;
  bu_log : forall b, 2 <= b < 2 + nlog -> V b = zeros }.

Lemma blocks_of_insert A i t d d' : A !! i = Some (t, d) -> blocks_of (<[i := (t, d')]> A) = blocks_of A + nblk (size_of d') - nblk (size_of d).
Proof.
  revert i. induction A as [|f A IH]; intros [|i] Hi; [done|done|injection Hi as ->; cbn; lia|].
  change (nblk (size_of f.2) + blocks_of (<[i := (t, d')]> A) = nblk (size_of f.2) + blocks_of A + nblk (size_of d') - nblk (size_of d)). rewrite (IH i Hi). lia.
Qed.

Lemma blocks_of_app A B : blocks_of (A ++ B) = blocks_of A + blocks_of B.
Proof. induction A as [|f A IH]; [done|]. cbn. change (nblk (size_of f.2) + blocks_of (A ++ B) = nblk (size_of f.2) + blocks_of A + blocks_of B). rewrite IH. lia. Qed.

Lemma byte_at_app (d p : list Z) o : 0 <= o -> byte_at (d ++ p) o = if decide (size_of d <= o < size_of d + size_of p) then byte_at p (o - size_of d) else byte_at d o.
Proof.
  intros Ho. unfold byte_at, size_of. case_decide as E; [rewrite lookup_app_r by lia; do 2 f_equal; lia|]. destruct (decide (o < Z.of_nat (length d))); [by rewrite lookup_app_l by lia|].
  rewrite !lookup_ge_None_2 by (rewrite ?length_app; lia). done.
Qed.

Lemma inum_of_range s V A i : built s V A -> (i < length A)%nat -> 0 <= inum_of i < max_inode.
Proof. intros H Hi. pose proof (bu_room _ _ _ H). unfold inum_of in *. lia. Qed.

(** *** iappend *)

(** What a write to file [i] keeps of the other files. *)
Section Append.
Context (s : mkst) (V V1 V2 : Z -> list Z) (A : list (Z * list Z)) (i : nat) (t : Z) (d p : list Z) (addrs1 : list Z) (hs1 : list Z) (c : nat).
Context (HB : built s V A) (Hi : A !! i = Some (t, d)).
Context (W : wrote mk_sb nmeta V (faddrs V (inum_of i)) [] V1 addrs1 hs1 c).
Context (v : list Z) (Hv : length v = 1024%nat) (E2 : V2 = upd V1 (iblock mk_sb (inum_of i)) v).
Context (Hd2 : faddrs V2 (inum_of i) = addrs1) (Ho2 : forall j, 0 <= j < max_inode -> j <> inum_of i -> dwindow V2 j = dwindow V1 j).

Lemma append_home : inode_home mk_sb nmeta (inum_of i) /\ 32 <= iblock mk_sb (inum_of i) < 45.
Proof.
  pose proof (inum_of_range _ _ _ i HB (lookup_lt_Some _ _ _ Hi)) as Hr. split; [by apply inode_home_range|by apply iblock_range].
Qed.

Lemma append_high b : nmeta <= b -> V2 b = V1 b.
Proof. intros Hb. destruct append_home as [_ Hr]. rewrite E2. apply upd_other. change nmeta with 46 in Hb. lia. Qed.

Lemma append_low b : 0 <= b < nmeta -> b <> bmap_block -> b <> iblock mk_sb (inum_of i) -> V2 b = V b.
Proof.
  intros Hb Hm Hne. rewrite E2, upd_other by done. apply (wr_meta _ _ _ _ _ _ _ _ _ W); [done|]. intros k Hk. by rewrite mk_bblock.
Qed.

Lemma append_used b : 0 <= b < FSSIZE -> used V mk_sb b = true -> used V2 mk_sb b = true.
Proof.
  intros Hb Hu. unfold used. rewrite E2, upd_other by (rewrite mk_bblock by done; unfold bmap_block; destruct append_home; lia). by apply (wr_used _ _ _ _ _ _ _ _ _ W).
Qed.

Lemma append_dinode j : 0 <= j < max_inode -> j <> inum_of i -> dwindow V2 j = dwindow V j.
Proof.
  intros Hj Hne. rewrite Ho2 by done. unfold dwindow. destruct (iblock_range j Hj) as [_ Hr]. rewrite (wr_meta _ _ _ _ _ _ _ _ _ W); [done|change nmeta with 46; lia|].
  intros k Hk. rewrite mk_bblock by done. unfold bmap_block. lia.
Qed.

Lemma append_blocks j : (j < length A)%nat -> j <> i -> same_blocks V V2 (faddrs V (inum_of j)).
Proof.
  intros Hj Hne k Hk Hnz. destruct (lookup_lt_is_Some_2 A j Hj) as [[t' d'] Ej]. pose proof (bu_files _ _ _ HB _ _ _ Ej) as Hs.
  destruct (fi_data _ _ _ _ (so_file _ _ _ _ Hs) k Hk Hnz) as [R1 R2]. rewrite append_high by lia. apply (wr_other _ _ _ _ _ _ _ _ _ W); try done.
  intros l Hl E. apply (bu_apart _ _ _ HB j i k l Hj (lookup_lt_Some _ _ _ Hi) Hne Hk Hl Hnz). done.
Qed.

Lemma append_other_loc j k : (j < length A)%nat -> j <> i -> faddrs V2 (inum_of j) = faddrs V (inum_of j) /\ loc V2 (faddrs V2 (inum_of j)) k = loc V (faddrs V (inum_of j)) k.
Proof.
  intros Hj Hne. assert (faddrs V2 (inum_of j) = faddrs V (inum_of j)) as E.
  { unfold faddrs. rewrite (dinode_window V V2); [done|]. apply append_dinode; [by apply (inum_of_range s V A)|]. unfold inum_of. lia. }
  split; [done|]. rewrite E. by apply same_blocks_loc, append_blocks.
Qed.

Lemma append_own_loc k : loc V2 addrs1 k = loc V1 addrs1 k.
Proof.
  apply loc_same. intros E. destruct (ind_data _ _ _ _ (wr_file _ _ _ _ _ _ _ _ _ W) E) as [R _]. apply append_high. lia.
Qed.

(** A block of file [i] is a block of no other file. *)
Lemma append_apart j k l : (j < length A)%nat -> j <> i -> 0 <= k < nslots -> 0 <= l < nslots -> loc V2 addrs1 k <> 0 ->
  loc V2 addrs1 k <> loc V2 (faddrs V2 (inum_of j)) l.
Proof.
  intros Hj Hne Hk Hl Hnz. rewrite (proj2 (append_other_loc j l Hj Hne)), append_own_loc in *. intros E. pose proof (lookup_lt_Some _ _ _ Hi) as Hil.
  destruct (decide (loc V (faddrs V (inum_of i)) k = 0)) as [E0|E0].
  - pose proof (wr_fresh _ _ _ _ _ _ _ _ _ W k Hk E0 Hnz) as Hfr. destruct (lookup_lt_is_Some_2 A j Hj) as [[t' d'] Ej].
    destruct (fi_data _ _ _ _ (so_file _ _ _ _ (bu_files _ _ _ HB _ _ _ Ej)) l Hl) as [_ Hu]; congruence.
  - rewrite (wr_own _ _ _ _ _ _ _ _ _ W) in E by done. by apply (bu_apart _ _ _ HB i j k l).
Qed.

Lemma append_stored t' d' j : A !! j = Some (t', d') -> j <> i -> stored V2 (inum_of j) t' d'.
Proof.
  intros Ej Hne. pose proof (lookup_lt_Some _ _ _ Ej) as Hj. apply (stored_kept V); [by apply (bu_files _ _ _ HB)| |by apply append_blocks|apply append_used].
  apply append_dinode; [by apply (inum_of_range s V A)|unfold inum_of; lia].
Qed.

Lemma append_all_apart (j1 j2 : nat) k l : (j1 < length A)%nat -> (j2 < length A)%nat -> j1 <> j2 -> 0 <= k < nslots -> 0 <= l < nslots ->
  loc V2 (faddrs V2 (inum_of j1)) k <> 0 -> loc V2 (faddrs V2 (inum_of j1)) k <> loc V2 (faddrs V2 (inum_of j2)) l.
Proof.
  intros H1 H2 Hne Hk Hl Hnz. destruct (decide (j1 = i)) as [->|N1]; [rewrite Hd2 in *; by apply append_apart|].
  destruct (decide (j2 = i)) as [->|N2].
  - rewrite Hd2. intros E. rewrite E in Hnz. by apply (append_apart j1 l k).
  - rewrite (proj2 (append_other_loc j1 k H1 N1)), (proj2 (append_other_loc j2 l H2 N2)) in *. by apply (bu_apart _ _ _ HB).
Qed.
End Append.

Lemma stored_size V inum t d : stored V inum t d -> i_size (dinode_at V inum) = size_of d.
Proof. intros H. by rewrite (so_inode _ _ _ _ H). Qed.

Lemma iappend_spec s V A i t d p : built s V A -> A !! i = Some (t, d) -> size_of (d ++ p) <= maxbytes -> nmeta + blocks_of (<[i := (t, d ++ p)]> A) <= FSSIZE ->
  exists s' V', iappend (inum_of i) p s = Ok tt s' /\ built s' V' (<[i := (t, d ++ p)]> A).
Proof.
  intros HB Hi Hmax Hblk. pose proof HB as [H1 H2 H3 H4 H5 H6 H7 H8 H9]. pose proof (H4 _ _ _ Hi) as Hs. pose proof Hs as [S1 _ S2 [S3 S4 S5] S6].
  pose proof (lookup_lt_Some _ _ _ Hi) as Hlt. pose proof (inum_of_range _ _ _ i HB Hlt) as Hr. set (inum := inum_of i) in *.
  rewrite (blocks_of_insert A i t d (d ++ p) Hi) in Hblk. assert (size_of (d ++ p) = size_of d + size_of p) as Ez by (unfold size_of; rewrite length_app; lia). rewrite Ez in *.
  destruct (iappend_loop_spec (S (length p)) s V (dinode_at V inum) (size_of d) p [] H1 S3 S4) as (s1 & V1 & addrs1 & hs1 & c & E1 & HH1 & F1 & F2 & W & L & C);
    [unfold size_of; lia|done|fold (size_of p); lia|lia|]. fold (size_of p) in E1, F1, L, C.
  assert (set_i_size (size_of d + size_of p) (set_i_addrs addrs1 (dinode_at V inum)) = file_inode t (size_of d + size_of p) addrs1) as Ei by (by rewrite S1).
  destruct (winode_spec s1 V1 inum (file_inode t (size_of d + size_of p) addrs1) HH1 Hr) as (s2 & V2 & E2 & HH2 & F3 & F4 & EV2 & Hd2 & Hw2 & Ho2).
  { apply (file_inode_range V1); [apply W|done|unfold size_of in *; lia]. }
  assert (faddrs V2 inum = addrs1) as Ea by (unfold faddrs; by rewrite Hd2). set (v := splice _ _ _) in EV2.
  assert (length v = 1024%nat) as Hv. { pose proof (fs_sized _ _ _ (h_fs _ _ HH2) (iblock mk_sb inum)) as K. rewrite EV2, upd_same in K. apply K. destruct (iblock_range inum Hr). change (sb_size mk_sb) with 1000. lia. }
  destruct (iblock_free mk_sb nmeta V1 v inum (h_fs _ _ HH1) (inode_home_range _ Hr) Hv) as [_ G]. destruct (G addrs1 (wr_file _ _ _ _ _ _ _ _ _ W)) as (G1 & G2 & G3). rewrite <- EV2 in G1, G2, G3.
  exists s2, V2. split.
  { unfold iappend. rewrite (bind_Ok _ _ _ _ _ (rinode_spec s V inum H1 Hr)), (stored_size _ _ _ _ Hs), (bind_Ok _ _ _ _ _ E1). cbn [fst snd]. by rewrite Ei. }
  split; rewrite ?length_insert; try done.
  - congruence.
  - intros j t' d' Hj. destruct (decide (j = i)) as [->|Hne].
    + rewrite list_lookup_insert_eq in Hj by done. injection Hj as <- <-. fold inum. split; rewrite ?Ea, ?Ez; try done; [by rewrite Hw2, Hd2|]. split; rewrite ?Ez; [done| |].
      * destruct L as [L1 L2]. split; [intros bn Hbn|]; rewrite G2; auto.
      * intros o Ho. rewrite G3, C, byte_at_app, <- S5 by (done || lia). done.
    + rewrite list_lookup_insert_ne in Hj by done. by eapply (append_stored s V V1 V2 A i).
  - eapply (append_all_apart s V V1 V2 A i); done.
  - rewrite (blocks_of_insert A i t d (d ++ p) Hi), Ez. lia.
  - intros j Hj. rewrite (dinode_window V V2); [by apply H7|]. apply (append_dinode V V1 V2 i addrs1 hs1 c W v Hv Ho2); unfold inum_of in *; lia.
  - destruct (iblock_range inum Hr). rewrite (append_low V V1 V2 i addrs1 hs1 c W v EV2); [done|done|done|fold inum; lia].
  - intros b Hb. destruct (iblock_range inum Hr). change (2 <= b < 32) in Hb. rewrite (append_low V V1 V2 i addrs1 hs1 c W v EV2); [by apply H9|change nmeta with 46; lia|unfold bmap_block; lia|fold inum; lia].
Qed.

(** *** ialloc *)

Lemma loc_none V k : 0 <= k -> loc V (replicate 13 0) k = 0.
Proof.
  intros Hk. unfold loc. change (byte_at (replicate 13 0) 12 =? 0) with true. destruct (k <? 13); [|done]. unfold byte_at.
  destruct (replicate 13 0 !! Z.to_nat k) eqn:E; [|done]. by apply lookup_replicate in E as [-> _].
Qed.

Lemma stored_empty V inum t : dinode_at V inum = file_inode t 0 (replicate 13 0) -> dwindow V inum = dinode_bytes (dinode_at V inum) -> -32768 <= t < 32768 -> stored V inum t [].
Proof.
  intros E Ew Ht. assert (faddrs V inum = replicate 13 0) as Ea by (unfold faddrs; by rewrite E). split; rewrite ?Ea; try done. split.
  - split; [done| |]; intros k; [intros Hk; by rewrite loc_none by lia|]. intros j Hk Hj. by rewrite loc_none by lia.
  - split; [intros bn Hbn; destruct (slot_bounds bn Hbn)|]; rewrite loc_none by lia; (split; [intros _|done]); change (size_of []) with 0; change NDIRECT with 12; change BSIZE with 1024; lia.
  - intros o Ho. destruct (slot_range o Ho). unfold fbyte. rewrite loc_none by lia. done.
Qed.

Lemma mk_ialloc_spec s V A t : built s V A -> inum_of (length A) < max_inode -> -32768 <= t < 32768 ->
  exists s' V', mk_ialloc t s = Ok (inum_of (length A)) s' /\ built s' V' (A ++ [(t, [])]).
Proof.
  intros HB Hroom Ht. pose proof HB as [H1 H2 H3 H4 H5 H6 H7 H8 H9]. set (n := inum_of (length A)) in *. assert (0 <= n) as Hn0 by (unfold n, inum_of; lia).
  unfold max_inode in *. assert (holds (set_freeinode (n + 1) s) V) as H1' by (by destruct H1; split).
  destruct (winode_spec _ V n (file_inode t 0 (replicate 13 0)) H1') as (s' & V' & E & HH & F1 & F2 & EV & Hd & Hw & Ho); [unfold max_inode; lia|by split; cbn; try lia; repeat constructor|].
  destruct (iblock_range n) as [_ Hrb]; [unfold max_inode; lia|]. assert (forall b, b <> iblock mk_sb n -> V' b = V b) as Hsame by (intros b Hb; rewrite EV; by apply upd_other).
  assert (forall b, 0 <= b < FSSIZE -> used V' mk_sb b = used V mk_sb b) as Hu.
  { intros b Hb. unfold used. rewrite mk_bblock by done. rewrite Hsame; [done|]. unfold bmap_block. lia. }
  assert (forall i, (i < length A)%nat -> dwindow V' (inum_of i) = dwindow V (inum_of i)) as Hdi by (intros i Hi; apply Ho; unfold n, inum_of, max_inode in *; lia).
  assert (forall i, (i < length A)%nat -> same_blocks V V' (faddrs V (inum_of i))) as Hsb.
  { intros i Hi k Hk Hnz. destruct (lookup_lt_is_Some_2 A i Hi) as [[t' d'] Ei]. destruct (fi_data _ _ _ _ (so_file _ _ _ _ (H4 _ _ _ Ei)) k Hk Hnz) as [R _].
    apply Hsame. change nmeta with 46 in R. lia. }
  assert (forall i k, (i < length A)%nat -> loc V' (faddrs V' (inum_of i)) k = loc V (faddrs V (inum_of i)) k) as Hloc.
  { intros i k Hi. unfold faddrs at 1. rewrite (dinode_window V V') by (by apply Hdi). by apply same_blocks_loc, Hsb. }
  assert (faddrs V' n = replicate 13 0) as Ea by (unfold faddrs; by rewrite Hd).
  exists s', V'. split.
  { unfold mk_ialloc. rewrite bind_gets, bind_modify, H2. assert (u32 (n + 1) = n + 1) as -> by (unfold u32; apply Z.mod_small; lia). unfold bind. change (set_i_addrs _ _) with (file_inode t 0 (replicate 13 0)). by rewrite E. }
  assert (forall i, (i < length (A ++ [(t, [])]))%nat -> (i < length A)%nat \/ i = length A) as Hcase by (intros i; rewrite length_app; cbn; lia).
  assert (inum_of (length (A ++ [(t, [])])) = n + 1) as En by (rewrite length_app; unfold n, inum_of; cbn; lia).
  split; rewrite ?En; try done.
  - unfold max_inode. lia.
  - intros i t' d' Hi. destruct (Hcase i (lookup_lt_Some _ _ _ Hi)) as [Hlt| ->].
    + rewrite lookup_app_l in Hi by done. apply (stored_kept V); [by apply H4|by apply Hdi|by apply Hsb|]. intros b Hb. by rewrite Hu.
    + rewrite lookup_app_r, Nat.sub_diag in Hi by lia. injection Hi as <- <-. fold n. apply stored_empty; [done|by rewrite Hw, Hd|done].
  - intros i j k l Hi Hj Hne Hk Hl. destruct (Hcase i Hi) as [Hi'| ->].
    + rewrite (Hloc i) by done. destruct (Hcase j Hj) as [Hj'| ->]; [rewrite (Hloc j) by done; by apply H5|]. fold n. rewrite Ea, loc_none by lia. done.
    + fold n. rewrite Ea, loc_none by lia. done.
  - rewrite blocks_of_app, F1. change (blocks_of [(t, [])]) with 0. change (freeblock (set_freeinode (n + 1) s)) with (freeblock s). lia.
  - intros j Hj. rewrite (dinode_window V V') by (apply Ho; unfold max_inode in *; lia). apply H7. unfold max_inode in *. lia.
  - rewrite Hsame by lia. done.
  - intros b Hb. change (2 <= b < 32) in Hb. rewrite Hsame by lia. by apply H9.
Qed.
