(* ===== verification/MkfsTheorems.v ===== *)
(** * What mkfs builds, from its arguments

    The files of the image as a function of the arguments, and the proof that
    mkfs builds them whenever they fit. *)

From S2P Require Import Prelude Layout Spinlock State Bio Log Fs CacheSpec LogSpec LogOps FsTx FsMap FsFile FsInode FsRead Mkfs MkfsSpec.

(** ** The files of the image *)

(** The content that the reads of an input file return. *)
Fixpoint content_of (reads : list (list Z)) : list Z :=
  match reads with
  | [] | [] :: _ => []
  | buf :: reads' => buf ++ content_of reads'
  end.

Definition in_data (f : input) : list Z := content_of (default [] (in_reads f)).

Definition entry (inum : Z) (name : list Z) : list Z := dirent_bytes (Dirent (u16 inum) (strncpy_bytes (Z.to_nat DIRSIZ) name)).

Fixpoint entries (inum : Z) (files : list input) : list Z :=
  match files with
  | [] => []
  | f :: files' => entry inum (plain (shortname (in_name f))) ++ entries (inum + 1) files'
  end.

(** The root directory and the input files, by inode number from 1 on. *)
Definition root_data (files : list input) : list Z := entry 1 (str ".") ++ entry 1 (str "..") ++ entries 2 files.
Definition image_files (files : list input) : list (Z * list Z) := (T_DIR, root_data files) :: ((fun f => (T_FILE, in_data f)) <$> files).

(** The files can be opened and have no directory in their names, and there are
    enough inodes and blocks. *)
Definition input_ok (f : input) : bool :=
  negb (bool_decide (slash ∈ shortname (in_name f))) && bool_decide (is_Some (in_reads f)).
Definition fits (files : list input) : bool :=
  forallb input_ok files && (inum_of (length (image_files files)) <=? NINODES) &&
  forallb (fun f => size_of f.2 <=? maxbytes) (image_files files) && (nmeta + blocks_of (image_files files) <=? FSSIZE).

(** ** Reading the input files *)

Lemma size_of_app d p : size_of (d ++ p) = size_of d + size_of p.
Proof. unfold size_of. rewrite length_app. lia. Qed.

Lemma size_of_pos d : 0 <= size_of d.
Proof. unfold size_of. lia. Qed.

Lemma copy_in_spec reads : forall s V A i t d, built s V A -> A !! i = Some (t, d) -> size_of (d ++ content_of reads) <= maxbytes ->
  nmeta + blocks_of (<[i := (t, d ++ content_of reads)]> A) <= FSSIZE ->
  exists s' V', copy_in (inum_of i) reads s = Ok tt s' /\ built s' V' (<[i := (t, d ++ content_of reads)]> A).
Proof.
  induction reads as [|[|x buf] reads IH]; intros s V A i t d HB Hi Hmax Hblk; cbn [copy_in content_of] in *;
    try (exists s, V; split; [done|by rewrite app_nil_r, list_insert_id]).
  set (p := x :: buf) in *. rewrite (proj2 (Z.ltb_lt 0 _)) by (cbn; lia). rewrite app_assoc, !size_of_app in Hmax. pose proof (size_of_pos (content_of reads)) as Hpos.
  assert (nblk (size_of (d ++ p)) <= nblk (size_of (d ++ p ++ content_of reads))) as Hmono.
  { apply nblk_mono. rewrite app_assoc, (size_of_app (d ++ p)). pose proof (size_of_pos (d ++ p)). lia. }
  rewrite (blocks_of_insert A i t d _ Hi) in Hblk.
  destruct (iappend_spec s V A i t d p HB Hi) as (s1 & V1 & E1 & HB1); [rewrite size_of_app; lia|rewrite (blocks_of_insert A i t d _ Hi); lia|].
  rewrite (bind_Ok _ _ _ _ _ E1). pose proof (lookup_lt_Some _ _ _ Hi) as Hlt.
  destruct (IH s1 V1 _ i t (d ++ p) HB1) as (s2 & V2 & E2 & HB2); [by apply list_lookup_insert_eq|rewrite !size_of_app in *; lia| |].
  - rewrite list_insert_insert_eq, (blocks_of_insert A i t d _ Hi), <- app_assoc. lia.
  - exists s2, V2. split; [done|]. by rewrite list_insert_insert_eq, <- app_assoc in HB2.
Qed.

Lemma blocks_of_mono A i t d d' : A !! i = Some (t, d) -> size_of d <= size_of d' -> blocks_of A <= blocks_of (<[i := (t, d')]> A).
Proof. intros Hi Hle. rewrite (blocks_of_insert A i t d d' Hi). pose proof (nblk_mono (size_of d) (size_of d')). pose proof (size_of_pos d). lia. Qed.

Lemma blocks_of_pos A : 0 <= blocks_of A.
Proof.
  induction A as [|f A IH]; [done|]. change (0 <= nblk (size_of f.2) + blocks_of A). pose proof (nblk_mono 0 (size_of f.2)) as H. pose proof (size_of_pos f.2).
  change (nblk 0) with 0 in H. lia.
Qed.

Lemma insert_last {A} (a x y : A) l : <[S (length l) := x]> (a :: l ++ [y]) = a :: l ++ [x].
Proof. change (a :: <[length l := x]> (l ++ [y]) = a :: l ++ [x]). f_equal. by rewrite insert_app_r_alt, Nat.sub_diag by lia. Qed.

(** One argument: a new inode, its entry in the root directory, its content. *)
Lemma add_file_spec s V rd fs f : built s V ((T_DIR, rd) :: fs) -> input_ok f = true ->
  let inum := inum_of (S (length fs)) in let A' := (T_DIR, rd ++ entry inum (plain (shortname (in_name f)))) :: fs ++ [(T_FILE, in_data f)] in
  inum_of (length A') <= max_inode -> Forall (fun f => size_of f.2 <= maxbytes) A' -> nmeta + blocks_of A' <= FSSIZE ->
  exists s' V', add_file ROOTINO f s = Ok tt s' /\ built s' V' A'.
Proof.
  intros HB Hok inum A' Hroom Hmax Hblk. unfold input_ok in Hok. apply andb_true_iff in Hok as [Hsl Hop]. apply negb_true_iff in Hsl. apply bool_decide_eq_true in Hop as [reads Er].
  unfold add_file. rewrite Hsl, Er. unfold A' in *. rewrite length_cons, length_app in Hroom. cbn [length] in Hroom.
  apply Forall_cons in Hmax as [Hm1 Hm2]. apply Forall_app in Hm2 as [_ Hm2]. apply Forall_cons in Hm2 as [Hm2 _]. cbn [snd] in Hm1, Hm2.
  assert (in_data f = content_of reads) as Ed by (unfold in_data; by rewrite Er). rewrite Ed in *. set (e := entry inum (plain (shortname (in_name f)))) in *.
  change (blocks_of (?a :: ?b)) with (nblk (size_of a.2) + blocks_of b) in Hblk. cbn [snd] in Hblk. rewrite blocks_of_app in Hblk. change (blocks_of [(T_FILE, content_of reads)]) with (nblk (size_of (content_of reads)) + 0) in Hblk.
  pose proof (nblk_mono 0 (size_of (content_of reads)) (conj (Z.le_refl 0) (size_of_pos _))) as Hc0. change (nblk 0) with 0 in Hc0.
  destruct (mk_ialloc_spec s V _ T_FILE HB) as (s1 & V1 & E1 & HB1); [cbn [length]; unfold inum_of in *; lia|unfold T_FILE; lia|].
  rewrite (bind_Ok _ _ _ _ _ E1). change (inum_of (length ((T_DIR, rd) :: fs))) with inum in *. change (((T_DIR, rd) :: fs) ++ [(T_FILE, [])]) with ((T_DIR, rd) :: (fs ++ [(T_FILE, [])])) in HB1.
  destruct (iappend_spec s1 V1 _ 0 T_DIR rd e HB1 eq_refl Hm1) as (s2 & V2 & E2 & HB2).
  { cbn [insert list_insert]. change (blocks_of (?a :: ?b)) with (nblk (size_of a.2) + blocks_of b). cbn [snd]. rewrite blocks_of_app. change (blocks_of [(T_FILE, [])]) with 0. lia. }
  change (inum_of 0) with ROOTINO in E2. unfold add_entry. rewrite (bind_Ok _ _ _ _ _ E2). cbn [insert list_insert] in HB2.
  destruct (copy_in_spec reads s2 V2 _ (S (length fs)) T_FILE [] HB2) as (s3 & V3 & E3 & HB3); [by apply (list_lookup_middle fs [])|done| |].
  - rewrite insert_last. change (blocks_of (?a :: ?b)) with (nblk (size_of a.2) + blocks_of b).
    cbn [snd app]. rewrite blocks_of_app. change (blocks_of [(T_FILE, content_of reads)]) with (nblk (size_of (content_of reads)) + 0). lia.
  - exists s3, V3. split; [done|]. by rewrite insert_last in HB3.
Qed.

Definition file_of (f : input) : Z * list Z := (T_FILE, in_data f).

Lemma entries_cons_size inum f files rd : size_of (rd ++ entry inum (plain (shortname (in_name f)))) <= size_of (rd ++ entries inum (f :: files)).
Proof. cbn [entries]. rewrite !size_of_app. pose proof (size_of_pos (entries (inum + 1) files)). lia. Qed.

Lemma add_files_spec files : forall s V rd fs, built s V ((T_DIR, rd) :: fs) -> forallb input_ok files = true ->
  let A' := (T_DIR, rd ++ entries (inum_of (S (length fs))) files) :: fs ++ (file_of <$> files) in
  inum_of (length A') <= max_inode -> Forall (fun f => size_of f.2 <= maxbytes) A' -> nmeta + blocks_of A' <= FSSIZE ->
  exists s' V', mfor files (add_file ROOTINO) s = Ok tt s' /\ built s' V' A'.
Proof.
  induction files as [|f files IH]; intros s V rd fs HB Hok A' Hroom Hmax Hblk; cbn [mfor forallb] in *.
  { exists s, V. split; [done|]. unfold A'. cbn. by rewrite !app_nil_r. }
  apply andb_true_iff in Hok as [Hok1 Hok2]. set (inum := inum_of (S (length fs))) in *. pose proof (entries_cons_size inum f files rd) as Hle.
  assert (A' = (T_DIR, (rd ++ entry inum (plain (shortname (in_name f)))) ++ entries (inum_of (S (length (fs ++ [file_of f])))) files) :: (fs ++ [file_of f]) ++ (file_of <$> files)) as EA.
  { unfold A'. cbn [entries fmap list_fmap]. rewrite <- !app_assoc. do 4 f_equal. f_equal. rewrite length_app. unfold inum, inum_of. cbn [length]. lia. }
  pose proof Hmax as Hmax'. apply Forall_cons in Hmax' as [Hm1 Hm2]. cbn [snd fmap list_fmap] in Hm1, Hm2.
  destruct (add_file_spec s V rd fs f HB Hok1) as (s1 & V1 & E1 & HB1); fold inum.
  - unfold A', inum_of in Hroom |- *. cbn [length] in *. rewrite !length_app, length_fmap in *. cbn [length] in *. lia.
  - apply Forall_cons. cbn [snd]. split; [lia|]. rewrite Forall_app in Hm2 |- *. destruct Hm2 as [Hm2 Hm3]. split; [done|]. apply Forall_cons in Hm3 as [Hm3 _]. by apply Forall_singleton.
  - rewrite EA in Hblk. change (blocks_of (?a :: ?b)) with (nblk (size_of a.2) + blocks_of b) in Hblk |- *. cbn [snd] in *. rewrite (blocks_of_app (fs ++ _)) in Hblk.
    pose proof (blocks_of_pos (file_of <$> files)) as Hp. pose proof (size_of_pos (rd ++ entry inum (plain (shortname (in_name f))))) as Hp2.
    rewrite <- app_assoc in Hblk. pose proof (nblk_mono _ _ (conj Hp2 Hle)) as Hmono. cbn [entries] in Hmono.
    replace (inum_of (S (length (fs ++ [file_of f])))) with (inum + 1) in Hblk by (rewrite length_app; unfold inum, inum_of; cbn [length]; lia).
    change (T_FILE, in_data f) with (file_of f). lia.
  - rewrite (bind_Ok _ _ _ _ _ E1). rewrite EA in *. apply (IH s1 V1 _ _ HB1 Hok2); done.
Qed.

(** ** The empty image *)

Lemma blank_spec l : forall s, Forall (fun b => 0 <= b < FSSIZE) l ->
  exists m, mfor l (fun i => wsect i (replicate (Z.to_nat BSIZE) 0)) s = Ok tt (set_img m s) /\ forall b, b ∈ l -> m !! b = Some zeros.
Proof.
  assert (forall l s, Forall (fun b => 0 <= b < FSSIZE) l -> exists m, mfor l (fun i => wsect i (replicate (Z.to_nat BSIZE) 0)) s = Ok tt (set_img m s) /\
    forall b, (b ∈ l -> m !! b = Some zeros) /\ (img s !! b = Some zeros -> m !! b = Some zeros)) as H.
  { clear l. induction l as [|x l IH]; intros s Hl; cbn [mfor].
    - exists (img s). split; [by destruct s|]. intros b. split; [intros K; by apply not_elem_of_nil in K|done].
    - apply Forall_cons in Hl as [Hx Hl]. unfold wsect at 1. rewrite bind_modify, sector_small by done. destruct (IH (set_img (<[x := zeros]> (img s)) s) Hl) as (m & E & Hm).
      exists m. split; [exact E|]. intros b. destruct (Hm b) as [H1 H2]. cbn [img set_img] in H2. destruct (decide (b = x)) as [->|Hne].
      + rewrite lookup_insert_eq in H2. split; intros _; by apply H2.
      + rewrite lookup_insert_ne in H2 by congruence. rewrite elem_of_cons. split; [intros [?|?]; [done|by apply H1]|done]. }
  intros s Hl. destruct (H l s Hl) as (m & E & Hm). exists m. split; [done|]. intros b. apply Hm.
Qed.

Definition blank_view : Z -> list Z := upd (upd (fun _ => zeros) bmap_block (map_of nmeta)) 1 sb_block.

Lemma blank_view_other b : b <> 1 -> b <> bmap_block -> blank_view b = zeros.
Proof. intros H1 H2. unfold blank_view. by rewrite !upd_other by congruence. Qed.

Lemma blank_dinode inum : 0 <= inum < max_inode -> dinode_at blank_view inum = inode0.
Proof.
  intros Hi. unfold dinode_at. destruct (iblock_range inum Hi) as [_ Hr]. rewrite blank_view_other by (unfold bmap_block; lia).
  unfold load_dinode, dinode_addrs. rewrite !peek_zeros. cbn [seq fmap list_fmap]. by rewrite !peek_zeros.
Qed.

Lemma blank_fs : fs_ok blank_view mk_sb nmeta.
Proof.
  split; [apply mk_sb_ok|vm_compute; split; congruence| | |].
  - intros k Hk. rewrite mk_bblock by done. vm_compute. done.
  - intros b Hb. change nmeta with 46 in Hb. rewrite (map_of_used nmeta); [|vm_compute; split; congruence|done|change FSSIZE with 1000; lia]. apply Z.ltb_lt. change nmeta with 46. lia.
  - intros b Hb. unfold blank_view, upd. repeat case_decide; [reflexivity| |reflexivity]. unfold map_of. by rewrite length_mark.
Qed.

Lemma start_spec : exists s V, built s V [] /\
  forall k : M mkst unit, (modify (set_freeblock nmeta);; mfor (seqZ 0 FSSIZE) (fun i => wsect i (replicate (Z.to_nat BSIZE) 0));;
   wsect 1 (splice (replicate (Z.to_nat BSIZE) 0) 0 (superblock_bytes mk_sb));; k) mkfs_start = k s.
Proof.
  destruct (blank_spec (seqZ 0 FSSIZE) (set_freeblock nmeta mkfs_start)) as (m & E & Hm).
  { apply Forall_forall. intros b Hb. apply elem_of_seqZ in Hb. lia. }
  exists (Mkst (<[1 := sb_block]> m) 1 nmeta), blank_view. split; [|intros k; rewrite bind_modify, (bind_Ok _ _ _ _ _ E); done].
  split; [|reflexivity|vm_compute; congruence|intros i t d Hi; by rewrite lookup_nil in Hi|cbn [length]; intros; lia|reflexivity| |reflexivity|].
  - split; [| | |apply blank_fs|done].
    + intros b Hb Hne. cbn [img]. destruct (decide (b = 1)) as [->|H1]; [by rewrite lookup_insert_eq|]. rewrite lookup_insert_ne by congruence.
      rewrite blank_view_other by done. apply Hm. apply elem_of_seqZ. lia.
    + intros b Hb. apply (map_of_used nmeta); [vm_compute; split; congruence|reflexivity|done].
    + intros b Hb. change (46 <= b < FSSIZE) in Hb. apply blank_view_other; unfold bmap_block; lia.
  - intros inum Hi. apply blank_dinode. unfold inum_of in Hi. cbn [length] in Hi. lia.
  - intros b Hb. change (2 <= b < 32) in Hb. apply blank_view_other; unfold bmap_block; lia.
Qed.

(** ** The root directory's size and the free map *)

(** The size of the root directory is rounded up to the next block. *)
Definition root_size (files : list input) : Z := (size_of (root_data files) / BSIZE + 1) * BSIZE.

(** What the image holds. *)
Record image_ok (V : Z -> list Z) (files : list input) : Prop := {
  im_fs : fs_ok V mk_sb nmeta;
  im_sb : superblock_of (V 1) = mk_sb;
  im_log : forall b, 2 <= b < 2 + nlog -> V b = zeros;
  im_used : forall b, 0 <= b < FSSIZE -> used V mk_sb b = (b <? nmeta + blocks_of (image_files files));
  im_root_bytes : dwindow V ROOTINO = dinode_bytes (dinode_at V ROOTINO);
  im_root : dinode_at V ROOTINO = file_inode T_DIR (root_size files) (faddrs V ROOTINO);
  im_root_data : placed V (faddrs V ROOTINO) (root_data files);
  im_files : forall i f, files !! i = Some f -> stored V (2 + Z.of_nat i) T_FILE (in_data f);
  im_apart : forall i j k l, (i <= length files)%nat -> (j <= length files)%nat -> i <> j -> 0 <= k < nslots -> 0 <= l < nslots ->
    loc V (faddrs V (inum_of i)) k <> 0 -> loc V (faddrs V (inum_of i)) k <> loc V (faddrs V (inum_of j)) l;
  im_free : forall inum, 2 + Z.of_nat (length files) <= inum < max_inode -> dinode_at V inum = inode0 }.

Lemma length_strncpy n : forall t, length (strncpy_bytes n t) = n.
Proof. induction n as [|n IH]; intros t; [done|]. cbn [strncpy_bytes]. case_match; [apply length_replicate|]. cbn [length]. by rewrite IH. Qed.

Lemma length_entry inum name : length (entry inum name) = 16%nat.
Proof. unfold entry, dirent_bytes. rewrite length_app, length_le_bytes. cbn [de_name]. by rewrite length_strncpy. Qed.

Lemma size_entries files : forall inum, size_of (entries inum files) = 16 * Z.of_nat (length files).
Proof.
  induction files as [|f files IH]; intros inum; [done|]. cbn [entries length]. rewrite size_of_app, IH. unfold size_of. rewrite length_entry. lia.
Qed.

Lemma size_root files : size_of (root_data files) = 16 * (2 + Z.of_nat (length files)).
Proof. unfold root_data. rewrite !size_of_app, size_entries. unfold size_of. rewrite !length_entry. lia. Qed.

Lemma superblock_read : superblock_of sb_block = mk_sb.
Proof. reflexivity. Qed.

(** The views before and after the last two writes. *)
Section Finish.
Context (s : mkst) (V V2 : Z -> list Z) (files : list input) (HB : built s V (image_files files)).
Context (Hsame : forall b, b <> bmap_block -> b <> iblock mk_sb ROOTINO -> V2 b = V b).
Context (Hmap : V2 bmap_block = map_of (freeblock s)) (Hle : freeblock s <= FSSIZE).
Context (Hroot : dinode_at V2 ROOTINO = file_inode T_DIR (root_size files) (faddrs V ROOTINO)).
Context (Hother : forall j, 0 <= j < max_inode -> j <> ROOTINO -> dwindow V2 j = dwindow V j).

Lemma finish_used b : 0 <= b < FSSIZE -> used V2 mk_sb b = (b <? freeblock s).
Proof. intros Hb. apply map_of_used; [|done|done]. pose proof (h_first _ _ (bu_holds _ _ _ HB)). change nmeta with 46 in *. change FSSIZE with 1000 in *. lia. Qed.

Lemma finish_fs : length (V2 (iblock mk_sb ROOTINO)) = 1024%nat -> fs_ok V2 mk_sb nmeta.
Proof.
  intros Hlen. pose proof (h_fs _ _ (bu_holds _ _ _ HB)) as [H1 H2 H3 H4 H5]. pose proof (h_first _ _ (bu_holds _ _ _ HB)) as Hf. split; try done.
  - intros b Hb. rewrite finish_used by (change nmeta with 46 in Hb; change FSSIZE with 1000; lia). apply Z.ltb_lt. lia.
  - intros b Hb. destruct (decide (b = bmap_block)) as [->|N1]; [rewrite Hmap; unfold map_of; by rewrite length_mark|].
    destruct (decide (b = iblock mk_sb ROOTINO)) as [->|N2]; [done|]. rewrite Hsame by done. by apply H5.
Qed.

Lemma finish_addrs i : (i < length (image_files files))%nat -> faddrs V2 (inum_of i) = faddrs V (inum_of i).
Proof.
  intros Hi. unfold faddrs. destruct i as [|i]; [change (inum_of 0) with ROOTINO; by rewrite Hroot|]. rewrite (dinode_window V V2); [done|]. apply Hother; [|unfold inum_of, ROOTINO; lia].
  by apply (inum_of_range s V (image_files files)).
Qed.

Lemma finish_blocks i : (i < length (image_files files))%nat -> same_blocks V V2 (faddrs V (inum_of i)).
Proof.
  intros Hi k Hk Hnz. destruct (lookup_lt_is_Some_2 _ _ Hi) as [[t d] Ei]. destruct (fi_data _ _ _ _ (so_file _ _ _ _ (bu_files _ _ _ HB _ _ _ Ei)) k Hk Hnz) as [R _].
  change nmeta with 46 in R. apply Hsame; [unfold bmap_block; lia|]. change (iblock mk_sb ROOTINO) with 32. lia.
Qed.

Lemma finish_loc i k : (i < length (image_files files))%nat -> loc V2 (faddrs V2 (inum_of i)) k = loc V (faddrs V (inum_of i)) k.
Proof. intros Hi. rewrite finish_addrs by done. by apply same_blocks_loc, finish_blocks. Qed.

(** Every file but for the root's size. *)
Lemma finish_placed i t d : image_files files !! i = Some (t, d) ->
  placed V2 (faddrs V2 (inum_of i)) d /\ (inum_of i <> ROOTINO -> stored V2 (inum_of i) t d).
Proof.
  intros Ei. pose proof (lookup_lt_Some _ _ _ Ei) as Hi. pose proof (bu_files _ _ _ HB _ _ _ Ei) as Hs.
  assert (forall b, 0 <= b < FSSIZE -> used V mk_sb b = true -> used V2 mk_sb b = true) as Hu.
  { intros b Hb Hub. rewrite finish_used by done. by rewrite <- (h_used _ _ (bu_holds _ _ _ HB)). }
  split; [rewrite finish_addrs by done; apply (placed_kept V); [apply Hs|by apply finish_blocks|done]|].
  intros Hne. apply (stored_kept V); [done| |by apply finish_blocks|done]. apply Hother; [|done]. by apply (inum_of_range s V (image_files files)).
Qed.
End Finish.

Lemma length_image files : length (image_files files) = S (length files).
Proof. unfold image_files. cbn [length]. by rewrite length_fmap. Qed.

Lemma fix_root_spec s V files : built s V (image_files files) -> root_size files <= maxbytes ->
  exists s1 V1, fix_root ROOTINO s = Ok tt s1 /\ holds s1 V1 /\ freeblock s1 = freeblock s /\ (forall b, b <> iblock mk_sb ROOTINO -> V1 b = V b) /\
    dinode_at V1 ROOTINO = file_inode T_DIR (root_size files) (faddrs V ROOTINO) /\ dwindow V1 ROOTINO = dinode_bytes (dinode_at V1 ROOTINO) /\
    forall j, 0 <= j < max_inode -> j <> ROOTINO -> dwindow V1 j = dwindow V j.
Proof.
  intros HB Hmax. pose proof (bu_files _ _ _ HB 0%nat _ _ eq_refl) as Hs. change (inum_of 0) with ROOTINO in Hs. pose proof (size_root files) as Hsz.
  assert (0 <= ROOTINO < max_inode) as Hr by (unfold ROOTINO, max_inode; lia). assert (0 <= root_size files) as Hr0 by (unfold root_size; change BSIZE with 1024; zlia).
  assert (u32 (root_size files) = root_size files) as Eu by (unfold u32; apply Z.mod_small; change maxbytes with 274432 in Hmax; lia).
  destruct (winode_spec s V ROOTINO (file_inode T_DIR (root_size files) (faddrs V ROOTINO)) (bu_holds _ _ _ HB) Hr) as (s1 & V1 & E & H1 & F1 & F2 & EV & Hd & Hw & Ho).
  { apply (file_inode_range V); [apply Hs|unfold T_DIR; lia|done]. }
  exists s1, V1. split_and!; [|done|done|intros b Hb; rewrite EV; apply upd_other; congruence|done|by rewrite Hw, Hd|done].
  unfold fix_root. rewrite (bind_Ok _ _ _ _ _ (rinode_spec s V ROOTINO (bu_holds _ _ _ HB) Hr)), (stored_size _ _ _ _ Hs). fold (root_size files). rewrite Eu, (so_inode _ _ _ _ Hs). done.
Qed.

Lemma finish_spec s V files : built s V (image_files files) -> root_size files <= maxbytes -> freeblock s <= FSSIZE ->
  exists s' V', (fix_root ROOTINO;; let! used := gets freeblock in mk_balloc (s32 used)) s = Ok tt s' /\ (forall b, 0 <= b < FSSIZE -> img s' !! b = Some (V' b)) /\ image_ok V' files.
Proof.
  intros HB Hmax Hfb. destruct (fix_root_spec s V files HB Hmax) as (s1 & V1 & E1 & H1 & F1 & Hs1 & Hd & Hw & Ho). pose proof (h_first _ _ (bu_holds _ _ _ HB)) as Hlo.
  change nmeta with 46 in Hlo. change FSSIZE with 1000 in *. set (V2 := upd V1 bmap_block (map_of (freeblock s))).
  assert (forall j, 0 <= j < max_inode -> dwindow V2 j = dwindow V1 j) as Hd2.
  { intros j Hj. unfold dwindow, V2. destruct (iblock_range j Hj). rewrite upd_other by (unfold bmap_block; lia). done. }
  assert (forall b, b <> bmap_block -> b <> iblock mk_sb ROOTINO -> V2 b = V b) as Hsame by (intros b N1 N2; unfold V2; rewrite upd_other by congruence; by apply Hs1).
  assert (V2 bmap_block = map_of (freeblock s)) as Hmap by apply upd_same.
  assert (dinode_at V2 ROOTINO = file_inode T_DIR (root_size files) (faddrs V ROOTINO)) as Hroot by (rewrite (dinode_window V1 V2) by (apply Hd2; unfold ROOTINO, max_inode; lia); done).
  assert (forall j, 0 <= j < max_inode -> j <> ROOTINO -> dwindow V2 j = dwindow V j) as Hother by (intros j Hj Hne; rewrite Hd2 by done; by apply Ho).
  pose proof (finish_placed s V V2 files HB Hsame Hmap Hfb Hroot Hother) as HP. pose proof (length_image files) as Hlen. pose proof (bu_blocks _ _ _ HB) as Hblk.
  exists (set_img (<[bmap_block := map_of (freeblock s)]> (img s1)) s1), V2. split_and!; [| |split].
  - rewrite (bind_Ok _ _ _ _ _ E1), bind_gets, F1, s32_small by lia. unfold mk_balloc. rewrite (proj2 (Z.ltb_lt _ _)) by (change BSIZE with 1024; lia). done.
  - intros b Hb. cbn [img set_img]. unfold V2, upd. case_decide as E; [subst b; by rewrite lookup_insert_eq|]. rewrite lookup_insert_ne by done. by apply (h_img _ _ H1).
  - eapply (finish_fs s V V2 files HB Hsame Hmap Hfb). unfold V2. rewrite upd_other by done. by apply (fs_sized _ _ _ (h_fs _ _ H1)).
  - rewrite Hsame by done. rewrite (bu_sb _ _ _ HB). apply superblock_read.
  - intros b Hb. change (2 <= b < 32) in Hb. rewrite Hsame; [by apply (bu_log _ _ _ HB)|unfold bmap_block; lia|change (iblock mk_sb ROOTINO) with 32; lia].
  - intros b Hb. rewrite (finish_used s V V2 files HB Hmap Hfb) by done. by rewrite Hblk.
  - rewrite (dinode_window V1 V2), Hd2 by (apply Hd2 || idtac; unfold ROOTINO, max_inode; lia). done.
  - rewrite Hroot. unfold faddrs at 2. by rewrite Hroot.
  - exact (proj1 (HP 0%nat T_DIR (root_data files) eq_refl)).
  - intros i f Hi. replace (2 + Z.of_nat i) with (inum_of (S i)) by (unfold inum_of; lia). apply HP; [|unfold inum_of, ROOTINO; lia].
    change (((fun f => (T_FILE, in_data f)) <$> files) !! i = Some (T_FILE, in_data f)). by rewrite list_lookup_fmap, Hi.
  - intros i j k l Hi Hj Hne Hk Hl. rewrite !(finish_loc s V V2 files HB Hsame Hroot Hother) by lia. apply (bu_apart _ _ _ HB); (done || lia).
  - intros inum Hi. rewrite (dinode_window V V2) by (apply Hother; unfold ROOTINO; lia). apply (bu_free _ _ _ HB). rewrite Hlen. unfold inum_of. lia.
Qed.

Lemma mkfs_spec files : fits files = true ->
  exists s V, mkfs files mkfs_start = Ok tt s /\ (forall b, 0 <= b < FSSIZE -> img s !! b = Some (V b)) /\ image_ok V files.
Proof.
  intros Hfits. unfold fits in Hfits. apply andb_true_iff in Hfits as [Hfits Hblk]. apply andb_true_iff in Hfits as [Hfits Hmax]. apply andb_true_iff in Hfits as [Hok Hroom].
  apply Z.leb_le in Hblk, Hroom. rewrite length_image in Hroom. pose proof (size_root files) as Hsz.
  assert (Forall (fun f => size_of f.2 <= maxbytes) (image_files files)) as HM.
  { apply Forall_forall. intros f Hf. rewrite forallb_forall in Hmax. apply Z.leb_le, Hmax. by apply list_elem_of_In. }
  destruct start_spec as (s0 & V0 & HB0 & E0). unfold mkfs. rewrite E0. change NINODES with 200 in Hroom. unfold inum_of in Hroom.
  destruct (mk_ialloc_spec s0 V0 [] T_DIR HB0) as (s1 & V1 & E1 & HB1); [done|unfold T_DIR; lia|]. rewrite (bind_Ok _ _ _ _ _ E1). cbn [app] in HB1.
  change (negb (inum_of (length []) =? ROOTINO)) with false. cbv iota. change (inum_of (length [])) with ROOTINO in *. unfold add_entry.
  destruct (iappend_spec s1 V1 _ 0 T_DIR [] (entry 1 (str ".")) HB1 eq_refl) as (s2 & V2 & E2 & HB2); [vm_compute; congruence|vm_compute; congruence|].
  change (inum_of 0) with ROOTINO in E2. rewrite (bind_Ok _ _ _ _ _ E2).
  destruct (iappend_spec s2 V2 _ 0 T_DIR _ (entry 1 (str "..")) HB2 eq_refl) as (s3 & V3 & E3 & HB3); [vm_compute; congruence|vm_compute; congruence|].
  change (inum_of 0) with ROOTINO in E3. rewrite (bind_Ok _ _ _ _ _ E3). cbn [insert list_insert app] in HB3.
  assert (image_files files = (T_DIR, (entry 1 (str ".") ++ entry 1 (str "..")) ++ entries (inum_of 1) files) :: [] ++ (file_of <$> files)) as EI by (unfold image_files, root_data; by rewrite <- app_assoc).
  destruct (add_files_spec files s3 V3 _ [] HB3 Hok) as (s4 & V4 & E4 & HB4); cbn [length app]; [rewrite length_fmap; unfold inum_of, max_inode; lia|by rewrite EI in HM|by rewrite EI in Hblk|].
  rewrite (bind_Ok _ _ _ _ _ E4). cbn [length] in HB4. rewrite <- EI in HB4. apply (finish_spec s4 V4); [done| |rewrite (bu_blocks _ _ _ HB4); done].
  unfold root_size. change maxbytes with 274432. change BSIZE with 1024. zlia.
Qed.

(** ** Properties *)

(** C13: mkfs builds the file system it was asked for.  Whenever the input files
    can be opened, are named without a directory and fit on the disk, mkfs ends
    with an image of FSSIZE blocks that has the super block the kernel reads, an
    empty log, a free map that marks exactly the blocks handed out, the root
    directory with the entries . and .. and one for each file (its size rounded
    up to whole blocks), each file's bytes under its inode, no block in two
    files, and all the other inodes free. *)
Theorem mkfs_correct files : fits files = true ->
  exists s V, mkfs files mkfs_start = Ok tt s /\ (forall b, 0 <= b < FSSIZE -> img s !! b = Some (V b)) /\ image_ok V files.
Proof. apply mkfs_spec. Qed.

(** A program of 5 bytes and a file that needs the indirect block. *)
Definition demo : list input :=
  [Input (str "user/_cat") (Some [[104; 101; 108; 108; 111]]); Input (str "README") (Some (replicate 14 (replicate 1024 7)))].

Lemma mkfs_correct_witness :
  exists s V, mkfs demo mkfs_start = Ok tt s /\ img s !! 1 = Some (V 1) /\ superblock_of (V 1) = mk_sb /\
    stored V 2 T_FILE [104; 101; 108; 108; 111] /\ stored V 3 T_FILE (in_data (Input (str "README") (Some (replicate 14 (replicate 1024 7))))) /\
    placed V (faddrs V 1) (root_data demo) /\ take 16 (drop 32 (root_data demo)) = [2; 0; 99; 97; 116; 0; 0; 0; 0; 0; 0; 0; 0; 0; 0; 0].
Proof.
  destruct (mkfs_correct demo eq_refl) as (s & V & E & Himg & Hok). exists s, V. split; [exact E|]. split; [exact (Himg 1 (conj (Z.le_0_1) eq_refl))|]. split; [exact (im_sb _ _ Hok)|].
  split; [exact (im_files _ _ Hok 0%nat _ eq_refl)|]. split; [exact (im_files _ _ Hok 1%nat _ eq_refl)|]. split; [exact (im_root_data _ _ Hok)|vm_compute; reflexivity].
Defined.
