(* ===== verification/MkfsTypes.v ===== *)
(** * The types of mkfs

    C has types that the integers of the model do not: a uint is below 2^32, a
    short is signed and 16 bits wide, a block is BSIZE bytes.  Every routine of
    mkfs keeps them, whatever files it is given and however it ends. *)

From S2P Require Import Prelude Layout Spinlock State Bio Fs CacheSpec FsTx FsFile FsInode Mkfs MkfsTheorems.

Definition uint (x : Z) : Prop := 0 <= x < 2 ^ 32.
Definition bytes (l : list Z) : Prop := Forall (fun b => 0 <= b < 256) l.
Definition block (l : list Z) : Prop := length l = Z.to_nat BSIZE /\ bytes l.

(** The sectors of the image that a uint offset reaches, and the counters. *)
Record mkst_ok (s : mkst) : Prop := {
  ty_img : forall k b, img s !! k = Some b -> 0 <= k < 2 ^ 22 /\ block b;
  ty_freeinode : uint (freeinode s);
  ty_freeblock : uint (freeblock s) }.

(** [m] keeps the types of the state, and what it returns satisfies [Q]. *)
Definition yields {A} (Q : A -> Prop) (m : M mkst A) : Prop := forall s, mkst_ok s -> match m s with Ok a s' => Q a /\ mkst_ok s' | _ => True end.

Lemma yields_bind {A B} (P : A -> Prop) (Q : B -> Prop) (m : M mkst A) (k : A -> M mkst B) : yields P m -> (forall a, P a -> yields Q (k a)) -> yields Q (bind m k).
Proof. intros Hm Hk s Hs. specialize (Hm s Hs). unfold bind. destruct (m s) as [a s'| |]; [|done|done]. destruct Hm as [Ha Hs']. exact (Hk a Ha s' Hs'). Qed.

Lemma yields_seq {A B} (Q : B -> Prop) (m : M mkst A) (k : M mkst B) : yields (fun _ => True) m -> yields Q k -> yields Q (bind m (fun _ => k)).
Proof. intros Hm Hk. by apply (yields_bind (fun _ => True)). Qed.

Lemma yields_ret {A} (Q : A -> Prop) a : Q a -> yields Q (ret a).
Proof. intros Ha s Hs. done. Qed.

Lemma yields_panic {A} (Q : A -> Prop) msg : yields Q (panic msg).
Proof. by intros s Hs. Qed.

Lemma yields_weaken {A} (P Q : A -> Prop) m : yields P m -> (forall a, P a -> Q a) -> yields Q m.
Proof. intros Hm H s Hs. specialize (Hm s Hs). destruct (m s); [|done|done]. destruct Hm. auto. Qed.

Lemma yields_gets {A} (Q : A -> Prop) f : (forall s, mkst_ok s -> Q (f s)) -> yields Q (gets f).
Proof. intros H s Hs. split; [by apply H|done]. Qed.

Lemma yields_if {A} (Q : A -> Prop) (b : bool) m n : (b = true -> yields Q m) -> (b = false -> yields Q n) -> yields Q (if b then m else n).
Proof. destruct b; auto. Qed.

Lemma yields_mfor {A} (l : list A) f : Forall (fun x => yields (fun _ => True) (f x)) l -> yields (fun _ => True) (mfor l f).
Proof. induction 1 as [|x l Hx Hl IH]; cbn [mfor]; [by apply yields_ret|by apply yields_seq]. Qed.

(** ** Values *)

Lemma u32_uint x : uint (u32 x).
Proof. unfold uint, u32. apply Z.mod_pos_bound. lia. Qed.

Lemma bytes_app l k : bytes (l ++ k) <-> bytes l /\ bytes k.
Proof. apply Forall_app. Qed.

Lemma bytes_take n l : bytes l -> bytes (take n l).
Proof. apply Forall_take. Qed.

Lemma bytes_drop n l : bytes l -> bytes (drop n l).
Proof. apply Forall_drop. Qed.

Lemma bytes_zeros n : bytes (replicate n 0).
Proof. apply Forall_replicate. lia. Qed.

Create HintDb types.
#[local] Hint Resolve u32_uint bytes_take bytes_drop bytes_zeros le_bytes_range : types.

Lemma block_zero : block (replicate (Z.to_nat BSIZE) 0).
Proof. split; [reflexivity|auto with types]. Qed.

Lemma block_splice b off new : block b -> bytes new -> 0 <= off -> off + Z.of_nat (length new) <= BSIZE -> block (splice b off new).
Proof.
  intros [Hl Hb] Hn Ho Hf. change BSIZE with 1024 in *. split; [rewrite length_splice; [done|done|rewrite Hl; lia]|].
  unfold splice. rewrite !bytes_app. auto with types.
Qed.

Lemma block_poke b off v : block b -> 0 <= off -> off + 4 <= BSIZE -> block (poke 4 b off v).
Proof.
  intros [Hl Hb] Ho Hf. change BSIZE with 1024 in *. change (Z.to_nat 1024) with 1024%nat in *. split; [rewrite length_poke; (done || lia)|].
  unfold poke. rewrite !bytes_app. split_and!; auto with types. apply le_bytes_range.
Qed.

Lemma peek_range n b off : bytes b -> 0 <= peek n b off < 256 ^ Z.of_nat n.
Proof.
  intros Hb. unfold peek. assert (bytes (take n (drop (Z.to_nat off) b))) as H by auto with types. pose proof (le_val_range _ H) as Hr. assert (length (take n (drop (Z.to_nat off) b)) <= n)%nat as Hl by (rewrite length_take; lia).
  split; [lia|]. eapply Z.lt_le_trans; [apply Hr|]. apply Z.pow_le_mono_r; lia.
Qed.

Lemma s16_range x : -32768 <= s16 x < 32768.
Proof. unfold s16. destruct (Z.ltb_spec (x mod 65536) 32768); zlia. Qed.

Lemma load_dinode_range b o : bytes b -> dinode_range (load_dinode b o inode0).
Proof.
  intros Hb. split; cbn [i_type i_major i_minor i_nlink i_size i_addrs load_dinode set_i_addrs set_i_size set_i_nlink set_i_minor set_i_major set_i_type]; try apply s16_range.
  - apply (peek_range 4). done.
  - split; [done|]. unfold dinode_addrs. apply Forall_fmap, Forall_forall. intros k _. apply (peek_range 4). done.
Qed.

Lemma dinode_block_bytes ip : dinode_range ip -> bytes (dinode_bytes ip) /\ length (dinode_bytes ip) = 64%nat.
Proof.
  intros [_ _ _ _ _ [Hl _]]. split; [|by apply length_dinode_bytes]. unfold dinode_bytes. rewrite !bytes_app. split_and!; try apply le_bytes_range.
  clear Hl. induction (i_addrs ip) as [|a l IH]; [apply Forall_nil_2|]. cbn [fmap list_fmap concat]. apply bytes_app. split; [apply le_bytes_range|done].
Qed.

Lemma set_addr_range ip k b : dinode_range ip -> uint b -> dinode_range (set_i_addrs (<[k := b]> (i_addrs ip)) ip).
Proof.
  intros [H1 H2 H3 H4 H5 [H6 H7]] Hb. split; try done. cbn [i_addrs set_i_addrs]. split; [by rewrite length_insert|]. by apply Forall_insert.
Qed.

Lemma set_size_range ip n : dinode_range ip -> uint n -> dinode_range (set_i_size n ip).
Proof. intros [H1 H2 H3 H4 H5 H6] Hn. by split. Qed.

Lemma addr_uint ip k : dinode_range ip -> uint (byte_at (i_addrs ip) k).
Proof.
  intros [_ _ _ _ _ [_ H]]. unfold byte_at. destruct (i_addrs ip !! Z.to_nat k) eqn:E; [|unfold uint; cbn; lia]. cbn. rewrite Forall_lookup in H. exact (H _ _ E).
Qed.

(** ** The routines *)

Lemma sector_range sec : 0 <= sector sec < 2 ^ 22.
Proof. unfold sector. pose proof (u32_uint (sec * BSIZE)) as H. unfold uint in H. change BSIZE with 1024 in *. change (2 ^ 32) with 4294967296 in H. change (2 ^ 22) with 4194304. zlia. Qed.

Lemma wsect_typed sec b : block b -> yields (fun _ => True) (wsect sec b).
Proof.
  intros Hb s [H1 H2 H3]. cbn. split; [done|]. split; try done. intros k v. cbn [img set_img]. destruct (decide (sector sec = k)) as [<-|Hne].
  - rewrite lookup_insert_eq. intros [= <-]. split; [apply sector_range|done].
  - rewrite lookup_insert_ne by done. apply H1.
Qed.

Lemma rsect_typed sec : yields block (rsect sec).
Proof. intros s Hs. unfold rsect. rewrite bind_gets. destruct (img s !! sector sec) eqn:E; [|done]. split; [by apply (ty_img _ Hs _ _ E)|done]. Qed.

Lemma ioffset_fits inum : 0 <= inum mod IPB * sizeof_dinode <= 960.
Proof. apply (ioffset_range inum). Qed.

Lemma winode_typed inum ip : dinode_range ip -> yields (fun _ => True) (winode inum ip).
Proof.
  intros Hip. unfold winode. apply (yields_bind block); [apply rsect_typed|]. intros b Hb. apply wsect_typed. destruct (dinode_block_bytes ip Hip) as [H1 H2]. pose proof (ioffset_fits inum).
  apply block_splice; try done; [lia|rewrite H2; change BSIZE with 1024; lia].
Qed.

Lemma rinode_typed inum : yields dinode_range (rinode inum).
Proof. unfold rinode. apply (yields_bind block); [apply rsect_typed|]. intros b [_ Hb]. by apply yields_ret, load_dinode_range. Qed.

Lemma mk_ialloc_typed t : -32768 <= t < 32768 -> yields uint (mk_ialloc t).
Proof.
  intros Ht. unfold mk_ialloc. apply (yields_bind uint); [apply yields_gets; intros s Hs; apply Hs|]. intros inum Hi. apply yields_seq.
  - intros s [H1 H2 H3]. cbn. split; [done|]. split; try done. apply u32_uint.
  - apply yields_seq; [|by apply yields_ret]. apply winode_typed. split; cbn; try done; try lia. split; [done|]. repeat (apply Forall_cons; split; [lia|]). apply Forall_nil_2.
Qed.

Lemma next_block_typed : yields uint next_block.
Proof.
  unfold next_block. apply (yields_bind uint); [apply yields_gets; intros s Hs; apply Hs|]. intros b Hb. apply yields_seq; [|by apply yields_ret].
  intros s [H1 H2 H3]. cbn. split; [done|]. split; try done. apply u32_uint.
Qed.

(** The code that assigns the block of slot [k] of the inode. *)
Lemma slot_typed din k : dinode_range din ->
  yields dinode_range (if byte_at (i_addrs din) k =? 0 then let! b := next_block in ret (set_i_addrs (<[Z.to_nat k := b]> (i_addrs din)) din) else ret din).
Proof.
  intros Hd. apply yields_if; intros _; [|by apply yields_ret]. apply (yields_bind uint); [apply next_block_typed|]. intros b Hb. by apply yields_ret, set_addr_range.
Qed.

Lemma file_sector_typed din fbn : dinode_range din -> 0 <= fbn < MAXFILE -> yields (fun r => dinode_range (fst r) /\ uint (snd r)) (file_sector din fbn).
Proof.
  intros Hd Hf. unfold file_sector. change MAXFILE with 268 in Hf. apply yields_if; intros E.
  - apply (yields_bind dinode_range); [by apply slot_typed|]. intros din1 Hd1. apply yields_ret. split; [done|by apply addr_uint].
  - change NDIRECT with 12 in *. apply Z.ltb_ge in E. apply (yields_bind dinode_range); [by apply slot_typed|]. intros din1 Hd1. apply (yields_bind block); [apply rsect_typed|]. intros ind Hind.
    apply (yields_bind block).
    + apply yields_if; intros _; [|by apply yields_ret]. apply (yields_bind uint); [apply next_block_typed|]. intros b Hb.
      assert (block (poke 4 ind (4 * (fbn - 12)) b)) as Hp by (apply block_poke; [done|lia|change BSIZE with 1024; lia]). apply yields_seq; [by apply wsect_typed|by apply yields_ret].
    + intros ind1 [_ Hi]. apply yields_ret. split; [done|]. by apply (peek_range 4).
Qed.

Lemma iappend_loop_typed fuel : forall din off p, dinode_range din -> uint off -> bytes p -> yields (fun r => dinode_range (fst r) /\ uint (snd r)) (iappend_loop fuel din off p).
Proof.
  induction fuel as [|fuel IH]; intros din off p Hd Ho Hp; cbn [iappend_loop]; [by intros s Hs|]. apply yields_if; intros E1; [by apply yields_ret|]. apply yields_if; intros E2; [apply yields_panic|].
  apply negb_false_iff, Z.ltb_lt in E1, E2. unfold uint in Ho. change (2 ^ 32) with 4294967296 in Ho. change MAXFILE with 268 in E2.
  apply (yields_bind (fun r => dinode_range (fst r) /\ uint (snd r))); [apply file_sector_typed; [done|change MAXFILE with 268; change BSIZE with 1024 in *; zlia]|].
  intros r [Hr1 Hr2]. apply (yields_bind block); [apply rsect_typed|]. intros b Hb. apply yields_seq; [|apply IH; auto with types].
  change BSIZE with 1024 in *. assert (u32 ((off / 1024 + 1) * 1024 - off) = 1024 - off mod 1024) as -> by (unfold u32; rewrite Z.mod_small; zlia).
  apply wsect_typed, block_splice; [done|auto with types|zlia|]. rewrite length_take. change BSIZE with 1024. zlia.
Qed.

Lemma iappend_typed inum p : bytes p -> yields (fun _ => True) (iappend inum p).
Proof.
  intros Hp. unfold iappend. apply (yields_bind dinode_range); [apply rinode_typed|]. intros din Hd.
  apply (yields_bind (fun r => dinode_range (fst r) /\ uint (snd r))); [apply iappend_loop_typed; [done|apply Hd|done]|]. intros r [H1 H2]. by apply winode_typed, set_size_range.
Qed.

Lemma mark_block k : forall i b, block b -> block (mark_loop k i b).
Proof.
  induction k as [|k IH]; intros i b [Hl Hb]; cbn [mark_loop]; [done|]. apply IH. split; [by rewrite length_insert|]. apply Forall_insert; [done|]. unfold u8. zlia.
Qed.

Lemma mk_balloc_typed used : yields (fun _ => True) (mk_balloc used).
Proof. unfold mk_balloc. apply yields_if; intros _; [apply yields_panic|]. apply wsect_typed, mark_block, block_zero. Qed.

Lemma strncpy_bytes_typed n : forall t, bytes t -> bytes (strncpy_bytes n t).
Proof.
  induction n as [|n IH]; intros t Ht; cbn [strncpy_bytes]; [apply Forall_nil_2|]. case_match; [apply bytes_zeros|].
  destruct t as [|c t]; [done|]. apply Forall_cons in Ht as [Hc Ht]. apply Forall_cons. split; [done|by apply IH].
Qed.

Lemma add_entry_typed rootino inum name : bytes name -> yields (fun _ => True) (add_entry rootino inum name).
Proof. intros Hn. apply iappend_typed. unfold dirent_bytes. apply bytes_app. split; [apply le_bytes_range|by apply strncpy_bytes_typed]. Qed.

Lemma copy_in_typed inum reads : Forall bytes reads -> yields (fun _ => True) (copy_in inum reads).
Proof.
  induction 1 as [|b reads Hb Hr IH]; cbn [copy_in]; [by apply yields_ret|]. apply yields_if; intros _; [|by apply yields_ret]. apply yields_seq; [by apply iappend_typed|done].
Qed.

(** What the command line and the input files consist of. *)
Definition input_bytes (f : input) : Prop := bytes (in_name f) /\ Forall bytes (default [] (in_reads f)).

Lemma add_file_typed rootino f : input_bytes f -> yields (fun _ => True) (add_file rootino f).
Proof.
  intros [Hn Hr]. unfold add_file. apply yields_if; intros _; [apply yields_panic|]. destruct (in_reads f) as [reads|]; [|apply yields_panic].
  apply (yields_bind uint); [apply mk_ialloc_typed; unfold T_FILE; lia|]. intros inum Hi. apply yields_seq; [|by apply copy_in_typed]. apply add_entry_typed.
  assert (bytes (shortname (in_name f))) as Hs by (unfold shortname; case_match; auto with types). unfold plain. case_match; [|done]. destruct (shortname (in_name f)); [done|]. by apply Forall_cons in Hs as [_ Hs].
Qed.

Lemma fix_root_typed rootino : yields (fun _ => True) (fix_root rootino).
Proof. unfold fix_root. apply (yields_bind dinode_range); [apply rinode_typed|]. intros din Hd. apply winode_typed, set_size_range; auto with types. Qed.

Lemma mkfs_start_typed : mkst_ok mkfs_start.
Proof. split; [|unfold uint; cbn; lia|unfold uint; cbn; lia]. intros k b. cbn [img mkfs_start]. by rewrite lookup_empty. Qed.

Lemma mkfs_yields files : Forall input_bytes files -> yields (fun _ => True) (mkfs files).
Proof.
  intros Hf. unfold mkfs. apply yields_seq; [intros s [H1 H2 H3]; split; [done|]; split; try done; unfold uint; cbn; vm_compute; split; congruence|].
  apply yields_seq; [apply yields_mfor, Forall_forall; intros i _; apply wsect_typed, block_zero|].
  apply yields_seq. { apply wsect_typed, block_splice; [apply block_zero| |lia|vm_compute; congruence]. unfold superblock_bytes. rewrite !bytes_app. split_and!; apply le_bytes_range. }
  apply (yields_bind uint); [apply mk_ialloc_typed; unfold T_DIR; lia|]. intros rootino Hr. apply yields_if; intros _; [apply yields_panic|].
  do 2 (apply yields_seq; [apply add_entry_typed; repeat (apply Forall_cons; split; [cbn; lia|]); apply Forall_nil_2|]).
  apply yields_seq; [apply yields_mfor; eapply Forall_impl; [exact Hf|]; intros f; apply add_file_typed|]. apply yields_seq; [apply fix_root_typed|].
  apply (yields_bind (fun _ => True)); [by apply yields_gets|]. intros used _. apply mk_balloc_typed.
Qed.

(** C17: The image is made of blocks.  Whatever files mkfs is given, fitting or
    not, if it ends without an error then every sector it wrote is a block of
    BSIZE bytes, at an offset a uint can hold, and the counters of inodes and
    blocks have stayed uints. *)
Theorem mkfs_typed files s : Forall input_bytes files -> mkfs files mkfs_start = Ok tt s -> mkst_ok s.
Proof. intros Hf E. pose proof (mkfs_yields files Hf mkfs_start mkfs_start_typed) as H. rewrite E in H. apply H. Qed.

Lemma demo_bytes : Forall input_bytes demo.
Proof.
  apply Forall_cons. split; [split; repeat (apply Forall_cons; split; [cbn; lia|]); repeat constructor; lia|]. apply Forall_cons. split; [|apply Forall_nil_2].
  split; [repeat (apply Forall_cons; split; [cbn; lia|]); apply Forall_nil_2|]. apply Forall_replicate, Forall_replicate. lia.
Qed.

Lemma mkfs_typed_witness : exists s, mkfs demo mkfs_start = Ok tt s /\ mkst_ok s.
Proof. destruct (mkfs_spec demo eq_refl) as (s & V & E & _). exists s. split; [exact E|]. exact (mkfs_typed demo s demo_bytes E). Defined.
