(* ===== verification/VmSpec.v ===== *)
(** * The page-table invariant and the specification of walk

    A [shape] records which pages hold the tables of a three-level tree; the
    invariant ties it to the entries in memory.  [pte_of] reads the leaf entry
    of a virtual page number through the shape.  The lemmas say that [walk]
    finds that entry, that it creates missing tables from free pages, and that
    creating tables changes no mapping. *)

From S2P Require Import Prelude CString Layout Spinlock Kalloc Vm.

(** ** Frames: what an operation may change *)

(** The hart is unchanged except perhaps for the saved interrupt flag. *)
Definition same_hart (h h' : hart) : Prop := h' = h \/ h' = touched h.

Lemma same_hart_trans h1 h2 h3 : same_hart h1 h2 -> same_hart h2 h3 -> same_hart h1 h3.
Proof.
  intros [->| ->] [->| ->]; unfold same_hart; auto. right. apply touched_twice.
Qed.

(** [frame s s' ps]: from [s] to [s'] memory changed only in the pages [ps],
    and the hart and the kernel page table are as before. *)
Record frame (s s' : mst) (ps : list Z) : Prop := {
  fr_hart : same_hart (m_hart s) (m_hart s');
  fr_kpgtbl : m_kpgtbl s' = m_kpgtbl s;
  fr_mem : only_pages (m_mem s) ps (m_mem s')
}.

Lemma frame_refl s ps : frame s s ps.
Proof. split; [by left|done|apply only_pages_refl]. Qed.

Lemma frame_trans s1 s2 s3 ps : frame s1 s2 ps -> frame s2 s3 ps -> frame s1 s3 ps.
Proof.
  intros [Hh1 Hk1 Hm1] [Hh2 Hk2 Hm2]. split.
  - by eapply same_hart_trans.
  - congruence.
  - intros a Ha. by rewrite Hm2, Hm1.
Qed.

Lemma frame_weaken s s' ps qs :
  frame s s' ps -> (forall p, p ∈ ps -> p ∈ qs) -> frame s s' qs.
Proof. intros [Hh Hk Hm] Hsub. split; [done..|]. by eapply only_pages_weaken. Qed.

(** ** Words in pages *)

(** Entry [j] of the table at [t]. *)
Definition slot (m : mem) (t j : Z) : Z := rd64 m (t + 8 * j).

Lemma slot_frame m ps m' t j :
  only_pages m ps m' -> t mod PGSIZE = 0 -> Forall (fun q => q mod PGSIZE = 0) ps ->
  t ∉ ps -> 0 <= j < 512 -> slot m' t j = slot m t j.
Proof. intros. eapply only_pages_rd64; try done. consts. lia. Qed.

Lemma slot_wr_same m t j v : slot (wr64 m (t + 8 * j) v) t j = u64 v.
Proof. apply rd64_wr64_same. Qed.

Lemma slot_wr_ne m t j t' j' v :
  t mod PGSIZE = 0 -> t' mod PGSIZE = 0 -> 0 <= j < 512 -> 0 <= j' < 512 ->
  t <> t' \/ j <> j' -> slot (wr64 m (t + 8 * j) v) t' j' = slot m t' j'.
Proof. intros. apply rd64_wr64_ne. klia. Qed.

Lemma slot_zero m t j : 0 <= j < 512 -> slot (memset m t 0 PGSIZE) t j = 0.
Proof.
  intros Hj. apply rd64_zero. intros i Hi. rewrite rd_memset by (consts; lia).
  destruct (Z.leb_spec t (t + 8 * j + i)); [|lia].
  destruct (Z.ltb_spec (t + 8 * j + i) (t + PGSIZE)); [done|consts; lia].
Qed.

(** ** Shapes *)

(** [sh_l1]: root index to level-1 table; [sh_l0]: 18-bit prefix of a virtual
    page number to level-0 table. *)
Record shape := Shape { sh_root : Z; sh_l1 : gmap Z Z; sh_l0 : gmap Z Z }.

(** All the pages that hold tables. *)
Definition tables (sh : shape) : list Z :=
  sh_root sh :: (map_to_list (sh_l1 sh)).*2 ++ (map_to_list (sh_l0 sh)).*2.

(** A directory entry: invalid, or a pointer to the table [p]. *)
Definition pde_ok (v : Z) (o : option Z) : Prop :=
  match o with
  | None => Z.testbit v 0 = false
  | Some p => v = mkpte p PTE_V
  end.

Record pt_wf (m : mem) (sh : shape) : Prop := {
  wf_root : forall i, 0 <= i < 512 -> pde_ok (slot m (sh_root sh) i) (sh_l1 sh !! i);
  wf_l1 : forall i p j, sh_l1 sh !! i = Some p -> 0 <= j < 512 ->
            pde_ok (slot m p j) (sh_l0 sh !! (512 * i + j));
  wf_l1_dom : forall i p, sh_l1 sh !! i = Some p -> 0 <= i < 512;
  wf_l0_dom : forall k q, sh_l0 sh !! k = Some q -> is_Some (sh_l1 sh !! (k / 512))
}.

(** The leaf entry of virtual page [vpn], 0 when there is no table for it. *)
Definition pte_of (m : mem) (sh : shape) (vpn : Z) : Z :=
  match sh_l0 sh !! (vpn / 512) with
  | Some q => slot m q (vpn mod 512)
  | None => 0
  end.

(** The address of that entry, as walk returns it. *)
Definition leaf_addr (sh : shape) (vpn : Z) : Z :=
  match sh_l0 sh !! (vpn / 512) with
  | Some q => q + 8 * (vpn mod 512)
  | None => 0
  end.

(** The allocator and one page table, on disjoint pages. *)
Record vm_inv `{KernelImage} (s : mst) (l : list Z) (sh : shape) : Prop := {
  vi_kmem : kmem_inv s l;
  vi_wf : pt_wf (m_mem s) sh;
  vi_nodup : NoDup (tables sh);
  vi_pages : Forall page_ok (tables sh);
  vi_disj : forall p, p ∈ tables sh -> p ∉ l
}.

Lemma elem_of_snds (m : gmap Z Z) x :
  x ∈ (map_to_list m).*2 <-> exists i, m !! i = Some x.
Proof.
  rewrite list_elem_of_fmap. split.
  - intros ([i y] & -> & Hin%elem_of_map_to_list). by exists i.
  - intros (i & Hi). exists (i, x). split; [done|]. by apply elem_of_map_to_list.
Qed.

Lemma elem_of_tables sh p :
  p ∈ tables sh <->
  p = sh_root sh \/ (exists i, sh_l1 sh !! i = Some p) \/ (exists k, sh_l0 sh !! k = Some p).
Proof. unfold tables. by rewrite elem_of_cons, elem_of_app, !elem_of_snds. Qed.

(** ** Indices *)

Lemma PX2_vpn va : 0 <= va < MAXVA -> PX 2 va = va / 4096 / 512 / 512.
Proof. intros Hva. rewrite PX_eq by lia. simpl (2 ^ _). klia. Qed.

Lemma PX1_vpn va : 0 <= va < MAXVA -> PX 1 va = (va / 4096 / 512) mod 512.
Proof.
  intros Hva. rewrite PX_eq by lia. rewrite Z.div_div by lia. done.
Qed.

Lemma PX0_vpn va : 0 <= va < MAXVA -> PX 0 va = (va / 4096) mod 512.
Proof. intros Hva. by rewrite PX_eq. Qed.

Lemma PX_range level va : 0 <= level -> 0 <= PX level va < 512.
Proof. intros Hl. rewrite PX_eq by done. by apply Z.mod_pos_bound. Qed.

Section Walk.
Context `{HI : KernelImage}.
Context `{HOk : !ImageOk}.

(** ** Equations of the loop of walk *)

Lemma walk_levels_0 t va alloc s : walk_levels 0 t va alloc s = Ok (t + 8 * PX 0 va) s.
Proof. done. Qed.

Lemma walk_levels_valid n t va alloc s p :
  slot (m_mem s) t (PX (Z.of_nat (S n)) va) = mkpte p PTE_V -> page_ok p ->
  walk_levels (S n) t va alloc s = walk_levels n p va alloc s.
Proof.
  intros Hs Hp. unfold walk_levels at 1. fold walk_levels. unfold load64. mstep.
  change (rd64 (m_mem s) ?a) with (slot (m_mem s) t (PX (Z.of_nat (S n)) va)). rewrite Hs.
  pose proof (page_ok_56 p Hp) as H56.
  rewrite truthy_V, testbit_mkpte by (done || lia). simpl (Z.testbit PTE_V 0). cbv iota.
  rewrite mkpte_PTE2PA; [done|done|apply Hp|done].
Qed.

Lemma walk_levels_invalid n t va s :
  Z.testbit (slot (m_mem s) t (PX (Z.of_nat (S n)) va)) 0 = false ->
  walk_levels (S n) t va 0 s = Ok 0 s.
Proof.
  intros Hs. unfold walk_levels at 1. fold walk_levels. unfold load64. mstep.
  change (rd64 (m_mem s) ?a) with (slot (m_mem s) t (PX (Z.of_nat (S n)) va)).
  by rewrite truthy_V, Hs.
Qed.

(** walk with alloc = 0 returns the address of the leaf entry and changes nothing. *)
Lemma walk_lookup s l sh va :
  vm_inv s l sh -> 0 <= va < MAXVA ->
  walk (sh_root sh) va 0 s = Ok (leaf_addr sh (va / 4096)) s.
Proof.
  intros [_ [Hroot Hl1 Hd1 Hd0] _ Hpg _] Hva. unfold walk.
  destruct (Z.leb_spec MAXVA va); [lia|]. rewrite Forall_forall in Hpg.
  specialize (Hroot (PX 2 va) (PX_range 2 va ltac:(lia))).
  rewrite PX2_vpn in Hroot at 2 by done. unfold leaf_addr.
  destruct (sh_l1 sh !! (va / 4096 / 512 / 512)) as [p|] eqn:E1; simpl in Hroot.
  - rewrite (walk_levels_valid _ _ _ _ _ p) by
      (done || apply Hpg, elem_of_tables; eauto).
    specialize (Hl1 _ p (PX 1 va) E1 (PX_range 1 va ltac:(lia))).
    rewrite PX1_vpn in Hl1 at 2 by done.
    replace (512 * (va / 4096 / 512 / 512) + (va / 4096 / 512) mod 512)
      with (va / 4096 / 512) in Hl1 by zlia.
    destruct (sh_l0 sh !! (va / 4096 / 512)) as [q|] eqn:E0; simpl in Hl1.
    + rewrite (walk_levels_valid _ _ _ _ _ q) by
        (done || apply Hpg, elem_of_tables; eauto).
      by rewrite walk_levels_0, PX0_vpn.
    + by rewrite walk_levels_invalid.
  - rewrite walk_levels_invalid by done.
    destruct (sh_l0 sh !! (va / 4096 / 512)) as [q|] eqn:E0; [|done].
    apply Hd0 in E0 as [x Hx]. congruence.
Qed.

(** ** Distinct tables *)

Lemma snds_inj (m : gmap Z Z) i j x :
  NoDup (map_to_list m).*2 -> m !! i = Some x -> m !! j = Some x -> i = j.
Proof.
  intros Hnd Hi Hj. destruct (decide (i = j)) as [|Hne]; [done|exfalso].
  rewrite <- (insert_delete_id m i x), map_to_list_insert in Hnd by (done || apply lookup_delete_eq).
  apply NoDup_cons in Hnd as [Hnin _]. apply Hnin, elem_of_snds. exists j.
  by rewrite lookup_delete_ne.
Qed.

Lemma tables_distinct sh :
  NoDup (tables sh) ->
  (forall i p, sh_l1 sh !! i = Some p -> p <> sh_root sh) /\
  (forall k q, sh_l0 sh !! k = Some q -> q <> sh_root sh) /\
  (forall i p k q, sh_l1 sh !! i = Some p -> sh_l0 sh !! k = Some q -> p <> q) /\
  (forall i i' p, sh_l1 sh !! i = Some p -> sh_l1 sh !! i' = Some p -> i = i') /\
  (forall k k' q, sh_l0 sh !! k = Some q -> sh_l0 sh !! k' = Some q -> k = k').
Proof.
  unfold tables. intros [Hr (H1 & Hd & H0)%NoDup_app]%NoDup_cons.
  rewrite elem_of_app, !elem_of_snds in Hr. split_and!.
  - intros i p Hp ->. apply Hr. eauto.
  - intros k q Hq ->. apply Hr. eauto.
  - intros i p k q Hp Hq ->. apply (Hd q); apply elem_of_snds; eauto.
  - intros i i' p. by apply snds_inj.
  - intros k k' q. by apply snds_inj.
Qed.

Definition add_l1 (i x : Z) (sh : shape) : shape :=
  Shape (sh_root sh) (<[i := x]> (sh_l1 sh)) (sh_l0 sh).
Definition add_l0 (k x : Z) (sh : shape) : shape :=
  Shape (sh_root sh) (sh_l1 sh) (<[k := x]> (sh_l0 sh)).

Lemma tables_add_l1 i x sh : sh_l1 sh !! i = None -> tables (add_l1 i x sh) ≡ₚ x :: tables sh.
Proof.
  intros Hi. unfold tables, add_l1; simpl. rewrite map_to_list_insert by done. simpl.
  apply Permutation_swap.
Qed.

Lemma tables_add_l0 k x sh : sh_l0 sh !! k = None -> tables (add_l0 k x sh) ≡ₚ x :: tables sh.
Proof.
  intros Hk. unfold tables, add_l0; simpl. rewrite map_to_list_insert by done. simpl.
  rewrite <- Permutation_middle. apply Permutation_swap.
Qed.

(** ** A new table *)

(** Memory after walk has put the fresh page [x] into the entry at [a]. *)
Definition newtab (m : mem) (x a : Z) : mem :=
  wr64 (memset (memset m x 5 PGSIZE) x 0 PGSIZE) a (mkpte x PTE_V).

Lemma slot_memset_ne m x c t i :
  x mod PGSIZE = 0 -> t mod PGSIZE = 0 -> t <> x -> 0 <= i < 512 ->
  slot (memset m x c PGSIZE) t i = slot m t i.
Proof.
  intros Hx Ht Hne Hi. apply (slot_frame m [x]); try done.
  - apply memset_page_only.
  - by apply Forall_singleton.
  - set_solver.
Qed.

Lemma newtab_zero m x t j i :
  x mod PGSIZE = 0 -> t mod PGSIZE = 0 -> x <> t -> 0 <= j < 512 -> 0 <= i < 512 ->
  slot (newtab m x (t + 8 * j)) x i = 0.
Proof. intros. unfold newtab. rewrite slot_wr_ne by auto. by apply slot_zero. Qed.

Lemma newtab_entry m x t j : page_ok x -> slot (newtab m x (t + 8 * j)) t j = mkpte x PTE_V.
Proof.
  intros Hx. unfold newtab. rewrite slot_wr_same. apply u64_small.
  pose proof (mkpte_range x PTE_V (page_ok_56 x Hx) ltac:(done)). lia.
Qed.

Lemma newtab_only m x t j :
  0 <= j < 512 -> only_pages m [x; t] (newtab m x (t + 8 * j)).
Proof.
  intros Hj a Ha. unfold newtab.
  rewrite (wr64_page_only _ t (8 * j)), (memset_page_only _ x 0), (memset_page_only _ x 5);
    [done| | | |]; try (consts; lia).
  all: intros p ->%list_elem_of_singleton; apply Ha; set_solver.
Qed.

Lemma newtab_other m x t j t' i :
  x mod PGSIZE = 0 -> t mod PGSIZE = 0 -> t' mod PGSIZE = 0 -> 0 <= j < 512 -> 0 <= i < 512 ->
  t' <> x -> t' <> t \/ i <> j -> slot (newtab m x (t + 8 * j)) t' i = slot m t' i.
Proof.
  intros. unfold newtab. rewrite slot_wr_ne by (done || lia).
  by rewrite !slot_memset_ne.
Qed.

Lemma newtab_effect m m' x t j :
  mem_is m' (newtab m x (t + 8 * j)) -> page_ok x -> page_ok t -> x <> t -> 0 <= j < 512 ->
  slot m' t j = mkpte x PTE_V /\
  (forall i, 0 <= i < 512 -> slot m' x i = 0) /\
  (forall t' i, t' mod PGSIZE = 0 -> 0 <= i < 512 -> t' <> x -> t' <> t \/ i <> j ->
     slot m' t' i = slot m t' i) /\
  only_pages m [x; t] m'.
Proof.
  intros Hm Hx Ht Hne Hj. unfold mem_is in Hm. subst m'. pose proof (proj1 Hx). pose proof (proj1 Ht). split_and!.
  - by apply newtab_entry.
  - intros i Hi. by apply newtab_zero.
  - intros t' i ? Hi ? ?. by apply newtab_other.
  - by apply newtab_only.
Qed.

(** One level of walk that has to create a table. *)
Lemma walk_levels_alloc n t va s l :
  kmem_inv s l -> page_ok t -> t ∉ l ->
  Z.testbit (slot (m_mem s) t (PX (Z.of_nat (S n)) va)) 0 = false ->
  match l with
  | [] => walk_levels (S n) t va 1 s = Ok 0 (put_hart (touched (m_hart s)) s)
  | x :: l' => exists s',
      walk_levels (S n) t va 1 s = walk_levels n x va 1 s' /\ kmem_inv s' l' /\
      mem_is (m_mem s') (newtab (m_mem s) x (t + 8 * PX (Z.of_nat (S n)) va)) /\
      m_hart s' = touched (m_hart s) /\ m_kpgtbl s' = m_kpgtbl s
  end.
Proof.
  intros Hi Ht Htl Hs. apply kalloc_inv in Hi as Hk.
  assert (walk_levels (S n) t va 1 s =
    (let! x := kalloc in
     if x =? 0 then ret 0 else
     kmemset x 0 PGSIZE;;
     store64 (t + 8 * PX (Z.of_nat (S n)) va) (mkpte x PTE_V);;
     walk_levels n x va 1) s) as ->.
  { unfold walk_levels at 1. fold walk_levels. unfold load64. mstep.
    change (rd64 (m_mem s) ?a) with (slot (m_mem s) t (PX (Z.of_nat (S n)) va)).
    by rewrite truthy_V, Hs. }
  destruct l as [|x l].
  { by rewrite (bind_Ok _ _ _ _ _ Hk). }
  destruct Hk as (s1 & Hs1 & Hi1 & Hh1 & Hm1 & Hk1). rewrite (bind_Ok _ _ _ _ _ Hs1).
  pose proof (ki_pages _ _ Hi) as [Hx Hl]%Forall_cons.
  pose proof (ki_nodup _ _ Hi) as [Hxl _]%NoDup_cons.
  pose proof (page_ok_nz x Hx). destruct (Z.eqb_spec x 0); [lia|].
  assert (0 <= PX (Z.of_nat (S n)) va < 512) by (apply PX_range; lia).
  unfold kmemset, store64. mstep. eexists. split; [reflexivity|]. unfold set_mem; simpl.
  split_and!; [|unfold mem_is in *; rewrite Hm1; reflexivity|assumption..].
  destruct Hi1. split; [assumption..| |assumption|assumption]. simpl.
  eapply (fl_rep_frame _ _ _ _ [x; t]); [eassumption| |assumption| |].
  - intros a Ha. 
    rewrite (wr64_page_only _ t), (memset_page_only _ x 0); [reflexivity| |consts; lia|];
    intros p ->%list_elem_of_singleton; apply Ha; rewrite !elem_of_cons; tauto.
  - repeat constructor; apply Hx || apply Ht.
  - intros y Hy [->|[->|[]%elem_of_nil]%elem_of_cons]%elem_of_cons; [contradiction|].
    apply Htl. by right.
Qed.

(** ** The invariant survives a new table *)

Lemma table_facts s x l sh :
  vm_inv s (x :: l) sh ->
  page_ok x /\ (forall p, p ∈ tables sh -> page_ok p /\ p <> x /\ p ∉ l).
Proof.
  intros [Hk _ _ Hpg Hd]. destruct Hk as [_ _ _ _ Hfp]. apply Forall_cons in Hfp as [Hx _].
  split; [done|]. intros p Hp. rewrite Forall_forall in Hpg. split_and!; [by apply Hpg| |].
  - intros ->. apply (Hd x Hp). by left.
  - intros Hin. apply (Hd p Hp). by right.
Qed.

Lemma tables_extend sh sh' x l :
  tables sh' ≡ₚ x :: tables sh -> NoDup (x :: l) -> page_ok x ->
  NoDup (tables sh) -> Forall page_ok (tables sh) ->
  (forall p, p ∈ tables sh -> p <> x /\ p ∉ l) ->
  NoDup (tables sh') /\ Forall page_ok (tables sh') /\ (forall p, p ∈ tables sh' -> p ∉ l).
Proof.
  intros Hperm [Hxl _]%NoDup_cons Hx Hnd Hpg Hd. split_and!.
  - rewrite Hperm. apply NoDup_cons. split; [|done]. intros Hin. by destruct (Hd x Hin).
  - rewrite Hperm. by apply Forall_cons.
  - intros p. rewrite Hperm, elem_of_cons. intros [->|Hp]; [done|]. by apply Hd.
Qed.

Lemma vm_inv_add_l1 s s' x l sh i :
  vm_inv s (x :: l) sh -> kmem_inv s' l -> 0 <= i < 512 -> sh_l1 sh !! i = None ->
  mem_is (m_mem s') (newtab (m_mem s) x (sh_root sh + 8 * i)) ->
  vm_inv s' l (add_l1 i x sh) /\
  (forall vpn, pte_of (m_mem s') (add_l1 i x sh) vpn = pte_of (m_mem s) sh vpn).
Proof.
  intros Hinv Hk' Hi Hnone. pose proof (table_facts _ _ _ _ Hinv) as [Hx Ht].
  destruct Hinv as [Hk [Hroot Hl1 Hd1 Hd0] Hnd Hpg Hdisj].
  pose proof (tables_distinct sh Hnd) as (D1 & D2 & D3 & D4 & D5).
  assert (forall p, p ∈ tables sh -> p mod PGSIZE = 0) as Hal by (intros p Hp; by apply Ht).
  assert (sh_root sh ∈ tables sh) as Hrt by (apply elem_of_tables; auto).
  assert (forall j p, sh_l1 sh !! j = Some p -> p ∈ tables sh) as Ht1 by
    (intros; apply elem_of_tables; eauto).
  assert (forall k q, sh_l0 sh !! k = Some q -> q ∈ tables sh) as Ht0 by
    (intros; apply elem_of_tables; eauto).
  assert (x <> sh_root sh) as Hxr by (intros ->; by destruct (Ht _ Hrt) as (_ & [] & _)).
  intros Hm. destruct (newtab_effect _ _ _ _ _ Hm Hx (proj1 (Ht _ Hrt)) Hxr Hi)
    as (Hent & Hzero & Hoth & _). clear Hm.
  assert (forall t j, t ∈ tables sh -> 0 <= j < 512 -> t <> sh_root sh \/ j <> i ->
          slot (m_mem s') t j = slot (m_mem s) t j) as Hold.
  { intros t j Hin Hj Hne. apply Hoth; auto. by apply Ht. }
  split.
  - destruct (tables_extend sh (add_l1 i x sh) x l) as (? & ? & ?); auto.
    { by apply tables_add_l1. } { apply Hk. } { intros p Hp. by apply Ht. }
    split; auto. split; simpl.
    + intros j Hj. destruct (decide (i = j)) as [<-|Hne].
      * by rewrite lookup_insert_eq.
      * rewrite lookup_insert_ne by done. rewrite Hold by auto. by apply Hroot.
    + intros j p k. destruct (decide (i = j)) as [<-|Hne].
      * rewrite lookup_insert_eq. intros [= <-] Hj. rewrite Hzero by done.
        destruct (sh_l0 sh !! (512 * i + k)) eqn:E; [|done].
        apply Hd0 in E as [y Hy]. replace ((512 * i + k) / 512) with i in Hy by zlia. congruence.
      * rewrite lookup_insert_ne by done. intros Hp Hj. rewrite Hold; eauto.
    + intros j p [[-> _]|[_ ?]]%lookup_insert_Some; eauto.
    + intros k q Hq. rewrite lookup_insert_is_Some. destruct (Hd0 _ _ Hq).
      destruct (decide (i = k / 512)); eauto.
  - intros vpn. unfold pte_of, add_l1. simpl. destruct (sh_l0 sh !! (vpn / 512)) eqn:E; [|done].
    apply Hold; eauto. zlia.
Qed.

Lemma vm_inv_add_l0 s s' x l sh k t :
  vm_inv s (x :: l) sh -> kmem_inv s' l -> sh_l1 sh !! (k / 512) = Some t -> sh_l0 sh !! k = None ->
  mem_is (m_mem s') (newtab (m_mem s) x (t + 8 * (k mod 512))) ->
  vm_inv s' l (add_l0 k x sh) /\
  (forall vpn, pte_of (m_mem s') (add_l0 k x sh) vpn = pte_of (m_mem s) sh vpn).
Proof.
  intros Hinv Hk' Hit Hnone. pose proof (table_facts _ _ _ _ Hinv) as [Hx Ht].
  destruct Hinv as [Hk [Hroot Hl1 Hd1 Hd0] Hnd Hpg Hdisj].
  pose proof (tables_distinct sh Hnd) as (D1 & D2 & D3 & D4 & D5).
  assert (forall p, p ∈ tables sh -> p mod PGSIZE = 0) as Hal by (intros p Hp; by apply Ht).
  assert (sh_root sh ∈ tables sh) as Hrt by (apply elem_of_tables; auto).
  assert (forall j p, sh_l1 sh !! j = Some p -> p ∈ tables sh) as Ht1 by
    (intros; apply elem_of_tables; eauto).
  assert (forall k q, sh_l0 sh !! k = Some q -> q ∈ tables sh) as Ht0 by
    (intros; apply elem_of_tables; eauto).
  assert (0 <= k mod 512 < 512) as Hkr by (by apply Z.mod_pos_bound).
  assert (t ∈ tables sh) as Htt by eauto.
  assert (x <> t) as Hxt by (intros ->; by destruct (Ht _ Htt) as (_ & [] & _)).
  intros Hm. destruct (newtab_effect _ _ _ _ _ Hm Hx (proj1 (Ht _ Htt)) Hxt Hkr)
    as (Hent & Hzero & Hoth & _). clear Hm.
  assert (forall p j, p ∈ tables sh -> 0 <= j < 512 -> p <> t \/ j <> k mod 512 ->
          slot (m_mem s') p j = slot (m_mem s) p j) as Hold.
  { intros p j Hin Hj Hne. apply Hoth; auto. by apply Ht. }
  split.
  - destruct (tables_extend sh (add_l0 k x sh) x l) as (? & ? & ?); auto.
    { by apply tables_add_l0. } { apply Hk. } { intros p Hp. by apply Ht. }
    split; auto. split; simpl; [|..|done|].
    + intros j Hj. rewrite Hold; auto. left. intros Heq. by apply (D1 _ _ Hit).
    + intros j p i Hp Hi. destruct (decide (512 * j + i = k)) as [<-|Hne].
      * rewrite lookup_insert_eq. simpl. 
        replace ((512 * j + i) / 512) with j in Hit by zlia.
        replace ((512 * j + i) mod 512) with i in Hent by zlia. by simplify_eq.
      * rewrite lookup_insert_ne by done. rewrite Hold; eauto.
        destruct (decide (p = t)) as [->|]; [|by left]. right. intros ->.
        assert (j = k / 512) by eauto. subst. apply Hne. zlia.
    + intros k' q [[-> _]|[_ ?]]%lookup_insert_Some; eauto.
  - intros vpn. unfold pte_of, add_l0. simpl. destruct (decide (k = vpn / 512)) as [->|Hne].
    + rewrite lookup_insert_eq, Hnone. apply Hzero. zlia.
    + rewrite lookup_insert_ne by done. destruct (sh_l0 sh !! (vpn / 512)) eqn:E; [|done].
      apply Hold; eauto; [zlia|]. left. intros ->. by apply (D3 _ _ _ _ Hit E).
Qed.

(** ** Which tables there are *)

(** Every table is on the path to a page of [K]. *)
Definition leads (K : Z -> Prop) (sh : shape) : Prop :=
  (forall k, is_Some (sh_l0 sh !! k) -> exists v, K v /\ k = v / 512) /\
  (forall i, is_Some (sh_l1 sh !! i) -> exists v, K v /\ i = v / 512 / 512).

(** The tables that [sh'] has and [sh] had not are on the paths to [ask]. *)
Definition serves (ask : Z -> Prop) (sh sh' : shape) : Prop :=
  forall K, (forall v, ask v -> K v) -> leads K sh -> leads K sh'.

Lemma leads_weaken (K K' : Z -> Prop) sh : leads K sh -> (forall v, K v -> K' v) -> leads K' sh.
Proof.
  intros [H0 H1] HK. split; [intros k (v & Hv & ->)%H0|intros k (v & Hv & ->)%H1]; exists v; auto.
Qed.

Lemma serves_refl ask sh : serves ask sh sh.
Proof. by intros K _. Qed.

Lemma serves_trans ask sh1 sh2 sh3 : serves ask sh1 sh2 -> serves ask sh2 sh3 -> serves ask sh1 sh3.
Proof. intros H1 H2 K HK HL. by apply H2, H1. Qed.

Lemma serves_weaken (ask ask' : Z -> Prop) sh sh' : serves ask sh sh' -> (forall v, ask v -> ask' v) -> serves ask' sh sh'.
Proof. intros H Hw K HK. apply H. auto. Qed.

Lemma serves_add_l1 vpn x sh : serves (eq vpn) sh (add_l1 (vpn / 512 / 512) x sh).
Proof.
  intros K HK [H0 H1]. split; [done|]. intros i [p Hp]. cbn in Hp.
  apply lookup_insert_Some in Hp as [[<- _]|[_ Hp]]; [exists vpn; auto|by apply H1].
Qed.

Lemma serves_add_l0 vpn x sh : serves (eq vpn) sh (add_l0 (vpn / 512) x sh).
Proof.
  intros K HK [H0 H1]. split; [|done]. intros k [p Hp]. cbn in Hp.
  apply lookup_insert_Some in Hp as [[<- _]|[_ Hp]]; [exists vpn; auto|by apply H0].
Qed.

(** The number of tables of an address space with [n] pages from 0 on and
    the two at the top: the root, one of each level for the top, and those that
    [n] pages fill. *)
Definition tables_for (n : Z) : Z := 3 + (n + 511) / 512 + (n + 262143) / 262144.

Lemma size_le (m : gmap Z Z) ks : (forall k, is_Some (m !! k) -> k ∈ ks) -> (length (map_to_list m).*2 <= length ks)%nat.
Proof.
  intros H. rewrite length_fmap, <- (length_fmap fst). apply submseteq_length, NoDup_submseteq; [apply NoDup_fst_map_to_list|].
  intros k ([k' v] & -> & Hin%elem_of_map_to_list)%list_elem_of_fmap. apply H. by exists v.
Qed.

Lemma tables_le n top sh : 0 <= n -> leads (fun v => 0 <= v < n \/ v / 512 = top) sh -> Z.of_nat (length (tables sh)) <= tables_for n.
Proof.
  intros Hn [H0 H1]. unfold tables, tables_for. cbn [length]. rewrite length_app.
  pose proof (size_le (sh_l0 sh) (top :: seqZ 0 ((n + 511) / 512))) as L0.
  pose proof (size_le (sh_l1 sh) (top / 512 :: seqZ 0 ((n + 262143) / 262144))) as L1.
  cbn [length] in L0, L1. rewrite length_seqZ in L0, L1.
  assert (length (map_to_list (sh_l0 sh)).*2 <= S (Z.to_nat ((n + 511) / 512)))%nat.
  { apply L0. intros k (v & Hv & ->)%H0. rewrite elem_of_cons, elem_of_seqZ. destruct Hv; [right; zlia|by left]. }
  assert (length (map_to_list (sh_l1 sh)).*2 <= S (Z.to_nat ((n + 262143) / 262144)))%nat.
  { apply L1. intros k (v & Hv & ->)%H1. rewrite elem_of_cons, elem_of_seqZ. destruct Hv as [Hv|<-]; [right; zlia|by left]. }
  zlia.
Qed.

(** ** Growing a page table *)

(** From [s] to [s'] the page table may have taken free pages for new tables:
    the pages in play are conserved and only they have changed. *)
Record ext (s : mst) (l : list Z) (sh : shape) (s' : mst) (l' : list Z) (sh' : shape) : Prop := {
  ex_inv : vm_inv s' l' sh';
  ex_root : sh_root sh' = sh_root sh;
  ex_l0 : forall k q, sh_l0 sh !! k = Some q -> sh_l0 sh' !! k = Some q;
  ex_pages : l' ++ tables sh' ≡ₚ l ++ tables sh;
  ex_suffix : l' `suffix_of` l;
  ex_frame : frame s s' (l ++ tables sh)
}.

(** The same, and no leaf entry has changed. *)
Record grow (s : mst) (l : list Z) (sh : shape) (s' : mst) (l' : list Z) (sh' : shape) : Prop := {
  gr_ext : ext s l sh s' l' sh';
  gr_pte : forall vpn, pte_of (m_mem s') sh' vpn = pte_of (m_mem s) sh vpn
}.

Lemma ext_refl s l sh : vm_inv s l sh -> ext s l sh s l sh.
Proof. intros Hi. split; auto using frame_refl. Qed.

Lemma ext_trans s1 l1 sh1 s2 l2 sh2 s3 l3 sh3 :
  ext s1 l1 sh1 s2 l2 sh2 -> ext s2 l2 sh2 s3 l3 sh3 -> ext s1 l1 sh1 s3 l3 sh3.
Proof.
  intros [I1 R1 L1 C1 S1 F1] [I2 R2 L2 C2 S2 F2]. split; auto.
  - congruence.
  - by rewrite C2.
  - by etransitivity.
  - eapply frame_trans; [done|]. eapply frame_weaken; [done|]. intros p Hp. by rewrite <- C1.
Qed.

Lemma grow_refl s l sh : vm_inv s l sh -> grow s l sh s l sh.
Proof. intros Hi. split; auto using ext_refl. Qed.

Lemma grow_trans s1 l1 sh1 s2 l2 sh2 s3 l3 sh3 :
  grow s1 l1 sh1 s2 l2 sh2 -> grow s2 l2 sh2 s3 l3 sh3 -> grow s1 l1 sh1 s3 l3 sh3.
Proof.
  intros [E1 P1] [E2 P2]. split; [by eapply ext_trans|]. intros vpn. by rewrite P2, P1.
Qed.

Lemma kmem_inv_touch s l : kmem_inv s l -> kmem_inv (put_hart (touched (m_hart s)) s) l.
Proof. intros []. split; auto. by apply touched_ok. Qed.

Lemma vm_inv_touch s l sh : vm_inv s l sh -> vm_inv (put_hart (touched (m_hart s)) s) l sh.
Proof. intros []. split; auto. by apply kmem_inv_touch. Qed.

Lemma frame_touch s ps : frame s (put_hart (touched (m_hart s)) s) ps.
Proof. split; [by right|done|apply only_pages_refl]. Qed.

Lemma grow_touch s l sh : vm_inv s l sh -> grow s l sh (put_hart (touched (m_hart s)) s) l sh.
Proof. intros Hi. split; [|done]. split; auto using vm_inv_touch, frame_touch. Qed.

Lemma grow_add s x l sh s' sh' t j :
  vm_inv s (x :: l) sh -> vm_inv s' l sh' -> sh_root sh' = sh_root sh ->
  (forall vpn, pte_of (m_mem s') sh' vpn = pte_of (m_mem s) sh vpn) ->
  (forall k q, sh_l0 sh !! k = Some q -> sh_l0 sh' !! k = Some q) ->
  tables sh' ≡ₚ x :: tables sh -> t ∈ tables sh -> 0 <= j < 512 ->
  m_hart s' = touched (m_hart s) -> m_kpgtbl s' = m_kpgtbl s ->
  mem_is (m_mem s') (newtab (m_mem s) x (t + 8 * j)) ->
  grow s (x :: l) sh s' l sh'.
Proof.
  intros Hi Hi' Hr Hp Hl0 Htab Ht Hj Hh Hk Hm. split; [|exact Hp]. split; auto.
  - rewrite Htab. rewrite <- Permutation_middle. reflexivity.
  - by exists [x].
  - split; [by right|done|]. unfold mem_is in Hm. rewrite Hm.
    eapply only_pages_weaken; [by apply newtab_only|].
    intros p [->|[->|[]%elem_of_nil]%elem_of_cons]%elem_of_cons; apply elem_of_app;
      [left; apply elem_of_cons; by left|by right].
Qed.

(** A missing level-0 table is created under an existing level-1 table. *)
Lemma walk_alloc_l0 s l sh va t :
  vm_inv s l sh -> 0 <= va < MAXVA ->
  sh_l1 sh !! (va / 4096 / 512 / 512) = Some t -> sh_l0 sh !! (va / 4096 / 512) = None ->
  exists s' l' sh',
    walk_levels 1 t va 1 s = Ok (leaf_addr sh' (va / 4096)) s' /\ grow s l sh s' l' sh' /\
    (sh_l0 sh' !! (va / 4096 / 512) = None -> l' = []) /\ serves (eq (va / 4096)) sh sh'.
Proof.
  intros Hi Hva Hl1 Hl0.
  assert (t ∈ tables sh) as Ht by (apply elem_of_tables; eauto).
  assert (page_ok t) as Hpt by (eapply Forall_forall; [apply (vi_pages _ _ _ Hi)|done]).
  assert (Z.testbit (slot (m_mem s) t (PX 1 va)) 0 = false) as Hbit.
  { rewrite PX1_vpn by done.
    pose proof (wf_l1 _ _ (vi_wf _ _ _ Hi) _ _ ((va / 4096 / 512) mod 512) Hl1 ltac:(zlia)) as H1.
    replace (512 * _ + _) with (va / 4096 / 512) in H1 by zlia. by rewrite Hl0 in H1. }
  pose proof (walk_levels_alloc 0 t va s l (vi_kmem _ _ _ Hi) Hpt (vi_disj _ _ _ Hi _ Ht) Hbit) as Hw.
  destruct l as [|x l].
  - exists (put_hart (touched (m_hart s)) s), [], sh. unfold leaf_addr. rewrite Hl0, Hw.
    split_and!; [reflexivity|by apply grow_touch|done|apply serves_refl].
  - destruct Hw as (s' & -> & Hk & Hm & Hh & Hkp). change (Z.of_nat 1) with 1 in Hm.
    rewrite PX1_vpn in Hm by done.
    destruct (vm_inv_add_l0 s s' x l sh (va / 4096 / 512) t) as [Hi' Hp']; try assumption.
    exists s', l, (add_l0 (va / 4096 / 512) x sh). split_and!.
    + rewrite walk_levels_0, PX0_vpn by assumption. unfold leaf_addr, add_l0; simpl.
      by rewrite lookup_insert_eq.
    + apply (grow_add _ _ _ _ _ _ t ((va / 4096 / 512) mod 512) Hi Hi' eq_refl Hp'); try assumption;
        [|by apply tables_add_l0|zlia].
      intros k q Hq. simpl. rewrite lookup_insert_ne by congruence. assumption.
    + simpl. rewrite lookup_insert_eq. discriminate.
    + apply serves_add_l0.
Qed.

Lemma walk_alloc s l sh va :
  vm_inv s l sh -> 0 <= va < MAXVA ->
  exists s' l' sh',
    walk (sh_root sh) va 1 s = Ok (leaf_addr sh' (va / 4096)) s' /\ grow s l sh s' l' sh' /\
    (sh_l0 sh' !! (va / 4096 / 512) = None -> l' = []) /\ serves (eq (va / 4096)) sh sh'.
Proof.
  intros Hi Hva. unfold walk. destruct (Z.leb_spec MAXVA va); [lia|].
  set (r := sh_root sh). assert (r ∈ tables sh) as Hr by (apply elem_of_tables; auto).
  assert (page_ok r) as Hpr by (eapply Forall_forall; [apply (vi_pages _ _ _ Hi)|done]).
  pose proof (PX2_vpn va Hva) as HP2.
  pose proof (wf_root _ _ (vi_wf _ _ _ Hi) (PX 2 va) ltac:(apply PX_range; lia)) as Hroot.
  destruct (sh_l1 sh !! PX 2 va) as [t|] eqn:E1; fold r in Hroot; simpl in Hroot.
  - assert (page_ok t) as Hpt.
    { eapply Forall_forall; [apply (vi_pages _ _ _ Hi)|]. apply elem_of_tables; eauto. }
    rewrite (walk_levels_valid 1 _ _ _ _ t) by (exact Hroot || exact Hpt). rewrite HP2 in E1.
    destruct (sh_l0 sh !! (va / 4096 / 512)) as [q|] eqn:E0; [|by apply (walk_alloc_l0 s l sh va t)].
    exists s, l, sh. split_and!; [|by apply grow_refl|congruence|apply serves_refl].
    pose proof (wf_l1 _ _ (vi_wf _ _ _ Hi) _ _ ((va / 4096 / 512) mod 512) E1 ltac:(zlia)) as H1.
    replace (512 * _ + _) with (va / 4096 / 512) in H1 by zlia. rewrite E0 in H1. simpl in H1.
    assert (page_ok q) as Hpq.
    { eapply Forall_forall; [apply (vi_pages _ _ _ Hi)|]. apply elem_of_tables; eauto. }
    rewrite (walk_levels_valid 0 _ _ _ _ q); [|change (Z.of_nat 1) with 1; by rewrite PX1_vpn|exact Hpq].
    rewrite walk_levels_0, PX0_vpn by done. unfold leaf_addr. by rewrite E0.
  - assert (sh_l0 sh !! (va / 4096 / 512) = None) as E0.
    { destruct (sh_l0 sh !! _) eqn:E; [|done]. apply (wf_l0_dom _ _ (vi_wf _ _ _ Hi)) in E as [? E].
      rewrite HP2 in E1. congruence. }
    pose proof (walk_levels_alloc 1 r va s l (vi_kmem _ _ _ Hi) Hpr (vi_disj _ _ _ Hi _ Hr) Hroot) as Hw.
    destruct l as [|x l].
    { exists (put_hart (touched (m_hart s)) s), [], sh. unfold leaf_addr. rewrite E0, Hw.
      split_and!; [reflexivity|by apply grow_touch|done|apply serves_refl]. }
    destruct Hw as (s1 & -> & Hk & Hm & Hh & Hkp). change (Z.of_nat 2) with 2 in Hm.
    assert (0 <= PX 2 va < 512) as HPr by (apply PX_range; lia).
    destruct (vm_inv_add_l1 s s1 x l sh (PX 2 va) Hi Hk HPr E1 Hm) as [Hi' Hp'].
    assert (grow s (x :: l) sh s1 l (add_l1 (PX 2 va) x sh)) as Hg1.
    { apply (grow_add _ _ _ _ _ _ r (PX 2 va) Hi Hi' eq_refl Hp' (fun _ _ H => H)
               (tables_add_l1 _ _ _ E1) Hr HPr Hh Hkp Hm). }
    clear Hm. destruct (walk_alloc_l0 s1 l (add_l1 (PX 2 va) x sh) va x Hi' Hva) as (s' & l' & sh' & Hw & Hg & Hn & Hsv).
    { unfold add_l1; cbn [sh_l1]. rewrite HP2. apply lookup_insert_eq. }
    { exact E0. }
    exists s', l', sh'. split_and!; [exact Hw|by eapply grow_trans|exact Hn|]. eapply serves_trans; [|exact Hsv]. rewrite HP2. apply serves_add_l1.
Qed.

End Walk.
