(* ===== verification/AddrSpace.v ===== *)
(** * Page tables as finite maps: mapping and unmapping

    [pt_inv s l sh U] says that the tree at [sh_root sh] represents the finite
    map [U] from virtual page numbers to valid leaf entries.  The lemmas give
    the effect of mappages and uvmunmap on [U], on the free list and on the
    pages that hold tables. *)

From S2P Require Import Prelude CString Layout Spinlock Kalloc Vm VmSpec.

(** The valid leaf entry of [vpn], if there is one. *)
Definition entry (m : mem) (sh : shape) (vpn : Z) : option Z :=
  let v := pte_of m sh vpn in if Z.testbit v 0 then Some v else None.

Definition vmap (m : mem) (sh : shape) (U : gmap Z Z) : Prop :=
  forall vpn, U !! vpn = entry m sh vpn.

Record pt_inv `{KernelImage} (s : mst) (l : list Z) (sh : shape) (U : gmap Z Z) : Prop := {
  pi_vm : vm_inv s l sh;
  pi_map : vmap (m_mem s) sh U
}.

(** The entries mappages installs: [n] pages from [vpn] to frames from [pa]. *)
Fixpoint map_range (n : nat) (vpn pa perm : Z) (U : gmap Z Z) : gmap Z Z :=
  match n with
  | O => U
  | S n' => map_range n' (vpn + 1) (pa + PGSIZE) perm (<[vpn := mkpte pa (Z.lor perm PTE_V)]> U)
  end.

(** The entries uvmunmap removes. *)
Fixpoint unmap_range (n : nat) (vpn : Z) (U : gmap Z Z) : gmap Z Z :=
  match n with
  | O => U
  | S n' => unmap_range n' (vpn + 1) (delete vpn U)
  end.

Lemma lookup_map_range n vpn pa perm U k :
  map_range n vpn pa perm U !! k =
  if decide (vpn <= k < vpn + Z.of_nat n)
  then Some (mkpte (pa + PGSIZE * (k - vpn)) (Z.lor perm PTE_V)) else U !! k.
Proof.
  revert vpn pa U. induction n as [|n IH]; intros vpn pa U; cbn [map_range].
  { destruct (decide _); [lia|done]. }
  rewrite IH. destruct (decide (k = vpn)) as [->|Hne].
  - destruct (decide _); [lia|]. rewrite lookup_insert_eq. destruct (decide _); [|lia].
    do 2 f_equal. lia.
  - rewrite lookup_insert_ne by done. repeat destruct (decide _); try lia; [|done].
    do 2 f_equal. lia.
Qed.

Lemma lookup_unmap_range n vpn U k :
  unmap_range n vpn U !! k = if decide (vpn <= k < vpn + Z.of_nat n) then None else U !! k.
Proof.
  revert vpn U. induction n as [|n IH]; intros vpn U; cbn [unmap_range].
  { destruct (decide _); [lia|done]. }
  rewrite IH. destruct (decide (k = vpn)) as [->|Hne].
  - rewrite lookup_delete_eq. by repeat destruct (decide _); try lia.
  - rewrite lookup_delete_ne by done. by repeat destruct (decide _); try lia.
Qed.

Section AddrSpace.
Context `{HI : KernelImage}.
Context `{HOk : !ImageOk}.

(** ** Frame rules *)

Lemma kmem_inv_mem s l m' ps :
  kmem_inv s l -> only_pages (m_mem s) ps m' -> Forall (fun q => q mod PGSIZE = 0) ps ->
  (forall p, p ∈ l -> p ∉ ps) -> kmem_inv (set_mem m' s) l.
Proof.
  intros [Hh Hl Hr Hn Hp] Hm Ha Hd. split; auto. simpl. by eapply fl_rep_frame.
Qed.

Lemma tables_l0 sh k q : sh_l0 sh !! k = Some q -> q ∈ tables sh.
Proof. intros. apply elem_of_tables; eauto. Qed.

(** A page table is unaffected by changes to pages that hold none of its tables. *)
Lemma pte_of_frame m m' sh ps vpn :
  only_pages m ps m' -> Forall (fun q => q mod PGSIZE = 0) ps -> Forall page_ok (tables sh) ->
  (forall p, p ∈ tables sh -> p ∉ ps) -> pte_of m' sh vpn = pte_of m sh vpn.
Proof.
  intros Hm Ha Hp Hd. unfold pte_of. destruct (sh_l0 sh !! _) as [q|] eqn:E; [|done].
  apply tables_l0 in E. eapply slot_frame; eauto; [|zlia].
  by eapply Forall_forall in Hp as [? _].
Qed.

Lemma vm_inv_frame s l sh s' l' ps :
  vm_inv s l sh -> kmem_inv s' l' -> only_pages (m_mem s) ps (m_mem s') ->
  Forall (fun q => q mod PGSIZE = 0) ps -> (forall p, p ∈ tables sh -> (p ∉ ps) /\ (p ∉ l')) ->
  vm_inv s' l' sh /\ forall vpn, pte_of (m_mem s') sh vpn = pte_of (m_mem s) sh vpn.
Proof.
  intros [Hk [W1 W2 W3 W4] Hn Hp Hd] Hk' Hm Ha Hd'. split.
  - split; auto; [|intros; by apply Hd']. rewrite Forall_forall in Hp. split; auto.
    + intros i Hi. rewrite (slot_frame (m_mem s) ps); auto; [apply Hp|apply Hd'];
        apply elem_of_tables; auto.
    + intros i p j Hip Hj. rewrite (slot_frame (m_mem s) ps); auto; [apply Hp|apply Hd'];
        apply elem_of_tables; eauto.
  - intros vpn. eapply pte_of_frame; eauto. intros p Hp'. by apply Hd'.
Qed.

Lemma pt_inv_frame s l sh U s' l' ps :
  pt_inv s l sh U -> kmem_inv s' l' -> only_pages (m_mem s) ps (m_mem s') ->
  Forall (fun q => q mod PGSIZE = 0) ps -> (forall p, p ∈ tables sh -> (p ∉ ps) /\ (p ∉ l')) ->
  pt_inv s' l' sh U.
Proof.
  intros [Hv Hu] Hk Hm Ha Hd. destruct (vm_inv_frame s l sh s' l' ps) as [Hv' Hp]; auto.
  split; [done|]. intros vpn. rewrite Hu. unfold entry. by rewrite Hp.
Qed.

Lemma pt_inv_grow s l sh U s' l' sh' :
  pt_inv s l sh U -> grow s l sh s' l' sh' -> pt_inv s' l' sh' U.
Proof.
  intros [_ Hu] [He Hp]. split; [apply He|]. intros vpn. rewrite Hu. unfold entry. by rewrite Hp.
Qed.

(** ** Writing a leaf entry *)

Lemma store_leaf s l sh vpn q v :
  vm_inv s l sh -> sh_l0 sh !! (vpn / 512) = Some q ->
  let s' := set_mem (wr64 (m_mem s) (leaf_addr sh vpn) v) s in
  ext s l sh s' l sh /\ frame s s' (tables sh) /\
  forall k, pte_of (m_mem s') sh k = if decide (k = vpn) then u64 v else pte_of (m_mem s) sh k.
Proof.
  intros Hi Hq s'. pose proof (tables_l0 _ _ _ Hq) as Hqt.
  destruct (Hi) as [Hk [W1 W2 W3 W4] Hn Hp Hd]. rewrite Forall_forall in Hp.
  pose proof (tables_distinct sh Hn) as (D1 & D2 & D3 & D4 & D5).
  assert (leaf_addr sh vpn = q + 8 * (vpn mod 512)) as Ha by (unfold leaf_addr; by rewrite Hq).
  assert (0 <= vpn mod 512 < 512) as Hr by zlia.
  assert (only_pages (m_mem s) [q] (m_mem s')) as Hm.
  { simpl. rewrite Ha. apply wr64_page_only. consts. lia. }
  assert (forall t j, t ∈ tables sh -> 0 <= j < 512 -> t <> q \/ j <> vpn mod 512 ->
            slot (m_mem s') t j = slot (m_mem s) t j) as Hs.
  { intros t j Ht Hj Hne. simpl. rewrite Ha. apply slot_wr_ne; try done.
    - by apply Hp. - by apply Hp. - intuition congruence. }
  assert (frame s s' (tables sh)) as Hfr.
  { split; [by left|done|]. eapply only_pages_weaken; [exact Hm|].
    by intros p ->%list_elem_of_singleton. }
  split_and!; [split; auto|done|].
  - split; auto; [| |by apply Forall_forall].
    + eapply kmem_inv_mem; [done|exact Hm| |].
      * apply Forall_singleton. by apply Hp.
      * intros p Hpl ->%list_elem_of_singleton. by apply (Hd q).
    + split; auto.
      * intros i Hi'. rewrite Hs; auto; [apply elem_of_tables; auto|]. left. intros Heq. by apply (D2 _ _ Hq).
      * intros i p j Hip Hj. rewrite Hs; auto; [apply elem_of_tables; eauto|]. left. eauto.
  - eapply frame_weaken; [exact Hfr|]. intros p. rewrite elem_of_app. by right.
  - intros k. unfold pte_of. destruct (decide (k = vpn)) as [->|Hne].
    + rewrite Hq. simpl. rewrite Ha. apply slot_wr_same.
    + destruct (sh_l0 sh !! (k / 512)) as [q'|] eqn:E; [|done]. apply Hs; [by eapply tables_l0|zlia|].
      destruct (decide (q' = q)) as [->|]; [|by left]. right.
      assert (k / 512 = vpn / 512) by eauto. zlia.
Qed.

(** ** mappages *)

(** The leaf entry walk finds, as a member of [U]. *)
Lemma leaf_valid s l sh U vpn :
  pt_inv s l sh U -> Z.testbit (pte_of (m_mem s) sh vpn) 0 = bool_decide (is_Some (U !! vpn)).
Proof.
  intros [_ Hu]. rewrite Hu. unfold entry. by destruct (Z.testbit _ 0).
Qed.

Lemma leaf_addr_some s l sh vpn q :
  vm_inv s l sh -> sh_l0 sh !! (vpn / 512) = Some q ->
  leaf_addr sh vpn <> 0 /\ rd64 (m_mem s) (leaf_addr sh vpn) = pte_of (m_mem s) sh vpn.
Proof.
  intros Hi Hq. unfold leaf_addr, pte_of. rewrite Hq. split; [|done].
  apply tables_l0 in Hq. pose proof (vi_pages _ _ _ Hi) as Hp.
  eapply Forall_forall, page_ok_pos in Hp; [|done]. klia.
Qed.

(** Putting a valid entry adds it to [U]; putting 0 removes it. *)
Lemma store_leaf_map s l sh U vpn q v :
  pt_inv s l sh U -> sh_l0 sh !! (vpn / 512) = Some q -> 0 <= v < 2 ^ 64 ->
  let s' := set_mem (wr64 (m_mem s) (leaf_addr sh vpn) v) s in
  ext s l sh s' l sh /\ frame s s' (tables sh) /\
  pt_inv s' l sh (if Z.testbit v 0 then <[vpn := v]> U else delete vpn U).
Proof.
  intros [Hv Hu] Hq Hr s'. destruct (store_leaf s l sh vpn q v Hv Hq) as (He & Hf & Hp).
  split; [exact He|]. split; [exact Hf|]. split; [apply He|]. intros k. unfold entry, s'. rewrite Hp.
  rewrite u64_small by (change (2 ^ 64) with 18446744073709551616 in Hr; lia).
  destruct (decide (k = vpn)) as [->|Hne]; destruct (Z.testbit v 0) eqn:E;
    rewrite ?lookup_insert_eq, ?lookup_delete_eq; try done;
    rewrite ?lookup_insert_ne, ?lookup_delete_ne by done; apply Hu.
Qed.

Lemma pte_val pa perm :
  0 <= pa < 2 ^ 56 -> pa mod PGSIZE = 0 -> 0 <= perm < 1024 ->
  Z.lor (Z.lor (PA2PTE pa) perm) PTE_V = mkpte pa (Z.lor perm PTE_V) /\
  0 <= mkpte pa (Z.lor perm PTE_V) < 2 ^ 64 /\
  Z.testbit (mkpte pa (Z.lor perm PTE_V)) 0 = true.
Proof.
  intros Hpa Ha Hperm.
  assert (0 <= Z.lor perm PTE_V < 1024) by (apply (lor_range _ _ 10); [lia|lia|done]).
  split_and!.
  - unfold mkpte. by rewrite Z.lor_assoc.
  - by apply mkpte_range.
  - pose proof (mkpte_range pa (Z.lor perm PTE_V)). lia.
  - rewrite testbit_mkpte by (done || lia). rewrite Z.lor_spec. apply orb_true_r.
Qed.

Lemma mappages_loop_spec fuel s l sh U a last pa perm n :
  pt_inv s l sh U -> (n < fuel)%nat -> 0 <= a -> a mod PGSIZE = 0 ->
  last = a + PGSIZE * Z.of_nat n -> last < MAXVA ->
  0 <= pa -> pa mod PGSIZE = 0 -> pa + PGSIZE * Z.of_nat n < 2 ^ 56 -> 0 <= perm < 1024 ->
  (forall k, a / 4096 <= k <= last / 4096 -> U !! k = None) ->
  exists r s' l' sh' k,
    mappages_loop fuel (sh_root sh) a last pa perm s = Ok r s' /\ ext s l sh s' l' sh' /\
    pt_inv s' l' sh' (map_range k (a / 4096) pa perm U) /\
    (r = 0 /\ k = S n \/ r = -1 /\ (k <= n)%nat /\ l' = []) /\ serves (fun v => a / 4096 <= v <= last / 4096) sh sh'.
Proof.
  revert s l sh U a pa n. induction fuel as [|fuel IH];
    intros s l sh U a pa n Hi Hf Ha Hal Hlast Hmax Hpa Hpal Hpam Hperm Hnone; [lia|].
  cbn [mappages_loop].
  destruct (walk_alloc s l sh a (pi_vm _ _ _ _ Hi)) as (s1 & l1 & sh1 & Hw & Hg & Hn1 & Hsv); [klia|].
  eapply (serves_weaken _ (fun v => a / 4096 <= v <= last / 4096)) in Hsv; [|intros v <-; klia].
  rewrite (bind_Ok _ _ _ _ _ Hw). pose proof (pt_inv_grow _ _ _ _ _ _ _ Hi Hg) as Hi1.
  destruct (sh_l0 sh1 !! (a / 4096 / 512)) as [q|] eqn:Eq.
  2:{ unfold leaf_addr. rewrite Eq. exists (-1), s1, l1, sh1, O.
      split_and!; [done|apply Hg|done|right; split_and!; auto; lia|done]. }
  destruct (leaf_addr_some s1 l1 sh1 (a / 4096) q (pi_vm _ _ _ _ Hi1) Eq) as [Hnz Hrd].
  destruct (Z.eqb_spec (leaf_addr sh1 (a / 4096)) 0); [done|].
  unfold load64, store64. mstep. rewrite Hrd, truthy_V, (leaf_valid _ _ _ _ _ Hi1).
  rewrite Hnone by klia. rewrite bool_decide_eq_false_2 by (intros []; done). mstep.
  destruct (pte_val pa perm) as (Hv & Hvr & Hvb); [klia|done|done|]. rewrite Hv.
  destruct (store_leaf_map s1 l1 sh1 U (a / 4096) q _ Hi1 Eq Hvr) as (He2 & _ & Hi2).
  rewrite Hvb in Hi2. set (s2 := set_mem _ _) in *.
  assert (ext s l sh s2 l1 sh1) as He by (eapply ext_trans; [apply Hg|done]).
  destruct (Z.eqb_spec a last) as [Heq|Hne].
  { exists 0, s2, l1, sh1, 1%nat. split_and!; [done|done|done| |done]. left. split; [done|]. klia. }
  destruct n as [|n]; [klia|].
  rewrite !u64_small by klia. rewrite <- (ex_root _ _ _ _ _ _ He).
  destruct (IH s2 l1 sh1 (<[a / 4096 := mkpte pa (Z.lor perm PTE_V)]> U) (a + PGSIZE) (pa + PGSIZE) n)
    as (r & s' & l' & sh' & k & Hr & Hx & Hi' & Hk & Hsv'); try done; try klia.
  { intros k Hk. rewrite lookup_insert_ne by klia. apply Hnone. klia. }
  replace ((a + PGSIZE) / 4096) with (a / 4096 + 1) in Hi' by klia.
  exists r, s', l', sh', (S k). split_and!; [done|by eapply ext_trans|done| |].
  - destruct Hk as [[-> ->]|(-> & ? & ->)]; [left|right]; split_and!; auto; lia.
  - eapply serves_trans; [exact Hsv|]. eapply serves_weaken; [exact Hsv'|]. intros w Hw'. klia.
Qed.

Lemma mapped_l0 s l sh U vpn v :
  pt_inv s l sh U -> U !! vpn = Some v ->
  exists q, sh_l0 sh !! (vpn / 512) = Some q /\ pte_of (m_mem s) sh vpn = v /\ Z.testbit v 0 = true.
Proof.
  intros [_ Hu]. rewrite Hu. unfold entry, pte_of. destruct (sh_l0 sh !! _) as [q|]; [|done].
  destruct (Z.testbit _ 0) eqn:E; [|done]. intros [= <-]. eauto.
Qed.

(** Mapped pages are below MAXVA. *)
Lemma mapped_range s l sh U vpn v :
  pt_inv s l sh U -> U !! vpn = Some v -> 0 <= vpn < 134217728.
Proof.
  intros Hi Hv. destruct (mapped_l0 _ _ _ _ _ _ Hi Hv) as (q & Hq & _).
  destruct (vi_wf _ _ _ (pi_vm _ _ _ _ Hi)) as [_ _ W3 W4].
  apply W4 in Hq as [t Ht]. apply W3 in Ht. zlia.
Qed.

(** Looking up a mapped page. *)
Lemma walk_mapped s l sh U va v :
  pt_inv s l sh U -> 0 <= va < MAXVA -> U !! (va / 4096) = Some v ->
  exists a, walk (sh_root sh) va 0 s = Ok a s /\ a <> 0 /\ rd64 (m_mem s) a = v /\
    Z.testbit v 0 = true /\ a = leaf_addr sh (va / 4096).
Proof.
  intros Hi Hva Hv. destruct (mapped_l0 _ _ _ _ _ _ Hi Hv) as (q & Hq & Hp & Hb).
  destruct (leaf_addr_some s l sh (va / 4096) q (pi_vm _ _ _ _ Hi) Hq) as [Hnz Hrd].
  exists (leaf_addr sh (va / 4096)). split_and!; auto; [|congruence].
  by eapply walk_lookup; [apply (pi_vm _ _ _ _ Hi)|].
Qed.

(** ** uvmunmap *)

(** [F] are the frames of the [length F] pages from [vpn]. *)
Definition frames_at (U : gmap Z Z) (vpn : Z) (F : list Z) : Prop :=
  forall i p, F !! i = Some p ->
    exists v, U !! (vpn + Z.of_nat i) = Some v /\ PTE2PA v = p /\ PTE_FLAGS v <> PTE_V.

Lemma frames_at_cons U vpn p F :
  frames_at U vpn (p :: F) ->
  (exists v, U !! vpn = Some v /\ PTE2PA v = p /\ PTE_FLAGS v <> PTE_V) /\
  frames_at (delete vpn U) (vpn + 1) F.
Proof.
  intros H. split.
  - destruct (H O p eq_refl) as (v & Hv & ?). rewrite Z.add_0_r in Hv. eauto.
  - intros i q Hq. destruct (H (S i) q Hq) as (v & Hv & ?).
    replace (vpn + Z.of_nat (S i)) with (vpn + 1 + Z.of_nat i) in Hv by lia.
    exists v. rewrite lookup_delete_ne by lia. auto.
Qed.

Lemma aligned_tables s l sh : vm_inv s l sh -> Forall (fun q => q mod PGSIZE = 0) (tables sh).
Proof. intros Hi. apply page_ok_aligned, (vi_pages _ _ _ Hi). Qed.

(** Freeing a page that the page table does not use. *)
Lemma kfree_pt s l sh U pa :
  pt_inv s l sh U -> page_ok pa -> (pa ∉ l) -> (pa ∉ tables sh) ->
  exists s', kfree pa s = Ok tt s' /\ pt_inv s' (pa :: l) sh U /\ frame s s' [pa].
Proof.
  intros Hi Hp Hl Ht.
  destruct (kfree_inv s l pa (vi_kmem _ _ _ (pi_vm _ _ _ _ Hi)) Hp Hl)
    as (s' & Hs & Hk & Hh & Hm & Hkp).
  exists s'. split_and!; [done| |split; [by right|done..]].
  eapply pt_inv_frame; [done..| |].
  - apply Forall_singleton, Hp.
  - intros p Hpt. rewrite list_elem_of_singleton, not_elem_of_cons.
    split_and!; [intros -> ..|]; try done. by eapply vi_disj; [apply (pi_vm _ _ _ _ Hi)|].
Qed.

Lemma uvmunmap_loop_free fuel s l sh U a bound F :
  pt_inv s l sh U -> (length F < fuel)%nat -> 0 <= a -> a mod PGSIZE = 0 ->
  bound = a + PGSIZE * Z.of_nat (length F) -> bound <= MAXVA ->
  frames_at U (a / 4096) F -> Forall page_ok F -> NoDup F ->
  (forall p, p ∈ F -> (p ∉ l) /\ (p ∉ tables sh)) ->
  exists s',
    uvmunmap_loop fuel (sh_root sh) a bound 1 s = Ok tt s' /\
    pt_inv s' (rev F ++ l) sh (unmap_range (length F) (a / 4096) U) /\
    frame s s' (F ++ tables sh).
Proof.
  revert s l U a F. induction fuel as [|fuel IH];
    intros s l U a F Hi Hf Ha Hal Hb Hmax Hfr Hpg Hnd Hd; [lia|].
  cbn [uvmunmap_loop]. destruct F as [|p F]; simpl length in *.
  { destruct (Z.ltb_spec a bound); [lia|]. exists s. split_and!; [done..|apply frame_refl]. }
  destruct (Z.ltb_spec a bound); [|klia]. cbn [negb].
  apply frames_at_cons in Hfr as [(v & Hv & Hvp & Hvf) Hfr].
  destruct (walk_mapped s l sh U a v Hi ltac:(klia) Hv) as (x & Hw & Hnz & Hrd & Hbit & Hx).
  rewrite (bind_Ok _ _ _ _ _ Hw). destruct (Z.eqb_spec x 0); [done|].
  unfold load64. mstep. rewrite Hrd, truthy_V, Hbit. cbn [negb].
  destruct (Z.eqb_spec (PTE_FLAGS v) PTE_V); [done|]. change (truthy 1) with true. cbv iota. rewrite Hvp.
  apply Forall_cons in Hpg as [Hp Hpg]. apply NoDup_cons in Hnd as [Hpn Hnd].
  destruct (Hd p ltac:(by left)) as [Hpl Hpt].
  destruct (kfree_pt s l sh U p Hi Hp Hpl Hpt) as (s1 & Hs1 & Hi1 & Hf1).
  rewrite (bind_Ok _ _ _ _ _ Hs1). unfold store64. mstep. subst x.
  destruct (mapped_l0 _ _ _ _ _ _ Hi Hv) as (q & Hq & _).
  destruct (store_leaf_map s1 (p :: l) sh U (a / 4096) q 0 Hi1 Hq ltac:(lia)) as (_ & Hf2 & Hi2).
  change (Z.testbit 0 0) with false in Hi2. cbv iota in Hi2. set (s2 := set_mem _ _) in *.
  rewrite u64_small by klia.
  destruct (IH s2 (p :: l) (delete (a / 4096) U) (a + PGSIZE) F) as (s' & Hs' & Hi' & Hf'); auto; try klia.
  { by replace ((a + PGSIZE) / 4096) with (a / 4096 + 1) by klia. }
  { intros y Hy. destruct (Hd y ltac:(by right)) as [Hy1 Hy2]. rewrite not_elem_of_cons.
    split_and!; [intros ->|..]; done. }
  exists s'. split; [done|]. split.
  - replace ((a + PGSIZE) / 4096) with (a / 4096 + 1) in Hi' by klia.
    simpl rev. by rewrite <- app_assoc.
  - eapply frame_trans; [eapply frame_weaken; [exact Hf1|]|
      eapply frame_trans; [eapply frame_weaken; [exact Hf2|]|eapply frame_weaken; [exact Hf'|]]].
    all: intros y Hy; in_list.
Qed.

(** ** The two functions on whole ranges *)

Lemma mappages_spec s l sh U va size pa perm :
  pt_inv s l sh U -> 0 <= va -> 0 < size -> va + size <= MAXVA ->
  0 <= pa -> pa mod PGSIZE = 0 -> pa + size + PGSIZE <= 2 ^ 56 -> 0 <= perm < 1024 ->
  let n := S (Z.to_nat ((va + size - 1) / 4096 - va / 4096)) in
  (forall k, va / 4096 <= k < va / 4096 + Z.of_nat n -> U !! k = None) ->
  exists r s' l' sh' k,
    mappages (sh_root sh) va size pa perm s = Ok r s' /\ ext s l sh s' l' sh' /\
    pt_inv s' l' sh' (map_range k (va / 4096) pa perm U) /\
    (r = 0 /\ k = n \/ r = -1 /\ (k < n)%nat /\ l' = []) /\ serves (fun v => va / 4096 <= v <= (va + size - 1) / 4096) sh sh'.
Proof.
  intros Hi Hva Hsz Hmax Hpa Hpal Hpam Hperm n Hnone. unfold mappages.
  rewrite (u64_small (va + size - 1)) by klia. rewrite !PGROUNDDOWN_eq by klia.
  assert (va - va mod PGSIZE = va / 4096 * 4096) as -> by klia.
  assert (va + size - 1 - (va + size - 1) mod PGSIZE = (va + size - 1) / 4096 * 4096) as -> by klia.
  set (a := va / 4096 * 4096). set (last := (va + size - 1) / 4096 * 4096).
  set (m := Z.to_nat ((va + size - 1) / 4096 - va / 4096)).
  assert (S (Z.to_nat (u64 (last - a) / PGSIZE)) = S m) as ->.
  { rewrite u64_small by (subst a last; klia). subst a last m. klia. }
  assert (a / 4096 = va / 4096) as Hav by (subst a; zlia).
  destruct (mappages_loop_spec (S m) s l sh U a last pa perm m)
    as (r & s' & l' & sh' & k & Hr & He & Hi' & Hk & Hsv); auto; try (subst a last m; klia).
  { intros k Hk. apply Hnone. subst a last n m. zlia. }
  rewrite Hav in Hi'. exists r, s', l', sh', k. split_and!; auto.
  - destruct Hk as [|(? & ? & ?)]; [by left|right; split_and!; auto; subst n; lia].
  - eapply serves_weaken; [exact Hsv|]. intros v. subst a last. cbv beta. zlia.
Qed.

(** One page. *)
Lemma mappages_at s l sh U va pa perm :
  pt_inv s l sh U -> 0 <= va < MAXVA -> va mod PGSIZE = 0 ->
  0 <= pa -> pa mod PGSIZE = 0 -> pa + 2 * PGSIZE <= 2 ^ 56 -> 0 <= perm < 1024 ->
  U !! (va / 4096) = None ->
  exists r s' l' sh',
    mappages (sh_root sh) va PGSIZE pa perm s = Ok r s' /\ ext s l sh s' l' sh' /\
    (r = 0 /\ pt_inv s' l' sh' (<[va / 4096 := mkpte pa (Z.lor perm PTE_V)]> U) \/
     r = -1 /\ l' = [] /\ pt_inv s' l' sh' U) /\ serves (eq (va / 4096)) sh sh'.
Proof.
  intros Hi Hva Hal Hpa Hpal Hpam Hperm Hnone.
  assert (S (Z.to_nat ((va + PGSIZE - 1) / 4096 - va / 4096)) = 1%nat) as Hn by klia.
  destruct (mappages_spec s l sh U va PGSIZE pa perm) as (r & s' & l' & sh' & k & Hr & He & Hi' & Hk & Hsv);
    auto; try klia.
  { rewrite Hn. intros k Hk. by replace k with (va / 4096) by lia. }
  exists r, s', l', sh'. split_and!; auto; [|eapply serves_weaken; [exact Hsv|]; intros v; klia]. rewrite Hn in Hk.
  destruct Hk as [[-> ->]|(-> & Hk & ->)]; [by left|]. right. by replace k with O in Hi' by lia.
Qed.

Lemma mappages_one s l sh U va pa perm :
  pt_inv s l sh U -> 0 <= va < MAXVA -> va mod PGSIZE = 0 -> page_ok pa -> 0 <= perm < 1024 ->
  U !! (va / 4096) = None ->
  exists r s' l' sh',
    mappages (sh_root sh) va PGSIZE pa perm s = Ok r s' /\ ext s l sh s' l' sh' /\
    (r = 0 /\ pt_inv s' l' sh' (<[va / 4096 := mkpte pa (Z.lor perm PTE_V)]> U) \/
     r = -1 /\ l' = [] /\ pt_inv s' l' sh' U) /\ serves (eq (va / 4096)) sh sh'.
Proof.
  intros Hi Hva Hal Hpa Hperm Hnone. pose proof (page_ok_pos _ Hpa) as [Hp1 Hp2].
  apply mappages_at; auto; klia.
Qed.

(** mappages refuses to overwrite a mapping. *)
Lemma mappages_remap s l sh U va size pa perm v :
  pt_inv s l sh U -> 0 <= va < MAXVA -> U !! (va / 4096) = Some v ->
  mappages (sh_root sh) va size pa perm s = Panic "remap".
Proof.
  intros Hi Hva Hv. unfold mappages. cbn [mappages_loop].
  rewrite PGROUNDDOWN_eq by klia.
  assert (va - va mod PGSIZE = va / 4096 * 4096) as -> by klia.
  assert (va / 4096 * 4096 / 4096 = va / 4096) as Hav by zlia.
  destruct (walk_alloc s l sh (va / 4096 * 4096) (pi_vm _ _ _ _ Hi)) as (s1 & l1 & sh1 & Hw & Hg & _).
  { klia. }
  rewrite (bind_Ok _ _ _ _ _ Hw). pose proof (pt_inv_grow _ _ _ _ _ _ _ Hi Hg) as Hi1.
  rewrite Hav. destruct (mapped_l0 _ _ _ _ _ _ Hi1 Hv) as (q & Hq & Hp & Hb).
  destruct (leaf_addr_some s1 l1 sh1 _ q (pi_vm _ _ _ _ Hi1) Hq) as [Hnz Hrd].
  destruct (Z.eqb_spec (leaf_addr sh1 (va / 4096)) 0); [done|].
  unfold load64. mstep. by rewrite Hrd, Hp, truthy_V, Hb.
Qed.

Lemma uvmunmap_fuel va n :
  va mod PGSIZE = 0 -> 0 <= va -> 0 <= n -> va + n * PGSIZE <= MAXVA ->
  u64 (va + n * PGSIZE) = va + PGSIZE * n /\
  (Z.to_nat n < S (Z.to_nat ((u64 (va + n * PGSIZE) - va) / PGSIZE + 1)))%nat.
Proof.
  intros Ha Hva Hn Hmax. rewrite u64_small by klia. split; [lia|].
  replace (va + n * PGSIZE - va) with (n * PGSIZE) by lia. klia.
Qed.

(** Unmapping [length F] pages and freeing their frames [F]. *)
Lemma uvmunmap_free s l sh U va F :
  pt_inv s l sh U -> 0 <= va -> va mod PGSIZE = 0 ->
  va + Z.of_nat (length F) * PGSIZE <= MAXVA ->
  frames_at U (va / 4096) F -> Forall page_ok F -> NoDup F ->
  (forall p, p ∈ F -> (p ∉ l) /\ (p ∉ tables sh)) ->
  exists s',
    uvmunmap (sh_root sh) va (Z.of_nat (length F)) 1 s = Ok tt s' /\
    pt_inv s' (rev F ++ l) sh (unmap_range (length F) (va / 4096) U) /\
    frame s s' (F ++ tables sh).
Proof.
  intros Hi Hva Hal Hmax Hfr Hpg Hnd Hd. unfold uvmunmap. rewrite Hal. cbn [Z.eqb negb].
  destruct (uvmunmap_fuel va (Z.of_nat (length F))) as [Hb Hfu]; [done|done|lia|done|].
  rewrite Nat2Z.id in Hfu. apply uvmunmap_loop_free; auto. rewrite Hb. lia.
Qed.

(** Unmapping one page without freeing its frame. *)
Lemma uvmunmap_keep s l sh U va v :
  pt_inv s l sh U -> 0 <= va < MAXVA -> va mod PGSIZE = 0 ->
  U !! (va / 4096) = Some v -> PTE_FLAGS v <> PTE_V ->
  exists s',
    uvmunmap (sh_root sh) va 1 0 s = Ok tt s' /\ pt_inv s' l sh (delete (va / 4096) U) /\
    frame s s' (tables sh).
Proof.
  intros Hi Hva Hal Hv Hfl. unfold uvmunmap. rewrite Hal. cbn [Z.eqb negb].
  destruct (uvmunmap_fuel va 1) as [Hb Hfu]; [done|lia|lia|klia|].
  rewrite Hb in *. destruct (Z.to_nat ((va + PGSIZE * 1 - va) / PGSIZE + 1)) as [|fuel]; [lia|].
  cbn [uvmunmap_loop]. destruct (Z.ltb_spec va (va + PGSIZE * 1)); [|klia]. cbn [negb].
  destruct (walk_mapped s l sh U va v Hi ltac:(klia) Hv) as (x & Hw & Hnz & Hrd & Hbit & Hx).
  rewrite (bind_Ok _ _ _ _ _ Hw). destruct (Z.eqb_spec x 0); [done|].
  unfold load64, store64. mstep. rewrite Hrd, truthy_V, Hbit. cbn [negb].
  destruct (Z.eqb_spec (PTE_FLAGS v) PTE_V); [done|]. change (truthy 0) with false. cbv iota. mstep.
  destruct (mapped_l0 _ _ _ _ _ _ Hi Hv) as (q & Hq & _). subst x.
  destruct (store_leaf_map s l sh U (va / 4096) q 0 Hi Hq ltac:(lia)) as (_ & Hf2 & Hi2).
  rewrite u64_small by klia. destruct (Z.ltb_spec (va + PGSIZE) (va + PGSIZE * 1)); [klia|].
  cbn [negb]. eexists. split_and!; [reflexivity|exact Hi2|exact Hf2].
Qed.

(** Unmapping a page that is not mapped panics. *)
Lemma uvmunmap_unmapped s l sh U va n f :
  pt_inv s l sh U -> 0 <= va < MAXVA -> va mod PGSIZE = 0 ->
  0 < n -> va + n * PGSIZE <= MAXVA -> U !! (va / 4096) = None ->
  exists msg, uvmunmap (sh_root sh) va n f s = Panic msg.
Proof.
  intros Hi Hva Hal Hn Hmax Hv. unfold uvmunmap. rewrite Hal. cbn [Z.eqb negb uvmunmap_loop].
  rewrite u64_small by klia. destruct (Z.ltb_spec va (va + n * PGSIZE)); [|klia]. cbn [negb].
  rewrite (bind_Ok _ _ _ _ _ (walk_lookup _ _ _ _ (pi_vm _ _ _ _ Hi) Hva)).
  destruct (sh_l0 sh !! (va / 4096 / 512)) as [q|] eqn:Eq.
  - destruct (leaf_addr_some s l sh _ q (pi_vm _ _ _ _ Hi) Eq) as [Hnz Hrd].
    destruct (Z.eqb_spec (leaf_addr sh (va / 4096)) 0); [done|]. unfold load64. mstep.
    rewrite Hrd, truthy_V, (leaf_valid _ _ _ _ _ Hi), Hv. by eexists.
  - unfold leaf_addr. rewrite Eq. by eexists.
Qed.

End AddrSpace.
