(* ===== verification/UserMem.v ===== *)
(** * User address spaces: uvmalloc, uvmdealloc, uvmcopy, uvmfree

    [uspace s l sh U F] says that the page table [sh] maps exactly the first
    [length F] user pages, page [i] to the frame [F !! i], that these frames are
    distinct pages of RAM, and that none of them is free or holds a table. *)

From S2P Require Import Prelude CString Layout Spinlock Kalloc Vm VmSpec AddrSpace.

(** Pages below the trap frame. *)
Definition NUSER : Z := TRAPFRAME / PGSIZE.

Record uspace `{KernelImage} (s : mst) (l : list Z) (sh : shape) (U : gmap Z Z) (F : list Z)
  : Prop := {
  us_pt : pt_inv s l sh U;
  us_frames : frames_at U 0 F;
  us_gap : forall k, Z.of_nat (length F) <= k < NUSER -> U !! k = None;
  us_len : Z.of_nat (length F) <= NUSER;
  us_pages : Forall page_ok F;
  us_nodup : NoDup F;
  us_disj : forall p, p ∈ F -> (p ∉ l) /\ (p ∉ tables sh)
}.

(** Number of pages of a process of [sz] bytes. *)
Definition npg (sz : Z) : nat := Z.to_nat ((sz + 4095) / 4096).

(** A page all of whose bytes are 0. *)
Definition page_zero (m : mem) (p : Z) : Prop := forall i, 0 <= i < PGSIZE -> rd m (p + i) = 0.

Section UserMem.
Context `{HI : KernelImage}.
Context `{HOk : !ImageOk}.

Lemma NUSER_eq : NUSER = 67108862.
Proof. reflexivity. Qed.

Lemma only_pages_rd m ps m' p i :
  only_pages m ps m' -> p mod PGSIZE = 0 -> Forall (fun q => q mod PGSIZE = 0) ps ->
  p ∉ ps -> 0 <= i < PGSIZE -> rd m' (p + i) = rd m (p + i).
Proof.
  intros Hm Hp Ha Hn Hi. apply Hm. intros q Hq Hin. rewrite Forall_forall in Ha.
  specialize (Ha q Hq). apply Hn. rewrite (in_page_inj p q (p + i)); [done|done|done| |done].
  unfold in_page. lia.
Qed.

(** ** Allocating a page next to a page table *)

Lemma kalloc_pt s l sh U :
  pt_inv s l sh U ->
  match l with
  | [] => exists s', kalloc s = Ok 0 s' /\ pt_inv s' [] sh U /\ frame s s' []
  | x :: l' => exists s', kalloc s = Ok x s' /\ pt_inv s' l' sh U /\ frame s s' [x] /\
      page_ok x /\ (x ∉ l') /\ (x ∉ tables sh) /\ x <> 0
  end.
Proof.
  intros Hi. pose proof (vi_kmem _ _ _ (pi_vm _ _ _ _ Hi)) as Hk.
  pose proof (kalloc_inv s l Hk) as Ha. destruct l as [|x l].
  - eexists. split; [exact Ha|]. split; [|apply frame_touch]. eapply pt_inv_grow; [done|].
    apply grow_touch, Hi.
  - destruct Ha as (s' & Hs & Hk' & Hh & Hm & Hkp).
    pose proof (ki_pages _ _ Hk) as [Hx _]%Forall_cons.
    pose proof (ki_nodup _ _ Hk) as [Hxl _]%NoDup_cons.
    assert (only_pages (m_mem s) [x] (m_mem s')) as Ho.
    { unfold mem_is in Hm. rewrite Hm. apply memset_page_only. }
    clear Hm. pose proof (vi_disj _ _ _ (pi_vm _ _ _ _ Hi)) as Hd.
    assert (x ∉ tables sh) as Hxt.
    { intros Hin. apply (Hd x Hin). by left. }
    exists s'. split_and!; try assumption; [|split; [by right|assumption..]|by apply page_ok_nz].
    eapply pt_inv_frame; [exact Hi|exact Hk'|exact Ho|apply Forall_singleton, Hx|].
    intros p Hp. split.
    + intros ->%list_elem_of_singleton. contradiction.
    + intros Hin. apply (Hd p Hp). by right.
Qed.

(** Writing a page that is neither free nor a table. *)
Lemma write_pt s l sh U p m' :
  pt_inv s l sh U -> page_ok p -> (p ∉ l) -> (p ∉ tables sh) -> only_pages (m_mem s) [p] m' ->
  pt_inv (set_mem m' s) l sh U /\ frame s (set_mem m' s) [p].
Proof.
  intros Hi Hp Hl Ht Hm. split; [|split; [by left|done|exact Hm]].
  eapply pt_inv_frame; [exact Hi| |exact Hm| |].
  - eapply kmem_inv_mem; [apply (pi_vm _ _ _ _ Hi)|exact Hm|apply Forall_singleton, Hp|].
    intros q Hq ->%list_elem_of_singleton. contradiction.
  - apply Forall_singleton, Hp.
  - intros q Hq. split; [intros ->%list_elem_of_singleton; contradiction|].
    by apply (vi_disj _ _ _ (pi_vm _ _ _ _ Hi)).
Qed.

Lemma zeroed_page m x : page_zero (memset m x 0 PGSIZE) x.
Proof.
  intros i Hi. rewrite rd_memset by (consts; lia).
  destruct (Z.leb_spec x (x + i)); [|lia]. destruct (Z.ltb_spec (x + i) (x + PGSIZE)); [done|lia].
Qed.

Lemma page_zero_frame m m' ps p :
  page_zero m p -> only_pages m ps m' -> p mod PGSIZE = 0 ->
  Forall (fun q => q mod PGSIZE = 0) ps -> (p ∉ ps) -> page_zero m' p.
Proof. intros Hz Hm Hp Ha Hn i Hi. erewrite only_pages_rd; eauto. Qed.

(** ** uvmdealloc *)

Lemma frames_at_take U vpn F n : frames_at U vpn F -> frames_at U vpn (take n F).
Proof. intros H i p [Hp _]%lookup_take_Some. by apply H. Qed.

Lemma frames_at_drop U vpn F n :
  frames_at U vpn F -> frames_at U (vpn + Z.of_nat n) (drop n F).
Proof.
  intros H i p Hp. rewrite lookup_drop in Hp. destruct (H _ _ Hp) as (v & Hv & ?).
  exists v. by replace (vpn + Z.of_nat n + Z.of_nat i) with (vpn + Z.of_nat (n + i)) by lia.
Qed.

Lemma frames_at_ext U U' vpn F :
  frames_at U vpn F -> (forall k, vpn <= k < vpn + Z.of_nat (length F) -> U' !! k = U !! k) ->
  frames_at U' vpn F.
Proof.
  intros H He i p Hp. destruct (H i p Hp) as (v & Hv & ?). exists v.
  apply lookup_lt_Some in Hp. rewrite He by lia. done.
Qed.

(** Unmapping the pages from [n] on. *)
Lemma uvmunmap_tail s l sh U F n :
  uspace s l sh U F -> (n <= length F)%nat ->
  exists s',
    uvmunmap (sh_root sh) (PGSIZE * Z.of_nat n) (Z.of_nat (length F - n)) 1 s = Ok tt s' /\
    uspace s' (rev (drop n F) ++ l) sh (unmap_range (length F - n) (Z.of_nat n) U) (take n F) /\
    frame s s' (drop n F ++ tables sh).
Proof.
  intros [Hi Hf Hg Hlen Hp Hnd Hd] Hn. rewrite NUSER_eq in Hlen.
  assert (length (drop n F) = (length F - n)%nat) as Hdl by apply length_drop.
  assert (PGSIZE * Z.of_nat n / 4096 = Z.of_nat n) as Hq by klia.
  pose proof Hnd as Hnd'. rewrite <- (take_drop n F) in Hnd'.
  apply NoDup_app in Hnd' as (Hn1 & Hn2 & Hn3).
  destruct (uvmunmap_free s l sh U (PGSIZE * Z.of_nat n) (drop n F))
    as (s' & Hs & Hi' & Hfr); auto; rewrite ?Hdl, ?Hq in *; try klia.
  - apply (frames_at_drop U 0). done.
  - by apply Forall_drop.
  - intros p Hin. apply Hd, (elem_of_take_drop _ n). auto.
  - exists s'. split_and!; auto. split; auto.
    + eapply frames_at_ext; [by apply frames_at_take|]. intros k Hk. rewrite length_take in Hk.
      rewrite lookup_unmap_range. destruct (decide _); [lia|done].
    + intros k Hk. rewrite length_take in Hk. rewrite lookup_unmap_range.
      destruct (decide _); [done|]. apply Hg. lia.
    + rewrite length_take, NUSER_eq. lia.
    + by apply Forall_take.
    + intros p Hin. destruct (Hd p) as [Hpl Hpt]; [apply (elem_of_take_drop _ n); auto|].
      split; [|done]. rewrite elem_of_app, elem_of_rev. intros [Hin2|Hin2]; [by apply (Hn2 p)|done].
Qed.

Lemma PGROUNDUP_npg sz : 0 <= sz <= MAXVA -> PGROUNDUP sz = PGSIZE * Z.of_nat (npg sz).
Proof. intros H. unfold npg. rewrite PGROUNDUP_eq by klia. klia. Qed.

Lemma npg_mono a b : a <= b -> (npg a <= npg b)%nat.
Proof. intros. unfold npg. assert ((a + 4095) / 4096 <= (b + 4095) / 4096) by zlia. lia. Qed.

Lemma uvmdealloc_spec s l sh U F oldsz newsz :
  uspace s l sh U F -> 0 <= newsz <= oldsz -> oldsz <= TRAPFRAME -> length F = npg oldsz ->
  let n := npg newsz in
  exists s',
    uvmdealloc (sh_root sh) oldsz newsz s = Ok newsz s' /\
    uspace s' (rev (drop n F) ++ l) sh (unmap_range (length F - n) (Z.of_nat n) U) (take n F) /\
    frame s s' (drop n F ++ tables sh).
Proof.
  intros Hu Hle Hold Hlen n. unfold uvmdealloc.
  assert (n <= length F)%nat as Hn by (rewrite Hlen; apply npg_mono; lia).
  assert (n = length F -> exists s', Ok newsz s = Ok newsz s' /\
    uspace s' (rev (drop n F) ++ l) sh (unmap_range (length F - n) (Z.of_nat n) U) (take n F) /\
    frame s s' (drop n F ++ tables sh)) as Hsame.
  { intros Heq. exists s. rewrite Heq, drop_all, firstn_all, Nat.sub_diag.
    split_and!; [done..|apply frame_refl]. }
  destruct (Z.leb_spec oldsz newsz).
  { assert (oldsz = newsz) as -> by lia. by apply Hsame. }
  rewrite !PGROUNDUP_npg by klia. fold n. rewrite <- Hlen.
  destruct (Z.ltb_spec (PGSIZE * Z.of_nat n) (PGSIZE * Z.of_nat (length F))).
  2:{ mstep. apply Hsame. klia. }
  pose proof (us_len _ _ _ _ _ Hu) as HN. rewrite NUSER_eq in HN.
  assert ((PGSIZE * Z.of_nat (length F) - PGSIZE * Z.of_nat n) / PGSIZE
          = Z.of_nat (length F - n)) as -> by klia.
  assert (u64 (s32 (Z.of_nat (length F - n))) = Z.of_nat (length F - n)) as ->.
  { unfold s32. rewrite Z.mod_small by lia. destruct (Z.ltb_spec (Z.of_nat (length F - n)) 2147483648); [|lia].
    apply u64_small. lia. }
  destruct (uvmunmap_tail s l sh U F n Hu Hn) as (s' & Hs & Hu' & Hf).
  exists s'. by rewrite (bind_Ok _ _ _ _ _ Hs).
Qed.

(** A process cannot grow by uvmdealloc. *)
Lemma uvmdealloc_grow pt oldsz newsz s :
  oldsz <= newsz -> uvmdealloc pt oldsz newsz s = Ok oldsz s.
Proof. intros H. unfold uvmdealloc. by destruct (Z.leb_spec oldsz newsz); [|lia]. Qed.

(** ** Adding a page *)

(** An address space keeps its frames when the page table takes other pages. *)
Lemma uspace_pt s l sh U F s' l' sh' :
  uspace s l sh U F -> pt_inv s' l' sh' U ->
  (forall p, p ∈ F -> (p ∉ l') /\ (p ∉ tables sh')) -> uspace s' l' sh' U F.
Proof. intros [] Hi Hd. by split. Qed.

Lemma ext_disj s l sh s' l' sh' p :
  ext s l sh s' l' sh' -> (p ∉ l) -> (p ∉ tables sh) -> (p ∉ l') /\ (p ∉ tables sh').
Proof.
  intros He Hl Ht. pose proof (ex_pages _ _ _ _ _ _ He) as Hp.
  assert (p ∉ l' ++ tables sh') as Hn by (rewrite Hp; in_list). in_list.
Qed.

Lemma uspace_ext s l sh U F s' l' sh' :
  uspace s l sh U F -> ext s l sh s' l' sh' -> pt_inv s' l' sh' U -> uspace s' l' sh' U F.
Proof.
  intros Hu He Hi. eapply uspace_pt; eauto. intros p Hp.
  destruct (us_disj _ _ _ _ _ Hu p Hp). by eapply ext_disj.
Qed.

Lemma uspace_snoc s l sh U F x f :
  pt_inv s l sh (<[Z.of_nat (length F) := mkpte x f]> U) -> frames_at U 0 F ->
  (forall k, Z.of_nat (length F) <= k < NUSER -> U !! k = None) ->
  Z.of_nat (length F) < NUSER -> Forall page_ok (F ++ [x]) -> NoDup (F ++ [x]) ->
  (forall p, p ∈ F ++ [x] -> (p ∉ l) /\ (p ∉ tables sh)) -> 0 <= f < 1024 -> f <> PTE_V ->
  uspace s l sh (<[Z.of_nat (length F) := mkpte x f]> U) (F ++ [x]).
Proof.
  intros Hi Hf Hg Hlen Hp Hn Hd Hfr Hfv. split; auto; rewrite ?length_app; simpl; try lia.
  - intros i p [Hip|[Hge Hip]]%lookup_app_Some.
    + destruct (Hf i p Hip) as (v & Hv & ?). exists v. apply lookup_lt_Some in Hip.
      rewrite lookup_insert_ne by lia. done.
    + apply list_lookup_singleton_Some in Hip as [Hi0 <-].
      exists (mkpte x f). replace (0 + Z.of_nat i) with (Z.of_nat (length F)) by lia.
      rewrite lookup_insert_eq. split; [done|].
      apply Forall_app in Hp as [_ Hx]. apply Forall_cons in Hx as [Hx _]. pose proof (page_ok_56 x Hx).
      rewrite mkpte_PTE2PA, mkpte_flags by (done || apply Hx). done.
  - intros k Hk. rewrite lookup_insert_ne by lia. apply Hg. lia.
Qed.

Lemma uspace_map s l sh U F x perm :
  uspace s l sh U F -> Z.of_nat (length F) < NUSER -> page_ok x ->
  (x ∉ l) -> (x ∉ tables sh) -> (x ∉ F) -> 0 <= perm < 1024 -> Z.lor perm PTE_V <> PTE_V ->
  exists r s' l' sh',
    mappages (sh_root sh) (PGSIZE * Z.of_nat (length F)) PGSIZE x perm s = Ok r s' /\
    ext s l sh s' l' sh' /\
    (r = 0 /\ uspace s' l' sh' (<[Z.of_nat (length F) := mkpte x (Z.lor perm PTE_V)]> U) (F ++ [x]) \/
     r = -1 /\ l' = [] /\ uspace s' l' sh' U F) /\ serves (eq (Z.of_nat (length F))) sh sh'.
Proof.
  intros Hu Hlen Hx Hxl Hxt HxF Hperm Hpv. destruct (Hu) as [Hi Hf Hg _ Hp Hnd Hd].
  assert (PGSIZE * Z.of_nat (length F) / 4096 = Z.of_nat (length F)) as Hq by klia.
  rewrite NUSER_eq in Hlen.
  destruct (mappages_one s l sh U (PGSIZE * Z.of_nat (length F)) x perm)
    as (r & s' & l' & sh' & Hr & He & Hcase & Hsv); auto; rewrite ?Hq in *; try klia.
  { apply Hg. rewrite NUSER_eq. lia. }
  exists r, s', l', sh'. split_and!; auto. clear Hsv.
  destruct Hcase as [[-> Hi']|(-> & -> & Hi')]; [left|right; split_and!; auto].
  - split; [done|]. apply uspace_snoc; auto.
    + apply Forall_app. split; [done|]. by apply Forall_singleton.
    + apply NoDup_app. split_and!; [done| |apply NoDup_singleton].
      intros p Hin ->%list_elem_of_singleton. done.
    + intros p [Hin| ->%list_elem_of_singleton]%elem_of_app; [destruct (Hd p Hin)|];
        by eapply ext_disj.
    + apply (lor_range _ _ 10); [lia|lia|done].
  - by eapply uspace_ext.
Qed.

(** ** The allocator beside an address space *)

Lemma uspace_kalloc s l sh U F :
  uspace s l sh U F ->
  match l with
  | [] => exists s', kalloc s = Ok 0 s' /\ uspace s' [] sh U F /\ frame s s' []
  | x :: l' => exists s', kalloc s = Ok x s' /\ uspace s' l' sh U F /\ frame s s' [x] /\
      page_ok x /\ (x ∉ l') /\ (x ∉ tables sh) /\ (x ∉ F) /\ x <> 0
  end.
Proof.
  intros Hu. pose proof (kalloc_pt s l sh U (us_pt _ _ _ _ _ Hu)) as Hk.
  pose proof (us_disj _ _ _ _ _ Hu) as Hd. destruct l as [|x l].
  - destruct Hk as (s' & Hs & Hi & Hf). exists s'. split_and!; auto. by eapply uspace_pt.
  - destruct Hk as (s' & Hs & Hi & Hf & Hx & Hxl & Hxt & Hnz). exists s'. split_and!; auto.
    + eapply uspace_pt; eauto. intros p Hp. destruct (Hd p Hp) as [Hpl ?]. split; [|done]. in_list.
    + intros Hin. destruct (Hd x Hin) as [Hxn _]. in_list.
Qed.

Lemma uspace_write s l sh U F p m' :
  uspace s l sh U F -> page_ok p -> (p ∉ l) -> (p ∉ tables sh) -> only_pages (m_mem s) [p] m' ->
  uspace (set_mem m' s) l sh U F /\ frame s (set_mem m' s) [p].
Proof.
  intros Hu Hp Hl Ht Hm.
  destruct (write_pt s l sh U p m' (us_pt _ _ _ _ _ Hu) Hp Hl Ht Hm) as [Hi Hf].
  split; [|done]. eapply uspace_pt; eauto. apply (us_disj _ _ _ _ _ Hu).
Qed.

Lemma uspace_kfree s l sh U F p :
  uspace s l sh U F -> page_ok p -> (p ∉ l) -> (p ∉ tables sh) -> (p ∉ F) ->
  exists s', kfree p s = Ok tt s' /\ uspace s' (p :: l) sh U F /\ frame s s' [p].
Proof.
  intros Hu Hp Hl Ht HF.
  destruct (kfree_pt s l sh U p (us_pt _ _ _ _ _ Hu) Hp Hl Ht) as (s' & Hs & Hi & Hf).
  exists s'. split_and!; auto. eapply uspace_pt; eauto. intros q Hq.
  destruct (us_disj _ _ _ _ _ Hu q Hq). split; [|done]. rewrite elem_of_cons.
  intros [->|?]; contradiction.
Qed.

(** An address space beside which other pages, taken from the free list, have
    been written. *)
Lemma uspace_beside s l sh U F s' l' ps :
  uspace s l sh U F -> kmem_inv s' l' -> frame s s' ps -> Forall page_ok ps ->
  (forall p, p ∈ ps -> p ∈ l) -> (forall p, p ∈ l' -> p ∈ l) ->
  uspace s' l' sh U F /\ (forall p, p ∈ ps -> p ∉ tables sh ++ F).
Proof.
  intros Hu Hk Hf Hps Hsub Hl. pose proof (vi_disj _ _ _ (pi_vm _ _ _ _ (us_pt _ _ _ _ _ Hu))) as Hd.
  assert (forall p, p ∈ tables sh -> (p ∉ ps) /\ (p ∉ l')) as Ht.
  { intros p Hp. specialize (Hd p Hp). split; intros ?; apply Hd; auto. }
  assert (forall p, p ∈ F -> (p ∉ ps) /\ (p ∉ l') /\ (p ∉ tables sh)) as HF.
  { intros p Hp. destruct (us_disj _ _ _ _ _ Hu p Hp) as [Hn Ht']. split_and!; [intros ?; apply Hn; auto..|done]. }
  split.
  - eapply uspace_pt; [exact Hu| |intros p Hp; by apply HF].
    eapply pt_inv_frame; [apply (us_pt _ _ _ _ _ Hu)|exact Hk|apply Hf|by apply page_ok_aligned|exact Ht].
  - intros p Hp [Hin|Hin]%elem_of_app; [by destruct (Ht p Hin)|by destruct (HF p Hin)].
Qed.

(** The hart is no part of an address space. *)
Lemma kmem_inv_hart m l h : kmem_inv m l -> hart_ok h -> kmem_inv (put_hart h m) l.
Proof. intros [] Hh. by split. Qed.

Lemma uspace_hart m l sh U F h : uspace m l sh U F -> hart_ok h -> uspace (put_hart h m) l sh U F.
Proof.
  intros Hu Hh. pose proof (us_pt _ _ _ _ _ Hu) as Hpt.
  eapply uspace_pt; [exact Hu| |apply (us_disj _ _ _ _ _ Hu)].
  eapply pt_inv_frame; [exact Hpt|apply kmem_inv_hart; [apply Hpt|done]|apply only_pages_refl|apply Forall_nil_2|].
  intros p Hp. split; [by apply not_elem_of_nil|]. by apply (vi_disj _ _ _ (pi_vm _ _ _ _ Hpt)).
Qed.

Lemma frame_pushed h m m' ps : hart_ok h -> m_hart m = pushed h -> frame m m' ps -> m_hart m' = pushed h.
Proof.
  intros Hh Hm Hf. destruct (fr_hart _ _ _ Hf) as [Hs|Hs]; rewrite Hs, Hm; [done|by apply touched_pushed].
Qed.

(** ** uvmalloc *)

(** The flags of a page uvmalloc maps. *)
Definition uperm : Z := Z.lor (Z.lor (Z.lor PTE_W PTE_X) PTE_R) PTE_U.

(** The progress of uvmalloc: [G] are the frames it has added, zeroed, to the
    address space [F0]. *)
Record uext (s0 : mst) (l0 : list Z) (sh0 : shape) (U0 : gmap Z Z) (F0 : list Z)
            (s : mst) (l : list Z) (sh : shape) (U : gmap Z Z) (G : list Z) : Prop := {
  ue_space : uspace s l sh U (F0 ++ G);
  ue_root : sh_root sh = sh_root sh0;
  ue_pages : l ++ tables sh ++ G ≡ₚ l0 ++ tables sh0;
  ue_old : forall k, ~ (Z.of_nat (length F0) <= k < Z.of_nat (length F0 + length G)) ->
             U !! k = U0 !! k;
  ue_new : forall i p, G !! i = Some p ->
             U !! Z.of_nat (length F0 + i) = Some (mkpte p (Z.lor uperm PTE_V));
  ue_zero : forall p, p ∈ G -> page_zero (m_mem s) p;
  ue_frame : frame s0 s (l0 ++ tables sh0)
}.

Lemma uext_refl s l sh U F : uspace s l sh U F -> uext s l sh U F s l sh U [].
Proof.
  intros Hu. split; rewrite ?app_nil_r; auto using frame_refl.
  - done.
  - intros p Hp%elem_of_nil. done.
Qed.

(** Undoing: uvmdealloc gives back all the frames of [G]. *)
Lemma uext_undo s0 l0 sh0 U0 F0 s l sh U G :
  uspace s0 l0 sh0 U0 F0 -> uext s0 l0 sh0 U0 F0 s l sh U G ->
  let oldsz := PGSIZE * Z.of_nat (length F0) in
  let a := PGSIZE * Z.of_nat (length F0 + length G) in
  exists s', uvmdealloc (sh_root sh) a oldsz s = Ok oldsz s' /\
    uext s0 l0 sh0 U0 F0 s' (rev G ++ l) sh U0 [].
Proof.
  intros Hu0 [Hu Hr Hpg Hold Hnew Hz Hf] oldsz a.
  pose proof (us_len _ _ _ _ _ Hu) as HN. rewrite NUSER_eq, length_app in HN.
  assert (npg oldsz = length F0) as Hn by (subst oldsz; unfold npg; klia).
  assert (npg a = (length F0 + length G)%nat) as Hna by (subst a; unfold npg; klia).
  destruct (uvmdealloc_spec s l sh U (F0 ++ G) a oldsz Hu) as (s' & Hs & Hu' & Hf').
  { subst oldsz a. klia. } { subst a. klia. } { by rewrite length_app, Hna. }
  rewrite Hn, length_app, take_app_length, drop_app_length in *.
  exists s'. split; [done|].
  assert (unmap_range (length F0 + length G - length F0) (Z.of_nat (length F0)) U = U0) as HU.
  { apply map_eq. intros k. rewrite lookup_unmap_range. destruct (decide _) as [Hk|Hk].
    - symmetry. apply (us_gap _ _ _ _ _ Hu0). rewrite NUSER_eq. lia.
    - apply Hold. lia. }
  rewrite HU in Hu'. split; auto; rewrite ?app_nil_r; auto.
  - rewrite <- Hpg, <- Permutation_rev. rewrite <- app_assoc. rewrite Permutation_app_comm, <- app_assoc. done.
  - done.
  - by intros p ?%elem_of_nil.
  - eapply frame_trans; [exact Hf|]. eapply frame_weaken; [exact Hf'|]. intros p Hp. rewrite <- Hpg. in_list.
Qed.

(** A fresh zeroed page beside the address space. *)
Lemma uext_fresh s0 l0 sh0 U0 F0 s x l sh U G :
  uext s0 l0 sh0 U0 F0 s (x :: l) sh U G ->
  exists s1 s2, kalloc s = Ok x s1 /\ kmemset x 0 PGSIZE s1 = Ok tt s2 /\
    uspace s2 l sh U (F0 ++ G) /\ frame s s2 [x] /\ page_zero (m_mem s2) x /\
    page_ok x /\ (x ∉ l) /\ (x ∉ tables sh) /\ (x ∉ F0 ++ G) /\ x <> 0.
Proof.
  intros He. destruct (uspace_kalloc _ _ _ _ _ (ue_space _ _ _ _ _ _ _ _ _ _ He))
    as (s1 & Hs1 & Hu1 & Hf1 & Hx & Hxl & Hxt & HxF & Hnz).
  destruct (uspace_write s1 l sh U (F0 ++ G) x _ Hu1 Hx Hxl Hxt (memset_page_only (m_mem s1) x 0))
    as [Hu2 Hf2].
  exists s1, (set_mem (memset (m_mem s1) x 0 PGSIZE) s1).
  split_and!; [exact Hs1|reflexivity|exact Hu2|by eapply frame_trans|apply zeroed_page|assumption..].
Qed.

Lemma frame_zero s s' ps p :
  page_zero (m_mem s) p -> frame s s' ps -> page_ok p -> Forall page_ok ps -> (p ∉ ps) ->
  page_zero (m_mem s') p.
Proof.
  intros Hz Hf Hp Hps Hn. eapply page_zero_frame; [exact Hz|apply Hf|apply Hp| |exact Hn].
  by apply page_ok_aligned.
Qed.

Lemma uspace_all_ok s l sh U F : uspace s l sh U F -> Forall page_ok (l ++ tables sh).
Proof.
  intros Hu. pose proof (pi_vm _ _ _ _ (us_pt _ _ _ _ _ Hu)) as Hv.
  apply Forall_app. split; [apply (ki_pages _ _ (vi_kmem _ _ _ Hv))|apply (vi_pages _ _ _ Hv)].
Qed.

Lemma uext_snoc s0 l0 sh0 U0 F0 s x l sh U G s2 s' l' sh' :
  uext s0 l0 sh0 U0 F0 s (x :: l) sh U G -> uspace s2 l sh U (F0 ++ G) -> frame s s2 [x] ->
  page_zero (m_mem s2) x -> page_ok x -> (x ∉ l) -> (x ∉ tables sh) -> (x ∉ F0 ++ G) ->
  ext s2 l sh s' l' sh' ->
  let U' := <[Z.of_nat (length (F0 ++ G)) := mkpte x (Z.lor uperm PTE_V)]> U in
  uspace s' l' sh' U' ((F0 ++ G) ++ [x]) -> uext s0 l0 sh0 U0 F0 s' l' sh' U' (G ++ [x]).
Proof.
  intros He Hu2 Hf2 Hz2 Hx Hxl Hxt HxF Hext U' Hu'.
  pose proof (uspace_all_ok _ _ _ _ _ Hu2) as Hall.
  destruct He as [Hu Hr Hpg Hold Hnew Hz Hf]. subst U'. rewrite length_app in *.
  split; rewrite ?length_app; cbn [length].
  - by rewrite app_assoc.
  - by rewrite (ex_root _ _ _ _ _ _ Hext).
  - transitivity ((l' ++ tables sh') ++ G ++ [x]); [by rewrite <- app_assoc|].
    rewrite (ex_pages _ _ _ _ _ _ Hext), <- Hpg, <- Permutation_cons_append, <- Permutation_middle.
    by rewrite <- app_assoc.
  - intros k Hk. rewrite lookup_insert_ne by lia. apply Hold. lia.
  - intros i p [Hi|[Hge Hi]]%lookup_app_Some.
    + rewrite lookup_insert_ne by (apply lookup_lt_Some in Hi; lia). by apply Hnew.
    + apply list_lookup_singleton_Some in Hi as [Hi <-].
      replace (Z.of_nat (length F0 + i)) with (Z.of_nat (length F0 + length G)) by lia.
      by rewrite lookup_insert_eq.
  - intros p [Hp| ->%list_elem_of_singleton]%elem_of_app.
    + assert (p ∈ F0 ++ G) as HpF by in_list. destruct (us_disj _ _ _ _ _ Hu2 p HpF) as [Hpl Hpt].
      assert (page_ok p) as Hpo by (by eapply Forall_forall; [apply (us_pages _ _ _ _ _ Hu2)|]).
      eapply frame_zero; [eapply frame_zero; [by apply Hz|exact Hf2|done|by apply Forall_singleton|]
        |apply (ex_frame _ _ _ _ _ _ Hext)|done|done|in_list].
      intros ->%list_elem_of_singleton. contradiction.
    + eapply frame_zero; [exact Hz2|apply (ex_frame _ _ _ _ _ _ Hext)|done|done|in_list].
  - eapply frame_trans; [exact Hf|]. eapply frame_trans;
      [eapply frame_weaken; [exact Hf2|]|eapply frame_weaken; [apply (ex_frame _ _ _ _ _ _ Hext)|]];
      intros p Hp; rewrite <- Hpg; in_list.
Qed.

(** Giving up before the page is mapped. *)
Lemma uext_abort s0 l0 sh0 U0 F0 s x l sh U G s2 s' sh' :
  uext s0 l0 sh0 U0 F0 s (x :: l) sh U G -> uspace s2 l sh U (F0 ++ G) -> frame s s2 [x] ->
  page_ok x -> (x ∉ l) -> (x ∉ tables sh) -> (x ∉ F0 ++ G) ->
  ext s2 l sh s' [] sh' -> uspace s' [] sh' U (F0 ++ G) ->
  exists s3, kfree x s' = Ok tt s3 /\ uext s0 l0 sh0 U0 F0 s3 [x] sh' U G.
Proof.
  intros He Hu2 Hf2 Hx Hxl Hxt HxF Hext Hu'.
  pose proof (uspace_all_ok _ _ _ _ _ Hu2) as Hall.
  destruct (ext_disj _ _ _ _ _ _ x Hext Hxl Hxt) as [_ Hxt'].
  destruct (uspace_kfree s' [] sh' U (F0 ++ G) x Hu' Hx) as (s3 & Hs3 & Hu3 & Hf3); auto.
  { by intros ?%elem_of_nil. }
  exists s3. split; [done|]. destruct He as [Hu Hr Hpg Hold Hnew Hz Hf]. split; auto.
  - by rewrite (ex_root _ _ _ _ _ _ Hext).
  - transitivity (x :: ([] ++ tables sh') ++ G); [done|].
    rewrite (ex_pages _ _ _ _ _ _ Hext), <- Hpg. by rewrite <- app_assoc.
  - intros p Hp. assert (p ∈ F0 ++ G) as HpF by in_list.
    destruct (us_disj _ _ _ _ _ Hu2 p HpF) as [Hpl Hpt].
    assert (page_ok p) as Hpo by (by eapply Forall_forall; [apply (us_pages _ _ _ _ _ Hu2)|]).
    assert (p ∉ [x]) by (intros ->%list_elem_of_singleton; contradiction).
    assert (Forall page_ok [x]) by (by apply Forall_singleton).
    eapply frame_zero; [|exact Hf3|done..].
    eapply frame_zero; [|apply (ex_frame _ _ _ _ _ _ Hext)|done|done|in_list].
    eapply frame_zero; [by apply Hz|exact Hf2|done..].
  - eapply frame_trans; [exact Hf|]. eapply frame_trans; [eapply frame_weaken; [exact Hf2|]|].
    { intros p Hp. rewrite <- Hpg. in_list. }
    eapply frame_trans; (eapply frame_weaken; [apply (ex_frame _ _ _ _ _ _ Hext)||exact Hf3|]);
      intros p Hp; rewrite <- Hpg; in_list.
Qed.

Lemma uvmalloc_step fuel s0 l0 sh0 U0 F0 s l sh U G newsz :
  uspace s0 l0 sh0 U0 F0 -> uext s0 l0 sh0 U0 F0 s l sh U G ->
  let oldsz := PGSIZE * Z.of_nat (length F0) in
  let a := PGSIZE * Z.of_nat (length F0 + length G) in
  a < newsz -> newsz <= TRAPFRAME ->
  (exists s' l' sh' U' x,
     uvmalloc_loop (S fuel) (sh_root sh) oldsz a newsz s =
       uvmalloc_loop fuel (sh_root sh') oldsz (a + PGSIZE) newsz s' /\
     uext s0 l0 sh0 U0 F0 s' l' sh' U' (G ++ [x])) \/
  (exists s' l' sh',
     uvmalloc_loop (S fuel) (sh_root sh) oldsz a newsz s = Ok 0 s' /\
     uext s0 l0 sh0 U0 F0 s' l' sh' U0 [] /\
     (length l0 + length (tables sh0) <= length (tables sh') + length G + 1)%nat).
Proof.
  intros Hu0 He oldsz a Ha Hnew. cbn [uvmalloc_loop].
  destruct (Z.ltb_spec a newsz); [|lia]. cbn [negb].
  pose proof (ue_pages _ _ _ _ _ _ _ _ _ _ He) as Hpg. destruct l as [|x l].
  - right. destruct (uspace_kalloc _ _ _ _ _ (ue_space _ _ _ _ _ _ _ _ _ _ He)) as (s1 & Hs1 & Hu1 & Hf1).
    rewrite (bind_Ok _ _ _ _ _ Hs1). change (0 =? 0) with true. cbv iota.
    assert (uext s0 l0 sh0 U0 F0 s1 [] sh U G) as He1.
    { destruct He as [Hu Hr _ Hold Hn Hz Hf]. split; auto.
      - intros p Hp. eapply frame_zero; [by apply Hz|exact Hf1| |constructor|by intros ?%elem_of_nil].
        eapply Forall_forall; [apply (us_pages _ _ _ _ _ Hu)|in_list].
      - eapply frame_trans; [exact Hf|]. eapply frame_weaken; [exact Hf1|]. by intros p ?%elem_of_nil. }
    destruct (uext_undo _ _ _ _ _ _ _ _ _ _ Hu0 He1) as (s' & Hs' & He').
    subst a oldsz. rewrite (bind_Ok _ _ _ _ _ Hs'). exists s', (rev G ++ []), sh. split_and!; auto.
    apply Permutation_length in Hpg. rewrite !length_app in Hpg. cbn [length] in Hpg. lia.
  - destruct (uext_fresh _ _ _ _ _ _ _ _ _ _ _ He)
      as (s1 & s2 & Hs1 & Hs2 & Hu2 & Hf2 & Hz2 & Hx & Hxl & Hxt & HxF & Hnz).
    rewrite (bind_Ok _ _ _ _ _ Hs1). destruct (Z.eqb_spec x 0); [contradiction|].
    rewrite (bind_Ok _ _ _ _ _ Hs2).
    destruct (uspace_map s2 l sh U (F0 ++ G) x uperm) as (r & s3 & l3 & sh3 & Hr & Hext & Hcase & _); auto.
    { rewrite length_app, NUSER_eq. subst a. klia. }
    { done. }
    rewrite length_app in Hr. fold a in Hr. fold uperm.
    rewrite (bind_Ok _ _ _ _ _ Hr). rewrite (u64_small (a + PGSIZE)) by (subst a; klia).
    destruct Hcase as [[-> Hu3]|(-> & -> & Hu3)].
    + left. change (negb (0 =? 0)) with false. cbv iota. rewrite <- (ex_root _ _ _ _ _ _ Hext).
      do 5 eexists. split; [reflexivity|]. by eapply uext_snoc.
    + right. change (negb (-1 =? 0)) with true. cbv iota.
      destruct (uext_abort _ _ _ _ _ _ _ _ _ _ _ _ _ _ He Hu2 Hf2 Hx Hxl Hxt HxF Hext Hu3)
        as (s4 & Hs4 & He4).
      rewrite (bind_Ok _ _ _ _ _ Hs4). rewrite <- (ex_root _ _ _ _ _ _ Hext).
      destruct (uext_undo _ _ _ _ _ _ _ _ _ _ Hu0 He4) as (s' & Hs' & He').
      subst a oldsz. rewrite (bind_Ok _ _ _ _ _ Hs'). exists s', (rev G ++ [x]), sh3. split_and!; auto.
      pose proof (Permutation_length (ue_pages _ _ _ _ _ _ _ _ _ _ He4)) as Hlen.
      rewrite !length_app in Hlen. cbn [length] in Hlen. lia.
Qed.

(** What uvmalloc did: it returned [newsz] and the address space grew to
    [npg newsz] pages, the new ones zeroed and mapped with all permissions; or
    it returned 0, nothing is mapped that was not before, and no page was lost. *)
Definition uvmalloc_post (s0 : mst) (l0 : list Z) (sh0 : shape) (U0 : gmap Z Z) (F0 : list Z)
    (newsz r : Z) (s : mst) : Prop :=
  (r = newsz /\ exists l sh U G,
     uext s0 l0 sh0 U0 F0 s l sh U G /\ (length F0 + length G = npg newsz)%nat) \/
  (r = 0 /\ exists l sh,
     uext s0 l0 sh0 U0 F0 s l sh U0 [] /\
     (length l0 + length (tables sh0) <= length (tables sh) + (npg newsz - length F0))%nat).

Lemma uvmalloc_loop_spec fuel s0 l0 sh0 U0 F0 s l sh U G newsz :
  uspace s0 l0 sh0 U0 F0 -> uext s0 l0 sh0 U0 F0 s l sh U G ->
  let oldsz := PGSIZE * Z.of_nat (length F0) in
  let a := PGSIZE * Z.of_nat (length F0 + length G) in
  newsz <= TRAPFRAME -> (0 < fuel)%nat -> newsz <= a + PGSIZE * (Z.of_nat fuel - 1) ->
  (length F0 + length G <= npg newsz)%nat ->
  exists r s', uvmalloc_loop fuel (sh_root sh) oldsz a newsz s = Ok r s' /\
    uvmalloc_post s0 l0 sh0 U0 F0 newsz r s'.
Proof.
  revert s l sh U G. induction fuel as [|fuel IH]; intros s l sh U G Hu0 He oldsz a Hnew Hf0 Hfuel Hlen; [lia|].
  destruct (Z.lt_ge_cases a newsz) as [Hlt|Hge].
  - destruct (uvmalloc_step fuel _ _ _ _ _ _ _ _ _ _ newsz Hu0 He Hlt Hnew)
      as [(s' & l' & sh' & U' & x & Hr & He')|(s' & l' & sh' & Hr & He' & Hb)]; fold a oldsz in Hr; rewrite Hr.
    + assert (a + PGSIZE = PGSIZE * Z.of_nat (length F0 + length (G ++ [x]))) as ->.
      { rewrite length_app; cbn [length]. subst a. klia. }
      apply (IH _ _ _ _ _ Hu0 He' Hnew); rewrite ?length_app; cbn [length]; subst a; unfold npg in *; klia.
    + exists 0, s'. split; [done|]. right. split; [done|]. exists l', sh'. split; [exact He'|].
      assert (length F0 + length G < npg newsz)%nat by (subst a; unfold npg in *; klia). lia.
  - exists newsz, s. cbn [uvmalloc_loop]. destruct (Z.ltb_spec a newsz); [lia|]. split; [done|].
    left. split; [done|]. exists l, sh, U, G. split; [exact He|]. subst a. unfold npg in *. klia.
Qed.

Lemma uvmalloc_spec s l sh U F oldsz newsz :
  uspace s l sh U F -> length F = npg oldsz -> 0 <= oldsz <= newsz -> newsz <= TRAPFRAME ->
  exists r s', uvmalloc (sh_root sh) oldsz newsz s = Ok r s' /\
    uvmalloc_post s l sh U F newsz r s'.
Proof.
  intros Hu Hlen Hsz Hnew. unfold uvmalloc. destruct (Z.ltb_spec newsz oldsz); [lia|].
  rewrite PGROUNDUP_npg by klia. rewrite <- Hlen.
  pose proof (npg_mono oldsz newsz ltac:(lia)) as Hm.
  pose proof (uvmalloc_loop_spec (S (Z.to_nat ((newsz - PGSIZE * Z.of_nat (length F)) / PGSIZE + 1)))
    s l sh U F s l sh U [] newsz Hu (uext_refl _ _ _ _ _ Hu)) as Hloop.
  cbn [length] in Hloop. rewrite Nat.add_0_r in Hloop. apply Hloop; [done|lia| |lia].
  clear Hloop. klia.
Qed.

(** ** uvmcreate and uvmclear *)

(** The shape of a page table that is one zeroed page. *)
Definition empty_shape (x : Z) : shape := Shape x ∅ ∅.

Lemma uspace_empty s l x :
  kmem_inv s l -> page_ok x -> (x ∉ l) -> page_zero (m_mem s) x ->
  uspace s l (empty_shape x) ∅ [].
Proof.
  intros Hk Hx Hl Hz.
  assert (forall i, 0 <= i < 512 -> slot (m_mem s) x i = 0) as Hs.
  { intros i Hi. apply rd64_zero. intros j Hj. rewrite <- Z.add_assoc. apply Hz. consts. lia. }
  assert (tables (empty_shape x) = [x]) as Ht by done.
  assert (vm_inv s l (empty_shape x)) as Hv.
  { split; rewrite ?Ht.
    - exact Hk.
    - split; cbn; try done. intros i Hi. rewrite lookup_empty, Hs by done. done.
    - apply NoDup_singleton.
    - apply Forall_cons. by split; [|constructor].
    - by intros p ->%list_elem_of_singleton. }
  split; [split|..]; try done; [constructor|by intros p ?%elem_of_nil].
Qed.

Lemma uvmcreate_spec s x l :
  kmem_inv s (x :: l) ->
  exists s', uvmcreate s = Ok x s' /\ uspace s' l (empty_shape x) ∅ [] /\ frame s s' [x].
Proof.
  intros Hk. destruct (kalloc_inv _ _ Hk) as (s1 & Hs1 & Hk1 & Hh1 & Hm1 & Hp1).
  pose proof (ki_pages _ _ Hk) as [Hx _]%Forall_cons.
  pose proof (ki_nodup _ _ Hk) as [Hxl _]%NoDup_cons.
  assert (only_pages (m_mem s) [x] (m_mem s1)) as Ho1.
  { unfold mem_is in Hm1. rewrite Hm1. apply memset_page_only. }
  clear Hm1. unfold uvmcreate. rewrite (bind_Ok _ _ _ _ _ Hs1).
  destruct (Z.eqb_spec x 0); [by apply page_ok_nz in Hx|]. unfold kmemset. mstep.
  set (m2 := memset (m_mem s1) x 0 PGSIZE).
  assert (only_pages (m_mem s1) [x] m2) as Ho2 by apply memset_page_only.
  assert (page_zero m2 x) as Hz by apply zeroed_page. clearbody m2.
  exists (set_mem m2 s1). split_and!; [reflexivity| |].
  - apply uspace_empty; auto. eapply kmem_inv_mem; [exact Hk1|exact Ho2|by apply Forall_singleton, Hx|].
    intros p Hp ->%list_elem_of_singleton. contradiction.
  - split; [by right|done|]. intros a Ha. cbn [m_mem set_mem]. rewrite Ho2, Ho1 by done. done.
Qed.

Lemma uvmcreate_fail s :
  kmem_inv s [] -> exists s', uvmcreate s = Ok 0 s' /\ kmem_inv s' [] /\ frame s s' [].
Proof.
  intros Hk. eexists. unfold uvmcreate. rewrite (bind_Ok _ _ _ _ _ (kalloc_inv _ _ Hk)).
  split_and!; [reflexivity|by apply kmem_inv_touch|apply frame_touch].
Qed.

Lemma testbit_clear_U v n :
  0 <= n -> Z.testbit (Z.land v (Z.lnot PTE_U)) n = Z.testbit v n && negb (n =? 4).
Proof.
  intros Hn. rewrite Z.land_spec, Z.lnot_spec by done. do 2 f_equal.
  change PTE_U with (2 ^ 4). rewrite Z.pow2_bits_eqb by lia. apply Z.eqb_sym.
Qed.

Lemma PTE2PA_clear_U v : PTE2PA (Z.land v (Z.lnot PTE_U)) = PTE2PA v.
Proof.
  unfold PTE2PA. assert (Z.shiftr (Z.land v (Z.lnot PTE_U)) 10 = Z.shiftr v 10) as ->; [|done].
  apply Z.bits_inj'. intros n Hn. rewrite !Z.shiftr_spec, testbit_clear_U by lia. destruct (Z.eqb_spec (n + 10) 4); [lia|].
  apply andb_true_r.
Qed.

(** uvmclear takes the PTE_U bit of one page away and changes nothing else. *)
Lemma uvmclear_spec s l sh U va v :
  pt_inv s l sh U -> 0 <= va < MAXVA -> U !! (va / 4096) = Some v -> 0 <= v < 2 ^ 64 ->
  exists s', uvmclear (sh_root sh) va s = Ok tt s' /\
    pt_inv s' l sh (<[va / 4096 := Z.land v (Z.lnot PTE_U)]> U) /\ frame s s' (tables sh).
Proof.
  intros Hi Hva Hv Hr. destruct (walk_mapped s l sh U va v Hi Hva Hv) as (a & Hw & Hnz & Hrd & Hbit & Ha).
  unfold uvmclear. rewrite (bind_Ok _ _ _ _ _ Hw). destruct (Z.eqb_spec a 0); [done|].
  unfold load64, store64. mstep. rewrite Hrd. subst a.
  destruct (mapped_l0 _ _ _ _ _ _ Hi Hv) as (q & Hq & _).
  assert (0 <= Z.land v (Z.lnot PTE_U) < 2 ^ 64) as Hr2.
  { by apply land_range. }
  destruct (store_leaf_map s l sh U (va / 4096) q _ Hi Hq Hr2) as (_ & Hf & Hi').
  rewrite testbit_clear_U, Hbit in Hi' by lia. eexists. split_and!; [reflexivity|exact Hi'|exact Hf].
Qed.

End UserMem.
