(* ===== verification/UserFree.v ===== *)
(** * freewalk and uvmfree: every page of an address space goes back to the allocator *)

From S2P Require Import Prelude CString Layout Spinlock Kalloc Vm VmSpec AddrSpace UserMem.

(** ** Trees without leaves *)

(** Entry [j] of the table [t] is invalid, or points to a subtree at [q] whose
    pages besides [q] are described by [R]; [Q] are all the pages of the subtree. *)
Definition kid `{KernelImage} (R : Z -> list Z -> Prop) (m : mem) (t j : Z) (Q : list Z) : Prop :=
  (Z.testbit (slot m t j) 0 = false /\ Q = []) \/
  (exists q P, slot m t j = mkpte q PTE_V /\ page_ok q /\ Q = q :: P /\ R q P).

(** [ftree n m t P]: the table [t] is the root of a tree of at most [n] levels
    that has no valid leaf entry; [P] are its other tables. *)
Fixpoint ftree `{KernelImage} (n : nat) (m : mem) (t : Z) (P : list Z) : Prop :=
  match n with
  | O => False
  | S n' => exists f : Z -> list Z,
      P = seqZ 0 512 ≫= f /\ forall j, 0 <= j < 512 -> kid (ftree n' m) m t j (f j)
  end.

Section UserFree.
Context `{HI : KernelImage}.
Context `{HOk : !ImageOk}.

(** A tree only depends on its own pages. *)
Lemma ftree_frame n m m' t P ps :
  ftree n m t P -> only_pages m ps m' -> Forall (fun q => q mod PGSIZE = 0) ps ->
  Forall page_ok (t :: P) -> (forall p, p ∈ t :: P -> p ∉ ps) -> ftree n m' t P.
Proof.
  revert t P. induction n as [|n IH]; intros t P; [done|]. intros (f & -> & Hk) Hm Ha Hp Hd.
  exists f. split; [done|]. intros j Hj.
  assert (slot m' t j = slot m t j) as Hs.
  { eapply slot_frame; eauto; [|apply Hd; in_list]. by apply Forall_cons in Hp as [[??] _]. }
  destruct (Hk j Hj) as [[Hb HQ]|(q & P & Hq & Hpq & HQ & HR)]; [left|right]; rewrite Hs; [done|].
  exists q, P. split_and!; auto.
  assert (forall p, p ∈ q :: P -> p ∈ t :: (seqZ 0 512 ≫= f)) as Hsub.
  { intros p Hin. right. apply list_elem_of_bind. exists j. rewrite HQ. split; [done|].
    apply elem_of_seqZ. lia. }
  apply IH; auto. apply Forall_forall. intros p Hin. eapply Forall_forall in Hp; eauto.
Qed.

(** Freeing a page, in terms of the allocator alone. *)
Lemma kfree_frame s l p :
  kmem_inv s l -> page_ok p -> (p ∉ l) ->
  exists s', kfree p s = Ok tt s' /\ kmem_inv s' (p :: l) /\ frame s s' [p].
Proof.
  intros Hk Hp Hl. destruct (kfree_inv s l p Hk Hp Hl) as (s' & Hs & Hk' & Hh & Hm & Hkp).
  exists s'. split_and!; auto. split; [by right|done..].
Qed.

(** The result of freeing the pages [Q]: they join the free list. *)
Definition freed (s : mst) (l : list Z) (Q : list Z) (ps : list Z) (s' : mst) : Prop :=
  exists l', kmem_inv s' l' /\ l' ≡ₚ Q ++ l /\ frame s s' ps.

(** One iteration of freewalk's loop. *)
Lemma freewalk_entry_spec (fw : Z -> M mst unit) n s l t j Q :
  (forall s l q P, kmem_inv s l -> Forall page_ok (q :: P) -> NoDup (q :: P) ->
     (forall p, p ∈ q :: P -> p ∉ l) -> ftree n (m_mem s) q P ->
     exists s', fw q s = Ok tt s' /\ freed s l (q :: P) (q :: P) s') ->
  kmem_inv s l -> page_ok t -> (t ∉ l) -> 0 <= j < 512 ->
  Forall page_ok Q -> NoDup Q -> (forall p, p ∈ Q -> (p ∉ l) /\ p <> t) ->
  kid (ftree n (m_mem s)) (m_mem s) t j Q ->
  exists s', freewalk_entry fw t j s = Ok tt s' /\ freed s l Q (t :: Q) s' /\
    forall i, 0 <= i < 512 -> i <> j -> slot (m_mem s') t i = slot (m_mem s) t i.
Proof.
  intros Hfw Hk Ht Htl Hj HQ Hnd Hd Hkid. unfold freewalk_entry, load64. mstep.
  change (rd64 (m_mem s) (t + 8 * j)) with (slot (m_mem s) t j). rewrite truthy_V.
  destruct Hkid as [[Hb ->]|(q & P & Hq & Hpq & -> & HR)].
  { rewrite Hb. exists s. split_and!; [done| |done]. exists l. split_and!; [done..|apply frame_refl]. }
  pose proof (page_ok_56 q Hpq) as H56.
  rewrite Hq, testbit_mkpte by (done || lia). change (Z.testbit PTE_V 0) with true.
  assert (Z.land (mkpte q PTE_V) (Z.lor (Z.lor PTE_R PTE_W) PTE_X) = 0) as ->.
  { apply Z.bits_inj'. intros i Hi. rewrite Z.land_spec, Z.bits_0.
    destruct (Z.lt_ge_cases i 10).
    - rewrite testbit_mkpte by (done || lia). rewrite <- Z.land_spec.
      change (Z.land PTE_V (Z.lor (Z.lor PTE_R PTE_W) PTE_X)) with 0. apply Z.bits_0.
    - change (Z.lor (Z.lor PTE_R PTE_W) PTE_X) with 14.
      rewrite (Z.bits_above_log2 14); [apply andb_false_r|done|change (Z.log2 14) with 3; lia]. }
  change (0 =? 0) with true. cbn [andb]. rewrite mkpte_PTE2PA by (done || apply Hpq).
  destruct (Hfw s l q P Hk HQ Hnd) as (s1 & Hs1 & l1 & Hk1 & Hl1 & Hf1); auto.
  { intros p Hp. by apply Hd. }
  rewrite (bind_Ok _ _ _ _ _ Hs1). unfold store64.
  assert (only_pages (m_mem s1) [t] (wr64 (m_mem s1) (t + 8 * j) 0)) as Hm.
  { apply wr64_page_only. consts. lia. }
  eexists. split_and!; [reflexivity| |].
  - exists l1. split_and!; [|done|].
    + eapply kmem_inv_mem; [exact Hk1|exact Hm|apply Forall_singleton, Ht|].
      intros p Hp ->%list_elem_of_singleton. rewrite Hl1 in Hp.
      apply elem_of_app in Hp as [Hp|Hp]; [by apply (Hd t)|done].
    + eapply frame_trans; [eapply frame_weaken; [exact Hf1|]|]; [intros p; in_list|].
      split; [by left|done|]. eapply only_pages_weaken; [exact Hm|]. intros p; in_list.
  - intros i Hi Hne. cbn [m_mem set_mem]. rewrite slot_wr_ne; auto; [|apply Ht..].
    eapply slot_frame; [apply Hf1|apply Ht| | |done].
    + by apply page_ok_aligned.
    + intros Hin. by apply (Hd t).
Qed.

(** The loop over the entries [js]. *)
Lemma freewalk_for (fw : Z -> M mst unit) n (f : Z -> list Z) t js s l :
  (forall s l q P, kmem_inv s l -> Forall page_ok (q :: P) -> NoDup (q :: P) ->
     (forall p, p ∈ q :: P -> p ∉ l) -> ftree n (m_mem s) q P ->
     exists s', fw q s = Ok tt s' /\ freed s l (q :: P) (q :: P) s') ->
  kmem_inv s l -> page_ok t -> (t ∉ l) -> NoDup js -> (forall j, j ∈ js -> 0 <= j < 512) ->
  Forall page_ok (js ≫= f) -> NoDup (js ≫= f) ->
  (forall p, p ∈ js ≫= f -> (p ∉ l) /\ p <> t) ->
  (forall j, j ∈ js -> kid (ftree n (m_mem s)) (m_mem s) t j (f j)) ->
  exists s', mfor js (freewalk_entry fw t) s = Ok tt s' /\
    freed s l (js ≫= f) (t :: (js ≫= f)) s'.
Proof.
  intros Hfw. revert s l. induction js as [|j js IH]; intros s l Hk Ht Htl Hjs Hr Hp Hnd Hd Hkid.
  { exists s. split; [done|]. exists l. split_and!; [done..|apply frame_refl]. }
  cbn [mfor]. rewrite bind_cons in *.
  apply Forall_app in Hp as [Hp1 Hp2]. apply NoDup_app in Hnd as (Hn1 & Hn12 & Hn2).
  apply NoDup_cons in Hjs as [Hj Hjs].
  destruct (freewalk_entry_spec fw n s l t j (f j)) as (s1 & Hs1 & (l1 & Hk1 & Hl1 & Hf1) & Hslot); auto.
  { apply Hr. by left. } { intros p Hin. apply Hd. in_list. } { apply Hkid. by left. }
  rewrite (bind_Ok _ _ _ _ _ Hs1).
  destruct (IH s1 l1) as (s' & Hs' & l' & Hk' & Hl' & Hf'); auto.
  - rewrite Hl1. intros [Hin|Hin]%elem_of_app; [|done]. destruct (Hd t) as [_ ?]; [in_list|done].
  - intros i Hi. apply Hr. by right.
  - intros p Hin. destruct (Hd p) as [? ?]; [in_list|]. split; [|done]. rewrite Hl1.
    intros [Hin1|Hin1]%elem_of_app; [by apply (Hn12 p)|done].
  - intros i Hi. assert (0 <= i < 512) as Hri by (apply Hr; by right).
    destruct (Hkid i ltac:(by right)) as [[Hb HQ]|(q & P & Hq & Hpq & HQ & HR)]; [left|right];
      rewrite Hslot by (done || congruence); [done|].
    exists q, P. split_and!; auto.
    assert (forall p, p ∈ q :: P -> p ∈ js ≫= f) as Hsub.
    { intros p Hin. apply list_elem_of_bind. exists i. by rewrite HQ. }
    eapply ftree_frame; [exact HR|apply Hf1| | |].
    + apply page_ok_aligned, Forall_cons. done.
    + apply Forall_forall. intros p Hin. eapply Forall_forall in Hp2; eauto.
    + intros p Hin [->|Hin2]%elem_of_cons.
      * destruct (Hd t) as [_ ?]; [apply elem_of_app; auto|done].
      * apply (Hn12 p); auto.
  - exists s'. split; [exact Hs'|]. exists l'. split_and!; auto.
    + rewrite Hl', Hl1, !app_assoc. f_equiv. apply Permutation_app_comm.
    + eapply frame_trans; (eapply frame_weaken; [exact Hf1 || exact Hf'|]); intros p;
        rewrite ?elem_of_cons, ?elem_of_app; tauto.
Qed.

(** freewalk frees every table of the tree. *)
Lemma freewalk_spec n s l t P :
  kmem_inv s l -> Forall page_ok (t :: P) -> NoDup (t :: P) ->
  (forall p, p ∈ t :: P -> p ∉ l) -> ftree n (m_mem s) t P ->
  exists s', freewalk n t s = Ok tt s' /\ freed s l (t :: P) (t :: P) s'.
Proof.
  revert s l t P. induction n as [|n IH]; intros s l t P Hk Hp Hnd Hd; [done|].
  intros (f & -> & Hkid). cbn [freewalk].
  apply Forall_cons in Hp as [Ht Hp]. apply NoDup_cons in Hnd as [Htn Hnd].
  destruct (freewalk_for (freewalk n) n f t (seqZ 0 512) s l) as (s1 & Hs1 & l1 & Hk1 & Hl1 & Hf1); auto.
  - apply Hd. by left.
  - apply NoDup_seqZ.
  - intros j Hj%elem_of_seqZ. lia.
  - intros p Hin. split; [apply Hd; by right|]. by intros ->.
  - intros j Hj%elem_of_seqZ. apply Hkid. lia.
  - rewrite (bind_Ok _ _ _ _ _ Hs1).
    destruct (kfree_frame s1 l1 t) as (s2 & Hs2 & Hk2 & Hf2); auto.
    { rewrite Hl1. intros [Hin|Hin]%elem_of_app; [done|]. by apply (Hd t); [left|]. }
    exists s2. split; [done|]. exists (t :: l1). split_and!; auto.
    + by rewrite Hl1.
    + eapply frame_trans; [exact Hf1|]. eapply frame_weaken; [exact Hf2|]. intros p; in_list.
Qed.

(** ** The tree of a shape *)

(** The level-0 tables under entry [j] of the level-1 table of index [i]. *)
Definition kids0 (sh : shape) (i j : Z) : list Z :=
  match sh_l0 sh !! (512 * i + j) with Some q => [q] | None => [] end.

Definition kids1 (sh : shape) (i : Z) : list Z :=
  match sh_l1 sh !! i with Some p => p :: (seqZ 0 512 ≫= kids0 sh i) | None => [] end.

Lemma ftree_shape s l sh U :
  pt_inv s l sh U -> (forall k, U !! k = None) ->
  ftree 3 (m_mem s) (sh_root sh) (seqZ 0 512 ≫= kids1 sh).
Proof.
  intros [[_ [W1 W2 _ _] _ Hp _] Hu] Hemp. rewrite Forall_forall in Hp.
  exists (kids1 sh). split; [done|]. intros i Hi. specialize (W1 i Hi). unfold kids1.
  destruct (sh_l1 sh !! i) as [p|] eqn:E1; [right|by left].
  exists p, (seqZ 0 512 ≫= kids0 sh i). split_and!; auto; [apply Hp, elem_of_tables; eauto|].
  exists (kids0 sh i). split; [done|]. intros j Hj. specialize (W2 i p j E1 Hj). unfold kids0.
  destruct (sh_l0 sh !! (512 * i + j)) as [q|] eqn:E0; [right|by left].
  exists q, []. split_and!; auto; [apply Hp, elem_of_tables; eauto|].
  exists (fun _ => []). split.
  { by induction (seqZ 0 512). }
  intros k Hk. left. split; [|done]. specialize (Hemp (512 * (512 * i + j) + k)).
  rewrite Hu in Hemp. unfold entry, pte_of in Hemp.
  replace ((512 * (512 * i + j) + k) / 512) with (512 * i + j) in Hemp by zlia.
  replace ((512 * (512 * i + j) + k) mod 512) with k in Hemp by zlia.
  rewrite E0 in Hemp. by destruct (Z.testbit _ 0).
Qed.

Lemma elem_of_kids0 sh i j q : q ∈ kids0 sh i j <-> sh_l0 sh !! (512 * i + j) = Some q.
Proof.
  unfold kids0. destruct (sh_l0 sh !! _) as [x|].
  - rewrite list_elem_of_singleton. split; congruence.
  - rewrite elem_of_nil. split; [done|congruence].
Qed.

Lemma elem_of_kids1 sh i p :
  p ∈ kids1 sh i <-> exists t, sh_l1 sh !! i = Some t /\
    (p = t \/ exists j, 0 <= j < 512 /\ sh_l0 sh !! (512 * i + j) = Some p).
Proof.
  unfold kids1. destruct (sh_l1 sh !! i) as [t|].
  - rewrite elem_of_cons, list_elem_of_bind. setoid_rewrite elem_of_kids0.
    setoid_rewrite elem_of_seqZ. split.
    + intros [->|(j & Hj & Hr)]; exists t; split; auto. right. exists j. split; [lia|done].
    + intros (? & [= <-] & [->|(j & Hr & Hj)]); [by left|right]. exists j. split; [done|lia].
  - rewrite elem_of_nil. split; [done|]. by intros (? & ? & _).
Qed.

Lemma tree_pages s l sh :
  vm_inv s l sh -> sh_root sh :: (seqZ 0 512 ≫= kids1 sh) ≡ₚ tables sh.
Proof.
  intros Hv. destruct (vi_wf _ _ _ Hv) as [_ _ W3 W4]. pose proof (vi_nodup _ _ _ Hv) as Hnd.
  pose proof (tables_distinct sh Hnd) as (D1 & D2 & D3 & D4 & D5).
  apply NoDup_Permutation; [apply NoDup_cons; split|done|].
  - rewrite list_elem_of_bind. intros (i & (t & Ht & [Heq|(j & _ & Hj)])%elem_of_kids1 & _).
    + by apply (D1 _ _ Ht).
    + by apply (D2 _ _ Hj).
  - apply NoDup_bind; [| |apply NoDup_seqZ].
    + intros i i' p _ _ (t & Ht & [->|(j & Hj & Hp)])%elem_of_kids1
        (t' & Ht' & [Heq|(j' & Hj' & Hp')])%elem_of_kids1.
      * subst. eauto.
      * destruct (D3 _ _ _ _ Ht Hp'). done.
      * subst. destruct (D3 _ _ _ _ Ht' Hp). done.
      * pose proof (D5 _ _ _ Hp Hp'). lia.
    + intros i Hi%elem_of_seqZ. unfold kids1. destruct (sh_l1 sh !! i) as [t|] eqn:Et; [|constructor].
      apply NoDup_cons. rewrite list_elem_of_bind. setoid_rewrite elem_of_kids0. split.
      * intros (j & Hj & _). by apply (D3 _ _ _ _ Et Hj).
      * apply NoDup_bind; [| |apply NoDup_seqZ].
        -- intros j j' q _ _. rewrite !elem_of_kids0. intros Hq Hq'. pose proof (D5 _ _ _ Hq Hq'). lia.
        -- intros j _. unfold kids0. destruct (sh_l0 sh !! _); [apply NoDup_singleton|constructor].
  - intros p. rewrite elem_of_cons, elem_of_tables, list_elem_of_bind. split.
    + intros [->|(i & (t & Ht & [->|(j & _ & Hj)])%elem_of_kids1 & _)]; eauto.
    + intros [->|[(i & Hi)|(k & Hk)]]; [by left|right..].
      * exists i. split; [apply elem_of_kids1; eauto|]. apply elem_of_seqZ. apply W3 in Hi. lia.
      * destruct (W4 _ _ Hk) as [t Ht]. pose proof (W3 _ _ Ht). exists (k / 512). split.
        -- apply elem_of_kids1. exists t. split; [done|]. right. exists (k mod 512).
           split; [zlia|]. by replace (512 * (k / 512) + k mod 512) with k by zlia.
        -- apply elem_of_seqZ. lia.
Qed.

(** freewalk on a page table without mappings. *)
Lemma freewalk_empty s l sh U :
  pt_inv s l sh U -> (forall k, U !! k = None) ->
  exists s', freewalk 3 (sh_root sh) s = Ok tt s' /\ freed s l (tables sh) (tables sh) s'.
Proof.
  intros Hi Hemp. pose proof (tree_pages _ _ _ (pi_vm _ _ _ _ Hi)) as Hperm.
  destruct (freewalk_spec 3 s l (sh_root sh) (seqZ 0 512 ≫= kids1 sh)) as (s' & Hs & l' & Hk & Hl & Hf).
  - apply Hi.
  - rewrite Hperm. apply Hi.
  - rewrite Hperm. apply Hi.
  - intros p. rewrite Hperm. apply Hi.
  - by eapply ftree_shape.
  - exists s'. split; [done|]. exists l'. split_and!; auto; [by rewrite Hl, Hperm|].
    eapply frame_weaken; [exact Hf|]. intros p. by rewrite Hperm.
Qed.

Lemma uvmfree_spec s l sh U F sz :
  uspace s l sh U F -> (forall k, NUSER <= k -> U !! k = None) ->
  length F = npg sz -> 0 <= sz <= TRAPFRAME ->
  exists s', uvmfree (sh_root sh) sz s = Ok tt s' /\
    freed s l (F ++ tables sh) (F ++ tables sh) s'.
Proof.
  intros Hu Hhi Hlen Hsz. unfold uvmfree.
  assert (exists s1,
    (if 0 <? sz then uvmunmap (sh_root sh) 0 (PGROUNDUP sz / PGSIZE) 1 else skip) s = Ok tt s1 /\
    uspace s1 (rev F ++ l) sh (unmap_range (length F) 0 U) [] /\ frame s s1 (F ++ tables sh))
    as (s1 & Hs1 & Hu1 & Hf1).
  { destruct (Z.ltb_spec 0 sz).
    - destruct (uvmunmap_tail s l sh U F 0 Hu ltac:(lia)) as (s1 & Hs1 & Hu1 & Hf1).
      rewrite Nat.sub_0_r, drop_0, take_0, Z.mul_0_r in *. exists s1. split_and!; auto.
      rewrite PGROUNDUP_npg, <- Hlen by klia.
      by replace (PGSIZE * Z.of_nat (length F) / PGSIZE) with (Z.of_nat (length F)) by klia.
    - assert (sz = 0) as -> by lia. destruct F; [|done].
      exists s. split_and!; [done..|apply frame_refl]. }
  rewrite (bind_Ok _ _ _ _ _ Hs1).
  destruct (freewalk_empty s1 _ sh _ (us_pt _ _ _ _ _ Hu1)) as (s2 & Hs2 & l2 & Hk2 & Hl2 & Hf2).
  { intros k. rewrite lookup_unmap_range. destruct (decide _) as [|Hk]; [done|].
    destruct (Z.lt_ge_cases k 0).
    - destruct (U !! k) eqn:E; [|done]. apply (mapped_range _ _ _ _ _ _ (us_pt _ _ _ _ _ Hu)) in E. lia.
    - destruct (Z.lt_ge_cases k NUSER); [|auto]. apply (us_gap _ _ _ _ _ Hu). lia. }
  exists s2. split; [done|]. exists l2. split_and!; auto.
  - rewrite Hl2, <- Permutation_rev, app_assoc, (Permutation_app_comm (tables sh)). done.
  - eapply frame_trans; [exact Hf1|]. eapply frame_weaken; [exact Hf2|]. intros p.
    rewrite elem_of_app. tauto.
Qed.

End UserFree.
