(* ===== verification/UserCopy.v ===== *)
(** * walkaddr, copyin, copyout and copyinstr against the user's view of memory

    [uread m U va] is the byte a user program finds at [va]: the entry of its
    page must be valid and carry PTE_U.  The copies move bytes between that
    view and kernel memory, up to the first page the user cannot access. *)

From S2P Require Import Prelude CString Layout Spinlock Kalloc Vm VmSpec AddrSpace UserMem.

(** The frame of user page [k], if the user can access it. *)
Definition upage (U : gmap Z Z) (k : Z) : option Z :=
  if MAXVA / PGSIZE <=? k then None else
  match U !! k with
  | Some v => if Z.testbit v 4 then Some (PTE2PA v) else None
  | None => None
  end.

Definition uread (m : mem) (U : gmap Z Z) (va : Z) : option Z :=
  (fun pa => rd m (pa + va mod PGSIZE)) <$> upage U (va / PGSIZE).

(** Nothing above the user pages is accessible to the user. *)
Definition high_ok (U : gmap Z Z) : Prop := forall k, NUSER <= k -> upage U k = None.

(** The buffer [a, a + n) shares no page with [ps]. *)
Definition apart (a n : Z) (ps : list Z) : Prop :=
  forall i p, 0 <= i < n -> p ∈ ps -> ~ in_page p (a + i).

Section UserCopy.
Context `{HI : KernelImage}.
Context `{HOk : !ImageOk}.

Lemma walkaddr_spec s l sh U va :
  pt_inv s l sh U -> 0 <= va ->
  walkaddr (sh_root sh) va s = Ok (default 0 (upage U (va / PGSIZE))) s.
Proof.
  intros Hi Hva. unfold walkaddr, upage. destruct (Z.leb_spec MAXVA va) as [Hge|Hlt].
  { destruct (Z.leb_spec (MAXVA / PGSIZE) (va / PGSIZE)); [done|klia]. }
  destruct (Z.leb_spec (MAXVA / PGSIZE) (va / PGSIZE)); [klia|].
  rewrite (bind_Ok _ _ _ _ _ (walk_lookup _ _ _ _ (pi_vm _ _ _ _ Hi) (conj Hva Hlt))).
  change (va / PGSIZE) with (va / 4096).
  destruct (sh_l0 sh !! (va / 4096 / 512)) as [q|] eqn:Eq.
  - destruct (leaf_addr_some s l sh _ q (pi_vm _ _ _ _ Hi) Eq) as [Hnz Hrd].
    destruct (Z.eqb_spec (leaf_addr sh (va / 4096)) 0); [done|].
    unfold load64. mstep. rewrite Hrd, truthy_V, truthy_U, (pi_map _ _ _ _ Hi). unfold entry.
    destruct (Z.testbit _ 0); [|done]. by destruct (Z.testbit _ 4).
  - unfold leaf_addr. rewrite Eq, (pi_map _ _ _ _ Hi). unfold entry, pte_of. by rewrite Eq.
Qed.

(** User pages are the frames [F], without aliasing. *)
Lemma upage_frame s l sh U F k p :
  uspace s l sh U F -> high_ok U -> upage U k = Some p ->
  0 <= k < Z.of_nat (length F) /\ F !! Z.to_nat k = Some p.
Proof.
  intros Hu Hh Hp. pose proof Hp as Hp'. unfold upage in Hp.
  destruct (_ <=? _); [done|]. destruct (U !! k) as [v|] eqn:Ev; [|done].
  pose proof (mapped_range _ _ _ _ _ _ (us_pt _ _ _ _ _ Hu) Ev) as Hr.
  destruct (Z.testbit v 4); [|done]. injection Hp as Hp.
  assert (k < Z.of_nat (length F)) as Hlt.
  { destruct (Z.lt_ge_cases k (Z.of_nat (length F))); [done|exfalso].
    destruct (Z.lt_ge_cases k NUSER).
    - rewrite (us_gap _ _ _ _ _ Hu) in Ev; [done|lia].
    - rewrite Hh in Hp'; done. }
  split; [lia|]. destruct (lookup_lt_is_Some_2 F (Z.to_nat k)) as [q Hq]; [lia|].
  destruct (us_frames _ _ _ _ _ Hu _ _ Hq) as (v' & Hv' & Hq' & _).
  rewrite Z2Nat.id, Z.add_0_l in Hv' by lia. congruence.
Qed.

Lemma upage_inj s l sh U F k k' p :
  uspace s l sh U F -> high_ok U -> upage U k = Some p -> upage U k' = Some p -> k = k'.
Proof.
  intros Hu Hh Hk Hk'. destruct (upage_frame _ _ _ _ _ _ _ Hu Hh Hk) as [Hr Hl].
  destruct (upage_frame _ _ _ _ _ _ _ Hu Hh Hk') as [Hr' Hl'].
  pose proof (NoDup_lookup _ _ _ _ (us_nodup _ _ _ _ _ Hu) Hl Hl'). lia.
Qed.

Lemma upage_ok s l sh U F k p :
  uspace s l sh U F -> high_ok U -> upage U k = Some p ->
  p ∈ F /\ page_ok p /\ (p ∉ l) /\ (p ∉ tables sh).
Proof.
  intros Hu Hh Hk. destruct (upage_frame _ _ _ _ _ _ _ Hu Hh Hk) as [Hr Hl].
  apply list_elem_of_lookup_2 in Hl. split; [done|]. destruct (us_disj _ _ _ _ _ Hu p Hl).
  split_and!; auto. eapply Forall_forall; [apply (us_pages _ _ _ _ _ Hu)|done].
Qed.

Lemma in_page_off p a : p mod PGSIZE = 0 -> in_page p a <-> p = a - a mod PGSIZE.
Proof. intros Hp. unfold in_page. klia. Qed.

(** Two user bytes at the same physical address are the same byte. *)
Lemma uaddr_inj s l sh U F va va' p p' :
  uspace s l sh U F -> high_ok U ->
  upage U (va / PGSIZE) = Some p -> upage U (va' / PGSIZE) = Some p' ->
  p + va mod PGSIZE = p' + va' mod PGSIZE -> va = va'.
Proof.
  intros Hu Hh Hp Hp' Heq.
  destruct (upage_ok _ _ _ _ _ _ _ Hu Hh Hp) as (_ & [Ha _] & _).
  destruct (upage_ok _ _ _ _ _ _ _ Hu Hh Hp') as (_ & [Ha' _] & _).
  assert (p = p') as <- by klia.
  pose proof (upage_inj _ _ _ _ _ _ _ _ Hu Hh Hp Hp'). klia.
Qed.

(** Overwriting [n] bytes of one user page, as the user sees it. *)
Lemma uread_move s l sh U F va src n p :
  uspace s l sh U F -> high_ok U -> upage U (va / PGSIZE) = Some p ->
  0 <= n -> va mod PGSIZE + n <= PGSIZE ->
  let m' := memmove (m_mem s) (p + va mod PGSIZE) src n in
  forall va', uread m' U va' =
    if (va <=? va') && (va' <? va + n) then Some (rd (m_mem s) (src + (va' - va)))
    else uread (m_mem s) U va'.
Proof.
  intros Hu Hh Hp Hn Hb m' va'. unfold uread, m'.
  destruct (Z.leb_spec va va'), (Z.ltb_spec va' (va + n)); cbn [andb].
  { assert (va' / PGSIZE = va / PGSIZE) as -> by klia. rewrite Hp. cbn. f_equal.
    rewrite rd_memmove by klia.
    destruct (Z.leb_spec (p + va mod PGSIZE) (p + va' mod PGSIZE)); [|klia].
    destruct (Z.ltb_spec (p + va' mod PGSIZE) (p + va mod PGSIZE + n)); [|klia].
    cbn [andb]. f_equal. klia. }
  all: destruct (upage U (va' / PGSIZE)) as [p'|] eqn:E; [|done]; cbn; f_equal;
    apply memmove_only_range; [klia|].
  all: destruct (Z.lt_ge_cases (p' + va' mod PGSIZE) (p + va mod PGSIZE)) as [|H1]; [by left|].
  all: destruct (Z.lt_ge_cases (p' + va' mod PGSIZE) (p + va mod PGSIZE + n)) as [H2|]; [exfalso|by right].
  all: destruct (upage_ok _ _ _ _ _ _ _ Hu Hh Hp) as (_ & [Ha _] & _).
  all: destruct (upage_ok _ _ _ _ _ _ _ Hu Hh E) as (_ & [Ha' _] & _).
  all: assert (p' = p) as -> by klia; pose proof (upage_inj _ _ _ _ _ _ _ _ Hu Hh Hp E); klia.
Qed.

(** The result of a copy of [len] bytes: all of them, or those before the first
    byte the user cannot access. *)
Definition copy_res (m : mem) (U : gmap Z Z) (va len r k : Z) : Prop :=
  (r = 0 /\ k = len) \/ (r = -1 /\ 0 <= k < len /\ uread m U (va + k) = None).

Lemma uread_none m U va : uread m U va = None <-> upage U (va / PGSIZE) = None.
Proof. unfold uread. by rewrite fmap_None. Qed.

(** Steps common to the three copies. *)
Lemma copy_chunk va len n :
  0 <= va -> 0 < len ->
  n = (if len <? PGSIZE - (va - PGROUNDDOWN va) then len else PGSIZE - (va - PGROUNDDOWN va)) ->
  PGROUNDDOWN va / PGSIZE = va / PGSIZE /\ va - PGROUNDDOWN va = va mod PGSIZE /\
  PGROUNDDOWN va = va - va mod PGSIZE /\
  0 < n <= len /\ va mod PGSIZE + n <= PGSIZE /\
  (n < len -> PGROUNDDOWN va + PGSIZE = va + n).
Proof.
  intros Hva Hlen ->. rewrite PGROUNDDOWN_eq by lia.
  destruct (Z.ltb_spec len (PGSIZE - (va - (va - va mod PGSIZE)))); klia.
Qed.

Lemma copy_res_step m m' U va len n va' r k :
  copy_res m' U va' (len - n) r k -> 0 < n <= len -> (n < len -> va' = va + n) ->
  copy_res m U va len r (n + k).
Proof.
  intros [[-> ->]|(-> & Hk & Hr)] Hn Hv; [left; split; lia|right]. split_and!; [done|lia|lia|].
  rewrite uread_none in *. rewrite Hv in Hr by lia. by rewrite Z.add_assoc.
Qed.

(** Two consecutive chunks are one. *)
Lemma copy_splice m m' (o : option Z) U va len n va1 r k src x :
  copy_res m' U va1 (len - n) r k -> 0 < n <= len -> (n < len -> va1 = va + n) ->
  (forall i, n <= i < len -> rd m' (src + i) = rd m (src + i)) ->
  (if (va1 <=? x) && (x <? va1 + k) then Some (rd m' (src + n + (x - va1)))
   else if (va <=? x) && (x <? va + n) then Some (rd m (src + (x - va))) else o) =
  (if (va <=? x) && (x <? va + (n + k)) then Some (rd m (src + (x - va))) else o).
Proof.
  intros Hres Hn Hv Hsrc.
  assert (0 <= k <= len - n) as Hk by (destruct Hres as [[_ ->]|(_ & ? & _)]; lia).
  destruct (decide (n < len)) as [Hlt|Hge].
  - rewrite (Hv Hlt). destruct (Z.leb_spec (va + n) x), (Z.ltb_spec x (va + n + k)),
      (Z.leb_spec va x), (Z.ltb_spec x (va + n)), (Z.ltb_spec x (va + (n + k)));
      cbn [andb]; try lia; try done.
    f_equal. replace (src + n + (x - (va + n))) with (src + (x - va)) by lia. apply Hsrc. lia.
  - assert (k = 0) as -> by lia. rewrite !Z.add_0_r.
    destruct (Z.leb_spec va1 x), (Z.ltb_spec x va1); cbn [andb]; done || lia.
Qed.

Lemma upage_bound U k p : upage U k = Some p -> k < MAXVA / PGSIZE.
Proof. unfold upage. destruct (Z.leb_spec (MAXVA / PGSIZE) k); [done|lia]. Qed.

Lemma copyout_loop_spec fuel s l sh U F va src len :
  uspace s l sh U F -> high_ok U -> 0 <= va -> 0 <= len -> apart src len F ->
  (0 < fuel)%nat -> va mod PGSIZE + len <= PGSIZE * (Z.of_nat fuel - 1) ->
  exists r s' k,
    copyout_loop fuel (sh_root sh) va src len s = Ok r s' /\
    uspace s' l sh U F /\ frame s s' F /\ copy_res (m_mem s) U va len r k /\
    forall va', uread (m_mem s') U va' =
      if (va <=? va') && (va' <? va + k) then Some (rd (m_mem s) (src + (va' - va)))
      else uread (m_mem s) U va'.
Proof.
  revert s va src len. induction fuel as [|fuel IH]; intros s va src len Hu Hh Hva Hlen Hap Hf0 Hf; [lia|].
  cbn [copyout_loop]. cbv zeta. destruct (Z.ltb_spec 0 len) as [Hl|Hl]; cbn [negb].
  2:{ assert (len = 0) as -> by lia. exists 0, s, 0. split_and!; [done..|apply frame_refl|by left|].
      intros va'. destruct (Z.leb_spec va va'), (Z.ltb_spec va' (va + 0)); done || lia. }
  set (n := if len <? PGSIZE - (va - PGROUNDDOWN va) then len else PGSIZE - (va - PGROUNDDOWN va)).
  destruct (copy_chunk va len n Hva Hl eq_refl) as (Hq & Ho & H0 & Hn & Hnb & Hnext).
  clearbody n.
  rewrite (bind_Ok _ _ _ _ _ (walkaddr_spec _ _ _ _ (PGROUNDDOWN va) (us_pt _ _ _ _ _ Hu) ltac:(rewrite H0; klia))).
  rewrite Hq. destruct (upage U (va / PGSIZE)) as [p|] eqn:Ep; cbn [default from_option id].
  2:{ exists (-1), s, 0. split_and!; [done..|apply frame_refl| |].
      - right. split_and!; [done|lia|lia|]. apply uread_none. by rewrite Z.add_0_r.
      - intros va'. destruct (Z.leb_spec va va'), (Z.ltb_spec va' (va + 0)); done || lia. }
  destruct (upage_ok _ _ _ _ _ _ _ Hu Hh Ep) as (HpF & Hpo & Hpl & Hpt).
  pose proof (upage_bound _ _ _ Ep) as Hb.
  destruct (Z.eqb_spec p 0) as [->|_]; [by apply page_ok_nz in Hpo|].
  rewrite Ho. unfold kmemmove. mstep. set (m1 := memmove (m_mem s) (p + va mod PGSIZE) src n).
  assert (only_pages (m_mem s) [p] m1) as Hm1.
  { eapply only_pages_range; [apply memmove_only_range; klia|klia|lia]. }
  destruct (uspace_write s l sh U F p m1 Hu Hpo Hpl Hpt Hm1) as [Hu1 Hf1].
  pose proof (uread_move s l sh U F va src n p Hu Hh Ep ltac:(lia) Hnb) as Hr1. fold m1 in Hr1. cbn zeta in Hr1.
  fold m1. rewrite u64_small by klia.
  (* the rest of the source is not in the page just written *)
  assert (forall i, n <= i < len -> rd m1 (src + i) = rd (m_mem s) (src + i)) as Hsrc.
  { intros i Hi. apply Hm1. intros q ->%list_elem_of_singleton. apply Hap; [lia|done]. }
  destruct (IH (set_mem m1 s) (PGROUNDDOWN va + PGSIZE) (src + n) (len - n))
    as (r & s' & k & Hs' & Hu' & Hf' & Hres & Hrd); auto; try (rewrite H0; klia); try klia.
  { intros i q Hi Hqf. rewrite <- Z.add_assoc. apply Hap; [lia|done]. }
  cbn [m_mem set_mem] in Hres, Hrd. exists r, s', (n + k). split_and!; auto.
  - eapply frame_trans; [|exact Hf']. eapply frame_weaken; [exact Hf1|].
    by intros q ->%list_elem_of_singleton.
  - by apply (copy_res_step (m_mem s) m1 _ _ _ _ (PGROUNDDOWN va + PGSIZE)).
  - intros va'. rewrite Hrd, Hr1. by eapply copy_splice.
Qed.


Lemma copyout_spec s l sh U F va src len :
  uspace s l sh U F -> high_ok U -> 0 <= va -> 0 <= len -> apart src len F ->
  exists r s' k,
    copyout (sh_root sh) va src len s = Ok r s' /\
    uspace s' l sh U F /\ frame s s' F /\ copy_res (m_mem s) U va len r k /\
    forall va', uread (m_mem s') U va' =
      if (va <=? va') && (va' <? va + k) then Some (rd (m_mem s) (src + (va' - va)))
      else uread (m_mem s) U va'.
Proof. intros. apply copyout_loop_spec; auto; klia. Qed.

(** ** Copies into kernel memory *)

(** The pages a buffer touches. *)
Definition buf_pages (a n : Z) : list Z :=
  (fun i => (a + i) - (a + i) mod PGSIZE) <$> seqZ 0 n.

Lemma elem_of_buf_pages a n p :
  p ∈ buf_pages a n <-> exists i, 0 <= i < n /\ p = (a + i) - (a + i) mod PGSIZE.
Proof.
  unfold buf_pages. rewrite list_elem_of_fmap. setoid_rewrite elem_of_seqZ. split.
  - intros (i & -> & Hi). exists i. split; [lia|done].
  - intros (i & Hi & ->). exists i. split; [done|lia].
Qed.

(** Writing a kernel buffer that is neither free nor a table nor user memory. *)
Lemma uspace_kbuf s l sh U F a n m' :
  uspace s l sh U F -> only_range (m_mem s) a n m' -> apart a n (l ++ tables sh) ->
  uspace (set_mem m' s) l sh U F.
Proof.
  intros Hu Hm Hap.
  assert (forall p, p ∈ l ++ tables sh -> p ∉ buf_pages a n) as Hd.
  { intros p Hp (i & Hi & Heq)%elem_of_buf_pages. apply (Hap i p Hi Hp).
    unfold in_page. klia. }
  assert (Forall (fun q => q mod PGSIZE = 0) (buf_pages a n)) as Ha.
  { apply Forall_forall. intros p (i & _ & ->)%elem_of_buf_pages. klia. }
  assert (only_pages (m_mem s) (buf_pages a n) m') as Ho.
  { intros b Hb. apply Hm. destruct (Z.lt_ge_cases b a); [by left|].
    destruct (Z.lt_ge_cases b (a + n)); [exfalso|by right].
    apply (Hb (b - b mod PGSIZE)); [|unfold in_page; klia].
    apply elem_of_buf_pages. exists (b - a). split; [lia|]. by replace (a + (b - a)) with b by lia. }
  eapply uspace_pt; [exact Hu| |apply (us_disj _ _ _ _ _ Hu)].
  eapply pt_inv_frame; [apply (us_pt _ _ _ _ _ Hu)| |exact Ho|exact Ha|].
  - eapply kmem_inv_mem; [apply (us_pt _ _ _ _ _ Hu)|exact Ho|exact Ha|].
    intros p Hp. apply Hd. in_list.
  - intros p Hp. split; [apply Hd; in_list|]. by apply (vi_disj _ _ _ (pi_vm _ _ _ _ (us_pt _ _ _ _ _ Hu))).
Qed.

(** User memory is unaffected by writes to such a buffer. *)
Lemma uread_kbuf s l sh U F a n m' va :
  uspace s l sh U F -> high_ok U -> only_range (m_mem s) a n m' -> apart a n F ->
  uread m' U va = uread (m_mem s) U va.
Proof.
  intros Hu Hh Hm Hap. unfold uread. destruct (upage U (va / PGSIZE)) as [p|] eqn:E; [|done].
  cbn. f_equal. destruct (upage_ok _ _ _ _ _ _ _ Hu Hh E) as (HpF & _).
  apply Hm. destruct (Z.lt_ge_cases (p + va mod PGSIZE) a); [by left|].
  destruct (Z.lt_ge_cases (p + va mod PGSIZE) (a + n)); [exfalso|by right].
  apply (Hap (p + va mod PGSIZE - a) p); [lia|done|]. unfold in_page. klia.
Qed.

Lemma apart_sub a n ps b k qs :
  apart a n ps -> a <= b -> b + k <= a + n -> (forall p, p ∈ qs -> p ∈ ps) -> apart b k qs.
Proof.
  intros H Hb Hk Hs i p Hi Hp. replace (b + i) with (a + (b - a + i)) by lia. apply H; [lia|auto].
Qed.

Lemma only_range_sub m a n m' b k :
  only_range m a n m' -> b <= a -> a + n <= b + k -> only_range m b k m'.
Proof. intros H Hb Hk x Hx. apply H. lia. Qed.

Lemma only_range_compose m a n m' b k m'' :
  only_range m a n m' -> only_range m' b k m'' -> 0 <= n -> 0 <= k -> (k = 0 \/ b = a + n) ->
  only_range m a (n + k) m''.
Proof.
  intros H1 H2 Hn Hk Hb x Hx. rewrite H2, H1 by lia. done.
Qed.

Lemma copyin_loop_spec fuel s l sh U F dst va len :
  uspace s l sh U F -> high_ok U -> 0 <= va -> 0 <= len -> apart dst len (l ++ tables sh ++ F) ->
  (0 < fuel)%nat -> va mod PGSIZE + len <= PGSIZE * (Z.of_nat fuel - 1) ->
  exists r s' k,
    copyin_loop fuel (sh_root sh) dst va len s = Ok r s' /\ 0 <= k <= len /\
    uspace s' l sh U F /\ only_range (m_mem s) dst k (m_mem s') /\ copy_res (m_mem s) U va len r k /\
    forall i, 0 <= i < k -> uread (m_mem s) U (va + i) = Some (rd (m_mem s') (dst + i)).
Proof.
  revert s dst va len. induction fuel as [|fuel IH]; intros s dst va len Hu Hh Hva Hlen Hap Hf0 Hf; [lia|].
  cbn [copyin_loop]. cbv zeta. destruct (Z.ltb_spec 0 len) as [Hl|Hl]; cbn [negb].
  2:{ assert (len = 0) as -> by lia. exists 0, s, 0.
      split_and!; [done..|by left|]. intros; lia. }
  set (n := if len <? PGSIZE - (va - PGROUNDDOWN va) then len else PGSIZE - (va - PGROUNDDOWN va)).
  destruct (copy_chunk va len n Hva Hl eq_refl) as (Hq & Ho & H0 & Hn & Hnb & Hnext).
  clearbody n.
  rewrite (bind_Ok _ _ _ _ _ (walkaddr_spec _ _ _ _ (PGROUNDDOWN va) (us_pt _ _ _ _ _ Hu) ltac:(rewrite H0; klia))).
  rewrite Hq. destruct (upage U (va / PGSIZE)) as [p|] eqn:Ep; cbn [default from_option id].
  2:{ exists (-1), s, 0. split_and!; [done|lia|lia|done|done| |].
      - right. split_and!; [done|lia|lia|]. apply uread_none. by rewrite Z.add_0_r.
      - intros; lia. }
  destruct (upage_ok _ _ _ _ _ _ _ Hu Hh Ep) as (HpF & Hpo & Hpl & Hpt).
  pose proof (upage_bound _ _ _ Ep) as Hb.
  destruct (Z.eqb_spec p 0) as [->|_]; [by apply page_ok_nz in Hpo|].
  rewrite Ho. unfold kmemmove. mstep. set (m1 := memmove (m_mem s) dst (p + va mod PGSIZE) n).
  assert (only_range (m_mem s) dst n m1) as Hm1 by (apply memmove_only_range; klia).
  assert (uspace (set_mem m1 s) l sh U F) as Hu1.
  { eapply uspace_kbuf; [exact Hu|exact Hm1|]. eapply apart_sub; [exact Hap|lia|lia|]. intros q; in_list. }
  assert (forall x, uread m1 U x = uread (m_mem s) U x) as Hr1.
  { intros x. eapply uread_kbuf; [exact Hu|exact Hh|exact Hm1|].
    eapply apart_sub; [exact Hap|lia|lia|]. intros q; in_list. }
  fold m1. rewrite u64_small by klia.
  destruct (IH (set_mem m1 s) (dst + n) (PGROUNDDOWN va + PGSIZE) (len - n))
    as (r & s' & k & Hs' & Hk & Hu' & Hf' & Hres & Hrd); auto; try (rewrite H0; klia); try klia.
  { eapply apart_sub; [exact Hap|lia|lia|auto]. }
  cbn [m_mem set_mem] in Hres, Hrd, Hf'. exists r, s', (n + k). split_and!; auto; try lia.
  - eapply only_range_compose; [exact Hm1|exact Hf'|lia..].
  - by apply (copy_res_step (m_mem s) m1 _ _ _ _ (PGROUNDDOWN va + PGSIZE)).
  - intros i Hi. destruct (Z.lt_ge_cases i n) as [Hin|Hin].
    + rewrite Hf' by lia. unfold uread, m1. rewrite rd_memmove by klia.
      assert ((va + i) / PGSIZE = va / PGSIZE) as -> by klia. rewrite Ep. cbn. f_equal.
      destruct (Z.leb_spec dst (dst + i)), (Z.ltb_spec (dst + i) (dst + n)); cbn [andb]; try lia.
      f_equal. klia.
    + specialize (Hrd (i - n) ltac:(lia)). rewrite Hnext, Hr1 in Hrd by lia.
      replace (va + n + (i - n)) with (va + i) in Hrd by lia. rewrite Hrd. do 2 f_equal. lia.
Qed.

Lemma copyin_spec s l sh U F dst va len :
  uspace s l sh U F -> high_ok U -> 0 <= va -> 0 <= len -> apart dst len (l ++ tables sh ++ F) ->
  exists r s' k,
    copyin (sh_root sh) dst va len s = Ok r s' /\ 0 <= k <= len /\
    uspace s' l sh U F /\ only_range (m_mem s) dst k (m_mem s') /\ copy_res (m_mem s) U va len r k /\
    forall i, 0 <= i < k -> uread (m_mem s) U (va + i) = Some (rd (m_mem s') (dst + i)).
Proof. intros. apply copyin_loop_spec; auto; klia. Qed.

(** ** Strings *)

(** The [k] bytes at [a] end with the first nul ([b]) or contain none. *)
Definition scanned (m : mem) (a : Z) (b : bool) (k : Z) : Prop :=
  (forall i, 0 <= i < (if b then k - 1 else k) -> rd m (a + i) <> 0) /\
  (b = true -> 0 < k /\ rd m (a + (k - 1)) = 0).

Lemma scanned_cons m a b k : rd m a <> 0 -> 0 <= k -> scanned m (a + 1) b k -> scanned m a b (k + 1).
Proof.
  intros H0 Hk [H1 H2]. split.
  - intros i Hi. destruct (decide (i = 0)) as [->|]; [by rewrite Z.add_0_r|].
    specialize (H1 (i - 1)). replace (a + 1 + (i - 1)) with (a + i) in H1 by lia.
    apply H1. destruct b; lia.
  - intros Hb. destruct (H2 Hb) as [Hk0 Hz]. split; [lia|].
    by replace (a + (k + 1 - 1)) with (a + 1 + (k - 1)) by lia.
Qed.

Lemma copyinstr_page_spec n p dst s :
  (dst + Z.of_nat n <= p \/ p + Z.of_nat n <= dst) ->
  exists (b : bool) k m',
    copyinstr_page n p dst s = Ok (b, if b then dst + k - 1 else dst + k) (set_mem m' s) /\
    0 <= k <= Z.of_nat n /\ (b = false -> k = Z.of_nat n) /\ only_range (m_mem s) dst k m' /\
    (forall i, 0 <= i < k -> rd m' (dst + i) = rd (m_mem s) (p + i)) /\ scanned (m_mem s) p b k.
Proof.
  revert p dst s. induction n as [|n IH]; intros p dst s Hdis; cbn [copyinstr_page].
  { exists false, 0, (m_mem s). split_and!; try done; try lia.
    - rewrite Z.add_0_r. by destruct s.
    - split; [lia|done]. }
  mstep. destruct (Z.eqb_spec (rd (m_mem s) p) 0) as [Hz|Hnz]; mstep.
  - exists true, 1, (wr (m_mem s) dst 0). split_and!; try done; try lia.
    + unfold ret. do 2 f_equal. lia.
    + apply wr_only_range.
    + intros i Hi. replace i with 0 by lia. rewrite !Z.add_0_r, rd_wr, Z.eqb_refl. by rewrite Hz.
    + split; [lia|]. intros _. split; [lia|]. by replace (p + (1 - 1)) with p by lia.
  - set (m1 := wr (m_mem s) dst (rd (m_mem s) p)).
    assert (forall x, x <> dst -> rd m1 x = rd (m_mem s) x) as Hm1.
    { intros x Hx. apply wr_only_range. lia. }
    destruct (IH (p + 1) (dst + 1) (set_mem m1 s)) as (b & k & m' & Hr & Hk & Hkn & Ho & Hb & Hsc); [lia|].
    cbn [m_mem set_mem] in *. exists b, (k + 1), m'. split_and!; try lia.
    + rewrite Hr. unfold set_mem. cbn. do 2 f_equal. destruct b; lia.
    + intros Hbf. rewrite Hkn by done. lia.
    + intros x Hx. rewrite Ho by lia. apply Hm1. lia.
    + intros i Hi. destruct (decide (i = 0)) as [->|].
      * rewrite !Z.add_0_r, Ho by lia. unfold m1. rewrite rd_wr, Z.eqb_refl. apply u8_small, rd_range.
      * specialize (Hb (i - 1) ltac:(lia)). replace (dst + 1 + (i - 1)) with (dst + i) in Hb by lia.
        rewrite Hb. replace (p + 1 + (i - 1)) with (p + i) by lia. apply Hm1. lia.
    + apply scanned_cons; [done|lia|]. destruct Hsc as [Hs1 Hs2]. split.
      * intros i Hi Heq. apply (Hs1 i Hi). rewrite Hm1; [done|destruct b; lia].
      * intros Hbt. destruct (Hs2 Hbt) as [? Hz]. split; [done|]. rewrite <- Hz. symmetry. apply Hm1. lia.
Qed.

(** The result of copyinstr with [k] bytes copied: 0 when the last of them is
    the first nul; -1 when none is nul and either [max] is reached or the next
    byte is not accessible. *)
Definition str_res (m m' : mem) (U : gmap Z Z) (dst va max r k : Z) : Prop :=
  (r = 0 /\ scanned m' dst true k) \/
  (r = -1 /\ scanned m' dst false k /\ (k = max \/ uread m U (va + k) = None)).

Lemma apart_page dst n p o k :
  apart dst n [p] -> 0 < k <= n -> 0 <= o -> o + k <= PGSIZE ->
  dst + k <= p + o \/ p + o + k <= dst.
Proof.
  intros Hap Hk Ho Hok. unfold apart, in_page in Hap.
  pose proof (Hap 0 p ltac:(lia) ltac:(by left)). pose proof (Hap (p - dst) p).
  destruct (Z.lt_ge_cases dst p); [|lia]. left.
  destruct (Z.lt_ge_cases (p - dst) n); [|lia].
  exfalso. apply H0; [lia|by left|]. consts. lia.
Qed.

Lemma scanned_app m a n b k :
  scanned m a false n -> scanned m (a + n) b k -> 0 <= n -> scanned m a b (n + k).
Proof.
  intros [H1 _] [H2 H3] Hn. split.
  - intros i Hi. destruct (Z.lt_ge_cases i n); [apply H1; lia|].
    specialize (H2 (i - n)). replace (a + n + (i - n)) with (a + i) in H2 by lia.
    apply H2. destruct b; lia.
  - intros Hb. destruct (H3 Hb) as [Hk Hz]. split; [lia|].
    by replace (a + (n + k - 1)) with (a + n + (k - 1)) by lia.
Qed.

Lemma scanned_ext m m' a a' b k :
  scanned m a b k -> (forall i, 0 <= i < k -> rd m' (a' + i) = rd m (a + i)) -> scanned m' a' b k.
Proof.
  intros [H1 H2] He. split.
  - intros i Hi. rewrite He by (destruct b; lia). by apply H1.
  - intros Hb. destruct (H2 Hb) as [Hk Hz]. split; [done|]. by rewrite He by lia.
Qed.

Lemma str_res_step m m1 m' U dst va max n va' r k :
  scanned m' dst false n -> str_res m1 m' U (dst + n) va' (max - n) r k -> 0 <= k ->
  0 < n <= max -> k <= max - n -> (n < max -> va' = va + n) ->
  str_res m m' U dst va max r (n + k).
Proof.
  intros Hsc Hres Hk Hn Hkm Hnext. destruct Hres as [[-> Hs]|(-> & Hs & Hend)]; [left|right].
  - split; [done|]. apply scanned_app; auto. lia.
  - split_and!; [done|apply scanned_app; auto; lia|].
    destruct Hend as [->|Hnone]; [left; lia|].
    destruct (Z.lt_ge_cases n max); [right|left; lia]. rewrite uread_none in *.
    rewrite Hnext in Hnone by done. by rewrite Z.add_assoc.
Qed.

Lemma copyinstr_loop_spec fuel s l sh U F dst va max :
  uspace s l sh U F -> high_ok U -> 0 <= va -> 0 <= max -> apart dst max (l ++ tables sh ++ F) ->
  (0 < fuel)%nat -> va mod PGSIZE + max <= PGSIZE * (Z.of_nat fuel - 1) ->
  exists r s' k,
    copyinstr_loop fuel (sh_root sh) dst va max s = Ok r s' /\ 0 <= k <= max /\
    uspace s' l sh U F /\ only_range (m_mem s) dst k (m_mem s') /\
    (forall i, 0 <= i < k -> uread (m_mem s) U (va + i) = Some (rd (m_mem s') (dst + i))) /\
    str_res (m_mem s) (m_mem s') U dst va max r k.
Proof.
  revert s dst va max. induction fuel as [|fuel IH]; intros s dst va max Hu Hh Hva Hmax Hap Hf0 Hf; [lia|].
  cbn [copyinstr_loop]. cbv zeta. destruct (Z.ltb_spec 0 max) as [Hl|Hl]; cbn [negb].
  2:{ assert (max = 0) as -> by lia. exists (-1), s, 0. split_and!; try done; try lia.
      right. split_and!; [done|split; [lia|done]|by left]. }
  set (n := if max <? PGSIZE - (va - PGROUNDDOWN va) then max else PGSIZE - (va - PGROUNDDOWN va)).
  destruct (copy_chunk va max n Hva Hl eq_refl) as (Hq & Ho & H0 & Hn & Hnb & Hnext).
  clearbody n.
  rewrite (bind_Ok _ _ _ _ _ (walkaddr_spec _ _ _ _ (PGROUNDDOWN va) (us_pt _ _ _ _ _ Hu) ltac:(rewrite H0; klia))).
  rewrite Hq. destruct (upage U (va / PGSIZE)) as [p|] eqn:Ep; cbn [default from_option id].
  2:{ exists (-1), s, 0. split_and!; try done; try lia.
      right. split_and!; [done|split; [lia|done]|]. right. apply uread_none. by rewrite Z.add_0_r. }
  destruct (upage_ok _ _ _ _ _ _ _ Hu Hh Ep) as (HpF & Hpo & Hpl & Hpt).
  pose proof (upage_bound _ _ _ Ep) as Hb.
  destruct (Z.eqb_spec p 0) as [->|_]; [by apply page_ok_nz in Hpo|]. rewrite Ho.
  destruct (copyinstr_page_spec (Z.to_nat n) (p + va mod PGSIZE) dst s)
    as (b & k1 & m1 & Hr1 & Hk1 & Hkn & Hm1 & Hb1 & Hsc).
  { rewrite Z2Nat.id by lia. apply (apart_page dst max); [|lia|klia|lia].
    eapply apart_sub; [exact Hap|lia|lia|]. intros q ->%list_elem_of_singleton. in_list. }
  rewrite Z2Nat.id in * by lia. rewrite (bind_Ok _ _ _ _ _ Hr1).
  assert (uspace (set_mem m1 s) l sh U F) as Hu1.
  { eapply uspace_kbuf; [exact Hu|exact Hm1|]. eapply apart_sub; [exact Hap|lia|lia|]. intros q; in_list. }
  assert (forall x, uread m1 U x = uread (m_mem s) U x) as Hur.
  { intros x. eapply uread_kbuf; [exact Hu|exact Hh|exact Hm1|].
    eapply apart_sub; [exact Hap|lia|lia|]. intros q; in_list. }
  assert (forall i, 0 <= i < k1 -> uread (m_mem s) U (va + i) = Some (rd m1 (dst + i))) as Hbytes.
  { intros i Hi. rewrite Hb1 by done. unfold uread.
    assert ((va + i) / PGSIZE = va / PGSIZE) as -> by klia. rewrite Ep. cbn. do 2 f_equal. klia. }
  assert (scanned m1 dst b k1) as Hsc1 by (eapply scanned_ext; eauto).
  destruct b; cbn [fst snd].
  { exists 0, (set_mem m1 s), k1. split_and!; try done; try lia. by left. }
  rewrite u64_small by klia. assert (k1 = n) as -> by auto.
  destruct (IH (set_mem m1 s) (dst + n) (PGROUNDDOWN va + PGSIZE) (max - n))
    as (r & s' & k & Hs' & Hk & Hu' & Hf' & Hrd & Hres); auto; try (rewrite H0; klia); try klia.
  { eapply apart_sub; [exact Hap|lia|lia|auto]. }
  cbn [m_mem set_mem] in *. exists r, s', (n + k). split_and!; auto; try lia.
  - eapply only_range_compose; [exact Hm1|exact Hf'|lia..].
  - intros i Hi. destruct (Z.lt_ge_cases i n) as [Hin|Hin].
    + rewrite Hf' by lia. apply Hbytes. lia.
    + specialize (Hrd (i - n) ltac:(lia)). rewrite Hnext, Hur in Hrd by lia.
      replace (va + n + (i - n)) with (va + i) in Hrd by lia. rewrite Hrd. do 2 f_equal. lia.
  - eapply str_res_step; [|exact Hres|lia|lia|lia|exact Hnext].
    eapply scanned_ext; [exact Hsc1|]. intros i Hi. apply Hf'. lia.
Qed.

Lemma copyinstr_spec s l sh U F dst va max :
  uspace s l sh U F -> high_ok U -> 0 <= va -> 0 <= max -> apart dst max (l ++ tables sh ++ F) ->
  exists r s' k,
    copyinstr (sh_root sh) dst va max s = Ok r s' /\ 0 <= k <= max /\
    uspace s' l sh U F /\ only_range (m_mem s) dst k (m_mem s') /\
    (forall i, 0 <= i < k -> uread (m_mem s) U (va + i) = Some (rd (m_mem s') (dst + i))) /\
    str_res (m_mem s) (m_mem s') U dst va max r k.
Proof. intros. apply copyinstr_loop_spec; auto; klia. Qed.

End UserCopy.
