(* ===== verification/ObjCopy.v ===== *)
(** * copyout and copyin between user memory and a kernel object

    The kernel side is a list of bytes: a variable on the kernel stack, a field
    of a structure, the data of a buffer. *)

From S2P Require Import Prelude CString Layout Spinlock Kalloc Vm VmSpec AddrSpace UserMem UserCopy.

Section ObjCopy.
Context `{HI : KernelImage}.
Context `{HOk : !ImageOk}.

(** Storing [n] bytes [g] into one user page, as the user sees it. *)
Lemma uread_store s l sh U F va n p m' g :
  uspace s l sh U F -> high_ok U -> upage U (va / PGSIZE) = Some p ->
  va mod PGSIZE + n <= PGSIZE ->
  (forall a, rd m' a = if (p + va mod PGSIZE <=? a) && (a <? p + va mod PGSIZE + n)
                       then g (a - (p + va mod PGSIZE)) else rd (m_mem s) a) ->
  forall va', uread m' U va' =
    if (va <=? va') && (va' <? va + n) then Some (g (va' - va)) else uread (m_mem s) U va'.
Proof.
  intros Hu Hh Hp Hb Hm va'. unfold uread.
  destruct (upage U (va' / PGSIZE)) as [p'|] eqn:E; cbn.
  2:{ destruct (Z.leb_spec va va'), (Z.ltb_spec va' (va + n)); cbn [andb]; try done.
      assert (va' / PGSIZE = va / PGSIZE) as Ev by klia. congruence. }
  rewrite Hm. destruct (upage_ok _ _ _ _ _ _ _ Hu Hh Hp) as (_ & [Ha _] & _).
  destruct (upage_ok _ _ _ _ _ _ _ Hu Hh E) as (_ & [Ha' _] & _).
  destruct (Z.leb_spec (p + va mod PGSIZE) (p' + va' mod PGSIZE)),
    (Z.ltb_spec (p' + va' mod PGSIZE) (p + va mod PGSIZE + n)); cbn [andb].
  1:{ assert (p' = p) as -> by klia. pose proof (upage_inj _ _ _ _ _ _ _ _ Hu Hh Hp E).
      destruct (Z.leb_spec va va'), (Z.ltb_spec va' (va + n)); cbn [andb]; try klia. do 2 f_equal. klia. }
  all: destruct (Z.leb_spec va va'), (Z.ltb_spec va' (va + n)); cbn [andb]; try done.
  all: assert (va' / PGSIZE = va / PGSIZE) as Ev by klia; rewrite Ev, Hp in E; injection E as <-; klia.
Qed.

Lemma uread_wrs s l sh U F va bs p :
  uspace s l sh U F -> high_ok U -> upage U (va / PGSIZE) = Some p ->
  va mod PGSIZE + Z.of_nat (length bs) <= PGSIZE ->
  forall va', uread (wrs (m_mem s) (p + va mod PGSIZE) bs) U va' =
    if (va <=? va') && (va' <? va + Z.of_nat (length bs)) then Some (u8 (bs !!! Z.to_nat (va' - va)))
    else uread (m_mem s) U va'.
Proof.
  intros Hu Hh Hp Hb. apply (uread_store s l sh U F va _ p _ (fun i => u8 (bs !!! Z.to_nat i))); try done.
  intros a. apply rd_wrs.
Qed.

Lemma wrs_only_range m a bs : only_range m a (Z.of_nat (length bs)) (wrs m a bs).
Proof.
  intros b Hb. rewrite rd_wrs. destruct (Z.leb_spec a b), (Z.ltb_spec b (a + Z.of_nat (length bs))); cbn; done || lia.
Qed.

(** Two consecutive chunks of [bs] are one. *)
Lemma obj_splice m' (o : option Z) U va bs n va1 r k x :
  let len := Z.of_nat (length bs) in
  copy_res m' U va1 (len - n) r k -> 0 < n <= len -> (n < len -> va1 = va + n) ->
  (if (va1 <=? x) && (x <? va1 + k) then Some (u8 (drop (Z.to_nat n) bs !!! Z.to_nat (x - va1)))
   else if (va <=? x) && (x <? va + n) then Some (u8 (take (Z.to_nat n) bs !!! Z.to_nat (x - va))) else o) =
  (if (va <=? x) && (x <? va + (n + k)) then Some (u8 (bs !!! Z.to_nat (x - va))) else o).
Proof.
  intros len Hres Hn Hv.
  assert (0 <= k <= len - n) as Hk by (destruct Hres as [[_ ->]|(_ & ? & _)]; lia).
  assert (va <= x < va + n -> take (Z.to_nat n) bs !!! Z.to_nat (x - va) = bs !!! Z.to_nat (x - va)) as Ht.
  { intros Hx. rewrite !list_lookup_total_alt, lookup_take, decide_True by lia. done. }
  destruct (decide (n < len)) as [Hlt|Hge].
  - rewrite (Hv Hlt). destruct (Z.leb_spec (va + n) x), (Z.ltb_spec x (va + n + k)),
      (Z.leb_spec va x), (Z.ltb_spec x (va + n)), (Z.ltb_spec x (va + (n + k)));
      cbn [andb]; try lia; try done; [|by rewrite Ht by lia].
    do 2 f_equal. rewrite !list_lookup_total_alt, lookup_drop. do 2 f_equal. lia.
  - assert (k = 0) as -> by lia. rewrite !Z.add_0_r.
    destruct (Z.leb_spec va1 x), (Z.ltb_spec x va1); cbn [andb]; try lia;
      destruct (Z.leb_spec va x), (Z.ltb_spec x (va + n)); cbn [andb]; done || by rewrite Ht by lia.
Qed.

Lemma copyout_obj_loop_spec fuel s l sh U F va bs :
  uspace s l sh U F -> high_ok U -> 0 <= va ->
  (0 < fuel)%nat -> va mod PGSIZE + Z.of_nat (length bs) <= PGSIZE * (Z.of_nat fuel - 1) ->
  exists r s' k,
    copyout_obj_loop fuel (sh_root sh) va bs s = Ok r s' /\
    uspace s' l sh U F /\ frame s s' F /\ copy_res (m_mem s) U va (Z.of_nat (length bs)) r k /\
    forall va', uread (m_mem s') U va' =
      if (va <=? va') && (va' <? va + k) then Some (u8 (bs !!! Z.to_nat (va' - va)))
      else uread (m_mem s) U va'.
Proof.
  revert s va bs. induction fuel as [|fuel IH]; intros s va bs Hu Hh Hva Hf0 Hf; [lia|].
  cbn [copyout_obj_loop]. cbv zeta. set (len := Z.of_nat (length bs)) in *.
  destruct (Z.ltb_spec 0 len) as [Hl|Hl]; cbn [negb].
  2:{ exists 0, s, 0. split_and!; [done..|apply frame_refl|left; split; lia|].
      intros va'. destruct (Z.leb_spec va va'), (Z.ltb_spec va' (va + 0)); done || lia. }
  set (n := if len <? PGSIZE - (va - PGROUNDDOWN va) then len else PGSIZE - (va - PGROUNDDOWN va)).
  destruct (copy_chunk va len n Hva Hl eq_refl) as (Hq & Ho & H0 & Hn & Hnb & Hnext). clearbody n.
  rewrite (bind_Ok _ _ _ _ _ (walkaddr_spec _ _ _ _ (PGROUNDDOWN va) (us_pt _ _ _ _ _ Hu) ltac:(rewrite H0; klia))).
  rewrite Hq. destruct (upage U (va / PGSIZE)) as [p|] eqn:Ep; cbn [default from_option id].
  2:{ exists (-1), s, 0. split_and!; [done..|apply frame_refl| |].
      - right. split_and!; [done|lia|lia|]. apply uread_none. by rewrite Z.add_0_r.
      - intros va'. destruct (Z.leb_spec va va'), (Z.ltb_spec va' (va + 0)); done || lia. }
  destruct (upage_ok _ _ _ _ _ _ _ Hu Hh Ep) as (HpF & Hpo & Hpl & Hpt).
  pose proof (upage_bound _ _ _ Ep) as Hb.
  destruct (Z.eqb_spec p 0) as [->|_]; [by apply page_ok_nz in Hpo|].
  rewrite Ho. mstep. assert (Z.of_nat (length (take (Z.to_nat n) bs)) = n) as Htl by (rewrite length_take; lia).
  set (m1 := wrs (m_mem s) (p + va mod PGSIZE) (take (Z.to_nat n) bs)).
  assert (only_pages (m_mem s) [p] m1) as Hm1.
  { eapply only_pages_range; [apply wrs_only_range|klia|lia]. }
  destruct (uspace_write s l sh U F p m1 Hu Hpo Hpl Hpt Hm1) as [Hu1 Hf1].
  pose proof (uread_wrs s l sh U F va (take (Z.to_nat n) bs) p Hu Hh Ep ltac:(lia)) as Hr1. fold m1 in Hr1. rewrite Htl in Hr1.
  rewrite u64_small by klia.
  destruct (IH (set_mem m1 s) (PGROUNDDOWN va + PGSIZE) (drop (Z.to_nat n) bs))
    as (r & s' & k & Hs' & Hu' & Hf' & Hres & Hrd); auto; try (rewrite H0, ?length_drop; klia); try klia.
  rewrite length_drop in Hres. replace (Z.of_nat (length bs - Z.to_nat n)) with (len - n) in Hres by lia.
  cbn [m_mem set_mem] in Hres, Hrd. exists r, s', (n + k). split_and!; auto.
  - eapply frame_trans; [|exact Hf']. eapply frame_weaken; [exact Hf1|].
    by intros q ->%list_elem_of_singleton.
  - by apply (copy_res_step (m_mem s) m1 _ _ _ _ (PGROUNDDOWN va + PGSIZE)).
  - intros va'. rewrite Hrd, Hr1. by eapply obj_splice.
Qed.

Lemma copyout_obj_spec s l sh U F va bs :
  uspace s l sh U F -> high_ok U -> 0 <= va ->
  exists r s' k,
    copyout_obj (sh_root sh) va bs s = Ok r s' /\
    uspace s' l sh U F /\ frame s s' F /\ copy_res (m_mem s) U va (Z.of_nat (length bs)) r k /\
    forall va', uread (m_mem s') U va' =
      if (va <=? va') && (va' <? va + k) then Some (u8 (bs !!! Z.to_nat (va' - va)))
      else uread (m_mem s) U va'.
Proof. intros. apply copyout_obj_loop_spec; auto; klia. Qed.

Lemma rds_uread m U va n p i b :
  upage U (va / PGSIZE) = Some p -> va mod PGSIZE + n <= PGSIZE ->
  rds m (p + va mod PGSIZE) n !! i = Some b -> uread m U (va + Z.of_nat i) = Some b.
Proof.
  intros Hp Hb Hi. unfold rds in Hi. apply list_lookup_fmap_Some in Hi as (j & -> & [-> Hj]%lookup_seqZ).
  unfold uread. assert ((va + Z.of_nat i) / PGSIZE = va / PGSIZE) as -> by klia. rewrite Hp. cbn. do 2 f_equal. klia.
Qed.

Lemma copyin_obj_loop_spec fuel s l sh U F va len :
  uspace s l sh U F -> high_ok U -> 0 <= va -> 0 <= len ->
  (0 < fuel)%nat -> va mod PGSIZE + len <= PGSIZE * (Z.of_nat fuel - 1) ->
  exists r bs,
    copyin_obj_loop fuel (sh_root sh) va len s = Ok (r, bs) s /\
    copy_res (m_mem s) U va len r (Z.of_nat (length bs)) /\
    forall i b, bs !! i = Some b -> uread (m_mem s) U (va + Z.of_nat i) = Some b.
Proof.
  intros Hu Hh. revert va len. induction fuel as [|fuel IH]; intros va len Hva Hlen Hf0 Hf; [lia|].
  cbn [copyin_obj_loop]. cbv zeta. destruct (Z.ltb_spec 0 len) as [Hl|Hl]; cbn [negb].
  2:{ exists 0, []. split_and!; [done|left; cbn; split; lia|done]. }
  set (n := if len <? PGSIZE - (va - PGROUNDDOWN va) then len else PGSIZE - (va - PGROUNDDOWN va)).
  destruct (copy_chunk va len n Hva Hl eq_refl) as (Hq & Ho & H0 & Hn & Hnb & Hnext). clearbody n.
  rewrite (bind_Ok _ _ _ _ _ (walkaddr_spec _ _ _ _ (PGROUNDDOWN va) (us_pt _ _ _ _ _ Hu) ltac:(rewrite H0; klia))).
  rewrite Hq. destruct (upage U (va / PGSIZE)) as [p|] eqn:Ep; cbn [default from_option id].
  2:{ exists (-1), []. split_and!; [done| |done].
      right. split_and!; [done|cbn; lia|cbn; lia|]. apply uread_none. by rewrite Z.add_0_r. }
  destruct (upage_ok _ _ _ _ _ _ _ Hu Hh Ep) as (HpF & Hpo & Hpl & Hpt).
  pose proof (upage_bound _ _ _ Ep) as Hb.
  destruct (Z.eqb_spec p 0) as [->|_]; [by apply page_ok_nz in Hpo|].
  rewrite Ho. mstep. rewrite u64_small by klia.
  destruct (IH (PGROUNDDOWN va + PGSIZE) (len - n)) as (r & bs & Hr & Hres & Hbs); try (rewrite ?H0; klia).
  rewrite (bind_Ok _ _ _ _ _ Hr). cbn [fst snd]. eexists r, _. split_and!; [done| |].
  - rewrite length_app, length_rds. replace (Z.of_nat (Z.to_nat n + length bs)) with (n + Z.of_nat (length bs)) by lia.
    by apply (copy_res_step (m_mem s) (m_mem s) _ _ _ _ (PGROUNDDOWN va + PGSIZE)).
  - intros i b [Hi|[Hi Hlk]]%lookup_app_Some; [by eapply rds_uread|].
    rewrite length_rds in Hi, Hlk. apply Hbs in Hlk as Hrd. pose proof (lookup_lt_Some _ _ _ Hlk) as Hlt.
    assert (n < len) as Hnl by (destruct Hres as [[_ Hk]|(_ & Hk & _)]; lia).
    rewrite <- Hrd. f_equal. rewrite (Hnext Hnl). lia.
Qed.

Lemma copyin_obj_spec s l sh U F va len :
  uspace s l sh U F -> high_ok U -> 0 <= va -> 0 <= len ->
  exists r bs,
    copyin_obj (sh_root sh) va len s = Ok (r, bs) s /\
    copy_res (m_mem s) U va len r (Z.of_nat (length bs)) /\
    forall i b, bs !! i = Some b -> uread (m_mem s) U (va + Z.of_nat i) = Some b.
Proof. intros. by eapply copyin_obj_loop_spec; eauto; klia. Qed.

(** One byte at a time, as pipes and the console copy. *)
Lemma copyout_byte s l sh U F va b :
  uspace s l sh U F -> high_ok U -> 0 <= va -> 0 <= b < 256 ->
  match uread (m_mem s) U va with
  | None => exists s', copyout_obj (sh_root sh) va [b] s = Ok (-1) s' /\ uspace s' l sh U F /\ frame s s' F /\
              forall va', uread (m_mem s') U va' = uread (m_mem s) U va'
  | Some _ => exists s', copyout_obj (sh_root sh) va [b] s = Ok 0 s' /\ uspace s' l sh U F /\ frame s s' F /\
              forall va', uread (m_mem s') U va' = if va =? va' then Some b else uread (m_mem s) U va'
  end.
Proof.
  intros Hu Hh Hva Hb. destruct (copyout_obj_spec s l sh U F va [b] Hu Hh Hva) as (r & s' & k & Hs & Hu' & Hf & Hres & Hrd).
  assert (r = 0 -> k = 1) as H0 by (cbn [length] in Hres; destruct Hres as [[_ ->]|[-> _]]; done).
  destruct Hres as [[-> _]|(-> & Hk & Hn)].
  - destruct (uread (m_mem s) U va) eqn:E.
    + exists s'. split_and!; [done..|]. intros va'. rewrite Hrd, H0 by done.
      destruct (Z.leb_spec va va'), (Z.ltb_spec va' (va + 1)), (Z.eqb_spec va va'); cbn [andb]; try lia; try done.
      assert (va' - va = 0) as -> by lia. cbn. by rewrite u8_small.
    + exists s'. specialize (Hrd va) as Hrv. rewrite H0 in Hrv by done.
      destruct (Z.leb_spec va va), (Z.ltb_spec va (va + 1)); cbn [andb] in Hrv; try lia.
      apply uread_none in E. unfold uread in Hrv. rewrite E in Hrv. done.
  - cbn [length] in Hk. assert (k = 0) as -> by lia. rewrite Z.add_0_r in Hn. rewrite Hn.
    exists s'. split_and!; [done..|]. intros va'. rewrite Hrd.
    destruct (Z.leb_spec va va'), (Z.ltb_spec va' (va + 0)); cbn [andb]; done || lia.
Qed.

Lemma copyin_byte s l sh U F va :
  uspace s l sh U F -> high_ok U -> 0 <= va ->
  copyin_obj (sh_root sh) va 1 s = Ok (match uread (m_mem s) U va with Some b => (0, [b]) | None => (-1, []) end) s.
Proof.
  intros Hu Hh Hva. destruct (copyin_obj_spec s l sh U F va 1 Hu Hh Hva) as (r & bs & -> & Hres & Hbs); [lia|].
  destruct Hres as [[-> Hl]|(-> & Hl & Hn)].
  - destruct bs as [|b [|]]; cbn in Hl; try lia. specialize (Hbs 0%nat b eq_refl). rewrite Z.add_0_r in Hbs. by rewrite Hbs.
  - destruct bs; cbn in Hl; [|lia]. cbn in Hn. rewrite Z.add_0_r in Hn. by rewrite Hn.
Qed.
End ObjCopy.
