(* ===== verification/UserFork.v ===== *)
(** * uvmcopy: the copy of an address space that fork makes

    Two page tables live side by side: the parent's, [sh] with frames [F], and
    the child's, which starts without user pages and is filled with fresh frames. *)

From S2P Require Import Prelude CString Layout Spinlock Kalloc Vm VmSpec AddrSpace UserMem UserCopy.

(** Bytes of page [q] in [m'] are those of page [p] in [m]. *)
Definition same_page (m : mem) (p : Z) (m' : mem) (q : Z) : Prop :=
  forall i, 0 <= i < PGSIZE -> rd m' (q + i) = rd m (p + i).

Section UserFork.
Context `{HI : KernelImage}.
Context `{HOk : !ImageOk}.

(** The progress of uvmcopy: the child has the pages [G]. *)
Record ucopy (s0 : mst) (l0 : list Z) (shn0 : shape) (Un0 U : gmap Z Z) (F : list Z)
             (s : mst) (l : list Z) (shn : shape) (Un : gmap Z Z) (G : list Z) : Prop := {
  uc_new : uspace s l shn Un G;
  uc_root : sh_root shn = sh_root shn0;
  uc_pages : l ++ tables shn ++ G ≡ₚ l0 ++ tables shn0;
  uc_frame : frame s0 s (l0 ++ tables shn0);
  uc_data : forall i p q, F !! i = Some p -> G !! i = Some q ->
              same_page (m_mem s0) p (m_mem s) q;
  uc_ptes : forall i q, G !! i = Some q ->
              exists v, U !! Z.of_nat i = Some v /\ Un !! Z.of_nat i = Some (mkpte q (PTE_FLAGS v));
  uc_out : forall k, ~ (0 <= k < Z.of_nat (length G)) -> Un !! k = Un0 !! k;
  uc_tables : serves (fun v => 0 <= v < Z.of_nat (length F)) shn0 shn
}.

Lemma ucopy_refl s l shn Un U F : uspace s l shn Un [] -> ucopy s l shn Un U F s l shn Un [].
Proof. intros Hu. split; rewrite ?app_nil_r; auto using frame_refl, serves_refl; done. Qed.

Section Copy.
Context (s0 : mst) (l0 : list Z) (sh shn0 : shape) (U Un0 : gmap Z Z) (F : list Z).
Hypothesis Hold : uspace s0 l0 sh U F.
Hypothesis Hnew : uspace s0 l0 shn0 Un0 [].
Hypothesis Hdis : forall p, p ∈ tables sh ++ F -> p ∉ tables shn0.

Abbreviation copying := (ucopy s0 l0 shn0 Un0 U F).

Lemma old_disj p : p ∈ tables sh ++ F -> p ∉ l0 ++ tables shn0.
Proof.
  intros Hp [Hin|Hin]%elem_of_app; [|by apply (Hdis p)].
  apply elem_of_app in Hp as [Hp|Hp].
  - by apply (vi_disj _ _ _ (pi_vm _ _ _ _ (us_pt _ _ _ _ _ Hold)) p).
  - destruct (us_disj _ _ _ _ _ Hold p Hp). contradiction.
Qed.

(** The parent keeps its address space, bytes included. *)
Lemma ucopy_old s l shn Un G : copying s l shn Un G -> uspace s l sh U F.
Proof.
  intros [Hn _ Hpg Hf _ _ _ _].
  assert (forall p, p ∈ tables sh ++ F -> p ∉ l) as Hl.
  { intros p Hp Hin. apply (old_disj p Hp). rewrite <- Hpg. in_list. }
  eapply uspace_pt; [exact Hold| |].
  - eapply pt_inv_frame; [apply (us_pt _ _ _ _ _ Hold)|apply (us_pt _ _ _ _ _ Hn)|apply Hf| |].
    + apply page_ok_aligned, (uspace_all_ok _ _ _ _ _ Hnew).
    + intros p Hp. split; [apply old_disj|apply Hl]; in_list.
  - intros p Hp. split; [apply Hl; in_list|]. by apply (us_disj _ _ _ _ _ Hold).
Qed.

Lemma ucopy_old_page s l shn Un G p :
  copying s l shn Un G -> p ∈ F -> same_page (m_mem s0) p (m_mem s) p.
Proof.
  intros Hc Hp i Hi. eapply only_pages_rd; [apply (uc_frame _ _ _ _ _ _ _ _ _ _ _ Hc)| | | |done].
  - pose proof (us_pages _ _ _ _ _ Hold) as Hpg. by eapply Forall_forall in Hpg as [? _].
  - apply page_ok_aligned, (uspace_all_ok _ _ _ _ _ Hnew).
  - apply old_disj. in_list.
Qed.

(** Undoing. *)
Lemma ucopy_undo s l shn Un G :
  copying s l shn Un G ->
  exists s', uvmunmap (sh_root shn) 0 (Z.of_nat (length G)) 1 s = Ok tt s' /\
    copying s' (rev G ++ l) shn Un0 [].
Proof.
  intros [Hn Hr Hpg Hf Hd Hp Ho Hsv].
  destruct (uvmunmap_tail s l shn Un G 0 Hn ltac:(lia)) as (s' & Hs & Hu & Hf').
  rewrite Nat.sub_0_r, drop_0, take_0, Z.mul_0_r in *. exists s'. split; [done|].
  assert (unmap_range (length G) (Z.of_nat 0) Un = Un0) as HU.
  { apply map_eq. intros k. rewrite lookup_unmap_range. destruct (decide _) as [Hk|Hk].
    - symmetry. apply (us_gap _ _ _ _ _ Hnew). pose proof (us_len _ _ _ _ _ Hn). cbn [length]. lia.
    - apply Ho. lia. }
  rewrite HU in Hu. split; auto; rewrite ?app_nil_r; try done.
  - rewrite <- Hpg, <- Permutation_rev, <- app_assoc. rewrite Permutation_app_comm, <- app_assoc. done.
  - eapply frame_trans; [exact Hf|]. eapply frame_weaken; [exact Hf'|]. intros p Hin. rewrite <- Hpg. in_list.
Qed.

Lemma same_page_frame m0 p s s' q ps :
  same_page m0 p (m_mem s) q -> frame s s' ps -> page_ok q -> Forall page_ok ps -> (q ∉ ps) ->
  same_page m0 p (m_mem s') q.
Proof.
  intros Hs Hf Hq Hp Hn i Hi. rewrite <- Hs by done.
  eapply only_pages_rd; [apply Hf|apply Hq|by apply page_ok_aligned|done|done].
Qed.

(** The pages of the child keep their bytes while page [x] is written and the
    page table takes free pages. *)
Lemma ucopy_keep s x l shn Un G s2 s' l' shn' :
  copying s (x :: l) shn Un G -> uspace s2 l shn Un G -> frame s s2 [x] -> page_ok x -> (x ∉ G) ->
  ext s2 l shn s' l' shn' ->
  frame s0 s' (l0 ++ tables shn0) /\
  (forall i p q, F !! i = Some p -> G !! i = Some q -> same_page (m_mem s0) p (m_mem s') q).
Proof.
  intros [Hn Hr Hpg Hf Hd Hp Ho Hsv] Hu2 Hf2 Hx HxG He.
  pose proof (ex_frame _ _ _ _ _ _ He) as Hf3. split.
  - eapply frame_trans; [exact Hf|]. eapply frame_trans; (eapply frame_weaken; [exact Hf2 || exact Hf3|]);
      intros p Hin; rewrite <- Hpg; in_list.
  - intros i p q Hip Hiq. apply list_elem_of_lookup_2 in Hiq as HqG.
    destruct (us_disj _ _ _ _ _ Hu2 q HqG) as [Hql Hqt].
    assert (page_ok q) by (by eapply Forall_forall; [apply (us_pages _ _ _ _ _ Hu2)|]).
    eapply same_page_frame; [|exact Hf3|done|apply (uspace_all_ok _ _ _ _ _ Hu2)|in_list].
    eapply same_page_frame; [by eapply Hd|exact Hf2|done|by apply Forall_singleton|].
    intros ->%list_elem_of_singleton. contradiction.
Qed.

Lemma ucopy_snoc s x l shn Un G s2 s' l' shn' p v :
  copying s (x :: l) shn Un G -> uspace s2 l shn Un G -> frame s s2 [x] -> page_ok x ->
  (x ∉ l) -> (x ∉ tables shn) -> (x ∉ G) -> ext s2 l shn s' l' shn' ->
  serves (fun v => 0 <= v < Z.of_nat (length F)) shn shn' -> F !! length G = Some p -> U !! Z.of_nat (length G) = Some v ->
  same_page (m_mem s0) p (m_mem s2) x ->
  let Un' := <[Z.of_nat (length G) := mkpte x (PTE_FLAGS v)]> Un in
  uspace s' l' shn' Un' (G ++ [x]) -> copying s' l' shn' Un' (G ++ [x]).
Proof.
  intros Hc Hu2 Hf2 Hx Hxl Hxt HxG He Hask HFp HUv Hsame Un' Hu'.
  destruct (ucopy_keep _ _ _ _ _ _ _ _ _ _ Hc Hu2 Hf2 Hx HxG He) as [Hfr Hdata].
  destruct Hc as [Hn Hr Hpg Hf Hd Hp Ho Hsv]. split; auto.
  - by rewrite (ex_root _ _ _ _ _ _ He).
  - transitivity ((l' ++ tables shn') ++ G ++ [x]); [by rewrite <- app_assoc|].
    rewrite (ex_pages _ _ _ _ _ _ He), <- Hpg, <- Permutation_cons_append, <- Permutation_middle.
    by rewrite <- app_assoc.
  - intros i p' q Hip [Hiq|[Hge Hiq]]%lookup_app_Some; [by eapply Hdata|].
    apply list_lookup_singleton_Some in Hiq as [Hi <-]. assert (i = length G) as -> by lia.
    assert (p' = p) as -> by congruence.
    eapply same_page_frame; [exact Hsame|apply (ex_frame _ _ _ _ _ _ He)|done
      |apply (uspace_all_ok _ _ _ _ _ Hu2)|in_list].
  - intros i q [Hiq|[Hge Hiq]]%lookup_app_Some.
    + destruct (Hp i q Hiq) as (w & Hw & Hw'). exists w. split; [done|]. apply lookup_lt_Some in Hiq.
      unfold Un'. rewrite lookup_insert_ne by lia. done.
    + apply list_lookup_singleton_Some in Hiq as [Hi <-]. assert (i = length G) as -> by lia.
      exists v. split; [done|]. apply lookup_insert_eq.
  - intros k Hk. rewrite length_app in Hk. cbn [length] in Hk. unfold Un'.
    rewrite lookup_insert_ne by lia. apply Ho. lia.
  - by eapply serves_trans.
Qed.

(** Giving the unmapped page back. *)
Lemma ucopy_abort s x l shn Un G s2 s' shn' :
  copying s (x :: l) shn Un G -> uspace s2 l shn Un G -> frame s s2 [x] -> page_ok x ->
  (x ∉ l) -> (x ∉ tables shn) -> (x ∉ G) -> ext s2 l shn s' [] shn' -> serves (fun v => 0 <= v < Z.of_nat (length F)) shn shn' -> uspace s' [] shn' Un G ->
  exists s3, kfree x s' = Ok tt s3 /\ copying s3 [x] shn' Un G.
Proof.
  intros Hc Hu2 Hf2 Hx Hxl Hxt HxG He Hask Hu'.
  destruct (ucopy_keep _ _ _ _ _ _ _ _ _ _ Hc Hu2 Hf2 Hx HxG He) as [Hfr Hdata].
  destruct (ext_disj _ _ _ _ _ _ x He Hxl Hxt) as [_ Hxt'].
  destruct (uspace_kfree s' [] shn' Un G x Hu' Hx) as (s3 & Hs3 & Hu3 & Hf3); auto.
  { by intros ?%elem_of_nil. }
  exists s3. split; [done|]. destruct Hc as [Hn Hr Hpg Hf Hd Hp Ho Hsv]. split; auto.
  - by rewrite (ex_root _ _ _ _ _ _ He).
  - transitivity (x :: ([] ++ tables shn') ++ G); [done|].
    rewrite (ex_pages _ _ _ _ _ _ He), <- Hpg. by rewrite <- app_assoc.
  - eapply frame_trans; [exact Hfr|]. eapply frame_weaken; [exact Hf3|].
    intros p ->%list_elem_of_singleton. rewrite <- Hpg. in_list.
  - intros i p q Hip Hiq. apply list_elem_of_lookup_2 in Hiq as HqG.
    eapply same_page_frame; [by eapply Hdata|exact Hf3| |by apply Forall_singleton|].
    + eapply Forall_forall; [apply (us_pages _ _ _ _ _ Hu2)|done].
    + intros ->%list_elem_of_singleton. contradiction.
  - by eapply serves_trans.
Qed.

(** A fresh page with the bytes of the parent's page [p]. *)
Lemma ucopy_fresh s x l shn Un G p :
  copying s (x :: l) shn Un G -> p ∈ F ->
  exists s1 s2, kalloc s = Ok x s1 /\ kmemmove x p PGSIZE s1 = Ok tt s2 /\
    uspace s2 l shn Un G /\ frame s s2 [x] /\ same_page (m_mem s0) p (m_mem s2) x /\
    page_ok x /\ (x ∉ l) /\ (x ∉ tables shn) /\ (x ∉ G) /\ x <> 0.
Proof.
  intros Hc Hp. destruct (uspace_kalloc _ _ _ _ _ (uc_new _ _ _ _ _ _ _ _ _ _ _ Hc))
    as (s1 & Hs1 & Hu1 & Hf1 & Hx & Hxl & Hxt & HxG & Hnz).
  assert (only_pages (m_mem s1) [x] (memmove (m_mem s1) x p PGSIZE)) as Hm.
  { eapply (only_pages_range _ x 0 PGSIZE); [|consts; lia..]. rewrite Z.add_0_r.
    apply memmove_only_range. consts. lia. }
  destruct (uspace_write s1 l shn Un G x _ Hu1 Hx Hxl Hxt Hm) as [Hu2 Hf2].
  exists s1, (set_mem (memmove (m_mem s1) x p PGSIZE) s1).
  split_and!; [exact Hs1|reflexivity|exact Hu2|by eapply frame_trans| |assumption..].
  pose proof (us_pages _ _ _ _ _ Hold) as Hpo. eapply Forall_forall in Hpo; [|exact Hp].
  intros i Hi. cbn [m_mem set_mem]. rewrite rd_memmove by (consts; lia).
  destruct (Z.leb_spec x (x + i)), (Z.ltb_spec (x + i) (x + PGSIZE)); cbn [andb]; try lia.
  replace (p + (x + i - x)) with (p + i) by lia.
  rewrite <- (ucopy_old_page _ _ _ _ _ _ Hc Hp i Hi).
  eapply only_pages_rd; [apply Hf1|apply Hpo|apply Forall_singleton, Hx| |done].
  intros ->%list_elem_of_singleton. apply (old_disj x); [in_list|].
  rewrite <- (uc_pages _ _ _ _ _ _ _ _ _ _ _ Hc). in_list.
Qed.

Lemma ucopy_kalloc_fail s shn Un G :
  copying s [] shn Un G -> exists s', kalloc s = Ok 0 s' /\ copying s' [] shn Un G.
Proof.
  intros [Hn Hr Hpg Hf Hd Hp Ho Hsv]. destruct (uspace_kalloc _ _ _ _ _ Hn) as (s1 & Hs1 & Hu1 & Hf1).
  exists s1. split; [done|]. split; auto.
  - eapply frame_trans; [exact Hf|]. eapply frame_weaken; [exact Hf1|]. by intros p ?%elem_of_nil.
  - intros i p q Hip Hiq. apply list_elem_of_lookup_2 in Hiq as HqG.
    eapply same_page_frame; [by eapply Hd|exact Hf1| |constructor|by intros ?%elem_of_nil].
    eapply Forall_forall; [apply (us_pages _ _ _ _ _ Hn)|done].
Qed.

Lemma PTE_FLAGS_range v : 0 <= PTE_FLAGS v < 1024.
Proof. unfold PTE_FLAGS. rewrite (land_ones_mod _ 10) by lia. zlia. Qed.

Lemma flags_valid v : Z.testbit v 0 = true -> Z.lor (PTE_FLAGS v) PTE_V = PTE_FLAGS v.
Proof.
  intros Hv. apply Z.bits_inj'. intros i Hi. rewrite Z.lor_spec.
  change PTE_V with (2 ^ 0). rewrite Z.pow2_bits_eqb by lia.
  destruct (Z.eqb_spec 0 i) as [<-|]; [|by rewrite orb_false_r].
  unfold PTE_FLAGS. by rewrite Z.land_spec, Hv.
Qed.

Lemma uvmcopy_step fuel s l shn Un G sz :
  copying s l shn Un G -> let i := PGSIZE * Z.of_nat (length G) in
  i < sz -> sz <= TRAPFRAME -> length F = npg sz ->
  (exists s' l' shn' Un' x,
     uvmcopy_loop (S fuel) (sh_root sh) (sh_root shn) i sz s =
       uvmcopy_loop fuel (sh_root sh) (sh_root shn') (i + PGSIZE) sz s' /\
     copying s' l' shn' Un' (G ++ [x])) \/
  (exists s' l' shn',
     uvmcopy_loop (S fuel) (sh_root sh) (sh_root shn) i sz s = Ok (-1) s' /\
     copying s' l' shn' Un0 [] /\
     (length l0 + length (tables shn0) <= length (tables shn') + length F)%nat).
Proof.
  intros Hc i Hi Hsz Hlen. cbn [uvmcopy_loop]. cbv zeta.
  destruct (Z.ltb_spec i sz); [|lia]. cbn [negb].
  assert (length G < length F)%nat as HGF by (rewrite Hlen; subst i; unfold npg; klia).
  destruct (lookup_lt_is_Some_2 F (length G) HGF) as [p HFp].
  destruct (us_frames _ _ _ _ _ Hold _ _ HFp) as (v & Hv & Hvp & Hvf). rewrite Z.add_0_l in Hv.
  apply list_elem_of_lookup_2 in HFp as HpF.
  pose proof (ucopy_old _ _ _ _ _ Hc) as Hos.
  assert (i / 4096 = Z.of_nat (length G)) as Hq by (subst i; klia).
  destruct (walk_mapped s l sh U i v (us_pt _ _ _ _ _ Hos)) as (a & Hw & Hnz & Hrd & Hbit & _);
    [subst i; klia|by rewrite Hq|].
  rewrite (bind_Ok _ _ _ _ _ Hw). destruct (Z.eqb_spec a 0); [contradiction|].
  unfold load64. mstep. rewrite Hrd, truthy_V, Hbit. cbn [negb]. rewrite Hvp.
  replace (i / PGSIZE) with (Z.of_nat (length G)) by (by rewrite <- Hq).
  pose proof (uc_pages _ _ _ _ _ _ _ _ _ _ _ Hc) as Hpg. destruct l as [|x l].
  - right. destruct (ucopy_kalloc_fail _ _ _ _ Hc) as (s1 & Hs1 & Hc1).
    rewrite (bind_Ok _ _ _ _ _ Hs1). change (0 =? 0) with true. cbv iota.
    destruct (ucopy_undo _ _ _ _ _ Hc1) as (s' & Hs' & Hc'). rewrite (bind_Ok _ _ _ _ _ Hs').
    exists s', (rev G ++ []), shn. split_and!; auto.
    apply Permutation_length in Hpg. rewrite !length_app in Hpg. cbn [length] in Hpg. lia.
  - destruct (ucopy_fresh _ _ _ _ _ _ _ Hc HpF)
      as (s1 & s2 & Hs1 & Hs2 & Hu2 & Hf2 & Hsame & Hx & Hxl & Hxt & HxG & Hxnz).
    rewrite (bind_Ok _ _ _ _ _ Hs1). destruct (Z.eqb_spec x 0); [contradiction|].
    rewrite (bind_Ok _ _ _ _ _ Hs2).
    pose proof (us_len _ _ _ _ _ Hold) as HN.
    destruct (uspace_map s2 l shn Un G x (PTE_FLAGS v)) as (r & s3 & l3 & shn3 & Hr & He & Hcase & Hask); auto.
    { lia. } { apply PTE_FLAGS_range. } { by rewrite flags_valid. }
    eapply (serves_weaken _ (fun v => 0 <= v < Z.of_nat (length F))) in Hask; [|intros w <-; lia].
    rewrite flags_valid in Hcase by done. fold i in Hr. rewrite (bind_Ok _ _ _ _ _ Hr).
    rewrite (u64_small (i + PGSIZE)) by (subst i; klia).
    destruct Hcase as [[-> Hu3]|(-> & -> & Hu3)].
    + left. change (negb (0 =? 0)) with false. cbv iota. rewrite <- (ex_root _ _ _ _ _ _ He).
      do 5 eexists. split; [reflexivity|]. by eapply ucopy_snoc.
    + right. change (negb (-1 =? 0)) with true. cbv iota.
      destruct (ucopy_abort _ _ _ _ _ _ _ _ _ Hc Hu2 Hf2 Hx Hxl Hxt HxG He Hask Hu3) as (s4 & Hs4 & Hc4).
      rewrite (bind_Ok _ _ _ _ _ Hs4). rewrite <- (ex_root _ _ _ _ _ _ He).
      destruct (ucopy_undo _ _ _ _ _ Hc4) as (s' & Hs' & Hc'). rewrite (bind_Ok _ _ _ _ _ Hs').
      exists s', (rev G ++ [x]), shn3. split_and!; auto.
      pose proof (Permutation_length (uc_pages _ _ _ _ _ _ _ _ _ _ _ Hc4)) as Hl.
      rewrite !length_app in Hl. cbn [length] in Hl. lia.
Qed.

(** What uvmcopy did: the child has a copy of every page of the parent, with
    the same flags; or -1, the child has no user page and no page was lost. *)
Definition uvmcopy_post (r : Z) (s : mst) : Prop :=
  (r = 0 /\ exists l shn Un G, copying s l shn Un G /\ length G = length F) \/
  (r = -1 /\ exists l shn, copying s l shn Un0 [] /\
     (length l0 + length (tables shn0) <= length (tables shn) + length F)%nat).

Lemma uvmcopy_loop_spec fuel s l shn Un G sz :
  copying s l shn Un G -> let i := PGSIZE * Z.of_nat (length G) in
  sz <= TRAPFRAME -> length F = npg sz -> (length G <= length F)%nat ->
  (0 < fuel)%nat -> sz <= i + PGSIZE * (Z.of_nat fuel - 1) ->
  exists r s', uvmcopy_loop fuel (sh_root sh) (sh_root shn) i sz s = Ok r s' /\ uvmcopy_post r s'.
Proof.
  revert s l shn Un G. induction fuel as [|fuel IH]; intros s l shn Un G Hc i Hsz Hlen HG Hf0 Hf; [lia|].
  destruct (Z.lt_ge_cases i sz) as [Hlt|Hge].
  - destruct (uvmcopy_step fuel _ _ _ _ _ sz Hc Hlt Hsz Hlen)
      as [(s' & l' & shn' & Un' & x & Hr & Hc')|(s' & l' & shn' & Hr & Hc' & Hb)]; fold i in Hr; rewrite Hr.
    + assert (i + PGSIZE = PGSIZE * Z.of_nat (length (G ++ [x]))) as ->.
      { rewrite length_app; cbn [length]. subst i. klia. }
      apply (IH _ _ _ _ _ Hc' Hsz Hlen); rewrite ?length_app; cbn [length]; subst i;
        rewrite ?Hlen; unfold npg in *; klia.
    + exists (-1), s'. split; [done|]. right. split; [done|]. by exists l', shn'.
  - exists 0, s. cbn [uvmcopy_loop]. destruct (Z.ltb_spec i sz); [lia|]. split; [done|].
    left. split; [done|]. exists l, shn, Un, G. split; [exact Hc|].
    subst i. unfold npg in *. klia.
Qed.

End Copy.

Lemma uvmcopy_spec s l sh U F shn Un sz :
  uspace s l sh U F -> uspace s l shn Un [] -> (forall p, p ∈ tables sh ++ F -> p ∉ tables shn) ->
  length F = npg sz -> 0 <= sz <= TRAPFRAME ->
  exists r s', uvmcopy (sh_root sh) (sh_root shn) sz s = Ok r s' /\
    uvmcopy_post s l shn U Un F r s'.
Proof.
  intros Hold Hnew Hdis Hlen Hsz. unfold uvmcopy.
  apply (uvmcopy_loop_spec s l sh shn U Un F Hold Hnew Hdis _ s l shn Un []);
    [by apply ucopy_refl|lia|done|cbn [length]; lia|lia|cbn [length]; klia].
Qed.

(** Every user address reads in the copy as in the original. *)
Lemma ucopy_uread s0 l0 sh shn0 U Un0 F s l shn Un G va :
  uspace s0 l0 sh U F -> ucopy s0 l0 shn0 Un0 U F s l shn Un G -> length G = length F ->
  0 <= va < PGSIZE * Z.of_nat (length F) ->
  uread (m_mem s) Un va = uread (m_mem s0) U va.
Proof.
  intros Hu Hc Hlen Hva. set (k := va / PGSIZE). assert (0 <= k < Z.of_nat (length F)) as Hk by (subst k; klia).
  pose proof (us_len _ _ _ _ _ Hu) as HN. rewrite NUSER_eq in HN.
  destruct (lookup_lt_is_Some_2 F (Z.to_nat k)) as [p Hp]; [lia|].
  destruct (lookup_lt_is_Some_2 G (Z.to_nat k)) as [q Hq]; [lia|].
  destruct (us_frames _ _ _ _ _ Hu _ _ Hp) as (v & Hv & Hvp & _).
  destruct (uc_ptes _ _ _ _ _ _ _ _ _ _ _ Hc _ _ Hq) as (w & Hw & Hwn).
  rewrite Z2Nat.id in * by lia. rewrite Z.add_0_l in Hv. assert (w = v) as -> by congruence.
  pose proof (us_pages _ _ _ _ _ (uc_new _ _ _ _ _ _ _ _ _ _ _ Hc)) as Hpg.
  eapply Forall_lookup in Hpg; [|exact Hq]. pose proof (page_ok_56 q Hpg).
  pose proof (PTE_FLAGS_range v) as Hf. unfold uread, upage. fold k.
  destruct (Z.leb_spec (MAXVA / PGSIZE) k); [klia|]. rewrite Hv, Hwn.
  rewrite testbit_mkpte by (done || lia).
  assert (Z.testbit (PTE_FLAGS v) 4 = Z.testbit v 4) as ->.
  { unfold PTE_FLAGS. rewrite Z.land_spec. apply andb_true_r. }
  destruct (Z.testbit v 4); [|done]. cbn. f_equal.
  rewrite mkpte_PTE2PA, Hvp by (done || apply Hpg).
  apply (uc_data _ _ _ _ _ _ _ _ _ _ _ Hc _ _ _ Hp Hq). klia.
Qed.


End UserFork.
