(* ===== verification/PipeSpec.v ===== *)
(** * Pipes as queues

    The ring of a pipe, with its two 32-bit counters that only grow and wrap,
    is a bounded queue of bytes; pipewrite adds the bytes of a user buffer at
    its end and piperead moves bytes from its front into a user buffer. *)

From S2P Require Import Prelude CString Layout Spinlock Kalloc State Output Vm Proc Pipe ProcSpec VmSpec AddrSpace UserMem UserCopy ObjCopy.

(** ** The ring *)

(** Number of bytes in the pipe; the counters are uints. *)
Definition pipe_len (pi : pipe) : Z := u32 (pi_nwrite pi - pi_nread pi).

Record pipe_inv (pi : pipe) : Prop := {
  pv_size : length (pi_data pi) = Z.to_nat PIPESIZE;
  pv_read : 0 <= pi_nread pi < 2 ^ 32;
  pv_write : 0 <= pi_nwrite pi < 2 ^ 32;
  pv_len : pipe_len pi <= PIPESIZE;
  pv_bytes : Forall (fun b => 0 <= b < 256) (pi_data pi) }.

(** The bytes of the pipe, the next to be read first. *)
Definition pipe_queue (pi : pipe) : list Z :=
  (fun i => pi_data pi !!! Z.to_nat ((pi_nread pi + i) mod PIPESIZE)) <$> seqZ 0 (pipe_len pi).

Lemma pipe_len_range pi : 0 <= pipe_len pi < 2 ^ 32.
Proof. unfold pipe_len, u32. zlia. Qed.

Lemma length_queue pi : Z.of_nat (length (pipe_queue pi)) = pipe_len pi.
Proof. unfold pipe_queue. rewrite length_fmap, length_seqZ. pose proof (pipe_len_range pi). lia. Qed.

Lemma pipe_full_spec pi : pipe_inv pi -> pipe_full pi = (pipe_len pi =? PIPESIZE).
Proof.
  intros [_ Hr Hw Hl _]. unfold pipe_full, pipe_len, u32, PIPESIZE in *.
  destruct (Z.eqb_spec (pi_nwrite pi) ((pi_nread pi + 512) mod 4294967296)),
    (Z.eqb_spec ((pi_nwrite pi - pi_nread pi) mod 4294967296) 512); zlia.
Qed.

Lemma pipe_empty_spec pi : pipe_inv pi -> (pi_nread pi =? pi_nwrite pi) = (pipe_len pi =? 0).
Proof.
  intros [_ Hr Hw Hl _]. unfold pipe_len, u32 in *.
  destruct (Z.eqb_spec (pi_nread pi) (pi_nwrite pi)), (Z.eqb_spec ((pi_nwrite pi - pi_nread pi) mod 4294967296) 0); zlia.
Qed.

Lemma pipe_index pi : pipe_inv pi -> forall c, (Z.to_nat (c mod PIPESIZE) < length (pi_data pi))%nat.
Proof. intros [-> _ _ _ _] c. unfold PIPESIZE. zlia. Qed.

Lemma seqZ_one x : seqZ x 1 = [x].
Proof. done. Qed.

(** Adding a byte; the index of the counter is unaffected by its wrap because
    512 divides 2^32. *)
Lemma pipe_put_spec pi ch : pipe_inv pi -> 0 <= ch < 256 -> pipe_len pi < PIPESIZE ->
  pipe_inv (pipe_put ch pi) /\ pipe_queue (pipe_put ch pi) = pipe_queue pi ++ [ch].
Proof.
  intros Hi Hc Hl. pose proof (pipe_index pi Hi) as Hidx. destruct Hi as [Hs Hr Hw _ Hb].
  assert (pipe_len (pipe_put ch pi) = pipe_len pi + 1) as Hlen.
  { unfold pipe_len, pipe_put, u32, PIPESIZE in *. cbn. zlia. }
  pose proof (pipe_len_range pi) as Hge. split.
  - split; cbn; [by rewrite length_insert|done|unfold u32; zlia|rewrite Hlen; lia|].
    by apply Forall_insert.
  - unfold pipe_queue at 1. rewrite Hlen, seqZ_app, fmap_app by lia. f_equal.
    + unfold pipe_queue. apply list_fmap_ext. intros j i [-> Hi]%lookup_seqZ. cbn.
      rewrite list_lookup_total_insert_ne; [done|]. unfold pipe_len, u32, PIPESIZE in *. zlia.
    + rewrite Z.add_0_l, seqZ_one. cbn [fmap list_fmap pipe_put pi_data set_pi_nwrite set_pi_data pi_nread]. f_equal.
      replace ((pi_nread pi + pipe_len pi) mod PIPESIZE) with (pi_nwrite pi mod PIPESIZE).
      * by apply list_lookup_total_insert_eq.
      * unfold pipe_len, u32, PIPESIZE in *. zlia.
Qed.

(** Taking a byte. *)
Lemma pipe_get_spec pi : pipe_inv pi -> 0 < pipe_len pi ->
  pipe_inv (pipe_get pi) /\ pipe_queue pi = pipe_head pi :: pipe_queue (pipe_get pi) /\ 0 <= pipe_head pi < 256.
Proof.
  intros Hi Hl. pose proof (pipe_index pi Hi) as Hidx. destruct Hi as [Hs Hr Hw Hm Hb].
  assert (pipe_len (pipe_get pi) = pipe_len pi - 1) as Hlen.
  { unfold pipe_len, pipe_get, u32, PIPESIZE in *. cbn. zlia. }
  pose proof (pipe_len_range pi) as Hge.
  destruct (lookup_lt_is_Some_2 _ _ (Hidx (pi_nread pi))) as [b Hbl].
  assert (pipe_head pi = b) as Hh by (unfold pipe_head; by rewrite Hbl). split_and!.
  - split; cbn; [done|unfold u32; zlia|done|rewrite Hlen; lia|done].
  - unfold pipe_queue. rewrite Hlen. replace (pipe_len pi) with (1 + (pipe_len pi - 1)) at 1 by lia.
    rewrite seqZ_app, fmap_app by lia. change (seqZ 0 1) with [0]. cbn [fmap list_fmap app]. f_equal.
    + rewrite Z.add_0_r, Hh. by apply list_lookup_total_correct.
    + rewrite <- (fmap_add_seqZ 1 0), <- list_fmap_compose. apply list_fmap_ext. intros j i _. cbn.
      do 2 f_equal. unfold pipe_get, u32, PIPESIZE in *. cbn. zlia.
  - rewrite Hh. eapply Forall_lookup in Hb; [|exact Hbl]. cbn in Hb. lia.
  - rewrite Hh. eapply Forall_lookup in Hb; [|exact Hbl]. cbn in Hb. lia.
Qed.

(** ** The copying loops *)

Section Loops.
Context `{KI : KernelImage} `{IO : !ImageOk} `{OT : Others}.
Context (S : kst) (a : Z) (pr : nat) (l : list Z) (sh : shape) (U : gmap Z Z) (F : list Z).
Hypothesis Hpt : p_pagetable (getp S pr) = sh_root sh.
Hypothesis Hhigh : high_ok U.

(** The state inside the critical section. *)
Definition at_pipe (pi : pipe) (m : mst) : kst := setpipe a pi (set_m m S).

Lemma getpipe_at pi m : getpipe (at_pipe pi m) a = pi.
Proof. unfold at_pipe. by rewrite getpipe_setpipe, decide_True. Qed.

Lemma updpipe_at {B} f pi m (K : unit -> M kst B) : bind (updpipe a f) K (at_pipe pi m) = K tt (at_pipe (f pi) m).
Proof. unfold updpipe. rewrite bind_modify, getpipe_at. unfold at_pipe. by rewrite setpipe_setpipe. Qed.

Lemma memop_at {A B} (c : M mst A) (K : A -> M kst B) pi m x m' :
  c m = Ok x m' -> bind (memop c) K (at_pipe pi m) = K x (at_pipe pi m').
Proof. intros Hc. by rewrite (bind_memop _ _ (at_pipe pi m) _ _ Hc). Qed.

(** Fields the data transfer leaves alone. *)
Definition same_ends (pi pi' : pipe) : Prop :=
  pi_lock pi' = pi_lock pi /\ pi_readopen pi' = pi_readopen pi /\ pi_writeopen pi' = pi_writeopen pi.

(** The bytes [q] of the pipe go to user address [va]: [got] arrive and [c]
    leave the pipe.  A byte taken from the pipe is lost if the user cannot
    access the address it was meant for. *)
Definition read_res (m : mem) (va n : Z) (q : list Z) (got c : Z) : Prop :=
  (got = c /\ c = Z.min n (Z.of_nat (length q))) \/
  (c = got + 1 /\ 0 <= got < Z.min n (Z.of_nat (length q)) /\ uread m U (va + got) = None).

Lemma piperead_loop_spec n addr j pi m :
  uspace m l sh U F -> pipe_inv pi -> 0 <= addr -> 0 <= j -> addr + j + Z.of_nat n <= 2 ^ 64 ->
  exists r c pi' m',
    piperead_loop n a addr pr j (at_pipe pi m) = Ok r (at_pipe pi' m') /\
    uspace m' l sh U F /\ frame m m' F /\ pipe_inv pi' /\ same_ends pi pi' /\
    pipe_queue pi' = drop (Z.to_nat c) (pipe_queue pi) /\
    read_res (m_mem m) (addr + j) (Z.of_nat n) (pipe_queue pi) (r - j) c /\
    forall va, uread (m_mem m') U va =
      if (addr + j <=? va) && (va <? addr + r) then Some (pipe_queue pi !!! Z.to_nat (va - (addr + j)))
      else uread (m_mem m) U va.
Proof.
  revert j pi m. induction n as [|n IH]; intros j pi m Hu Hi Ha Hj Hb.
  { exists j, 0, pi, m. split_and!; [done|done|apply frame_refl|done|done|done|left; lia|].
    intros va. destruct (Z.leb_spec (addr + j) va), (Z.ltb_spec va (addr + j)); done || lia. }
  cbn [piperead_loop]. mstep. rewrite getpipe_at, (pipe_empty_spec pi Hi).
  pose proof (length_queue pi) as Hlq. pose proof (pipe_len_range pi) as Hlr.
  destruct (Z.eqb_spec (pipe_len pi) 0) as [He|He].
  { exists j, 0, pi, m. split_and!; [done|done|apply frame_refl|done|done|done|left; lia|].
    intros va. destruct (Z.leb_spec (addr + j) va), (Z.ltb_spec va (addr + j)); done || lia. }
  destruct (pipe_get_spec pi Hi ltac:(lia)) as (Hi' & Hq & Hhb).
  rewrite updpipe_at. mstep. change (getp (at_pipe ?p m) pr) with (getp S pr). rewrite Hpt, u64_small by lia.
  pose proof (copyout_byte m l sh U F (addr + j) (pipe_head pi) Hu Hhigh ltac:(lia) Hhb) as Hc.
  destruct (uread (m_mem m) U (addr + j)) as [b|] eqn:Eb.
  - destruct Hc as (m1 & Hm1 & Hu1 & Hf1 & Hr1). rewrite (memop_at _ _ _ _ _ _ Hm1). cbn [Z.eqb].
    destruct (IH (j + 1) (pipe_get pi) m1) as (r & c & pi' & m' & Hr & Hu' & Hf' & Hi2 & He2 & Hq2 & Hres & Hrd); [done|done|lia..|].
    rewrite Hr. assert (r - j = r - (j + 1) + 1) as Hrj by lia.
    assert (0 <= r - (j + 1) <= Z.of_nat (length (pipe_queue (pipe_get pi))) /\ 0 <= c) as [Hrange Hc0].
    { destruct Hres as [[-> ->]|(-> & ? & _)]; lia. }
    exists r, (c + 1), pi', m'. split_and!; [done|done|by eapply frame_trans|done| | | |].
    + unfold same_ends in *. cbn in He2. tauto.
    + rewrite Hq, Hq2. by replace (Z.to_nat (c + 1)) with (1 + Z.to_nat c)%nat by lia.
    + rewrite Hq. unfold read_res. cbn [length]. destruct Hres as [[Hg Hn]|(Hg & Hn & Hno)]; [left; lia|right]. split_and!; [lia..|].
      specialize (Hr1 (addr + j + (r - j))). destruct (Z.eqb_spec (addr + j) (addr + j + (r - j))); [lia|].
      rewrite <- Hr1, <- Hno. f_equal. lia.
    + intros va. rewrite Hrd, Hr1, Hq.
      destruct (Z.leb_spec (addr + (j + 1)) va), (Z.ltb_spec va (addr + r)), (Z.eqb_spec (addr + j) va),
        (Z.leb_spec (addr + j) va); cbn [andb]; try lia; try done.
      * f_equal. by replace (Z.to_nat (va - (addr + j))) with (1 + Z.to_nat (va - (addr + (j + 1))))%nat by lia.
      * by replace (Z.to_nat (va - (addr + j))) with 0%nat by lia.
  - destruct Hc as (m1 & Hm1 & Hu1 & Hf1 & Hr1). rewrite (memop_at _ _ _ _ _ _ Hm1). cbn [Z.eqb].
    exists j, 1, (pipe_get pi), m1. split_and!; [done..| | |].
    + by rewrite Hq.
    + rewrite Hq. unfold read_res. cbn [length]. right. split_and!; [lia..|]. rewrite <- Eb. f_equal. lia.
    + intros va. rewrite Hr1. destruct (Z.leb_spec (addr + j) va), (Z.ltb_spec va (addr + j)); done || lia.
Qed.

(** [bs] are the bytes that went in. *)
Definition write_res (m : mem) (va n : Z) (bs : list Z) : Prop :=
  (Z.of_nat (length bs) = n \/
   Z.of_nat (length bs) < n /\ uread m U (va + Z.of_nat (length bs)) = None) /\
  forall i b, bs !! i = Some b -> uread m U (va + Z.of_nat i) = Some b.

Lemma pipewrite_wait_room fuel pi m :
  pipe_inv pi -> pipe_len pi < PIPESIZE -> pipewrite_wait (Datatypes.S fuel) a pr (at_pipe pi m) = Ok true (at_pipe pi m).
Proof.
  intros Hi Hl. cbn [pipewrite_wait]. mstep. rewrite getpipe_at, pipe_full_spec by done.
  destruct (Z.eqb_spec (pipe_len pi) PIPESIZE); [lia|done].
Qed.

Lemma uread_byte m va b : uread m U va = Some b -> 0 <= b < 256.
Proof. unfold uread. destruct (upage U (va / PGSIZE)); [|done]. intros [= <-]. apply rd_range. Qed.

Lemma pipewrite_loop_spec n addr j pi m :
  uspace m l sh U F -> pipe_inv pi -> 0 <= addr -> 0 <= j -> addr + j + Z.of_nat n <= 2 ^ 64 ->
  pipe_len pi + Z.of_nat n <= PIPESIZE ->
  exists bs pi',
    pipewrite_loop n a addr pr j (at_pipe pi m) = Ok (Some (j + Z.of_nat (length bs))) (at_pipe pi' m) /\
    pipe_inv pi' /\ same_ends pi pi' /\ pipe_queue pi' = pipe_queue pi ++ bs /\
    write_res (m_mem m) (addr + j) (Z.of_nat n) bs.
Proof.
  intros Hu. revert j pi. induction n as [|n IH]; intros j pi Hi Ha Hj Hb Hroom.
  { exists [], pi. cbn [length Z.of_nat]. rewrite Z.add_0_r, app_nil_r. split_and!; [done..|]. split; [by left|done]. }
  cbn [pipewrite_loop]. rewrite (bind_Ok _ _ _ _ _ (pipewrite_wait_room _ pi m Hi ltac:(lia))). cbn [negb]. mstep.
  change (getp (at_pipe pi m) pr) with (getp S pr). rewrite Hpt, u64_small by lia.
  rewrite (memop_at _ _ _ _ _ _ (copyin_byte m l sh U F (addr + j) Hu Hhigh ltac:(lia))).
  destruct (uread (m_mem m) U (addr + j)) as [b|] eqn:Eb; cbn [fst snd Z.eqb hd].
  - destruct (pipe_put_spec pi b Hi (uread_byte _ _ _ Eb) ltac:(lia)) as [Hi' Hq'].
    rewrite updpipe_at.
    assert (pipe_len (pipe_put b pi) = pipe_len pi + 1) as Hl'.
    { rewrite <- !length_queue, Hq', length_app. cbn [length]. lia. }
    destruct (IH (j + 1) (pipe_put b pi)) as (bs & pi' & Hr & Hi2 & He & Hq & Hend & Hbs); [done|lia..|].
    exists (b :: bs), pi'. split_and!; [|done| | |].
    + rewrite Hr. cbn [length]. do 2 f_equal. lia.
    + unfold same_ends in *. cbn in He. tauto.
    + by rewrite Hq, Hq', <- app_assoc.
    + unfold write_res. cbn [length]. split.
      * destruct Hend as [?|[? Hn]]; [left; lia|right]. split; [lia|]. rewrite <- Hn. f_equal. lia.
      * intros [|i] c Hc; cbn in Hc; [injection Hc as ->; by rewrite Z.add_0_r|].
        rewrite <- (Hbs i c Hc). f_equal. lia.
  - exists [], pi. cbn [length Z.of_nat]. rewrite Z.add_0_r, app_nil_r. split_and!; [done..|].
    split; [right; cbn [length]; split; [lia|]; by rewrite Z.add_0_r|done].
Qed.
End Loops.

(** ** The system calls' halves *)

Section Calls.
Context `{KI : KernelImage} `{IO : !ImageOk} `{OT : Others}.

(** Process [pr] runs on this hart and pipe [a] is idle; [U] and [F] are its
    user memory. *)
Record pipe_ready (s : kst) (a : Z) (pr : nat) (pi : pipe) (l : list Z) (sh : shape) (U : gmap Z Z) (F : list Z) : Prop := {
  pr_hart : hart_ok (hart_of s);
  pr_cur : c_proc (mycpu (hart_of s)) = Some pr;
  pr_plocks : plocks_free s;
  pr_pipe : k_pipes s !! a = Some pi;
  pr_lock : lock_free (pi_lock pi);
  pr_inv : pipe_inv pi;
  pr_root : p_pagetable (getp s pr) = sh_root sh;
  pr_space : uspace (k_m s) l sh U F;
  pr_high : high_ok U }.

(** What a transfer leaves of the rest of the kernel: sleepers on [ch] run, the
    pipe holds [q], and its lock is free again. *)
Record pipe_done (s : kst) (a : Z) (pi : pipe) (ch : chan) (q : list Z) (l : list Z) (sh : shape) (U : gmap Z Z) (F : list Z)
    (s' : kst) : Prop := {
  pd_procs : forall j, getp s' j = if decide (j ∈ procs) then wake ch (getp s j) else getp s j;
  pd_pipe : exists pi', k_pipes s' = <[a := pi']> (k_pipes s) /\ same_ends pi pi' /\ pipe_inv pi' /\ pipe_queue pi' = q;
  pd_hart : hart_of s' = touched (hart_of s);
  pd_space : uspace (k_m s') l sh U F }.

Definition locked_pipe (h : hart) (pi : pipe) : pipe := set_pi_lock (locked_by h (pi_lock pi)) pi.

Lemma locked_pipe_inv h pi : pipe_inv pi -> pipe_inv (locked_pipe h pi) /\ pipe_queue (locked_pipe h pi) = pipe_queue pi.
Proof. intros []. by split. Qed.

Lemma pipe_enter {B} s a pr pi l sh U F (K : nat -> M kst B) :
  pipe_ready s a pr pi l sh U F -> let h := touched (hart_of s) in
  (let! p := curproc in acquire (pipelock a);; K p) s =
  K pr (at_pipe s a (locked_pipe h pi) (put_hart (pushed h) (k_m s))).
Proof.
  intros [] h. rewrite (bind_Ok _ _ _ _ _ (curproc_eq pr s pr_hart0 pr_cur0)).
  assert (lk_get (pipelock a) (put_hart h s) = pi_lock pi) as Hg by (cbn; unfold getpipe; cbn; by rewrite pr_pipe0).
  assert (lock_free (lk_get (pipelock a) (put_hart h s))) as Hl by (by rewrite Hg).
  rewrite (bind_Ok _ _ _ _ _ (acquire_eq (pipelock a) (put_hart h s) Hl)), Hg. f_equal.
  cbn. unfold at_pipe, locked_pipe. f_equal. unfold getpipe. cbn. by rewrite pr_pipe0.
Qed.

Lemma wakes_pipes ch l s : k_pipes (wakes ch l s) = k_pipes s /\ k_m (wakes ch l s) = k_m s.
Proof. by rewrite wakes_rest. Qed.

Lemma pipe_leave s a pr pi l sh U F ch pi' m r :
  pipe_ready s a pr pi l sh U F -> let h := touched (hart_of s) in
  m_hart m = pushed h -> same_ends (locked_pipe h pi) pi' -> pipe_inv pi' -> uspace m l sh U F ->
  exists s', (wakeup ch;; release (pipelock a);; ret r : M kst Z) (at_pipe s a pi' m) = Ok r s' /\
    pipe_done s a pi ch (pipe_queue pi') l sh U F s' /\ m_mem (k_m s') = m_mem m.
Proof.
  intros [] h Hm He Hi Hu. set (t := at_pipe s a pi' m). assert (hart_ok h) as Hh by (by apply touched_ok).
  assert (hart_of t = pushed h) as Ht by done.
  assert (hart_ok (hart_of t)) as Hht by (rewrite Ht; by apply pushed_ok).
  rewrite (bind_Ok _ _ _ _ _ (wakeup_eq ch t Hht pr_plocks0)), Ht, touched_pushed, <- Ht, hart_put_get by done.
  destruct (wakes_pipes ch procs t) as [Ep Em].
  assert (forall j, getp (wakes ch procs t) j = if decide (j ∈ procs) then wake ch (getp s j) else getp s j) as Eg
    by (intros j; rewrite getp_wakes by apply NoDup_seq; done).
  generalize dependent (wakes ch procs t). intros W Ep Em Eg.
  assert (lk_get (pipelock a) W = pi_lock pi') as Hg.
  { cbn. unfold getpipe. rewrite Ep. cbn. by rewrite lookup_insert_eq. }
  destruct He as (E1 & E2 & E3). cbn in E1, E2, E3.
  erewrite bind_Ok.
  2:{ apply (release_eq (pipelock a) _ h (pi_lock pi)); [done|done|by unfold hart_of; cbn; rewrite Em|by rewrite Hg, E1]. }
  eexists. split; [done|]. split; [|cbn; by rewrite Em]. split.
  - exact Eg.
  - eexists. cbn. rewrite Ep. cbn. rewrite insert_insert_eq. split; [done|]. unfold getpipe. cbn.
    rewrite Ep. cbn. rewrite lookup_insert_eq. cbn. unfold same_ends. cbn. destruct Hi. split_and!; done.
  - change (hart_of (lk_put (pipelock a) ?k (put_hart ?x ?y))) with (hart_of (put_hart x y)).
    by rewrite hart_get_put; unfold h; rewrite touched_twice.
  - change (k_m (lk_put (pipelock a) ?k (put_hart ?x ?y))) with (put_hart x (k_m y)). rewrite Em.
    apply (uspace_hart m); [done|by apply touched_ok].
Qed.

(** After a transfer the process can start the next one. *)
Lemma pipe_again s a pr pi l sh U F ch q s' :
  pipe_ready s a pr pi l sh U F -> pipe_done s a pi ch q l sh U F s' ->
  exists pi', pipe_ready s' a pr pi' l sh U F /\ pipe_queue pi' = q /\ same_ends pi pi'.
Proof.
  intros Hr [Hp (pi' & Ek & He & Hi & Hq) Hh Hu]. exists pi'. split_and!; [|done|done]. destruct Hr.
  assert (forall j f, (forall p, f (wake ch p) = f p) -> f (getp s' j) = (f (getp s j) : spinlock)) as Hf.
  { intros j f Hf. rewrite Hp. by case_decide. }
  split.
  - rewrite Hh. by apply touched_ok.
  - by rewrite Hh, touched_proc.
  - intros j. rewrite Hf by apply wake_lock. apply pr_plocks0.
  - rewrite Ek. apply lookup_insert_eq.
  - destruct He as (-> & _). done.
  - done.
  - rewrite Hp. case_decide; [|done]. unfold wake. by case_match.
  - done.
  - done.
Qed.

Lemma pipe_entered s a pr pi l sh U F :
  pipe_ready s a pr pi l sh U F -> let h := touched (hart_of s) in
  hart_ok h /\ uspace (put_hart (pushed h) (k_m s)) l sh U F /\ p_pagetable (getp s pr) = sh_root sh /\
  pipe_inv (locked_pipe h pi) /\ pipe_queue (locked_pipe h pi) = pipe_queue pi.
Proof.
  intros Hr h. destruct (locked_pipe_inv h pi (pr_inv _ _ _ _ _ _ _ _ Hr)).
  assert (hart_ok h) by apply touched_ok, Hr. split_and!; [done| |apply Hr|done|done].
  apply uspace_hart; [apply Hr|by apply pushed_ok].
Qed.

Lemma piperead_wait_data fuel s a pr pi m :
  pipe_inv pi -> 0 < pipe_len pi \/ pi_writeopen pi = 0 ->
  piperead_wait (S fuel) a pr (at_pipe s a pi m) = Ok true (at_pipe s a pi m).
Proof.
  intros Hi Hd. cbn [piperead_wait]. mstep. rewrite getpipe_at, pipe_empty_spec by done.
  destruct (Z.eqb_spec (pipe_len pi) 0), (Z.eqb_spec (pi_writeopen pi) 0); unfold truthy; try done.
  - by replace (pi_writeopen pi =? 0) with true by lia.
  - lia.
Qed.

Lemma piperead_spec s a pr pi l sh U F addr n :
  pipe_ready s a pr pi l sh U F -> 0 <= addr -> 0 <= n -> addr + n <= 2 ^ 64 ->
  pipe_queue pi <> [] \/ pi_writeopen pi = 0 ->
  exists r c s', piperead a addr n s = Ok r s' /\
    pipe_done s a pi (ChPipeWrite a) (drop (Z.to_nat c) (pipe_queue pi)) l sh U F s' /\
    read_res U (m_mem (k_m s)) addr n (pipe_queue pi) r c /\
    forall va, uread (m_mem (k_m s')) U va =
      if (addr <=? va) && (va <? addr + r) then Some (pipe_queue pi !!! Z.to_nat (va - addr))
      else uread (m_mem (k_m s)) U va.
Proof.
  intros Hr Ha Hn Hb Hd. unfold piperead. rewrite (pipe_enter s a pr pi l sh U F _ Hr).
  destruct (pipe_entered s a pr pi l sh U F Hr) as (Hh & Hu & Hpt & Hi & Hq).
  set (h := touched (hart_of s)) in *. set (m := put_hart (pushed h) (k_m s)) in *.
  rewrite (bind_Ok _ _ _ _ _ (piperead_wait_data patience s a pr _ m Hi
    ltac:(destruct Hd as [Hd|Hd]; [left|by right]; rewrite <- length_queue, Hq; by destruct (pipe_queue pi)))). cbn [negb].
  destruct (piperead_loop_spec s a pr l sh U F Hpt (pr_high _ _ _ _ _ _ _ _ Hr) (Z.to_nat n) addr 0 _ m Hu Hi)
    as (r & c & pi' & m' & Hl & Hu' & Hf & Hi' & He & Hq' & Hres & Hrd); [lia..|].
  rewrite (bind_Ok _ _ _ _ _ Hl). rewrite Z.add_0_r, Z2Nat.id, Z.sub_0_r, Hq in * by lia.
  destruct (pipe_leave s a pr pi l sh U F (ChPipeWrite a) pi' m' r Hr) as (s' & Hs' & Hdone & Hm'); [|done..|].
  { by eapply frame_pushed; [done| |exact Hf]. }
  exists r, c, s'. rewrite Hm', <- Hq'. by split_and!.
Qed.

Lemma pipewrite_spec s a pr pi l sh U F addr n :
  pipe_ready s a pr pi l sh U F -> 0 <= addr -> 0 <= n -> addr + n <= 2 ^ 64 ->
  Z.of_nat (length (pipe_queue pi)) + n <= PIPESIZE ->
  exists bs s', pipewrite a addr n s = Ok (Z.of_nat (length bs)) s' /\
    pipe_done s a pi (ChPipeRead a) (pipe_queue pi ++ bs) l sh U F s' /\
    write_res U (m_mem (k_m s)) addr n bs /\ m_mem (k_m s') = m_mem (k_m s).
Proof.
  intros Hr Ha Hn Hb Hroom. unfold pipewrite. rewrite (pipe_enter s a pr pi l sh U F _ Hr).
  destruct (pipe_entered s a pr pi l sh U F Hr) as (Hh & Hu & Hpt & Hi & Hq).
  set (h := touched (hart_of s)) in *. set (m := put_hart (pushed h) (k_m s)) in *.
  destruct (pipewrite_loop_spec s a pr l sh U F Hpt (pr_high _ _ _ _ _ _ _ _ Hr) (Z.to_nat n) addr 0 (locked_pipe h pi) m Hu Hi)
    as (bs & pi' & Hl & Hi' & He & Hq' & Hres); [lia..|rewrite <- length_queue, Hq; lia|].
  rewrite (bind_Ok _ _ _ _ _ Hl). cbn [Z.add]. rewrite Z.add_0_r, Z2Nat.id, Hq in * by lia.
  destruct (pipe_leave s a pr pi l sh U F (ChPipeRead a) pi' m (Z.of_nat (length bs)) Hr) as (s' & Hs' & Hdone & Hm'); [done..|].
  exists bs, s'. rewrite Hm', <- Hq'. by split_and!.
Qed.

Lemma pipewrite_wait_broken fuel s a pr pi h :
  let m := put_hart (pushed h) (k_m s) in
  pipe_inv pi -> hart_ok h -> lock_free (pi_lock pi) -> pipe_len pi = PIPESIZE ->
  pi_readopen pi = 0 \/ p_killed (getp s pr) <> 0 ->
  pipewrite_wait (S fuel) a pr (at_pipe s a (locked_pipe h pi) m) =
  Ok false (at_pipe s a pi (put_hart (touched h) (k_m s))).
Proof.
  intros m Hi Hh Hl Hfull Hend. cbn [pipewrite_wait]. mstep. destruct (locked_pipe_inv h pi Hi) as [Hi' _].
  rewrite getpipe_at, pipe_full_spec by done. change (pipe_len (locked_pipe h pi)) with (pipe_len pi).
  rewrite Hfull, Z.eqb_refl. mstep. change (getp (at_pipe s a ?p m) pr) with (getp s pr).
  assert ((pi_readopen (locked_pipe h pi) =? 0) || truthy (p_killed (getp s pr)) = true) as ->.
  { unfold truthy. cbn. destruct Hend as [->|Hk]; [done|].
    destruct (Z.eqb_spec (p_killed (getp s pr)) 0); [done|apply orb_true_r]. }
  erewrite bind_Ok.
  2:{ apply (release_eq (pipelock a) _ h (pi_lock pi)); [done|done|done|]. cbn. by rewrite getpipe_at. }
  cbn. unfold ret. f_equal. unfold at_pipe, getpipe. cbn. rewrite lookup_insert_eq. cbn.
  unfold setpipe, set_pipes. cbn. rewrite insert_insert_eq. by destruct pi.
Qed.

Lemma pipewrite_broken s a pr pi l sh U F addr n :
  pipe_ready s a pr pi l sh U F -> 0 < n -> Z.of_nat (length (pipe_queue pi)) = PIPESIZE ->
  pi_readopen pi = 0 \/ p_killed (getp s pr) <> 0 ->
  exists s', pipewrite a addr n s = Ok (-1) s' /\ (forall j, getp s' j = getp s j) /\
    k_pipes s' = k_pipes s /\ hart_of s' = touched (hart_of s) /\ m_mem (k_m s') = m_mem (k_m s).
Proof.
  intros Hr Hn Hfull Hend. unfold pipewrite. rewrite (pipe_enter s a pr pi l sh U F _ Hr).
  destruct (pipe_entered s a pr pi l sh U F Hr) as (Hh & _). destruct Hr. rewrite length_queue in Hfull.
  replace (Z.to_nat n) with (S (Z.to_nat (n - 1))) by lia. cbn [pipewrite_loop].
  rewrite bind_assoc, (bind_Ok _ _ _ _ _ (pipewrite_wait_broken patience s a pr pi _ pr_inv0 Hh pr_lock0 Hfull Hend)).
  cbn [negb]. mstep. eexists. split; [done|]. split_and!; [done| |by cbn; rewrite touched_twice|done].
  unfold at_pipe. cbn. by apply insert_id.
Qed.
End Calls.
