(* ===== verification/ProcMem.v ===== *)
(** * The memory of processes

    [proc_pagetable], [proc_freepagetable] and [freeproc] against the page
    table invariants: which pages a process owns, and that they all come back. *)

From S2P Require Import Prelude CString Layout Spinlock Kalloc State Output Vm Proc ProcSpec VmSpec AddrSpace UserMem UserFree UserCopy UserFork.

Section ProcMem.
Context `{KI : KernelImage} `{IO : !ImageOk}.

(** The two pages at the top of every user address space. *)
Record top_pages (tf : Z) (U : gmap Z Z) : Prop := {
  tp_trampoline : U !! (TRAMPOLINE / 4096) = Some (mkpte k_trampoline (Z.lor (Z.lor PTE_R PTE_X) PTE_V));
  tp_trapframe : U !! (TRAPFRAME / 4096) = Some (mkpte tf (Z.lor (Z.lor PTE_R PTE_W) PTE_V));
  tp_above : forall k, NUSER <= k -> k <> TRAMPOLINE / 4096 -> k <> TRAPFRAME / 4096 -> U !! k = None }.

(** The address space of a process with trapframe page [tf] and user frames [F]. *)
Definition pspace (m : mst) (l : list Z) (sh : shape) (U : gmap Z Z) (F : list Z) (tf : Z) : Prop :=
  uspace m l sh U F /\ top_pages tf U.

Lemma top_vpns :
  TRAMPOLINE / 4096 = NUSER + 1 /\ TRAPFRAME / 4096 = NUSER /\ NUSER = 67108862.
Proof. rewrite NUSER_eq. done. Qed.

Lemma trampoline_phys : 0 <= k_trampoline /\ k_trampoline mod PGSIZE = 0 /\ k_trampoline + 2 * PGSIZE <= 2 ^ 56.
Proof. destruct IO as [[? ?] ? ->]. klia. Qed.

(** The user cannot reach them. *)
Lemma top_high tf U : top_pages tf U -> 0 <= tf < 2 ^ 56 -> high_ok U.
Proof.
  intros [T1 T2 T3] Htf k Hk. unfold upage. destruct (_ <=? k); [done|]. destruct trampoline_phys as (H1 & H2 & H3).
  destruct (decide (k = TRAMPOLINE / 4096)) as [->|N1]; [rewrite T1, testbit_mkpte by (done || klia); done|].
  destruct (decide (k = TRAPFRAME / 4096)) as [->|N2]; [rewrite T2, testbit_mkpte by (done || klia); done|].
  by rewrite T3.
Qed.

Lemma uspace_high s l sh U F k v s' l' sh' :
  uspace s l sh U F -> NUSER <= k -> ext s l sh s' l' sh' ->
  pt_inv s' l' sh' (<[k := v]> U) -> uspace s' l' sh' (<[k := v]> U) F.
Proof.
  intros [] Hk He Hi. split; auto.
  - eapply frames_at_ext; [done|]. intros j Hj. rewrite lookup_insert_ne by lia. done.
  - intros j Hj. rewrite lookup_insert_ne by lia. auto.
  - intros p Hp. destruct (us_disj p Hp). by eapply ext_disj.
Qed.

Lemma uspace_delete s l sh U F k s' :
  uspace s l sh U F -> NUSER <= k -> pt_inv s' l sh (delete k U) -> uspace s' l sh (delete k U) F.
Proof.
  intros [] Hk Hi. split; auto.
  - eapply frames_at_ext; [done|]. intros j Hj. rewrite lookup_delete_ne by lia. done.
  - intros j Hj. rewrite lookup_delete_ne by lia. auto.
Qed.

(** Freeing a page table without user pages. *)
Lemma uvmfree_bare s l sh U :
  uspace s l sh U [] -> (forall k, NUSER <= k -> U !! k = None) ->
  exists s' l', uvmfree (sh_root sh) 0 s = Ok tt s' /\ kmem_inv s' l' /\ l' ≡ₚ l ++ tables sh /\
    frame s s' (l ++ tables sh).
Proof.
  intros Hu Hhi. destruct (uvmfree_spec s l sh U [] 0 Hu Hhi) as (s' & Hs & l' & Hk & Hl & Hf);
    [done|klia|].
  exists s', l'. split_and!; [done|done|by rewrite Hl, Permutation_app_comm|].
  eapply frame_weaken; [done|]. intros p Hp. apply elem_of_app. by right.
Qed.

Lemma not_V_perm perm : 0 <= perm < 1024 -> Z.testbit perm 1 = true ->
  0 <= Z.lor perm PTE_V < 1024 /\ Z.lor perm PTE_V <> PTE_V.
Proof.
  intros Hp Hb. split; [by apply (lor_range _ _ 10)|]. intros He.
  apply (f_equal (fun v => Z.testbit v 1)) in He. by rewrite Z.lor_spec, Hb in He.
Qed.

Lemma flags_not_V pa perm : 0 <= pa < 2 ^ 56 -> 0 <= perm < 1024 -> Z.testbit perm 1 = true ->
  PTE_FLAGS (mkpte pa (Z.lor perm PTE_V)) <> PTE_V.
Proof. intros Hpa Hp Hb. destruct (not_V_perm perm Hp Hb). by rewrite mkpte_flags. Qed.

(** The two pages at the top are in the same level-0 table. *)
Definition at_top (v : Z) : Prop := v / 512 = TRAPFRAME / 4096 / 512.

Lemma top_tables sh : leads at_top sh -> Z.of_nat (length (tables sh)) <= 3.
Proof. intros H. apply (tables_le 0 (TRAPFRAME / 4096 / 512)); [lia|]. eapply leads_weaken; [exact H|]. intros v. by right. Qed.

(** Building the page table of process [i], whose trapframe page is [tf]: it
    takes the pages of the tables from the free list, or gives all back when
    there are not more than 3. *)
Lemma proc_pagetable_spec s l i tf :
  kmem_inv (k_m s) l -> p_trapframe (getp s i) = tf -> page_ok tf -> (tf ∉ l) ->
  exists r m, proc_pagetable i s = Ok r (set_m m s) /\ frame (k_m s) m l /\
    ((exists l' sh U, r = sh_root sh /\ r <> 0 /\ pspace m l' sh U [] tf /\ l' ++ tables sh ≡ₚ l /\ leads at_top sh) \/
     (r = 0 /\ exists l', kmem_inv m l' /\ l' ≡ₚ l /\ Z.of_nat (length l) <= 3)).
Proof.
  intros Hk Htf Hp Hl. unfold proc_pagetable. destruct top_vpns as (Etr & Etf & En).
  destruct trampoline_phys as (Ht1 & Ht2 & Ht3). pose proof (page_ok_pos _ Hp) as [Hp1 Hp2].
  destruct l as [|x l].
  { destruct (uvmcreate_fail (k_m s)) as (m & Hm & Hkm & Hf); [done|].
    rewrite (bind_memop _ _ _ _ _ Hm). exists 0, m. split_and!; [done|done|]. right. split; [done|]. exists []. split_and!; [done|done|cbn; lia]. }
  destruct (uvmcreate_spec (k_m s) x l Hk) as (m1 & Hm1 & Hu1 & Hf1).
  rewrite (bind_memop _ _ _ _ _ Hm1).
  pose proof (ki_pages _ _ Hk) as [Hx _]%Forall_cons. apply page_ok_nz in Hx.
  destruct (Z.eqb_spec x 0); [done|].
  apply (frame_weaken _ _ _ (x :: l)) in Hf1; [|intros p Hpx; apply list_elem_of_singleton in Hpx; subst; left].
  destruct (mappages_at m1 l (empty_shape x) ∅ TRAMPOLINE k_trampoline (Z.lor PTE_R PTE_X))
    as (r2 & m2 & l2 & sh2 & Hm2 & He2 & Hc2 & Hsv2); [apply Hu1|klia|done|done|done|done|done|done|].
  cbn [sh_root empty_shape] in Hm2. rewrite (bind_memop _ _ (set_m m1 s) _ _ Hm2).
  assert (l2 ++ tables sh2 ≡ₚ x :: l) as Hpg2.
  { rewrite (ex_pages _ _ _ _ _ _ He2). apply Permutation_app_comm. }
  assert (frame (k_m s) m2 (x :: l)) as Hf2.
  { eapply frame_trans; [done|]. eapply frame_weaken; [apply He2|]. intros p Hpx.
    by rewrite <- Hpg2, (ex_pages _ _ _ _ _ _ He2). }
  assert (leads at_top sh2) as Hld2 by (apply Hsv2; [intros v <-; done|split; intros k [q Hq]; cbn in Hq; by apply lookup_empty_Some in Hq]).
  pose proof (ex_root _ _ _ _ _ _ He2) as Hr2. cbn [sh_root empty_shape] in Hr2.
  destruct Hc2 as [[-> Hi2]|(-> & -> & Hi2)]; cbn [Z.ltb Z.compare].
  2:{ destruct (uvmfree_bare m2 [] sh2 ∅) as (m3 & l3 & Hm3 & Hk3 & Hl3 & Hf3);
        [by eapply uspace_ext|done|].
      rewrite Hr2 in Hm3. rewrite (bind_memop _ _ (set_m m2 (set_m m1 s)) _ _ Hm3). exists 0, m3.
      split_and!; [done| |right; split; [done|exists l3; split_and!; [done|by rewrite Hl3|rewrite <- Hpg2; by apply top_tables]]].
      eapply frame_trans; [done|]. eapply frame_weaken; [done|]. intros p. by rewrite Hpg2. }
  eassert (uspace m2 l2 sh2 _ []) as Hu2 by (eapply uspace_high; [exact Hu1| |exact He2|exact Hi2]; lia).
  set (U2 := <[TRAMPOLINE / 4096 := _]> _) in *. mstep.
  change (p_trapframe (getp (set_m m2 (set_m m1 s)) i)) with (p_trapframe (getp s i)). rewrite Htf.
  assert (tf ∉ l2 ++ tables sh2) as Htf2 by (by rewrite Hpg2).
  destruct (mappages_at m2 l2 sh2 U2 TRAPFRAME tf (Z.lor PTE_R PTE_W))
    as (r3 & m3 & l3 & sh3 & Hm3 & He3 & Hc3 & Hsv3); [done|klia|done|klia|done|klia|done| |].
  { subst U2. rewrite lookup_insert_ne by lia. apply lookup_empty. }
  rewrite Hr2 in Hm3. rewrite (bind_memop _ _ (set_m m2 (set_m m1 s)) _ _ Hm3).
  assert (l3 ++ tables sh3 ≡ₚ x :: l) as Hpg3 by (by rewrite (ex_pages _ _ _ _ _ _ He3)).
  assert (frame (k_m s) m3 (x :: l)) as Hf3.
  { eapply frame_trans; [done|]. eapply frame_weaken; [apply He3|]. intros p. by rewrite Hpg2. }
  assert (leads at_top sh3) as Hld3 by (apply Hsv3; [by intros v <-|done]).
  pose proof (ex_root _ _ _ _ _ _ He3) as Hr3.
  destruct Hc3 as [[-> Hi3]|(-> & -> & Hi3)]; cbn [Z.ltb Z.compare].
  - exists x, m3. split_and!; [done|done|]. left. exists l3, sh3.
    eassert (uspace m3 l3 sh3 _ []) as Hu3 by (eapply uspace_high; [exact Hu2| |exact He3|exact Hi3]; lia).
    eexists. split_and!; [congruence|done| |done|done]. split; [exact Hu3|]. subst U2. split.
    + rewrite lookup_insert_ne by lia. apply lookup_insert_eq.
    + apply lookup_insert_eq.
    + intros k Hk1 Hk2 Hk3. rewrite !lookup_insert_ne by lia. apply lookup_empty.
  - assert (uspace m3 [] sh3 U2 []) as Hu3 by (by eapply uspace_ext).
    destruct (uvmunmap_keep m3 [] sh3 U2 TRAMPOLINE (mkpte k_trampoline (Z.lor (Z.lor PTE_R PTE_X) PTE_V)))
      as (m4 & Hm4 & Hi4 & Hf4); [done|klia|done|apply lookup_insert_eq|by apply flags_not_V; [klia|..]|].
    rewrite Hr3, Hr2 in Hm4. rewrite (bind_memop _ _ (set_m m3 (set_m m2 (set_m m1 s))) _ _ Hm4).
    eassert (uspace m4 [] sh3 _ []) as Hu4 by (eapply uspace_delete; [exact Hu3| |exact Hi4]; lia).
    destruct (uvmfree_bare m4 [] sh3 (delete (TRAMPOLINE / 4096) U2)) as (m5 & l5 & Hm5 & Hk5 & Hl5 & Hf5);
      [done|by intros k _; subst U2; rewrite delete_insert_eq|].
    rewrite Hr3, Hr2 in Hm5. rewrite (bind_memop _ _ (set_m m4 (set_m m3 (set_m m2 (set_m m1 s)))) _ _ Hm5).
    exists 0, m5. split_and!; [done| |right; split; [done|exists l5; split_and!; [done|by rewrite Hl5|rewrite <- Hpg3; by apply top_tables]]].
    eapply frame_trans; [exact Hf3|]. eapply frame_trans; [eapply frame_weaken; [exact Hf4|]|
      eapply frame_weaken; [exact Hf5|]]; intros p; by rewrite <- Hpg3.
Qed.

Lemma root_nonzero s l sh U F : uspace s l sh U F -> truthy (sh_root sh) = true.
Proof.
  intros Hu. pose proof (vi_pages _ _ _ (pi_vm _ _ _ _ (us_pt _ _ _ _ _ Hu))) as [Hr _]%Forall_cons.
  apply page_ok_nz in Hr. unfold truthy. by destruct (Z.eqb_spec (sh_root sh) 0).
Qed.

(** Freeing the address space of a process of [sz] bytes. *)
Lemma proc_freepagetable_spec s l sh U F tf sz :
  pspace (k_m s) l sh U F tf -> page_ok tf -> length F = npg sz -> 0 <= sz <= TRAPFRAME ->
  exists m l', proc_freepagetable (sh_root sh) sz s = Ok tt (set_m m s) /\
    kmem_inv m l' /\ l' ≡ₚ F ++ tables sh ++ l /\ frame (k_m s) m (F ++ tables sh).
Proof.
  intros [Hu [T1 T2 T3]] Hp Hlen Hsz. unfold proc_freepagetable. destruct top_vpns as (Etr & Etf & En).
  destruct trampoline_phys as (Ht1 & Ht2 & Ht3). pose proof (page_ok_pos _ Hp) as [Hp1 Hp2].
  destruct (uvmunmap_keep _ _ _ _ TRAMPOLINE _ (us_pt _ _ _ _ _ Hu) ltac:(klia) eq_refl T1)
    as (m1 & Hm1 & Hi1 & Hf1); [by apply flags_not_V; [klia|..]|].
  rewrite (bind_memop _ _ _ _ _ Hm1).
  eassert (uspace m1 l sh _ F) as Hu1 by (eapply uspace_delete; [exact Hu| |exact Hi1]; lia).
  destruct (uvmunmap_keep _ _ _ _ TRAPFRAME (mkpte tf (Z.lor (Z.lor PTE_R PTE_W) PTE_V)) Hi1 ltac:(klia) eq_refl)
    as (m2 & Hm2 & Hi2 & Hf2); [by rewrite lookup_delete_ne by lia|by apply flags_not_V; [klia|..]|].
  rewrite (bind_memop _ _ (set_m m1 s) _ _ Hm2).
  eassert (uspace m2 l sh _ F) as Hu2 by (eapply uspace_delete; [exact Hu1| |exact Hi2]; lia).
  destruct (uvmfree_spec m2 l sh _ F sz Hu2) as (m3 & Hm3 & l3 & Hk3 & Hl3 & Hf3); [|done|done|].
  { intros k Hk. destruct (decide (k = TRAPFRAME / 4096)) as [->|]; [apply lookup_delete_eq|].
    rewrite lookup_delete_ne by done.
    destruct (decide (k = TRAMPOLINE / 4096)) as [->|]; [apply lookup_delete_eq|].
    rewrite lookup_delete_ne by done. by apply T3. }
  exists m3, l3. split_and!; [exact (memop_Ok _ (set_m m2 (set_m m1 s)) _ _ Hm3)|done|by rewrite Hl3, app_assoc|].
  eapply frame_trans; [eapply frame_weaken; [exact Hf1|]|eapply frame_trans; [eapply frame_weaken; [exact Hf2|]|exact Hf3]];
    intros p Hp'; apply elem_of_app; by right.
Qed.

(** What freeproc leaves in the slot of [p]. *)
Definition freed_proc (p : proc) : proc :=
  Proc (p_lock p) UNUSED None None 0 0 0 (p_kstack p) 0 0 0 (p_context p) (p_ofile p) (p_cwd p)
    (<[0%nat := 0]> (p_name p)).

(** The pages a process owns: its trapframe, its page tables and its frames. *)
Record owns (m : mst) (l : list Z) (p : proc) (sh : shape) (U : gmap Z Z) (F : list Z) : Prop := {
  ow_root : p_pagetable p = sh_root sh;
  ow_space : pspace m l sh U F (p_trapframe p);
  ow_size : length F = npg (p_sz p) /\ 0 <= p_sz p <= TRAPFRAME;
  ow_tf : page_ok (p_trapframe p);
  ow_tf_fresh : (p_trapframe p ∉ l) /\ (p_trapframe p ∉ tables sh) /\ (p_trapframe p ∉ F) }.

Lemma freeproc_spec s l i sh U F :
  owns (k_m s) l (getp s i) sh U F ->
  exists m l', freeproc i s = Ok tt (setp i (freed_proc (getp s i)) (set_m m s)) /\
    kmem_inv m l' /\ l' ≡ₚ p_trapframe (getp s i) :: F ++ tables sh ++ l /\
    frame (k_m s) m (p_trapframe (getp s i) :: F ++ tables sh).
Proof.
  intros [Hr [Hu Ht] [Hlen Hsz] Hp (Hf1 & Hf2 & Hf3)]. unfold freeproc. mstep.
  set (p := getp s i) in *. set (tf := p_trapframe p) in *.
  assert (truthy tf = true) as -> by (unfold truthy; apply page_ok_nz in Hp; destruct (Z.eqb_spec tf 0); done).
  destruct (uspace_kfree _ _ _ _ _ tf Hu) as (m1 & Hm1 & Hu1 & Hfr1); [done..|].
  rewrite (bind_memop _ _ _ _ _ Hm1). unfold updp at 1. mstep.
  set (s1 := setp i _ (set_m m1 s)).
  destruct (proc_freepagetable_spec s1 (tf :: l) sh U F tf (p_sz p)) as (m2 & l2 & Hm2 & Hk2 & Hl2 & Hfr2); [done..|].
  assert (truthy (p_pagetable p) = true) as -> by (rewrite Hr; eapply root_nonzero, Hu).
  rewrite Hr, (bind_Ok _ _ _ _ _ Hm2), !updp_twice. unfold updp. mstep.
  exists m2, l2. split_and!; [|done| |].
  - unfold s1. change (set_m m2 (setp i ?q (set_m m1 s))) with (setp i q (set_m m2 s)).
    rewrite !getp_setp, !decide_True, !setp_setp by done. unfold modify.
    by rewrite getp_setp, decide_True, setp_setp.
  - rewrite Hl2. by rewrite <- !Permutation_middle.
  - eapply frame_trans; eapply frame_weaken; [exact Hfr1| |exact Hfr2|]; intros q Hq.
    + apply list_elem_of_singleton in Hq as ->. left.
    + by right.
Qed.
End ProcMem.

(** ** allocproc and the failure path of fork

    A process slot is filled with pages taken from the free list, or the call
    fails and every page is back. *)

Section ProcAlloc.
Context `{KI : KernelImage} `{IO : !ImageOk}.

(** *** allocpid *)

Definition next_pid (s : kst) : kst :=
  set_pt (set_pt_nextpid (s32 (pt_nextpid (k_pt s) + 1)) (k_pt s)) s.

Lemma allocpid_eq s :
  hart_ok (hart_of s) -> lock_free (pt_pid_lock (k_pt s)) ->
  allocpid s = Ok (pt_nextpid (k_pt s)) (next_pid (put_hart (touched (hart_of s)) s)).
Proof.
  intros Hh Hl. unfold allocpid. rewrite (bind_Ok _ _ _ _ _ (acquire_eq pidlock s Hl)). mstep.
  erewrite bind_Ok by (by apply (release_eq pidlock _ (hart_of s) (pt_pid_lock (k_pt s)))). done.
Qed.

(** *** Finding a slot *)

Definition unused_slot (l : list nat) (s : kst) : option nat :=
  head (filter (fun i => p_state (getp s i) = UNUSED) l).

Lemma allocproc_scan_spec l s :
  hart_ok (hart_of s) -> plocks_free s ->
  exists s', quiet s s' /\ allocproc_scan l s =
    match unused_slot l s with
    | Some i => Ok (Some i) (in_plock i s')
    | None => Ok None s'
    end.
Proof.
  revert s. induction l as [|i l IH]; intros s Hh Hl; [by exists s|].
  unfold unused_slot. cbn [allocproc_scan]. rewrite filter_cons.
  rewrite (bind_Ok _ _ _ _ _ (acquire_plock i s (Hl i))). mstep. rewrite state_in_plock.
  destruct (decide (p_state (getp s i) = UNUSED)) as [Hu|Hu]; cbn [head]; [by exists s|].
  rewrite (bind_Ok _ _ _ _ _ (release_visited i s Hh (Hl i))).
  pose proof (visited_quiet i s) as Hv.
  destruct (IH (visited i s)) as (s' & Hq & Hr); [by eapply quiet_hart_ok|by eapply quiet_locks|].
  exists s'. split; [by etransitivity|]. rewrite Hr. unfold unused_slot.
  by erewrite (list_filter_iff _ (fun j => p_state (getp s j) = UNUSED)) by (intros j; by rewrite (quiet_getp s)).
Qed.

(** Leaving the critical section of slot [j]. *)
Lemma release_slot j h k t :
  hart_ok h -> lock_free k -> hart_of t = pushed h -> p_lock (getp t j) = locked_by h k ->
  release (plock j) t = Ok tt (setp j (set_p_lock k (getp t j)) (put_hart (touched h) t)).
Proof. intros Hh Hk Ht Hl. by rewrite (release_eq (plock j) t h k). Qed.

(** *** allocproc *)

(** The slot once the pid and the trapframe are set; it is still locked. *)
Definition started_proc (pid tf : Z) (p : proc) : proc := set_p_trapframe tf (set_p_pid pid p).

(** The slot allocproc returns, locked, with page table [r]. *)
Definition alloced_proc (pid tf r : Z) (p : proc) : proc :=
  set_p_context (Context k_forkret (p_kstack p + PGSIZE) 0 0 0 0 0 0 0 0 0 0 0 0)
    (set_p_pagetable r (started_proc pid tf p)).

(** What a call that found slot [j] leaves: [s1] is the state in which the scan
    stopped, [l] the free list. *)
Definition alloc_outcome (s1 : kst) (l : list Z) (j : nat) (o : outcome kst (option nat)) : Prop :=
  let pid := pt_nextpid (k_pt s1) in
  (exists m tf l' sh U,
     o = Ok (Some j) (setp j (alloced_proc pid tf (sh_root sh) (getp (in_plock j s1) j))
                        (set_m m (next_pid (in_plock j s1)))) /\
     frame (k_m (in_plock j s1)) m l /\ pspace m l' sh U [] tf /\ page_ok tf /\
     (tf ∉ l') /\ (tf ∉ tables sh) /\ tf :: l' ++ tables sh ≡ₚ l /\ leads at_top sh) \/
  (exists m l' p, o = Ok None (setp j p (set_m m (next_pid (in_plock j s1)))) /\
     m_hart m = touched (hart_of s1) /\ only_pages (m_mem (k_m s1)) l (m_mem m) /\
     kmem_inv m l' /\ l' ≡ₚ l /\ p_lock p = p_lock (getp s1 j) /\ p_state p = UNUSED /\
     p_ofile p = p_ofile (getp s1 j) /\ (p_sz (getp s1 j) = 0 -> p_sz p = 0) /\ Z.of_nat (length l) <= 4).

Lemma release_final j h k P m S :
  hart_ok h -> lock_free k -> m_hart m = pushed h -> p_lock P = locked_by h k ->
  release (plock j) (setp j P (set_m m S)) = Ok tt (setp j (set_p_lock k P) (set_m (put_hart (touched h) m) S)).
Proof.
  intros Hh Hk Hm HP. rewrite (release_slot j h k); [|done..|by rewrite getp_setp, decide_True].
  rewrite getp_setp, decide_True, put_hart_setp, setp_setp by done. done.
Qed.

Lemma updp_final {B} j P m S f (k : unit -> M kst B) :
  bind (updp j f) k (setp j P (set_m m S)) = k tt (setp j (f P) (set_m m S)).
Proof. unfold updp. rewrite bind_modify. by rewrite getp_setp, decide_True, setp_setp. Qed.

Lemma memop_final {A B} j P m S (c : M mst A) (k : A -> M kst B) a m' :
  c m = Ok a m' -> bind (memop c) k (setp j P (set_m m S)) = k a (setp j P (set_m m' S)).
Proof. intros Hc. by rewrite (bind_memop _ _ (setp j P (set_m m S)) _ _ Hc). Qed.

Lemma kalloc_pushed h m l :
  hart_ok h -> m_hart m = pushed h -> kmem_inv m l ->
  match l with
  | [] => kalloc m = Ok 0 m
  | x :: l' => exists m', kalloc m = Ok x m' /\ kmem_inv m' l' /\ m_hart m' = pushed h /\ frame m m' [x]
  end.
Proof.
  intros Hh Hm Hk. pose proof (kalloc_inv m l Hk) as Ha. rewrite Hm, touched_pushed in Ha by done.
  destruct l as [|x l].
  - rewrite Ha, <- Hm. by destruct m.
  - destruct Ha as (m' & Ha & Hk' & Hh' & Hm' & Hp'). exists m'. split_and!; [done..|].
    split; [left; congruence|done|]. unfold mem_is in Hm'. rewrite Hm'. apply memset_page_only.
Qed.
(** freeproc of a slot whose page table could not be built. *)
Lemma freeproc_bare j P m S l :
  kmem_inv m l -> page_ok (p_trapframe P) -> (p_trapframe P ∉ l) -> p_pagetable P = 0 ->
  exists m', freeproc j (setp j P (set_m m S)) = Ok tt (setp j (freed_proc P) (set_m m' S)) /\
    kmem_inv m' (p_trapframe P :: l) /\ frame m m' [p_trapframe P].
Proof.
  intros Hk Hp Hl Hpt. destruct (kfree_frame m l (p_trapframe P) Hk Hp Hl) as (m' & Hm & Hk' & Hf).
  exists m'. split_and!; [|done..]. unfold freeproc. mstep. rewrite getp_setp, decide_True by done.
  assert (truthy (p_trapframe P) = true) as ->.
  { apply page_ok_nz in Hp. unfold truthy. by destruct (Z.eqb_spec (p_trapframe P) 0). }
  rewrite (memop_final _ _ _ _ _ _ _ _ Hm), updp_final, Hpt. change (truthy 0) with false. cbv iota.
  mstep. rewrite !updp_final. unfold updp, modify. by rewrite getp_setp, decide_True, setp_setp.
Qed.

Lemma allocproc_found_spec s1 l j :
  hart_ok (hart_of s1) -> lock_free (p_lock (getp s1 j)) -> p_state (getp s1 j) = UNUSED ->
  lock_free (pt_pid_lock (k_pt s1)) -> kmem_inv (k_m s1) l ->
  alloc_outcome s1 l j (allocproc_found j (in_plock j s1)).
Proof.
  intros Hh Hl Hu Hp Hk. set (s2 := in_plock j s1). set (h := hart_of s1) in *.
  assert (hart_of s2 = pushed h) as Hh2 by done.
  assert (hart_ok (hart_of s2)) as Hok2 by (rewrite Hh2; by apply pushed_ok).
  assert (kmem_inv (k_m s2) l) as Hk2 by (by apply (kmem_inv_hart (k_m s1))).
  unfold allocproc_found. rewrite (bind_Ok _ _ _ _ _ (allocpid_eq s2 Hok2 Hp)).
  rewrite Hh2, touched_pushed, <- Hh2, hart_put_get by done.
  set (pid := pt_nextpid (k_pt s2)). set (S := next_pid s2).
  unfold updp at 1. mstep. change (getp S j) with (getp s2 j). rewrite <- (set_m_id S).
  pose proof (kalloc_pushed h (k_m S) l Hh Hh2 Hk2) as Ha. change (k_m S) with (k_m s2) in *.
  assert (forall f, p_lock (set_p_trapframe f (set_p_pid pid (getp s2 j))) = locked_by h (p_lock (getp s1 j))) as Hlk.
  { intros f. subst s2. by rewrite getp_in_plock. }
  assert (getp s2 j = set_p_lock (locked_by h (p_lock (getp s1 j))) (getp s1 j)) as Hg2 by apply getp_in_plock.
  assert (p_state (getp s2 j) = UNUSED) as Hu2 by (by rewrite Hg2).
  destruct l as [|tf l].
  { rewrite (memop_final _ _ _ _ _ _ _ _ Ha), updp_final. cbn [Z.eqb].
    erewrite bind_Ok by (by apply (release_final j h (p_lock (getp s1 j)))). right.
    eexists _, [], _. split_and!; [done|done|apply only_pages_refl|by apply (kmem_inv_hart (k_m s1)); [|apply touched_ok]|done|done|exact Hu2|by cbn; rewrite Hg2|by cbn; rewrite Hg2|cbn; lia]. }
  destruct Ha as (m1 & Hm1 & Hk1 & Hh1 & Hf1).
  rewrite (memop_final _ _ _ _ _ _ _ _ Hm1), updp_final.
  pose proof (ki_pages _ _ Hk2) as [Htf _]%Forall_cons. pose proof (page_ok_nz _ Htf) as Hnz.
  pose proof (ki_nodup _ _ Hk2) as [Hfresh _]%NoDup_cons.
  destruct (Z.eqb_spec tf 0); [done|].
  destruct (proc_pagetable_spec (setp j (set_p_trapframe tf (set_p_pid pid (getp s2 j))) (set_m m1 S)) l j tf)
    as (r & m2 & Hr & Hf2 & Hc); [done|by rewrite getp_setp, decide_True|done|done|].
  rewrite (bind_Ok _ _ _ _ _ Hr).
  change (set_m m2 (setp j ?P (set_m m1 S))) with (setp j P (set_m m2 S)). rewrite updp_final.
  change (k_m (setp j ?P (set_m m1 S))) with m1 in Hf2.
  assert (frame (k_m s2) m2 (tf :: l)) as Hf.
  { eapply frame_trans; eapply frame_weaken; [exact Hf1| |exact Hf2|]; intros q Hq; [|by right].
    apply list_elem_of_singleton in Hq as ->. left. }
  destruct Hc as [(l' & sh & U & -> & Hnz2 & Hsp & Hpg & Hld)|(-> & l' & Hk' & Hpg & Hfew)].
  - destruct (Z.eqb_spec (sh_root sh) 0); [done|]. rewrite updp_final. left.
    assert (tf ∉ l' ++ tables sh) as Hn by (by rewrite Hpg).
    exists m2, tf, l', sh, U. split_and!; [done|done|done|done| | |by rewrite Hpg|done]; in_list.
  - cbn [Z.eqb]. destruct (freeproc_bare j (set_p_pagetable 0 (set_p_trapframe tf (set_p_pid pid (getp s2 j)))) m2 S l')
      as (m3 & Hm3 & Hk3 & Hf3); [done|done|by cbn; rewrite Hpg|done|].
    rewrite (bind_Ok _ _ _ _ _ Hm3).
    assert (m_hart m3 = pushed h) as Hh3.
    { eapply frame_pushed; [done| |exact Hf3]. by eapply frame_pushed; [done| |exact Hf]. }
    erewrite bind_Ok by (apply (release_final j h (p_lock (getp s1 j))); [done..|]; apply (Hlk tf)).
    right. eexists _, (tf :: l'), _. split_and!; [done|done| | |by rewrite Hpg|done|done|by cbn; rewrite Hg2|done|cbn [length]; lia].
    + change (m_mem (k_m s1)) with (m_mem (k_m s2)). cbn [m_mem put_hart].
      eapply only_pages_weaken; [eapply only_pages_trans; [apply Hf|apply Hf3]|].
      intros q. rewrite elem_of_app, list_elem_of_singleton. intros [?| ->]; [done|left].
    + apply kmem_inv_hart; [done|by apply touched_ok].
Qed.
End ProcAlloc.
