(* ===== verification/Fork.v ===== *)
(** * fork

    What fork() does, on success and on failure: the child's memory, slot and
    files, or the return of every page. *)

From S2P Require Import Prelude CString Layout Spinlock Kalloc State Output Vm Proc SleepLock Bio Log Fs Pipe Console File ProcFs ProcSpec VmSpec AddrSpace UserMem UserFree UserCopy UserFork ProcMem.

Section Fork.
Context `{KI : KernelImage} `{IO : !ImageOk} `{OT : Others} `{BD : BlockDev}.

(** ** Taking references *)

Definition bump_file (f : nat) (s : kst) : kst := setf f (set_f_ref (f_ref (getf s f) + 1) (getf s f)) s.
Definition bump_inode (c : nat) (s : kst) : kst := seti c (set_i_ref (i_ref (geti s c) + 1) (geti s c)) s.

Lemma filedup_pushed h f t :
  hart_ok h -> hart_of t = pushed h -> lock_free (ft_lock (k_ft t)) -> 1 <= f_ref (getf t f) ->
  filedup f t = Ok f (bump_file f t).
Proof.
  intros Hh Ht Hl Hr. unfold filedup.
  rewrite (bind_Ok _ _ _ _ _ (acquire_eq ftablelock t Hl)). mstep.
  change (getf (lk_put ftablelock ?k (put_hart ?h t)) f) with (getf t f).
  destruct (Z.ltb_spec (f_ref (getf t f)) 1); [lia|]. unfold updf. mstep.
  pose proof (pushed_ok h Hh) as Hok. rewrite <- Ht in Hok.
  erewrite bind_Ok by (by apply (release_eq ftablelock _ (hart_of t) (ft_lock (k_ft t)))).
  rewrite Ht, touched_pushed by done. unfold ret. f_equal. rewrite <- Ht. by destruct t as [[] [] ? ? ? ? ? ? [] ? ? ? ? ? ?].
Qed.

Lemma idup_pushed h c t :
  hart_ok h -> hart_of t = pushed h -> lock_free (ic_lock (k_ic t)) ->
  idup c t = Ok c (bump_inode c t).
Proof.
  intros Hh Ht Hl. unfold idup.
  rewrite (bind_Ok _ _ _ _ _ (acquire_eq icachelock t Hl)). unfold updi. mstep.
  pose proof (pushed_ok h Hh) as Hok. rewrite <- Ht in Hok.
  erewrite bind_Ok by (by apply (release_eq icachelock _ (hart_of t) (ic_lock (k_ic t)))).
  rewrite Ht, touched_pushed by done. unfold ret. f_equal. rewrite <- Ht. by destruct t as [[] [] ? ? ? ? ? [] ? ? ? ? ? ? ?].
Qed.

(** ** The open files of the child *)

(** The files named by descriptors [l] in [fs], and the child's descriptors. *)
Definition bump_files (fs : gmap nat nat) (l : list nat) (s : kst) : kst :=
  fold_left (fun s fd => match fs !! fd with Some f => bump_file f s | None => s end) l s.
Definition share_fds (fs : gmap nat nat) (l : list nat) (P : proc) : proc :=
  fold_left (fun P fd => match fs !! fd with
                         | Some f => set_p_ofile (<[fd := f]> (p_ofile P)) P
                         | None => P
                         end) l P.

Lemma getf_bump f s g : getf (bump_file f s) g = if decide (f = g) then set_f_ref (f_ref (getf s g) + 1) (getf s g) else getf s g.
Proof. unfold bump_file. rewrite getf_setf. by case_decide; subst. Qed.

Lemma fork_fds_eq h i j l P m S :
  i <> j -> hart_ok h -> m_hart m = pushed h -> lock_free (ft_lock (k_ft S)) ->
  (forall fd f, p_ofile (getp S i) !! fd = Some f -> 1 <= f_ref (getf S f)) ->
  mfor l (fork_fd i j) (setp j P (set_m m S)) =
  Ok tt (setp j (share_fds (p_ofile (getp S i)) l P) (set_m m (bump_files (p_ofile (getp S i)) l S))).
Proof.
  intros Hne Hh Hm. revert P S. induction l as [|fd l IH]; intros P S Hl Hr; [done|].
  cbn [mfor]. unfold fork_fd at 1, bump_files, share_fds. rewrite bind_assoc. mstep.
  rewrite getp_setp, decide_False by done. cbn [fold_left]. change (getp (set_m m S) i) with (getp S i).
  destruct (p_ofile (getp S i) !! fd) as [f|] eqn:Ef; [|mstep; by apply IH].
  rewrite bind_assoc, (bind_Ok _ _ _ _ _ (filedup_pushed h f (setp j P (set_m m S)) Hh Hm Hl (Hr fd f Ef))).
  change (bump_file f (setp j P (set_m m S))) with (setp j P (set_m m (bump_file f S))).
  rewrite updp_final. rewrite IH; [done|done|].
  intros fd' g Hg. rewrite getf_bump. specialize (Hr fd' g Hg). case_decide; [cbn; lia|done].
Qed.
(** ** The child's memory *)

(** The memory of parent and child side by side: [U], [F] the parent's and [Un],
    [G] the child's, with trapframes [tp] and [tc]. *)
Record two_spaces (m : mst) (l : list Z) (sh : shape) (U : gmap Z Z) (F : list Z) (tp : Z)
    (shn : shape) (Un : gmap Z Z) (G : list Z) (tc : Z) : Prop := {
  ts_old : pspace m l sh U F tp;
  ts_new : pspace m l shn Un G tc;
  ts_pages : page_ok tp /\ page_ok tc;
  ts_disj : forall p, p ∈ tp :: tables sh ++ F -> p ∉ tc :: tables shn ++ G;
  ts_tp : (tp ∉ l) /\ (tp ∉ tables sh) /\ (tp ∉ F);
  ts_tc : (tc ∉ l) /\ (tc ∉ tables shn) /\ (tc ∉ G) }.

(** After uvmcopy: the child has its own copy of every user page; or none, when
    there were not enough pages for them and their tables. *)
Lemma fork_copy m l sh U F tp shn Un tc sz :
  two_spaces m l sh U F tp shn Un [] tc -> length F = npg sz -> 0 <= sz <= TRAPFRAME -> leads at_top shn ->
  exists r m' l' shn' Un' G, uvmcopy (sh_root sh) (sh_root shn) sz m = Ok r m' /\
    two_spaces m' l' sh U F tp shn' Un' G tc /\ sh_root shn' = sh_root shn /\
    l' ++ tables shn' ++ G ≡ₚ l ++ tables shn /\ frame m m' (l ++ tables shn) /\
    ((r = 0 /\ length G = length F /\
      (forall va, 0 <= va < PGSIZE * Z.of_nat (length F) -> uread (m_mem m') Un' va = uread (m_mem m) U va)) \/
     (r = -1 /\ G = [] /\ Z.of_nat (length l + length (tables shn)) <= tables_for (Z.of_nat (length F)) + Z.of_nat (length F))).
Proof.
  intros [[Hu Tp] [Hn Tn] Hok Hd (P1 & P2 & P3) (C1 & C2 & _)] Hlen Hsz Hld.
  assert (forall p, p ∈ tables sh ++ F -> p ∉ tables shn) as Hdis.
  { intros p Hp Hin. apply (Hd p); [by right|right; in_list]. }
  destruct (uvmcopy_spec m l sh U F shn Un sz Hu Hn Hdis Hlen Hsz) as (r & m' & Hr & Hpost).
  assert (exists l' shn' Un' G, ucopy m l shn Un U F m' l' shn' Un' G /\ (Z.of_nat (length G) <= NUSER) /\
            ((r = 0 /\ length G = length F) \/
             (r = -1 /\ G = [] /\ (length l + length (tables shn) <= length (tables shn') + length F)%nat))) as (l' & shn' & Un' & G & Hc & HG & Hcase).
  { pose proof (us_len _ _ _ _ _ Hu).
    destruct Hpost as [(-> & l' & shn' & Un' & G & Hc & HG)|(-> & l' & shn' & Hc & Hfew)].
    - exists l', shn', Un', G. split_and!; [done|lia|by left].
    - exists l', shn', Un, []. split_and!; [done|cbn; lia|by right]. }
  pose proof Hc as [Hn' Hroot Hpg Hf _ _ Hout Hsv].
  assert (forall p, p ∈ l' ++ tables shn' ++ G <-> p ∈ l ++ tables shn) as Hpg' by (intros p; by rewrite Hpg).
  assert (tp ∉ l ++ tables shn) as Htp.
  { rewrite elem_of_app. intros [?|?]; [done|]. apply (Hd tp); [left|right; in_list]. }
  assert (tc ∉ l ++ tables shn) as Htc by (rewrite elem_of_app; intros [?|?]; done).
  rewrite <- Hpg' in Htp, Htc.
  exists r, m', l', shn', Un', G. split_and!; [done| |done|done|done|].
  - split; [split; [by apply (ucopy_old m l sh shn U Un F Hu Hn Hdis m' l' shn' Un' G)|done]| |done| |split_and!; [in_list|done..]|split_and!; in_list].
    + split; [done|]. destruct top_vpns as (E1 & E2 & E3).
      split; [rewrite Hout by lia; apply Tn..|]. intros k Hk. rewrite Hout by lia. by apply Tn.
    + intros p Hp Hin. apply elem_of_cons in Hp as [->|Hp].
      * apply elem_of_cons in Hin as [E|Hin]; [|in_list]. apply (Hd tp); [left|rewrite E; left].
      * apply elem_of_cons in Hin as [->|Hin]; [apply (Hd tc); [by right|left]|].
        apply (old_disj m l sh shn U F Hu Hdis p Hp), Hpg'. in_list.
  - destruct Hcase as [[-> HG2]|(-> & -> & Hfew)]; [left|right; split_and!; [done..|]].
    2: { assert (Z.of_nat (length (tables shn')) <= tables_for (Z.of_nat (length F))) as Ht.
         { apply (tables_le _ (TRAPFRAME / 4096 / 512)); [lia|]. apply Hsv; [by left|]. eapply leads_weaken; [exact Hld|]. by right. }
         lia. }
    split_and!; [done..|]. intros va Hva. by eapply ucopy_uread.
Qed.
Lemma uread_frame m l sh U F ps m' va :
  uspace m l sh U F -> only_pages (m_mem m) ps m' -> Forall page_ok ps -> (forall p, p ∈ F -> p ∉ ps) ->
  0 <= va < PGSIZE * Z.of_nat (length F) -> uread m' U va = uread (m_mem m) U va.
Proof.
  intros Hu Hm Hps Hd Hva. set (k := va / PGSIZE). assert (0 <= k < Z.of_nat (length F)) as Hk by (subst k; klia).
  destruct (lookup_lt_is_Some_2 F (Z.to_nat k)) as [p Hp]; [lia|].
  destruct (us_frames _ _ _ _ _ Hu _ _ Hp) as (v & Hv & Hvp & _).
  rewrite Z2Nat.id, Z.add_0_l in Hv by lia. unfold uread, upage. fold k. rewrite Hv.
  destruct (_ <=? k); [done|]. destruct (Z.testbit v 4); [|done]. cbn. f_equal. rewrite Hvp.
  pose proof (us_pages _ _ _ _ _ Hu) as Hpg. eapply Forall_lookup in Hpg as [? _]; [|exact Hp].
  eapply only_pages_rd; [exact Hm|done|by apply page_ok_aligned|apply Hd; by eapply list_elem_of_lookup_2|klia].
Qed.

(** The child's trapframe: the parent's, with a0 set to 0. *)
Definition forked_tf (m : mem) (tp tc : Z) : mem :=
  wr64 (wrs m tc (rds m tp sizeof_trapframe)) (tc + tf_a 0) 0.

Lemma forked_tf_only m tp tc : only_pages m [tc] (forked_tf m tp tc).
Proof.
  intros a Ha. specialize (Ha tc ltac:(by left)). unfold in_page, forked_tf in *.
  rewrite rd_wr64_ne by (unfold tf_a; klia). rewrite rd_wrs, length_rds.
  destruct (Z.leb_spec tc a), (Z.ltb_spec a (tc + Z.of_nat (Z.to_nat sizeof_trapframe))); cbn; try done.
  unfold sizeof_trapframe in *. klia.
Qed.

Lemma rd_forked_tf m tp tc k : 0 <= k < sizeof_trapframe ->
  rd (forked_tf m tp tc) (tc + k) = if (112 <=? k) && (k <? 120) then 0 else rd m (tp + k).
Proof.
  intros Hk. unfold forked_tf. rewrite rd_wr64. change (tf_a 0) with 112.
  replace (tc + 112 <=? tc + k) with (112 <=? k) by (destruct (Z.leb_spec 112 k), (Z.leb_spec (tc + 112) (tc + k)); lia).
  replace (tc + k <? tc + 112 + 8) with (k <? 120)
    by (destruct (Z.ltb_spec k 120), (Z.ltb_spec (tc + k) (tc + 112 + 8)); lia).
  destruct (Z.leb_spec 112 k), (Z.ltb_spec k 120); cbn [andb]; [by rewrite Z.div_0_l by (apply Z.pow_nonzero; lia)|..].
  all: rewrite rd_wrs, length_rds; destruct (Z.leb_spec tc (tc + k)), (Z.ltb_spec (tc + k) (tc + Z.of_nat (Z.to_nat sizeof_trapframe)));
    try (unfold sizeof_trapframe in *; lia); cbn;
    replace (tc + k - tc) with k by lia; rewrite rds_lookup by done; apply u8_small, rd_range.
Qed.

Lemma fork_trapframe m l sh U F tp shn Un G tc :
  two_spaces m l sh U F tp shn Un G tc ->
  two_spaces (set_mem (forked_tf (m_mem m) tp tc) m) l sh U F tp shn Un G tc.
Proof.
  intros [[Hu Tp] [Hn Tn] Hok Hd Hp Hc]. pose proof (forked_tf_only (m_mem m) tp tc) as Hm.
  destruct Hok as [Hok1 Hok2], Hc as (C1 & C2 & C3).
  assert (tc ∉ tables sh) as Ht by (intros Hin; apply (Hd tc); [right; in_list|left]).
  split; [split; [by apply (uspace_write m l sh U F tc)|done]|split; [by apply (uspace_write m l shn Un G tc)|done]|done..].
Qed.
(** ** The whole call *)

Lemma quiet_rest s s1 : quiet s s1 ->
  k_ft s1 = k_ft s /\ k_ic s1 = k_ic s /\ pt_nextpid (k_pt s1) = pt_nextpid (k_pt s) /\
  pt_pid_lock (k_pt s1) = pt_pid_lock (k_pt s) /\ k_m s1 = put_hart (hart_of s1) (k_m s).
Proof. intros [_ (_ & pm & E)]. set (h := hart_of s1) in *. by rewrite E. Qed.

Lemma bump_files_cons fs fd l s :
  bump_files fs (fd :: l) s = bump_files fs l (match fs !! fd with Some f => bump_file f s | None => s end).
Proof. done. Qed.

Lemma share_fds_cons fs fd l P :
  share_fds fs (fd :: l) P =
  share_fds fs l (match fs !! fd with Some f => set_p_ofile (<[fd := f]> (p_ofile P)) P | None => P end).
Proof. done. Qed.

Lemma getp_bump_files fs l s i : getp (bump_files fs l s) i = getp s i.
Proof.
  revert s. induction l as [|fd l IH]; intros s; [done|]. rewrite bump_files_cons, IH. by destruct (fs !! fd).
Qed.

Lemma getf_bump_files fs l s f :
  getf (bump_files fs l s) f =
  set_f_ref (f_ref (getf s f) + Z.of_nat (length (filter (fun fd => fs !! fd = Some f) l))) (getf s f).
Proof.
  revert s. induction l as [|fd l IH]; intros s.
  { cbn. rewrite Z.add_0_r. by destruct (getf s f). }
  rewrite bump_files_cons, filter_cons.
  destruct (fs !! fd) as [g|] eqn:E; rewrite IH; [|by rewrite decide_False].
  rewrite getf_bump. destruct (decide (g = f)) as [->|Hne].
  - rewrite decide_True by done. cbn [length f_ref set_f_ref]. unfold set_f_ref; cbn; f_equal; lia.
  - rewrite decide_False by congruence. done.
Qed.

Lemma bump_files_rest fs l s :
  k_ic (bump_files fs l s) = k_ic s /\ k_m (bump_files fs l s) = k_m s /\ k_pt (bump_files fs l s) = k_pt s.
Proof.
  revert s. induction l as [|fd l IH]; intros s; [done|]. rewrite bump_files_cons.
  destruct (IH (match fs !! fd with Some f => bump_file f s | None => s end)) as (-> & -> & ->). by destruct (fs !! fd).
Qed.

Lemma share_fds_set fs l P : exists o, share_fds fs l P = set_p_ofile o P /\
  forall fd, o !! fd = (if decide (fd ∈ l) then fs !! fd else None) ∪ p_ofile P !! fd.
Proof.
  revert P. induction l as [|fd l IH]; intros P.
  { exists (p_ofile P). split; [by destruct P|]. intros fd. rewrite decide_False by apply not_elem_of_nil. by destruct (_ !! fd). }
  rewrite share_fds_cons.
  destruct (IH (match fs !! fd with Some f => set_p_ofile (<[fd := f]> (p_ofile P)) P | None => P end)) as (o & Ho & Hl).
  exists o. split; [rewrite Ho; by destruct (fs !! fd)|]. intros k. rewrite Hl.
  destruct (decide (k = fd)) as [->|Hk].
  - rewrite (decide_True (P := fd ∈ fd :: l)) by left.
    destruct (fs !! fd) eqn:E; cbn [p_ofile set_p_ofile]; rewrite ?lookup_insert_eq; case_decide; by destruct (p_ofile P !! fd).
  - assert (p_ofile (match fs !! fd with Some f => set_p_ofile (<[fd := f]> (p_ofile P)) P | None => P end) !! k = p_ofile P !! k) as ->.
    { destruct (fs !! fd); cbn; [by rewrite lookup_insert_ne|done]. }
    by rewrite (decide_ext (k ∈ l) (k ∈ fd :: l)) by (rewrite elem_of_cons; naive_solver).
Qed.

Lemma share_fds_all fs l P : p_ofile P = ∅ -> (forall fd f, fs !! fd = Some f -> fd ∈ l) ->
  share_fds fs l P = set_p_ofile fs P.
Proof.
  intros He Hin. destruct (share_fds_set fs l P) as (o & -> & Ho). f_equal. apply map_eq. intros fd.
  rewrite Ho, He, lookup_empty, (right_id_L None _). case_decide as Hd; [done|].
  destruct (fs !! fd) eqn:E; [|done]. destruct Hd. by eapply Hin.
Qed.
(** The child's slot once fork has filled it. *)
Definition child_proc (i c : nat) (k : spinlock) (p P : proc) : proc :=
  set_p_lock k (set_p_state RUNNABLE (set_p_name (safestrcpy_bytes (p_name P) (p_name p) 16)
    (set_p_cwd (Some c) (set_p_ofile (p_ofile p) (set_p_parent (Some i) (set_p_sz (p_sz p) P)))))).

Lemma fork_tf_final {B} i j Q m S (K : unit -> M kst B) :
  i <> j ->
  (copy_trapframe i j;; bind (put_tf j (tf_a 0) 0) K) (setp j Q (set_m m S)) =
  K tt (setp j Q (set_m (set_mem (forked_tf (m_mem m) (p_trapframe (getp S i)) (p_trapframe Q)) m) S)).
Proof.
  intros Hne. unfold copy_trapframe, put_tf. mstep.
  change (getp (set_m ?x (setp j Q (set_m m S))) j) with (getp (setp j Q (set_m m S)) j).
  rewrite !getp_setp, decide_True, decide_False by done. done.
Qed.

Lemma bump_inode_final c j Q m S :
  bump_inode c (setp j Q (set_m m S)) = setp j Q (set_m m (bump_inode c S)).
Proof. done. Qed.

Section Into.
Context (i j c : nat) (h : hart) (k : spinlock) (P : proc) (m : mst) (S : kst).
Context (l : list Z) (sh shn : shape) (U Un : gmap Z Z) (F : list Z).
Let p : proc := getp S i.
Hypothesis Hij : i <> j.
Hypothesis Hh : hart_ok h.
Hypothesis Hk : lock_free k.
Hypothesis Hm : m_hart m = pushed h.
Hypothesis HP : p_lock P = locked_by h k /\ p_ofile P = ∅ /\ p_sz P = 0 /\ p_pagetable P = sh_root shn.
Hypothesis Hp : p_pagetable p = sh_root sh /\ length F = npg (p_sz p) /\ 0 <= p_sz p <= TRAPFRAME /\ p_cwd p = Some c.
Hypothesis Hfiles : forall fd f, p_ofile p !! fd = Some f -> fd ∈ fds /\ 1 <= f_ref (getf S f).
Hypothesis Hlocks : lock_free (ft_lock (k_ft S)) /\ lock_free (ic_lock (k_ic S)).
Hypothesis Hts : two_spaces m l sh U F (p_trapframe p) shn Un [] (p_trapframe P).

Lemma fork_into_fail m' l' shn' Un' :
  uvmcopy (sh_root sh) (sh_root shn) (p_sz p) m = Ok (-1) m' -> sh_root shn' = sh_root shn ->
  two_spaces m' l' sh U F (p_trapframe p) shn' Un' [] (p_trapframe P) -> frame m m' (l ++ tables shn) ->
  exists m2 l2, fork_into i j (setp j P (set_m m S)) =
      Ok (-1) (setp j (set_p_lock k (freed_proc P)) (set_m (put_hart (touched h) m2) S)) /\
    kmem_inv m2 l2 /\ l2 ≡ₚ p_trapframe P :: tables shn' ++ l' /\
    frame m' m2 (p_trapframe P :: tables shn').
Proof.
  intros Hc Hroot Ht Hf. destruct HP as (P1 & P2 & P3 & P4), Hp as (Q1 & Q2 & Q3 & Q4).
  unfold fork_into. mstep. rewrite !getp_setp, decide_False, decide_True by done.
  change (getp (set_m m S) i) with p. rewrite Q1, P4, (memop_final _ _ _ _ _ _ _ _ Hc). cbn [Z.ltb Z.compare].
  destruct Ht as [_ Hn [_ Hok] _ _ Htc].
  destruct (freeproc_spec (setp j P (set_m m' S)) l' j shn' Un' []) as (m2 & l2 & Hfree & Hk2 & Hl2 & Hf2).
  { rewrite getp_setp, decide_True by done. split; [congruence|done|rewrite P3; split; [done|klia]|done|done]. }
  rewrite getp_setp, decide_True in Hfree, Hl2, Hf2 by done. cbn [app] in Hl2, Hf2.
  change (setp j (freed_proc P) (set_m m2 (setp j P (set_m m' S)))) with
    (setp j (freed_proc P) (setp j P (set_m m2 S))) in Hfree. rewrite setp_setp in Hfree.
  rewrite (bind_Ok _ _ _ _ _ Hfree).
  assert (m_hart m2 = pushed h) as Hh2.
  { eapply frame_pushed; [done| |exact Hf2]. by eapply frame_pushed; [done| |exact Hf]. }
  erewrite bind_Ok by (by apply (release_final j h k)).
  by exists m2, l2.
Qed.

Lemma fork_into_ok m' l' shn' Un' G :
  uvmcopy (sh_root sh) (sh_root shn) (p_sz p) m = Ok 0 m' ->
  two_spaces m' l' sh U F (p_trapframe p) shn' Un' G (p_trapframe P) -> frame m m' (l ++ tables shn) ->
  fork_into i j (setp j P (set_m m S)) =
    Ok (p_pid P) (setp j (child_proc i c k p P)
      (set_m (put_hart (touched h) (set_mem (forked_tf (m_mem m') (p_trapframe p) (p_trapframe P)) m'))
        (bump_inode c (bump_files (p_ofile p) fds S)))).
Proof.
  intros Hc Ht Hf. destruct HP as (P1 & P2 & P3 & P4), Hp as (Q1 & Q2 & Q3 & Q4), Hlocks as [L1 L2].
  unfold fork_into. mstep. rewrite !getp_setp, decide_False, decide_True by done.
  change (getp (set_m m S) i) with p. rewrite Q1, P4, (memop_final _ _ _ _ _ _ _ _ Hc). cbn [Z.ltb Z.compare].
  assert (m_hart m' = pushed h) as Hh2 by (by eapply frame_pushed; [done| |exact Hf]).
  rewrite !updp_final, fork_tf_final by done. cbn [p_trapframe set_p_parent set_p_sz].
  erewrite bind_Ok by (apply (fork_fds_eq h); [done..|intros; by eapply Hfiles]).
  fold p. rewrite share_fds_all; [|exact P2|intros fd f Hfd; by apply (Hfiles fd f)]. rewrite Q4. cbn [deref]. mstep.
  set (m2 := set_mem _ m').
  destruct (bump_files_rest (p_ofile p) fds S) as (E1 & _). generalize dependent (bump_files (p_ofile p) fds S). intros T E1.
  erewrite bind_Ok by (apply (idup_pushed h); [done..|]; cbn; by rewrite E1).
  rewrite bump_inode_final, !updp_final. mstep. rewrite getp_setp, decide_True, updp_final by done.
  by erewrite bind_Ok by (by apply (release_final j h k)).
Qed.
End Into.
(** What a process sees of its memory: its address space reads the same, and
    so does its trapframe. *)
Definition same_view (m : mem) (p : proc) (U : gmap Z Z) (F : list Z) (m' : mem) : Prop :=
  (forall va, 0 <= va < PGSIZE * Z.of_nat (length F) -> uread m' U va = uread m U va) /\
  same_page m (p_trapframe p) m' (p_trapframe p).

(** A process keeps what it owns when only free pages are written and taken. *)
Lemma owns_keep m l p sh U F m' l' :
  owns m l p sh U F -> kmem_inv m' l' -> only_pages (m_mem m) l (m_mem m') -> (forall q, q ∈ l' -> q ∈ l) ->
  owns m' l' p sh U F /\ same_view (m_mem m) p U F (m_mem m').
Proof.
  intros [Hr [Hu Ht] Hsz Hok (T1 & T2 & T3)] Hk Hm Hl. pose proof (us_pt _ _ _ _ _ Hu) as Hpt.
  pose proof (vi_disj _ _ _ (pi_vm _ _ _ _ Hpt)) as Hd. pose proof (us_disj _ _ _ _ _ Hu) as HF.
  pose proof (uspace_all_ok _ _ _ _ _ Hu) as [Hlok _]%Forall_app.
  split; [split; [done|split; [|done]|done|done|split_and!; auto]|split].
  - eapply uspace_pt; [exact Hu| |intros p' Hp'; destruct (HF p' Hp'); auto].
    eapply pt_inv_frame; [exact Hpt|exact Hk|exact Hm|by apply page_ok_aligned|].
    intros p' Hp'. specialize (Hd p' Hp'). auto.
  - intros va Hva. eapply uread_frame; [exact Hu|exact Hm|done| |done]. intros p' Hp'. by destruct (HF p' Hp').
  - intros o Ho. eapply only_pages_rd; [exact Hm|apply Hok|by apply page_ok_aligned|done|done].
Qed.

(** A slot nobody uses has no memory and no files. *)
Definition clean_slots (s : kst) : Prop :=
  forall q, p_state (getp s q) = UNUSED -> p_sz (getp s q) = 0 /\ p_ofile (getp s q) = ∅.

(** Process [i] calls fork: it runs on this hart, its memory is [sh], [U], [F],
    its directory [c], and [l] is the free list. *)
Record fork_ready (s : kst) (l : list Z) (i c : nat) (sh : shape) (U : gmap Z Z) (F : list Z) : Prop := {
  fr_hartok : hart_ok (hart_of s);
  fr_plocks : plocks_free s;
  fr_locks : lock_free (pt_pid_lock (k_pt s)) /\ lock_free (ft_lock (k_ft s)) /\ lock_free (ic_lock (k_ic s));
  fr_cur : c_proc (mycpu (hart_of s)) = Some i;
  fr_used : p_state (getp s i) <> UNUSED;
  fr_owns : owns (k_m s) l (getp s i) sh U F;
  fr_cwd : p_cwd (getp s i) = Some c;
  fr_files : forall fd f, p_ofile (getp s i) !! fd = Some f -> fd ∈ fds /\ 1 <= f_ref (getf s f);
  fr_clean : clean_slots s }.

(** The child: slot [j], with its own pages [shn], [Un], [G]. *)
Record forked (s : kst) (l : list Z) (i c : nat) (U : gmap Z Z) (F : list Z)
    (s' : kst) (l' : list Z) (j : nat) (shn : shape) (Un : gmap Z Z) (G : list Z) : Prop := {
  fk_slot : unused_slot procs s = Some j;
  fk_state : p_state (getp s' j) = RUNNABLE /\ p_lock (getp s' j) = p_lock (getp s j);
  fk_id : p_pid (getp s' j) = pt_nextpid (k_pt s) /\ p_parent (getp s' j) = Some i;
  fk_next : pt_nextpid (k_pt s') = s32 (pt_nextpid (k_pt s) + 1);
  fk_start : ctx_ra (p_context (getp s' j)) = k_forkret /\
             ctx_sp (p_context (getp s' j)) = p_kstack (getp s j) + PGSIZE;
  fk_owns : owns (k_m s') l' (getp s' j) shn Un G;
  fk_size : p_sz (getp s' j) = p_sz (getp s i) /\ length G = length F;
  fk_pages : p_trapframe (getp s' j) :: l' ++ tables shn ++ G ≡ₚ l;
  fk_memory : forall va, 0 <= va < PGSIZE * Z.of_nat (length F) ->
                uread (m_mem (k_m s')) Un va = uread (m_mem (k_m s)) U va;
  fk_regs : forall o, 0 <= o < sizeof_trapframe ->
              rd (m_mem (k_m s')) (p_trapframe (getp s' j) + o) =
              if (112 <=? o) && (o <? 120) then 0 else rd (m_mem (k_m s)) (p_trapframe (getp s i) + o);
  fk_ofile : p_ofile (getp s' j) = p_ofile (getp s i) /\ p_cwd (getp s' j) = p_cwd (getp s i);
  fk_refs : forall f, getf s' f = set_f_ref (f_ref (getf s f) +
              Z.of_nat (length (filter (fun fd => p_ofile (getp s i) !! fd = Some f) fds))) (getf s f);
  fk_inode : forall d, geti s' d = if decide (d = c) then set_i_ref (i_ref (geti s d) + 1) (geti s d) else geti s d;
  fk_others : forall q, q <> j -> getp s' q = getp s q }.

(** The pages that the fork of a process with [n] pages takes: the trapframe, the
    tables and the copies. *)
Definition fork_pages (n : Z) : Z := 1 + tables_for n + n.

(** fork gave up, for want of a slot or of pages: slots in use are as before. *)
Definition fork_failed (s : kst) (l : list Z) (F : list Z) (s' : kst) (l' : list Z) : Prop :=
  (unused_slot procs s = None \/ Z.of_nat (length l) <= fork_pages (Z.of_nat (length F))) /\ l' ≡ₚ l /\ clean_slots s' /\ forall q, p_state (getp s q) <> UNUSED -> getp s' q = getp s q.
(** The memory when allocproc has filled the child's slot. *)
Lemma fork_started m l p sh U F m1 l1 shn Un tc :
  owns m l p sh U F -> only_pages (m_mem m) l (m_mem m1) -> pspace m1 l1 shn Un [] tc -> page_ok tc ->
  (tc ∉ l1) -> (tc ∉ tables shn) -> tc :: l1 ++ tables shn ≡ₚ l ->
  two_spaces m1 l1 sh U F (p_trapframe p) shn Un [] tc.
Proof.
  intros Ho Hm Hsp Hok C1 C2 Hpg. pose proof Hsp as [Hn _].
  assert (forall q, q ∈ tc :: l1 ++ tables shn -> q ∈ l) as Hin by (intros q; by rewrite Hpg).
  destruct (owns_keep _ _ _ _ _ _ m1 l1 Ho) as [[_ Hsp' _ Hok' Htp] _];
    [apply (us_pt _ _ _ _ _ Hn)|done|intros q Hq; apply Hin; right; in_list|].
  split; [done|done|done| |done|split_and!; [done..|apply not_elem_of_nil]].
  destruct Ho as [_ [Hu _] _ _ (T1 & _ & _)]. rewrite app_nil_r. intros q Hq Hqn.
  assert (q ∈ l) as Hql by (apply Hin; rewrite elem_of_cons, elem_of_app in *; naive_solver).
  apply elem_of_cons in Hq as [->|[Hq|Hq]%elem_of_app]; [done|..].
  - by apply (vi_disj _ _ _ (pi_vm _ _ _ _ (us_pt _ _ _ _ _ Hu)) q).
  - by destruct (us_disj _ _ _ _ _ Hu q Hq).
Qed.

(** What fork promises of its result [r] and final state [s']. *)
Definition fork_post (s : kst) (l : list Z) (i c : nat) (sh : shape) (U : gmap Z Z) (F : list Z)
    (r : Z) (s' : kst) : Prop :=
  exists l', owns (k_m s') l' (getp s i) sh U F /\ same_view (m_mem (k_m s)) (getp s i) U F (m_mem (k_m s')) /\
    ((r = -1 /\ fork_failed s l F s' l') \/
     (exists j shn Un G, r = pt_nextpid (k_pt s) /\ forked s l i c U F s' l' j shn Un G)).

Section Call.
Context (s s1 : kst) (l : list Z) (i j c : nat) (sh : shape) (U : gmap Z Z) (F : list Z).
Hypothesis Hready : fork_ready s l i c sh U F.
Hypothesis Hquiet : quiet s s1.
Hypothesis Hslot : unused_slot procs s = Some j.
Let S := next_pid (in_plock j s1).
Let P tf r := alloced_proc (pt_nextpid (k_pt s1)) tf r (getp (in_plock j s1) j).

Lemma slot_unused : p_state (getp s j) = UNUSED /\ i <> j.
Proof.
  assert (p_state (getp s j) = UNUSED) as Hj.
  { unfold unused_slot in Hslot. destruct (filter _ procs) as [|x r] eqn:E; [done|]. injection Hslot as ->.
    assert (j ∈ j :: r) as Hin by left. rewrite <- E, list_elem_of_filter in Hin. by destruct Hin. }
  split; [done|]. intros ->. by apply (fr_used _ _ _ _ _ _ _ Hready).
Qed.

Lemma getp_slot q : q <> j -> getp S q = getp s q.
Proof. intros Hq. unfold S. change (getp (in_plock j s1) q = getp s q). rewrite getp_in_plock_ne by done. by apply quiet_getp. Qed.

Lemma getp_child q p m T : (forall q, getp T q = getp S q) ->
  getp (setp j p (set_m m T)) q = if decide (q = j) then p else getp s q.
Proof.
  intros HT. rewrite getp_setp. destruct (decide (q = j)) as [->|Hq]; [by rewrite decide_True|].
  rewrite decide_False by done. change (getp T q = getp s q). rewrite HT. by apply getp_slot.
Qed.
Lemma slot_mem m ps : only_pages (m_mem (k_m (in_plock j s1))) ps (m_mem m) -> only_pages (m_mem (k_m s)) ps (m_mem m).
Proof.
  destruct (quiet_rest s s1 Hquiet) as (_ & _ & _ & _ & E). change (k_m (in_plock j s1)) with (put_hart (pushed (hart_of s1)) (k_m s1)).
  by rewrite E.
Qed.

Lemma fork_gave_up p m l' T :
  kmem_inv m l' -> l' ≡ₚ l -> only_pages (m_mem (k_m s)) l (m_mem m) -> p_state p = UNUSED -> p_sz p = 0 -> p_ofile p = ∅ ->
  (forall q, getp T q = getp S q) -> Z.of_nat (length l) <= fork_pages (Z.of_nat (length F)) ->
  fork_post s l i c sh U F (-1) (setp j p (set_m m T)).
Proof.
  intros Hk Hl Hm H1 H2 H3 HT Hfew. pose proof Hready as [_ _ _ _ _ Ho _ _ Hcl]. destruct slot_unused as [Hj _].
  destruct (owns_keep _ _ _ _ _ _ m l' Ho Hk Hm) as [Ho' Hv]; [intros q; by rewrite Hl|].
  exists l'. split_and!; [done|done|]. left. split; [done|]. unfold fork_failed. split_and!; [by right|done| |].
  - intros q Hq. rewrite getp_child in Hq |- * by done. case_decide; auto.
  - intros q Hq. rewrite getp_child by done. rewrite decide_False by congruence. done.
Qed.

Lemma final_rest p q m T d f :
  let s' := setp q p (set_m m (bump_inode d T)) in
  pt_nextpid (k_pt s') = pt_nextpid (k_pt T) /\ getf s' f = getf T f /\
  forall e, geti s' e = if decide (d = e) then set_i_ref (i_ref (geti T d) + 1) (geti T d) else geti T e.
Proof. split_and!; [done|done|]. intros e. apply geti_seti. Qed.

Lemma child_owns m l' shn Un G h tf :
  two_spaces m l' sh U F (p_trapframe (getp s i)) shn Un G tf -> length G = length F -> hart_ok h ->
  owns (put_hart h m) l' (child_proc i c (p_lock (getp s j)) (getp s i) (P tf (sh_root shn))) shn Un G.
Proof.
  intros [_ [Hn Ht] [_ Hok] _ _ Hf] HG Hh.
  destruct (ow_size _ _ _ _ _ _ (fr_owns _ _ _ _ _ _ _ Hready)) as [Hlen Hsz].
  split; [done|split; [by apply uspace_hart|done]|split; [by rewrite HG|done]|done|done].
Qed.

Lemma fork_succeeded m tf l' shn Un G :
  let s' := setp j (child_proc i c (p_lock (getp s j)) (getp s i) (P tf (sh_root shn)))
      (set_m (put_hart (touched (hart_of s1)) (set_mem (forked_tf (m_mem m) (p_trapframe (getp s i)) tf) m))
        (bump_inode c (bump_files (p_ofile (getp s i)) fds S))) in
  two_spaces m l' sh U F (p_trapframe (getp s i)) shn Un G tf ->
  tf :: l' ++ tables shn ++ G ≡ₚ l -> only_pages (m_mem (k_m s)) l (m_mem m) -> length G = length F ->
  (forall va, 0 <= va < PGSIZE * Z.of_nat (length F) -> uread (m_mem m) Un va = uread (m_mem (k_m s)) U va) ->
  fork_post s l i c sh U F (pt_nextpid (k_pt s)) s'.
Proof.
  intros s' Hts Hpg Hm HG Hrd. pose proof Hready as [Hh Hpl (L1 & L2 & L3) Hcur Hused Ho Hcwd Hfl Hcl].
  destruct slot_unused as [Hj Hij]. destruct (quiet_rest s s1 Hquiet) as (E1 & E2 & E3 & E4 & E5).
  assert (hart_ok (hart_of s1)) as Hh1 by (by eapply quiet_hart_ok).
  set (m2 := set_mem (forked_tf (m_mem m) (p_trapframe (getp s i)) tf) m) in *.
  pose proof (fork_trapframe _ _ _ _ _ _ _ _ _ _ Hts) as Hts2. fold m2 in Hts2.
  assert (only_pages (m_mem (k_m s)) l (m_mem m2)) as Hm2.
  { eapply only_pages_weaken; [eapply only_pages_trans; [exact Hm|apply forked_tf_only]|].
    intros q. rewrite elem_of_app, list_elem_of_singleton, <- Hpg. intros [?| ->]; [done|left]. }
  assert (forall q, getp s' q = if decide (q = j) then child_proc i c (p_lock (getp s j)) (getp s i) (P tf (sh_root shn)) else getp s q) as Hg.
  { intros q. apply getp_child. intros q'. apply getp_bump_files. }
  assert (getp s' j = child_proc i c (p_lock (getp s j)) (getp s i) (P tf (sh_root shn))) as Hgj by (by rewrite Hg, decide_True).
  destruct (owns_keep _ _ _ _ _ _ (put_hart (touched (hart_of s1)) m2) l' Ho) as [Ho' Hv].
  { apply kmem_inv_hart; [apply (us_pt _ _ _ _ _ (proj1 (ts_new _ _ _ _ _ _ _ _ _ _ Hts2)))|by apply touched_ok]. }
  { exact Hm2. } { intros q Hq. rewrite <- Hpg. right. in_list. }
  exists l'. split_and!; [exact Ho'|exact Hv|]. right. exists j, shn, Un, G. split; [done|].
  assert (getp (in_plock j s1) j = set_p_lock (locked_by (hart_of s1) (p_lock (getp s j))) (getp s j)) as Hgl.
  { by rewrite getp_in_plock, (quiet_getp s s1). }
  split; rewrite ?Hgj; try done.
  - unfold s'. rewrite (proj1 (final_rest _ _ _ _ _ 0%nat)).
    destruct (bump_files_rest (p_ofile (getp s i)) fds S) as (_ & _ & ->). cbn. by rewrite E3.
  - cbn [p_context child_proc]. unfold P. by rewrite Hgl.
  - apply (child_owns m2); [done|done|by apply touched_ok].
  - intros va Hva. rewrite <- Hrd by done. destruct Hts as [_ [Hn _] [_ Hok] _ _ (_ & _ & T3)].
    apply (uread_frame m l' shn Un G [tf]); [done|apply forked_tf_only|by apply Forall_singleton| |by rewrite HG].
    intros q Hq ->%list_elem_of_singleton. done.
  - intros o Hof. etransitivity; [exact (rd_forked_tf (m_mem m) (p_trapframe (getp s i)) tf o Hof)|].
    destruct (_ && _); [done|]. destruct Ho as [_ [Hu _] _ [Hok _] (T1 & _ & _)].
    eapply only_pages_rd; [exact Hm|done| |done|unfold sizeof_trapframe in Hof; klia].
    apply page_ok_aligned. by pose proof (uspace_all_ok _ _ _ _ _ Hu) as [? _]%Forall_app.
  - intros f. unfold s'. destruct (final_rest (child_proc i c (p_lock (getp s j)) (getp s i) (P tf (sh_root shn))) j
      (put_hart (touched (hart_of s1)) m2) (bump_files (p_ofile (getp s i)) fds S) c f) as (_ & -> & _). rewrite getf_bump_files. unfold getf. change (k_ft S) with (k_ft s1). by rewrite E1.
  - intros d. unfold s'. rewrite (proj2 (proj2 (final_rest _ _ _ _ _ 0%nat))).
    destruct (bump_files_rest (p_ofile (getp s i)) fds S) as (E & _ & _). unfold geti. rewrite !E.
    change (k_ic S) with (k_ic s1). rewrite E2.
    destruct (decide (c = d)) as [->|Hne]; [by rewrite decide_True|by rewrite decide_False by congruence].
  - intros q Hq. by rewrite Hg, decide_False.
Qed.

Lemma fork_into_spec m tf l1 shn Un :
  frame (k_m (in_plock j s1)) m l -> pspace m l1 shn Un [] tf -> page_ok tf ->
  (tf ∉ l1) -> (tf ∉ tables shn) -> tf :: l1 ++ tables shn ≡ₚ l -> leads at_top shn ->
  exists r s', fork_into i j (setp j (P tf (sh_root shn)) (set_m m S)) = Ok r s' /\
    fork_post s l i c sh U F r s'.
Proof.
  intros Hf Hsp Hok C1 C2 Hpg Hld. pose proof Hready as [Hh Hpl (L1 & L2 & L3) Hcur Hused Ho Hcwd Hfl Hcl].
  destruct slot_unused as [Hj Hij]. destruct (quiet_rest s s1 Hquiet) as (E1 & E2 & E3 & E4 & E5).
  assert (hart_ok (hart_of s1)) as Hh1 by (by eapply quiet_hart_ok).
  pose proof (fork_started _ _ _ _ _ _ m l1 shn Un tf Ho (slot_mem _ _ (fr_mem _ _ _ Hf)) Hsp Hok C1 C2 Hpg) as Hts.
  assert (getp S i = getp s i) as Hgi by (by apply getp_slot).
  assert (getp (in_plock j s1) j = set_p_lock (locked_by (hart_of s1) (p_lock (getp s j))) (getp s j)) as Hgj.
  { by rewrite getp_in_plock, (quiet_getp s s1). }
  destruct (ow_size _ _ _ _ _ _ Ho) as [Hlen Hsz]. destruct (Hcl j Hj) as [Hjs Hjo].
  destruct (fork_copy m l1 sh U F _ shn Un tf (p_sz (getp s i)) Hts Hlen Hsz Hld)
    as (r & m' & l' & shn' & Un' & G & Hr & Hts' & Hroot & Hpg' & Hf' & Hcase).
  assert (m_hart m = pushed (hart_of s1)) as Hm by (by eapply frame_pushed; [done| |exact Hf]).
  assert (only_pages (m_mem (k_m s)) l (m_mem m')) as Hm'.
  { eapply only_pages_weaken; [eapply only_pages_trans; [apply slot_mem, Hf|apply Hf']|].
    intros q [Hq|Hq]%elem_of_app; [done|]. rewrite <- Hpg. by right. }
  destruct Hcase as [(-> & HG & Hrd)|(-> & -> & Hfew)].
  - exists (pt_nextpid (k_pt s)). eexists. split.
    + erewrite (fork_into_ok i j c (hart_of s1) (p_lock (getp s j)) (P tf (sh_root shn)) m S l1 sh shn U F Hij Hh1).
      * unfold P at 1. cbn [p_pid alloced_proc set_p_context set_p_pagetable started_proc set_p_trapframe set_p_pid].
        rewrite E3, Hgi, <- Hroot. reflexivity.
      * apply Hpl.
      * done.
      * unfold P. rewrite Hgj. by split_and!.
      * rewrite Hgi. split_and!; [apply Ho|exact Hlen|apply Hsz|apply Hsz|exact Hcwd].
      * rewrite Hgi. intros fd f Hfd. destruct (Hfl fd f Hfd). split; [done|]. unfold getf in *.
        change (k_ft S) with (k_ft s1). by rewrite E1.
      * change (k_ft S) with (k_ft s1). change (k_ic S) with (k_ic s1). by rewrite E1, E2.
      * rewrite Hgi. exact Hr.
      * rewrite Hgi. exact Hts'.
      * exact Hf'.
    + apply (fork_succeeded m' tf l' shn' Un' G); [done| |done|done|].
      * by rewrite Hpg', <- Hpg.
      * intros va Hva. rewrite Hrd by done. destruct Ho as [_ [Hu _] _ _ _].
        eapply (uread_frame (k_m s)); [exact Hu|apply slot_mem, Hf| | |done];
          [by pose proof (uspace_all_ok _ _ _ _ _ Hu) as [? _]%Forall_app|].
        intros q Hq. by destruct (us_disj _ _ _ _ _ Hu q Hq).
  - edestruct (fork_into_fail i j c (hart_of s1) (p_lock (getp s j)) (P tf (sh_root shn)) m S l1 sh shn U F Hij Hh1)
      as (m2 & l2 & Hfk & Hk2 & Hl2 & Hf2).
    { apply Hpl. } { done. } { unfold P. rewrite Hgj. done. } { rewrite Hgi. split_and!; [apply Ho|exact Hlen|apply Hsz|apply Hsz|exact Hcwd]. }
    { by rewrite Hgi. } { exact Hroot. } { rewrite Hgi. exact Hts'. } { exact Hf'. }
    exists (-1). eexists. split; [exact Hfk|]. apply (fork_gave_up _ _ l2); [|  | |done|done| |done|].
    + apply kmem_inv_hart; [done|by apply touched_ok].
    + rewrite Hl2, <- Hpg. constructor. rewrite <- Hpg', app_nil_r. apply Permutation_app_comm.
    + cbn [m_mem put_hart]. eapply only_pages_weaken; [eapply only_pages_trans; [exact Hm'|apply Hf2]|].
      intros q [Hq|Hq]%elem_of_app; [done|]. rewrite <- Hpg. apply elem_of_cons in Hq as [->|Hq]; [left|right].
      rewrite <- Hpg'. in_list.
    + cbn. by rewrite Hgj.
    + rewrite <- Hpg. cbn [length]. rewrite length_app. unfold fork_pages. lia.
Qed.
End Call.

Lemma fork_spec s l i c sh U F :
  fork_ready s l i c sh U F -> exists r s', fork s = Ok r s' /\ fork_post s l i c sh U F r s'.
Proof.
  intros Hready. pose proof Hready as [Hh Hpl (L1 & L2 & L3) Hcur Hused Ho Hcwd Hfl Hcl].
  unfold fork. rewrite (bind_Ok _ _ _ _ _ (curproc_eq i s Hh Hcur)).
  set (s0 := put_hart (touched (hart_of s)) s). assert (quiet s s0) as Hq0 by apply touch_quiet.
  destruct (allocproc_scan_spec procs s0) as (s1 & Hq & Hscan); [by eapply quiet_hart_ok|by eapply quiet_locks|].
  assert (quiet s s1) as Hq1 by (by etransitivity). change (unused_slot procs s0) with (unused_slot procs s) in Hscan.
  destruct (quiet_rest s s1 Hq1) as (E1 & E2 & E3 & E4 & E5). pose proof (quiet_hart_ok _ _ Hq1 Hh) as Hh1.
  pose proof (ow_space _ _ _ _ _ _ Ho) as [Hu _]. pose proof (us_pt _ _ _ _ _ Hu) as Hpt.
  assert (kmem_inv (k_m s1) l) as Hk1 by (rewrite E5; apply kmem_inv_hart; [apply Hpt|done]).
  unfold allocproc. rewrite bind_assoc. destruct (unused_slot procs s) as [j|] eqn:Hslot.
  - rewrite (bind_Ok _ _ _ _ _ Hscan).
    destruct (allocproc_found_spec s1 l j) as [(m & tf & l' & shn & Un & Ha & H1 & H2 & H3 & H4 & H5 & H6 & Hld)|
      (m & l' & p & Ha & H1 & H2 & H3 & H4 & H5 & H6 & H7 & H8 & Hfew)]; try done.
    + by apply (quiet_locks s).
    + rewrite (quiet_getp s) by done. by eapply slot_unused.
    + by rewrite E4.
    + rewrite (bind_Ok _ _ _ _ _ Ha). by eapply fork_into_spec.
    + rewrite (bind_Ok _ _ _ _ _ Ha). exists (-1). eexists. split; [done|].
      destruct (slot_unused s l i j c sh U F Hready Hslot) as [Hj _]. destruct (Hcl j Hj).
      rewrite (quiet_getp s s1) in * by done.
      eapply fork_gave_up; [done..|exact H3|done| |done|by apply H8|congruence|done|]; [by rewrite E5 in H2|].
      unfold fork_pages, tables_for. zlia.
  - rewrite (bind_Ok _ _ _ _ _ Hscan). exists (-1), s1. split; [done|].
    assert (only_pages (m_mem (k_m s)) l (m_mem (k_m s1))) as Hm by (rewrite E5; apply only_pages_refl).
    destruct (owns_keep _ _ _ _ _ _ (k_m s1) l Ho Hk1 Hm) as [Ho' Hv]; [done|].
    exists l. split_and!; [done|done|]. left. split; [done|]. unfold fork_failed. split_and!; [by left|done| |].
    + intros q. rewrite (quiet_getp s s1) by done. apply Hcl.
    + intros q _. by apply quiet_getp.
Qed.
End Fork.
