(* ===== verification/SmallMachine.v ===== *)
(** * A small concrete machine

    Twenty pages of RAM above the kernel image, and the states the kernel
    reaches on it: after kinit, and with a first user page table.  The
    theorems of the memory components are instantiated on it. *)

From S2P Require Import Prelude CString Layout Spinlock Kalloc Vm VmSpec AddrSpace UserMem.

#[export] Instance small_image : KernelImage := {|
  k_etext := KERNBASE + 2 * PGSIZE;
  k_end := PHYSTOP - 20 * PGSIZE;
  k_trampoline := KERNBASE + PGSIZE;
  k_forkret := KERNBASE + 64;
  k_usertrap := KERNBASE + 128;
  k_kernelvec := KERNBASE + 192;
  k_uservec := KERNBASE + PGSIZE;
  k_userret := KERNBASE + PGSIZE + 144;
  k_proc := KERNBASE + 1024
|}.

#[export] Instance small_image_ok : ImageOk.
Proof. split; cbn; klia. Qed.

(** Power on: hart 0 with interrupts enabled, memory all zero. *)
Definition power_on : mst :=
  Mst (Hart 0 (Csrs 2 0 0 0 0 0 0) ∅) ∅ (Kmem (Spinlock 0 "" None) 0) 0.

(** The final state of a computation that returns. *)
Definition final {A} (c : M mst A) (s : mst) : mst :=
  match c s with Ok _ s' => s' | _ => s end.

Lemma final_eq {A} (c : M mst A) s a s' : c s = Ok a s' -> final c s = s'.
Proof. unfold final. by intros ->. Qed.

Definition booted : mst := final kinit power_on.

(** The free list kinit leaves. *)
Definition free20 : list Z := pages_down total_pages (PGROUNDUP k_end).

Lemma power_on_ok : hart_ok (m_hart power_on).
Proof. split; done. Qed.

Lemma booted_eq : kinit power_on = Ok tt booted.
Proof.
  destruct (kinit_inv power_on power_on_ok eq_refl) as (s & Hs & _).
  by rewrite Hs, <- (final_eq _ _ _ _ Hs).
Qed.

Lemma booted_inv : kmem_inv booted free20.
Proof.
  destruct (kinit_inv power_on power_on_ok eq_refl) as (s & Hs & Hk & _).
  unfold booted. by rewrite (final_eq _ _ _ _ Hs).
Qed.

(** The pages, highest first. *)
Definition pg (i : Z) : Z := PHYSTOP - PGSIZE * (i + 1).

Definition created : mst := final uvmcreate booted.

Lemma created_space : uspace created (pg <$> seqZ 1 19) (empty_shape (pg 0)) ∅ [].
Proof.
  destruct (uvmcreate_spec booted (pg 0) (pg <$> seqZ 1 19)) as (s & Hs & Hu & _).
  { assert (pg 0 :: (pg <$> seqZ 1 19) = free20) as -> by reflexivity. apply booted_inv. }
  unfold created. by rewrite (final_eq _ _ _ _ Hs).
Qed.

(** A process of two pages. *)
Definition grown : mst := final (uvmalloc (pg 0) 0 8192) created.

Lemma grown_result :
  match uvmalloc (pg 0) 0 8192 created with Ok r _ => r =? 8192 | _ => false end = true.
Proof. vm_compute. reflexivity. Qed.

Lemma grown_space :
  exists l sh U F,
    uspace grown l sh U F /\ sh_root sh = pg 0 /\ length F = 2%nat /\
    (forall k, NUSER <= k -> U !! k = None) /\
    (forall i p, F !! i = Some p -> U !! Z.of_nat i = Some (mkpte p (Z.lor uperm PTE_V))) /\
    l ++ tables sh ++ F ≡ₚ pg <$> seqZ 0 20.
Proof.
  destruct (uvmalloc_spec created _ _ ∅ [] 0 8192 created_space) as (r & s' & Hr & Hp);
    [done|lia|klia|].
  pose proof grown_result as Hg. unfold grown. cbn [sh_root empty_shape] in Hr.
  rewrite (final_eq _ _ _ _ Hr). rewrite Hr in Hg. apply Z.eqb_eq in Hg as ->.
  destruct Hp as [(_ & l & sh & U & G & He & HG)|[Hz _]]; [|clear -Hz; lia].
  destruct He as [Hu Hroot Hpg Hold Hnew _ _]. exists l, sh, U, G.
  clear Hr. cbn [length app] in *. clear -Hu Hroot Hpg Hold Hnew HG. split_and!; auto.
  - intros k Hk. rewrite Hold; [done|]. rewrite NUSER_eq in Hk. unfold npg in HG. rewrite HG.
    change (Z.of_nat (Z.to_nat ((8192 + 4095) / 4096))) with 2. lia.
  - rewrite Hpg. change (tables (empty_shape (pg 0))) with [pg 0].
    rewrite Permutation_app_comm. reflexivity.
Qed.

(** The same beside a second, empty page table. *)
Definition twin : mst := final uvmcreate grown.

Lemma twin_result :
  match uvmcreate grown with Ok r _ => r =? pg 5 | _ => false end = true.
Proof. vm_compute. reflexivity. Qed.

Lemma twin_space :
  exists l sh U F,
    uspace twin l sh U F /\ sh_root sh = pg 0 /\ length F = 2%nat /\
    uspace twin l (empty_shape (pg 5)) ∅ [] /\ (pg 5 ∉ tables sh ++ F).
Proof.
  destruct grown_space as (l & sh & U & F & Hu & Hroot & HF & _ & _ & _).
  pose proof (vi_kmem _ _ _ (pi_vm _ _ _ _ (us_pt _ _ _ _ _ Hu))) as Hk.
  pose proof twin_result as Hg. unfold twin. destruct l as [|x l].
  { destruct (uvmcreate_fail _ Hk) as (s' & Hs & _). rewrite Hs in Hg. clear -Hg.
    apply Z.eqb_eq in Hg. unfold pg in Hg. klia. }
  destruct (uvmcreate_spec _ _ _ Hk) as (s' & Hs & Hu' & Hf). rewrite Hs in Hg.
  rewrite (final_eq _ _ _ _ Hs). clear Hs. apply Z.eqb_eq in Hg as ->.
  pose proof (ki_pages _ _ Hk) as [Hx _]%Forall_cons.
  pose proof (vi_kmem _ _ _ (pi_vm _ _ _ _ (us_pt _ _ _ _ _ Hu'))) as Hk'.
  assert (forall p, p ∈ [pg 5] -> p ∈ pg 5 :: l) as Hsub by (intros p Hp; apply list_elem_of_singleton in Hp as ->; left).
  destruct (uspace_beside _ _ _ _ _ _ l [pg 5] Hu Hk' Hf) as [Hu2 Hn];
    [by constructor|exact Hsub|by intros p Hp; right|]. specialize (Hn (pg 5) ltac:(left)).
  exists l, sh, U, F. split_and!; assumption.
Qed.

#[global] Opaque booted created grown twin.
