(* ===== verification/MemTheorems.v ===== *)
(** * The theorems of the memory subsystem (kernel/kalloc.c, kernel/vm.c)

    Each theorem is followed by an instance of it on the small machine. *)

From S2P Require Import Prelude CString Layout Spinlock Kalloc Vm VmSpec AddrSpace.
From S2P Require Import UserMem UserFree UserCopy UserFork SmallMachine.

Section Allocator.
Context `{HI : KernelImage}.
Context `{HOk : !ImageOk}.

(** C6: In every state reached from boot by clients that write and free only the
    pages they were given, kalloc returns a page of RAM that no client owns,
    filled with the byte 5, or 0 when the clients own every page. *)
Theorem kalloc_sound s o :
  reach s o ->
  exists r s', kalloc s = Ok r s' /\
    ((r = 0 /\ forall p, page_ok p -> p ∈ o) \/
     (page_ok r /\ (r ∉ o) /\ forall i, 0 <= i < PGSIZE -> rd (m_mem s') (r + i) = 5)).
Proof.
  intros Hr. destruct (reach_inv _ _ Hr) as (l & Hk & Hd & Ha).
  pose proof (kalloc_inv _ _ Hk) as Hal. destruct l as [|x l].
  - exists 0, (put_hart (touched (m_hart s)) s). split; [done|]. left. split; [done|].
    intros p Hp. apply Ha in Hp as [?%elem_of_nil|?]; done.
  - destruct Hal as (s' & Hs & _ & _ & Hm & _). exists x, s'. split; [done|]. right. split_and!.
    + apply Ha. left. by left.
    + apply Hd. by left.
    + unfold mem_is in Hm. rewrite Hm. clear Hm. intros i Hi. rewrite rd_memset by (consts; lia).
      destruct (Z.leb_spec x (x + i)), (Z.ltb_spec (x + i) (x + PGSIZE)); done || lia.
Qed.

(** Kinit puts exactly the whole pages between the end of the kernel and
    PHYSTOP on the free list. *)
Theorem kinit_frees_all s :
  hart_ok (m_hart s) -> kmem_freelist (m_kmem s) = 0 ->
  exists s' l, kinit s = Ok tt s' /\ kmem_inv s' l /\ forall p, p ∈ l <-> page_ok p.
Proof.
  intros Hh Hf. destruct (kinit_inv s Hh Hf) as (s' & Hs & Hk & _).
  eexists s', _. split_and!; [done..|]. apply elem_of_free_pages.
Qed.

(** Kfree panics on an address that is not a page of RAM above the kernel, and
    otherwise the next kalloc hands the freed page out again and leaves the
    free list as it was. *)
Theorem kfree_kalloc s l p :
  kmem_inv s l -> (p ∉ l) ->
  (~ page_ok p -> kfree p s = Panic "kfree") /\
  (page_ok p -> exists s1 s2, kfree p s = Ok tt s1 /\ kalloc s1 = Ok p s2 /\ kmem_inv s2 l).
Proof.
  intros Hk Hl. split; [apply kfree_bad|]. intros Hp.
  destruct (kfree_inv s l p Hk Hp Hl) as (s1 & Hs1 & Hk1 & _).
  destruct (kalloc_inv _ _ Hk1) as (s2 & Hs2 & Hk2 & _). by exists s1, s2.
Qed.

End Allocator.

Section AddressSpaces.
Context `{HI : KernelImage}.
Context `{HOk : !ImageOk}.

(** C10: mappages maps the pages of [va, va+size) to consecutive frames with the
    requested flags and changes no other entry; when the allocator runs out of
    pages for tables it returns -1 with a prefix of the pages mapped.  Tables
    come from the free list and no page is lost. *)
Theorem mappages_correct s l sh U va size pa perm :
  pt_inv s l sh U -> 0 <= va -> 0 < size -> va + size <= MAXVA ->
  0 <= pa -> pa mod PGSIZE = 0 -> pa + size + PGSIZE <= 2 ^ 56 -> 0 <= perm < 1024 ->
  let n := S (Z.to_nat ((va + size - 1) / 4096 - va / 4096)) in
  (forall k, va / 4096 <= k < va / 4096 + Z.of_nat n -> U !! k = None) ->
  exists r s' l' sh' k,
    mappages (sh_root sh) va size pa perm s = Ok r s' /\
    pt_inv s' l' sh' (map_range k (va / 4096) pa perm U) /\
    sh_root sh' = sh_root sh /\ l' ++ tables sh' ≡ₚ l ++ tables sh /\
    frame s s' (l ++ tables sh) /\
    (r = 0 /\ k = n \/ r = -1 /\ (k < n)%nat /\ l' = []).
Proof.
  intros Hi Hva Hsz Hmax Hpa Hpal Hpam Hperm n Hnone.
  destruct (mappages_spec s l sh U va size pa perm Hi Hva Hsz Hmax Hpa Hpal Hpam Hperm Hnone)
    as (r & s' & l' & sh' & k & Hr & He & Hi' & Hk & _).
  exists r, s', l', sh', k. destruct He. by split_and!.
Qed.

(** mappages never replaces a mapping: it panics. *)
Theorem mappages_no_remap s l sh U va size pa perm v :
  pt_inv s l sh U -> 0 <= va < MAXVA -> U !! (va / 4096) = Some v ->
  mappages (sh_root sh) va size pa perm s = Panic "remap".
Proof. apply mappages_remap. Qed.

(** C5: uvmalloc either returns newsz, with the address space grown to that size by
    distinct zeroed frames, user-accessible, the old pages untouched; or returns 0
    with the address space exactly as before, which happens only when the free
    pages do not suffice for the new pages and the tables they need.  Either
    way no page is lost. *)
Theorem uvmalloc_correct s l sh U F oldsz newsz :
  uspace s l sh U F -> length F = npg oldsz -> 0 <= oldsz <= newsz -> newsz <= TRAPFRAME ->
  exists r s' l' sh' U' G,
    uvmalloc (sh_root sh) oldsz newsz s = Ok r s' /\
    uspace s' l' sh' U' (F ++ G) /\ sh_root sh' = sh_root sh /\
    l' ++ tables sh' ++ G ≡ₚ l ++ tables sh /\ frame s s' (l ++ tables sh) /\
    (r = newsz /\ length (F ++ G) = npg newsz /\
       (forall p, p ∈ G -> page_zero (m_mem s') p) /\
       (forall i p, G !! i = Some p ->
          U' !! Z.of_nat (length F + i) = Some (mkpte p (Z.lor uperm PTE_V))) /\
       (forall k, k < Z.of_nat (length F) \/ NUSER <= k -> U' !! k = U !! k)
     \/ r = 0 /\ G = [] /\ U' = U /\
       (length l + length (tables sh) <= length (tables sh') + (npg newsz - length F))%nat).
Proof.
  intros Hu Hlen Hsz Hnew.
  destruct (uvmalloc_spec s l sh U F oldsz newsz Hu Hlen Hsz Hnew) as (r & s' & Hr & Hpost).
  destruct Hpost as [(-> & l' & sh' & U' & G & He & HG)|(-> & l' & sh' & He & Hb)].
  - exists newsz, s', l', sh', U', G. destruct He as [Hu' Hroot Hpg Hold Hn Hz Hf].
    split_and!; auto. left. rewrite length_app. split_and!; auto.
    intros k Hk. apply Hold. pose proof (us_len _ _ _ _ _ Hu') as HN. rewrite length_app in HN. lia.
  - exists 0, s', l', sh', U, []. destruct He as [Hu' Hroot Hpg Hold Hn Hz Hf].
    split_and!; [done..|]. right. by split_and!.
Qed.

(** Uvmdealloc shrinks the address space to newsz bytes: the pages above go back
    to the free list, those below keep their frames and entries. *)
Theorem uvmdealloc_correct s l sh U F oldsz newsz :
  uspace s l sh U F -> 0 <= newsz <= oldsz -> oldsz <= TRAPFRAME -> length F = npg oldsz ->
  exists s' U',
    uvmdealloc (sh_root sh) oldsz newsz s = Ok newsz s' /\
    uspace s' (rev (drop (npg newsz) F) ++ l) sh U' (take (npg newsz) F) /\
    (forall k, k < Z.of_nat (npg newsz) \/ Z.of_nat (npg oldsz) <= k -> U' !! k = U !! k) /\
    frame s s' (drop (npg newsz) F ++ tables sh).
Proof.
  intros Hu Hsz Hold Hlen.
  destruct (uvmdealloc_spec s l sh U F oldsz newsz Hu Hsz Hold Hlen) as (s' & Hs & Hu' & Hf).
  eexists s', _. split_and!; [exact Hs|exact Hu'| |exact Hf].
  intros k Hk. rewrite lookup_unmap_range. destruct (decide _); [lia|done].
Qed.

(** C7: uvmfree gives every user page and every table of the address space back to the
    allocator, each exactly once. *)
Theorem uvmfree_no_leak s l sh U F sz :
  uspace s l sh U F -> (forall k, NUSER <= k -> U !! k = None) ->
  length F = npg sz -> 0 <= sz <= TRAPFRAME ->
  exists s' l', uvmfree (sh_root sh) sz s = Ok tt s' /\
    kmem_inv s' l' /\ l' ≡ₚ F ++ tables sh ++ l.
Proof.
  intros Hu Hhi Hlen Hsz.
  destruct (uvmfree_spec s l sh U F sz Hu Hhi Hlen Hsz) as (s' & Hs & l' & Hk & Hl & _).
  exists s', l'. split_and!; auto. by rewrite Hl, <- app_assoc.
Qed.

End AddressSpaces.

Section Copies.
Context `{HI : KernelImage}.
Context `{HOk : !ImageOk}.

(** C4: uvmcopy gives the child its own frames in which every user address reads as
    in the parent, or returns -1 with the child left without user pages, which
    happens only when memory runs out.  The parent keeps its pages and their
    contents, and no page is lost. *)
Theorem uvmcopy_correct s l sh U F shn Un sz :
  uspace s l sh U F -> uspace s l shn Un [] -> (forall p, p ∈ tables sh ++ F -> p ∉ tables shn) ->
  length F = npg sz -> 0 <= sz <= TRAPFRAME ->
  exists r s' l' shn' Un' G,
    uvmcopy (sh_root sh) (sh_root shn) sz s = Ok r s' /\
    uspace s' l' sh U F /\ uspace s' l' shn' Un' G /\ sh_root shn' = sh_root shn /\
    l' ++ tables shn' ++ G ≡ₚ l ++ tables shn /\
    (forall p, p ∈ F -> same_page (m_mem s) p (m_mem s') p) /\
    (r = 0 /\ length G = length F /\
       (forall va, 0 <= va < PGSIZE * Z.of_nat (length F) ->
          uread (m_mem s') Un' va = uread (m_mem s) U va)
     \/ r = -1 /\ G = [] /\ Un' = Un /\
       (length l + length (tables shn) <= length (tables shn') + length F)%nat).
Proof.
  intros Hold Hnew Hdis Hlen Hsz.
  destruct (uvmcopy_spec s l sh U F shn Un sz Hold Hnew Hdis Hlen Hsz) as (r & s' & Hr & Hpost).
  destruct Hpost as [(-> & l' & shn' & Un' & G & Hc & HG)|(-> & l' & shn' & Hc & Hb)].
  - exists 0, s', l', shn', Un', G. split_and!; try apply Hc; auto.
    + by eapply (ucopy_old s l sh shn U Un F Hold Hnew Hdis).
    + intros p Hp. by eapply (ucopy_old_page s l sh shn U Un F Hold Hnew Hdis).
    + left. split_and!; auto. intros va Hva. by eapply ucopy_uread.
  - exists (-1), s', l', shn', Un, []. split_and!; try apply Hc; auto.
    + by eapply (ucopy_old s l sh shn U Un F Hold Hnew Hdis).
    + intros p Hp. by eapply (ucopy_old_page s l sh shn U Un F Hold Hnew Hdis).
Qed.

(** C8: copyout writes kernel bytes to user memory exactly: it returns 0 when every
    byte of the range is user-accessible, and -1 otherwise after copying the
    bytes before the first inaccessible page.  No other user byte changes. *)
Theorem copyout_correct s l sh U F va src len :
  uspace s l sh U F -> high_ok U -> 0 <= va -> 0 <= len -> apart src len F ->
  exists r s' k,
    copyout (sh_root sh) va src len s = Ok r s' /\
    uspace s' l sh U F /\ frame s s' F /\
    (r = 0 /\ k = len \/ r = -1 /\ 0 <= k < len /\ uread (m_mem s) U (va + k) = None) /\
    forall va', uread (m_mem s') U va' =
      if (va <=? va') && (va' <? va + k) then Some (rd (m_mem s) (src + (va' - va)))
      else uread (m_mem s) U va'.
Proof. apply copyout_spec. Qed.

(** C9: copyin reads user memory into a kernel buffer exactly, with the same results,
    and writes nothing but that buffer. *)
Theorem copyin_correct s l sh U F dst va len :
  uspace s l sh U F -> high_ok U -> 0 <= va -> 0 <= len -> apart dst len (l ++ tables sh ++ F) ->
  exists r s' k,
    copyin (sh_root sh) dst va len s = Ok r s' /\ 0 <= k <= len /\
    uspace s' l sh U F /\ only_range (m_mem s) dst k (m_mem s') /\
    (r = 0 /\ k = len \/ r = -1 /\ 0 <= k < len /\ uread (m_mem s) U (va + k) = None) /\
    forall i, 0 <= i < k -> uread (m_mem s) U (va + i) = Some (rd (m_mem s') (dst + i)).
Proof. apply copyin_spec. Qed.

(** Copyinstr copies a user string up to and including its first nul and returns
    0; it returns -1 when there is no nul within max bytes or before the first
    inaccessible page. *)
Theorem copyinstr_correct s l sh U F dst va max :
  uspace s l sh U F -> high_ok U -> 0 <= va -> 0 <= max -> apart dst max (l ++ tables sh ++ F) ->
  exists r s' k,
    copyinstr (sh_root sh) dst va max s = Ok r s' /\ 0 <= k <= max /\
    uspace s' l sh U F /\ only_range (m_mem s) dst k (m_mem s') /\
    (forall i, 0 <= i < k -> uread (m_mem s) U (va + i) = Some (rd (m_mem s') (dst + i))) /\
    (r = 0 /\ 0 < k /\ rd (m_mem s') (dst + (k - 1)) = 0 /\
       (forall i, 0 <= i < k - 1 -> rd (m_mem s') (dst + i) <> 0)
     \/ r = -1 /\ (forall i, 0 <= i < k -> rd (m_mem s') (dst + i) <> 0) /\
       (k = max \/ uread (m_mem s) U (va + k) = None)).
Proof.
  intros Hu Hh Hva Hmax Hap.
  destruct (copyinstr_spec s l sh U F dst va max Hu Hh Hva Hmax Hap)
    as (r & s' & k & Hr & Hk & Hu' & Ho & Hb & Hres).
  exists r, s', k. split_and!; try done; try lia.
  destruct Hres as [[-> [H1 H2]]|(-> & [H1 _] & Hend)]; [left|right]; [|done].
  destruct (H2 eq_refl) as [H3 H4]. by split_and!.
Qed.

End Copies.

(** ** Instances on the small machine *)

Lemma page_ok_pg i : 0 <= i < 20 -> page_ok (pg i).
Proof. intros Hi. unfold page_ok, pg. cbn [k_end small_image]. klia. Qed.

Lemma kalloc_sound_witness :
  exists r s', kalloc booted = Ok r s' /\ page_ok r /\
    forall i, 0 <= i < PGSIZE -> rd (m_mem s') (r + i) = 5.
Proof.
  destruct (kalloc_sound booted ∅) as (r & s' & Hr & [[_ Hall]|(Hp & _ & Hb)]).
  - apply (reach_boot power_on); [apply power_on_ok|reflexivity|apply booted_eq].
  - destruct (not_elem_of_empty (C := gset Z) (pg 0)). apply Hall, page_ok_pg. lia.
  - exists r, s'. split_and!; assumption.
Defined.

Lemma kinit_frees_all_witness :
  exists s' l, kinit power_on = Ok tt s' /\ kmem_inv s' l /\ forall p, p ∈ l <-> page_ok p.
Proof. apply (kinit_frees_all power_on); [apply power_on_ok|reflexivity]. Defined.

(** [pg 0] is in use in [created]: freeing it and allocating again gives it back;
    an address inside a page is refused. *)
Lemma kfree_kalloc_witness :
  (exists s1 s2, kfree (pg 0) created = Ok tt s1 /\ kalloc s1 = Ok (pg 0) s2) /\
  kfree (pg 0 + 8) created = Panic "kfree".
Proof.
  assert (kmem_inv created (pg <$> seqZ 1 19)) as Hk by apply created_space.
  assert (forall p, p = pg 0 \/ p = pg 0 + 8 -> p ∉ pg <$> seqZ 1 19) as Hn.
  { intros p Hp (i & -> & Hi%elem_of_seqZ)%list_elem_of_fmap. unfold pg in Hp. consts. lia. }
  split.
  - destruct (kfree_kalloc created _ (pg 0) Hk (Hn _ (or_introl eq_refl))) as [_ Hok].
    destruct (Hok (page_ok_pg 0 ltac:(lia))) as (s1 & s2 & H1 & H2 & _).
    exists s1, s2. split; assumption.
  - apply (kfree_kalloc created _ (pg 0 + 8) Hk (Hn _ (or_intror eq_refl))).
    intros [Ha _]. vm_compute in Ha. congruence.
Defined.

(** Mapping a free user page of [grown] to the frame [pg 11]. *)
Lemma mappages_correct_witness :
  exists r s', mappages (pg 0) 8192 4096 (pg 11) uperm grown = Ok r s' /\ (r = 0 \/ r = -1).
Proof.
  destruct grown_space as (l & sh & U & F & Hu & Hroot & HF & _). rewrite <- Hroot.
  destruct (mappages_correct grown l sh U 8192 4096 (pg 11) uperm) as (r & s' & l' & sh' & k & Hr & H);
    [apply Hu|lia|lia|consts; lia|unfold pg; consts; lia|reflexivity|unfold pg; consts; lia
    |change uperm with 30; lia|..].
  - intros k Hk. apply (us_gap _ _ _ _ _ Hu). rewrite HF, NUSER_eq. zlia.
  - exists r, s'. split; [exact Hr|]. tauto.
Defined.

(** The first page of [grown] is mapped already. *)
Lemma mappages_no_remap_witness :
  mappages (pg 0) 0 4096 (pg 11) uperm grown = Panic "remap".
Proof.
  destruct grown_space as (l & sh & U & F & Hu & Hroot & HF & _). rewrite <- Hroot.
  destruct (lookup_lt_is_Some_2 F 0) as [p Hp]; [lia|].
  destruct (us_frames _ _ _ _ _ Hu _ _ Hp) as (v & Hv & _).
  apply (mappages_no_remap grown l sh U 0 4096 (pg 11) uperm v); [apply Hu|consts; lia|exact Hv].
Defined.

Lemma uvmalloc_correct_witness :
  exists r s', uvmalloc (pg 0) 0 8192 created = Ok r s' /\ (r = 8192 \/ r = 0).
Proof.
  destruct (uvmalloc_correct created _ _ ∅ [] 0 8192 created_space)
    as (r & s' & l' & sh' & U' & G & Hr & _ & _ & _ & _ & Hc); [reflexivity|lia|klia|].
  exists r, s'. split; [exact Hr|]. tauto.
Defined.

Lemma uvmdealloc_correct_witness : exists s', uvmdealloc (pg 0) 8192 100 grown = Ok 100 s'.
Proof.
  destruct grown_space as (l & sh & U & F & Hu & Hroot & HF & _). rewrite <- Hroot.
  destruct (uvmdealloc_correct grown l sh U F 8192 100 Hu) as (s' & U' & Hs & _);
    [lia|klia|exact HF|].
  exists s'. exact Hs.
Defined.

(** After uvmfree all twelve pages are free again. *)
Lemma uvmfree_no_leak_witness :
  exists s' l', uvmfree (pg 0) 8192 grown = Ok tt s' /\ kmem_inv s' l' /\ l' ≡ₚ pg <$> seqZ 0 20.
Proof.
  destruct grown_space as (l & sh & U & F & Hu & Hroot & HF & Hhi & _ & Hall). rewrite <- Hroot.
  destruct (uvmfree_no_leak grown l sh U F 8192 Hu Hhi) as (s' & l' & Hs & Hk & Hl); [exact HF|klia|].
  exists s', l'. split_and!; [exact Hs|exact Hk|]. rewrite Hl, <- Hall, app_assoc.
  rewrite (Permutation_app_comm _ l), (Permutation_app_comm F). reflexivity.
Defined.

Lemma uvmcopy_correct_witness :
  exists r s', uvmcopy (pg 0) (pg 5) 8192 twin = Ok r s' /\ (r = 0 \/ r = -1).
Proof.
  destruct twin_space as (l & sh & U & F & Hu & Hroot & HF & Hu' & Hn). rewrite <- Hroot.
  destruct (uvmcopy_correct twin l sh U F (empty_shape (pg 5)) ∅ 8192 Hu Hu')
    as (r & s' & l' & shn' & Un' & G & Hr & _ & _ & _ & _ & _ & Hc).
  - intros p Hp ->%list_elem_of_singleton. contradiction.
  - exact HF.
  - consts. lia.
  - exists r, s'. split; [exact Hr|]. tauto.
Defined.

(** A buffer in the kernel image shares no page with the allocator's RAM. *)
Lemma apart_image a n ps : Forall page_ok ps -> a + n <= k_end -> apart a n ps.
Proof.
  intros Hps Ha i p Hi Hp. eapply Forall_forall in Hps as [_ [Hlo _]]; [|exact Hp].
  unfold in_page. lia.
Qed.

Lemma high_unmapped U : (forall k, NUSER <= k -> U !! k = None) -> high_ok U.
Proof. intros H k Hk. unfold upage. rewrite H by done. by destruct (_ <=? _). Qed.

Lemma copyout_correct_witness :
  exists r s', copyout (pg 0) 4090 KERNBASE 100 grown = Ok r s' /\ (r = 0 \/ r = -1).
Proof.
  destruct grown_space as (l & sh & U & F & Hu & Hroot & HF & Hhi & _). rewrite <- Hroot.
  destruct (copyout_correct grown l sh U F 4090 KERNBASE 100 Hu (high_unmapped U Hhi))
    as (r & s' & k & Hr & _ & _ & Hc & _); [lia|lia| |].
  - apply apart_image; [apply Hu|cbn [k_end small_image]; consts; lia].
  - exists r, s'. split; [exact Hr|]. tauto.
Defined.

Lemma grown_all_ok l sh U F :
  uspace grown l sh U F -> Forall page_ok (l ++ tables sh ++ F).
Proof.
  intros Hu. rewrite app_assoc. apply Forall_app. split; [|apply Hu].
  by eapply uspace_all_ok.
Qed.

(** The second page ends at 8192: a copy across it stops there. *)
Lemma copyin_correct_witness :
  exists r s', copyin (pg 0) KERNBASE 8000 300 grown = Ok r s' /\ (r = 0 \/ r = -1).
Proof.
  destruct grown_space as (l & sh & U & F & Hu & Hroot & HF & Hhi & _). rewrite <- Hroot.
  destruct (copyin_correct grown l sh U F KERNBASE 8000 300 Hu (high_unmapped U Hhi))
    as (r & s' & k & Hr & _ & _ & _ & Hc & _); [lia|lia| |].
  - apply apart_image; [by apply (grown_all_ok l sh U F)|cbn [k_end small_image]; consts; lia].
  - exists r, s'. split; [exact Hr|]. tauto.
Defined.

Lemma copyinstr_correct_witness :
  exists r s', copyinstr (pg 0) KERNBASE 0 16 grown = Ok r s' /\ (r = 0 \/ r = -1).
Proof.
  destruct grown_space as (l & sh & U & F & Hu & Hroot & HF & Hhi & _). rewrite <- Hroot.
  destruct (copyinstr_correct grown l sh U F KERNBASE 0 16 Hu (high_unmapped U Hhi))
    as (r & s' & k & Hr & _ & _ & _ & _ & Hc); [lia|lia| |].
  - apply apart_image; [by apply (grown_all_ok l sh U F)|cbn [k_end small_image]; consts; lia].
  - exists r, s'. split; [exact Hr|]. tauto.
Defined.
