(* ===== verification/ProcTheorems.v ===== *)
(** * Theorems about the process table *)

From S2P Require Import Prelude CString Layout Spinlock Kalloc State Output Vm Proc ProcSpec UserMem SmallMachine.

(** ** A small process table: init, a shell that runs, its two children (one
    asleep for the clock, one a zombie), and a process asleep on a disk buffer *)

Definition sample_proc (st : procstate) (parent : option nat) (ch : option chan) (pid : Z) : proc :=
  set_p_pid pid (set_p_chan ch (set_p_parent parent (set_p_state st proc0))).

Definition sample_hart : hart := Hart 0 (Csrs 2 0 0 0 0 0 0) {[0 := Cpu (Some 1%nat) context0 0 false]}.

Definition sample_procs : list (nat * proc) :=
  [(0%nat, sample_proc SLEEPING None (Some (ChProc 0)) 1);
   (1%nat, sample_proc RUNNING (Some 0%nat) None 2);
   (2%nat, sample_proc SLEEPING (Some 1%nat) (Some ChTicks) 3);
   (3%nat, sample_proc ZOMBIE (Some 1%nat) None 4);
   (4%nat, sample_proc SLEEPING (Some 0%nat) (Some (ChBuf 7)) 5)].

Definition sample : kst :=
  let s := zero_kst (Mst sample_hart ∅ (Kmem lock0 0) 0) in
  set_pt (set_pt_proc (list_to_map sample_procs) (k_pt s)) s.

#[export] Instance nobody : Others := {| others s := s; patience := 0 |}.

Lemma sample_ok : hart_ok (hart_of sample).
Proof. split; done. Qed.

Lemma sample_locks : plocks_free sample.
Proof.
  intros i. destruct (decide (i < 5)%nat) as [Hi|Hi].
  - do 5 (destruct i as [|i]; [done|]). lia.
  - unfold getp. replace (pt_proc (k_pt sample) !! i) with (@None proc); [done|]. symmetry.
    apply not_elem_of_list_to_map_1. cbn. rewrite !not_elem_of_cons. split_and!; try lia. apply not_elem_of_nil.
Qed.

(** ** Properties *)

(** Wakeup makes runnable exactly the processes asleep on the channel, and
    leaves every other process and the rest of the kernel alone. *)
Theorem wakeup_correct ch s :
  hart_ok (hart_of s) -> plocks_free s ->
  exists s', wakeup ch s = Ok tt s' /\
    (forall i, (i < Z.to_nat NPROC)%nat ->
       p_state (getp s i) = SLEEPING -> p_chan (getp s i) = Some ch ->
       getp s' i = set_p_state RUNNABLE (getp s i)) /\
    (forall i, p_state (getp s i) <> SLEEPING \/ p_chan (getp s i) <> Some ch -> getp s' i = getp s i) /\
    s' = set_pt (set_pt_proc (pt_proc (k_pt s')) (k_pt s)) (put_hart (touched (hart_of s)) s).
Proof.
  intros Hh Hl. eexists. split; [by apply wakeup_eq|].
  assert (forall i, wake ch (getp s i) = getp s i ->
            getp (wakes ch procs (put_hart (touched (hart_of s)) s)) i = getp s i) as Hid.
  { intros i Hi. rewrite getp_wakes by apply NoDup_seq. by case_decide. }
  split_and!.
  - intros i Hi Hs Hc. rewrite getp_wakes by apply NoDup_seq.
    rewrite decide_True by (apply elem_of_seq; unfold NPROC in *; lia). autorewrite with proc.
    unfold wake. by rewrite (bool_decide_eq_true_2 _ Hs), (bool_decide_eq_true_2 _ Hc).
  - intros i Hi. apply Hid. unfold wake.
    destruct Hi as [Hi|Hi]; rewrite (bool_decide_eq_false_2 _ Hi), ?andb_false_r; done.
  - exact (wakes_rest ch procs (put_hart (touched (hart_of s)) s)).
Qed.

Lemma wakeup_correct_witness :
  exists s', wakeup ChTicks sample = Ok tt s' /\ p_state (getp s' 2) = RUNNABLE /\
    p_state (getp s' 4) = SLEEPING.
Proof.
  destruct (wakeup_correct ChTicks sample sample_ok sample_locks) as (s' & Hw & Hon & Hoff & _).
  exists s'. split; [exact Hw|]. split.
  - rewrite (Hon 2%nat); [reflexivity|vm_compute; lia|reflexivity|reflexivity].
  - rewrite (Hoff 4%nat); [reflexivity|]. right. discriminate.
Defined.

(** Kill marks the process with that pid killed and wakes it if it sleeps,
    and touches no other process; when no slot has the pid it returns -1 and
    changes no process. *)
Theorem kill_correct pid s :
  hart_ok (hart_of s) -> plocks_free s ->
  (forall i, (i < Z.to_nat NPROC)%nat -> p_pid (getp s i) = pid ->
     (forall j, (j < i)%nat -> p_pid (getp s j) <> pid) ->
     exists s', kill pid s = Ok 0 s' /\
       p_killed (getp s' i) = 1 /\
       p_state (getp s' i) = (if decide (p_state (getp s i) = SLEEPING) then RUNNABLE else p_state (getp s i)) /\
       (forall j, j <> i -> getp s' j = getp s j)) /\
  ((forall i, (i < Z.to_nat NPROC)%nat -> p_pid (getp s i) <> pid) ->
     exists s', kill pid s = Ok (-1) s' /\ quiet s s').
Proof.
  intros Hh Hl. destruct (kill_scan_spec pid procs s Hh Hl) as (s' & Hq & Hk). split.
  - intros i Hi Hp Hmin. assert (find_pid pid procs s = Some i) as Hf by (by apply find_pid_least).
    rewrite Hf in Hk. eexists. split; [exact Hk|]. rewrite getp_setp, decide_True by done.
    split_and!; [unfold kill_proc; by case_match|unfold kill_proc; by case_match|].
    intros j Hj. rewrite getp_setp, decide_False by done. by apply quiet_getp.
  - intros Hno. assert (find_pid pid procs s = None) as Hf by (by apply find_pid_none).
    rewrite Hf in Hk. by exists s'.
Qed.

Lemma kill_correct_witness :
  exists s', kill 5 sample = Ok 0 s' /\ p_killed (getp s' 4) = 1 /\ p_state (getp s' 4) = RUNNABLE.
Proof.
  destruct (kill_correct 5 sample sample_ok sample_locks) as [Hhit _].
  destruct (Hhit 4%nat) as (s' & Hk & Hd & Hst & _).
  - vm_compute. lia.
  - reflexivity.
  - intros j Hj. do 4 (destruct j as [|j]; [discriminate|]). lia.
  - exists s'. split; [exact Hk|]. split; [exact Hd|]. rewrite Hst. reflexivity.
Defined.

(** C34: wait() with no address to copy to returns the pid of the first zombie
    child but reaps nothing: every process, the zombie included, is as
    before, and the next wait() returns the same pid again. *)
Theorem wait_keeps_zombie i j flags s :
  hart_ok (hart_of s) -> plocks_free s -> c_proc (mycpu (hart_of s)) = Some i ->
  p_parent (getp s i) <> Some i -> zombie_child i procs s = Some j ->
  exists s1 s2,
    wait 0 flags s = Ok (p_pid (getp s j)) s1 /\ (forall k, getp s1 k = getp s k) /\
    wait 0 flags s1 = Ok (p_pid (getp s j)) s2 /\ (forall k, getp s2 k = getp s k).
Proof.
  intros Hh Hl Hc Hp Hz. destruct (wait_zombie i j flags s) as (s1 & H1 & Hw1); try done.
  assert (forall k, getp s1 k = getp s k) as Hg by (intros; by apply quiet_getp).
  destruct (wait_zombie i j flags s1) as (s2 & H2 & Hw2).
  - by eapply quiet_hart_ok.
  - by eapply quiet_locks.
  - by rewrite (quiet_cproc s).
  - by rewrite Hg.
  - rewrite <- Hz. unfold zombie_child. f_equal. apply list_filter_iff. intros x. by rewrite Hg.
  - exists s1, s2. rewrite Hg in Hw2. split_and!; try done.
    intros k. rewrite <- Hg. by apply quiet_getp.
Qed.

Lemma wait_keeps_zombie_witness :
  exists s1 s2, wait 0 0 sample = Ok 4 s1 /\ p_state (getp s1 3) = ZOMBIE /\ wait 0 0 s1 = Ok 4 s2.
Proof.
  destruct (wait_keeps_zombie 1 3 0 sample sample_ok sample_locks) as (s1 & s2 & H1 & Hg & H2 & _).
  - reflexivity.
  - discriminate.
  - reflexivity.
  - exists s1, s2. split; [exact H1|]. split; [rewrite Hg; reflexivity|exact H2].
Defined.
