(* ===== verification/ForkTheorems.v ===== *)
(** * Theorems about fork

    On the small machine, a process made by allocproc and grown to one page. *)

From S2P Require Import Prelude CString Layout Spinlock Kalloc State Output Vm Proc SleepLock Bio Log Fs Pipe Console File ProcFs ProcSpec VmSpec AddrSpace UserMem UserFree UserCopy UserFork ProcMem Fork SmallMachine ProcTheorems.

(** No disk: fork never reaches it. *)
#[export] Instance no_disk : BlockDev := {| disk_rw _ _ := skip |}.

Definition kfinal {A} (c : M kst A) (s : kst) : kst :=
  match c s with Ok _ s' => s' | _ => s end.

Lemma kfinal_eq {A} (c : M kst A) s a s' : c s = Ok a s' -> kfinal c s = s'.
Proof. unfold kfinal. by intros ->. Qed.

(** Slot 0 filled by allocproc. *)
Definition slot0 : kst := kfinal (allocproc_found 0) (in_plock 0 (zero_kst booted)).

Lemma slot0_result :
  match allocproc_found 0 (in_plock 0 (zero_kst booted)) with Ok (Some _) _ => true | _ => false end = true.
Proof. vm_compute. reflexivity. Qed.

Lemma slot0_space :
  let p := getp slot0 0 in
  exists l sh U, pspace (k_m slot0) l sh U [] (p_trapframe p) /\ p_pagetable p = sh_root sh /\
    page_ok (p_trapframe p) /\ (p_trapframe p ∉ l ++ tables sh).
Proof.
  pose proof slot0_result as Hr. unfold slot0.
  destruct (allocproc_found_spec (zero_kst booted) free20 0) as
    [(m & tf & l & sh & U & Ho & _ & Hp & Hok & Hl & Ht & _)|(m & l & p & Ho & _)].
  1: apply (ki_hart _ _ booted_inv).
  1: split; reflexivity.
  1: reflexivity.
  1: split; reflexivity.
  1: exact booted_inv.
  - rewrite (kfinal_eq _ _ _ _ Ho), getp_setp, decide_True by done. exists l, sh, U.
    split_and!; [exact Hp|reflexivity|exact Hok|]. rewrite elem_of_app. intros [?|?]; contradiction.
  - rewrite Ho in Hr. discriminate Hr.
Qed.
#[global] Opaque slot0.

Lemma upage_new U g : page_ok g -> U !! 0 = Some (mkpte g (Z.lor uperm PTE_V)) -> is_Some (upage U 0).
Proof.
  intros Hg HU. unfold upage. rewrite HU. change (MAXVA / PGSIZE <=? 0) with false. cbv iota.
  rewrite testbit_mkpte; [|by apply page_ok_56|done|done]. by change (Z.testbit (Z.lor uperm PTE_V) 4) with true.
Qed.

(** Its first user page. *)
Definition solo_mem : mst := final (uvmalloc (p_pagetable (getp slot0 0)) 0 4096) (k_m slot0).

Lemma solo_result :
  match uvmalloc (p_pagetable (getp slot0 0)) 0 4096 (k_m slot0) with Ok r _ => r =? 4096 | _ => false end = true.
Proof. vm_compute. reflexivity. Qed.

Lemma solo_space :
  let p := getp slot0 0 in
  exists l sh U F, pspace solo_mem l sh U F (p_trapframe p) /\ p_pagetable p = sh_root sh /\ length F = 1%nat /\
    page_ok (p_trapframe p) /\ (p_trapframe p ∉ l ++ tables sh ++ F) /\ is_Some (upage U 0).
Proof.
  destruct slot0_space as (l & sh & U & [Hu Ht] & Hroot & Hok & Hn). intros p.
  pose proof solo_result as Hg. unfold solo_mem. rewrite Hroot in Hg |- *.
  destruct (uvmalloc_spec (k_m slot0) _ _ U [] 0 4096 Hu) as (r & m & Hr & Hp); [reflexivity|lia|klia|].
  rewrite (final_eq _ _ _ _ Hr). rewrite Hr in Hg. apply Z.eqb_eq in Hg as ->. clear Hr.
  destruct Hp as [(_ & l' & sh' & U' & G & He & HG)|[Hz _]]; [|clear -Hz; lia].
  destruct He as [Hu' Hroot' Hpg Hold Hnew _ _]. exists l', sh', U', G. cbn [app length] in *.
  change (npg 4096) with 1%nat in HG. cbn [Nat.add] in HG. destruct top_vpns as (E1 & E2 & E3).
  split_and!; [split; [exact Hu'|]|transitivity (sh_root sh); [exact Hroot|symmetry; exact Hroot']|exact HG|exact Hok|by rewrite Hpg|].
  2:{ destruct G as [|g G']; [discriminate HG|]. pose proof (us_pages _ _ _ _ _ Hu') as [Hg _]%Forall_cons.
      exact (upage_new U' g Hg (Hnew 0%nat g eq_refl)). }
  destruct Ht as [T1 T2 T3]. split; [rewrite Hold by lia; assumption..|].
  intros k Hk1 Hk2 Hk3. rewrite Hold by lia. auto.
Qed.
#[global] Opaque solo_mem.

(** The process runs on hart 0, with one open file and a current directory. *)
Definition solo_proc (root tf : Z) : proc :=
  Proc lock0 RUNNING None None 0 0 1 0 4096 root tf context0
    {[1%nat := 0%nat]} (Some 0%nat) (replicate 16 0).

Definition solo_hart : hart := Hart 0 (Csrs 2 0 0 0 0 0 0) {[0 := Cpu (Some 0%nat) context0 0 false]}.

Definition solo_at (m : mst) (root tf : Z) : kst :=
  setp 0 (solo_proc root tf) (setf 0 (set_f_ref 1 file0)
    (set_pt (Ptable ∅ 2 lock0 None 0 0) (zero_kst (put_hart solo_hart m)))).

Definition solo : kst := solo_at solo_mem (p_pagetable (getp slot0 0)) (p_trapframe (getp slot0 0)).

Lemma solo_at_ready m root tf l sh U F :
  pspace m l sh U F tf -> root = sh_root sh -> length F = 1%nat -> page_ok tf -> (tf ∉ l ++ tables sh ++ F) ->
  fork_ready (solo_at m root tf) l 0 0 sh U F.
Proof.
  intros [Hu Ht] Hroot HF Hok Hn. set (t := solo_at m root tf).
  assert (forall q, getp t q = if decide (0%nat = q) then solo_proc root tf else proc0) as Hg.
  { intros q. unfold t, solo_at. rewrite getp_setp. reflexivity. }
  assert (hart_ok solo_hart) as Hh by (split; done). split.
  - exact Hh.
  - intros q. rewrite Hg. case_decide; split; reflexivity.
  - repeat split.
  - reflexivity.
  - rewrite Hg. discriminate.
  - rewrite Hg, decide_True by reflexivity. rewrite !not_elem_of_app in Hn.
    split; [done|split; [by apply uspace_hart|done]|split; [done|cbn [p_sz solo_proc]; klia]|done|done].
  - reflexivity.
  - intros fd f. rewrite Hg, decide_True by reflexivity. unfold solo_proc, p_ofile.
    intros [<- <-]%lookup_singleton_Some. split; [|change (1 <= 1); lia]. apply elem_of_seq. vm_compute. lia.
  - intros q. rewrite Hg. case_decide; [discriminate|]. split; reflexivity.
Qed.

Lemma solo_ready : exists l sh U F, fork_ready solo l 0 0 sh U F /\ length F = 1%nat /\ is_Some (upage U 0).
Proof.
  destruct solo_space as (l & sh & U & F & Hs & Hroot & HF & Hok & Hn & Hpg). exists l, sh, U, F. split; [|exact (conj HF Hpg)].
  apply solo_at_ready; assumption.
Qed.

(** With twenty pages the call succeeds: the child, in slot 1, gets pid 2. *)
Example fork_runs :
  match fork solo with
  | Ok r s' => (r =? 2) && bool_decide (p_state (getp s' 1) = RUNNABLE)
  | _ => false
  end = true.
Proof. vm_compute. reflexivity. Qed.

(** C3: fork, called by a process that owns its memory, always returns.  It
    returns the next pid, and then a slot that was unused holds a runnable child
    whose parent is the caller, with pages of its own in which every user
    address reads as in the parent, the parent's registers except a0 = 0, the
    parent's open files with one more reference each and its directory; or it
    returns -1, every page is free again and no slot in use has changed.  It
    returns -1 only when no slot is unused or the free list has no more than
    [fork_pages n] pages: a trapframe, [n] copies and the tables for them, for a
    parent of [n] pages.  In both cases the parent keeps its pages and reads the
    same memory. *)
Theorem fork_correct s l i c sh U F :
  fork_ready s l i c sh U F ->
  exists r s' l', fork s = Ok r s' /\
    owns (k_m s') l' (getp s i) sh U F /\ same_view (m_mem (k_m s)) (getp s i) U F (m_mem (k_m s')) /\
    ((r = -1 /\ fork_failed s l F s' l') \/
     (exists j shn Un G, r = pt_nextpid (k_pt s) /\ forked s l i c U F s' l' j shn Un G)).
Proof.
  intros Hr. destruct (fork_spec s l i c sh U F Hr) as (r & s' & Hf & l' & Hp).
  exists r, s', l'. auto.
Qed.

Lemma fork_correct_witness :
  exists s' l' sh U F j shn Un G, fork solo = Ok 2 s' /\ owns (k_m s') l' (getp solo 0) sh U F /\ length F = 1%nat /\
    p_state (getp s' j) = RUNNABLE /\ p_parent (getp s' j) = Some 0%nat /\ owns (k_m s') l' (getp s' j) shn Un G /\ length G = 1%nat /\
    forall va, 0 <= va < 4096 -> uread (m_mem (k_m s')) Un va = uread (m_mem (k_m solo)) U va.
Proof.
  destruct solo_ready as (l & sh & U & F & Hr & HF & _).
  destruct (fork_correct solo l 0 0 sh U F Hr) as (r & s' & l' & Hf & Ho & _ & Hc).
  pose proof fork_runs as H2. rewrite Hf in H2. apply andb_true_iff in H2 as [H2 _]. apply Z.eqb_eq in H2 as ->.
  destruct Hc as [[Hm _]|(j & shn & Un & G & _ & Hk)]; [discriminate|].
  exists s', l', sh, U, F, j, shn, Un, G. destruct (fk_size _ _ _ _ _ _ _ _ _ _ _ _ Hk) as [_ HG].
  split_and!; [exact Hf|exact Ho|exact HF|apply Hk|apply Hk|apply Hk|congruence|].
  intros va Hva. apply (fk_memory _ _ _ _ _ _ _ _ _ _ _ _ Hk). rewrite HF. exact Hva.
Defined.
