(* ===== verification/PipeTheorems.v ===== *)
(** * Theorems about pipes *)

From S2P Require Import Prelude CString Layout Spinlock Kalloc State Output Vm Proc Pipe ProcSpec VmSpec AddrSpace UserMem UserCopy ObjCopy PipeSpec ProcMem SmallMachine ProcTheorems ForkTheorems.

Section Properties.
Context `{KI : KernelImage} `{IO : !ImageOk} `{OT : Others}.

(** C23: piperead, when the pipe has data or its write end is closed, returns
    without sleeping.  The bytes at the front of the queue go, in order, to the
    user buffer, as many as asked for and as there are, and leave the queue;
    if the user cannot access an address the transfer stops there, and the
    byte meant for it is lost.  No other user byte changes, the writers
    asleep on the pipe run, and the pipe's lock is free again. *)
Theorem piperead_correct s a pr pi l sh U F addr n :
  pipe_ready s a pr pi l sh U F -> 0 <= addr -> 0 <= n -> addr + n <= 2 ^ 64 ->
  pipe_queue pi <> [] \/ pi_writeopen pi = 0 ->
  exists r c s', piperead a addr n s = Ok r s' /\
    pipe_done s a pi (ChPipeWrite a) (drop (Z.to_nat c) (pipe_queue pi)) l sh U F s' /\
    ((r = c /\ c = Z.min n (Z.of_nat (length (pipe_queue pi)))) \/
     (c = r + 1 /\ 0 <= r < Z.min n (Z.of_nat (length (pipe_queue pi))) /\
      uread (m_mem (k_m s)) U (addr + r) = None)) /\
    forall va, uread (m_mem (k_m s')) U va =
      if (addr <=? va) && (va <? addr + r) then Some (pipe_queue pi !!! Z.to_nat (va - addr))
      else uread (m_mem (k_m s)) U va.
Proof. apply piperead_spec. Qed.

(** C24: pipewrite of [n] bytes into a pipe with room for them returns without
    sleeping the number of bytes written: all of them, or those before the
    first address the user cannot access.  They join the end of the queue in
    the order of the user buffer, memory is unchanged, the readers asleep on
    the pipe run, and the pipe's lock is free again. *)
Theorem pipewrite_correct s a pr pi l sh U F addr n :
  pipe_ready s a pr pi l sh U F -> 0 <= addr -> 0 <= n -> addr + n <= 2 ^ 64 ->
  Z.of_nat (length (pipe_queue pi)) + n <= PIPESIZE ->
  exists bs s', pipewrite a addr n s = Ok (Z.of_nat (length bs)) s' /\
    pipe_done s a pi (ChPipeRead a) (pipe_queue pi ++ bs) l sh U F s' /\
    (Z.of_nat (length bs) = n \/
     Z.of_nat (length bs) < n /\ uread (m_mem (k_m s)) U (addr + Z.of_nat (length bs)) = None) /\
    (forall i b, bs !! i = Some b -> uread (m_mem (k_m s)) U (addr + Z.of_nat i) = Some b) /\
    m_mem (k_m s') = m_mem (k_m s).
Proof.
  intros Hr Ha Hn Hb Hroom.
  destruct (pipewrite_spec s a pr pi l sh U F addr n Hr Ha Hn Hb Hroom) as (bs & s' & Hw & Hd & [H1 H2] & Hm).
  by exists bs, s'.
Qed.

(** Bytes written to an empty pipe come out of it unchanged and in order:
    after pipewrite from [src] and piperead to [dst] of at most 512 bytes, the
    destination reads as the source did, and the pipe is empty. *)
Theorem pipe_roundtrip s a pr pi l sh U F src dst n :
  pipe_ready s a pr pi l sh U F -> pipe_queue pi = [] -> 0 < n <= PIPESIZE ->
  0 <= src -> src + n <= 2 ^ 64 -> 0 <= dst -> dst + n <= 2 ^ 64 ->
  (forall i, 0 <= i < n -> is_Some (uread (m_mem (k_m s)) U (src + i)) /\ is_Some (uread (m_mem (k_m s)) U (dst + i))) ->
  exists s1 s2, pipewrite a src n s = Ok n s1 /\ piperead a dst n s1 = Ok n s2 /\
    (forall i, 0 <= i < n -> uread (m_mem (k_m s2)) U (dst + i) = uread (m_mem (k_m s)) U (src + i)) /\
    exists pi', pipe_ready s2 a pr pi' l sh U F /\ pipe_queue pi' = [].
Proof.
  intros Hr Hq Hn Hs1 Hs2 Hd1 Hd2 Hacc.
  destruct (pipewrite_spec s a pr pi l sh U F src n Hr) as (bs & s1 & Hw & Hdone & [Hlen Hbs] & Hm); [lia..|rewrite Hq; cbn; lia|].
  assert (Z.of_nat (length bs) = n) as Hl.
  { destruct Hlen as [?|[Hlt Hnone]]; [done|]. destruct (Hacc (Z.of_nat (length bs))) as [[x Hx] _]; [lia|congruence]. }
  destruct (pipe_again _ _ _ _ _ _ _ _ _ _ _ Hr Hdone) as (pi1 & Hr1 & Hq1 & _). rewrite Hq in Hq1. cbn in Hq1.
  destruct (piperead_spec s1 a pr pi1 l sh U F dst n Hr1) as (r & c & s2 & Hrd & Hdone2 & Hres & Hmem); [lia..|left; rewrite Hq1; intros ->; cbn in Hl; lia|].
  rewrite Hq1, Hm in *. assert (r = n /\ c = n) as [-> ->].
  { destruct Hres as [?|(-> & Hlt & Hnone)]; [lia|]. destruct (Hacc r) as [_ [x Hx]]; [lia|congruence]. }
  destruct (pipe_again _ _ _ _ _ _ _ _ _ _ _ Hr1 Hdone2) as (pi2 & Hr2 & Hq2 & _).
  rewrite Hl in Hw. exists s1, s2. split_and!; [done|done| |].
  - intros i Hi. rewrite Hmem. destruct (Z.leb_spec dst (dst + i)), (Z.ltb_spec (dst + i) (dst + n)); cbn [andb]; try lia.
    replace (dst + i - dst) with i by lia. destruct (lookup_lt_is_Some_2 bs (Z.to_nat i)) as [b Hb]; [lia|].
    rewrite (list_lookup_total_correct _ _ _ Hb), <- (Hbs _ _ Hb). f_equal. lia.
  - exists pi2. split; [done|]. rewrite Hq2. apply drop_ge. lia.
Qed.

(** Pipewrite into a full pipe whose read end is closed, or by a process
    that has been killed, returns -1 and changes nothing: the queue, the
    processes and memory stay as they are, and the pipe's lock is released. *)
Theorem pipewrite_fails s a pr pi l sh U F addr n :
  pipe_ready s a pr pi l sh U F -> 0 < n -> Z.of_nat (length (pipe_queue pi)) = PIPESIZE ->
  pi_readopen pi = 0 \/ p_killed (getp s pr) <> 0 ->
  exists s', pipewrite a addr n s = Ok (-1) s' /\ (forall j, getp s' j = getp s j) /\
    k_pipes s' = k_pipes s /\ hart_of s' = touched (hart_of s) /\ m_mem (k_m s') = m_mem (k_m s).
Proof. apply pipewrite_broken. Qed.
End Properties.

(** ** Witnesses: a process of one page on the small machine, and pipes with
    no data, with three bytes, and full with nobody left to read *)

Definition piped (pi : pipe) : kst := set_pipes {[4096 := pi]} solo.

Definition empty_pipe : pipe := set_pi_readopen 1 (set_pi_writeopen 1 pipe0).
Definition some_pipe : pipe := pipe_put 30 (pipe_put 20 (pipe_put 10 empty_pipe)).
Definition full_pipe : pipe := Pipe lock0 (replicate 512 7) 0 512 0 1.

Lemma empty_pipe_inv : pipe_inv empty_pipe.
Proof. split; [done|done|done|done|]. by apply Forall_replicate. Qed.
Lemma some_pipe_inv : pipe_inv some_pipe.
Proof. do 3 (apply pipe_put_spec; [|done|done]). apply empty_pipe_inv. Qed.
Lemma full_pipe_inv : pipe_inv full_pipe.
Proof. split; [done|done|done|done|]. by apply Forall_replicate. Qed.

Lemma piped_ready pi : pipe_inv pi -> lock_free (pi_lock pi) ->
  exists l sh U F, pipe_ready (piped pi) 4096 0 pi l sh U F /\ is_Some (upage U 0).
Proof.
  intros Hi Hl. destruct solo_ready as (l & sh & U & F & [H1 H2 _ H3 _ H4 _ _ _] & _ & HF).
  exists l, sh, U, F. split; [|exact HF]. destruct H4 as [Hroot [Hu Ht] _ Hok _].
  split; [exact H1|exact H3|exact H2|reflexivity|exact Hl|exact Hi|exact Hroot|exact Hu|].
  eapply top_high; [exact Ht|]. by apply page_ok_56.
Qed.

Lemma piperead_correct_witness :
  exists r s', piperead 4096 16 3 (piped some_pipe) = Ok r s' /\ r <= 3.
Proof.
  destruct (piped_ready some_pipe some_pipe_inv) as (l & sh & U & F & Hr & _); [split; reflexivity|].
  destruct (piperead_correct (piped some_pipe) 4096 0 some_pipe l sh U F 16 3 Hr) as (r & c & s' & Hs & _ & Hres & _).
  - lia.
  - lia.
  - lia.
  - left. vm_compute. discriminate.
  - exists r, s'. split; [exact Hs|]. clear -Hres. destruct Hres as [[? ?]|(? & ? & _)]; lia.
Defined.

Lemma pipewrite_correct_witness :
  exists r s', pipewrite 4096 16 3 (piped some_pipe) = Ok r s' /\ r <= 3.
Proof.
  destruct (piped_ready some_pipe some_pipe_inv) as (l & sh & U & F & Hr & _); [split; reflexivity|].
  destruct (pipewrite_correct (piped some_pipe) 4096 0 some_pipe l sh U F 16 3 Hr) as (bs & s' & Hs & _ & Hres & _).
  - lia.
  - lia.
  - lia.
  - vm_compute. discriminate.
  - exists (Z.of_nat (length bs)), s'. split; [exact Hs|]. clear -Hres. destruct Hres as [?|[? _]]; lia.
Defined.

Lemma pipewrite_fails_witness :
  exists s', pipewrite 4096 16 3 (piped full_pipe) = Ok (-1) s' /\ k_pipes s' = {[4096 := full_pipe]}.
Proof.
  destruct (piped_ready full_pipe full_pipe_inv) as (l & sh & U & F & Hr & _); [split; reflexivity|].
  destruct (pipewrite_fails (piped full_pipe) 4096 0 full_pipe l sh U F 16 3 Hr) as (s' & Hs & _ & Hp & _).
  - lia.
  - vm_compute. reflexivity.
  - left. reflexivity.
  - exists s'. split; [exact Hs|exact Hp].
Defined.

Lemma pipe_roundtrip_witness :
  exists s1 s2, pipewrite 4096 16 8 (piped empty_pipe) = Ok 8 s1 /\ piperead 4096 64 8 s1 = Ok 8 s2.
Proof.
  destruct (piped_ready empty_pipe empty_pipe_inv) as (l & sh & U & F & Hr & HU); [split; reflexivity|].
  destruct (pipe_roundtrip (piped empty_pipe) 4096 0 empty_pipe l sh U F 16 64 8 Hr) as (s1 & s2 & Hw & Hrd & _).
  - reflexivity.
  - vm_compute. split; [reflexivity|discriminate].
  - lia.
  - lia.
  - lia.
  - lia.
  - intros i Hi. unfold uread. rewrite !fmap_is_Some.
    assert ((16 + i) / PGSIZE = 0 /\ (64 + i) / PGSIZE = 0) as [-> ->] by (clear -Hi; klia). exact (conj HU HU).
  - exists s1, s2. exact (conj Hw Hrd).
Defined.
