(* ===== verification/LogTheorems.v ===== *)
(** * Theorems about the buffer cache and the log

    They are about the cache over the driver virtio_disk_rw, for any device that
    satisfies [HardwareLaws]; the witnesses run on one that does. *)

From S2P Require Import Prelude Layout Spinlock Kalloc State Proc SleepLock Bio Log Virtio ProcSpec SleepSpec Ring CacheSpec DiskSystem CacheInit LogSpec LogOps SmallMachine ProcTheorems.

Section Properties.
Context `{HW : Hardware} `{HL : !HardwareLaws}.
#[local] Existing Instance system | 0.
#[local] Existing Instance virtio | 0.

(** The kernel has just booted on the disk: process [i] is about to recover
    the log, and no buffer is in use. *)
Definition rebooted (i : nat) (d st : Z) (s : kst) : Prop :=
  log_at d st (k_lg s) /\ cache i d s (dblock (k_dk s)) (fun _ => 0) ∅.

(** The disk after any number of recoveries that were themselves cut short. *)
Inductive recoveries (d st : Z) (D : disk) : disk -> Prop :=
| no_recovery : recoveries d st D D
| cut_recovery i s s' ws :
    recoveries d st D (k_dk s) -> rebooted i d st s -> recover_from_log s = Ok tt s' ->
    (d_writes (k_dk s) ++ ws) `prefix_of` d_writes (k_dk s') -> recoveries d st D (puts ws (k_dk s)).

Lemma prefix_take (W ws : list (Z * list Z)) D D' :
  k_dk D' = puts W (k_dk D) -> (d_writes (k_dk D) ++ ws) `prefix_of` d_writes (k_dk D') -> ws = take (length ws) W.
Proof.
  intros -> Hp. rewrite puts_writes in Hp. apply prefix_app_inv in Hp as [rest ->]. by rewrite take_app_length.
Qed.

Lemma recover_contents i d st s C :
  rebooted i d st s -> recoverable st (dblock (k_dk s)) C ->
  exists s', recover_from_log s = Ok tt s' /\ k_dk s' = puts (recover_writes st (dblock (k_dk s))) (k_dk s) /\
    forall n, ~ in_log st n -> dblock (k_dk s') n = C n.
Proof.
  intros [Hlog Hc] Hr. destruct (recover_spec i d st s _ _ Hlog Hc (fun _ => eq_refl) (rc_head _ _ _ Hr)) as (lg & s' & Hs & _ & _ & Hdk & _).
  exists s'. split_and!; [done|done|]. intros n Hn. rewrite Hdk, dblock_puts. by apply recover_done.
Qed.

Lemma recoveries_contents d st D D' C : recoveries d st D D' -> recoverable st (dblock D) C -> recoverable st (dblock D') C.
Proof.
  intros Hrec H0. induction Hrec as [|i s s' ws Hrec IH Hb Hs Hp]; [done|].
  destruct (recover_contents i d st s C Hb IH) as (s2 & Hs2 & Hdk & _). rewrite Hs in Hs2. injection Hs2 as <-.
  apply prefix_take with (1 := Hdk) in Hp. rewrite Hp.
  exact (proj2 (recoverable_proper st _ _ (dblock_puts _ _) _ _ (fun _ => eq_refl)) (recover_prefix st _ C _ IH)).
Qed.

(** What a transaction needs of the disk it starts from. *)
Definition log_clean (st : Z) (D : disk) : Prop := length (dblock D st) = Z.to_nat BSIZE /\ head_n (dblock D st) = 0.

Lemma in_tx_transaction i d st s hs V :
  in_tx i d st s hs V ∅ -> log_clean st (k_dk s) -> (length hs < bhead)%nat -> (forall h, h ∈ hs -> ~ in_log st h) ->
  transaction st (dblock (k_dk s)) V hs.
Proof.
  intros [(R & Hc & HR) Hln Hnd _ _] [H1 H2] Hl Ho. split; try done; [apply Hln|].
  intros n Hn. apply (ca_clean _ _ _ _ _ _ Hc). by rewrite HR, decide_False.
Qed.

(** C2: a transaction is atomic across power cuts.  end_op, by the only
    operation running, returns, and the home blocks then hold what the
    operation wrote.  Cut the power after any number of the disk writes of
    end_op, and again any number of times while the log is being recovered:
    the recovery that is finally left to run returns, and every block outside
    the log holds its contents from before end_op if the cut came before the
    write of the log header, and its new contents otherwise. *)
Theorem end_op_crash_safe i d st s hs V :
  in_tx i d st s hs V ∅ -> lg_outstanding (k_lg s) = 1 -> lg_committing (k_lg s) = 0 -> log_clean st (k_dk s) ->
  hs <> [] -> (length hs < bhead)%nat -> (forall h, h ∈ hs -> ~ in_log st h) ->
  exists s', end_op s = Ok tt s' /\ (forall n, ~ in_log st n -> dblock (k_dk s') n = V n) /\
    forall ws j t, (d_writes (k_dk s) ++ ws) `prefix_of` d_writes (k_dk s') ->
      recoveries d st (puts ws (k_dk s)) (k_dk t) -> rebooted j d st t ->
      exists t', recover_from_log t = Ok tt t' /\
        forall n, ~ in_log st n -> dblock (k_dk t') n = if decide (length ws <= length hs)%nat then dblock (k_dk s) n else V n.
Proof.
  intros Htx Hout Hcom Hcl Hne Hl Ho. pose proof (in_tx_transaction i d st s hs V Htx Hcl Hl Ho) as Ht.
  destruct (end_op_spec i d st s hs V Htx Hout Hcom Hl (tx_outside _ _ _ _ Ht)) as (s' & Hs & Hdk & _).
  assert (tx_writes st V hs = commit_writes st V hs) as Hw by (by destruct hs). rewrite Hw in Hdk.
  exists s'. split_and!; [done| |].
  - intros n Hn. rewrite Hdk, dblock_puts. by apply commit_done.
  - intros ws j t Hp Hrec Hb. apply prefix_take with (1 := Hdk) in Hp as Hws.
    assert (recoverable st (dblock (puts ws (k_dk s))) (if decide (length ws <= length hs)%nat then dblock (k_dk s) else V)) as Hr.
    { rewrite Hws at 1. apply (proj2 (recoverable_proper st _ _ (dblock_puts _ _) _ _ (fun _ => eq_refl))). by apply commit_prefix. }
    destruct (recover_contents j d st t _ Hb (recoveries_contents _ _ _ _ _ Hrec Hr)) as (t' & Ht' & _ & Hn').
    exists t'. split; [done|]. intros n Hn. rewrite Hn' by done. by case_decide.
Qed.

(** Binit, run on the zeroed buffers the kernel starts with, returns and
    touches nothing but the cache.  From then on, as long as the cache is as
    binit left it, a process sees the disk through it unchanged: no buffer
    is referenced or locked, and the 30 buffers form the circular list that
    bget walks. *)
Theorem binit_correct s :
  (forall b, blank (getb s b) /\ lock_free (sl_lk (b_lock (getb s b)))) ->
  exists s', binit s = Ok tt s' /\ (exists bc, s' = set_bc bc s) /\
    forall t i d, k_bc t = k_bc s' -> kready i t -> d <> 0 -> cache i d t (dblock (k_dk t)) (fun _ => 0) ∅.
Proof. apply binit_cache. Qed.

(** C20: bread of a block the process has not locked returns a buffer that it
    then holds locked, valid, with the block's current contents: the bytes
    last put in the block's buffer if the cache still has it, those on the
    disk otherwise.  It is the block's only buffer; the disk and the contents
    of every block are unchanged. *)
Theorem bread_correct i d s V R Hd n :
  cache i d s V R Hd -> solid R Hd -> Hd !! n = None -> 0 < R n \/ few R -> R n < 2 ^ 32 - 1 -> 0 <= n < 2 ^ 31 ->
  exists b s', bread d n s = Ok b s' /\ k_dk s' = k_dk s /\
    b_data (getb s' b) = V n /\ b_valid (getb s' b) = 1 /\
    sl_locked (b_lock (getb s' b)) = 1 /\ sl_pid (b_lock (getb s' b)) = p_pid (getp s' i) /\
    (forall b', b' ∈ bufs -> caches s' d n b' -> b' = b) /\
    cache i d s' V (upd R n (R n + 1)) (<[n := b]> Hd).
Proof.
  intros Hc Hs Hn Hr Hm Hno. destruct (bread_spec i d n s V R Hd Hc Hs Hn Hr Hm Hno) as (b & s' & Hb & _ & Hdk & Hc').
  assert (<[n := b]> Hd !! n = Some b) as Hin by apply lookup_insert_eq.
  destruct (held_buf i d s' V _ _ n b Hc' Hin) as (Hbb & [C1 C2] & H3 & H4 & _).
  destruct (ca_held _ _ _ _ _ _ Hc' n b Hin) as (_ & _ & H5 & H6). exists b, s'. split_and!; try done.
  intros b' Hb' [C1' C2']. apply (ca_uniq _ _ _ _ _ _ Hc'); congruence.
Qed.

(** C19: log_write of a locked buffer returns, writes nothing to the disk,
    and keeps the invariant of the transaction: the log names the block
    exactly once, whether this was its first log_write or not, and each block
    the log names has one reference that keeps it in the cache. *)
Theorem log_write_correct i d st s hs V Hd n b :
  in_tx i d st s hs V Hd -> Hd !! n = Some b -> 0 <= n < 2 ^ 31 ->
  Z.of_nat (length hs) < LOGSIZE -> Z.of_nat (length hs) < lg_size (k_lg s) - 1 ->
  exists s', log_write b s = Ok tt s' /\ k_dk s' = k_dk s /\ in_tx i d st s' (add_block n hs) V Hd.
Proof.
  intros Htx Hb Hn H1 H2. destruct (log_write_spec i d st s hs V Hd n b Htx Hb Hn H1 H2) as (lh & s' & Hs & _ & Hdk & Htx').
  by exists s'.
Qed.

(** An operation that overwrites one block, up to its end_op. *)
Definition overwrite (d n : Z) (v : list Z) : M kst unit :=
  begin_op;;
  let! b := bread d n in
  updb b (set_b_data v);;
  log_write b;;
  brelse b.

Lemma overwrite_spec i d st s V n v :
  log_idle i d st s V -> 0 <= n < 2 ^ 31 -> 1 < lg_size (k_lg s) ->
  exists s', overwrite d n v s = Ok tt s' /\ k_dk s' = k_dk s /\ lg_outstanding (k_lg s') = 1 /\ lg_committing (k_lg s') = 0 /\
    in_tx i d st s' [n] (upd V n v) ∅.
Proof.
  intros Hi Hn Hsz. unfold overwrite.
  destruct (begin_op_spec i d st s V Hi) as (s1 & Hs1 & Hcalm1 & Hdk1 & Htx1). rewrite (bind_Ok _ _ _ _ _ Hs1).
  destruct (bread_tx i d st s1 [] V ∅ n Htx1) as (b & s2 & Hs2 & Hcalm2 & Hdk2 & Htx2); [done|rewrite map_size_empty; change bhead with 30%nat; cbn; lia|done|].
  rewrite (bind_Ok _ _ _ _ _ Hs2). assert (<[n := b]> (∅ : gmap Z nat) !! n = Some b) as Hb by apply lookup_insert_eq.
  destruct (bdata_tx i d st s2 [] V _ n b v Htx2 Hb) as (Hs3 & Hcalm3 & Hdk3 & Htx3). rewrite (bind_Ok _ _ _ _ _ Hs3).
  set (s3 := setb b _ s2) in *. pose proof (cm_lg _ _ _ Hcalm1) as K1. cbn [k_lg set_lg] in K1.
  assert (k_lg s3 = set_lg_outstanding 1 (k_lg s)) as K3 by (rewrite (cm_lg _ _ _ Hcalm3), (cm_lg _ _ _ Hcalm2); exact K1).
  destruct (log_write_spec i d st s3 [] (upd V n v) _ n b Htx3 Hb Hn) as (lh & s4 & Hs4 & Hcalm4 & Hdk4 & Htx4).
  { done. } { rewrite K3. cbn [set_lg_outstanding lg_size length]. lia. }
  rewrite (bind_Ok _ _ _ _ _ Hs4). unfold add_block in Htx4. rewrite decide_False in Htx4 by apply not_elem_of_nil.
  destruct (brelse_tx i d st s4 [n] _ _ n b Htx4 Hb) as (s5 & Hs5 & Hcalm5 & Hdk5 & Htx5); [left; by left|].
  pose proof (cm_lg _ _ _ Hcalm4) as K4. cbn [k_lg set_lg] in K4. pose proof (cm_lg _ _ _ Hcalm5) as K5. rewrite K4, K3 in K5.
  exists s5. rewrite K5. split_and!; [exact Hs5|congruence|done|apply (li_comm _ _ _ _ _ Hi)|]. by rewrite delete_insert_id in Htx5.
Qed.

(** A write through the log reaches the disk: an operation that reads a
    block, changes its data, reports it with log_write and releases it,
    between begin_op and end_op, returns; the block's home on the disk then
    holds the new data, every other block outside the log is unchanged, and
    the log is idle again, ready for the next operation. *)
Theorem write_through i d st s V n v :
  log_idle i d st s V -> log_clean st (k_dk s) -> 0 <= n < 2 ^ 31 -> ~ in_log st n -> 1 < lg_size (k_lg s) ->
  exists s', (overwrite d n v;; end_op) s = Ok tt s' /\ dblock (k_dk s') n = v /\
    (forall m, m <> n -> ~ in_log st m -> dblock (k_dk s') m = dblock (k_dk s) m) /\
    exists V', log_idle i d st s' V' /\ V' n = v.
Proof.
  intros Hi Hcl Hn Ho Hsz. destruct (overwrite_spec i d st s V n v Hi Hn Hsz) as (s1 & Hs1 & Hdk1 & H1 & H2 & Htx).
  rewrite (bind_Ok _ _ _ _ _ Hs1). assert (forall h, h ∈ [n] -> ~ in_log st h) as Ho' by (by intros h ->%list_elem_of_singleton).
  assert (length [n] < bhead)%nat as Hl by (change bhead with 30%nat; cbn; lia). rewrite <- Hdk1 in Hcl.
  pose proof (in_tx_transaction i d st s1 [n] _ Htx Hcl Hl Ho') as Ht.
  destruct (end_op_spec i d st s1 [n] _ Htx H1 H2 Hl (tx_outside _ _ _ _ Ht)) as (s2 & Hs2 & Hdk2 & Hi2 & _).
  assert (forall m, ~ in_log st m -> dblock (k_dk s2) m = upd V n v m) as Hfin.
  { intros m Hm. rewrite Hdk2, dblock_puts. by apply commit_done. }
  exists s2. split_and!; [exact Hs2|by rewrite Hfin, upd_same| |].
  - intros m Hm Hm'. rewrite Hfin, upd_other by done. by apply (ca_clean _ _ _ _ _ _ (li_cache _ _ _ _ _ Hi)).
  - eexists. split; [exact Hi2|]. rewrite (ca_clean _ _ _ _ _ _ (li_cache _ _ _ _ _ Hi2)) by done. by rewrite Hfin, upd_same.
Qed.

(** C21: recovery of a committed transaction leaves the reference count of
    each block it installs at 2^32 - 1: install_trans unpins blocks that only
    a commit has pinned, and the following brelse wraps the count around, so
    that the buffer can never be recycled. *)
Theorem recovery_wraps_refcnt i d st s h :
  rebooted i d st s -> head_ok st (dblock (k_dk s) st) -> h ∈ head_blocks (dblock (k_dk s) st) ->
  exists s' b, recover_from_log s = Ok tt s' /\ b ∈ bufs /\ caches s' d h b /\ b_refcnt (getb s' b) = 2 ^ 32 - 1.
Proof.
  intros [Hlog Hc] Hok Hh. destruct (recover_spec i d st s _ _ Hlog Hc (fun _ => eq_refl) Hok) as (lg & s' & Hs & _ & _ & _ & Hc').
  assert (unref (head_blocks (dblock (k_dk s) st)) (fun _ => 0) h = 2 ^ 32 - 1) as HR by (rewrite unref_zero by (done || apply Hok); by rewrite decide_True).
  destruct (ca_refs _ _ _ _ _ _ Hc' h) as [_ Hex]. destruct Hex as (b & Hb & [C1 C2]); [lia|]. exists s', b. split_and!; try done.
  rewrite (ca_refcnt _ _ _ _ _ _ Hc' b Hb), C1, Z.eqb_refl, C2. exact HR.
Qed.
End Properties.

(** ** A device *)

(** It serves the request at the head of the available ring, and leaves its
    registers as they are. *)
Definition sample_device (v : vdisk) (d : disk) (data : nat -> list Z) : vdisk * disk * list (nat * list Z) :=
  let i0 := Z.to_nat (default 0 (vd_avail v !! Z.to_nat (vd_used_id v mod NUM))) in
  let x := getdesc v i0 in
  match dc_addr x, dc_addr (getdesc v (Z.to_nat (dc_next x))) with
  | AHdr type sector, AData b =>
      (served i0 (vd_regs v) v,
       if type =? VIRTIO_BLK_T_OUT then disk_put (sector / 2) (data b) d else d,
       if type =? VIRTIO_BLK_T_OUT then [] else [(b, dblock d (sector / 2))])
  | _, _ => (v, d, [])
  end.

#[export] Instance sample_hardware : Hardware := {| device := sample_device; wfi_pc := KERNBASE + 512; elsewhere s := s |}.

#[export] Instance sample_hardware_laws : HardwareLaws.
Proof.
  split; intros v d data n b i0 i1 i2 Hn [_ H1 H2 H3 _]; exists (vd_regs v); cbn [device sample_hardware]; unfold sample_device;
    rewrite H1;
    cbn [default from_option id]; rewrite ?Nat2Z.id, H2; cbn [dc_addr dc_next]; rewrite ?Nat2Z.id, H3; cbn [dc_addr]; by rewrite (Z.mul_comm 2), Z.div_mul.
Qed.

#[export] Existing Instance system | 0.
#[export] Existing Instance virtio | 0.

(** Process 0 on hart 0, and a log of 30 blocks that starts at block 2. *)
Definition one_hart : hart := Hart 0 (Csrs 2 0 0 0 0 0 0) {[0 := Cpu (Some 0%nat) context0 0 false]}.
Definition log2 : log := Log lock0 2 30 0 0 1 (Logheader 0 (replicate 30 0)).

(** The driver after virtio_disk_init. *)
Definition idle_vd : vdisk := set_vd_free (replicate (Z.to_nat NUM) 1) (k_vd (zero_kst power_on)).

Definition before_binit : kst :=
  set_vd idle_vd (set_lg log2 (setp 0 (set_p_state RUNNING proc0) (zero_kst (Mst one_hart ∅ (Kmem lock0 0) 0)))).

(** A process that runs on an otherwise empty process table. *)
Lemma alone_only i p : i ∈ procs -> p_state p = RUNNING -> forall pt, pt_proc pt = {[i := p]} -> pt_next pt = 0 -> alone i pt.
Proof.
  intros Hi Hp pt Ept Hx. assert (forall j, proc_of pt j = if decide (i = j) then p else proc0) as Hg.
  { intros j. unfold proc_of. rewrite Ept, lookup_singleton. by case_decide. }
  split; [done|by rewrite Hg, decide_True| |done]. intros j Hne. rewrite Hg, decide_False by congruence. done.
Qed.

Lemma idle_vd_ok pl : pl_pending pl = [] -> disk_idle idle_vd pl.
Proof. intros Hpl. split; try done. Qed.

Lemma before_binit_ready bc D : kready 0 (set_dk D (set_bc bc before_binit)).
Proof.
  split_and!; [split; done|done| |done| |by apply idle_vd_ok].
  - intros j. change (lock_free (p_lock (getp before_binit j))). unfold before_binit. change (getp (set_vd ?v (set_lg ?l ?s)) j) with (getp s j). rewrite getp_setp. by case_decide.
  - apply (alone_only 0 (set_p_state RUNNING proc0)); try done. apply elem_of_seq. unfold NPROC. lia.
Qed.

Lemma before_binit_blank b : blank (getb before_binit b) /\ lock_free (sl_lk (b_lock (getb before_binit b))).
Proof. by split_and!. Qed.

Lemma binit_correct_witness :
  exists s', binit before_binit = Ok tt s' /\ cache 0 1 s' (dblock (k_dk s')) (fun _ => 0) ∅.
Proof.
  destruct (binit_correct before_binit before_binit_blank) as (s' & Hs & [bc ->] & Hc). exists (set_bc bc before_binit).
  split; [exact Hs|]. apply Hc; [reflexivity|exact (before_binit_ready bc (k_dk before_binit))|lia].
Defined.

(** After binit, with disk [D]. *)
Lemma cached_on D : exists s, cache 0 1 s (dblock D) (fun _ => 0) ∅ /\ k_dk s = D /\ k_lg s = log2.
Proof.
  destruct (binit_cache before_binit before_binit_blank) as (s' & _ & [bc ->] & Hc). exists (set_dk D (set_bc bc before_binit)).
  split_and!; [|reflexivity|reflexivity]. apply (Hc (set_dk D (set_bc bc before_binit))); [reflexivity|apply before_binit_ready|lia].
Qed.

Lemma log2_names : log_names 1 2 log2 [].
Proof. split; try done. by eexists. Qed.

Lemma idle_log : exists s, log_idle 0 1 2 s (dblock (Disk ∅ [])) /\ k_dk s = Disk ∅ [] /\ k_lg s = log2.
Proof.
  destruct (cached_on (Disk ∅ [])) as (s & Hc & Hd & Hl). exists s. split_and!; [|done|done].
  split; rewrite ?Hl; try done. apply log2_names.
Qed.

Lemma blank_clean : log_clean 2 (Disk ∅ []).
Proof. split; reflexivity. Qed.

Lemma far_block : ~ in_log 2 50.
Proof. unfold in_log. change LOGSIZE with 30. lia. Qed.

Definition sevens : list Z := replicate 1024 7.

Lemma bread_correct_witness :
  exists s b s', bread 1 50 s = Ok b s' /\ b_data (getb s' b) = replicate 1024 0.
Proof.
  destruct (cached_on (Disk ∅ [])) as (s & Hc & _ & _).
  destruct (bread_correct 0 1 s _ _ _ 50 Hc) as (b & s' & Hs & _ & Hd & _);
    [done|apply lookup_empty|right; exists []; split; [change bhead with 30%nat; cbn; lia|intros n Hn; lia]|lia|lia|].
  exists s, b, s'. split; [exact Hs|exact Hd].
Defined.

Lemma log_write_correct_witness :
  exists s b s', log_write b s = Ok tt s' /\ in_tx 0 1 2 s' [50] (dblock (Disk ∅ [])) {[50 := b]}.
Proof.
  destruct idle_log as (s & Hi & _ & Hl). destruct (begin_op_spec 0 1 2 s _ Hi) as (s1 & _ & Hcalm1 & _ & Htx1).
  destruct (bread_tx 0 1 2 s1 [] _ ∅ 50 Htx1) as (b & s2 & _ & Hcalm2 & _ & Htx2);
    [apply lookup_empty|rewrite map_size_empty; change bhead with 30%nat; cbn; lia|unfold blockno_ok; lia|].
  destruct (log_write_correct 0 1 2 s2 [] _ _ 50 b Htx2) as (s3 & Hs3 & _ & Htx3); [apply lookup_insert_eq|lia|done| |].
  { rewrite (cm_lg _ _ _ Hcalm2), (cm_lg _ _ _ Hcalm1). cbn [k_lg set_lg]. rewrite Hl. done. }
  exists s2, b, s3. split; [exact Hs3|exact Htx3].
Defined.

Lemma write_through_witness :
  exists s s', (overwrite 1 50 sevens;; end_op) s = Ok tt s' /\ dblock (k_dk s) 50 = replicate 1024 0 /\ dblock (k_dk s') 50 = sevens.
Proof.
  destruct idle_log as (s & Hi & Hd & Hl).
  destruct (write_through 0 1 2 s _ 50 sevens Hi) as (s' & Hs & Hn & _); [rewrite Hd; exact blank_clean|lia|exact far_block|rewrite Hl; cbn; lia|].
  exists s, s'. split; [exact Hs|]. split; [rewrite Hd; reflexivity|exact Hn].
Defined.

Lemma end_op_crash_safe_witness :
  exists s s', end_op s = Ok tt s' /\ dblock (k_dk s) 50 = replicate 1024 0 /\ dblock (k_dk s') 50 = sevens /\
    forall ws t, (d_writes (k_dk s) ++ ws) `prefix_of` d_writes (k_dk s') -> k_dk t = puts ws (k_dk s) -> rebooted 0 1 2 t ->
      exists t', recover_from_log t = Ok tt t' /\ dblock (k_dk t') 50 = if decide (length ws <= 1)%nat then replicate 1024 0 else sevens.
Proof.
  destruct idle_log as (s0 & Hi & Hd & Hl). destruct (overwrite_spec 0 1 2 s0 _ 50 sevens Hi) as (s & _ & Hdk & H1 & H2 & Htx); [lia|rewrite Hl; cbn; lia|].
  rewrite Hd in Hdk.
  destruct (end_op_crash_safe 0 1 2 s [50] _ Htx H1 H2) as (s' & Hs & Hn & Hcut);
    [rewrite Hdk; exact blank_clean|discriminate|change bhead with 30%nat; cbn; lia|intros h ->%list_elem_of_singleton; exact far_block|].
  exists s, s'. split; [exact Hs|]. split; [rewrite Hdk; reflexivity|]. split; [rewrite (Hn 50 far_block); apply upd_same|].
  intros ws t Hp Ht Hb. destruct (Hcut ws 0%nat t Hp) as (t' & Ht' & Hn'); [rewrite Ht; constructor|exact Hb|].
  exists t'. split; [exact Ht'|]. rewrite (Hn' 50 far_block), Hdk, upd_same. reflexivity.
Defined.

(** A disk on which a transaction of block 50 is committed but not installed. *)
Definition committed : disk := puts [(2, header (replicate 1024 0) [50])] (Disk ∅ []).

Lemma committed_head : head_ok 2 (dblock committed 2) /\ head_blocks (dblock committed 2) = [50].
Proof.
  unfold committed. rewrite puts_one, dblock_put, decide_True by done. split.
  - apply head_ok_header; [reflexivity|change bhead with 30%nat; cbn; lia|by repeat constructor|apply NoDup_singleton|].
    intros h ->%list_elem_of_singleton. cbn. lia.
  - apply head_blocks_header; [reflexivity|cbn; lia|by repeat constructor].
Qed.

Lemma recovery_wraps_refcnt_witness :
  exists s s' b, recover_from_log s = Ok tt s' /\ caches s' 1 50 b /\ b_refcnt (getb s' b) = 2 ^ 32 - 1.
Proof.
  destruct (cached_on committed) as (s & Hc & Hd & Hl). destruct committed_head as [H1 H2].
  destruct (recovery_wraps_refcnt 0 1 2 s 50) as (s' & b & Hs & _ & Hb & Hr).
  - split; [rewrite Hl; repeat split; lia|rewrite Hd; exact Hc].
  - rewrite Hd. exact H1.
  - rewrite Hd, H2. left.
  - exists s, s', b. split; [exact Hs|]. split; [exact Hb|exact Hr].
Defined.
