(* ===== verification/FsWrite.v ===== *)
(** * filewrite on a file of the disk

    One turn of the loop of filewrite is a transaction: it locks the inode,
    writes a piece of the user's buffer with writei and commits. *)

From S2P Require Import Prelude Layout Spinlock Kalloc State Vm Proc SleepLock Bio Log Fs Pipe Console File ProcSpec SleepSpec Ring CacheSpec LogSpec LogOps FsTx FsMap FsFile FsInode FsCommit LogTheorems.

Section Locks.
Context `{OT : Others} `{BD : BlockDev} `{DL : !DiskLaws}.
Context (i : nat) (d st : Z).

(** ** Locking an inode that is in memory and free *)

Lemma ilock_spec s ip : kready i s -> let ino := geti s ip in
  lock_free (sl_lk (i_lock ino)) -> sl_locked (i_lock ino) = 0 -> 1 <= i_ref ino -> i_valid ino <> 0 ->
  exists s', ilock ip s = Ok tt s' /\ calm i (seti ip (set_i_lock (taken (p_pid (getp s i)) (i_lock ino)) ino) s) s' /\ k_bc s' = k_bc s /\ k_dk s' = k_dk s.
Proof.
  intros (Hh & Hc & Hpl & Hdr) ino Hf Hl Hr Hv. unfold ilock. rewrite bind_gets. fold ino. rewrite (proj2 (Z.ltb_ge (i_ref ino) 1)) by lia.
  rewrite (bind_Ok _ _ _ _ _ (acquiresleep_eq (inodelock ip) i s Hh Hc Hf Hl)). cbn [sl_get sl_put inodelock].
  rewrite bind_gets, geti_seti, decide_True by done. fold ino.
  match goal with |- context [i_valid ?x] => change (i_valid x) with (i_valid ino) end. rewrite (proj2 (Z.eqb_neq _ _) Hv).
  eexists. split_and!; [done| |done|done].
  exact (calm_touched i (seti ip (set_i_lock (taken (p_pid (getp s i)) (i_lock ino)) ino) s)).
Qed.

Lemma iunlock_spec s ip : kready i s -> let ino := geti s ip in
  lock_free (sl_lk (i_lock ino)) -> sl_locked (i_lock ino) = 1 -> sl_pid (i_lock ino) = p_pid (getp s i) -> 1 <= i_ref ino ->
  exists s', iunlock ip s = Ok tt s' /\ calm i (seti ip (set_i_lock (freed (i_lock ino)) ino) s) s' /\ k_bc s' = k_bc s /\ k_dk s' = k_dk s.
Proof.
  intros (Hh & Hc & Hpl & Hdr) ino Hf Hl Hp Hr. unfold iunlock.
  rewrite (bind_Ok _ _ _ _ _ (holdingsleep_eq (inodelock ip) i s Hh Hc Hf)). cbn [sl_get sl_put inodelock]. fold ino. rewrite Hl, Hp, Z.eqb_refl.
  rewrite bind_gets, geti_seti, decide_True by done. set (t := seti ip _ _).
  change (truthy 1 && true) with true. match goal with |- context [i_ref ?x] => change (i_ref x) with (i_ref ino) end.
  rewrite (proj2 (Z.ltb_ge (i_ref ino) 1)) by lia. cbn [negb orb].
  assert (geti t ip = ino) as Et by (unfold t; rewrite geti_seti, decide_True by done; change (geti (put_hart _ s) ip) with ino; by destruct ino).
  destruct (releasesleep_eq (inodelock ip) t) as (pt & Hw & E); [by apply touched_ok|done|cbn; by rewrite Et|].
  exists (sl_put (inodelock ip) (freed (sl_get (inodelock ip) t)) (put_hart (touched (hart_of t)) (set_pt pt t))). split_and!; [done| |done|done].
  cbn [sl_get sl_put inodelock]. rewrite Et. set (X := set_i_lock (freed (i_lock ino)) ino).
  assert (seti ip (set_i_lock (freed (i_lock ino)) (geti (put_hart (touched (hart_of t)) (set_pt pt t)) ip)) (put_hart (touched (hart_of t)) (set_pt pt t)) =
          put_hart (touched (hart_of t)) (set_pt pt (put_hart (touched (hart_of s)) (seti ip X s)))) as ->.
  { change (geti (put_hart (touched (hart_of t)) (set_pt pt t)) ip) with (geti t ip). rewrite Et. fold X.
    change (seti ip X (put_hart (touched (hart_of t)) (set_pt pt t))) with (put_hart (touched (hart_of t)) (set_pt pt (seti ip X t))).
    unfold t. by rewrite seti_seti. }
  etransitivity; [exact (calm_touched i (seti ip X s))|]. 
  etransitivity; [exact (calm_woken i (sl_chan (inodelock ip)) (put_hart (touched (hart_of s)) (seti ip X s)) pt eq_refl Hw)|].
  exact (calm_touched i (set_pt pt (put_hart (touched (hart_of s)) (seti ip X s)))).
Qed.

(** ** What a file operation changes *)

(** Between [s] and [s'] the inode [ip] became [x] and the open file [fi]
    became [f]; besides them only the log, the cache, the disk, sleepers and
    the hart's bookkeeping may differ. *)
Record steady (ip : nat) (x : inode) (fi : nat) (f : file) (s s' : kst) : Prop := {
  sd_pid : p_pid (getp s' i) = p_pid (getp s i);
  sd_as : p_pagetable (getp s' i) = p_pagetable (getp s i);
  sd_mem : m_mem (k_m s') = m_mem (k_m s);
  sd_kmem : m_kmem (k_m s') = m_kmem (k_m s);
  sd_sb : k_sb s' = k_sb s;
  sd_pipes : k_pipes s' = k_pipes s;
  sd_ino : geti s' ip = x;
  sd_ic : forall j, j <> ip -> geti s' j = geti s j;
  sd_file : getf s' fi = f;
  sd_ft : forall j, j <> fi -> getf s' j = getf s j }.

Lemma steady_trans ip x1 x2 fi f1 f2 s s1 s2 : steady ip x1 fi f1 s s1 -> steady ip x2 fi f2 s1 s2 -> steady ip x2 fi f2 s s2.
Proof. intros [] []. split; try congruence; intros j Hj; [rewrite sd_ic1, sd_ic0 by done|rewrite sd_ft1, sd_ft0 by done]; done. Qed.

Lemma calm_steady L ip fi s s' : calm i (set_lg L s) s' -> steady ip (geti s ip) fi (getf s fi) s s'.
Proof. intros []. unfold geti, getf in *. split; unfold geti, getf; rewrite ?cm_ic, ?cm_ft; done. Qed.

Lemma calm_seti_steady ip x fi s s' : calm i (seti ip x s) s' -> steady ip x fi (getf s fi) s s'.
Proof.
  intros []. assert (forall j, geti s' j = geti (seti ip x s) j) as Hg by (intros j; unfold geti; by rewrite cm_ic).
  split; try done; [by rewrite Hg, geti_seti, decide_True|intros j Hj; by rewrite Hg, geti_seti, decide_False by congruence|..]; unfold getf; by rewrite cm_ft.
Qed.

Lemma quiet_seti_steady ip x fi s s' : quiet i (seti ip x s) s' -> steady ip x fi (getf s fi) s s'.
Proof.
  intros []. split; try done; [by rewrite q_ic, geti_seti, decide_True|intros j Hj; by rewrite q_ic, geti_seti, decide_False by congruence|..]; unfold getf; by rewrite q_ft.
Qed.

Lemma setf_steady ip fi f s : steady ip (geti s ip) fi f s (setf fi f s).
Proof. split; try done; [by rewrite getf_setf, decide_True|intros j Hj; by rewrite getf_setf, decide_False by congruence]. Qed.

Lemma steady_src ip x fi f s s' src bs : steady ip x fi f s s' -> src_holds i s src bs -> src_holds i s' src bs.
Proof. intros []. destruct src; [|done]. cbn. by rewrite sd_mem0, sd_kmem0, sd_as0. Qed.
End Locks.

Section Write.
Context `{OT : Others} `{BD : BlockDev} `{DL : !DiskLaws}.
Context (i : nat) (d st : Z) (sb : superblock) (ds : Z) (Hap : log_apart st sb ds).
Local Abbreviation in_tx := (in_tx i d st).
Local Abbreviation steady := (steady i).

(** Between operations: the log is idle, the file system in order, and the
    open file [fi] refers to the inode [ip], in memory, free and as on disk. *)
Record fstate (s : kst) (V : Z -> list Z) (fi ip : nat) : Prop := {
  fst_idle : log_idle i d st s V;
  fst_clean : head_n (dblock (k_dk s) st) = 0;
  fst_sb : k_sb s = sb;
  fst_size : 30 <= lg_size (k_lg s);
  fst_fs : fs_ok V sb ds;
  fst_fok : file_ok V sb ds (i_addrs (geti s ip));
  fst_dev : i_dev (geti s ip) = d;
  fst_disk : on_disk sb V (geti s ip);
  fst_lock : lock_free (sl_lk (i_lock (geti s ip))) /\ sl_locked (i_lock (geti s ip)) = 0;
  fst_ref : 1 <= i_ref (geti s ip) /\ i_valid (geti s ip) <> 0;
  fst_home : inode_home sb ds (i_inum (geti s ip)) /\ ~ in_log st (iblock sb (i_inum (geti s ip)));
  fst_ip : f_ip (getf s fi) = Some ip;
  fst_off : 0 <= f_off (getf s fi) <= i_size (geti s ip) }.

Lemma in_tx_move s s' hs V : in_tx s hs V ∅ -> (kready i s -> kready i s') -> p_pid (getp s' i) = p_pid (getp s i) -> k_bc s' = k_bc s -> k_dk s' = k_dk s ->
  k_lg s' = k_lg s -> in_tx s' hs V ∅.
Proof.
  intros [(R & Hc & HR) H2 H3 H4 H5] Hr Hp Hb Hk Hl. split; rewrite ?Hl; try done. exists R. split; [|done]. by apply (cache_same i d s).
Qed.

(** begin_op and ilock. *)
Lemma op_start s V fi ip : fstate s V fi ip ->
  exists s1 s2, begin_op s = Ok tt s1 /\ getf s1 fi = getf s fi /\ ilock ip s1 = Ok tt s2 /\ ready i d st sb ds s2 [] V ip /\
    steady ip (set_i_lock (taken (p_pid (getp s i)) (i_lock (geti s ip))) (geti s ip)) fi (getf s fi) s s2 /\ k_dk s2 = k_dk s /\
    k_lg s2 = set_lg_outstanding 1 (k_lg s).
Proof.
  intros [F1 F2 F3 F4 F5 F6 F7 F8 [F9 F10] [F11 F12] F13 F14 F15]. destruct (begin_op_spec i d st s V F1) as (s1 & E1 & Hc1 & Hd1 & Htx1).
  pose proof (calm_steady i _ ip fi s s1 Hc1) as S1. pose proof (sd_ino _ _ _ _ _ _ _ S1) as Ei.
  assert (kready i s1) as Hr1. { destruct Htx1 as [(R & Hc & _) _ _ _ _]. apply Hc. }
  destruct (ilock_spec i s1 ip Hr1) as (s2 & E2 & Hc2 & Hb2 & Hd2); rewrite ?Ei; try done. rewrite Ei in Hc2. rewrite (sd_pid _ _ _ _ _ _ _ S1) in Hc2.
  pose proof (calm_seti_steady i ip _ fi s1 s2 Hc2) as S2. rewrite (sd_file _ _ _ _ _ _ _ S1) in S2.
  pose proof (steady_trans _ _ _ _ _ _ _ _ _ _ S1 S2) as S. exists s1, s2.
  assert (k_lg s2 = set_lg_outstanding 1 (k_lg s)) as Hlg by (rewrite (cm_lg _ _ _ Hc2); exact (cm_lg _ _ _ Hc1)).
  split_and!; [done|apply S1|done| |done|congruence|done].
  split; rewrite ?(sd_ino _ _ _ _ _ _ _ S); try done.
  - apply (in_tx_move s1); [done|by apply Hc2|apply Hc2|done|done|apply Hc2].
  - by rewrite (sd_sb _ _ _ _ _ _ _ S).
  - by rewrite Hlg.
Qed.

(** iunlock and end_op. *)
Lemma op_end s hs V fi ip : in_tx s hs V ∅ -> lg_outstanding (k_lg s) = 1 -> lg_committing (k_lg s) = 0 -> transaction st (dblock (k_dk s)) V hs -> hs <> [] ->
  let ino := geti s ip in lock_free (sl_lk (i_lock ino)) -> sl_locked (i_lock ino) = 1 -> sl_pid (i_lock ino) = p_pid (getp s i) -> 1 <= i_ref ino ->
  exists s1 s2, iunlock ip s = Ok tt s1 /\ end_op s1 = Ok tt s2 /\ log_idle i d st s2 (vputs (commit_writes st V hs) V) /\
    k_dk s2 = puts (commit_writes st V hs) (k_dk s) /\ steady ip (set_i_lock (freed (i_lock ino)) ino) fi (getf s fi) s s2 /\ lg_size (k_lg s2) = lg_size (k_lg s).
Proof.
  intros Htx Ho Hcm Ht Hne ino Hf Hl Hp Hr. assert (kready i s) as Hr1. { destruct Htx as [(R & Hc & _) _ _ _ _]. apply Hc. }
  destruct (iunlock_spec i s ip Hr1 Hf Hl Hp Hr) as (s1 & E1 & Hc1 & Hb1 & Hd1). pose proof (calm_seti_steady i ip _ fi s s1 Hc1) as S1.
  assert (k_lg s1 = k_lg s) as Hlg by exact (cm_lg _ _ _ Hc1).
  assert (in_tx s1 hs V ∅) as Htx1 by (apply (in_tx_move s); [done|by apply Hc1|apply Hc1|done|done|done]).
  destruct (end_op_spec i d st s1 hs V Htx1) as (s2 & E2 & Hd2 & Hi & Hc2 & Hsz); [by rewrite Hlg|by rewrite Hlg|apply Ht|by eapply tx_outside|].
  pose proof (calm_steady i _ ip fi s1 s2 Hc2) as S2. rewrite (sd_ino _ _ _ _ _ _ _ S1), (sd_file _ _ _ _ _ _ _ S1) in S2.
  assert (tx_writes st V hs = commit_writes st V hs) as Hw by (by destruct hs). rewrite Hw in *. exists s1, s2.
  split_and!; [done|done|done|by rewrite Hd2, Hd1|by eapply steady_trans|by rewrite Hsz, Hlg].
Qed.

(** A power cut among the writes [W] leaves a disk from which recovery brings
    back [C] or [C']. *)
Definition cuts_to (D : disk) (W : list (Z * list Z)) (C C' : Z -> list Z) : Prop :=
  forall k, recoverable st (dblock (puts (take k W) D)) C \/ recoverable st (dblock (puts (take k W) D)) C'.

Lemma commit_cuts D V V' hs : (forall n, V n = dblock D n) -> transaction st (dblock D) V' hs -> cuts_to D (commit_writes st V' hs) V V'.
Proof.
  intros HV Ht k. pose proof (commit_prefix st (dblock D) V' hs k Ht) as Hr.
  assert (forall C, recoverable st (vputs (take k (commit_writes st V' hs)) (dblock D)) C -> recoverable st (dblock (puts (take k (commit_writes st V' hs)) D)) C) as Hd.
  { intros C. apply (recoverable_proper st _ _ (dblock_puts _ _) C C (fun _ => eq_refl)). }
  case_decide; [left|right; by apply Hd]. apply Hd. apply (recoverable_proper st _ _ (fun _ => eq_refl) V (dblock D) HV). done.
Qed.

(** The piece that one turn of filewrite writes. *)
Definition piece (n i0 : Z) : Z := if write_max <? n - i0 then write_max else n - i0.

Lemma span_piece off n i0 : 0 <= off -> 0 <= i0 < n -> 0 < piece n i0 <= 3072 /\ (span off (piece n i0) <= 4)%nat.
Proof.
  intros Ho Hi. unfold piece. change write_max with 3072. unfold span. change BSIZE with 1024. destruct (Z.ltb_spec 3072 (n - i0)); split; zlia.
Qed.

Lemma op_transaction s V s1 hs V1 fi ip : fstate s V fi ip -> in_tx s1 hs V1 ∅ -> k_dk s1 = k_dk s -> (length hs < 30)%nat ->
  (forall h, h ∈ hs -> file_block sb ds h \/ h = iblock sb (i_inum (geti s ip))) -> fs_ok V1 sb ds ->
  transaction st (dblock (k_dk s)) V1 hs /\ forall h, h ∈ hs -> length (V1 h) = Z.to_nat BSIZE.
Proof.
  intros F Htx Hdk Hl Hhs Hfs. destruct F as [F1 F2 _ _ F5 _ _ _ _ _ [[F13 F13'] F14] _ _].
  assert (forall n, V n = dblock (k_dk s) n) as HV by (intros n; by apply (ca_clean _ _ _ _ _ _ (li_cache _ _ _ _ _ F1))).
  assert (forall h, h ∈ hs -> ~ in_log st h /\ 0 <= h < sb_size sb) as Hout.
  { intros h Hh. destruct (fs_ds _ _ _ Hfs). destruct (Hhs h Hh) as [[Hb|(c & Hc & ->)]| ->].
    - split; [|lia]. intros [? _]%Hap. lia.
    - split; [intros [_ Hn]%Hap; by apply (Hn c)|]. pose proof (fs_map _ _ _ Hfs c Hc). lia.
    - split; [done|lia]. }
  split; [|intros h Hh; apply (fs_sized _ _ _ Hfs), Hout, Hh]. rewrite <- Hdk. apply (in_tx_transaction i d st s1 hs V1 Htx); [|done|intros h Hh; by apply Hout].
  rewrite Hdk. split; [|done]. rewrite <- HV. apply (fs_sized _ _ _ F5). pose proof (fs_ds _ _ _ F5).
  destruct (Hap st) as [? _]; [unfold in_log; change LOGSIZE with 30; lia|lia].
Qed.

(** ilock and writei of one piece, then the new offset. *)
Lemma op_write s V fi ip src bs : fstate s V fi ip -> src_holds i s src bs -> bs <> [] -> let n := Z.of_nat (length bs) in let off := f_off (getf s fi) in
  off + n <= maxbytes -> (span off n <= 4)%nat -> (8 <= nfree V sb)%nat ->
  exists s1 s2 s3 V1 addrs1 hs, begin_op s = Ok tt s1 /\ getf s1 fi = getf s fi /\ ilock ip s1 = Ok tt s2 /\ f_off (getf s2 fi) = off /\ writei ip src off n s2 = Ok n s3 /\
    steady ip (grown addrs1 (off + n) (set_i_lock (taken (p_pid (getp s i)) (i_lock (geti s ip))) (geti s ip))) fi (getf s fi) s s3 /\
    in_tx s3 hs V1 ∅ /\ lg_outstanding (k_lg s3) = 1 /\ lg_committing (k_lg s3) = 0 /\ lg_size (k_lg s3) = lg_size (k_lg s) /\
    k_dk s3 = k_dk s /\ transaction st (dblock (k_dk s)) V1 hs /\ hs <> [] /\ (forall h, h ∈ hs -> length (V1 h) = Z.to_nat BSIZE) /\
    written st sb ds V (geti s ip) off bs V1 addrs1 /\ (nfree V sb <= nfree V1 sb + 8)%nat.
Proof.
  intros F Hsrc Hbs n off Hmax Hsp Hnf. destruct (op_start s V fi ip F) as (s1 & s2 & E1 & Ef & E2 & Hrd & S2 & Hd2 & Hlg2).
  set (ino := geti s ip) in *. set (ino2 := set_i_lock _ ino) in *. pose proof (sd_ino _ _ _ _ _ _ _ S2) as Ei.
  assert (i_addrs ino2 = i_addrs ino /\ i_inum ino2 = i_inum ino /\ i_size ino2 = i_size ino) as (Ea & En & Es) by (by destruct ino).
  pose proof (fst_home _ _ _ _ F) as [Hhome _]. fold ino in Hhome. pose proof (fst_off _ _ _ _ F) as Hoff. fold ino off in Hoff.
  destruct (writei_spec i d st sb ds s2 [] V ip src bs off Hrd) as (s3 & V1 & addrs1 & hs & E3 & Hq & Htx & Hfs & Hf & Hov & Hok & Hdisk & Hnf1 & Hl & Hin & Hhs);
    rewrite ?Ei, ?En, ?Es; try done; [by eapply steady_src|cbn; fold n; lia|fold n; lia|].
  rewrite Ei, Ea, ?En in *. change (Z.of_nat (length bs)) with n in Hov, E3, Hq, Hdisk, Hnf1, Hl. pose proof (quiet_seti_steady i ip _ fi s2 s3 Hq) as S3. rewrite (sd_file _ _ _ _ _ _ _ S2) in S3.
  assert (k_dk s3 = k_dk s) as Hd3 by (rewrite (q_dk _ _ _ Hq); exact Hd2).
  destruct (op_transaction s V s3 hs V1 fi ip F Htx Hd3) as [Ht Hsz]; [cbn in Hl; lia| |done|].
  { intros h Hh. destruct (Hhs h Hh) as [[]%not_elem_of_nil|Hb]; done. }
  destruct (q_lg _ _ _ Hq) as [lh Hlg3]. assert (k_lg s3 = set_lg_lh lh (set_lg_outstanding 1 (k_lg s))) as Hlg by (rewrite Hlg3; change (k_lg (seti ?a ?b s2)) with (k_lg s2); by rewrite Hlg2).
  exists s1, s2, s3, V1, addrs1, hs. rewrite Hlg. split_and!; try done.
  - by rewrite (sd_file _ _ _ _ _ _ _ S2).
  - by eapply steady_trans.
  - apply (li_comm _ _ _ _ _ (fst_idle _ _ _ _ F)).
  - by destruct hs; [apply not_elem_of_nil in Hin|].
  - lia.
Qed.

(** The file between operations again, after a commit. *)
Lemma fstate_after s V fi ip bs V1 addrs1 hs s' V' : fstate s V fi ip -> let ino := geti s ip in let off := f_off (getf s fi) in let e := off + Z.of_nat (length bs) in
  e <= maxbytes -> written st sb ds V ino off bs V1 addrs1 -> transaction st (dblock (k_dk s)) V1 hs -> (forall h, h ∈ hs -> length (V1 h) = Z.to_nat BSIZE) ->
  steady ip (set_i_lock (freed (i_lock ino)) (grown addrs1 e ino)) fi (set_f_off e (getf s fi)) s s' -> log_idle i d st s' V' ->
  k_dk s' = puts (commit_writes st V1 hs) (k_dk s) -> lg_size (k_lg s') = lg_size (k_lg s) ->
  fstate s' V' fi ip /\ written st sb ds V ino off bs V' addrs1 /\ nfree V' sb = nfree V1 sb.
Proof.
  intros F ino off e Hmax Hw Ht Hsz S Hidle Hdk Hlg. pose proof F as [F1 F2 F3 F4 F5 F6 F7 F8 [F9 F10] [F11 F12] [F13 F13'] F14 F15]. fold ino off in F15, F13', F13, F11, F12, F9, F10, F8, F7.
  assert (forall n, V n = dblock (k_dk s) n) as HV by (intros n; by apply (ca_clean _ _ _ _ _ _ (li_cache _ _ _ _ _ F1))).
  assert (forall n, V' n = vputs (commit_writes st V1 hs) (dblock (k_dk s)) n) as HV'.
  { intros n. rewrite (ca_clean _ _ _ _ _ _ (li_cache _ _ _ _ _ Hidle)) by done. by rewrite Hdk, dblock_puts. }
  assert (off_log st V1 V') as Hoff by (intros n Hn; rewrite HV'; by apply commit_done).
  destruct (commit_clean st (dblock (k_dk s)) V1 hs Ht Hsz) as [Hcl Hlen].
  { intros b Hb. rewrite <- HV. apply (fs_sized _ _ _ F5). pose proof (fs_ds _ _ _ F5). destruct (Hap b Hb). lia. }
  assert (written st sb ds V ino off bs V' addrs1) as Hw'.
  { apply (written_off_log st sb ds Hap V ino off bs V1); try done; [|lia]. intros b Hb. rewrite HV'. by apply Hlen. }
  assert (nfree V' sb = nfree V1 sb) as Hnf by (apply nfree_same; intros c Hc; by apply (off_log_used st sb ds Hap)).
  split_and!; [|done|done]. split; rewrite ?(sd_ino _ _ _ _ _ _ _ S), ?(sd_file _ _ _ _ _ _ _ S), ?(sd_sb _ _ _ _ _ _ _ S), ?Hlg; try done.
  - rewrite Hdk, dblock_puts. done.
  - apply Hw'.
  - apply Hw'.
  - exact (w_disk _ _ _ _ _ _ _ _ _ Hw').
  - change (0 <= e <= Z.max (i_size ino) e). lia.
Qed.

(** One turn of filewrite. *)
Lemma write_piece s V fi ip addr n i0 bs fuel : fstate s V fi ip -> 0 <= i0 < n -> Z.of_nat (length bs) = piece n i0 ->
  src_holds i s (SUser (u64 (addr + i0))) bs -> let off := f_off (getf s fi) in let n1 := piece n i0 in off + n1 <= maxbytes -> (8 <= nfree V sb)%nat ->
  exists s' V' V1 addrs1 W, filewrite_loop (S fuel) fi addr n i0 s = filewrite_loop fuel fi addr n (i0 + n1) s' /\ fstate s' V' fi ip /\
    steady ip (set_i_lock (freed (i_lock (geti s ip))) (grown addrs1 (off + n1) (geti s ip))) fi (set_f_off (off + n1) (getf s fi)) s s' /\
    written st sb ds V (geti s ip) off bs V' addrs1 /\ (nfree V sb <= nfree V' sb + 8)%nat /\
    k_dk s' = puts W (k_dk s) /\ written st sb ds V (geti s ip) off bs V1 addrs1 /\ cuts_to (k_dk s) W V V1.
Proof.
  intros F Hi Hbs Hsrc off n1 Hmax Hnf. pose proof (fst_off _ _ _ _ F) as Hoff. fold off in Hoff. destruct (span_piece off n i0 ltac:(lia) Hi) as [Hn1 Hsp].
  fold n1 in Hbs, Hn1, Hsp. rewrite <- Hbs in Hmax, Hsp, Hn1.
  destruct (op_write s V fi ip _ bs F Hsrc) as (s1 & s2 & s3 & V1 & addrs1 & hs & E1 & Ef & E2 & Eo & E3 & S3 & Htx & Ho3 & Hc3 & Hl3 & Hd3 & Ht & Hne & Hsz & Hw & Hnf1); try done.
  { intros ->. cbn in Hn1. lia. }
  rewrite Hbs in *. fold off in E3, Eo, Hw, S3. set (ino := geti s ip) in *. set (s4 := setf fi (set_f_off (off + n1) (getf s fi)) s3).
  pose proof (sd_ino _ _ _ _ _ _ _ S3) as Ei.
  destruct (op_end s4 hs V1 fi ip) as (s5 & s6 & E5 & E6 & Hidle & Hd6 & S6 & Hl6); try done.
  { by apply (in_tx_move s3). } { by rewrite <- Hd3 in Ht. }
  1-4: change (geti s4 ip) with (geti s3 ip); rewrite Ei.
  { apply (fst_lock _ _ _ _ F). } { done. } { symmetry. apply (sd_pid _ _ _ _ _ _ _ S3). } { apply (fst_ref _ _ _ _ F). }
  change (geti s4 ip) with (geti s3 ip) in S6. assert (getf s4 fi = set_f_off (off + n1) (getf s fi)) as Ef4 by (unfold s4; by rewrite getf_setf, decide_True).
  rewrite Ei, Ef4 in S6. change (k_dk s4) with (k_dk s3) in Hd6. rewrite Hd3 in Hd6. change (k_lg s4) with (k_lg s3) in Hl6. rewrite Hl3 in Hl6.
  pose proof (steady_trans _ _ _ _ _ _ _ _ _ _ S3 (steady_trans _ _ _ _ _ _ _ _ _ _ (setf_steady i ip fi (set_f_off (off + n1) (getf s fi)) s3) S6)) as S.
  destruct (fstate_after s V fi ip bs V1 addrs1 hs s6 (vputs (commit_writes st V1 hs) V1) F) as (F6 & Hw6 & Hnf6); rewrite ?Hbs; try done.
  eexists s6, _, V1, addrs1, _. split_and!; [|exact F6|exact S|exact Hw6|lia|exact Hd6|exact Hw|].
  - cbn [filewrite_loop]. rewrite (proj2 (Z.ltb_lt i0 n)) by lia. cbn [negb]. fold (piece n i0). fold n1.
    rewrite (bind_Ok _ _ _ _ _ E1), bind_gets, Ef, (fst_ip _ _ _ _ F). unfold ilockable. rewrite bind_ret, (bind_Ok _ _ _ _ _ E2), bind_gets, Eo.
    rewrite (bind_Ok _ _ _ _ _ E3), (proj2 (Z.ltb_lt 0 n1)) by lia.
    rewrite (bind_Ok _ _ _ tt s4); [rewrite (bind_Ok _ _ _ _ _ E5), (bind_Ok _ _ _ _ _ E6), (proj2 (Z.ltb_ge n1 0)), Z.eqb_refl by lia; done|].
    unfold updf, modify, s4. rewrite (sd_file _ _ _ _ _ _ _ S3). fold off. change maxbytes with 274432 in Hmax.
    replace (u32 (off + n1)) with (off + n1) by (unfold u32; rewrite Z.mod_small; lia). done.
  - apply commit_cuts; [|done]. intros m. by apply (ca_clean _ _ _ _ _ _ (li_cache _ _ _ _ _ (fst_idle _ _ _ _ F))).
Qed.

(** ** The loop of filewrite *)

Lemma src_user_take s a bs n : 0 <= n -> src_holds i s (SUser a) bs -> src_holds i s (SUser a) (take (Z.to_nat n) bs).
Proof.
  intros Hn [Ha H]. split; [done|]. intros m j len Hm Hk Hh Hj Hlen Hl. rewrite length_take in Hl. rewrite (H m j len Hm Hk Hh Hj Hlen) by lia.
  rewrite skipn_firstn_comm, firstn_firstn. do 3 f_equal. lia.
Qed.

(** Wherever the power is cut among the writes [W], recovery brings back the
    file system with a first part of [bs] written: all of it, or a number of
    whole pieces. *)
Definition crash_safe (D : disk) (W : list (Z * list Z)) (V : Z -> list Z) (ino : inode) (off : Z) (bs : list Z) : Prop :=
  forall k, exists m C addrs', (m <= length bs)%nat /\ (m = length bs \/ (write_max | Z.of_nat m)) /\ written st sb ds V ino off (take m bs) C addrs' /\ recoverable st (dblock (puts (take k W) D)) C.

Lemma crash_safe_app D W1 W2 V ino off bs1 V1 a1 V1' lk bs2 : 0 <= off <= i_size ino -> off + Z.of_nat (length (bs1 ++ bs2)) <= maxbytes ->
  fs_ok V sb ds -> file_ok V sb ds (i_addrs ino) -> on_disk sb V ino -> Z.of_nat (length bs1) = write_max \/ bs2 = [] ->
  cuts_to D W1 V V1 -> written st sb ds V ino off bs1 V1 a1 -> written st sb ds V ino off bs1 V1' a1 ->
  crash_safe (puts W1 D) W2 V1' (set_i_lock lk (grown a1 (off + Z.of_nat (length bs1)) ino)) (off + Z.of_nat (length bs1)) bs2 ->
  crash_safe D (W1 ++ W2) V ino off (bs1 ++ bs2).
Proof.
  intros Ho Hm H1 H2 H3 Hpc Hcut Hw Hw' Hcs k. destruct (decide (k <= length W1)%nat) as [Hk|Hk].
  - rewrite take_app_le by done. destruct (Hcut k) as [Hr|Hr].
    + exists 0%nat, V, (i_addrs ino). split_and!; [lia|right; apply Z.divide_0_r|apply written_refl; (done || lia)|done].
    + exists (length bs1), V1, a1. rewrite take_app_length. split_and!; [rewrite length_app; lia| |done|done].
      destruct Hpc as [-> | ->]; [right; apply Z.divide_refl|left; by rewrite app_nil_r].
  - destruct (Hcs (k - length W1)%nat) as (m & C & a2 & Hm2 & Hdv & Hw2 & Hr). exists (length bs1 + m)%nat, C, a2. rewrite length_app. split_and!; [lia| | |].
    + destruct Hpc as [Hpc| ->]; [|left; cbn in *; lia]. destruct Hdv as [->|Hdv]; [by left|right]. rewrite Nat2Z.inj_add, Hpc. by apply Z.divide_add_r; [apply Z.divide_refl|].
    + rewrite take_app_add. apply (written_app st sb ds V ino off bs1 V1' a1 lk); [lia| |done|done]. rewrite length_app in *. rewrite length_take. lia.
    + rewrite take_app_ge by lia. by rewrite puts_app.
Qed.

Lemma fstate_clean s V fi ip : fstate s V fi ip -> (forall n, V n = dblock (k_dk s) n) /\ transaction st (dblock (k_dk s)) V [].
Proof.
  intros [F1 F2 _ _ F5 _ _ _ _ _ _ _ _].
  assert (forall n, V n = dblock (k_dk s) n) as HV by (intros n; by apply (ca_clean _ _ _ _ _ _ (li_cache _ _ _ _ _ F1))).
  split; [done|]. split; try done; [|change bhead with 30%nat; cbn; lia|constructor|intros h []%not_elem_of_nil].
  rewrite <- HV. apply (fs_sized _ _ _ F5). pose proof (fs_ds _ _ _ F5). destruct (Hap st) as [? _]; [unfold in_log; change LOGSIZE with 30; lia|lia].
Qed.

Lemma fstate_crash_nil s V fi ip off : fstate s V fi ip -> off <= i_size (geti s ip) -> crash_safe (k_dk s) [] V (geti s ip) off [].
Proof.
  intros F Ho k. destruct (fstate_clean s V fi ip F) as [HV Ht]. exists 0%nat, V, (i_addrs (geti s ip)). split_and!; [done|by left|by apply written_refl; try apply F|].
  destruct (commit_cuts (k_dk s) V V [] HV Ht 0%nat) as [Hr|Hr]; by destruct k.
Qed.

Lemma grown_grown lk lk' a1 a2 e1 e2 ino : e1 <= e2 ->
  set_i_lock lk (grown a2 e2 (set_i_lock lk' (grown a1 e1 ino))) = set_i_lock lk (grown a2 e2 ino).
Proof.
  intros He. unfold grown. change (i_size (set_i_lock lk' (set_i_size (Z.max (i_size ino) e1) (set_i_addrs a1 ino)))) with (Z.max (i_size ino) e1).
  by replace (Z.max (Z.max (i_size ino) e1) e2) with (Z.max (i_size ino) e2) by lia.
Qed.

Lemma filewrite_loop_spec c : forall s V fi ip addr n i0 bs fuel, fstate s V fi ip -> 0 <= i0 <= n -> Z.of_nat (length bs) = n - i0 -> n - i0 <= Z.of_nat c * 3072 ->
  (c < fuel)%nat -> src_holds i s (SUser (u64 (addr + i0))) bs -> let off := f_off (getf s fi) in let ino := geti s ip in off + (n - i0) <= maxbytes -> (8 * c <= nfree V sb)%nat ->
  exists s' V' addrs' W lk, filewrite_loop fuel fi addr n i0 s = Ok n s' /\ fstate s' V' fi ip /\
    steady ip (set_i_lock lk (grown addrs' (off + (n - i0)) ino)) fi (set_f_off (off + (n - i0)) (getf s fi)) s s' /\
    written st sb ds V ino off bs V' addrs' /\ k_dk s' = puts W (k_dk s) /\ crash_safe (k_dk s) W V ino off bs.
Proof.
  induction c as [|c IH]; intros s V fi ip addr n i0 bs fuel F Hi Hbs Hc Hfu Hsrc off ino Hmax Hnf; (destruct fuel as [|fuel]; [lia|]).
  all: destruct (decide (i0 = n)) as [->|Hne]; [|try lia].
  1, 2: exists s, V, (i_addrs ino), [], (i_lock ino); destruct bs; [|cbn in Hbs; lia]; pose proof (fst_off _ _ _ _ F) as Hoff; fold off ino in Hoff; rewrite Z.sub_diag, Z.add_0_r in *;
    split_and!; [cbn [filewrite_loop]; by rewrite Z.ltb_irrefl|done| |apply written_refl; try apply F; lia|done|apply (fstate_crash_nil s V fi ip); [done|apply Hoff]];
    unfold grown; rewrite Z.max_l by lia;
    replace (set_i_lock (i_lock ino) (set_i_size (i_size ino) (set_i_addrs (i_addrs ino) ino))) with ino by (by destruct ino);
    replace (set_f_off off (getf s fi)) with (getf s fi) by (unfold off; by destruct (getf s fi)); by split.
  set (n1 := piece n i0). destruct (span_piece off n i0) as [Hn1 _]; [apply F|lia|]. fold n1 in Hn1.
  assert (n1 <= n - i0) as Hn1' by (unfold n1, piece; destruct (Z.ltb_spec write_max (n - i0)); lia).
  set (bs1 := take (Z.to_nat n1) bs). set (bs2 := drop (Z.to_nat n1) bs). assert (bs = bs1 ++ bs2) as Eb by (symmetry; apply take_drop).
  assert (Z.of_nat (length bs1) = n1) as Hl1 by (unfold bs1; rewrite length_take; lia). assert (Z.of_nat (length bs2) = n - i0 - n1) as Hl2 by (unfold bs2; rewrite length_drop; lia).
  destruct (write_piece s V fi ip addr n i0 bs1 fuel F) as (s1 & V1' & V1 & a1 & W1 & E1 & F1 & S1 & Hw1' & Hnf1 & Hd1 & Hw1 & Hcut); try done; [lia|by apply src_user_take; [lia|]|fold off n1; lia|lia|].
  fold off ino n1 in S1, Hw1, Hw1', E1. pose proof (sd_ino _ _ _ _ _ _ _ S1) as Ei. pose proof (sd_file _ _ _ _ _ _ _ S1) as Ef.
  assert (f_off (getf s1 fi) = off + n1) as Eo by (rewrite Ef; by destruct (getf s fi)).
  destruct (IH s1 V1' fi ip addr n (i0 + n1) bs2 fuel F1) as (s2 & V2 & a2 & W2 & lk & E2 & F2 & S2 & Hw2 & Hd2 & Hcs); rewrite ?Eo; try lia.
  { unfold n1, piece in *. change write_max with 3072 in *. destruct (Z.ltb_spec 3072 (n - i0)); lia. }
  { apply (steady_src i _ _ _ _ _ _ _ _ S1). apply (src_holds_add i s _ _ n1) in Hsrc; [|lia]. cbn [ksrc_add] in Hsrc.
    replace (u64 (u64 (addr + i0) + n1)) with (u64 (addr + (i0 + n1))) in Hsrc by (unfold u64; rewrite Zplus_mod_idemp_l; f_equal; lia). done. }
  rewrite Eo in S2, Hw2, Hcs. rewrite Ei in S2, Hw2, Hcs. replace (off + n1 + (n - (i0 + n1))) with (off + (n - i0)) in S2 by lia.
  rewrite grown_grown in S2 by lia. replace (set_f_off (off + (n - i0)) (getf s1 fi)) with (set_f_off (off + (n - i0)) (getf s fi)) in S2 by (by rewrite Ef).
  exists s2, V2, a2, (W1 ++ W2), lk. split_and!; [by rewrite E1, E2|done|by eapply steady_trans| |by rewrite puts_app, Hd2, Hd1|].
  - rewrite Eb. apply (written_app st sb ds V ino off bs1 V1' a1 (freed (i_lock ino))); rewrite ?Hl1; [apply F|rewrite <- Eb, Hbs; lia|done|done].
  - rewrite Eb. rewrite Hd1 in Hcs. apply (crash_safe_app _ W1 W2 V ino off bs1 V1 a1 V1' (freed (i_lock ino))); rewrite ?Hl1; try done; try apply F; [rewrite <- Eb, Hbs; lia|].
    unfold n1, piece in *. destruct (Z.ltb_spec write_max (n - i0)); [by left|right]. apply nil_length_inv. lia.
Qed.
End Write.
