(* ===== verification/FsUser.v ===== *)
(** * Files and user memory

    The bytes that filewrite takes come from user memory and those of
    fileread go there; fileread runs while the log is idle. *)

From S2P Require Import Prelude CString Layout Spinlock Kalloc State Vm Proc SleepLock Bio Log Fs Pipe Console File ProcSpec SleepSpec Ring CacheSpec LogSpec LogOps FsTx FsMap FsFile FsInode FsRead FsCommit VmSpec AddrSpace UserMem UserCopy ObjCopy LogTheorems FsWrite.

Section UserMemory.
Context `{HI : KernelImage} `{HOk : !ImageOk} `{OT : Others} `{BD : BlockDev} `{DL : !DiskLaws}.
Context (i : nat) (d : Z).

(** ** The user's buffer as a source *)

Lemma uspace_agree m l sh U F m' : uspace m l sh U F -> m_mem m' = m_mem m -> m_kmem m' = m_kmem m -> hart_ok (m_hart m') -> uspace m' l sh U F.
Proof.
  intros Hu Em Ek Hh. pose proof (us_pt _ _ _ _ _ Hu) as Hpt. pose proof (pi_vm _ _ _ _ Hpt) as Hvm.
  eapply uspace_pt; [exact Hu| |apply (us_disj _ _ _ _ _ Hu)].
  eapply pt_inv_frame; [exact Hpt| |rewrite Em; apply only_pages_refl|apply Forall_nil_2|].
  - destruct (vi_kmem _ _ _ Hvm). by split; rewrite ?Em, ?Ek.
  - intros p Hp. split; [by apply not_elem_of_nil|]. by apply (vi_disj _ _ _ Hvm).
Qed.

Lemma user_src s l sh U F a bs : uspace (k_m s) l sh U F -> high_ok U -> p_pagetable (getp s i) = sh_root sh -> 0 <= a -> a + Z.of_nat (length bs) <= 2 ^ 64 -> bs <> [] ->
  (forall j b, bs !! j = Some b -> uread (m_mem (k_m s)) U (a + Z.of_nat j) = Some b) -> src_holds i s (SUser a) bs.
Proof.
  intros Hu Hh Hr Ha Hb Hne Hbs. assert (0 < Z.of_nat (length bs)) by (destruct bs; [done|cbn; lia]). split; [apply u64_small; lia|].
  intros m j len Em Ek Hhart Hj Hlen Hl. rewrite Hr, u64_small by lia.
  destruct (copyin_obj_spec m l sh U F (a + j) len) as (r & bs' & E & Hres & Hrd); [by eapply uspace_agree|done|lia|lia|]. rewrite E. rewrite Em in *.
  assert (forall x, 0 <= x < len -> uread (m_mem (k_m s)) U (a + j + x) = bs !! Z.to_nat (j + x)) as Hx.
  { intros x Hx. destruct (lookup_lt_is_Some_2 bs (Z.to_nat (j + x))) as [b Hb']; [lia|]. rewrite Hb', <- (Hbs _ _ Hb'). f_equal. lia. }
  destruct Hres as [[-> Hk]|(-> & Hk & Hn)].
  - do 2 f_equal. apply list_eq. intros x. destruct (decide (x < Z.to_nat len)%nat) as [Hlt|Hge].
    + rewrite lookup_take_lt, lookup_drop by done. destruct (lookup_lt_is_Some_2 bs' x) as [b Hb']; [lia|]. rewrite Hb'. apply Hrd in Hb'.
      rewrite Hx in Hb' by lia. rewrite <- Hb'. f_equal. lia.
    + rewrite lookup_take_ge by lia. apply lookup_ge_None_2. lia.
  - rewrite Hx in Hn by lia. apply lookup_ge_None_1 in Hn. lia.
Qed.

(** ** The user's buffer as a destination *)

Lemma walk_levels_state n pt va m r m' : walk_levels n pt va 0 m = Ok r m' -> m' = m.
Proof.
  revert pt. induction n as [|n IH]; intros pt; unfold walk_levels; fold walk_levels; [by intros [= <- <-]|]. unfold load64. rewrite bind_gets.
  destruct (truthy _); [apply IH|]. by intros [= <- <-].
Qed.

Lemma walkaddr_state pt va m r m' : walkaddr pt va m = Ok r m' -> m' = m.
Proof.
  unfold walkaddr, walk. destruct (MAXVA <=? va); [by intros [= <- <-]|]. unfold bind at 1.
  destruct (walk_levels 2 pt va 0 m) as [a m1| |] eqn:E; [|done..]. apply walk_levels_state in E as ->.
  unfold load64. intros H. repeat (case_match; [by injection H as <- <-|]). rewrite bind_gets in H. by repeat (case_match; [by injection H as <- <-|]); injection H as <- <-.
Qed.

Lemma copyout_obj_mem pt va bs m r m' : copyout_obj pt va bs m = Ok r m' -> m' = set_mem (m_mem m') m.
Proof.
  unfold copyout_obj. generalize (Z.to_nat (Z.of_nat (length bs) / PGSIZE + 3)) as fuel. intros fuel. revert va bs m.
  induction fuel as [|fuel IH]; intros va bs m; [done|]. cbn [copyout_obj_loop]. cbv zeta.
  destruct (negb (0 <? Z.of_nat (length bs))); [intros [= <- <-]; by destruct m|]. unfold bind at 1.
  destruct (walkaddr pt (PGROUNDDOWN va) m) as [pa m1| |] eqn:E; [|done..]. apply walkaddr_state in E as ->.
  destruct (pa =? 0); [intros [= <- <-]; by destruct m|]. rewrite bind_modify. intros H%IH. rewrite H. by destruct m.
Qed.

(** ** Reading while the log is idle *)

Definition idle_view (s : kst) (V : Z -> list Z) (h : option (Z * nat)) : Prop :=
  match h with
  | None => cache i d s V (fun _ => 0) ∅
  | Some (n, b) => cache i d s V (upd (fun _ => 0) n 1) {[n := b]} /\ V n = dblock (k_dk s) n
  end.

Definition still (s s' : kst) : Prop := calm i s s' /\ k_dk s' = k_dk s.

#[export] Instance still_order : PreOrder still.
Proof. split; [by split|]. intros s1 s2 s3 [] []. split; [by etransitivity|congruence]. Qed.

#[export] Instance idle_reader : BlockReader d idle_view still.
Proof.
  split.
  - apply _.
  - intros s s' j [Hc _]. unfold geti. by rewrite (cm_ic _ _ _ Hc).
  - intros s V n Hc Hno. destruct (bread_spec i d n s V _ _ Hc) as (b & s' & Hs & Hcalm & Hdk & Hc'); [done|apply lookup_empty| |lia|done|].
    { right. exists []. split; [change bhead with 30%nat; cbn; lia|]. intros m Hm. lia. }
    exists b, s'. destruct (held_buf i d s' V _ _ n b Hc' (lookup_insert_eq _ _ _)) as (_ & _ & H & _). split_and!; try done.
    split; [done|]. rewrite Hdk. by apply (ca_clean _ _ _ _ _ _ Hc).
  - intros s V n b [Hc Hcl]. destruct (brelse_spec i d s V _ _ n b Hc (lookup_singleton_eq _ _)) as (s' & Hs & Hcalm & Hdk & Hc'); [done|].
    exists s'. split_and!; [done|done|]. rewrite delete_singleton_eq in Hc'. refine (proj1 (cache_proper i d s' V _ (fun _ => eq_refl) _ _ _ _ _ eq_refl) Hc').
    intros m. unfold upd. by case_decide; [rewrite decide_True by done|].
Qed.

(** Memory apart. *)
Definition with_mem (m : mem) (s : kst) : kst := set_m (set_mem m (k_m s)) s.
Definition filled (s s' : kst) : Prop := calm i (with_mem (m_mem (k_m s')) s) s' /\ k_dk s' = k_dk s.

Lemma calm_with_mem m s s' : calm i s s' -> calm i (with_mem m s) (with_mem m s').
Proof. intros []. by split. Qed.

#[export] Instance filled_order : PreOrder filled.
Proof.
  split; [intros s; split; [|done]; unfold with_mem; destruct s as [[] ? ? ? ? ? ? ? ? ? ? ?]; reflexivity|].
  intros s1 s2 s3 [H1 H2] [H3 H4]. split; [|congruence]. etransitivity; [|exact H3]. exact (calm_with_mem (m_mem (k_m s3)) _ _ H1).
Qed.

Lemma cache_with_mem m s V R Hd : cache i d s V R Hd -> cache i d (with_mem m s) V R Hd.
Proof. intros Hc. apply (cache_same i d s); done. Qed.

Lemma myproc_still s V R Hd : cache i d s V R Hd -> exists s', myproc s = Ok (Some i) s' /\ still s s' /\ cache i d s' V R Hd.
Proof.
  intros Hc. destruct (ca_ready _ _ _ _ _ _ Hc) as (Hh & Hp & Hr). pose proof (curproc_eq i s Hh Hp) as E. unfold curproc, bind in E.
  destruct (myproc s) as [[j|] s1| |]; [|done..]. injection E as -> ->. eexists. split; [done|]. pose proof (calm_touched i s) as Hcalm.
  split; [by split|]. apply (cache_same i d s); try done. apply Hcalm.
Qed.

Section Receive.
Context (l : list Z) (sh : shape) (U : gmap Z Z) (F : list Z) (Hhigh : high_ok U).
Context (m0 : mem) (a0 n0 : Z) (Ha0 : 0 <= a0) (Hend : a0 + n0 <= 2 ^ 64) (Hmapped : forall va, a0 <= va < a0 + n0 -> uread m0 U va <> None).

(** User memory after [bs] went to [a0]. *)
Definition received (m : mem) (bs : list Z) : Prop :=
  forall va, uread m U va = if (a0 <=? va) && (va <? a0 + Z.of_nat (length bs)) then Some (u8 (bs !!! Z.to_nat (va - a0))) else uread m0 U va.

Record receiving (s : kst) (dst : kdst) (bs : list Z) : Prop := {
  rc_ready : kready i s;
  rc_dst : dst = DUser (u64 (a0 + Z.of_nat (length bs)));
  rc_space : uspace (k_m s) l sh U F;
  rc_root : p_pagetable (getp s i) = sh_root sh;
  rc_mem : received (m_mem (k_m s)) bs }.

Lemma receiving_still s s' dst bs : still s s' -> receiving s dst bs -> receiving s' dst bs.
Proof.
  intros [Hc _] [H1 H2 H3 H4 H5]. assert (kready i s') as Hr by (by apply (cm_ready _ _ _ Hc)). split; [done|done|..].
  - eapply uspace_agree; [exact H3|apply Hc|apply Hc|apply Hr].
  - by rewrite (cm_as _ _ _ Hc).
  - by rewrite (cm_mem _ _ _ Hc).
Qed.

Lemma received_app m m' bs new : received m bs -> new <> [] -> Z.of_nat (length bs + length new) <= n0 ->
  (forall va, uread m' U va = if (a0 + Z.of_nat (length bs) <=? va) && (va <? a0 + Z.of_nat (length bs) + Z.of_nat (length new))
     then Some (u8 (new !!! Z.to_nat (va - (a0 + Z.of_nat (length bs))))) else uread m U va) -> received m' (bs ++ new).
Proof.
  intros Hm Hne Hl Hm' va. rewrite Hm', Hm, length_app.
  destruct (Z.leb_spec (a0 + Z.of_nat (length bs)) va), (Z.ltb_spec va (a0 + Z.of_nat (length bs) + Z.of_nat (length new))),
    (Z.leb_spec a0 va), (Z.ltb_spec va (a0 + Z.of_nat (length bs))), (Z.ltb_spec va (a0 + Z.of_nat (length bs + length new))); cbn [andb]; try lia; try done.
  - do 2 f_equal. rewrite lookup_total_app_r by lia. f_equal. lia.
  - do 2 f_equal. by rewrite lookup_total_app_l by lia.
Qed.

Lemma either_copyout_user s V R Hd dst bs new : cache i d s V R Hd -> receiving s dst bs -> new <> [] -> Z.of_nat (length bs + length new) <= n0 ->
  exists s', either_copyout dst new s = Ok 0 s' /\ filled s s' /\ cache i d s' V R Hd /\ receiving s' (kdst_add dst (Z.of_nat (length new))) (bs ++ new).
Proof.
  intros Hc HT Hne Hl. destruct (myproc_still s V R Hd Hc) as (s1 & Hs1 & Hst & Hc1). pose proof (receiving_still _ _ _ _ Hst HT) as [T1 T2 T3 T4 T5].
  assert (0 < Z.of_nat (length new)) as Hpos by (destruct new; [done|cbn; lia]).
  assert (u64 (a0 + Z.of_nat (length bs)) = a0 + Z.of_nat (length bs)) as Ea by (apply u64_small; lia).
  destruct (copyout_obj_spec (k_m s1) l sh U F (a0 + Z.of_nat (length bs)) new T3 Hhigh) as (r & m' & k & E & Hu & _ & Hres & Hrd); [lia|].
  assert (r = 0 /\ k = Z.of_nat (length new)) as [-> ->].
  { destruct Hres as [|(_ & Hk & Hn)]; [done|]. exfalso. rewrite T5 in Hn. case_match; [done|]. apply (Hmapped (a0 + Z.of_nat (length bs) + k)); [lia|done]. }
  pose proof (copyout_obj_mem _ _ _ _ _ _ E) as Em. set (s2 := with_mem (m_mem m') s1).
  assert (either_copyout dst new s = Ok 0 s2) as Es.
  { rewrite T2, Ea. unfold either_copyout. rewrite (bind_Ok _ _ _ _ _ Hs1). unfold deref. rewrite bind_ret, bind_gets, T4, (memop_Ok _ s1 _ _ E), Em. done. }
  exists s2. split_and!; [done| |by apply cache_with_mem|].
  - destruct Hst as [Hcalm Hdk]. split; [|done]. exact (calm_with_mem (m_mem m') _ _ Hcalm).
  - split; try done.
    + rewrite T2. cbn [kdst_add]. f_equal. rewrite Ea, length_app. f_equal. lia.
    + change (k_m s2) with (set_mem (m_mem m') (k_m s1)). by rewrite <- Em.
    + by apply (received_app (m_mem (k_m s1))).
Qed.

#[export] Instance user_receiver : Receiver idle_view still filled n0 receiving.
Proof.
  split.
  - apply _.
  - intros s s' [Hc Hd]. split; [|done]. assert (with_mem (m_mem (k_m s')) s = s) as ->; [|done]. rewrite (cm_mem _ _ _ Hc). unfold with_mem. destruct s as [[] ? ? ? ? ? ? ? ? ? ? ?]. done.
  - intros s s' j [Hc _]. unfold geti. by rewrite (cm_ic _ _ _ Hc).
  - intros s s' dst bs. apply receiving_still.
  - intros s V [n b] dst bs new [Hc Hcl] HT Hne Hl. destruct (either_copyout_user s V _ _ dst bs new Hc HT Hne Hl) as (s' & Hs & Hf & Hc' & HT').
    exists s'. split_and!; try done. split; [done|]. destruct Hf as [_ Hdk]. by rewrite Hdk.
Qed.
End Receive.
End UserMemory.

Section FileRead.
Context `{HI : KernelImage} `{HOk : !ImageOk} `{OT : Others} `{BD : BlockDev} `{DL : !DiskLaws}.
Context (i : nat) (d st : Z) (sb : superblock) (ds : Z).

Lemma steady_with_mem M ip x fi f s s' : steady i ip x fi f s s' -> steady i ip x fi f (with_mem M s) (with_mem M s').
Proof. intros []. by split. Qed.

Lemma filled_steady ip fi s s' : filled i s s' -> steady i ip (geti s ip) fi (getf s fi) (with_mem (m_mem (k_m s')) s) s'.
Proof. intros [Hc _]. refine (calm_steady i (k_lg s) ip fi (with_mem (m_mem (k_m s')) s) s' _). by destruct s. Qed.

(** The file between operations is as before but for its offset. *)
Lemma fstate_moved s V fi ip s' M off lk : fstate i d st sb ds s V fi ip -> steady i ip (set_i_lock lk (geti s ip)) fi (set_f_off off (getf s fi)) (with_mem M s) s' ->
  lock_free (sl_lk lk) -> sl_locked lk = 0 -> 0 <= off <= i_size (geti s ip) -> cache i d s' V (fun _ => 0) ∅ -> k_lg s' = k_lg s -> k_dk s' = k_dk s ->
  fstate i d st sb ds s' V fi ip.
Proof.
  intros [[] F2 F3 F4 F5 F6 F7 F8 F9 F10 F11 F12 F13] S Hl1 Hl2 Ho Hc Hlg Hdk.
  split; rewrite ?(sd_ino _ _ _ _ _ _ _ S), ?(sd_file _ _ _ _ _ _ _ S), ?(sd_sb _ _ _ _ _ _ _ S), ?Hlg, ?Hdk; try done. by split; rewrite ?Hlg.
Qed.

(** The end of fileread. *)
Lemma read_tail s V fi ip r : cache i d s V (fun _ => 0) ∅ -> let ino := geti s ip in let off := f_off (getf s fi) in
  lock_free (sl_lk (i_lock ino)) -> sl_locked (i_lock ino) = 1 -> sl_pid (i_lock ino) = p_pid (getp s i) -> 1 <= i_ref ino -> 0 <= r -> 0 <= off -> off + r < 2 ^ 32 ->
  exists s', ((if 0 <? r then updf fi (fun f => set_f_off (u32 (f_off f + r)) f) else skip);; iunlock ip;; ret r) s = Ok r s' /\
    steady i ip (set_i_lock (freed (i_lock ino)) ino) fi (set_f_off (off + r) (getf s fi)) s s' /\ cache i d s' V (fun _ => 0) ∅ /\ k_lg s' = k_lg s /\ k_dk s' = k_dk s.
Proof.
  intros Hc ino off Hf Hl Hp Hr H0 Ho Hm. set (s1 := setf fi (set_f_off (off + r) (getf s fi)) s).
  assert (exists s1, (if 0 <? r then updf fi (fun f => set_f_off (u32 (f_off f + r)) f) else skip) s = Ok tt s1 /\ steady i ip ino fi (set_f_off (off + r) (getf s fi)) s s1 /\
    k_bc s1 = k_bc s /\ k_dk s1 = k_dk s /\ k_lg s1 = k_lg s /\ k_pt s1 = k_pt s /\ k_m s1 = k_m s /\ k_vd s1 = k_vd s /\ k_pl s1 = k_pl s) as (s2 & E2 & S2 & B1 & B2 & B3 & B4 & B5 & B6 & B7).
  { destruct (Z.ltb_spec 0 r).
    - exists s1. split_and!; try done; [|apply setf_steady]. unfold updf, modify. fold off. replace (u32 (off + r)) with (off + r) by (unfold u32; rewrite Z.mod_small; lia). done.
    - exists s. assert (r = 0) as -> by lia. rewrite Z.add_0_r. split_and!; try done. replace (set_f_off off (getf s fi)) with (getf s fi) by (unfold off; by destruct (getf s fi)). by split. }
  assert (cache i d s2 V (fun _ => 0) ∅) as Hc2.
  { apply (cache_same i d s); try done; [|apply S2]. intros (K1 & K2 & K3 & K4). unfold kready_at, hart_of, plocks_free, getp in *. cbn in *. by rewrite B4, B5, B6, B7. }
  pose proof (sd_ino _ _ _ _ _ _ _ S2) as Ei. rewrite (bind_Ok _ _ _ _ _ E2).
  destruct (iunlock_spec i s2 ip (ca_ready _ _ _ _ _ _ Hc2)) as (s3 & E3 & Hc3 & Hb3 & Hd3); rewrite ?Ei; try done; [by rewrite (sd_pid _ _ _ _ _ _ _ S2)|].
  rewrite Ei in Hc3. pose proof (calm_seti_steady i ip _ fi s2 s3 Hc3) as S3. rewrite (sd_file _ _ _ _ _ _ _ S2) in S3. rewrite (bind_Ok _ _ _ _ _ E3).
  exists s3. split_and!; [done|by eapply steady_trans| |by rewrite <- B3; apply Hc3|congruence]. apply (cache_same i d s2); [done|apply Hc3|apply Hc3|done|done].
Qed.

Lemma fileread_spec s V fi ip l sh U F addr n : fstate i d st sb ds s V fi ip -> f_type (getf s fi) = FD_INODE -> f_readable (getf s fi) <> 0 ->
  uspace (k_m s) l sh U F -> high_ok U -> p_pagetable (getp s i) = sh_root sh -> 0 <= addr < 2 ^ 64 -> addr + n <= 2 ^ 64 -> 0 <= n < 2 ^ 31 ->
  (forall va, addr <= va < addr + n -> uread (m_mem (k_m s)) U va <> None) -> whole V (geti s ip) ->
  let off := f_off (getf s fi) in let m := Z.min n (i_size (geti s ip) - off) in
  exists s' lk, fileread fi addr n s = Ok m s' /\ fstate i d st sb ds s' V fi ip /\
    steady i ip (set_i_lock lk (geti s ip)) fi (set_f_off (off + m) (getf s fi)) (with_mem (m_mem (k_m s')) s) s' /\ k_dk s' = k_dk s /\
    uspace (k_m s') l sh U F /\ received U (m_mem (k_m s)) addr (m_mem (k_m s')) (fbytes V (i_addrs (geti s ip)) off m).
Proof.
  intros Fs Hty Hrd Hu Hh Hroot Ha Hend Hn Hmap Hwh off m. pose proof Fs as [F1 F2 F3 F4 F5 F6 F7 F8 [F9 F10] [F11 F12] F13 F14 F15]. fold off in F15.
  set (ino := geti s ip) in *. pose proof (li_cache _ _ _ _ _ F1) as Hc0. change (2 ^ 31) with 2147483648 in Hn.
  destruct (ilock_spec i s ip (ca_ready _ _ _ _ _ _ Hc0)) as (s1 & E1 & Hc1 & Hb1 & Hd1); try done. fold ino in Hc1.
  pose proof (calm_seti_steady i ip _ fi s s1 Hc1) as S1. pose proof (sd_ino _ _ _ _ _ _ _ S1) as Ei1. pose proof (sd_file _ _ _ _ _ _ _ S1) as Ef1.
  assert (cache i d s1 V (fun _ => 0) ∅) as Hca1 by (apply (cache_same i d s); [done|apply Hc1|apply Hc1|done|done]).
  assert (kready i s1) as Hr1 by apply Hca1.
  assert (receiving i l sh U F (m_mem (k_m s)) addr s1 (DUser addr) []) as HT.
  { split; [done|cbn; rewrite Z.add_0_r, u64_small by lia; done| |by rewrite (sd_as _ _ _ _ _ _ _ S1)|].
    - eapply uspace_agree; [exact Hu|apply S1|apply S1|apply Hr1].
    - intros va. rewrite (sd_mem _ _ _ _ _ _ _ S1). change (Z.of_nat (length [])) with 0. destruct (Z.leb_spec addr va), (Z.ltb_spec va (addr + 0)); cbn [andb]; (done || lia). }
  pose proof (user_receiver i d l sh U F Hh (m_mem (k_m s)) addr n (proj1 Ha) Hend Hmap) as RV.
  destruct (readi_spec d sb ds (idle_view i d) (still i) n (filled i) (receiving i l sh U F (m_mem (k_m s)) addr) s1 V ip (DUser addr) off n) as (s2 & dst' & E2 & Hf2 & Hca2 & HT2);
    rewrite ?Ei1; try done.
  rewrite Ei1 in E2, HT2. change (i_size (set_i_lock _ ino)) with (i_size ino) in E2, HT2. change (i_addrs (set_i_lock _ ino)) with (i_addrs ino) in E2, HT2. fold m in E2, HT2.
  pose proof (filled_steady ip fi s1 s2 Hf2) as S2. rewrite Ei1, Ef1 in S2. pose proof (sd_ino _ _ _ _ _ _ _ S2) as Ei2. pose proof (sd_file _ _ _ _ _ _ _ S2) as Ef2.
  destruct Hwh as [Hsz _]. change maxbytes with 274432 in Hsz. assert (0 <= m <= n /\ off + m <= i_size ino) as Hm by lia.
  destruct (read_tail s2 V fi ip m Hca2) as (s3 & E3 & S3 & Hca3 & Hlg3 & Hd3); rewrite ?Ei2, ?Ef2; fold off; try done; try lia.
  { rewrite (sd_pid _ _ _ _ _ _ _ S2). symmetry. apply (sd_pid _ _ _ _ _ _ _ S1). }
  rewrite Ei2, Ef2 in S3. fold off in S3. pose proof (sd_mem _ _ _ _ _ _ _ S3) as Em.
  pose proof (steady_trans _ _ _ _ _ _ _ _ _ _ (steady_trans _ _ _ _ _ _ _ _ _ _ (steady_with_mem (m_mem (k_m s2)) _ _ _ _ _ _ S1) S2) S3) as S. rewrite <- Em in S.
  assert (k_lg s3 = k_lg s) as Hlg. { rewrite Hlg3. destruct Hf2 as [Hcf _]. rewrite (cm_lg _ _ _ Hcf). exact (cm_lg _ _ _ Hc1). }
  assert (k_dk s3 = k_dk s) as Hdk by (rewrite Hd3; destruct Hf2 as [_ ->]; done).
  exists s3, (freed (i_lock ino)). split_and!; [|apply (fstate_moved s V fi ip s3 (m_mem (k_m s3)) (off + m) (freed (i_lock ino))); try done; fold ino; lia|exact S|done| |rewrite Em; apply HT2].
  - unfold fileread. rewrite bind_gets, (proj2 (Z.eqb_neq _ _) Hrd), Hty, F14. unfold ilockable. rewrite bind_ret, (bind_Ok _ _ _ _ _ E1), bind_gets, Ef1. fold off.
    replace (u32 n) with n by (unfold u32; rewrite Z.mod_small; lia). rewrite (bind_Ok _ _ _ _ _ E2). cbn [fst]. rewrite (s32_small m) by lia. exact E3.
  - eapply uspace_agree; [apply HT2|apply S3|apply S3|apply Hca3].
Qed.
End FileRead.
