(* ===== verification/FsDir.v ===== *)
(** * Directories and path names

    dirlookup and namex of kernel/fs.c against the tree of directories on the
    disk: the entries of a directory are the structs its content holds, and a
    path is resolved element by element.  The inode cache is described by the
    references that are held. *)

From S2P Require Import Prelude Layout Spinlock Kalloc State Proc SleepLock Bio Log Fs ProcSpec SleepSpec Ring CacheSpec DiskSystem LogSpec LogOps FsTx FsMap FsFile FsInode FsRead FsWrite.

(** ** Names *)

(** The name in a field of [n] bytes: up to its first nul. *)
Fixpoint cname_n (n : nat) (bs : list Z) : list Z :=
  match n, bs with
  | S n', c :: bs' => if c =? 0 then [] else c :: cname_n n' bs'
  | _, _ => []
  end.
Definition cname (bs : list Z) : list Z := cname_n 14 bs.

Lemma strncmp_cname n : forall p q, strncmp_bytes n p q = 0 <-> cname_n n p = cname_n n q.
Proof.
  induction n as [|n IH]; intros p q; [done|]. cbn [strncmp_bytes cname_n].
  destruct p as [|a p], q as [|b q]; cbn [hd tail]; [done|..].
  - cbn [negb andb Z.eqb]. destruct (Z.eqb_spec b 0); split; (done || lia).
  - destruct (Z.eqb_spec a 0); cbn [negb andb]; split; (done || lia).
  - destruct (Z.eqb_spec a 0) as [->|Ha]; cbn [negb andb].
    + destruct (Z.eqb_spec b 0); split; (done || lia).
    + destruct (Z.eqb_spec a b) as [->|Hab]; cbn [andb].
      * rewrite IH, (proj2 (Z.eqb_neq b 0)) by done. split; [by intros ->|by intros [= ->]].
      * destruct (Z.eqb_spec b 0); split; (done || lia || congruence).
Qed.

Lemma cname_n_nonul n : forall bs, 0 ∉ bs -> cname_n n bs = take n bs.
Proof.
  induction n as [|n IH]; intros [|c bs] H; [done..|]. cbn. apply not_elem_of_cons in H as [Hc H]. rewrite (proj2 (Z.eqb_neq c 0)) by congruence. by rewrite IH.
Qed.

Lemma cname_n_nul n bs rest : 0 ∉ bs -> (length bs < n)%nat -> cname_n n (bs ++ 0 :: rest) = bs.
Proof.
  revert n. induction bs as [|c bs IH]; intros [|n] H Hn; cbn in Hn; try lia; [done|]. apply not_elem_of_cons in H as [Hc H]. cbn. rewrite (proj2 (Z.eqb_neq c 0)) by congruence. by rewrite IH by (done || lia).
Qed.

(** ** Paths *)

(** The text between slashes. *)
Fixpoint slashed (path : list Z) : list (list Z) :=
  match path with
  | [] => [[]]
  | c :: path' => if c =? slash then [] :: slashed path' else match slashed path' with x :: xs => (c :: x) :: xs | [] => [[c]] end
  end.

(** The elements of a path, cut to the length of a name in a directory. *)
Definition elems (path : list Z) : list (list Z) := take 14 <$> filter (fun x => x <> []) (slashed path).

Lemma elems_slash path : elems (slash :: path) = elems path.
Proof. unfold elems. cbn [slashed]. rewrite Z.eqb_refl. by rewrite filter_cons_False by (intros H; by apply H). Qed.

Lemma elems_skip path : elems (skip_slashes path) = elems path /\ (exists k, path = replicate k slash ++ skip_slashes path) /\
  match skip_slashes path with c :: _ => c <> slash | [] => True end.
Proof.
  induction path as [|c path (I1 & (k & I2) & I3)]; [split_and!; [done|by exists 0%nat|done]|]. cbn [skip_slashes]. destruct (Z.eqb_spec c slash) as [->|Hc].
  - split_and!; [by rewrite elems_slash|exists (S k); cbn; by f_equal|done].
  - split_and!; [done|by exists 0%nat|done].
Qed.

Lemma take_elem_slashed path : path = fst (take_elem path) ++ snd (take_elem path) /\
  match snd (take_elem path) with
  | [] => slashed path = [fst (take_elem path)]
  | c :: rest => c = slash /\ slashed path = fst (take_elem path) :: slashed rest
  end.
Proof.
  induction path as [|c path (I1 & I2)]; [done|]. cbn [take_elem slashed]. destruct (Z.eqb_spec c slash) as [->|Hc]; cbn [fst snd]; [done|]. split; [by rewrite I1 at 1|].
  destruct (snd (take_elem path)) as [|c' rest]; [by rewrite I2|]. destruct I2 as [-> ->]. done.
Qed.

(** The first element of a path that does not start with a slash. *)
Lemma elems_take path : match path with c :: _ => c <> slash | [] => False end ->
  elems path = take 14 (fst (take_elem path)) :: elems (snd (take_elem path)) /\ fst (take_elem path) <> [].
Proof.
  intros Hc. destruct (take_elem_slashed path) as [E1 E2]. assert (fst (take_elem path) <> []) as Hne by (destruct path as [|c path]; [done|]; cbn [take_elem]; by rewrite (proj2 (Z.eqb_neq c slash))).
  split; [|done]. destruct (snd (take_elem path)) as [|c' rest]; [|destruct E2 as [-> E2]; rewrite elems_slash]; unfold elems; rewrite E2, filter_cons_True by done; done.
Qed.

Lemma elems_name name : (slash ∉ name) -> name <> [] -> elems (slash :: name) = [take 14 name].
Proof.
  intros Hs Hne. rewrite elems_slash. assert (slashed name = [name]) as E.
  { clear Hne. induction name as [|c name IH]; [done|]. apply not_elem_of_cons in Hs as [Hc Hs]. cbn [slashed]. by rewrite (proj2 (Z.eqb_neq c slash)), (IH Hs) by congruence. }
  unfold elems. by rewrite E, filter_cons_True.
Qed.

Lemma skipelem_none path name : elems path = [] -> skipelem path name = None.
Proof.
  intros E. unfold skipelem. destruct (elems_skip path) as (E1 & _ & Hc). rewrite E in E1. destruct (skip_slashes path) as [|c p]; [done|].
  destruct (elems_take (c :: p) Hc) as [E2 _]. congruence.
Qed.

(** skipelem takes the first element off the path and leaves it in the array. *)
Lemma skipelem_some path name e es : elems path = e :: es -> 0 ∉ path -> length name = 14%nat ->
  exists rest name', skipelem path name = Some (rest, name') /\ elems rest = es /\ cname name' = e /\ length name' = 14%nat /\ (0 ∉ rest) /\ (length rest < length path)%nat /\ (rest = [] <-> es = []).
Proof.
  intros E Hz Hn. unfold skipelem. destruct (elems_skip path) as (E1 & (k & Ek) & Hc). rewrite E in E1. generalize dependent (skip_slashes path). intros q E1 Ek Hc.
  assert ((0 ∉ q) /\ (length q <= length path)%nat) as [Hz1 Hl1] by (rewrite Ek in Hz |- *; apply not_elem_of_app in Hz as [_ Hz]; split; [done|]; rewrite length_app; lia). clear Ek.
  destruct q as [|c p]; [done|]. destruct (elems_take (c :: p) Hc) as [E2 Hne]. destruct (take_elem_slashed (c :: p)) as [E3 _]. cbv zeta iota.
  set (x := fst (take_elem (c :: p))) in *. set (r := snd (take_elem (c :: p))) in *.
  rewrite E1 in E2. injection E2 as -> ->. rewrite E3 in Hz1, Hl1. apply not_elem_of_app in Hz1 as [Hx Hr]. rewrite length_app in Hl1.
  destruct (elems_skip r) as (F1 & (k' & Fk) & Fc). assert (0 < length x)%nat by (destruct x; [done|cbn; lia]).
  assert ((0 ∉ skip_slashes r) /\ (length (skip_slashes r) <= length r)%nat) as [Hz2 Hl2].
  { generalize dependent (skip_slashes r). intros q' F1 Fk Fc. rewrite Fk in Hr |- *. apply not_elem_of_app in Hr as [_ Hr]. split; [done|]. rewrite length_app. lia. }
  eexists (skip_slashes r), _. split; [done|]. split_and!; [done| | |done|lia|].
  - change DIRSIZ with 14. destruct (Z.leb_spec 14 (Z.of_nat (length x))); unfold splice; change (Z.to_nat 0) with 0%nat; rewrite take_0, app_nil_l.
    + rewrite drop_ge, app_nil_r by (rewrite length_take; change (Z.to_nat 14) with 14%nat; lia). unfold cname. rewrite cname_n_nonul by (intros Hin; apply Hx; apply elem_of_take in Hin as (j & Hj & _); by eapply list_elem_of_lookup_2).
      by rewrite take_take.
    + rewrite <- app_assoc. cbn [app]. unfold cname. rewrite cname_n_nul by (done || lia). by rewrite take_ge by lia.
  - change DIRSIZ with 14. destruct (Z.leb_spec 14 (Z.of_nat (length x))); unfold splice; change (Z.to_nat 0) with 0%nat; rewrite take_0, app_nil_l; rewrite !length_app, length_drop, ?length_take; cbn [length]; change (Z.to_nat 14) with 14%nat; lia.
  - rewrite <- F1. split; [by intros ->|]. intros Ee. destruct (skip_slashes r) as [|c' p'] eqn:Er; [done|]. destruct (elems_take (c' :: p') Fc) as [E4 _]. congruence.
Qed.

(** ** The tree on the disk *)

Definition entry_at (V : Z -> list Z) (addrs : list Z) (off : Z) : dirent := dirent_of (fbytes V addrs off 16).

(** The first entry with the name among [k] from the offset [off] on: its inode
    number and its offset. *)
Fixpoint find_from (V : Z -> list Z) (addrs name : list Z) (off : Z) (k : nat) : option (Z * Z) :=
  match k with
  | O => None
  | S k' =>
      let de := entry_at V addrs off in
      if negb (de_inum de =? 0) && bool_decide (cname (de_name de) = name) then Some (de_inum de, off) else find_from V addrs name (off + 16) k'
  end.

Section Tree.
Context (sb : superblock) (ds : Z).

(** Inode [n] as the disk has it. *)
Definition dino (V : Z -> list Z) (n : Z) : inode := load_dinode (V (IBLOCK n sb)) (ioffset n) inode0.

Definition dir_find (V : Z -> list Z) (n : Z) (name : list Z) : option (Z * Z) :=
  find_from V (i_addrs (dino V n)) name 0 (Z.to_nat (i_size (dino V n) / 16)).

(** The inode that the elements of a path lead to from inode [n]; with [par] the
    directory that should hold the last of them. *)
Fixpoint resolve (V : Z -> list Z) (par : bool) (n : Z) (es : list (list Z)) : option Z :=
  match es with
  | [] => if par then None else Some n
  | e :: es' =>
      if i_type (dino V n) =? T_DIR then
        if par && bool_decide (es' = []) then Some n
        else match dir_find V n e with Some (m, _) => resolve V par m es' | None => None end
      else None
  end.

(** A set of inodes, closed under the entries of its directories, that are in
    use, whose blocks are before the data, and whose directories are files
    without holes. *)
Record tree_ok (V : Z -> list Z) (T : Z -> Prop) : Prop := {
  tr_home : forall n, T n -> 0 <= IBLOCK n sb < ds;
  tr_used : forall n, T n -> i_type (dino V n) <> 0 /\ i_nlink (dino V n) <> 0;
  tr_dir : forall n, T n -> i_type (dino V n) = T_DIR -> file_ok V sb ds (i_addrs (dino V n)) /\ whole V (dino V n) /\ i_size (dino V n) mod 16 = 0;
  tr_closed : forall n name m off, T n -> i_type (dino V n) = T_DIR -> dir_find V n name = Some (m, off) -> T m }.
End Tree.

(** ** dirlookup *)

Section Lookup.
Context `{OT : Others} `{BD : BlockDev} `{DL : !DiskLaws}.
Context (i : nat) (d st : Z) (sb : superblock) (ds : Z) (hs : list Z) (Hhs : (length hs < 30)%nat).
Local Abbreviation in_tx := (in_tx i d st).
Local Abbreviation quiet := (quiet i).

Lemma dirlookup_loop_spec k : forall fuel s V dp name off, in_tx s hs V ∅ -> i_dev (geti s dp) = d -> fs_ok V sb ds -> file_ok V sb ds (i_addrs (geti s dp)) -> whole V (geti s dp) ->
  0 <= off -> i_size (geti s dp) = off + 16 * Z.of_nat k -> (k < fuel)%nat ->
  exists s1, quiet s s1 /\ in_tx s1 hs V ∅ /\ dirlookup_loop fuel dp name off s =
    match find_from V (i_addrs (geti s dp)) (cname name) off k with
    | None => Ok None s1
    | Some (inum, o) => (let! ip := iget d inum in ret (Some (ip, o))) s1
    end.
Proof.
  induction k as [|k IH]; intros fuel s V dp name off Htx Hdev Hfs Hf Hwh Hoff Hsz Hfu; (destruct fuel as [|fuel]; [lia|]); cbn [dirlookup_loop find_from]; rewrite !bind_gets, Hdev, Hsz.
  { rewrite (proj2 (Z.ltb_ge off _)) by lia. exists s. split_and!; [reflexivity|done|done]. }
  rewrite (proj2 (Z.ltb_lt off _)) by lia. cbn [negb].
  pose proof (tx_reader i d st hs Hhs) as BR. pose proof (obj_receiver i d st hs 16) as RV.
  destruct (readi_spec d sb ds (tx_view i d st hs) (FsTx.quiet i) 16 (FsTx.quiet i) (fun _ dst _ => dst = DObj) s V dp DObj off 16 Htx eq_refl Hdev Hfs Hf Hwh) as (s1 & dst & E & Hq & Htx1 & _); [lia|lia|lia|].
  change sizeof_dirent with 16. rewrite Z.min_l in E by lia. rewrite (bind_Ok _ _ _ _ _ E). cbn [fst snd negb Z.eqb Pos.eqb]. fold (entry_at V (i_addrs (geti s dp)) off).
  set (de := entry_at V (i_addrs (geti s dp)) off). assert ((namecmp name (de_name de) =? 0) = bool_decide (cname (de_name de) = cname name)) as ->.
  { unfold namecmp. change (Z.to_nat DIRSIZ) with 14%nat. destruct (Z.eqb_spec (strncmp_bytes 14 name (de_name de)) 0) as [H|H]; rewrite strncmp_cname in H; symmetry; [apply bool_decide_eq_true|apply bool_decide_eq_false]; unfold cname; congruence. }
  destruct (negb (de_inum de =? 0) && bool_decide (cname (de_name de) = cname name)); [by exists s1|].
  destruct Hwh as [Hw1 Hw2]. change maxbytes with 274432 in Hw1. assert (u32 (off + 16) = off + 16) as -> by (unfold u32; apply Z.mod_small; lia). pose proof (q_ic _ _ _ Hq dp) as Eg.
  destruct (IH fuel s1 V dp name (off + 16) Htx1) as (s2 & Hq2 & Htx2 & E2); rewrite ?Eg; try done; try lia. rewrite Eg in E2. exists s2. split_and!; [by transitivity s1|done|done].
Qed.

Lemma dirlookup_spec s V dp name n : in_tx s hs V ∅ -> i_dev (geti s dp) = d -> fs_ok V sb ds -> i_type (geti s dp) = T_DIR -> i_size (geti s dp) = i_size (dino sb V n) -> i_addrs (geti s dp) = i_addrs (dino sb V n) ->
  file_ok V sb ds (i_addrs (dino sb V n)) -> whole V (dino sb V n) -> i_size (dino sb V n) mod 16 = 0 ->
  exists s1, quiet s s1 /\ in_tx s1 hs V ∅ /\ dirlookup dp name s =
    match dir_find sb V n (cname name) with
    | None => Ok None s1
    | Some (inum, o) => (let! ip := iget d inum in ret (Some (ip, o))) s1
    end.
Proof.
  intros Htx Hdev Hfs Hty Es Ea Hf Hwh Hm. unfold dirlookup. rewrite bind_gets, Hty. cbn [negb Z.eqb Pos.eqb T_DIR]. pose proof Hwh as [[Hs0 _] _]. unfold dir_find. rewrite <- Ea, <- Es in *.
  apply dirlookup_loop_spec; try done; [by unfold whole in *; rewrite Ea, Es|rewrite Z2Nat.id; zlia|change sizeof_dirent with 16; zlia].
Qed.
End Lookup.

(** ** The inode cache *)

Definition refs_set (refs : nat -> Z) (j : nat) (r : Z) : nat -> Z := fun k => if decide (k = j) then r else refs k.
Definition bump (refs : nat -> Z) (j : nat) (x : Z) : nat -> Z := refs_set refs j (refs j + x).

(** The scan of iget finds the entry of the inode, or a free one. *)
Lemma iget_scan_spec dev inum s l : forall e, match iget_scan dev inum e l s with
  | (Some j, _) => j ∈ l /\ 0 < i_ref (geti s j) /\ i_dev (geti s j) = dev /\ i_inum (geti s j) = inum
  | (None, r) => (forall j, j ∈ l -> 0 < i_ref (geti s j) -> i_dev (geti s j) = dev -> i_inum (geti s j) <> inum) /\
      match r with Some j => e = Some j \/ j ∈ l /\ i_ref (geti s j) = 0 | None => e = None /\ forall j, j ∈ l -> i_ref (geti s j) <> 0 end
  end.
Proof.
  induction l as [|k l IH]; intros e; cbn [iget_scan].
  { split; [intros j Hj; by apply elem_of_nil in Hj|]. destruct e as [j|]; [by left|]. split; [done|]. intros j Hj. by apply elem_of_nil in Hj. }
  destruct ((0 <? i_ref (geti s k)) && (i_dev (geti s k) =? dev) && (i_inum (geti s k) =? inum)) eqn:E; [split_and!; [left|lia..]|].
  set (e' := match e with None => _ | Some _ => _ end). specialize (IH e'). destruct (iget_scan dev inum e' l s) as [[j|] r]; [destruct IH as (H1 & H2); split; [by right|done]|].
  destruct IH as (H1 & H2). split.
  - intros j Hj. apply elem_of_cons in Hj as [->|Hj]; [lia|by apply H1].
  - destruct r as [j|].
    + destruct H2 as [H2|[H2 H3]]; [|right; split; [by right|done]]. unfold e' in H2. destruct e as [x|]; [by left|]. destruct (Z.eqb_spec (i_ref (geti s k)) 0); [|done]. injection H2 as <-. right. split; [left|done].
    + destruct H2 as [E2 H2]. destruct e as [x|]; [done|]. split; [done|]. intros j Hj. apply elem_of_cons in Hj as [->|Hj]; [|by apply H2]. unfold e' in E2. by destruct (Z.eqb_spec (i_ref (geti s k)) 0).
Qed.

Section InodeCache.
Context `{OT : Others} `{BD : BlockDev} `{DL : !DiskLaws}.
Context (i : nat) (d st : Z) (sb : superblock) (hs : list Z) (Hhs : (length hs < 30)%nat).
Local Abbreviation in_tx := (in_tx i d st).
Local Abbreviation quiet := (quiet i).

(** An inode in memory is as on the disk. *)
Definition loaded (V : Z -> list Z) (x : inode) : Prop := x = load_dinode (V (IBLOCK (i_inum x) sb)) (ioffset (i_inum x)) x.

Lemma loaded_fields V x : loaded V x -> i_type x = i_type (dino sb V (i_inum x)) /\ i_nlink x = i_nlink (dino sb V (i_inum x)) /\ i_size x = i_size (dino sb V (i_inum x)) /\ i_addrs x = i_addrs (dino sb V (i_inum x)).
Proof. intros H. split_and!; [exact (f_equal i_type H)|exact (f_equal i_nlink H)|exact (f_equal i_size H)|exact (f_equal i_addrs H)]. Qed.

(** Each entry of the cache has [refs] references, no inode has two entries, and
    no lock is held but, by this process, the one of [held]. *)
Record icache_ok (s : kst) (V : Z -> list Z) (refs : nat -> Z) (held : option nat) : Prop := {
  ico_lock : lock_free (ic_lock (k_ic s));
  ico_ref : forall j, j ∈ inodes -> i_ref (geti s j) = refs j /\ 0 <= refs j;
  ico_spin : forall j, j ∈ inodes -> lock_free (sl_lk (i_lock (geti s j)));
  ico_sleep : forall j, j ∈ inodes -> held <> Some j -> sl_locked (i_lock (geti s j)) = 0;
  ico_uniq : forall j k, j ∈ inodes -> k ∈ inodes -> 0 < refs j -> 0 < refs k ->
    i_dev (geti s j) = i_dev (geti s k) -> i_inum (geti s j) = i_inum (geti s k) -> j = k;
  ico_valid : forall j, j ∈ inodes -> 0 < refs j -> i_dev (geti s j) = d -> i_valid (geti s j) <> 0 -> loaded V (geti s j);
  ico_held : forall j, held = Some j -> j ∈ inodes /\ 0 < refs j /\ i_valid (geti s j) <> 0 /\
    sl_locked (i_lock (geti s j)) = 1 /\ sl_pid (i_lock (geti s j)) = p_pid (getp s i) }.

Lemma ico_move s s' V refs refs' held : icache_ok s V refs held -> (forall j, geti s' j = geti s j) -> ic_lock (k_ic s') = ic_lock (k_ic s) -> p_pid (getp s' i) = p_pid (getp s i) ->
  (forall j, refs' j = refs j) -> icache_ok s' V refs' held.
Proof.
  intros [H1 H2 H3 H4 H5 H6 H7] Hg Hl Hp Hr. split; rewrite ?Hl, ?Hp; [done|..].
  - intros j. rewrite Hg, Hr. apply H2.
  - intros j. rewrite Hg. apply H3.
  - intros j. rewrite Hg. apply H4.
  - intros j k. rewrite !Hg, !Hr. apply H5.
  - intros j. rewrite Hg, Hr. apply H6.
  - intros j. rewrite Hg, Hr. apply H7.
Qed.

Lemma ico_quiet s s' V refs held : icache_ok s V refs held -> quiet s s' -> icache_ok s' V refs held.
Proof. intros H Hq. apply (ico_move s _ _ refs); [done|apply Hq..|done]. Qed.

(** One entry changes. *)
Lemma ico_seti s V refs held j x r held' : icache_ok s V refs held -> j ∈ inodes -> i_ref x = r -> 0 <= r -> lock_free (sl_lk (i_lock x)) ->
  (forall k, k <> j -> held' = Some k <-> held = Some k) -> (held' <> Some j -> sl_locked (i_lock x) = 0) ->
  (held' = Some j -> 0 < r /\ i_valid x <> 0 /\ sl_locked (i_lock x) = 1 /\ sl_pid (i_lock x) = p_pid (getp s i)) ->
  (0 < r -> i_dev x = d -> i_valid x <> 0 -> loaded V x) ->
  (0 < r -> forall k, k ∈ inodes -> k <> j -> 0 < refs k -> i_dev x = i_dev (geti s k) -> i_inum x <> i_inum (geti s k)) ->
  icache_ok (seti j x s) V (refs_set refs j r) held'.
Proof.
  intros [H1 H2 H3 H4 H5 H6 H7] Hj Hr Hr0 Hf Hh Hs Hh' Hv Hu. unfold refs_set. split; [done|..].
  - intros k Hk. rewrite geti_seti. destruct (decide (j = k)) as [->|]; [by rewrite decide_True|]. rewrite decide_False by congruence. by apply H2.
  - intros k Hk. rewrite geti_seti. case_decide; [done|by apply H3].
  - intros k Hk Hne. rewrite geti_seti. case_decide as E; [subst; by apply Hs|]. apply H4; [done|]. rewrite <- Hh by congruence. done.
  - intros k l Hk Hl. rewrite !geti_seti. destruct (decide (k = j)) as [->|E1], (decide (l = j)) as [->|E2]; try done; rewrite ?(decide_True (P := j = j)), ?(decide_False (P := j = k)), ?(decide_False (P := j = l)) by congruence; intros P1 P2 D I.
    + by destruct (Hu P1 l).
    + by destruct (Hu P2 k).
    + by apply H5.
  - intros k Hk. rewrite geti_seti. destruct (decide (j = k)) as [->|]; [rewrite decide_True by done; done|]. rewrite decide_False by congruence. by apply H6.
  - intros k Hk. rewrite geti_seti. destruct (decide (j = k)) as [->|]; [rewrite decide_True by done; split; [done|by apply Hh']|]. rewrite decide_False by congruence. apply H7, Hh; [congruence|done].
Qed.

(** ** Critical sections of icache.lock *)

Definition in_ic (s : kst) : kst := lk_put icachelock (locked_by (hart_of s) (ic_lock (k_ic s))) (put_hart (pushed (hart_of s)) s).

Lemma ic_enter s : lock_free (ic_lock (k_ic s)) -> acquire icachelock s = Ok tt (in_ic s).
Proof. intros Hl. by rewrite (acquire_eq icachelock). Qed.

(** Leaving it after entry [j] has become [x]. *)
Lemma ic_leave s j x : hart_ok (hart_of s) -> lock_free (ic_lock (k_ic s)) -> release icachelock (seti j x (in_ic s)) = Ok tt (put_hart (touched (hart_of s)) (seti j x s)).
Proof. intros Hh Hl. rewrite (release_eq icachelock _ (hart_of s) (ic_lock (k_ic s))) by done. unfold in_ic, seti, set_ic. cbn. done. Qed.

(** Entry [j] has become [x], and the hart was used. *)
Lemma ic_touched s V j x : in_tx s hs V ∅ -> let s' := put_hart (touched (hart_of s)) (seti j x s) in quiet (seti j x s) s' /\ in_tx s' hs V ∅.
Proof.
  intros Htx s'. pose proof (calm_touched i (seti j x s)) as Hc. split; [by apply calm_quiet|]. apply (in_tx_move i d st s); try done. exact (cm_ready _ _ _ Hc).
Qed.

Lemma tx_ready s V : in_tx s hs V ∅ -> kready i s.
Proof. intros [(R & Hc & _) _ _ _ _]. apply Hc. Qed.

(** ** References *)

(** iget returns the one entry of the inode, with one more reference. *)
Lemma iget_spec s V refs held n : in_tx s hs V ∅ -> icache_ok s V refs held -> (exists a, a ∈ inodes /\ refs a = 0) ->
  exists j x s', iget d n s = Ok j s' /\ quiet (seti j x s) s' /\ in_tx s' hs V ∅ /\ j ∈ inodes /\ i_dev x = d /\ i_inum x = n /\ icache_ok s' V (bump refs j 1) held /\
    (0 < refs j -> i_dev (geti s j) = d /\ i_inum (geti s j) = n).
Proof.
  intros Htx Hic (a & Ha & Ha0). pose proof (tx_ready _ _ Htx) as (Hh & _). pose proof Hic as [H1 H2 H3 H4 H5 H6 H7]. unfold iget. rewrite (bind_Ok _ _ _ _ _ (ic_enter s H1)), bind_gets.
  pose proof (iget_scan_spec d n (in_ic s) inodes None) as Hs. destruct (iget_scan d n None inodes (in_ic s)) as [[j|] r]; change (geti (in_ic s)) with (geti s) in Hs.
  - destruct Hs as (Hj & Hr & Hdv & Hn). destruct (H2 j Hj) as [E2 _]. unfold updi. rewrite bind_modify. change (geti (in_ic s) j) with (geti s j). rewrite (bind_Ok _ _ _ _ _ (ic_leave s j _ Hh H1)).
    set (x := set_i_ref (i_ref (geti s j) + 1) (geti s j)). destruct (ic_touched s V j x Htx) as [Hq Htx']. exists j, x. eexists. split_and!; [done|done|done|done|done|done| |done].
    eapply ico_quiet; [|exact Hq]. unfold bump. rewrite <- E2. apply (ico_seti s V refs held); try done; [lia|by apply H3|by apply H4|intros E; destruct (H7 j E) as (_ & P1 & P2 & P3); split_and!; [lia|done|apply P3..]| |].
    + intros _ Ed Ev. refine (f_equal (set_i_ref _) (H6 j Hj ltac:(lia) Ed Ev)).
    + intros _ k Hk Hne Hk0 Ed En. apply Hne. apply (H5 k j); try done; lia.
  - destruct Hs as [Hno Hs]. destruct r as [j|]; [|destruct (H2 a Ha) as [E2 _]; destruct (proj2 Hs a Ha); congruence]. destruct Hs as [Hs|[Hj Hj0]]; [done|]. destruct (H2 j Hj) as [E2 _].
    unfold updi. rewrite !bind_modify, !geti_seti, !decide_True, !seti_seti by done. change (geti (in_ic s) j) with (geti s j).
    set (x := set_i_valid 0 (set_i_ref 1 (set_i_inum n (set_i_dev d (geti s j))))). rewrite (bind_Ok _ _ _ _ _ (ic_leave s j x Hh H1)).
    destruct (ic_touched s V j x Htx) as [Hq Htx']. exists j, x. eexists. split_and!; [done|done|done|done|done|done| |lia].
    eapply ico_quiet; [|exact Hq]. unfold bump. rewrite <- E2, Hj0. assert (held <> Some j) as Hne by (intros E; destruct (H7 j E); lia). apply (ico_seti s V refs held); try done; [by apply H3|intros _; by apply H4|].
    intros _ k Hk Hne' Hk0 Ed En. destruct (H2 k Hk) as [E2' _]. apply (Hno k Hk); [lia|done|done].
Qed.

(** Locking an inode that is not in memory. *)
Lemma ilock_load s V ip : in_tx s hs V ∅ -> let x := geti s ip in let y := load_dinode (V (IBLOCK (i_inum x) (k_sb s))) (ioffset (i_inum x)) x in
  lock_free (sl_lk (i_lock x)) -> sl_locked (i_lock x) = 0 -> 1 <= i_ref x -> i_valid x = 0 -> i_dev x = d -> blockno_ok (IBLOCK (i_inum x) (k_sb s)) -> i_type y <> 0 ->
  let z := set_i_valid 1 (set_i_lock (taken (p_pid (getp s i)) (i_lock x)) y) in exists s', ilock ip s = Ok tt s' /\ quiet (seti ip z s) s' /\ in_tx s' hs V ∅ /\ geti s' ip = z.
Proof.
  intros Htx x y Hf Hl Hr Hv Hdev Hno Hty z. pose proof Htx as [(R & Hc & _) _ _ _ _]. destruct (ca_ready _ _ _ _ _ _ Hc) as (Hh & Hcur & Hpl & Hdr).
  unfold ilock. rewrite bind_gets. fold x. rewrite (proj2 (Z.ltb_ge (i_ref x) 1)) by lia.
  rewrite (bind_Ok _ _ _ _ _ (acquiresleep_eq (inodelock ip) i s Hh Hcur Hf Hl)). cbn [sl_get sl_put inodelock].
  set (x1 := set_i_lock (taken (p_pid (getp s i)) (i_lock x)) x). set (s1 := put_hart (touched (hart_of s)) (seti ip x1 s)).
  match goal with |- context [seti ip ?a (put_hart ?h s)] => change (seti ip a (put_hart h s)) with s1 end.
  assert (geti s1 ip = x1) as E1 by (unfold s1; change (geti (put_hart ?h ?t) ip) with (geti t ip); by rewrite geti_seti, decide_True).
  assert (in_tx s1 hs V ∅) as Htx1.
  { apply (in_tx_move i d st s); try done. intros Hk. exact (cm_ready _ _ _ (calm_touched i (seti ip x1 s)) Hk). }
  rewrite bind_gets, E1. change (i_valid x1) with (i_valid x). rewrite Hv, Z.eqb_refl, bind_gets. change (i_dev x1) with (i_dev x). change (i_inum x1) with (i_inum x). rewrite Hdev.
  change (k_sb s1) with (k_sb s). set (nb := IBLOCK (i_inum x) (k_sb s)) in *.
  destruct (br_bread (BlockReader := tx_reader i d st hs Hhs) s1 V nb Htx1 Hno) as (bp & s2 & Hs2 & Hq2 & Hdat & Hv2). rewrite (bind_Ok _ _ _ _ _ Hs2), bind_gets, Hdat.
  unfold updi. rewrite bind_modify, (q_ic _ _ _ Hq2), E1. set (y1 := load_dinode (V nb) (ioffset (i_inum x)) x1). set (s3 := seti ip y1 s2).
  destruct (br_brelse (BlockReader := tx_reader i d st hs Hhs) s3 V nb bp) as (s4 & Hs4 & Hq4 & Htx4).
  { destruct Hv2 as [Hv2 Hcl]. split; [by apply in_tx_seti|done]. }
  rewrite (bind_Ok _ _ _ _ _ Hs4), bind_modify. assert (geti s4 ip = y1) as E4 by (rewrite (q_ic _ _ _ Hq4); unfold s3; by rewrite geti_seti, decide_True).
  rewrite E4, bind_gets, geti_seti, decide_True by done. change (i_type (set_i_valid 1 y1)) with (i_type y). rewrite (proj2 (Z.eqb_neq _ _) Hty).
  change (set_i_valid 1 y1) with z. eexists. split; [done|]. split_and!; [|by apply in_tx_seti|by rewrite geti_seti, decide_True].
  transitivity (seti ip z s1); [|transitivity (seti ip z s2)].
  - rewrite <- (seti_seti ip z x1 s). apply quiet_seti, calm_quiet; [|done]. exact (calm_touched i (seti ip x1 s)).
  - by apply quiet_seti.
  - rewrite <- (seti_seti ip z y1 s2). by apply quiet_seti.
Qed.

(** Locking an inode, which is read from the disk when it has not been before. *)
Lemma ilock_ico s V refs j : in_tx s hs V ∅ -> icache_ok s V refs None -> k_sb s = sb -> j ∈ inodes -> 0 < refs j -> i_dev (geti s j) = d -> blockno_ok (IBLOCK (i_inum (geti s j)) sb) ->
  i_type (dino sb V (i_inum (geti s j))) <> 0 ->
  exists x s', ilock j s = Ok tt s' /\ quiet (seti j x s) s' /\ in_tx s' hs V ∅ /\ icache_ok s' V refs (Some j) /\ i_dev x = d /\ i_inum x = i_inum (geti s j).
Proof.
  intros Htx Hic Hsb Hj Hr Hdev Hno Hty. pose proof (tx_ready _ _ Htx) as Hk. pose proof Hic as [H1 H2 H3 H4 H5 H6 H7]. destruct (H2 j Hj) as [E2 _]. set (y := geti s j) in *.
  assert (forall x s', quiet (seti j x s) s' -> i_ref x = i_ref y -> i_lock x = taken (p_pid (getp s i)) (i_lock y) -> i_valid x <> 0 -> loaded V x -> i_dev x = d -> i_inum x = i_inum y -> icache_ok s' V refs (Some j)) as Hfin.
  { intros x s' Hq Er El Ev Hld Ed Ei. eapply ico_quiet; [|exact Hq]. assert (icache_ok (seti j x s) V (refs_set refs j (refs j)) (Some j)) as Hc.
    - apply (ico_seti s V refs None); try done; rewrite ?Er, ?El, ?Ed, ?Ei; try done; [lia|by apply H3|intros k Hne; split; [congruence|done]| ].
      intros _ k Hk' Hne Hk0 Ed' Ei'. apply Hne. apply (H5 k j); try done. fold y. congruence.
    - eapply ico_move; [exact Hc|done|done|done|]. intros k. unfold refs_set. by case_decide; subst. }
  destruct (decide (i_valid y = 0)) as [Ev|Ev].
  - destruct (ilock_load s V j Htx) as (s' & Es & Hq & Htx' & _); fold y; try done; [by apply H3|by apply H4|lia|by rewrite Hsb|by rewrite Hsb|]. rewrite Hsb in Hq. fold y in Hq.
    eexists _, s'. split_and!; [done|exact Hq|done| |done|done]. eapply Hfin; [exact Hq|done..].
  - destruct (ilock_spec i s j Hk) as (s' & Es & Hc & Hb & Hd); fold y; try done; [by apply H3|by apply H4|lia|]. fold y in Hc. eexists _, s'. split_and!; [done|by apply calm_quiet, Hd| | |done|done].
    + apply (in_tx_move i d st s); try done; [exact (cm_ready _ _ _ Hc)|apply (cm_pid _ _ _ Hc)|apply (cm_lg _ _ _ Hc)].
    + eapply Hfin; [by apply calm_quiet, Hd|done..|exact (f_equal (set_i_lock _) (H6 j Hj Hr Hdev Ev))|done|done].
Qed.

Lemma iunlock_ico s V refs j : in_tx s hs V ∅ -> icache_ok s V refs (Some j) ->
  exists x s', iunlock j s = Ok tt s' /\ quiet (seti j x s) s' /\ in_tx s' hs V ∅ /\ icache_ok s' V refs None /\ i_dev x = i_dev (geti s j) /\ i_inum x = i_inum (geti s j).
Proof.
  intros Htx Hic. pose proof (tx_ready _ _ Htx) as Hk. pose proof Hic as [H1 H2 H3 H4 H5 H6 H7]. destruct (H7 j eq_refl) as (Hj & Hr & Hv & Hl & Hp). destruct (H2 j Hj) as [E2 _].
  destruct (iunlock_spec i s j Hk) as (s' & Es & Hc & Hb & Hd); try done; [by apply H3|lia|]. eexists _, s'. split_and!; [done|by apply calm_quiet, Hd| | |done|done].
  - apply (in_tx_move i d st s); try done; [exact (cm_ready _ _ _ Hc)|apply (cm_pid _ _ _ Hc)|apply (cm_lg _ _ _ Hc)].
  - eapply ico_quiet; [|exact (calm_quiet i _ _ Hc Hd)]. set (x := set_i_lock _ _). assert (icache_ok (seti j x s) V (refs_set refs j (refs j)) None) as Hc'.
    + apply (ico_seti s V refs (Some j)); try done; [lia|by apply H3|intros k Hne; split; congruence|intros _ Ed Ev; exact (f_equal (set_i_lock _) (H6 j Hj Hr Ed Ev))|].
      intros _ k Hk' Hne Hk0 Ed' Ei'. by apply Hne, (H5 k j).
    + eapply ico_move; [exact Hc'|done|done|done|]. intros k. unfold refs_set. by case_decide; subst.
Qed.

(** Dropping a reference; the inode stays on the disk because a link to it does. *)
Lemma iput_ico s V refs j : in_tx s hs V ∅ -> icache_ok s V refs None -> j ∈ inodes -> 0 < refs j -> i_dev (geti s j) = d -> i_nlink (dino sb V (i_inum (geti s j))) <> 0 ->
  exists x s', iput j s = Ok tt s' /\ quiet (seti j x s) s' /\ in_tx s' hs V ∅ /\ icache_ok s' V (bump refs j (-1)) None /\ i_dev x = i_dev (geti s j) /\ i_inum x = i_inum (geti s j).
Proof.
  intros Htx Hic Hj Hr Hdev Hnl. pose proof (tx_ready _ _ Htx) as (Hh & _). pose proof Hic as [H1 H2 H3 H4 H5 H6 H7]. destruct (H2 j Hj) as [E2 _].
  unfold iput. rewrite (bind_Ok _ _ _ _ _ (ic_enter s H1)), bind_gets. change (geti (in_ic s) j) with (geti s j).
  assert ((i_ref (geti s j) =? 1) && truthy (i_valid (geti s j)) && (i_nlink (geti s j) =? 0) = false) as ->.
  { unfold truthy. destruct (Z.eqb_spec (i_valid (geti s j)) 0) as [|Hv]; cbn [negb]; [by rewrite andb_false_r|]. destruct (loaded_fields V _ (H6 j Hj Hr Hdev Hv)) as (_ & -> & _). rewrite (proj2 (Z.eqb_neq _ 0)) by done. by rewrite andb_false_r. }
  unfold skip. rewrite bind_ret. unfold updi. rewrite bind_modify. change (geti (in_ic s) j) with (geti s j). rewrite ic_leave by done. set (x := set_i_ref _ _). destruct (ic_touched s V j x Htx) as [Hq Htx'].
  exists x. eexists. split_and!; [done|done|done| |done|done]. eapply ico_quiet; [|exact Hq]. unfold bump. apply (ico_seti s V refs None); try done; [unfold x; rewrite E2; done|lia|by apply H3|by apply H4| |].
  - intros _ Ed Ev. exact (f_equal (set_i_ref _) (H6 j Hj Hr Ed Ev)).
  - intros _ k Hk' Hne Hk0 Ed' Ei'. by apply Hne, (H5 k j).
Qed.

Lemma idup_ico s V refs j : in_tx s hs V ∅ -> icache_ok s V refs None -> j ∈ inodes -> 0 < refs j ->
  exists x s', idup j s = Ok j s' /\ quiet (seti j x s) s' /\ in_tx s' hs V ∅ /\ icache_ok s' V (bump refs j 1) None /\ i_dev x = i_dev (geti s j) /\ i_inum x = i_inum (geti s j).
Proof.
  intros Htx Hic Hj Hr. pose proof (tx_ready _ _ Htx) as (Hh & _). pose proof Hic as [H1 H2 H3 H4 H5 H6 H7]. destruct (H2 j Hj) as [E2 _].
  unfold idup. rewrite (bind_Ok _ _ _ _ _ (ic_enter s H1)). unfold updi. rewrite bind_modify. change (geti (in_ic s) j) with (geti s j). set (x := set_i_ref _ _). rewrite (bind_Ok _ _ _ _ _ (ic_leave s j x Hh H1)).
  destruct (ic_touched s V j x Htx) as [Hq Htx']. exists x. eexists. split_and!; [done|done|done| |done|done]. eapply ico_quiet; [|exact Hq]. unfold bump. apply (ico_seti s V refs None); try done; [unfold x; rewrite E2; done|lia|by apply H3|by apply H4| |].
  - intros _ Ed Ev. exact (f_equal (set_i_ref _) (H6 j Hj Hr Ed Ev)).
  - intros _ k Hk' Hne Hk0 Ed' Ei'. by apply Hne, (H5 k j).
Qed.

(** ** Several operations *)

(** Between [s] and [s'] only the inode cache, besides what reading changes, may
    differ, and the inodes that [refs] refers to have kept their entries. *)
Definition kept (refs : nat -> Z) (s s' : kst) : Prop :=
  (exists ic, quiet (set_ic ic s) s') /\ forall j, j ∈ inodes -> 0 < refs j -> i_dev (geti s' j) = i_dev (geti s j) /\ i_inum (geti s' j) = i_inum (geti s j).

Lemma quiet_set_ic ic s s' : quiet s s' -> quiet (set_ic ic s) (set_ic ic s').
Proof. by intros []. Qed.

Lemma kept_quiet refs s s' : quiet s s' -> kept refs s s'.
Proof. intros Hq. split; [exists (k_ic s); by destruct s|]. intros j _ _. by rewrite (q_ic _ _ _ Hq). Qed.

Lemma kept_trans refs s1 s2 s3 : kept refs s1 s2 -> kept refs s2 s3 -> kept refs s1 s3.
Proof.
  intros [[ic1 H1] G1] [[ic2 H2] G2]. split.
  - exists ic2. transitivity (set_ic ic2 s2); [|done]. exact (quiet_set_ic ic2 _ _ H1).
  - intros j Hj Hr. destruct (G1 j Hj Hr), (G2 j Hj Hr). split; congruence.
Qed.

Lemma kept_seti refs j x s s' : quiet (seti j x s) s' -> (0 < refs j -> i_dev x = i_dev (geti s j) /\ i_inum x = i_inum (geti s j)) -> kept refs s s'.
Proof. intros Hq Hx. split; [by eexists|]. intros k _ Hr. rewrite (q_ic _ _ _ Hq), geti_seti. case_decide; [subst; by apply Hx|done]. Qed.

Lemma kept_sb refs s s' : kept refs s s' -> k_sb s' = k_sb s.
Proof. intros [[ic Hq] _]. by rewrite (q_sb _ _ _ Hq). Qed.

Lemma kept_weaken refs refs' s s' : kept refs s s' -> (forall j, 0 < refs' j -> 0 < refs j) -> kept refs' s s'.
Proof. intros [H1 H2] Hr. split; [done|]. intros j Hj Hj'. apply H2; [done|by apply Hr]. Qed.

Lemma iunlockput_ico s V refs j base : in_tx s hs V ∅ -> icache_ok s V refs (Some j) -> i_dev (geti s j) = d -> i_nlink (dino sb V (i_inum (geti s j))) <> 0 ->
  exists s', iunlockput j s = Ok tt s' /\ in_tx s' hs V ∅ /\ icache_ok s' V (bump refs j (-1)) None /\ kept base s s'.
Proof.
  intros Htx Hic Hdev Hnl. destruct (ico_held _ _ _ _ Hic j eq_refl) as (Hj & Hr & _). destruct (iunlock_ico s V refs j Htx Hic) as (x & s1 & E1 & Hq1 & Htx1 & Hic1 & D1 & N1).
  assert (geti s1 j = x) as Ex by (by rewrite (q_ic _ _ _ Hq1), geti_seti, decide_True).
  destruct (iput_ico s1 V refs j Htx1 Hic1 Hj Hr) as (y & s2 & E2 & Hq2 & Htx2 & Hic2 & D2 & N2); rewrite ?Ex, ?D1, ?N1; try done. rewrite Ex in D2, N2.
  exists s2. unfold iunlockput. rewrite (bind_Ok _ _ _ _ _ E1), E2. split_and!; [done|done|done|]. eapply kept_trans; [eapply kept_seti; [exact Hq1|done]|]. eapply kept_seti; [exact Hq2|]. by rewrite Ex.
Qed.
End InodeCache.

(** ** Path names *)

Section Paths.
Context `{OT : Others} `{BD : BlockDev} `{DL : !DiskLaws}.
Context (i : nat) (d st : Z) (sb : superblock) (ds : Z) (hs : list Z) (Hhs : (length hs < 30)%nat).
Context (V : Z -> list Z) (T : Z -> Prop) (Hfs : fs_ok V sb ds) (HT : tree_ok sb ds V T).
Local Abbreviation in_tx := (in_tx i d st).
Local Abbreviation icache_ok := (icache_ok i d sb).

(** Two entries of the inode cache are free: what a walk needs. *)
Definition room (base : nat -> Z) : Prop := (forall j, 0 <= base j) /\ exists a b, a ∈ inodes /\ b ∈ inodes /\ a <> b /\ base a = 0 /\ base b = 0.

(** What a walk from inode [n] along [es] ends in. *)
Definition walks (base : nat -> Z) (par : bool) (n : Z) (es : list (list Z)) (s : kst) (r : outcome kst (option nat * list Z)) : Prop :=
  exists a s', r = Ok a s' /\ in_tx s' hs V ∅ /\ kept i base s s' /\
    match resolve sb V par n es with
    | Some m => exists j, fst a = Some j /\ j ∈ inodes /\ i_dev (geti s' j) = d /\ i_inum (geti s' j) = m /\ icache_ok s' V (bump base j 1) None /\ (par = true -> last es = Some (cname (snd a)))
    | None => fst a = None /\ icache_ok s' V base None
    end.

Lemma walks_kept base par n es s s1 r : kept i base s s1 -> walks base par n es s1 r -> walks base par n es s r.
Proof. intros Hk (a & s' & E & Htx & Hk' & H). exists a, s'. split_and!; [done|done|by eapply kept_trans|done]. Qed.

Lemma tree_blockno n : T n -> blockno_ok (IBLOCK n sb).
Proof. intros Hn. pose proof (tr_home _ _ _ _ HT n Hn). destruct (fs_ds _ _ _ Hfs), (sbo_size _ (fs_sb _ _ _ Hfs)). unfold blockno_ok. lia. Qed.

(** Giving up: the inode is unlocked and its reference dropped. *)
Lemma walk_fails base par n es s ip name : in_tx s hs V ∅ -> icache_ok s V (bump base ip 1) (Some ip) -> i_dev (geti s ip) = d -> i_inum (geti s ip) = n -> T n -> resolve sb V par n es = None ->
  walks base par n es s ((iunlockput ip;; ret (None, name)) s).
Proof.
  intros Htx Hic Hdev Hn HTn Hres. destruct (iunlockput_ico i d st sb hs Hhs s V _ ip base Htx Hic Hdev) as (s1 & E1 & Htx1 & Hic1 & Hk1); [rewrite Hn; exact (proj2 (tr_used _ _ _ _ HT n HTn))|].
  rewrite (bind_Ok _ _ _ _ _ E1). exists (None, name), s1. split_and!; [done|done|done|]. rewrite Hres. split; [done|]. eapply ico_move; [exact Hic1|done..|]. intros j. unfold bump, refs_set. repeat case_decide; subst; (done || lia).
Qed.

Lemma bump_free base ip : room base -> exists a, a ∈ inodes /\ bump base ip 1 a = 0.
Proof.
  intros [_ (a & b & Ha & Hb & Hne & Ea & Eb)]. unfold bump, refs_set. destruct (decide (a = ip)) as [->|Hn]; [exists b|exists a]; (split; [done|]); by rewrite decide_False by congruence.
Qed.

(** The step to the next inode: found in the directory, referenced, and the
    directory let go. *)
Lemma next_inode base s ip n m o name e : room base -> in_tx s hs V ∅ -> icache_ok s V (bump base ip 1) (Some ip) -> i_dev (geti s ip) = d -> i_inum (geti s ip) = n -> T n ->
  i_type (dino sb V n) = T_DIR -> cname name = e -> dir_find sb V n e = Some (m, o) ->
  exists next s1 s2, dirlookup ip name s = Ok (Some (next, o)) s1 /\ iunlockput ip s1 = Ok tt s2 /\ in_tx s2 hs V ∅ /\ icache_ok s2 V (bump base next 1) None /\ kept i base s s2 /\
    next ∈ inodes /\ i_dev (geti s2 next) = d /\ i_inum (geti s2 next) = m /\ T m.
Proof.
  intros Hroom Htx Hic Hdev Hn HTn Hty Ee Hfind. destruct (ico_held _ _ _ _ _ _ _ Hic ip eq_refl) as (Hip & Hr & Hv & _).
  destruct (loaded_fields sb V _ (ico_valid _ _ _ _ _ _ _ Hic ip Hip Hr Hdev Hv)) as (L1 & _ & L3 & L4). rewrite Hn in L1, L3, L4. destruct (tr_dir _ _ _ _ HT n HTn Hty) as (Hf & Hw & Hm).
  destruct (dirlookup_spec i d st sb ds hs Hhs s V ip name n Htx Hdev Hfs) as (s1 & Hq1 & Htx1 & E1); [congruence|done|done|done|done|done|]. rewrite Ee, Hfind in E1.
  destruct (iget_spec i d st sb hs Hhs s1 V (bump base ip 1) (Some ip) m Htx1) as (next & x & s2 & E2 & Hq2 & Htx2 & Hnx & Dx & Nx & Hic2 & Hsame); [by eapply ico_quiet|by apply bump_free|].
  rewrite (bind_Ok _ _ _ _ _ E2) in E1. assert (kept i (bump base ip 1) s1 s2) as Hk2 by (eapply kept_seti; [exact Hq2|]; intros Hp; destruct (Hsame Hp); split; congruence).
  destruct (proj2 Hk2 ip Hip Hr) as [Di Ni]. rewrite (q_ic _ _ _ Hq1) in Di, Ni.
  destruct (iunlockput_ico i d st sb hs Hhs s2 V _ ip (bump (bump base ip 1) next 1) Htx2 Hic2) as (s3 & E3 & Htx3 & Hic3 & Hk3); [congruence|rewrite Ni, Hn; exact (proj2 (tr_used _ _ _ _ HT n HTn))|].
  assert (0 < bump (bump base ip 1) next 1 next) as Hp. { destruct Hroom as [Hb _]. pose proof (Hb next). unfold bump, refs_set. rewrite !(decide_True (P := next = next)) by done. case_decide; subst; lia. }
  destruct (proj2 Hk3 next Hnx Hp) as [D3 N3]. assert (geti s2 next = x) as Ex by (by rewrite (q_ic _ _ _ Hq2), geti_seti, decide_True). rewrite Ex in D3, N3.
  assert (forall j, 0 < base j -> 0 < bump base ip 1 j) as W1 by (intros j Hj; unfold bump, refs_set; case_decide; subst; lia).
  exists next, s2, s3. split_and!; [done|done|done| | |done|congruence|congruence|].
  - eapply ico_move; [exact Hic3|done..|]. intros j. unfold bump, refs_set. repeat case_decide; subst; (done || lia).
  - eapply kept_trans; [by apply kept_quiet|]. eapply kept_trans; [by eapply kept_weaken|]. eapply kept_weaken; [exact Hk3|]. intros j Hj. specialize (W1 j Hj). unfold bump at 1, refs_set. case_decide; subst; lia.
  - by apply (tr_closed _ _ _ _ HT n e m o).
Qed.

Lemma namex_loop_spec es : forall fuel path par name n ip s base, room base -> in_tx s hs V ∅ -> k_sb s = sb -> icache_ok s V (bump base ip 1) None -> ip ∈ inodes ->
  i_dev (geti s ip) = d -> i_inum (geti s ip) = n -> T n -> elems path = es -> 0 ∉ path -> length name = 14%nat -> (length path < fuel)%nat ->
  walks base par n es s (namex_loop fuel ip path par name s).
Proof.
  induction es as [|e es IH]; intros fuel path par name n ip s base Hroom Htx Hsb Hic Hip Hdev Hn HTn Hes Hz Hname Hfu; (destruct fuel as [|fuel]; [lia|]); cbn [namex_loop].
  all: assert (0 < bump base ip 1 ip) as Hr by (destruct Hroom as [Hb _]; pose proof (Hb ip); unfold bump, refs_set; rewrite decide_True by done; lia).
  { rewrite (skipelem_none path name Hes). destruct par; [|exists (Some ip, name), s; split_and!; [done|done|by apply kept_quiet|]; exists ip; by split_and!].
    destruct (iput_ico i d st sb hs Hhs s V _ ip Htx Hic Hip Hr Hdev) as (x & s1 & E1 & Hq1 & Htx1 & Hic1 & D1 & N1); [rewrite Hn; exact (proj2 (tr_used _ _ _ _ HT n HTn))|].
    rewrite (bind_Ok _ _ _ _ _ E1). exists (None, name), s1. split_and!; [done|done|by eapply kept_seti|]. split; [done|]. eapply ico_move; [exact Hic1|done..|]. intros j. unfold bump, refs_set. repeat case_decide; subst; (done || lia). }
  destruct (skipelem_some path name e es Hes Hz Hname) as (rest & name' & -> & Er & En & Hname' & Hz' & Hl & Hnil).
  destruct (ilock_ico i d st sb hs Hhs s V _ ip Htx Hic Hsb Hip Hr Hdev) as (x & s1 & E1 & Hq1 & Htx1 & Hic1 & D1 & N1); [rewrite Hn; by apply tree_blockno|rewrite Hn; exact (proj1 (tr_used _ _ _ _ HT n HTn))|].
  assert (geti s1 ip = x) as Ex by (by rewrite (q_ic _ _ _ Hq1), geti_seti, decide_True). assert (kept i base s s1) as Hk1 by (eapply kept_seti; [exact Hq1|]; intros _; split; congruence).
  rewrite (bind_Ok _ _ _ _ _ E1), bind_gets. destruct (ico_held _ _ _ _ _ _ _ Hic1 ip eq_refl) as (_ & _ & Hv & _).
  assert (i_type (geti s1 ip) = i_type (dino sb V n)) as ->.
  { destruct (loaded_fields sb V _ (ico_valid _ _ _ _ _ _ _ Hic1 ip Hip Hr ltac:(congruence) Hv)) as (L1 & _). rewrite L1, Ex. by replace (i_inum x) with n by congruence. }
  eapply walks_kept; [exact Hk1|]. destruct (Z.eqb_spec (i_type (dino sb V n)) T_DIR) as [Hty|Hty]; cbn [negb].
  2: { apply walk_fails; try done; [congruence|congruence|]. cbn [resolve]. by rewrite (proj2 (Z.eqb_neq _ _) Hty). }
  assert (bool_decide (rest = []) = bool_decide (es = [])) as -> by (by apply bool_decide_ext). destruct (par && bool_decide (es = [])) eqn:Ep.
  { apply andb_true_iff in Ep as [-> Ep]. apply bool_decide_eq_true in Ep as ->. destruct (iunlock_ico i d st sb hs Hhs s1 V _ ip Htx1 Hic1) as (y & s2 & E2 & Hq2 & Htx2 & Hic2 & D2 & N2).
    rewrite (bind_Ok _ _ _ _ _ E2). assert (geti s2 ip = y) as Ey by (by rewrite (q_ic _ _ _ Hq2), geti_seti, decide_True). exists (Some ip, name'), s2. split_and!; [done|done|by eapply kept_seti|].
    cbn [resolve]. rewrite Hty, Z.eqb_refl, bool_decide_true by done. exists ip. rewrite Ey. split_and!; [done|done|congruence|congruence|done|]. intros _. cbn [snd]. by rewrite En. }
  destruct (dir_find sb V n e) as [[m o]|] eqn:Ef.
  - destruct (next_inode base s1 ip n m o name' e Hroom Htx1 Hic1) as (next & s2 & s3 & E2 & E3 & Htx3 & Hic3 & Hk3 & Hnx & D3 & N3 & HTm); try done; [congruence|congruence|].
    rewrite (bind_Ok _ _ _ _ _ E2), (bind_Ok _ _ _ _ _ E3). destruct (IH fuel rest par name' m next s3 base) as (a & s4 & E4 & Htx4 & Hk4 & H4); try done; [by rewrite (kept_sb _ _ _ _ Hk3), (kept_sb _ _ _ _ Hk1)|lia|].
    exists a, s4. split_and!; [done|done|by eapply kept_trans|]. cbn [resolve]. rewrite Hty, Z.eqb_refl, Ep, Ef. destruct (resolve sb V par m es) as [r|]; [|done]. destruct H4 as (j & A1 & A2 & A3 & A4 & A5 & A6). exists j. split_and!; try done.
    intros ->. specialize (A6 eq_refl). by destruct es.
  - destruct (tr_dir _ _ _ _ HT n HTn Hty) as (Hf & Hw & Hm).
    destruct (loaded_fields sb V _ (ico_valid _ _ _ _ _ _ _ Hic1 ip Hip Hr ltac:(congruence) Hv)) as (L1 & _ & L3 & L4). rewrite Ex in L1, L3, L4. replace (i_inum x) with n in L1, L3, L4 by congruence.
    destruct (dirlookup_spec i d st sb ds hs Hhs s1 V ip name' n Htx1) as (s2 & Hq2 & Htx2 & E2); rewrite ?Ex; try done; [congruence|]. rewrite En, Ef in E2. rewrite (bind_Ok _ _ _ _ _ E2).
    eapply walks_kept; [by apply kept_quiet|]. apply walk_fails; rewrite ?(q_ic _ _ _ Hq2), ?Ex; try done; [by eapply ico_quiet|congruence|]. cbn [resolve]. by rewrite Hty, Z.eqb_refl, Ep, Ef.
Qed.

(** The inode a path starts from: the root, or the directory of the process. *)
Definition start (s : kst) (path : list Z) : Z :=
  if hd 0 path =? slash then ROOTINO else match p_cwd (getp s i) with Some c => i_inum (geti s c) | None => 0 end.

(** The first reference of a walk. *)
Lemma first_inode s refs path : in_tx s hs V ∅ -> icache_ok s V refs None -> room refs -> d = ROOTDEV ->
  (hd 0 path <> slash -> exists c, p_cwd (getp s i) = Some c /\ c ∈ inodes /\ 0 < refs c /\ i_dev (geti s c) = d) ->
  exists ip s1, (if hd 0 path =? slash then iget ROOTDEV ROOTINO else let! i := curproc in let! cwd := gets (fun s => p_cwd (getp s i)) in let! cwd := deref cwd in idup cwd) s = Ok ip s1 /\
    in_tx s1 hs V ∅ /\ icache_ok s1 V (bump refs ip 1) None /\ kept i refs s s1 /\ ip ∈ inodes /\ i_dev (geti s1 ip) = d /\ i_inum (geti s1 ip) = start s path.
Proof.
  intros Htx Hic Hroom Hd Hcwd. unfold start. destruct (Z.eqb_spec (hd 0 path) slash) as [|Hne].
  - rewrite <- Hd. destruct (iget_spec i d st sb hs Hhs s V refs None ROOTINO Htx Hic) as (j & x & s1 & E & Hq & Htx1 & Hj & Dx & Nx & Hic1 & Hs); [destruct Hroom as [_ (a & b & Ha & _ & _ & Ea & _)]; by exists a|].
    assert (geti s1 j = x) as Ex by (by rewrite (q_ic _ _ _ Hq), geti_seti, decide_True). exists j, s1. rewrite Ex. split_and!; try done. eapply kept_seti; [exact Hq|]. intros Hp. destruct (Hs Hp). split; congruence.
  - destruct (Hcwd Hne) as (c & Ec & Hc & Hr & Hdc). destruct (tx_ready i d st hs s V Htx) as (Hh & Hp & Hk). rewrite (bind_Ok _ _ _ _ _ (curproc_eq i s Hh Hp)), bind_gets. set (s0 := put_hart (touched (hart_of s)) s).
    change (getp s0 i) with (getp s i). rewrite Ec. unfold deref. rewrite bind_ret. pose proof (calm_touched i s) as Hcalm. fold s0 in Hcalm. assert (quiet i s s0) as Hq0 by (by apply calm_quiet).
    assert (in_tx s0 hs V ∅) as Htx0 by (apply (in_tx_move i d st s); try done; exact (cm_ready _ _ _ Hcalm)).
    destruct (idup_ico i d st sb hs Hhs s0 V refs c Htx0) as (x & s1 & E & Hq & Htx1 & Hic1 & Dx & Nx); [by eapply ico_quiet|done|done|]. change (geti s0 c) with (geti s c) in *.
    assert (geti s1 c = x) as Ex by (by rewrite (q_ic _ _ _ Hq), geti_seti, decide_True). exists c, s1. rewrite Ex. split_and!; try done; [|congruence]. eapply kept_trans; [by apply kept_quiet|]. by eapply kept_seti.
Qed.

Lemma namex_spec s refs path par : in_tx s hs V ∅ -> k_sb s = sb -> icache_ok s V refs None -> room refs -> d = ROOTDEV -> 0 ∉ path -> T (start s path) ->
  (hd 0 path <> slash -> exists c, p_cwd (getp s i) = Some c /\ c ∈ inodes /\ 0 < refs c /\ i_dev (geti s c) = d) ->
  exists r name s', namex path par name0 s = Ok (r, name) s' /\ in_tx s' hs V ∅ /\ kept i refs s s' /\
    match resolve sb V par (start s path) (elems path) with
    | Some m => exists j, r = Some j /\ j ∈ inodes /\ i_dev (geti s' j) = d /\ i_inum (geti s' j) = m /\ icache_ok s' V (bump refs j 1) None /\ (par = true -> last (elems path) = Some (cname name))
    | None => r = None /\ icache_ok s' V refs None
    end.
Proof.
  intros Htx Hsb Hic Hroom Hd Hz HTn Hcwd. destruct (first_inode s refs path Htx Hic Hroom Hd Hcwd) as (ip & s1 & E1 & Htx1 & Hic1 & Hk1 & Hip & D1 & N1). unfold namex. rewrite (bind_Ok _ _ _ _ _ E1).
  destruct (namex_loop_spec (elems path) (S (length path)) path par name0 (start s path) ip s1 refs) as ([r name] & s' & E & Htx' & Hk & H); try done; [by rewrite (kept_sb _ _ _ _ Hk1)|lia|].
  exists r, name, s'. split_and!; [done|done|by eapply kept_trans|done].
Qed.

End Paths.

Section Property.
Context `{HW : Hardware} `{HL : !HardwareLaws}.
#[local] Existing Instance system | 0.
#[local] Existing Instance virtio | 0.
Context (i : nat) (d st : Z) (sb : superblock) (ds : Z) (hs : list Z) (Hhs : (length hs < 30)%nat).
Context (V : Z -> list Z) (T : Z -> Prop) (Hfs : fs_ok V sb ds) (HT : tree_ok sb ds V T).
Local Abbreviation in_tx := (in_tx i d st).
Local Abbreviation icache_ok := (icache_ok i d sb).

(** C15: a path leads where the directories on the disk say.  In a transaction of
    a process that finds the locks of the inode cache free, with two entries of
    it unused, namex returns: the cache entry of the inode that the elements of
    the path, cut to 14 bytes, lead to through the directories, with one
    reference more (for nameiparent, of the last directory, the last element in
    the array); or 0 when an element is missing or leads through something that
    is no directory.  Every other reference that was taken is dropped, the inodes
    in use keep their entries, and nothing else but buffers changes.  The
    directories have to be files without holes, and the inodes reached have to
    be in use, their blocks before the data.  The blocks come through the driver
    virtio_disk_rw from any device that satisfies [HardwareLaws]. *)
Theorem namex_correct s refs path par : in_tx s hs V ∅ -> k_sb s = sb -> icache_ok s V refs None -> room refs -> d = ROOTDEV -> 0 ∉ path -> T (start i s path) ->
  (hd 0 path <> slash -> exists c, p_cwd (getp s i) = Some c /\ c ∈ inodes /\ 0 < refs c /\ i_dev (geti s c) = d) ->
  exists r name s', namex path par name0 s = Ok (r, name) s' /\ in_tx s' hs V ∅ /\ kept i refs s s' /\
    match resolve sb V par (start i s path) (elems path) with
    | Some m => exists j, r = Some j /\ j ∈ inodes /\ i_dev (geti s' j) = d /\ i_inum (geti s' j) = m /\ icache_ok s' V (bump refs j 1) None /\ (par = true -> last (elems path) = Some (cname name))
    | None => r = None /\ icache_ok s' V refs None
    end.
Proof. exact (namex_spec i d st sb ds hs Hhs V T Hfs HT s refs path par). Qed.
End Property.
