(* ===== verification/FsTheorems.v ===== *)
(** * Theorems about the file system

    They are about the file system over the driver virtio_disk_rw, for any
    device that satisfies [HardwareLaws]. *)

From S2P Require Import Prelude CString Layout Spinlock Kalloc State Vm Proc ProcMem Fork SmallMachine ProcTheorems ForkTheorems SleepLock Bio Log Fs Pipe Console File ProcSpec SleepSpec Ring CacheSpec DiskSystem CacheInit LogSpec LogOps FsTx FsMap FsFile FsInode FsRead FsCommit VmSpec AddrSpace UserMem UserCopy ObjCopy LogTheorems FsWrite FsUser FsDir.

Section Properties.
Context `{HI : KernelImage} `{HOk : !ImageOk} `{HW : Hardware} `{HL : !HardwareLaws}.
#[local] Existing Instance system | 0.
#[local] Existing Instance virtio | 0.
Context (i : nat) (d st : Z) (sb : superblock) (ds : Z).

(** The user's bytes [bs] at [addr]. *)
Record user_bytes (s : kst) (l : list Z) (sh : shape) (U : gmap Z Z) (F : list Z) (addr : Z) (bs : list Z) : Prop := {
  ub_space : uspace (k_m s) l sh U F;
  ub_high : high_ok U;
  ub_root : p_pagetable (getp s i) = sh_root sh;
  ub_addr : 0 <= addr /\ addr + Z.of_nat (length bs) <= 2 ^ 64;
  ub_bytes : forall j b, bs !! j = Some b -> uread (m_mem (k_m s)) U (addr + Z.of_nat j) = Some b }.

(** The pieces filewrite cuts [n] bytes into. *)
Definition pieces (n : Z) : nat := Z.to_nat ((n + write_max - 1) / write_max).

Lemma pieces_bounds n : 0 <= n -> n <= Z.of_nat (pieces n) * 3072 /\ (pieces n < S (Z.to_nat n))%nat.
Proof. intros Hn. unfold pieces. change write_max with 3072. zlia. Qed.

Lemma filewrite_spec s V fi ip l sh U F addr bs : log_apart st sb ds -> fstate i d st sb ds s V fi ip -> f_type (getf s fi) = FD_INODE -> f_writable (getf s fi) <> 0 ->
  user_bytes s l sh U F addr bs -> bs <> [] -> let n := Z.of_nat (length bs) in let off := f_off (getf s fi) in off + n <= maxbytes -> (8 * pieces n <= nfree V sb)%nat ->
  exists s' V' addrs' W lk, filewrite fi addr n s = Ok n s' /\ fstate i d st sb ds s' V' fi ip /\
    steady i ip (set_i_lock lk (grown addrs' (off + n) (geti s ip))) fi (set_f_off (off + n) (getf s fi)) s s' /\
    written st sb ds V (geti s ip) off bs V' addrs' /\ k_dk s' = puts W (k_dk s) /\ crash_safe st sb ds (k_dk s) W V (geti s ip) off bs.
Proof.
  intros Hap Fs Hty Hwr [U1 U2 U3 [U4 U5] U6] Hne n off Hmax Hnf. assert (0 < n) as Hn by (unfold n; destruct bs; [done|cbn; lia]).
  destruct (pieces_bounds n) as [P1 P2]; [lia|].
  destruct (filewrite_loop_spec i d st sb ds Hap (pieces n) s V fi ip addr n 0 bs (S (Z.to_nat n)) Fs) as (s' & V' & addrs' & W & lk & E & F' & S & Hw & Hd & Hcs); try lia.
  - rewrite Z.add_0_r, u64_small by lia. by apply (user_src i s l sh U F).
  - exists s', V', addrs', W, lk. rewrite Z.sub_0_r in S. split_and!; try done. unfold filewrite. rewrite bind_gets, (proj2 (Z.eqb_neq _ _) Hwr), Hty.
    rewrite (bind_Ok _ _ _ _ _ E), Z.eqb_refl. done.
Qed.

(** C1: write() to a file survives power cuts.  filewrite of the user's bytes
    [bs], which lie in memory it has mapped and fit into the largest file, with 8
    free blocks for every 3072 of them, returns their number; the file then holds them from its old offset
    on and its other bytes as before, the offset and the size have moved, the
    inode on the disk says so, no block of another file, no other inode and no
    other metadata has changed, and in the free map only the blocks the file
    gained, which were free, have become used.  Cut the power
    after any number of the disk writes on the way, and again any number of
    times while the log is being recovered: the recovery that is left to run
    returns and leaves on the disk a file system in which, of the file, a
    first part of [bs] has been written in this way: all of it or a number of
    pieces of 3072 bytes. *)
Theorem filewrite_crash_safe s V fi ip l sh U F addr bs : log_apart st sb ds -> fstate i d st sb ds s V fi ip ->
  f_type (getf s fi) = FD_INODE -> f_writable (getf s fi) <> 0 -> user_bytes s l sh U F addr bs -> bs <> [] ->
  let n := Z.of_nat (length bs) in let off := f_off (getf s fi) in let ino := geti s ip in off + n <= maxbytes -> (8 * pieces n <= nfree V sb)%nat ->
  exists s' V', filewrite fi addr n s = Ok n s' /\ fstate i d st sb ds s' V' fi ip /\
    f_off (getf s' fi) = off + n /\ i_size (geti s' ip) = Z.max (i_size ino) (off + n) /\
    written st sb ds V ino off bs V' (i_addrs (geti s' ip)) /\
    forall ws j t, (d_writes (k_dk s) ++ ws) `prefix_of` d_writes (k_dk s') -> recoveries d st (puts ws (k_dk s)) (k_dk t) -> rebooted j d st t ->
      exists t' m C addrs', recover_from_log t = Ok tt t' /\ (forall b, ~ in_log st b -> dblock (k_dk t') b = C b) /\
        (m = length bs \/ (m < length bs)%nat /\ (3072 | Z.of_nat m)) /\ written st sb ds V ino off (take m bs) C addrs'.
Proof.
  intros Hap Fs Hty Hwr Hub Hne n off ino Hmax Hnf.
  destruct (filewrite_spec s V fi ip l sh U F addr bs Hap Fs Hty Hwr Hub Hne Hmax Hnf) as (s' & V' & addrs' & W & lk & E & F' & S & Hw & Hd & Hcs).
  exists s', V'. rewrite (sd_ino _ _ _ _ _ _ _ S), (sd_file _ _ _ _ _ _ _ S). split_and!; try done.
  intros ws j t Hp Hrec Hb. apply prefix_take with (1 := Hd) in Hp as Hws. destruct (Hcs (length ws)) as (m & C & a & Hm & Hdv & Hwm & Hr). rewrite <- Hws in Hr.
  destruct (recover_contents j d st t C Hb (recoveries_contents _ _ _ _ _ Hrec Hr)) as (t' & Ht' & _ & Hn').
  exists t', m, C, a. split_and!; try done. destruct (decide (m = length bs)); [by left|right]. destruct Hdv as [|Hdv]; [done|]. split; [lia|exact Hdv].
Qed.

(** C12: read() from a file.  fileread into a buffer of the user's returns the
    number of bytes up to the end of the file, or [n] if there are more; the
    buffer then holds the bytes of the file from its offset on, every other
    byte of the user's memory is as before, the offset has moved past them,
    and the disk, the file system and all other files are unchanged. *)
Theorem fileread_correct s V fi ip l sh U F addr n : fstate i d st sb ds s V fi ip -> f_type (getf s fi) = FD_INODE -> f_readable (getf s fi) <> 0 ->
  user_bytes s l sh U F addr [] -> addr < 2 ^ 64 -> addr + n <= 2 ^ 64 -> 0 <= n < 2 ^ 31 ->
  (forall va, addr <= va < addr + n -> uread (m_mem (k_m s)) U va <> None) -> whole V (geti s ip) ->
  let off := f_off (getf s fi) in let m := Z.min n (i_size (geti s ip) - off) in
  exists s', fileread fi addr n s = Ok m s' /\ fstate i d st sb ds s' V fi ip /\ f_off (getf s' fi) = off + m /\ k_dk s' = k_dk s /\
    (forall j, j <> fi -> getf s' j = getf s j) /\ (forall j, j <> ip -> geti s' j = geti s j) /\
    forall va, uread (m_mem (k_m s')) U va =
      if (addr <=? va) && (va <? addr + m) then Some (u8 (fbyte V (i_addrs (geti s ip)) (off + (va - addr)))) else uread (m_mem (k_m s)) U va.
Proof.
  intros Fs Hty Hrd [U1 U2 U3 [U4 _] _] Ha Hend Hn Hmap Hwh off m.
  destruct (fileread_spec i d st sb ds s V fi ip l sh U F addr n Fs Hty Hrd U1 U2 U3 (conj U4 Ha) Hend Hn Hmap Hwh) as (s' & lk & E & F' & S & Hd & _ & Hr).
  exists s'. rewrite (sd_file _ _ _ _ _ _ _ S). split_and!; try done; [apply S|apply S|].
  fold off m in Hr. assert (0 <= m) as Hm by (unfold m; pose proof (fst_off _ _ _ _ _ _ _ _ _ Fs) as Ho; fold off in Ho; lia).
  intros va. rewrite Hr. unfold fbytes. rewrite length_fmap, length_seqZ, Z2Nat.id by lia.
  destruct (Z.leb_spec addr va), (Z.ltb_spec va (addr + m)); cbn [andb]; try done. do 2 f_equal.
  rewrite list_lookup_total_alt, list_lookup_fmap, lookup_seqZ_lt by lia. cbn. f_equal. lia.
Qed.

Lemma whole_written V ino off bs V' addrs' lk : whole V ino -> 0 <= off <= i_size ino -> off + Z.of_nat (length bs) <= maxbytes -> written st sb ds V ino off bs V' addrs' ->
  whole V' (set_i_lock lk (grown addrs' (off + Z.of_nat (length bs)) ino)).
Proof.
  intros [Hs Hno] Ho Hm [_ _ (_ & C2 & C3) _ _]. unfold whole.
  change (i_size (set_i_lock lk (grown addrs' (off + Z.of_nat (length bs)) ino))) with (Z.max (i_size ino) (off + Z.of_nat (length bs))).
  change (i_addrs (set_i_lock lk (grown addrs' (off + Z.of_nat (length bs)) ino))) with addrs'. split; [lia|]. intros o Ho'.
  destruct (decide (off <= o < off + Z.of_nat (length bs))) as [Hin|Hout]; [by apply C2|].
  assert (loc V (i_addrs ino) (slot_of (o / BSIZE)) <> 0) as Hnz by (apply Hno; lia). rewrite C3; [done| |done]. apply slot_range. lia.
Qed.

(** Another open file of the inode. *)
Lemma fstate_other s V fi fj ip : fstate i d st sb ds s V fi ip -> f_ip (getf s fj) = Some ip -> 0 <= f_off (getf s fj) <= i_size (geti s ip) -> fstate i d st sb ds s V fj ip.
Proof. intros [] H1 H2. by split. Qed.

(** C11: what write() puts into a file, read() gets out.  Bytes that one open
    file writes from the user's memory at [src] come out at [dst] when
    another open file of the same inode, whose offset is where the writer
    was, reads as many; nothing else of the user's memory changes. *)
Theorem write_read_roundtrip s V fi fj ip l sh U F src dst bs : log_apart st sb ds -> fstate i d st sb ds s V fi ip -> fi <> fj ->
  f_type (getf s fi) = FD_INODE -> f_writable (getf s fi) <> 0 -> f_type (getf s fj) = FD_INODE -> f_readable (getf s fj) <> 0 ->
  f_ip (getf s fj) = Some ip -> f_off (getf s fj) = f_off (getf s fi) -> whole V (geti s ip) -> user_bytes s l sh U F src bs -> bs <> [] ->
  let n := Z.of_nat (length bs) in f_off (getf s fi) + n <= maxbytes -> (8 * pieces n <= nfree V sb)%nat ->
  0 <= dst -> dst + n <= 2 ^ 64 -> (forall va, dst <= va < dst + n -> uread (m_mem (k_m s)) U va <> None) ->
  exists s1 s2, filewrite fi src n s = Ok n s1 /\ fileread fj dst n s1 = Ok n s2 /\
    forall va, uread (m_mem (k_m s2)) U va = if (dst <=? va) && (va <? dst + n) then bs !! Z.to_nat (va - dst) else uread (m_mem (k_m s)) U va.
Proof.
  intros Hap Fs Hij Hty Hwr Htj Hrj Hipj Hoj Hwh Hub Hne n Hmax Hnf Hd0 Hd1 Hmap. set (off := f_off (getf s fi)) in *.
  destruct (filewrite_spec s V fi ip l sh U F src bs Hap Fs Hty Hwr Hub Hne Hmax Hnf) as (s1 & V1 & addrs1 & W & lk & E1 & F1 & S1 & Hw & _ & _). fold off n in S1, Hw.
  assert (0 < n) as Hn by (unfold n; destruct bs; [done|cbn; lia]). pose proof (sd_ino _ _ _ _ _ _ _ S1) as Ei.
  assert (getf s1 fj = getf s fj) as Ej by (apply (sd_ft _ _ _ _ _ _ _ S1); congruence). pose proof (fst_off _ _ _ _ _ _ _ _ _ Fs) as Hoff. fold off in Hoff.
  assert (whole V1 (geti s1 ip)) as Hwh1 by (rewrite Ei; by apply (whole_written V _ off bs)).
  assert (i_size (geti s1 ip) = Z.max (i_size (geti s ip)) (off + n) /\ i_addrs (geti s1 ip) = addrs1) as [Es Ea] by (by rewrite Ei).
  assert (fstate i d st sb ds s1 V1 fj ip) as Fj by (apply (fstate_other s1 V1 fi fj ip F1); rewrite Ej; [done|lia]).
  destruct Hub as [U1 U2 U3 U4 U6]. pose proof (sd_mem _ _ _ _ _ _ _ S1) as Em. change maxbytes with 274432 in Hmax.
  destruct (fileread_spec i d st sb ds s1 V1 fj ip l sh U F dst n Fj) as (s2 & lk2 & E2 & _ & _ & _ & _ & Hr); rewrite ?Ej, ?Em; try done; try lia.
  { eapply uspace_agree; [exact U1|done|apply S1|]. apply (li_cache _ _ _ _ _ (fst_idle _ _ _ _ _ _ _ _ _ F1)). }
  { by rewrite (sd_as _ _ _ _ _ _ _ S1). }
  rewrite Ej, Hoj, Es, Ea, Em in *. fold off in E2, Hr. replace (Z.min n (Z.max (i_size (geti s ip)) (off + n) - off)) with n in E2, Hr by lia.
  exists s1, s2. split_and!; [done|done|]. intros va. rewrite Hr. unfold fbytes. rewrite length_fmap, length_seqZ, Z2Nat.id by lia.
  destruct (Z.leb_spec dst va), (Z.ltb_spec va (dst + n)); cbn [andb]; try done.
  destruct (lookup_lt_is_Some_2 bs (Z.to_nat (va - dst))) as [b Hb]; [lia|]. rewrite Hb, list_lookup_total_alt, list_lookup_fmap, lookup_seqZ_lt by lia. cbn.
  destruct (w_content _ _ _ _ _ _ _ _ _ Hw) as (C1 & _ & _). rewrite C1, decide_True by (change maxbytes with 274432; fold n; lia). unfold byte_at.
  replace (Z.to_nat (off + Z.of_nat (Z.to_nat (va - dst)) - off)) with (Z.to_nat (va - dst)) by lia. rewrite Hb. cbn. f_equal. apply u8_small.
  apply U6 in Hb. unfold uread in Hb. destruct (upage U _); [|done]. injection Hb as <-. apply rd_range.
Qed.

(** C18: the free map.  balloc returns the first free block, zeroed and marked
    in use, and changes nothing else in the map; bfree of that block then
    makes the map what it was, and a second bfree panics. *)
Theorem balloc_bfree s hs V nb : in_tx i d st s hs V ∅ -> k_sb s = sb -> fs_ok V sb ds -> first_free V sb nb -> (length hs + 3 <= 28)%nat -> 30 <= lg_size (k_lg s) ->
  exists s1 hs1 V1 s2 hs2 V2,
    balloc d s = Ok nb s1 /\ in_tx i d st s1 hs1 V1 ∅ /\ V1 nb = zeros /\ (forall b, 0 <= b < sb_size sb -> used V1 sb b = bool_decide (b = nb) || used V sb b) /\
    bfree d nb s1 = Ok tt s2 /\ in_tx i d st s2 hs2 V2 ∅ /\ (forall b, 0 <= b < sb_size sb -> used V2 sb b = used V sb b) /\
    bfree d nb s2 = Panic "freeing free block".
Proof.
  intros Htx Hsb Hfs Hff Hl Hlg. pose proof Hff as (Hnb & Hu & _). pose proof (fs_sb _ _ _ Hfs) as Hok. pose proof (fs_map_sized _ _ _ Hfs) as Hms.
  assert (map_unlocked sb ∅) as Hun by (intros k _; apply lookup_empty).
  assert (forall k, 0 <= k < sb_size sb -> BBLOCK k sb <> nb) as Hne.
  { intros k Hk E. pose proof (fs_map _ _ _ Hfs k Hk). rewrite (fs_meta _ _ _ Hfs nb) in Hu; [done|lia]. }
  destruct (balloc_spec i d st sb s hs V ∅ nb Htx Hsb Hok Hff Hun (lookup_empty _)) as (s1 & E1 & Hq1 & Htx1);
    [rewrite map_size_empty; change bhead with 30%nat; lia|split; [lia|done]|].
  assert (forall b, 0 <= b < sb_size sb -> used (allocated V sb nb) sb b = bool_decide (b = nb) || used V sb b) as Hu1 by (intros b Hb; by apply used_allocated).
  set (hs1 := add_block nb (add_block (BBLOCK nb sb) hs)) in *. pose proof (add_block_length nb (add_block (BBLOCK nb sb) hs)). pose proof (add_block_length (BBLOCK nb sb) hs).
  destruct (bfree_spec i d st sb s1 hs1 (allocated V sb nb) ∅ nb Htx1) as (s2 & E2 & Hq2 & Htx2); try done.
  { by rewrite (q_sb _ _ _ Hq1). } { rewrite Hu1, bool_decide_true by done. done. } { rewrite map_size_empty. change bhead with 30%nat. unfold hs1. lia. }
  { split; [unfold hs1; lia|by rewrite (quiet_lg_size _ _ _ Hq1)]. }
  pose proof (map_sized_allocated V sb nb Hms) as Hms1. set (V2 := upd (allocated V sb nb) _ _) in *.
  assert (forall b, 0 <= b < sb_size sb -> used V2 sb b = used V sb b) as Hu2.
  { intros b Hb. unfold V2. rewrite used_freed, Hu1 by done. destruct (decide (b = nb)) as [->|Hn]; [by rewrite bool_decide_true, Hu|by rewrite bool_decide_false]. }
  exists s1, hs1, (allocated V sb nb), s2, (add_block (BBLOCK nb sb) hs1), V2. split_and!; try done; [unfold allocated; by rewrite upd_same|].
  apply (bfree_free i d st sb s2 _ V2 ∅ nb Htx2); try done; [by rewrite (q_sb _ _ _ Hq2), (q_sb _ _ _ Hq1)|by rewrite Hu2|].
  rewrite map_size_empty. change bhead with 30%nat. pose proof (add_block_length (BBLOCK nb sb) hs1). unfold hs1 in *. lia.
Qed.

(** An inode survives its eviction from memory.  After iupdate of an
    inode, ilock of any other entry of the inode cache that was assigned the
    same inode number and not loaded yet fills it with the same type, device
    numbers, link count, size and block addresses. *)
Theorem iupdate_ilock s hs V ip jp x : ready i d st sb ds s hs V ip -> let ino := geti s ip in inode_home sb ds (i_inum ino) -> dinode_range ino -> i_type ino <> 0 -> (length hs < 28)%nat ->
  i_dev x = d -> i_inum x = i_inum ino -> i_valid x = 0 -> 1 <= i_ref x -> lock_free (sl_lk (i_lock x)) -> sl_locked (i_lock x) = 0 ->
  exists s1 s2, iupdate ip s = Ok tt s1 /\ ilock jp (seti jp x s1) = Ok tt s2 /\
    geti s2 jp = Inode d (i_inum ino) (i_ref x) (taken (p_pid (getp s i)) (i_lock x)) 1
      (i_type ino) (i_major ino) (i_minor ino) (i_nlink ino) (i_size ino) (i_addrs ino).
Proof.
  intros [R1 R2 R3 R4 R5 R6] ino Hhome Hdr Hty Hl Xd Xi Xv Xr Xf Xl.
  destruct (iupdate_q i d st sb ds s hs V ip R1 R2 R5 Hhome R3) as (s1 & E1 & Hq1 & Htx1); [split; [lia|done]|]. fold ino in Htx1.
  set (s2 := seti jp x s1). assert (geti s2 jp = x) as Ex by (unfold s2; by rewrite geti_seti, decide_True). pose proof (add_block_length (iblock sb (i_inum ino)) hs).
  assert (k_sb s2 = sb) as Esb by (change (k_sb s2) with (k_sb s1); by rewrite (q_sb _ _ _ Hq1)).
  set (V1 := upd V _ _) in *. assert (load_dinode (V1 (IBLOCK (i_inum ino) sb)) (ioffset (i_inum ino)) x =
    Inode d (i_inum ino) (i_ref x) (i_lock x) 0 (i_type ino) (i_major ino) (i_minor ino) (i_nlink ino) (i_size ino) (i_addrs ino)) as Ey.
  { unfold V1. change (IBLOCK (i_inum ino) sb) with (iblock sb (i_inum ino)). rewrite upd_same, dinode_roundtrip, Xd, Xi, Xv; [done| |done].
    rewrite (fs_sized _ _ _ R3) by (destruct Hhome, (fs_ds _ _ _ R3); lia). pose proof (ioffset_range (i_inum ino)). change (Z.to_nat BSIZE) with 1024%nat. lia. }
  destruct (ilock_load i d st (add_block (iblock sb (i_inum ino)) hs) ltac:(lia) s2 V1 jp (in_tx_seti i d st _ _ _ _ jp x Htx1)) as (s3 & E3 & _ & _ & Eg); rewrite ?Ex, ?Xi, ?Esb, ?Ey; try done; try lia.
  { destruct Hhome as [Hhome _], (fs_ds _ _ _ R3), (sbo_size _ (fs_sb _ _ _ R3)). unfold blockno_ok. change (IBLOCK (i_inum ino) sb) with (iblock sb (i_inum ino)). lia. }
  exists s1, s3. split_and!; [done|done|]. rewrite Eg, Ex, Xi, Esb, Ey. change (p_pid (getp s2 i)) with (p_pid (getp s1 i)). by rewrite (q_pid _ _ _ Hq1).
Qed.
End Properties.

(** ** Witnesses: a disk of 64 blocks with a log of 30, one file of 5 bytes,
    and the process of one page that has it open *)

Definition small_sb : superblock := Superblock 0 64 30 16 30 2 32 33.
Definition small_inode : inode := Inode 1 1 1 (Sleeplock 0 lock0 "inode" 0) 1 2 0 0 1 5 (40 :: replicate 12 0).
Definition small_map : list Z := [255; 255; 255; 255; 3; 1] ++ replicate 1018 0.
Definition small_data : list Z := [104; 101; 108; 108; 111] ++ replicate 1019 0.
Definition small_disk : disk := Disk {[32 := splice (replicate 1024 0) 64 (dinode_bytes small_inode); 33 := small_map; 40 := small_data]} [].
Definition small_file (off : Z) : file := File FD_INODE 1 1 1 0 (Some 0%nat) off 0.

(** The process with the disk: files 0 and 1 at the end, file 2 at the start. *)
Definition small_on (bc : bcache) (s : kst) : kst :=
  setf 2 (small_file 0) (setf 1 (small_file 5) (setf 0 (small_file 5) (seti 0 small_inode (set_sb small_sb (set_lg log2 (set_vd idle_vd (set_dk small_disk (set_bc bc s)))))))).

Local Abbreviation small_V := (dblock small_disk).

Lemma small_bblock c : 0 <= c < sb_size small_sb -> BBLOCK c small_sb = 33.
Proof. intros Hc. change (sb_size small_sb) with 64 in Hc. unfold BBLOCK. change BPB with 8192. rewrite Z.div_small by lia. reflexivity. Qed.

Lemma small_apart : log_apart 2 small_sb 34.
Proof.
  intros n Hn. unfold in_log in Hn. change LOGSIZE with 30 in Hn. split; [lia|]. intros c Hc. rewrite small_bblock by done. lia.
Qed.

Lemma small_block b : length (small_V b) = Z.to_nat BSIZE.
Proof. unfold dblock, small_disk. cbn [d_blocks]. rewrite !lookup_insert, lookup_singleton. repeat (case_decide; [reflexivity|]). reflexivity. Qed.

Lemma small_fs_ok : fs_ok small_V small_sb 34.
Proof.
  split.
  - split; cbn; [lia|]. change BPB with 8192. change (64 / 8192) with 0. lia.
  - cbn. lia.
  - intros k Hk. rewrite small_bblock by done. lia.
  - intros b Hb. assert (forallb (fun b => used small_V small_sb b) (seqZ 0 34) = true) as H by (vm_compute; reflexivity).
    rewrite forallb_forall in H. apply H, list_elem_of_In, elem_of_seqZ. lia.
  - intros b _. apply small_block.
Qed.

Lemma small_loc k : 0 <= k -> loc small_V (i_addrs small_inode) k = if k =? 0 then 40 else 0.
Proof.
  intros Hk. unfold loc. change (byte_at (i_addrs small_inode) 12 =? 0) with true. destruct (Z.ltb_spec k 13); [|by destruct (Z.eqb_spec k 0); [lia|]].
  unfold byte_at, small_inode. cbn [i_addrs]. destruct (Z.eqb_spec k 0) as [->|Hne]; [reflexivity|]. destruct (Z.to_nat k) as [|j] eqn:E; [lia|].
  cbn [lookup list_lookup]. change (default 0 (replicate 12 0 !! j) = 0). destruct (replicate 12 0 !! j) eqn:E'; [|done]. by apply lookup_replicate in E' as [-> _].
Qed.

Lemma small_file_ok : file_ok small_V small_sb 34 (i_addrs small_inode).
Proof.
  split; [done|..].
  - intros k Hk. rewrite small_loc by lia. destruct (Z.eqb_spec k 0); [|done]. intros _. split; [cbn; lia|reflexivity].
  - intros k j Hk Hj. rewrite !small_loc by lia. destruct (Z.eqb_spec k 0), (Z.eqb_spec j 0); done || lia.
Qed.

Lemma small_whole : whole small_V small_inode.
Proof.
  split; [vm_compute; split; discriminate|]. intros o Ho. change (i_size small_inode) with 5 in Ho. rewrite Z.div_small by (change BSIZE with 1024; lia). rewrite small_loc by done. done.
Qed.

Lemma solo_alone m root tf : alone 0 (k_pt (solo_at m root tf)).
Proof. apply (alone_only 0 (solo_proc root tf)); [|done..]. apply elem_of_seq. unfold NPROC. lia. Qed.

Lemma small_fstate m root tf : hart_ok (hart_of (solo_at m root tf)) -> plocks_free (solo_at m root tf) ->
  exists bc, forall fi, (fi < 3)%nat -> fstate 0 1 2 small_sb 34 (small_on bc (solo_at m root tf)) small_V fi 0.
Proof.
  intros H1 H2. destruct (binit_cache (solo_at m root tf)) as (s' & _ & [bc ->] & Hc); [intros b; by split_and!|]. exists bc. intros fi Hfi.
  set (s := small_on bc (solo_at m root tf)). assert (cache 0 1 s small_V (fun _ => 0) ∅) as Hca by (apply (Hc s 0%nat 1); [reflexivity|split_and!; [done|done|done|done|apply solo_alone|by apply idle_vd_ok]|lia]).
  assert (geti s 0 = small_inode) as Ei by reflexivity.
  assert (exists off, getf s fi = small_file off /\ 0 <= off <= 5) as (off & Ef & Ho) by (destruct fi as [|[|[|]]]; [exists 5|exists 5|exists 0|lia]; (split; [reflexivity|lia])).
  split; rewrite ?Ei, ?Ef; try done.
  - split; try done. apply log2_names.
  - apply small_fs_ok.
  - apply small_file_ok.
  - split; [|unfold in_log; change LOGSIZE with 30; change (iblock small_sb (i_inum small_inode)) with 32; lia]. split; [vm_compute; split; congruence|].
    intros c Hc'. by rewrite small_bblock.
Qed.

Record small_run (s : kst) (l : list Z) (sh : shape) (U : gmap Z Z) (F : list Z) (p : Z) : Prop := {
  sr_state : forall fi, (fi < 3)%nat -> fstate 0 1 2 small_sb 34 s small_V fi 0;
  sr_space : uspace (k_m s) l sh U F;
  sr_high : high_ok U;
  sr_root : p_pagetable (getp s 0) = sh_root sh;
  sr_page : upage U 0 = Some p;
  sr_files : getf s 0 = small_file 5 /\ getf s 1 = small_file 5 /\ getf s 2 = small_file 0;
  sr_inode : geti s 0 = small_inode;
  sr_disk : k_dk s = small_disk }.

Lemma small_run_at m root tf l sh U F : fork_ready (solo_at m root tf) l 0 0 sh U F -> is_Some (upage U 0) -> exists s p, small_run s l sh U F p.
Proof.
  intros [H1 H2 _ H3 _ [Hroot [Hu Ht] _ Hok _] _ _ _] [p Hp]. destruct (small_fstate m root tf) as [bc Hf]; [done|done|].
  exists (small_on bc (solo_at m root tf)), p. split; try done. eapply top_high; [exact Ht|by apply page_ok_56].
Qed.

Lemma small_machine : exists s l sh U F p, small_run s l sh U F p.
Proof.
  destruct solo_ready as (l & sh & U & F & Hr & _ & HF). destruct (small_run_at _ _ _ l sh U F Hr HF) as (s & p & H). by exists s, l, sh, U, F, p.
Qed.

(** The bytes the process has at [addr]. *)
Definition own_bytes (s : kst) (p addr n : Z) : list Z := (fun j => rd (m_mem (k_m s)) (p + (addr + j))) <$> seqZ 0 n.

Lemma small_user s l sh U F p addr n : small_run s l sh U F p -> 0 <= addr -> 0 <= n -> addr + n <= 4096 ->
  user_bytes 0 s l sh U F addr (own_bytes s p addr n) /\ Z.of_nat (length (own_bytes s p addr n)) = n /\
  forall va, addr <= va < addr + n -> uread (m_mem (k_m s)) U va <> None.
Proof.
  intros [] Ha Hn Hb. assert (forall va, 0 <= va < 4096 -> uread (m_mem (k_m s)) U va = Some (rd (m_mem (k_m s)) (p + va))) as Hr.
  { intros va Hva. unfold uread. change PGSIZE with 4096. rewrite Z.div_small, Z.mod_small, sr_page0 by lia. done. }
  assert (length (own_bytes s p addr n) = Z.to_nat n) as Hl by (unfold own_bytes; by rewrite length_fmap, length_seqZ).
  split_and!; [split; try done|lia|intros va Hva; by rewrite Hr by lia].
  - rewrite Hl. lia.
  - intros j b Hj. pose proof (lookup_lt_Some _ _ _ Hj). rewrite Hr by lia. unfold own_bytes in Hj. rewrite list_lookup_fmap, lookup_seqZ_lt in Hj by lia. done.
Qed.

Lemma filewrite_crash_safe_witness :
  exists s s' bs, filewrite 0 16 3 s = Ok 3 s' /\ length bs = 3%nat /\ k_dk s = small_disk /\
    forall ws t, ws `prefix_of` d_writes (k_dk s') -> k_dk t = puts ws small_disk -> rebooted 0 1 2 t ->
      exists t' C addrs', recover_from_log t = Ok tt t' /\ (forall b, ~ in_log 2 b -> dblock (k_dk t') b = C b) /\
        (written 2 small_sb 34 small_V small_inode 5 bs C addrs' \/ written 2 small_sb 34 small_V small_inode 5 [] C addrs').
Proof.
  destruct small_machine as (s & l & sh & U & F & p & Hr). destruct (small_user s l sh U F p 16 3 Hr) as (Hub & Hl & _); [lia|lia|lia|].
  pose proof Hr as [Hs _ _ _ _ (Hf & _) Hi Hd]. set (bs := own_bytes s p 16 3) in *.
  destruct (filewrite_crash_safe 0 1 2 small_sb 34 s small_V 0 0 l sh U F 16 bs small_apart (Hs 0%nat ltac:(lia))) as (s' & V' & E & _ & _ & _ & _ & Hcut);
    rewrite ?Hf, ?Hl; try done.
  { vm_compute. lia. }
  rewrite Hl in E. exists s, s', bs. split_and!; [exact E|lia|exact Hd|]. intros ws t Hp Ht Hb. rewrite Hd, Hf, Hi in Hcut.
  destruct (Hcut ws 0%nat t Hp) as (t' & m & C & a & Ht' & HC & Hm & Hw); [rewrite Ht; constructor|exact Hb|]. exists t', C, a. split_and!; [exact Ht'|exact HC|].
  destruct Hm as [->|[Hm Hdv]]; [left; by rewrite firstn_all in Hw|right]. assert (m = 0)%nat as -> by (destruct Hdv as [k Hk]; lia). exact Hw.
Defined.

Lemma fileread_correct_witness :
  exists s U s', fileread 2 16 100 s = Ok 5 s' /\ k_dk s = small_disk /\ uread (m_mem (k_m s')) U <$> seqZ 16 5 = Some <$> [104; 101; 108; 108; 111].
Proof.
  destruct small_machine as (s & l & sh & U & F & p & Hr). destruct (small_user s l sh U F p 16 0 Hr) as (Hub & _); [lia|lia|lia|].
  destruct (small_user s l sh U F p 16 100 Hr) as (_ & _ & Hmap); [lia|lia|lia|]. pose proof Hr as [Hs _ _ _ _ (_ & _ & Hf) Hi Hd].
  destruct (fileread_correct 0 1 2 small_sb 34 s small_V 2 0 l sh U F 16 100 (Hs 2%nat ltac:(lia))) as (s' & E & _ & _ & _ & _ & _ & Hm); rewrite ?Hf, ?Hi; try done.
  { apply small_whole. }
  rewrite Hf, Hi in E, Hm. change (100 `min` (i_size small_inode - f_off (small_file 0))) with 5 in E, Hm.
  exists s, U, s'. split_and!; [exact E|exact Hd|]. change (seqZ 16 5) with [16; 17; 18; 19; 20]. cbn [fmap list_fmap]. rewrite !Hm. vm_compute. reflexivity.
Defined.

Lemma write_read_roundtrip_witness :
  exists s s1 s2 U, filewrite 0 16 3 s = Ok 3 s1 /\ fileread 1 100 3 s1 = Ok 3 s2 /\ uread (m_mem (k_m s2)) U 101 = uread (m_mem (k_m s)) U 17.
Proof.
  destruct small_machine as (s & l & sh & U & F & p & Hr). destruct (small_user s l sh U F p 16 3 Hr) as (Hub & Hl & _); [lia|lia|lia|].
  destruct (small_user s l sh U F p 100 3 Hr) as (_ & _ & Hmap); [lia|lia|lia|]. pose proof Hr as [Hs _ _ _ _ (Hf0 & Hf1 & _) Hi Hd]. set (bs := own_bytes s p 16 3) in *.
  destruct (write_read_roundtrip 0 1 2 small_sb 34 s small_V 0 1 0 l sh U F 16 100 bs small_apart (Hs 0%nat ltac:(lia))) as (s1 & s2 & E1 & E2 & Hm);
    rewrite ?Hf0, ?Hf1, ?Hi, ?Hl; try done.
  { apply small_whole. } { vm_compute. lia. }
  rewrite Hl in E1, E2, Hm. exists s, s1, s2, U. split_and!; [exact E1|exact E2|]. rewrite Hm. change (bs !! 1%nat = uread (m_mem (k_m s)) U 17).
  destruct (lookup_lt_is_Some_2 bs 1%nat) as [b Hb]; [lia|]. rewrite Hb. symmetry. exact (ub_bytes _ _ _ _ _ _ _ _ Hub 1%nat b Hb).
Defined.

Lemma small_tx : exists s, ready 0 1 2 small_sb 34 s [] small_V 0 /\ geti s 0 = small_inode.
Proof.
  destruct small_machine as (s & l & sh & U & F & p & [Hs _ _ _ _ _ Hi _]). pose proof (Hs 0%nat ltac:(lia)) as Hfs.
  destruct (begin_op_spec 0 1 2 s small_V (fst_idle _ _ _ _ _ _ _ _ _ Hfs)) as (s3 & E3 & Hc & _ & Htx). pose proof (calm_steady 0 _ 0 0 s s3 Hc) as S.
  exists s3. rewrite (sd_ino _ _ _ _ _ _ _ S). split; [|done]. split; rewrite ?(sd_ino _ _ _ _ _ _ _ S), ?(sd_sb _ _ _ _ _ _ _ S); [done|by destruct Hfs..|].
  rewrite (cm_lg _ _ _ Hc). exact (fst_size _ _ _ _ _ _ _ _ _ Hfs).
Qed.

Lemma balloc_bfree_witness :
  exists s s1 s2, balloc 1 s = Ok 34 s1 /\ bfree 1 34 s1 = Ok tt s2 /\ bfree 1 34 s2 = Panic "freeing free block".
Proof.
  destruct small_tx as (s & Hr & _).
  destruct (balloc_bfree 0 1 2 small_sb 34 s [] small_V 34 (rd_tx _ _ _ _ _ _ _ _ _ Hr) (rd_sb _ _ _ _ _ _ _ _ _ Hr) small_fs_ok) as (s1 & _ & _ & s2 & _ & _ & E1 & _ & _ & _ & E2 & _ & _ & E3).
  - split_and!; [vm_compute; congruence|vm_compute; reflexivity|reflexivity|]. apply (fs_meta _ _ _ small_fs_ok).
  - cbn. lia.
  - apply Hr.
  - exists s, s1, s2. split_and!; [exact E1|exact E2|exact E3].
Defined.

Lemma iupdate_ilock_witness :
  exists s s1 s2 x, iupdate 0 s = Ok tt s1 /\ i_size x = 0 /\ ilock 7 (seti 7 x s1) = Ok tt s2 /\ i_size (geti s2 7) = 5.
Proof.
  destruct small_tx as (s & Hr & Hi). set (x := Inode 1 1 1 (Sleeplock 0 lock0 "inode" 0) 0 0 0 0 0 0 []).
  destruct (iupdate_ilock 0 1 2 small_sb 34 s [] small_V 0 7 x Hr) as (s1 & s2 & E1 & E2 & Eg); rewrite ?Hi; try done.
  - split; [vm_compute; split; congruence|]. intros c Hc. by rewrite small_bblock.
  - split; cbn [i_type i_major i_minor i_nlink i_size i_addrs small_inode]; [lia..|]. split; [reflexivity|]. apply Forall_cons. split; [lia|]. apply Forall_replicate. lia.
  - cbn. lia.
  - exists s, s1, s2, x. split_and!; [exact E1|reflexivity|exact E2|]. rewrite Eg, Hi. reflexivity.
Defined.
