(* ===== verification/MkfsKernel.v ===== *)
(** * The kernel on an image that mkfs built

    What the kernel's theorems assume of the disk holds of an image, so that
    they apply to it; and one thing it does not expect. *)

From S2P Require Import Prelude CString Layout Spinlock Kalloc State Vm Proc ProcMem Fork SmallMachine ProcTheorems ForkTheorems SleepLock Bio Log Fs Pipe Console File ProcSpec SleepSpec Ring CacheSpec DiskSystem CacheInit LogSpec LogOps FsTx FsMap FsFile FsInode FsRead FsCommit VmSpec AddrSpace UserMem UserCopy ObjCopy LogTheorems FsWrite FsUser FsDir FsTheorems Mkfs MkfsSpec MkfsTheorems.

(** ** An image is determined by its blocks *)

Definition agree (V V' : Z -> list Z) : Prop := forall b, 0 <= b < FSSIZE -> V' b = V b.

Lemma agree_used V V' b : agree V V' -> 0 <= b < FSSIZE -> used V' mk_sb b = used V mk_sb b.
Proof. intros Ha Hb. unfold used. rewrite mk_bblock, Ha by (done || unfold bmap_block; change FSSIZE with 1000; lia). done. Qed.

Lemma agree_window V V' inum : agree V V' -> 0 <= inum < max_inode -> dwindow V' inum = dwindow V inum.
Proof. intros Ha Hi. unfold dwindow. destruct (iblock_range inum Hi). rewrite Ha; [done|]. change FSSIZE with 1000. lia. Qed.

Lemma agree_blocks V V' addrs : agree V V' -> file_ok V mk_sb nmeta addrs -> same_blocks V V' addrs.
Proof. intros Ha Hf k Hk Hnz. destruct (fi_data _ _ _ _ Hf k Hk Hnz) as [R _]. apply Ha. change nmeta with 46 in R. change (sb_size mk_sb) with FSSIZE in R. lia. Qed.

Lemma image_inode V files i : image_ok V files -> (i <= length files)%nat -> inum_of (length files) < max_inode -> 0 <= inum_of i < max_inode /\ file_ok V mk_sb nmeta (faddrs V (inum_of i)).
Proof.
  intros H Hi Hr. split; [unfold inum_of in *; lia|]. destruct i as [|i]; [apply (im_root_data _ _ H)|].
  destruct (lookup_lt_is_Some_2 files i) as [f Hf]; [lia|]. replace (inum_of (S i)) with (2 + Z.of_nat i) by (unfold inum_of; lia). apply (so_file _ _ _ _ (im_files _ _ H i f Hf)).
Qed.

Lemma image_agree V V' files : agree V V' -> image_ok V files -> inum_of (length files) < max_inode -> image_ok V' files.
Proof.
  intros Ha H Hr. pose proof (agree_used V V') as Hu. assert (forall b, 0 <= b < FSSIZE -> used V mk_sb b = true -> used V' mk_sb b = true) as Hu' by (intros b Hb; by rewrite Hu).
  assert (0 <= ROOTINO < max_inode) as Hroot by (unfold ROOTINO, max_inode; lia). pose proof (dinode_window V V' ROOTINO (agree_window V V' ROOTINO Ha Hroot)) as Ed.
  assert (faddrs V' ROOTINO = faddrs V ROOTINO) as Ea by (unfold faddrs; by rewrite Ed). pose proof H as [H1 H2 H3 H4 H5 H6 H7 H8 H9 H10].
  assert (forall i k, (i <= length files)%nat -> loc V' (faddrs V' (inum_of i)) k = loc V (faddrs V (inum_of i)) k) as Hloc.
  { intros i k Hi. destruct (image_inode V files i H Hi Hr) as [Hin Hf]. unfold faddrs at 1. rewrite (dinode_window V V' _ (agree_window V V' _ Ha Hin)). by apply same_blocks_loc, agree_blocks. }
  split; rewrite ?Ea, ?Ed; try exact H6.
  - destruct H1 as [K1 K2 K3 K4 K5]. split; try done; intros b Hb; [rewrite Hu; [by apply K4|done|change nmeta with 46 in Hb; change FSSIZE with 1000; lia]|]. rewrite Ha by done. by apply K5.
  - by rewrite Ha.
  - intros b Hb. change (2 <= b < 32) in Hb. rewrite Ha by (change FSSIZE with 1000; lia). by apply H3.
  - intros b Hb. rewrite Hu by done. by apply H4.
  - rewrite <- H5. by apply agree_window.
  - apply (placed_kept V); [done|by apply agree_blocks; [|apply H7]|done].
  - intros i f Hi. pose proof (lookup_lt_Some _ _ _ Hi). apply (stored_kept V); [by apply H8|apply agree_window; [done|unfold inum_of in *; lia]|apply agree_blocks; [done|]|done].
    by apply (so_file _ _ _ _ (H8 i f Hi)).
  - intros i j k l Hi Hj. rewrite !Hloc by done. by apply H9.
  - intros inum Hi. rewrite (dinode_window V V'); [by apply H10|]. apply agree_window; [done|lia].
Qed.

(** ** The root directory of an image *)

Lemma strncpy_cname n : forall t, cname_n n (strncpy_bytes n t) = cname_n n t.
Proof.
  induction n as [|n IH]; intros t; [done|]. cbn [strncpy_bytes]. destruct t as [|c t]; cbn [hd tail]; [done|]. destruct (Z.eqb_spec c 0) as [->|Hc]; [done|]. cbn [cname_n]. by rewrite (proj2 (Z.eqb_neq c 0)), IH.
Qed.

Lemma dirent_of_entry m name : 0 <= m < 65536 -> dirent_of (entry m name) = Dirent m (strncpy_bytes 14 name).
Proof.
  intros Hm. unfold dirent_of, entry, dirent_bytes, peek. cbn [de_inum de_name]. change (Z.to_nat DIRSIZ) with 14%nat. change (Z.to_nat 0) with 0%nat. rewrite drop_0, take_app_length' by (by rewrite length_le_bytes).
  rewrite drop_app_length' by (by rewrite length_le_bytes). rewrite le_val_bytes, take_ge by (by rewrite length_strncpy). unfold u16. change (256 ^ Z.of_nat 2) with 65536. by rewrite Zmod_mod, Z.mod_small.
Qed.

(** The entries of the root directory, one after the other. *)
Fixpoint entry_list (inum : Z) (files : list input) : list (list Z) :=
  match files with
  | [] => []
  | f :: files' => entry inum (plain (shortname (in_name f))) :: entry_list (inum + 1) files'
  end.
Definition root_list (files : list input) : list (list Z) := entry 1 (str ".") :: entry 1 (str "..") :: entry_list 2 files.

Lemma root_list_concat files : concat (root_list files) = root_data files.
Proof.
  unfold root_list, root_data. cbn [concat]. do 2 f_equal. generalize 2. induction files as [|f files IH]; intros n; [done|]. cbn [entry_list entries concat]. by rewrite IH.
Qed.

Lemma entry_list_lookup files : forall inum j, entry_list inum files !! j = (fun f => entry (inum + Z.of_nat j) (plain (shortname (in_name f)))) <$> files !! j.
Proof. induction files as [|f files IH]; intros inum [|j]; [done|done|cbn; by rewrite Z.add_0_r|]. cbn [entry_list lookup list_lookup]. rewrite IH. by replace (inum + Z.of_nat (S j)) with (inum + 1 + Z.of_nat j) by lia. Qed.

Lemma root_list_16 files : Forall (fun e => length e = 16%nat) (root_list files).
Proof.
  do 2 (apply Forall_cons; split; [apply length_entry|]). generalize 2. induction files as [|f files IH]; intros n; [done|]. apply Forall_cons. split; [apply length_entry|apply IH].
Qed.

(** Sixteen bytes at a multiple of sixteen, in a sequence of such pieces. *)
Lemma concat_16 l : Forall (fun e => length e = 16%nat) l -> forall j, byte_at (concat l) <$> seqZ (16 * Z.of_nat j) 16 = default (replicate 16 0) (l !! j).
Proof.
  induction 1 as [|e l He Hl IH]; intros j.
  { rewrite lookup_nil. change (default (replicate 16 0) None) with (replicate 16 0). apply list_eq. intros x. rewrite list_lookup_fmap. destruct (decide (x < 16)%nat) as [Hx|Hx].
    - by rewrite lookup_seqZ_lt, lookup_replicate_2 by lia.
    - by rewrite lookup_seqZ_ge, lookup_ge_None_2 by (rewrite ?length_replicate; lia). }
  destruct j as [|j]; cbn [lookup list_lookup concat].
  - change (default (replicate 16 0) (Some e)) with e. apply list_eq. intros x. rewrite list_lookup_fmap. destruct (decide (x < 16)%nat) as [Hx|Hx].
    + rewrite lookup_seqZ_lt by lia. cbn. unfold byte_at. rewrite lookup_app_l by lia. replace (Z.to_nat (16 * Z.of_nat 0 + Z.of_nat x)) with x by lia. destruct (lookup_lt_is_Some_2 e x) as [y Hy]; [lia|]. by rewrite Hy.
    + rewrite lookup_seqZ_ge by lia. symmetry. apply lookup_ge_None_2. lia.
  - rewrite <- IH. apply list_eq. intros x. rewrite !list_lookup_fmap. destruct (decide (x < 16)%nat) as [Hx|Hx]; [|by rewrite !lookup_seqZ_ge by lia].
    rewrite !lookup_seqZ_lt by lia. cbn. f_equal. unfold byte_at. rewrite lookup_app_r by lia. do 2 f_equal. lia.
Qed.

(** ** Searching a directory *)

Lemma find_from_hit V addrs e m k : forall idx off, (idx < k)%nat -> (forall j, (j < idx)%nat -> let de := entry_at V addrs (off + 16 * Z.of_nat j) in de_inum de = 0 \/ cname (de_name de) <> e) ->
  let de := entry_at V addrs (off + 16 * Z.of_nat idx) in de_inum de = m -> m <> 0 -> cname (de_name de) = e -> find_from V addrs e off k = Some (m, off + 16 * Z.of_nat idx).
Proof.
  induction k as [|k IH]; intros idx off Hk Hno; cbv zeta; intros Hm Hm0 He; [lia|]. cbn [find_from]. destruct idx as [|idx].
  - rewrite Z.add_0_r in *. by rewrite Hm, (proj2 (Z.eqb_neq m 0)), bool_decide_true.
  - specialize (Hno 0%nat) as H0. rewrite Z.add_0_r in H0. destruct (negb (de_inum (entry_at V addrs off) =? 0) && bool_decide (cname (de_name (entry_at V addrs off)) = e)) eqn:E.
    { apply andb_true_iff in E as [E1 E2]. apply bool_decide_eq_true in E2. destruct (H0 ltac:(lia)) as [H|H]; [rewrite H in E1; done|done]. }
    replace (off + 16 * Z.of_nat (S idx)) with (off + 16 + 16 * Z.of_nat idx) in * by lia. apply (IH idx (off + 16)); [lia| |exact Hm|exact Hm0|exact He]. intros j Hj. replace (off + 16 + 16 * Z.of_nat j) with (off + 16 * Z.of_nat (S j)) by lia. apply Hno. lia.
Qed.

Lemma find_from_inv V addrs e m o k : forall off, find_from V addrs e off k = Some (m, o) -> m <> 0 /\ exists j, (j < k)%nat /\ o = off + 16 * Z.of_nat j /\ m = de_inum (entry_at V addrs o).
Proof.
  induction k as [|k IH]; intros off H; [done|]. cbn [find_from] in H. destruct (negb (de_inum (entry_at V addrs off) =? 0) && bool_decide (cname (de_name (entry_at V addrs off)) = e)) eqn:E.
  - injection H as <- <-. apply andb_true_iff in E as [E _]. apply negb_true_iff, Z.eqb_neq in E. split; [done|]. exists 0%nat. rewrite Z.add_0_r. split_and!; [lia|done|done].
  - destruct (IH _ H) as (H1 & j & H2 & H3 & H4). split; [done|]. exists (S j). split_and!; [lia|lia|done].
Qed.

(** ** The tree of an image *)

(** The entry at index [j] of the root directory. *)
Lemma root_entry V files j : image_ok V files -> 16 * (Z.of_nat j + 1) <= maxbytes ->
  entry_at V (faddrs V ROOTINO) (16 * Z.of_nat j) = dirent_of (default (replicate 16 0) (root_list files !! j)).
Proof.
  intros Hok Hj. unfold entry_at. f_equal. rewrite <- (concat_16 (root_list files) (root_list_16 files)), root_list_concat. unfold fbytes. apply list_fmap_ext. intros x o Ho. apply lookup_seqZ in Ho as [-> Hx].
  apply (pl_data _ _ _ (im_root_data _ _ Hok)). lia.
Qed.

(** The entries of the files. *)
Lemma root_entry_file V files k f : image_ok V files -> inum_of (length files) < max_inode -> files !! k = Some f ->
  entry_at V (faddrs V ROOTINO) (16 * Z.of_nat (2 + k)) = Dirent (2 + Z.of_nat k) (strncpy_bytes 14 (plain (shortname (in_name f)))).
Proof.
  intros Hok Hr Hf. pose proof (lookup_lt_Some _ _ _ Hf). unfold inum_of, max_inode in Hr. rewrite (root_entry V files) by (done || change maxbytes with 274432; lia).
  change (root_list files !! (2 + k)%nat) with (entry_list 2 files !! k). rewrite entry_list_lookup, Hf. apply dirent_of_entry. lia.
Qed.

(** The inodes of an image are in use, and the entries lead to them. *)
Lemma image_tree V files : image_ok V files -> inum_of (length files) < max_inode -> size_of (root_data files) mod BSIZE <> 0 -> tree_ok mk_sb nmeta V (fun n => 1 <= n < 2 + Z.of_nat (length files)).
Proof.
  intros Hok Hr Hmod. assert (forall n, 1 <= n < 2 + Z.of_nat (length files) -> n = ROOTINO \/ exists f, stored V n T_FILE (in_data f)) as Hin.
  { intros n Hn. destruct (decide (n = 1)); [by left|right]. destruct (lookup_lt_is_Some_2 files (Z.to_nat (n - 2))) as [f Hf]; [lia|]. exists f. pose proof (im_files _ _ Hok _ f Hf) as Hs. by replace (2 + Z.of_nat (Z.to_nat (n - 2))) with n in Hs by lia. }
  pose proof (size_root files) as Hsz. pose proof Hr as Hr'. unfold inum_of, max_inode in Hr'. pose proof (im_root _ _ Hok) as Er. split.
  - intros n Hn. destruct (iblock_range n) as [_ R]; [unfold max_inode; lia|]. change (0 <= iblock mk_sb n < nmeta). change nmeta with 46. lia.
  - intros n Hn. change (dino mk_sb V n) with (dinode_at V n). destruct (Hin n Hn) as [->|[f Hs]]; [by rewrite Er|by rewrite (so_inode _ _ _ _ Hs)].
  - intros n Hn. change (dino mk_sb V n) with (dinode_at V n). destruct (Hin n Hn) as [->|[f Hs]]; [|by rewrite (so_inode _ _ _ _ Hs)]. intros _. split; [apply (im_root_data _ _ Hok)|].
    assert (i_size (dinode_at V ROOTINO) = root_size files) as -> by (by rewrite Er). unfold root_size. change BSIZE with 1024 in *. split; [|zlia]. unfold whole.
    assert (i_size (dinode_at V ROOTINO) = root_size files) as -> by (by rewrite Er). unfold root_size. change maxbytes with 274432. change BSIZE with 1024. split; [zlia|]. intros o Ho.
    destruct (pl_laid _ _ _ (im_root_data _ _ Hok)) as [L _]. change (i_addrs (dinode_at V ROOTINO)) with (faddrs V ROOTINO). rewrite L by (change MAXFILE with 268; zlia). change BSIZE with 1024. zlia.
  - intros n name m off Hn Hty Hfind. destruct (Hin n Hn) as [->|[f Hs]]; [|change (dino mk_sb V n) with (dinode_at V n) in Hty; by rewrite (so_inode _ _ _ _ Hs) in Hty].
    unfold dir_find in Hfind. change (dino mk_sb V ROOTINO) with (dinode_at V ROOTINO) in Hfind. apply find_from_inv in Hfind as (Hm0 & j & Hj & -> & ->). rewrite Er in Hj. cbn [i_size file_inode] in Hj. unfold root_size in Hj. change BSIZE with 1024 in Hj.
    change (i_addrs (dinode_at V ROOTINO)) with (faddrs V ROOTINO) in *. rewrite Z.add_0_l in *. rewrite (root_entry V files) in * by (done || change maxbytes with 274432; zlia).
    destruct j as [|[|j]]; [change (1 <= 1 < 2 + Z.of_nat (length files)); lia..|]. change (root_list files !! S (S j)) with (entry_list 2 files !! j) in *. rewrite entry_list_lookup in *.
    destruct (files !! j) as [f|] eqn:Ef; [|by destruct Hm0]. pose proof (lookup_lt_Some _ _ _ Ef). clear Hm0.
    change (1 <= de_inum (dirent_of (entry (2 + Z.of_nat j) (plain (shortname (in_name f))))) < 2 + Z.of_nat (length files)). rewrite dirent_of_entry by lia. cbn [de_inum]. lia.
Qed.

(** A name leads to the first file that has it. *)
Lemma image_lookup V files k f name : image_ok V files -> inum_of (length files) < max_inode -> files !! k = Some f -> name = cname (plain (shortname (in_name f))) -> name <> str "." -> name <> str ".." ->
  (forall j g, (j < k)%nat -> files !! j = Some g -> cname (plain (shortname (in_name g))) <> name) -> resolve mk_sb V false ROOTINO [name] = Some (2 + Z.of_nat k).
Proof.
  intros Hok Hr Hf Hname Hd1 Hd2 Hfirst. pose proof (lookup_lt_Some _ _ _ Hf) as Hlt. pose proof (size_root files) as Hsz. pose proof (im_root _ _ Hok) as Er. pose proof Hr as Hr'. unfold inum_of, max_inode in Hr'.
  cbn [resolve andb]. unfold dir_find. change (dino mk_sb V ROOTINO) with (dinode_at V ROOTINO). assert (i_type (dinode_at V ROOTINO) = T_DIR) as -> by (by rewrite Er). rewrite Z.eqb_refl.
  assert (i_size (dinode_at V ROOTINO) = root_size files) as -> by (by rewrite Er). change (i_addrs (dinode_at V ROOTINO)) with (faddrs V ROOTINO). pose proof (root_entry_file V files k f Hok Hr Hf) as Ek.
  rewrite (find_from_hit V (faddrs V ROOTINO) name (2 + Z.of_nat k) _ (2 + k) 0); [done|unfold root_size; change BSIZE with 1024; zlia| |rewrite Z.add_0_l, Ek; done|lia|rewrite Z.add_0_l, Ek; cbn [de_name]; rewrite Hname; apply strncpy_cname].
  intros j Hj. rewrite Z.add_0_l. right. destruct j as [|[|j]].
  - rewrite (root_entry V files 0 Hok) by (vm_compute; congruence). exact (fun H => Hd1 (eq_sym H)).
  - rewrite (root_entry V files 1 Hok) by (vm_compute; congruence). exact (fun H => Hd2 (eq_sym H)).
  - destruct (lookup_lt_is_Some_2 files j) as [g Hg]; [lia|]. change (S (S j)) with (2 + j)%nat. rewrite (root_entry_file V files j g Hok Hr Hg). cbn [de_name]. unfold cname. rewrite strncpy_cname. apply (Hfirst j g); [lia|done].
Qed.

(** ** Open files on the image *)

Section Kernel.
Context `{HI : KernelImage} `{HOk : !ImageOk} `{HW : Hardware} `{HL : !HardwareLaws}.
#[local] Existing Instance system | 0.
#[local] Existing Instance virtio | 0.
Context (i : nat) (d : Z).

(** A kernel that booted from the disk, its log empty and no transaction open,
    with the open file [fi] of inode [inum], which ilock has loaded. *)
Record opened (s : kst) (fi ip : nat) (inum : Z) : Prop := {
  op_idle : log_idle i d 2 s (dblock (k_dk s));
  op_sb : k_sb s = superblock_of (dblock (k_dk s) 1);
  op_size : 30 <= lg_size (k_lg s);
  op_dev : i_dev (geti s ip) = d;
  op_inum : i_inum (geti s ip) = inum;
  op_loaded : load_dinode (dblock (k_dk s) (iblock (k_sb s) inum)) (ioffset inum) (geti s ip) = geti s ip;
  op_lock : lock_free (sl_lk (i_lock (geti s ip))) /\ sl_locked (i_lock (geti s ip)) = 0;
  op_ref : 1 <= i_ref (geti s ip) /\ i_valid (geti s ip) <> 0;
  op_ip : f_ip (getf s fi) = Some ip;
  op_off : 0 <= f_off (getf s fi) <= i_size (geti s ip) }.

(** The disk of [s] holds the image. *)
Definition boots (m : mkst) (s : kst) : Prop := forall b, 0 <= b < FSSIZE -> img m !! b = Some (dblock (k_dk s) b).

Lemma booted_image files m s : fits files = true -> mkfs files mkfs_start = Ok tt m -> boots m s -> image_ok (dblock (k_dk s)) files /\ inum_of (length files) < max_inode.
Proof.
  intros Hfits E Hb. assert (inum_of (length files) < max_inode) as Hr.
  { unfold fits in Hfits. rewrite !andb_true_iff in Hfits. destruct Hfits as [[[_ Hr] _] _]. apply Z.leb_le in Hr. rewrite length_image in Hr. change NINODES with 200 in Hr. unfold inum_of, max_inode in *. lia. }
  split; [|done]. destruct (mkfs_spec files Hfits) as (m' & V & E' & Himg & Hok). rewrite E in E'. injection E' as <-.
  apply (image_agree V); [|done|done]. intros b Hin. specialize (Hb b Hin). rewrite (Himg b Hin) in Hb. congruence.
Qed.

Lemma opened_fstate files s fi ip k : image_ok (dblock (k_dk s)) files -> inum_of (length files) < max_inode -> (k <= length files)%nat -> opened s fi ip (inum_of k) ->
  fstate i d 2 mk_sb nmeta s (dblock (k_dk s)) fi ip /\ i_size (geti s ip) = i_size (dinode_at (dblock (k_dk s)) (inum_of k)) /\
  i_addrs (geti s ip) = faddrs (dblock (k_dk s)) (inum_of k).
Proof.
  intros Hok Hr Hk [H1 H2 H3 H4 H5 H6 H7 H8 H9 H10]. set (V := dblock (k_dk s)) in *. assert (k_sb s = mk_sb) as Hsb by (rewrite H2; apply Hok).
  destruct (image_inode V files k Hok Hk Hr) as [Hin Hf]. rewrite Hsb in H6.
  assert (i_size (geti s ip) = i_size (dinode_at V (inum_of k)) /\ i_addrs (geti s ip) = faddrs V (inum_of k)) as [E1 E2] by (rewrite <- H6; done).
  split; [|done]. split; rewrite ?E2; try done.
  - change (dblock (k_dk s) 2) with (V 2). rewrite (im_log _ _ Hok) by (change nlog with 30; lia). reflexivity.
  - apply Hok.
  - unfold on_disk. rewrite H5. change (dwindow V (inum_of k) = dinode_bytes (geti s ip)). rewrite <- H6. destruct k as [|k]; [apply (im_root_bytes _ _ Hok)|].
    destruct (lookup_lt_is_Some_2 files k) as [f Hfk]; [lia|]. pose proof (im_files _ _ Hok k f Hfk) as Hs. replace (2 + Z.of_nat k) with (inum_of (S k)) in Hs by (unfold inum_of; lia). apply (so_bytes _ _ _ _ Hs).
  - rewrite H5. split; [by apply inode_home_range|]. destruct (iblock_range _ Hin). unfold in_log. change LOGSIZE with 30. lia.
Qed.

(** A file of the image has no holes. *)
Lemma stored_whole V inum t dt ino : stored V inum t dt -> i_size ino = size_of dt -> i_addrs ino = faddrs V inum -> whole V ino.
Proof.
  intros [_ _ _ [_ [L1 _] _] Hm] E1 E2. unfold whole. rewrite E1, E2. pose proof (size_of_pos dt). split; [done|]. intros o Ho.
  change maxbytes with 274432 in Hm. rewrite L1 by (change MAXFILE with 268; change BSIZE with 1024; zlia). change BSIZE with 1024. zlia.
Qed.

(** C14: the kernel reads what mkfs was given.  When the disk holds the image
    that mkfs built from [files], the super block is the one on the disk and
    the inode in memory is the one of file [k] as ilock loads it, the disk, the
    inode and the open file meet what the theorems on reading and writing files
    ask for; and read() of up to [n] bytes at the offset of the open file puts
    the bytes of the input file from there on into the user's memory, and
    nothing else. *)
Theorem mkfs_fileread files m s fi ip k f l sh U F addr n : fits files = true -> mkfs files mkfs_start = Ok tt m -> boots m s -> files !! k = Some f ->
  opened s fi ip (2 + Z.of_nat k) -> f_type (getf s fi) = FD_INODE -> f_readable (getf s fi) <> 0 ->
  user_bytes i s l sh U F addr [] -> addr < 2 ^ 64 -> addr + n <= 2 ^ 64 -> 0 <= n < 2 ^ 31 ->
  (forall va, addr <= va < addr + n -> uread (m_mem (k_m s)) U va <> None) ->
  let off := f_off (getf s fi) in let r := Z.min n (size_of (in_data f) - off) in
  fstate i d 2 mk_sb nmeta s (dblock (k_dk s)) fi ip /\ whole (dblock (k_dk s)) (geti s ip) /\
  exists s', fileread fi addr n s = Ok r s' /\ f_off (getf s' fi) = off + r /\ k_dk s' = k_dk s /\
    forall va, uread (m_mem (k_m s')) U va =
      if (addr <=? va) && (va <? addr + r) then Some (u8 (byte_at (in_data f) (off + (va - addr)))) else uread (m_mem (k_m s)) U va.
Proof.
  intros Hfits Hm Hb Hf Hop Hty Hrd [U1 U2 U3 [U4 _] _] Ha Hend Hn Hmap off r. destruct (booted_image files m s Hfits Hm Hb) as [Hok Hr]. clear Hfits Hm. pose proof (lookup_lt_Some _ _ _ Hf) as Hlt.
  pose proof (im_files _ _ Hok k f Hf) as Hs. assert (2 + Z.of_nat k = inum_of (S k)) as Ek by (unfold inum_of; lia). rewrite Ek in *.
  destruct (opened_fstate files s fi ip (S k) Hok Hr Hlt Hop) as (Fs & E1 & E2). rewrite (stored_size _ _ _ _ Hs) in E1. pose proof (stored_whole _ _ _ _ _ Hs E1 E2) as Hwh.
  destruct (fileread_spec i d 2 mk_sb nmeta s _ fi ip l sh U F addr n Fs Hty Hrd U1 U2 U3 (conj U4 Ha) Hend Hn Hmap Hwh) as (s' & lk & E & _ & S & Hd & _ & Hrec).
  rewrite E1 in E, S, Hrec. fold off r in E, S, Hrec. split_and!; [done|done|]. exists s'. rewrite (sd_file _ _ _ _ _ _ _ S). split; [exact E|]. split; [reflexivity|]. split; [exact Hd|].
  assert (0 <= off /\ off + r <= maxbytes) as [Ho Hmx]. { pose proof (fst_off _ _ _ _ _ _ _ _ _ Fs) as Ho. fold off in Ho. pose proof (so_max _ _ _ _ Hs). unfold r. lia. }
  assert (0 <= r) as Hr0 by (unfold r; pose proof (fst_off _ _ _ _ _ _ _ _ _ Fs) as Ho'; fold off in Ho'; lia). intros va. rewrite Hrec. unfold fbytes. rewrite length_fmap, length_seqZ, Z2Nat.id by lia.
  destruct (Z.leb_spec addr va), (Z.ltb_spec va (addr + r)); cbn [andb]; try done. do 2 f_equal.
  rewrite list_lookup_total_alt, list_lookup_fmap, lookup_seqZ_lt by lia. cbn. rewrite E2, (pl_data _ _ _ (so_placed _ _ _ _ Hs)) by lia. f_equal. lia.
Qed.

(** The names of the files have no slash. *)
Lemma fits_name files k f : fits files = true -> files !! k = Some f -> slash ∉ plain (shortname (in_name f)).
Proof.
  intros Hfits Hf. unfold fits in Hfits. rewrite !andb_true_iff in Hfits. destruct Hfits as [[[Hok _] _] _]. rewrite forallb_forall in Hok. specialize (Hok f). rewrite <- list_elem_of_In in Hok.
  specialize (Hok (list_elem_of_lookup_2 _ _ _ Hf)). apply andb_true_iff in Hok as [Hok _]. apply negb_true_iff, bool_decide_eq_false in Hok.
  unfold plain. destruct (hd 0 (shortname (in_name f)) =? underscore); [|done]. intros Hin. apply Hok. destruct (shortname (in_name f)); [done|by right].
Qed.

(** C16: the kernel finds the files of mkfs by their names.  When the disk holds
    the image that mkfs built, and the entries of its root directory do not exactly
    fill their blocks, namei of a slash and the name of an input file (without
    user/ and a leading underscore), in a transaction, returns the cache entry
    of the inode that has the bytes of the file, with one reference more, if the
    name is not . or .. and no earlier file has the same first 14 bytes in its
    name. *)
Theorem mkfs_namei files m s refs k f : fits files = true -> mkfs files mkfs_start = Ok tt m -> boots m s -> size_of (root_data files) mod BSIZE <> 0 -> files !! k = Some f ->
  let name := plain (shortname (in_name f)) in let V := dblock (k_dk s) in name <> [] -> 0 ∉ name -> cname name <> str "." -> cname name <> str ".." ->
  (forall j g, (j < k)%nat -> files !! j = Some g -> cname (plain (shortname (in_name g))) <> cname name) ->
  in_tx i d 2 s [] V ∅ -> k_sb s = superblock_of (V 1) -> icache_ok i d mk_sb s V refs None -> room refs -> d = ROOTDEV ->
  exists j s', namei (slash :: name) s = Ok (Some j) s' /\ j ∈ inodes /\ i_dev (geti s' j) = d /\ i_inum (geti s' j) = 2 + Z.of_nat k /\ stored V (2 + Z.of_nat k) T_FILE (in_data f) /\
    in_tx i d 2 s' [] V ∅ /\ icache_ok i d mk_sb s' V (bump refs j 1) None /\ kept i refs s s'.
Proof.
  intros Hfits Hm Hb Hmod Hf name V Hne Hz Hd1 Hd2 Hfirst Htx Hsb Hic Hroom Hd. pose proof (fits_name files k f Hfits Hf) as Hsl. destruct (booted_image files m s Hfits Hm Hb) as [Hok Hr]. clear Hfits Hm. fold V in Hok. fold name in Hsl.
  rewrite (im_sb _ _ Hok) in Hsb. pose proof (image_tree V files Hok Hr Hmod) as HT. pose proof (lookup_lt_Some _ _ _ Hf) as Hlt.
  destruct (namex_spec i d 2 mk_sb nmeta [] ltac:(cbn; lia) V _ (im_fs _ _ Hok) HT s refs (slash :: name) false Htx Hsb Hic Hroom Hd) as (r & nm & s' & E & Htx' & Hk & H).
  { apply not_elem_of_cons. split; [by unfold slash|done]. } { change (start i s (slash :: name)) with ROOTINO. unfold ROOTINO. lia. } { intros H. by destruct H. }
  change (start i s (slash :: name)) with ROOTINO in H. rewrite (elems_name name Hsl Hne) in H. rewrite <- (cname_n_nonul 14 name Hz) in H. fold (cname name) in H. rewrite (image_lookup V files k f (cname name)) in H by done.
  destruct H as (j & -> & Hj & D & N & Hic' & _). exists j, s'. unfold namei. rewrite (bind_Ok _ _ _ _ _ E). split_and!; try done. by apply (im_files _ _ Hok).
Qed.

(** ** A hole in the root directory *)

(** balloc outside of a transaction. *)
Lemma balloc_outside s V sb nb : idle_view i d s V None -> k_sb s = sb -> sb_size sb <= BPB -> blockno_ok (BBLOCK 0 sb) -> first_free V sb nb -> lg_outstanding (k_lg s) = 0 -> lh_n (lg_lh (k_lg s)) = 0 -> 30 <= lg_size (k_lg s) ->
  balloc d s = Panic "log_write outside of trans".
Proof.
  intros Hv Hsb Hsz Hno (Hnb & Hu & _) Ho Hn Hl. unfold balloc. rewrite bind_gets, Hsb. set (fuel := Z.to_nat (sb_size sb / BPB + 2)). assert (fuel <> 0%nat) as Hf by (unfold fuel; change BPB with 8192; zlia).
  destruct fuel as [|fuel]; [done|]. cbn [balloc_loop]. rewrite bind_gets, Hsb, (proj2 (Z.ltb_lt 0 _)) by lia. cbn [negb].
  destruct (br_bread (BlockReader := idle_reader i d) s V (BBLOCK 0 sb) Hv Hno) as (bp & s1 & Hs1 & [Hc _] & Hdat & _). rewrite (bind_Ok _ _ _ _ _ Hs1), bind_gets, Hdat.
  pose proof (free_bit_spec (S (Z.to_nat BPB)) (V (BBLOCK 0 sb)) 0 0 (sb_size sb) ltac:(lia) ltac:(change BPB with 8192; lia)) as Hfb.
  change BPB with 8192 in *. assert (BBLOCK nb sb = BBLOCK 0 sb) as Eb by (unfold BBLOCK; change BPB with 8192; rewrite Z.div_small by lia; done).
  unfold used in Hu. rewrite Eb in Hu. change BPB with 8192 in Hu. rewrite Z.mod_small in Hu by lia. destruct (free_bit _ _ 0 0 (sb_size sb)) as [j|]; [|rewrite Hfb in Hu by lia; done].
  unfold updb. rewrite bind_modify. unfold log_write. set (s2 := setb bp _ s1). assert (k_lg s2 = k_lg s) as El by (change (k_lg s2) with (k_lg s1); apply Hc).
  unfold bind, gets. rewrite El, Hn, Ho. change LOGSIZE with 30. rewrite (proj2 (Z.leb_gt (lg_size (k_lg s) - 1) 0)) by lia. done.
Qed.

(** readi at a direct block that is not there. *)
Lemma readi_hole s V sb ip dst off n nb : idle_view i d s V None -> k_sb s = sb -> sb_size sb <= BPB -> blockno_ok (BBLOCK 0 sb) -> first_free V sb nb -> lg_outstanding (k_lg s) = 0 -> lh_n (lg_lh (k_lg s)) = 0 -> 30 <= lg_size (k_lg s) ->
  i_dev (geti s ip) = d -> 0 <= off < i_size (geti s ip) -> i_size (geti s ip) < 2 ^ 31 -> 0 < n < 2 ^ 31 -> off / BSIZE < NDIRECT -> byte_at (i_addrs (geti s ip)) (off / BSIZE) = 0 ->
  readi ip dst off n s = Panic "log_write outside of trans".
Proof.
  intros Hv Hsb Hsz Hno Hff Ho Hln Hl Hdev Hoff Hi Hn Hdir H0. unfold readi. rewrite bind_gets. change (2 ^ 31) with 2147483648 in *.
  assert (u32 (off + n) = off + n) as -> by (unfold u32; apply Z.mod_small; lia). rewrite (proj2 (Z.ltb_ge (i_size (geti s ip)) off)), (proj2 (Z.ltb_ge (off + n) off)) by lia. cbn [orb].
  set (n' := if i_size (geti s ip) <? off + n then u32 (i_size (geti s ip) - off) else n). assert (0 < n') as Hn' by (unfold n'; destruct (i_size (geti s ip) <? off + n); [unfold u32; rewrite Z.mod_small; lia|lia]). clearbody n'.
  set (fuel := Z.to_nat (n' / BSIZE + 3)). assert (fuel <> 0%nat) as Hf by (unfold fuel; change BSIZE with 1024; zlia). destruct fuel as [|fuel]; [done|]. cbn [readi_loop].
  rewrite (proj2 (Z.ltb_lt 0 n')) by lia. cbn [negb]. unfold bind at 1. unfold bmap. rewrite bind_gets, Hdev, (proj2 (Z.ltb_lt _ _) Hdir). unfold addr_at. rewrite bind_gets, H0. cbn [Z.eqb].
  unfold bind. by rewrite (balloc_outside s V sb nb Hv Hsb Hsz Hno Hff Ho Hln Hl).
Qed.

Lemma root_first_free V files : image_ok V files -> nmeta + blocks_of (image_files files) < FSSIZE -> first_free V mk_sb (nmeta + blocks_of (image_files files)).
Proof.
  intros Hok Hlt. pose proof (blocks_of_pos (image_files files)) as Hp. change nmeta with 46 in *. change FSSIZE with 1000 in *.
  split_and!; [lia|change (sb_size mk_sb) with 1000; lia|rewrite (im_used _ _ Hok) by (change FSSIZE with 1000; lia); apply Z.ltb_irrefl|].
  intros j Hj. rewrite (im_used _ _ Hok) by (change FSSIZE with 1000; lia). apply Z.ltb_lt. change nmeta with 46. lia.
Qed.

(** C39: mkfs can build a root directory that the kernel cannot read to its
    end.  It rounds the directory's size up to the next block even if the
    entries fill their blocks, which they do for 62, 126 or 190 files: the size
    then covers a block that does not exist.  A read() that comes to it makes
    bmap allocate the block although no transaction is open, and the kernel
    panics. *)
Theorem root_hole_panics files m s fi ip addr n : fits files = true -> mkfs files mkfs_start = Ok tt m -> boots m s -> size_of (root_data files) mod BSIZE = 0 ->
  nmeta + blocks_of (image_files files) < FSSIZE -> opened s fi ip ROOTINO -> f_off (getf s fi) = size_of (root_data files) ->
  f_type (getf s fi) = FD_INODE -> f_readable (getf s fi) <> 0 -> 0 < n < 2 ^ 31 ->
  fileread fi addr n s = Panic "log_write outside of trans".
Proof.
  intros Hfits Hm Hb Hmod Hroom Hop Hoff Hty Hrd Hn. destruct (booted_image files m s Hfits Hm Hb) as [Hok Hr]. clear Hfits Hm. set (V := dblock (k_dk s)) in *.
  destruct (opened_fstate files s fi ip 0 Hok Hr ltac:(lia) Hop) as (Fs & E1 & E2). change (inum_of 0) with ROOTINO in *. fold V in Fs, E1, E2. rewrite (im_root _ _ Hok) in E1. cbn [i_size file_inode] in E1.
  pose proof Fs as [F1 F2 F3 F4 F5 F6 F7 F8 [F9 F10] [F11 F12] F13 F14 F15]. pose proof (li_cache _ _ _ _ _ F1) as Hc0. pose proof (size_root files) as Hsz. set (off := size_of (root_data files)) in *.
  destruct (ilock_spec i s ip (ca_ready _ _ _ _ _ _ Hc0) F9 F10 F11 F12) as (s1 & Es1 & Hc1 & Hb1 & Hd1). pose proof (calm_seti_steady i ip _ fi s s1 Hc1) as S1.
  pose proof (sd_ino _ _ _ _ _ _ _ S1) as Ei1. pose proof (sd_file _ _ _ _ _ _ _ S1) as Ef1.
  assert (cache i d s1 V (fun _ => 0) ∅) as Hca1 by (apply (cache_same i d s); [done|apply Hc1|apply Hc1|done|done]).
  assert (k_lg s1 = k_lg s) as Elg by exact (cm_lg _ _ _ Hc1). assert (k_sb s1 = mk_sb) as Esb by (rewrite <- F3; exact (cm_sb _ _ _ Hc1)).
  assert (inum_of (length files) < 208) as Hr' by exact Hr. unfold inum_of in Hr'. change BSIZE with 1024 in Hmod.
  assert (root_size files = off + 1024) as Ers by (unfold root_size; fold off; change BSIZE with 1024; zlia). assert (off / 1024 < 12 /\ off / 1024 * 1024 = off) as [Hbn Hal] by zlia.
  unfold fileread. rewrite bind_gets, (proj2 (Z.eqb_neq _ _) Hrd), Hty, F14. unfold ilockable. rewrite bind_ret, (bind_Ok _ _ _ _ _ Es1), bind_gets, Ef1, Hoff. change (2 ^ 31) with 2147483648 in Hn.
  replace (u32 n) with n by (unfold u32; rewrite Z.mod_small; lia). unfold bind.
  rewrite (readi_hole s1 V mk_sb ip (DUser addr) off n (nmeta + blocks_of (image_files files))); [done|exact Hca1|exact Esb|change BPB with 8192; change (sb_size mk_sb) with 1000; lia|done|by apply root_first_free|..];
    rewrite ?Elg, ?Ei1; cbn [i_dev i_size i_addrs set_i_lock]; rewrite ?E1, ?E2, ?Ers; try done; try lia.
  - apply F1.
  - by rewrite (ln_n _ _ _ _ (li_log _ _ _ _ _ F1)).
  - destruct (pl_laid _ _ _ (im_root_data _ _ Hok)) as [L _]. specialize (L (off / 1024)). fold off in L. change BSIZE with 1024 in *. rewrite Hal in L. change MAXFILE with 268 in L.
    unfold slot_of, loc in L. rewrite (proj2 (Z.ltb_lt (off / 1024) 12)), (proj2 (Z.ltb_lt (off / 1024) 13)) in L by lia. apply L; zlia.
Qed.
End Kernel.

(** ** Witnesses: the machine of one process with an image as its disk *)

Definition image_disk (m : mkst) : disk := Disk (img m) [].
Definition image_ino (m : mkst) (inum : Z) : inode :=
  load_dinode (dblock (image_disk m) (iblock mk_sb inum)) (ioffset inum) (Inode 1 inum 1 (Sleeplock 0 lock0 "inode" 0) 1 0 0 0 0 0 []).
Definition image_on (m : mkst) (inum off : Z) (bc : bcache) (s : kst) : kst :=
  setf 0 (small_file off) (seti 0 (image_ino m inum) (set_sb mk_sb (set_lg log2 (set_vd idle_vd (set_dk (image_disk m) (set_bc bc s)))))).

(** The references to the entries of the inode cache. *)
Definition one_ref (j : nat) : Z := if decide (j = 0%nat) then 1 else 0.

Lemma one_ref_room : room one_ref.
Proof. split; [intros j; unfold one_ref; case_decide; lia|]. exists 1%nat, 2%nat. split_and!; try done; apply elem_of_seq; change (Z.to_nat NINODE) with 50%nat; lia. Qed.

Record image_run (m : mkst) (inum off : Z) (s : kst) (l : list Z) (sh : shape) (U : gmap Z Z) (F : list Z) (p : Z) : Prop := {
  ir_open : opened 0 1 s 0 0 inum;
  ir_boots : boots m s;
  ir_space : uspace (k_m s) l sh U F;
  ir_high : high_ok U;
  ir_root : p_pagetable (getp s 0) = sh_root sh;
  ir_page : upage U 0 = Some p;
  ir_file : getf s 0 = small_file off;
  ir_cached : icache_ok 0 1 mk_sb s (dblock (k_dk s)) one_ref None }.

Lemma load_twice D o x : load_dinode D o (load_dinode D o x) = load_dinode D o x.
Proof. unfold load_dinode. generalize (dinode_addrs D o), (peek 4 D (o + 8)), (s16 (peek 2 D (o + 6))), (s16 (peek 2 D (o + 4))), (s16 (peek 2 D (o + 2))), (s16 (peek 2 D o)). done. Qed.

Lemma image_cached mk inum off bc m root tf : icache_ok 0 1 mk_sb (image_on mk inum off bc (solo_at m root tf)) (dblock (image_disk mk)) one_ref None.
Proof.
  set (s := image_on mk inum off bc (solo_at m root tf)).
  assert (forall j, geti s j = if decide (j = 0%nat) then image_ino mk inum else inode0) as Hg.
  { intros j. unfold s, image_on. change (geti (setf 0 ?f ?t) j) with (geti t j). rewrite geti_seti. destruct (decide (0%nat = j)) as [<-|Hj]; [done|]. rewrite decide_False by congruence. exact (f_equal (default inode0) (lookup_empty j)). }
  unfold one_ref. split; [by split|..].
  - intros j _. rewrite Hg. by case_decide.
  - intros j _. rewrite Hg. by case_decide.
  - intros j _ _. rewrite Hg. by case_decide.
  - intros j k _ _. repeat case_decide; subst; (done || lia).
  - intros j _. rewrite Hg. case_decide; [|lia]. intros _ _ _. unfold loaded. symmetry. apply load_twice.
  - done.
Qed.

Lemma image_run_at m root tf files mk V inum off l sh U F : fork_ready (solo_at m root tf) l 0 0 sh U F -> is_Some (upage U 0) ->
  (forall b, 0 <= b < FSSIZE -> img mk !! b = Some (V b)) -> image_ok V files -> 0 <= off <= i_size (image_ino mk inum) ->
  exists s p, image_run mk inum off s l sh U F p.
Proof.
  intros [H1 H2 _ H3 _ [Hroot [Hu Ht] _ Hok _] _ _ _] [p Hp] Himg Him Hoff. destruct (binit_cache (solo_at m root tf)) as (s' & _ & [bc ->] & Hc); [intros b; by split_and!|].
  set (s := image_on mk inum off bc (solo_at m root tf)). assert (cache 0 1 s (dblock (image_disk mk)) (fun _ => 0) ∅) as Hca by (apply (Hc s 0%nat 1); [reflexivity|split_and!; [done|done|done|done|apply solo_alone|by apply idle_vd_ok]|lia]).
  assert (forall b, 0 <= b < FSSIZE -> dblock (image_disk mk) b = V b) as HV by (intros b Hb; unfold dblock, image_disk; cbn [d_blocks]; by rewrite (Himg b Hb)).
  exists s, p. split; [|intros b Hb; rewrite (Himg b Hb); f_equal; symmetry; by apply HV|exact Hu|eapply top_high; [exact Ht|by apply page_ok_56]|exact Hroot|exact Hp|reflexivity|apply image_cached].
  split; [|  | |reflexivity|reflexivity|apply load_twice|by split| |reflexivity|exact Hoff].
  - split; [exact Hca|apply log2_names|done|reflexivity|reflexivity].
  - change (mk_sb = superblock_of (dblock (image_disk mk) 1)). rewrite HV by (change FSSIZE with 1000; lia). symmetry. apply Him.
  - cbn. lia.
  - change (1 <= 1 /\ 1 <> 0). lia.
Qed.

Lemma image_machine files mk V inum off : (forall b, 0 <= b < FSSIZE -> img mk !! b = Some (V b)) -> image_ok V files -> 0 <= off <= i_size (image_ino mk inum) ->
  exists s l sh U F p, image_run mk inum off s l sh U F p.
Proof.
  intros Himg Him Hoff. destruct solo_ready as (l & sh & U & F & Hr & _ & HF).
  destruct (image_run_at _ _ _ files mk V inum off l sh U F Hr HF Himg Him Hoff) as (s & p & H). by exists s, l, sh, U, F, p.
Qed.

Lemma image_user mk inum off s l sh U F p : image_run mk inum off s l sh U F p ->
  user_bytes 0 s l sh U F 16 [] /\ forall va, 0 <= va < 4096 -> uread (m_mem (k_m s)) U va <> None.
Proof.
  intros [_ _ H1 H2 H3 H4 _ _]. split; [split; try done; cbn; lia|]. intros va Hva. unfold uread. change PGSIZE with 4096. rewrite Z.div_small, Z.mod_small, H4 by lia. done.
Qed.

(** The size that ilock loads. *)
Lemma image_size files mk V inum : (forall b, 0 <= b < FSSIZE -> img mk !! b = Some (V b)) -> 0 <= inum < max_inode -> image_ok V files -> i_size (image_ino mk inum) = i_size (dinode_at V inum).
Proof.
  intros Himg Hi _. unfold image_ino, dinode_at, dblock, image_disk. cbn [d_blocks]. destruct (iblock_range inum Hi). rewrite Himg by (change FSSIZE with 1000; lia). done.
Qed.

Lemma mkfs_fileread_witness :
  exists m s s' U, mkfs demo mkfs_start = Ok tt m /\ boots m s /\ fileread 0 16 100 s = Ok 5 s' /\
    uread (m_mem (k_m s')) U <$> seqZ 16 5 = Some <$> [104; 101; 108; 108; 111].
Proof.
  destruct (mkfs_spec demo eq_refl) as (m & V & Hm & Himg & Hok). pose proof (im_files _ _ Hok 0%nat _ eq_refl) as Hs.
  assert (i_size (image_ino m 2) = 5) as Hz by (rewrite (image_size demo m V 2 Himg (conj (Z.le_0_2) eq_refl) Hok); exact (stored_size _ _ _ _ Hs)).
  destruct (image_machine demo m V 2 0 Himg Hok) as (s & l & sh & U & F & p & Hr); [lia|]. destruct (image_user _ _ _ _ _ _ _ _ _ Hr) as [Hub Hmap]. pose proof Hr as [Hop Hb _ _ _ _ Hf _].
  destruct (mkfs_fileread 0 1 demo m s 0 0 0 _ l sh U F 16 100 eq_refl Hm Hb eq_refl Hop) as (_ & _ & s' & E & _ & _ & Hread);
    [rewrite Hf; reflexivity|rewrite Hf; intros H; discriminate H|exact Hub|lia|lia|lia|intros va Hva; apply Hmap; lia|].
  rewrite Hf in E, Hread. exists m, s, s', U. split; [exact Hm|]. split; [exact Hb|]. split; [exact E|].
  change (seqZ 16 5) with [16; 17; 18; 19; 20]. cbn [fmap list_fmap]. rewrite !Hread. vm_compute. reflexivity.
Defined.

(** 62 empty files: with . and .., 64 entries of 16 bytes, a whole block. *)
Definition full_root : list input := replicate 62 (Input (str "f") (Some [])).

Lemma root_hole_panics_witness :
  exists m s, mkfs full_root mkfs_start = Ok tt m /\ boots m s /\ f_off (getf s 0) = 1024 /\ fileread 0 16 16 s = Panic "log_write outside of trans".
Proof.
  destruct (mkfs_spec full_root eq_refl) as (m & V & Hm & Himg & Hok).
  assert (i_size (image_ino m ROOTINO) = 2048) as Hz by (rewrite (image_size full_root m V ROOTINO Himg (conj (Z.le_0_1) eq_refl) Hok), (im_root _ _ Hok); reflexivity).
  destruct (image_machine full_root m V ROOTINO 1024 Himg Hok) as (s & l & sh & U & F & p & [Hop Hb _ _ _ _ Hf _]); [lia|].
  exists m, s. split; [exact Hm|]. split; [exact Hb|]. split; [rewrite Hf; reflexivity|].
  apply (root_hole_panics 0 1 full_root m s 0 0 16 16 eq_refl Hm Hb); [reflexivity|reflexivity|exact Hop|rewrite Hf; reflexivity|rewrite Hf; reflexivity|rewrite Hf; intros H; discriminate H|lia].
Defined.

(** The kernel in a transaction, on the disk of [demo]. *)
Lemma demo_transaction : exists m s, mkfs demo mkfs_start = Ok tt m /\ boots m s /\ in_tx 0 1 2 s [] (dblock (k_dk s)) ∅ /\ k_sb s = superblock_of (dblock (k_dk s) 1) /\ icache_ok 0 1 mk_sb s (dblock (k_dk s)) one_ref None.
Proof.
  destruct (mkfs_spec demo eq_refl) as (m & V & Hm & Himg & Hok). pose proof (im_files _ _ Hok 0%nat _ eq_refl) as Hs.
  assert (i_size (image_ino m 2) = 5) as Hz by (rewrite (image_size demo m V 2 Himg (conj (Z.le_0_2) eq_refl) Hok); exact (stored_size _ _ _ _ Hs)).
  destruct (image_machine demo m V 2 0 Himg Hok) as (s & l & sh & U & F & p & [Hop Hb _ _ _ _ _ Hic]); [lia|]. destruct (begin_op_spec 0 1 2 s _ (op_idle _ _ _ _ _ _ Hop)) as (s1 & _ & Hc & Hd & Htx).
  exists m, s1. rewrite Hd. split; [exact Hm|]. split; [unfold boots; rewrite Hd; exact Hb|]. split; [exact Htx|]. split; [rewrite (cm_sb _ _ _ Hc); exact (op_sb _ _ _ _ _ _ Hop)|].
  eapply ico_move; [exact Hic|intros j; unfold geti; by rewrite (cm_ic _ _ _ Hc)|by rewrite (cm_ic _ _ _ Hc)|exact (cm_pid _ _ _ Hc)|reflexivity].
Qed.

Lemma mkfs_namei_witness :
  exists m s j s', mkfs demo mkfs_start = Ok tt m /\ boots m s /\ namei (str "/cat") s = Ok (Some j) s' /\ i_inum (geti s' j) = 2.
Proof.
  destruct demo_transaction as (m & s & Hm & Hb & Htx & Hsb & Hic).
  destruct (mkfs_namei 0 1 demo m s one_ref 0 _ eq_refl Hm Hb ltac:(intros H; vm_compute in H; discriminate H) eq_refl) as (j & s' & E & _ & _ & N & _);
    [intros H; vm_compute in H; discriminate H|exact (bool_decide_unpack (0 ∉ str "cat") I)|intros H; vm_compute in H; discriminate H|intros H; vm_compute in H; discriminate H|intros j g Hj; lia|exact Htx|exact Hsb|exact Hic|exact one_ref_room|reflexivity|].
  exists m, s, j, s'. split; [exact Hm|]. split; [exact Hb|]. split; [exact E|exact N].
Defined.

(** The parent of //cat is the root, and the name is left in the array. *)
Lemma namex_correct_witness :
  exists s j name s', nameiparent (str "//cat") s = Ok (Some j, name) s' /\ i_inum (geti s' j) = ROOTINO /\ cname name = str "cat".
Proof.
  destruct demo_transaction as (m & s & Hm & Hb & Htx & Hsb & Hic). destruct (booted_image demo m s eq_refl Hm Hb) as [Hok Hr]. clear Hm. rewrite (im_sb _ _ Hok) in Hsb.
  destruct (namex_correct 0 1 2 mk_sb nmeta [] ltac:(cbn; lia) _ _ (im_fs _ _ Hok) (image_tree _ demo Hok Hr ltac:(intros H; vm_compute in H; discriminate H)) s one_ref (str "//cat") true Htx Hsb Hic one_ref_room eq_refl)
    as (r & name & s' & E & _ & _ & H); [exact (bool_decide_unpack (0 ∉ str "//cat") I)|vm_compute; split; [discriminate|reflexivity]|intros H; destruct H; reflexivity|].
  cbn [resolve] in H. change (start 0 s (str "//cat")) with ROOTINO in H. change (elems (str "//cat")) with [str "cat"] in H. cbn [resolve] in H. change (dino mk_sb ?v ROOTINO) with (dinode_at v ROOTINO) in H. rewrite (im_root _ _ Hok) in H.
  cbn [i_type file_inode] in H. change (T_DIR =? T_DIR) with true in H. change (true && bool_decide (@nil (list Z) = [])) with true in H. destruct H as (j & -> & _ & _ & N & _ & L).
  exists s, j, name, s'. split; [exact E|]. split; [exact N|]. specialize (L eq_refl). injection L as <-. reflexivity.
Defined.
