(* ===== verification/ConsoleTheorems.v ===== *)
(** * Theorems about the console *)

From S2P Require Import Prelude CString Layout Spinlock Kalloc State Output Vm Proc Console ProcSpec SleepSpec ConsoleSpec VmSpec AddrSpace UserMem UserCopy ObjCopy ProcMem SmallMachine ProcTheorems ForkTheorems.

Section Properties.
Context `{KI : KernelImage} `{IO : !ImageOk} `{OT : Others}.

(** C31: consoleintr implements the line discipline, for every key but
    control-P, which lists the processes: erase removes the last character of
    the line being edited, control-U the whole line, another character joins
    it unless the ring is full, and a newline, control-D or the last free
    place of the ring hands the line to the readers and wakes them.  What the
    key shows goes to the UART.  The counters keep r <= w <= e <= r + 128
    across their wrap, and the console is ready for the next key. *)
Theorem consoleintr_correct s c :
  cons_ready s -> 0 <= c < 256 -> c <> ctrl_P ->
  let q := (ready (k_cn s), line (k_cn s)) in
  exists s', consoleintr c s = Ok tt s' /\ cons_ready s' /\ (ready (k_cn s'), line (k_cn s')) = typed c q /\
    u_out (k_ua s') = u_out (k_ua s) ++ echo c q /\ readers c q s s'.
Proof. apply consoleintr_spec. Qed.

(** ** Writing to the console *)

(** sleep with two locks held never gets to sleep. *)
Lemma sleep_two_locks (l : lockref kst) `{!LockLaws l} ch s h i k :
  hart_ok h -> hart_of s = pushed (pushed h) -> c_proc (mycpu h) = Some i -> lock_free (p_lock (getp s i)) ->
  (forall k' s', getp (lk_put l k' s') i = getp s' i) -> (forall j p s', lk_get l (setp j p s') = lk_get l s') ->
  lock_free k -> lk_get l s = locked_by h k -> sleep ch (Some l) s = Panic "sched locks".
Proof.
  intros Hok Hh Hcur Hpl Hg1 Hg2 Hk Hlk. pose proof (pushed_ok _ Hok) as Hok1. pose proof (pushed_ok _ Hok1) as Hok2.
  unfold sleep. assert (curproc s = Ok i s) as Hcp.
  { rewrite (curproc_eq i) by (rewrite ?Hh, ?pushed_proc; done). f_equal. by rewrite Hh, touched_pushed, <- Hh, hart_put_get. }
  rewrite (bind_Ok _ _ _ _ _ Hcp), bind_assoc, (bind_Ok _ _ _ _ _ (acquire_plock i s Hpl)).
  assert (hart_of (in_plock i s) = pushed (pushed (pushed h))) as Hh3 by (unfold in_plock; rewrite <- Hh; done).
  assert (lk_get l (in_plock i s) = locked_by (pushed (pushed h)) k) as Hlk3.
  { unfold in_plock. rewrite Hg2, lk_get_hart, Hlk. unfold locked_by. by rewrite !pushed_tp. }
  rewrite (bind_Ok _ _ _ _ _ (release_eq l _ (pushed (pushed h)) k Hok2 Hk Hh3 Hlk3)). rewrite touched_pushed by done.
  set (t := lk_put l k _). unfold updp. mstep.
  set (u := setp i _ _). unfold sched.
  assert (hart_of u = pushed (pushed h)) as Hu by (unfold u, t; change (hart_of (setp ?a ?b ?c)) with (hart_of c);
    change (hart_of (setp ?a ?b ?c)) with (hart_of c); by rewrite hart_of_lk, hart_get_put).
  assert (p_lock (getp u i) = locked_by (hart_of s) (p_lock (getp s i))) as Hpu.
  { unfold u. rewrite !getp_setp, !decide_True by done. unfold t. rewrite Hg1. unfold in_plock.
    change (getp (put_hart ?x ?y) i) with (getp y i). rewrite getp_setp, decide_True by done. done. }
  assert (curproc u = Ok i u) as Hcu.
  { rewrite (curproc_eq i) by (rewrite ?Hu, ?pushed_proc; done). f_equal. by rewrite Hu, touched_pushed, <- Hu, hart_put_get. }
  rewrite bind_assoc, (bind_Ok _ _ _ _ _ Hcu). unfold holding. mstep.
  change (lk_get (plock i) u) with (p_lock (getp u i)). rewrite Hpu, Hu, Hh. cbn [locked_by lk_locked lk_cpu]. rewrite !pushed_tp.
  rewrite bool_decide_eq_true_2 by done. cbn [truthy Z.eqb negb andb].
  pose proof (pushed_noff _ Hok1) as N1. pose proof (pushed_noff _ Hok) as N2. destruct Hok as [N0 _].
  mstep. rewrite Hu. destruct (Z.eqb_spec (c_noff (mycpu (pushed (pushed h)))) 1); [lia|]. done.
Qed.

Lemma uartputc_locked s h i c :
  hart_ok h -> hart_of s = pushed h -> c_proc (mycpu h) = Some i -> lock_free (p_lock (getp s i)) ->
  lock_free (u_lock (k_ua s)) -> pr_panicked (k_pr s) = 0 -> uart_full (k_ua s) = true -> uartputc c s = Panic "sched locks".
Proof.
  intros Hok Hh Hcur Hpl Hul Hrun Hfull. unfold uartputc. rewrite (bind_Ok _ _ _ _ _ (acquire_eq uartlock s Hul)). mstep.
  set (t := lk_put uartlock _ _). change (pr_panicked (k_pr t)) with (pr_panicked (k_pr s)). rewrite Hrun. change (truthy 0) with false. cbv iota.
  unfold sleep_while. cbn [sleep_while_loop]. mstep. change (uart_full (k_ua t)) with (uart_full (k_ua s)). rewrite Hfull. mstep.
  unfold bind at 1. rewrite (sleep_two_locks uartlock ChUart t h i (u_lock (k_ua s))); try done.
  - unfold t. rewrite hart_of_lk, hart_get_put, Hh. done.
  - unfold t. rewrite lk_get_put, Hh. unfold locked_by. by rewrite pushed_tp.
Qed.

(** C40: a process that writes to the console while the UART's transmit buffer
    is full does not wait for it to drain: consolewrite holds cons.lock when
    uartputc goes to sleep, sched finds a second lock held, and the kernel
    panics. *)
Theorem consolewrite_panics s i l sh U F a b n :
  hart_ok (hart_of s) -> c_proc (mycpu (hart_of s)) = Some i -> lock_free (p_lock (getp s i)) ->
  lock_free (cn_lock (k_cn s)) -> lock_free (u_lock (k_ua s)) -> pr_panicked (k_pr s) = 0 ->
  p_pagetable (getp s i) = sh_root sh -> uspace (k_m s) l sh U F -> high_ok U -> 0 <= a -> uread (m_mem (k_m s)) U a = Some b ->
  0 < n -> uart_full (k_ua s) = true ->
  consolewrite (SUser a) n s = Panic "sched locks".
Proof.
  intros Hh Hcur Hpl Hcl Hul Hrun Hroot Hsp Hhigh Ha Hb Hn Hfull. unfold consolewrite.
  rewrite (bind_Ok _ _ _ _ _ (acquire_eq conslock s Hcl)). set (t := lk_put conslock _ _).
  assert (hart_of t = pushed (hart_of s)) as Ht by done.
  destruct (Z.to_nat n) as [|k] eqn:Ek; [lia|]. cbn [consolewrite_loop].
  assert (either_copyin (SUser a) 1 t = Ok (0, [b]) t) as Hc.
  { unfold either_copyin. rewrite <- bind_assoc. change (bind myproc deref) with curproc.
    assert (curproc t = Ok i t) as Hcp.
    { rewrite (curproc_eq i) by (rewrite ?Ht, ?pushed_proc; try done; by apply pushed_ok). f_equal. by rewrite Ht, touched_pushed, <- Ht, hart_put_get. }
    rewrite (bind_Ok _ _ _ _ _ Hcp). mstep. change (p_pagetable (getp t i)) with (p_pagetable (getp s i)). rewrite Hroot.
    pose proof (uspace_hart _ _ _ _ _ (pushed (hart_of s)) Hsp (pushed_ok _ Hh)) as Hsp'.
    rewrite (memop_Ok _ t _ _ (copyin_byte (k_m t) l sh U F a Hsp' Hhigh Ha)).
    change (m_mem (k_m t)) with (m_mem (k_m s)). rewrite Hb. by destruct t. }
  rewrite bind_assoc, (bind_Ok _ _ _ _ _ Hc). cbn [fst snd hd]. change (0 =? -1) with false. cbv iota.
  unfold bind. by rewrite (uartputc_locked t (hart_of s) i b).
Qed.
End Properties.

(** ** Witnesses: the console of a machine that has just started, and a process
    on the small machine while the transmit buffer is full *)

Definition new_console : kst := zero_kst (Mst sample_hart ∅ (Kmem lock0 0) 0).

Lemma new_console_ready : cons_ready new_console.
Proof.
  split; [split; done|intros j; split; reflexivity|reflexivity|split; reflexivity|].
  split; try done. apply not_elem_of_nil.
Qed.

Lemma consoleintr_correct_witness :
  exists s', consoleintr 97 new_console = Ok tt s' /\ line (k_cn s') = [97] /\ u_out (k_ua s') = [97].
Proof.
  destruct (consoleintr_correct new_console 97 new_console_ready) as (s' & Hs & _ & Hq & Ho & _); [lia|vm_compute; discriminate|].
  exists s'. split; [exact Hs|]. split; [exact (f_equal snd Hq)|exact Ho].
Defined.

Definition stuck : kst := set_ua (Uart lock0 (replicate 32 0) 31 0 [] [] 0) solo.

Lemma consolewrite_panics_witness : consolewrite (SUser 16) 1 stuck = Panic "sched locks".
Proof.
  destruct solo_ready as (l & sh & U & F & [H1 H2 _ H3 _ H4 _ _ _] & _ & HU). destruct H4 as [Hroot [Hu Ht] _ Hok _].
  assert (is_Some (uread (m_mem (k_m stuck)) U 16)) as [b Hb] by (unfold uread; apply fmap_is_Some; exact HU).
  apply (consolewrite_panics stuck 0 l sh U F 16 b).
  - exact H1.
  - exact H3.
  - exact (H2 0%nat).
  - split; reflexivity.
  - split; reflexivity.
  - reflexivity.
  - exact Hroot.
  - exact Hu.
  - eapply top_high; [exact Ht|]. by apply page_ok_56.
  - lia.
  - exact Hb.
  - lia.
  - reflexivity.
Defined.
